(* ===== verification/_CoqProject ===== *)
-Q . S2P
Prelude.v
Endian.v
Messages.v
Replay.v
PacketQueue.v
Platform.v
Session.v
Base64.v
InnerPacket.v
Timers.v
Blake2s.v
Crypto.v
Device.v
Data.v
Identity.v
Noise.v
Admission.v
Macs.v
Handshake.v
Agreement.v
Exchange.v
Peer.v
Tunnel.v
PeerController.v
Guard.v
RateLimit.v
Cookie.v
Abort.v
RuntimeEvents.v
PeerRuntime.v
RuntimeSockets.v
RuntimeBudget.v
RuntimeAborts.v
RuntimeStale.v
Coordinator.v
DataPlane.v
Inbox.v
Submission.v
Daemon.v
FlowPolicy.v
FlowPlane.v
FlowTuples.v
FlowRings.v
FlowInbox.v
ConfigText.v
ConfigLoader.v
Startup.v
AddrInfo.v
Endpoint.v
WorkQueue.v
DebugProbe.v
Resolver.v
TimerList.v
TimerScheduler.v
TunnelClient.v
TunnelWorker.v
TunnelQueues.v
TunnelSockets.v
TunnelDispatch.v
TunnelThreads.v
TunnelOrder.v
