(* ===== verification/Prelude.v ===== *)
(** * WireGuard-NX: a verification development

    WireGuard-NX is a WireGuard client for a console: a system module
    ([src/wg-sysmodule/]) that runs the protocol and forwards inner IP packets.
    This library models the protocol core, [src/wg-sysmodule/src/wireguard/], and
    the part of the runtime that drives it, [src/wg-sysmodule/src/runtime/].

    ** The program

    A [wg_device] holds one [wg_peer]: keys, handshake state, three keypairs, a
    cookie, timers and a queue of staged packets.  The handlers of the handshake
    and of transport data change it; they call clocks, entropy and cryptographic
    primitives.  A [PeerRuntime] wraps a device with its socket binding, its
    life-cycle state and at most one datagram that is being sent.  It is an event
    handler: each [PeerEvent] (a bind opened, a datagram received or sent, a timer
    expired, a packet staged, ...) is handled by one function, which changes the
    runtime and returns a bounded batch of [RuntimeEffect]s for the outside to carry
    out.  A [PeerRegistry] holds eight peers and the index of the active one;
    [RuntimeCoordinator] is its facade; [PacketDataPlane] takes inner packets from
    consumers into the active peer and keeps the received ones for them.  A
    [TunnelFlowPlane] serves the clients of the tunnel: each opens UDP flows to
    addresses that the routes of the active peer cover, gets an address tuple for
    each, and takes the datagrams that arrive for them from a ring of completions.
    [DaemonRuntime] loads the peers from the card on its first use, selects the active
    one and stores which peer to start.  Ordered work queues, each with one thread, run
    the work that leaves the runtime: resolving an endpoint, sending, receiving.

    ** The files

    Prelude.v        notations, automation, generic lemmas; the monad [M] of
                     computations that return early
    Endian.v         [endian.hpp]
    Messages.v       [messages.cpp], [dispatch.cpp]: the wire messages
    Replay.v         [ReplayWindow] of [session.cpp]
    PacketQueue.v    [InnerPacketQueue] of [inner_packet.hpp]
    Platform.v       clocks and entropy as an oracle, the [World]
    Session.v        keys, cookies and keypairs of [session.cpp]
    Base64.v         the text form of keys, [session.cpp]
    InnerPacket.v    [inner_packet.cpp]: validation, AllowedIPs
    Timers.v         [timers.cpp], [timer_coordinator.cpp], [timer_schedule.cpp]
    Blake2s.v        [crypto/third_party/blake2/blake2s-ref.c]
    Crypto.v         [crypto/primitives.cpp] over the class [Primitives]
    Device.v         [device.cpp], [index_allocator.cpp]; the structs of [peer.hpp]
    Data.v           [data.cpp]: transport data
    Identity.v       static identities, [session.cpp]
    Noise.v          the key schedule of [handshake.cpp]
    Admission.v      denial-of-service protection of [handshake.cpp]
    Macs.v           what the authentication codes compute
    Handshake.v      the handlers of [handshake.cpp]
    Agreement.v      both sides of each handshake message
    Exchange.v       the complete handshake
    Peer.v           [peer.cpp]
    Tunnel.v         handshake followed by transport data
    PeerController.v [peer_controller.cpp]
    Guard.v          replay protection of initiations
    RateLimit.v      bounds on the admitted handshake packets
    Cookie.v         cookies end to end
    Abort.v          the monad [Run] of computations that can abort, with its
                     weakest precondition
    RuntimeEvents.v  [runtime_events.hpp], [udp_binding.cpp], the structs of
                     [peer_runtime.hpp]
    PeerRuntime.v    [runtime/peer/]: every event handler
    RuntimeSockets.v sockets: owned or closed, never lost
    RuntimeBudget.v  the outbound side stays within its effect budgets
    RuntimeAborts.v  the events that exceed theirs
    RuntimeStale.v   events of the past
    Coordinator.v    [PeerRegistry], [runtime_coordinator.cpp]
    DataPlane.v      [packet_data_plane.cpp], [packet_channel.hpp]
    Inbox.v          the receiving side as an abstract inbox
    Submission.v     the sending side
    Daemon.v         [SetActivePeer] of [daemon_runtime.cpp]
    FlowPolicy.v     the routing policy of [tunnel_flow_plane.cpp]
    FlowPlane.v      clients, flows and completions of [tunnel_flow_plane.cpp]
    FlowTuples.v     the address tuples of flows
    FlowRings.v      the rings of completions and the slabs of datagrams
    FlowInbox.v      the flow plane as one inbox per client
    ConfigText.v     [config_text_validation.cpp], the parser of [config_loader.cpp]
    ConfigLoader.v   [fs_runtime.cpp], [config_loader.cpp], [peer_configuration.cpp]
    Startup.v        first use and [SetAutoStartPeer] of [daemon_runtime.cpp]
    AddrInfo.v       [resolver_serialization.cpp]
    Endpoint.v       [endpoint_parser.cpp], [endpoint_resolution.cpp]
    WorkQueue.v      the work queues of [platform/horizon/work.cpp]

    A definition has the name of the function, method or type it models; a method
    whose bare name is taken has its class in front ([Queue_Push],
    [keypair_Reset], [Channel_Claim]), a static helper its own name.  A method
    takes the object and returns it after its result.

    ** Conventions

    Machine integers are [Z], reduced to their width where the code can wrap
    ([u8] ... [u64], [i32]).  Bytes are [list Z]; a span the code writes is passed in and
    returned.  A character array of a configuration is the C string it holds.
    Times are nanoseconds, timer deadlines milliseconds.  Pointers that the code
    does not check are not null; a checked one is an [option].  Erasing memory is
    writing zeros.  Moves leave the source as the code leaves it.  Logging is left
    out everywhere.

    Calls of the platform (clocks, entropy) read a [World], which fixes the answer
    of every future call; theorems hold for all worlds that satisfy the stated
    conditions.  The vendored ciphers, the curve and the constant-time comparison
    are the fields of the class [Primitives]; [PrimitivesLaws] states that
    decryption inverts encryption, the sizes of results, and that the curve
    commutes.  [toy_primitives] with [toy_laws] shows the laws can hold.  No
    theorem speaks about secrecy, which is not a property of the code alone.

    A helper that returns [false] is a computation that returns [None] where it
    has not written before failing, and a pair of a flag and the state where it
    has.  The handlers of the runtime are computations of [Run]; [None] is
    [std::abort].  An interface of the C++ code (a class with virtual methods, a
    concept two message types satisfy) is a type class, its contract a second class
    of laws: [PacketTransport] and [PacketTransportLaws], [MacMessageLaws].  The
    libraries that the code calls are classes too: [IniParser], [Filesystem] with
    [FilesystemLaws] and [AddressText] with [AddressTextLaws], with instances that show
    the laws can hold.

    Threads are explicit: a state with the phase of each thread, a function for one
    step (a section under a lock), and theorems about every order of the steps
    ([set_step] of Startup.v, [wq_step] of WorkQueue.v).

    Loops: a loop over a container is structural.  The search for a fresh index
    makes at most 32 attempts and that for a free tuple 16384, as the code does;
    parsing loops have the length of their input (or one more) as fuel, and each turn
    takes at least one character; a printed number has at most 20 digits; a drain of
    completions takes as many as the ring holds; the loop that drains the staging queue has the size of the
    queue plus one, and RuntimeBudget.v proves that it ends within it.

    ** The theorems

    Wire format and data structures: encoding and dispatch of messages are inverse
    (Messages.v); the replay window refines a set of accepted counters (Replay.v);
    the queue refines a bounded list and its counters balance (PacketQueue.v); the
    timer schedule delivers what is armed and never a cancelled expiration (Timers.v);
    hashing does not depend on how the input is cut (Blake2s.v); checksums, padding,
    AllowedIPs and keys in text form are what their specifications say (InnerPacket.v,
    Base64.v).

    Protocol: two configured peers that exchange the messages of a handshake derive
    matching keys (Exchange.v) and then deliver every packet they seal unchanged
    (Tunnel.v, Data.v); a nonce is never used twice under a key, a packet is delivered
    at most once, an initiation is accepted at most once (Data.v, Guard.v); an
    incoming packet is rejected exactly for the stated reasons (Data.v);
    retransmission gives up after its limit (PeerController.v); the number of
    handshake packets admitted in any span of time is bounded (RateLimit.v); a
    cookie reply lets its receiver through (Cookie.v); erasing key material leaves
    none (Peer.v).

    Runtime: every socket is owned or closed exactly once (RuntimeSockets.v); a
    ready peer handles its outbound events within their effect budgets and never
    aborts (RuntimeBudget.v), while two kinds of event exceed them
    (RuntimeAborts.v); an event of an earlier activation changes nothing
    (RuntimeStale.v); the data plane refines an abstract inbox over any lawful
    transport (Inbox.v) and submissions report what the state determines
    (Submission.v); selecting another peer while one is connected overflows the
    batch of effects (Daemon.v).

    Tunnel: the selected route is the longest that covers the address (FlowPolicy.v);
    no two live flows share a tuple and a tuple rests for a minute (FlowTuples.v); no
    slab is lost or used twice (FlowRings.v); the plane refines one inbox per client
    (FlowInbox.v).

    Configuration: a text gives a configuration exactly if its entries are valid
    (ConfigText.v); the loaded peers are those of the files of the directory, in order
    (ConfigLoader.v); the stored peer to start is loaded again (ConfigLoader.v), the
    last request to change it wins (Startup.v), and the first use never aborts
    (Startup.v).

    Endpoints and work: the endpoint parser accepts exactly its two forms, and the text
    of an endpoint resolves to it (Endpoint.v); an answer of the resolver is accepted
    exactly if all its records are well formed (AddrInfo.v); work that a queue accepts is
    taken in a bounded number of steps (WorkQueue.v).

    ** Not modelled

    The vendored Monocypher and lwIP; sockets, the creation of threads and the pool of
    work queues; IPC services, logging and the user interfaces; the interception of
    sockets in [src/mitm-sysmodule/]; the debug probe.  Planned: the effect budget of the
    inbound and timer events, the timers of the platform and their scheduler, the
    executor of effects and the receive pump. *)

From stdpp Require Export prelude strings.
From Stdlib Require Export Lia ZArith.

(** ** Scopes, notations and automation *)

Declare Scope wg_scope.
Delimit Scope wg_scope with wg.
Open Scope wg_scope.

Abbreviation bytes := (list Z).

Create HintDb wg.
Create Rewrite HintDb wg_len.

(** [size_solve] proves goals on lengths of lists built from [take], [drop],
    [++], [replicate] and updates. *)
Ltac size_simpl :=
  repeat progress (rewrite ?length_app, ?length_take, ?length_drop, ?length_replicate,
    ?length_insert, ?length_fmap, ?length_seq, ?length_reverse in * ).
Ltac size_solve := simpl in *; autorewrite with wg_len in *; size_simpl; simpl in *; lia.

(** Case analysis on the conditionals of a definition under study. *)
Ltac case_if :=
  match goal with
  | |- context [if ?b then _ else _] => destruct b eqn:?
  end.
Ltac case_if_in H :=
  match type of H with
  | context [if ?b then _ else _] => destruct b eqn:?
  end.

(** Boolean conditions into propositions that [lia] understands. *)
Ltac bool_prop :=
  repeat match goal with
  | H : (_ && _) = true |- _ => apply andb_true_iff in H as [? ?]
  | H : (_ || _) = false |- _ => apply orb_false_iff in H as [? ?]
  | H : negb _ = true |- _ => apply negb_true_iff in H
  | H : negb _ = false |- _ => apply negb_false_iff in H
  | H : (_ =? _)%Z = true |- _ => apply Z.eqb_eq in H
  | H : (_ =? _)%Z = false |- _ => apply Z.eqb_neq in H
  | H : (_ <? _)%Z = true |- _ => apply Z.ltb_lt in H
  | H : (_ <? _)%Z = false |- _ => apply Z.ltb_ge in H
  | H : (_ <=? _)%Z = true |- _ => apply Z.leb_le in H
  | H : (_ <=? _)%Z = false |- _ => apply Z.leb_gt in H
  | H : (_ =? _)%nat = true |- _ => apply Nat.eqb_eq in H
  | H : (_ =? _)%nat = false |- _ => apply Nat.eqb_neq in H
  | H : (_ <? _)%nat = true |- _ => apply Nat.ltb_lt in H
  | H : (_ <? _)%nat = false |- _ => apply Nat.ltb_ge in H
  | H : (_ <=? _)%nat = true |- _ => apply Nat.leb_le in H
  | H : (_ <=? _)%nat = false |- _ => apply Nat.leb_gt in H
  | H : bool_decide _ = true |- _ => apply bool_decide_eq_true_1 in H
  | H : bool_decide _ = false |- _ => apply bool_decide_eq_false_1 in H
  end.

(** ** Functional update of records

    A C++ assignment [r.field = v] is the record update [r <| field := v |>].
    [Eta R] gives the constructor of [R] applied to its projections; the setter
    of a field is derived from it when the update is elaborated. *)

Class Eta (R : Type) := eta : R -> R.

Class Setter {R T : Type} (field : R -> T) := upd : (T -> T) -> R -> R.
Arguments upd {R T} field {_} _ _.

Ltac derive_setter :=
  lazymatch goal with
  | |- @Setter ?R ?T ?field =>
      let inst := constr:(_ : Eta R) in
      let g := fresh "g" in
      let r := fresh "r" in
      red; intros g r;
      let e := eval hnf in (inst r) in
      lazymatch eval pattern (field r) in e with
      | ?k _ => exact (k (g (field r)))
      end
  end.
#[export] Hint Extern 0 (Setter _) => derive_setter : typeclass_instances.

Notation "r <| field := v |>" := (upd field (fun _ => v) r)
  (at level 1, left associativity, field at level 11, v at level 200,
   format "r  <|  field  :=  v  |>") : wg_scope.
Notation "r <| field ::= f |>" := (upd field f r)
  (at level 1, left associativity, field at level 11, f at level 200) : wg_scope.

(** ** Machine integers

    An unsigned [w]-bit integer is a [Z]; the places where the C++ type wraps
    around are written out with [wrap w]. *)

Local Open Scope Z_scope.

Definition wrap (w z : Z) : Z := z mod 2 ^ w.
Abbreviation u8 := (wrap 8).
Abbreviation u16 := (wrap 16).
Abbreviation u32 := (wrap 32).
Abbreviation u64 := (wrap 64).

Definition in_width (w z : Z) : Prop := 0 <= z < 2 ^ w.
Abbreviation is_byte := (in_width 8).
Abbreviation is_u32 := (in_width 32).
Abbreviation is_u64 := (in_width 64).

#[export] Instance in_width_dec w z : Decision (in_width w z).
Proof. unfold in_width. apply _. Defined.

Lemma wrap_width w z : 0 <= w -> in_width w (wrap w z).
Proof. intros. apply Z.mod_pos_bound. lia. Qed.

Lemma wrap_id w z : in_width w z -> wrap w z = z.
Proof. intros. apply Z.mod_small. done. Qed.

Lemma wrap_idemp w z : 0 <= w -> wrap w (wrap w z) = wrap w z.
Proof. intros. apply wrap_id, wrap_width. done. Qed.

Lemma width_mono w w' z : 0 <= w <= w' -> in_width w z -> in_width w' z.
Proof.
  unfold in_width. intros ? [? ?]. split; [done|].
  eapply Z.lt_le_trans; [done|]. apply Z.pow_le_mono_r; lia.
Qed.
#[export] Hint Resolve wrap_width wrap_id : wg.

(** *** Congruence modulo [2^w]

    Counters that wrap around are compared by [cong w]; sums rewrite under it. *)

Definition cong (w a b : Z) : Prop := wrap w a = wrap w b.

#[export] Instance cong_equiv w : Equivalence (cong w).
Proof. unfold cong. split; [by intros x|by intros x y|intros x y z; congruence]. Qed.
#[export] Instance cong_add w : Proper (cong w ==> cong w ==> cong w) Z.add.
Proof.
  unfold cong, wrap. intros a a' Ha b b' Hb. by rewrite Zplus_mod, Ha, Hb, <- Zplus_mod.
Qed.
Lemma cong_wrap w z : cong w (wrap w z) z.
Proof. apply Zmod_mod. Qed.

(** *** Bit operations as arithmetic *)

Lemma land_mask w z : 0 <= w -> Z.land z (2 ^ w - 1) = z mod 2 ^ w.
Proof.
  intros. rewrite Z.sub_1_r, <- Z.ones_equiv. apply Z.land_ones. done.
Qed.

Lemma land_255 z : Z.land z 255 = z mod 256.
Proof. exact (land_mask 8 z ltac:(lia)). Qed.

Lemma lor_shiftl a b n :
  0 <= n -> in_width n a -> Z.lor a (Z.shiftl b n) = a + b * 2 ^ n.
Proof.
  intros Hn Ha. rewrite <- Z.shiftl_mul_pow2 by done.
  rewrite <- Z.lxor_lor, Z.add_nocarry_lxor; [done| |].
  all: apply Z.bits_inj_0; intros i; rewrite Z.land_spec.
  all: destruct (Z.lt_ge_cases i n) as [Hi|Hi].
  1,3: rewrite (Z.shiftl_spec_low b n i), andb_false_r by lia; done.
  all: rewrite <- (wrap_id n a) by done; unfold wrap.
  all: rewrite Z.mod_pow2_bits_high by lia; done.
Qed.

Lemma shiftr_div z n : 0 <= n -> Z.shiftr z n = z / 2 ^ n.
Proof. apply Z.shiftr_div_pow2. Qed.

Lemma lor_width w a b : 0 <= w -> in_width w a -> in_width w b -> in_width w (Z.lor a b).
Proof.
  intros Hw Ha Hb. unfold in_width in *.
  split; [rewrite Z.lor_nonneg; lia|].
  destruct (Z.eq_dec (Z.lor a b) 0) as [->|Hne]; [lia|].
  assert (0 <= Z.lor a b) by (rewrite Z.lor_nonneg; lia).
  apply Z.log2_lt_pow2; [lia|]. rewrite Z.log2_lor by lia.
  destruct (Z.eq_dec a 0) as [->|], (Z.eq_dec b 0) as [->|];
    rewrite ?Z.lor_0_l, ?Z.lor_0_r in *; try done.
  - apply Z.max_lub_lt; [|apply Z.log2_lt_pow2; lia].
    change (Z.log2 0) with 0. apply Z.le_lt_trans with (Z.log2 b); [apply Z.log2_nonneg|].
    apply Z.log2_lt_pow2; lia.
  - apply Z.max_lub_lt; [apply Z.log2_lt_pow2; lia|].
    change (Z.log2 0) with 0. apply Z.le_lt_trans with (Z.log2 a); [apply Z.log2_nonneg|].
    apply Z.log2_lt_pow2; lia.
  - apply Z.max_lub_lt; apply Z.log2_lt_pow2; lia.
Qed.

(** ** Byte strings

    [std::span<const uint8_t>] and [std::array<uint8_t, N>] are lists of
    integers; [bytes_of n l] says that [l] is an array of [n] bytes. *)

Definition bytes_ok (l : bytes) : Prop := Forall is_byte l.
Definition bytes_of (n : nat) (l : bytes) : Prop := length l = n /\ bytes_ok l.

#[export] Instance bytes_ok_dec l : Decision (bytes_ok l).
Proof. unfold bytes_ok. apply _. Defined.
#[export] Instance bytes_of_dec n l : Decision (bytes_of n l).
Proof. unfold bytes_of. apply _. Defined.

(** Reading an element of a span, [data[i]]. *)
Definition byte_at (l : bytes) (i : nat) : Z := default 0 (l !! i).

(** [span.subspan(offset, count)]. *)
Definition subspan (l : bytes) (offset count : nat) : bytes := take count (drop offset l).

(** [std::ranges::copy(value, output.begin() + offset)]. *)
Definition write_at (l : bytes) (offset : nat) (value : bytes) : bytes :=
  take offset l ++ value ++ drop (offset + length value) l.

(** The characters of a string literal, without its terminator. *)
Definition chars (s : string) : bytes :=
  (fun c => Z.of_N (Ascii.N_of_ascii c)) <$> String.list_ascii_of_string s.
(** A character literal, written as a one-character string. *)
Definition char (s : string) : Z := byte_at (chars s) 0.

(** [while (!text.empty() && skipped(text.front())) text.remove_prefix(1);] *)
Fixpoint drop_while (skipped : Z -> bool) (text : bytes) : bytes :=
  match text with
  | c :: rest => if skipped c then drop_while skipped rest else text
  | [] => []
  end.
(** The same from the back. *)
Definition drop_while_end (skipped : Z -> bool) (text : bytes) : bytes := reverse (drop_while skipped (reverse text)).
Lemma drop_while_length skipped text : (length (drop_while skipped text) <= length text)%nat.
Proof. induction text as [|c text IH]; cbn [drop_while length]; [done|]. destruct (skipped c); cbn [length]; lia. Qed.
Lemma drop_while_end_length skipped text : (length (drop_while_end skipped text) <= length text)%nat.
Proof.
  unfold drop_while_end. pose proof (drop_while_length skipped (reverse text)). by rewrite !length_reverse in *.
Qed.
Lemma drop_while_split skipped text : exists front, text = front ++ drop_while skipped text /\
  Forall (fun c => skipped c = true) front /\
  match drop_while skipped text with c :: _ => skipped c = false | [] => True end.
Proof.
  induction text as [|c text (front & E & Hf & Hn)]; [by exists []|]. cbn [drop_while]. destruct (skipped c) eqn:Ec.
  - exists (c :: front). split; [by cbn; f_equal|]. split; [by constructor|done].
  - by exists [].
Qed.
Lemma drop_while_app skipped front text : Forall (fun c => skipped c = true) front ->
  match text with c :: _ => skipped c = false | [] => True end -> drop_while skipped (front ++ text) = text.
Proof.
  intros Hf Ht. induction Hf as [|c front Hc Hf IH]; cbn [app drop_while].
  - destruct text as [|c text]; [done|]. cbn [drop_while]. by rewrite Ht.
  - by rewrite Hc.
Qed.
Lemma drop_while_same skipped text : match text with c :: _ => skipped c = false | [] => True end ->
  drop_while skipped text = text.
Proof. apply (drop_while_app skipped []). constructor. Qed.

(** A value-initialised array, [std::array<uint8_t, n>{}]. *)
Definition zeros (n : nat) : bytes := replicate n 0.

Lemma bytes_ok_app l k : bytes_ok (l ++ k) <-> bytes_ok l /\ bytes_ok k.
Proof. apply Forall_app. Qed.
Lemma bytes_ok_cons b l : bytes_ok (b :: l) <-> is_byte b /\ bytes_ok l.
Proof. apply Forall_cons. Qed.
Lemma bytes_ok_take n l : bytes_ok l -> bytes_ok (take n l).
Proof. apply Forall_take. Qed.
Lemma bytes_ok_drop n l : bytes_ok l -> bytes_ok (drop n l).
Proof. apply Forall_drop. Qed.
Lemma bytes_ok_subspan l o n : bytes_ok l -> bytes_ok (subspan l o n).
Proof. intros. by apply bytes_ok_take, bytes_ok_drop. Qed.
Lemma bytes_ok_zeros n : bytes_ok (zeros n).
Proof. apply Forall_replicate. unfold in_width. lia. Qed.
Lemma bytes_ok_nil : bytes_ok [].
Proof. constructor. Qed.
Lemma byte_at_ok l i : bytes_ok l -> is_byte (byte_at l i).
Proof.
  intros H. unfold byte_at. destruct (l !! i) eqn:E; simpl.
  - by eapply Forall_lookup_1.
  - unfold in_width; lia.
Qed.
#[export] Hint Resolve bytes_ok_take bytes_ok_drop bytes_ok_subspan bytes_ok_zeros
  bytes_ok_nil byte_at_ok : wg.

Lemma length_zeros n : length (zeros n) = n.
Proof. apply length_replicate. Qed.
Lemma length_subspan l o n : length (subspan l o n) = (n `min` (length l - o))%nat.
Proof. unfold subspan. by rewrite length_take, length_drop. Qed.
Lemma length_write_at l o v :
  (o + length v <= length l)%nat -> length (write_at l o v) = length l.
Proof. intros. unfold write_at. size_simpl. lia. Qed.
#[export] Hint Rewrite length_zeros length_subspan : wg_len.

Lemma bytes_of_zeros n : bytes_of n (zeros n).
Proof. split; [apply length_zeros | apply bytes_ok_zeros]. Qed.
Lemma bytes_of_subspan l o n :
  bytes_ok l -> (o + n <= length l)%nat -> bytes_of n (subspan l o n).
Proof. intros. split; [rewrite length_subspan; lia | auto with wg]. Qed.
#[export] Hint Resolve bytes_of_zeros : wg.

Lemma subspan_app_l l k n : length l = n -> subspan (l ++ k) 0 n = l.
Proof. intros <-. unfold subspan. by rewrite drop_0, take_app_length. Qed.
Lemma subspan_app_r l k o n :
  (length l <= o)%nat -> subspan (l ++ k) o n = subspan k (o - length l) n.
Proof. intros. unfold subspan. by rewrite drop_app_ge. Qed.
Lemma subspan_all l n : length l = n -> subspan l 0 n = l.
Proof. intros <-. unfold subspan. by rewrite drop_0, firstn_all. Qed.
Lemma subspan_split l o n m :
  subspan l o n ++ subspan l (o + n) m = subspan l o (n + m).
Proof.
  unfold subspan. rewrite <- (take_drop n (take (n + m) (drop o l))) at 1.
  rewrite take_take, Nat.min_l by lia. f_equal.
  rewrite skipn_firstn_comm, drop_drop. f_equal. lia.
Qed.
Lemma byte_at_drop l o i : byte_at (drop o l) i = byte_at l (o + i).
Proof. unfold byte_at. by rewrite lookup_drop. Qed.
Lemma byte_at_take l n i : (i < n)%nat -> byte_at (take n l) i = byte_at l i.
Proof. intros. unfold byte_at. by rewrite lookup_take_lt. Qed.

(** ** Stateful code that can return early

    A C++ function that mutates its arguments and returns [false] at several
    points is a computation of [M S A]: it threads the mutable state [S], and
    an early [return false] is [None] with the state reached so far (mutations
    made before the early return are kept). *)

Definition M (S A : Type) : Type := S -> option A * S.

#[export] Instance M_ret S : MRet (M S) := fun _ a s => (Some a, s).
#[export] Instance M_bind S : MBind (M S) := fun _ _ k m s =>
  match m s with
  | (Some a, s') => k a s'
  | (None, s') => (None, s')
  end.

Section MonadOps.
Context {S : Type}.

(** [if (!b) return false;] *)
Definition require (b : bool) : M S unit := fun s => (if b then Some tt else None, s).
(** The value of a fallible helper; its failure returns [false]. *)
Definition try_opt {A} (o : option A) : M S A := fun s => (o, s).
(** An assignment. *)
Definition modify (f : S -> S) : M S unit := fun s => (Some tt, f s).
(** Reading the state. *)
Definition gets {A} (f : S -> A) : M S A := fun s => (Some (f s), s).
(** An operation that always succeeds and returns a value with the new state. *)
Definition step_with {A} (f : S -> A * S) : M S A := fun s => let '(a, s') := f s in (Some a, s').

(** The boolean the C++ function returns, with the state it leaves. *)
Definition run_bool {A} (m : M S A) (s : S) : bool * S :=
  match m s with
  | (Some _, s') => (true, s')
  | (None, s') => (false, s')
  end.

Lemma bind_Some {A B} (m : M S A) (k : A -> M S B) s b s'' :
  (m ≫= k) s = (Some b, s'') <->
  exists a s', m s = (Some a, s') /\ k a s' = (Some b, s'').
Proof.
  unfold mbind, M_bind. split.
  - destruct (m s) as [[a|] s']; [eauto|done].
  - by intros (a & s' & -> & ?).
Qed.

(** Running a sequence step by step. *)
Lemma bind_modify {A} f (k : unit -> M S A) s : (modify f ≫= k) s = k tt (f s).
Proof. done. Qed.
Lemma bind_gets {A B} (f : S -> A) (k : A -> M S B) s : (gets f ≫= k) s = k (f s) s.
Proof. done. Qed.
Lemma bind_require {A} b (k : unit -> M S A) s :
  (require b ≫= k) s = if b then k tt s else (None, s).
Proof. by destruct b. Qed.
Lemma bind_try_opt {A B} o (k : A -> M S B) s :
  (try_opt o ≫= k) s = match o with Some a => k a s | None => (None, s) end.
Proof. by destruct o. Qed.
Lemma bind_step_with {A B} (f : S -> A * S) (k : A -> M S B) s :
  (step_with f ≫= k) s = k (fst (f s)) (snd (f s)).
Proof. unfold mbind, M_bind, step_with. by destruct (f s). Qed.
Lemma bind_ret {A B} (a : A) (k : A -> M S B) s : (mret a ≫= k) s = k a s.
Proof. done. Qed.

Lemma run_bool_true {A} (m : M S A) s s' :
  run_bool m s = (true, s') <-> exists a, m s = (Some a, s').
Proof.
  unfold run_bool. destruct (m s) as [[a|] s'']; split.
  - intros [= ->]; eauto.
  - by intros (? & [= _ ->]).
  - done.
  - by intros (? & [=]).
Qed.
End MonadOps.
