(* ===== verification/Endian.v ===== *)
(** * Little- and big-endian loads and stores

    Models [wireguard/endian.hpp] and the big-endian stores of
    [wireguard/handshake.cpp].  A load reads the first bytes of a span; a store
    yields the bytes it writes.  The lemmas state that each pair is a bijection
    between words of the width and byte strings of the matching length. *)

From S2P Require Import Prelude.
Local Open Scope Z_scope.

Definition LoadLe32 (data : bytes) : Z :=
  Z.lor (Z.lor (Z.lor (byte_at data 0) (Z.shiftl (byte_at data 1) 8))
               (Z.shiftl (byte_at data 2) 16))
        (Z.shiftl (byte_at data 3) 24).

Definition LoadLe64 (data : bytes) : Z :=
  Z.lor (LoadLe32 data) (Z.shiftl (LoadLe32 (drop 4 data)) 32).

Definition StoreLe32 (value : Z) : bytes :=
  [ Z.land value 255; Z.land (Z.shiftr value 8) 255;
    Z.land (Z.shiftr value 16) 255; Z.land (Z.shiftr value 24) 255 ].

Definition StoreLe64 (value : Z) : bytes :=
  StoreLe32 (u32 (Z.land value 4294967295)) ++ StoreLe32 (u32 (Z.shiftr value 32)).

(** The loop [for (i = 7; i >= 0; --i) out[7 - i] = (value >> (i * 8)) & 0xff]. *)
Definition StoreBe64 (value : Z) : bytes :=
  map (fun i => Z.land (Z.shiftr value (i * 8)) 255) [7; 6; 5; 4; 3; 2; 1; 0].

Definition StoreBe32 (value : Z) : bytes :=
  [ Z.land (Z.shiftr value 24) 255; Z.land (Z.shiftr value 16) 255;
    Z.land (Z.shiftr value 8) 255; Z.land value 255 ].


(** ** Arithmetic form *)

Lemma LoadLe32_sum data :
  bytes_ok data ->
  LoadLe32 data = byte_at data 0 + byte_at data 1 * 2 ^ 8
                  + byte_at data 2 * 2 ^ 16 + byte_at data 3 * 2 ^ 24.
Proof.
  intros H. unfold LoadLe32.
  pose proof (byte_at_ok data 0 H) as H0. pose proof (byte_at_ok data 1 H) as H1.
  pose proof (byte_at_ok data 2 H) as H2. pose proof (byte_at_ok data 3 H) as H3.
  unfold in_width in *.
  rewrite (lor_shiftl (byte_at data 0)) by (unfold in_width; lia).
  rewrite (lor_shiftl _ (byte_at data 2)) by (unfold in_width; lia).
  rewrite lor_shiftl by (unfold in_width; lia). lia.
Qed.

Lemma LoadLe32_width data : bytes_ok data -> is_u32 (LoadLe32 data).
Proof.
  intros H. rewrite LoadLe32_sum by done.
  pose proof (byte_at_ok data 0 H) as H0. pose proof (byte_at_ok data 1 H) as H1.
  pose proof (byte_at_ok data 2 H) as H2. pose proof (byte_at_ok data 3 H) as H3.
  unfold in_width in *. lia.
Qed.

Lemma StoreLe32_div v :
  StoreLe32 v = [ v mod 256; v / 2 ^ 8 mod 256; v / 2 ^ 16 mod 256; v / 2 ^ 24 mod 256 ].
Proof. unfold StoreLe32. by rewrite !land_255, !shiftr_div by lia. Qed.

Lemma byte_mod z : is_byte (z mod 256).
Proof. unfold in_width. change (2 ^ 8) with 256. apply Z.mod_pos_bound. lia. Qed.

Lemma StoreLe32_bytes v : bytes_of 4 (StoreLe32 v).
Proof.
  rewrite StoreLe32_div. split; [done|].
  repeat constructor; apply byte_mod.
Qed.

Lemma StoreLe64_bytes v : bytes_of 8 (StoreLe64 v).
Proof.
  split; [done|]. apply bytes_ok_app. split; apply StoreLe32_bytes.
Qed.

(** ** Round trips *)

Lemma LoadLe32_StoreLe32 v rest : is_u32 v -> LoadLe32 (StoreLe32 v ++ rest) = v.
Proof.
  intros H. assert (LoadLe32 (StoreLe32 v ++ rest) = LoadLe32 (StoreLe32 v)) as -> by done.
  rewrite LoadLe32_sum by apply StoreLe32_bytes.
  rewrite StoreLe32_div. unfold byte_at, in_width in *. simpl.
  Z.div_mod_to_equations. lia.
Qed.

Lemma StoreLe32_LoadLe32 data :
  bytes_ok data -> (4 <= length data)%nat -> StoreLe32 (LoadLe32 data) = take 4 data.
Proof.
  intros H Hl. destruct data as [|a [|b [|c [|d l]]]]; simpl in Hl; try lia.
  unfold bytes_ok in H. rewrite !Forall_cons in H. destruct H as (Ha & Hb & Hc & Hd & Hl').
  rewrite LoadLe32_sum by (unfold bytes_ok; rewrite !Forall_cons; done).
  unfold byte_at; simpl. rewrite StoreLe32_div. unfold in_width in *.
  rewrite take_0.
  repeat f_equal; Z.div_mod_to_equations; lia.
Qed.

Lemma LoadLe64_width data : bytes_ok data -> is_u64 (LoadLe64 data).
Proof.
  intros H. unfold LoadLe64.
  pose proof (LoadLe32_width data H) as H0.
  pose proof (LoadLe32_width (drop 4 data) ltac:(auto with wg)) as H1.
  rewrite lor_shiftl by (done || lia). unfold in_width in *. lia.
Qed.

Lemma LoadLe64_StoreLe64 v rest : is_u64 v -> LoadLe64 (StoreLe64 v ++ rest) = v.
Proof.
  intros H. unfold LoadLe64, StoreLe64.
  rewrite <- !app_assoc.
  rewrite LoadLe32_StoreLe32 by (apply wrap_width; lia).
  assert (forall a b, drop 4 (StoreLe32 a ++ b) = b) as -> by done.
  rewrite LoadLe32_StoreLe32 by (apply wrap_width; lia).
  rewrite lor_shiftl by (lia || (apply wrap_width; lia)).
  change 4294967295 with (2 ^ 32 - 1). rewrite land_mask, shiftr_div by lia.
  unfold wrap, in_width in *. Z.div_mod_to_equations. lia.
Qed.

Lemma StoreLe64_LoadLe64 data :
  bytes_ok data -> (8 <= length data)%nat -> StoreLe64 (LoadLe64 data) = take 8 data.
Proof.
  intros H Hl. unfold StoreLe64, LoadLe64.
  pose proof (LoadLe32_width data H) as H0.
  pose proof (LoadLe32_width (drop 4 data) ltac:(auto with wg)) as H1.
  rewrite lor_shiftl by (done || lia).
  change 4294967295 with (2 ^ 32 - 1). rewrite land_mask, shiftr_div by lia.
  assert (u32 ((LoadLe32 data + LoadLe32 (drop 4 data) * 2 ^ 32) mod 2 ^ 32) = LoadLe32 data) as ->.
  { unfold wrap, in_width in *. Z.div_mod_to_equations. lia. }
  assert (u32 ((LoadLe32 data + LoadLe32 (drop 4 data) * 2 ^ 32) / 2 ^ 32)
          = LoadLe32 (drop 4 data)) as ->.
  { unfold wrap, in_width in *. Z.div_mod_to_equations. lia. }
  rewrite !StoreLe32_LoadLe32 by (auto with wg; rewrite ?length_drop; lia).
  exact (subspan_split data 0 4 4).
Qed.

(** [StoreLe64] is injective on 64-bit words: distinct counters give distinct
    nonces. *)
Lemma StoreLe64_inj v w : is_u64 v -> is_u64 w -> StoreLe64 v = StoreLe64 w -> v = w.
Proof.
  intros Hv Hw E. rewrite <- (LoadLe64_StoreLe64 v []), <- (LoadLe64_StoreLe64 w []) by done.
  by rewrite E.
Qed.

Lemma StoreBe64_bytes v : bytes_of 8 (StoreBe64 v).
Proof.
  split; [done|]. unfold StoreBe64. simpl.
  repeat constructor; rewrite land_255; apply byte_mod.
Qed.
Lemma StoreBe32_bytes v : bytes_of 4 (StoreBe32 v).
Proof. split; [done|]. repeat constructor; rewrite land_255; apply byte_mod. Qed.

#[export] Hint Resolve LoadLe32_width LoadLe64_width StoreLe32_bytes StoreLe64_bytes
  StoreBe64_bytes StoreBe32_bytes : wg.
