(* ===== verification/Messages.v ===== *)
(** * The WireGuard wire messages and their codec

    Models [wireguard/constants.hpp] (sizes and message types),
    [wireguard/messages.hpp], [wireguard/messages.cpp] and
    [wireguard/dispatch.cpp].

    The structs are records, [PacketReader] and [PacketWriter] are state
    threaded through [M], a parser returns the [ParseResult] together with the
    out-parameter it leaves, and a serialiser the [ParseError] together with the
    contents of the output span.  The theorems are the round trips between the
    serialisers and [DispatchPacket], and the exact acceptance condition of
    [DispatchPacket]. *)

From S2P Require Import Prelude Endian.
Local Open Scope Z_scope.

(** ** Constants and types *)

Inductive MessageType :=
  | MessageType_Invalid
  | MessageType_HandshakeInitiation
  | MessageType_HandshakeResponse
  | MessageType_CookieReply
  | MessageType_TransportData
  (** [MessageType] has the fixed underlying type [uint32_t], so a cast of any
      other word is a value without an enumerator. *)
  | MessageType_Unnamed (word : Z).

#[export] Instance MessageType_eq_dec : EqDecision MessageType.
Proof. solve_decision. Defined.

Definition MessageTypeSize : nat := 4.
Definition MessageSenderIndexSize : nat := 4.
Definition MessageReceiverIndexSize : nat := 4.
Definition MessageCounterSize : nat := 8.
Definition NoisePublicKeySize : nat := 32.
Definition NoiseMacSize : nat := 16.
Definition NoiseTagSize : nat := 16.
Definition TAI64NTimestampSize : nat := 12.
Definition CookieNonceSize : nat := 24.
Definition CookieValueSize : nat := 16.
Definition EncryptedStaticSize : nat := (NoisePublicKeySize + NoiseTagSize)%nat.
Definition EncryptedTimestampSize : nat := (TAI64NTimestampSize + NoiseTagSize)%nat.
Definition EncryptedNothingSize : nat := NoiseTagSize.
Definition EncryptedCookieSize : nat := (CookieValueSize + NoiseTagSize)%nat.

Definition HandshakeInitiationSize : nat :=
  (MessageTypeSize + MessageSenderIndexSize + NoisePublicKeySize + EncryptedStaticSize
   + EncryptedTimestampSize + 2 * NoiseMacSize)%nat.
Definition HandshakeResponseSize : nat :=
  (MessageTypeSize + MessageSenderIndexSize + MessageReceiverIndexSize + NoisePublicKeySize
   + EncryptedNothingSize + 2 * NoiseMacSize)%nat.
Definition HandshakeCookieSize : nat :=
  (MessageTypeSize + MessageReceiverIndexSize + CookieNonceSize + EncryptedCookieSize)%nat.
Definition TransportDataHeaderSize : nat :=
  (MessageTypeSize + MessageReceiverIndexSize + MessageCounterSize)%nat.

Record message_macs := mk_macs { mac1 : bytes; mac2 : bytes }.

Record message_handshake_initiation := mk_initiation {
  hi_type : Z;
  hi_sender_index : Z;
  hi_unencrypted_ephemeral : bytes;
  hi_encrypted_static : bytes;
  hi_encrypted_timestamp : bytes;
  hi_macs : message_macs
}.

Record message_handshake_response := mk_response {
  hr_type : Z;
  hr_sender_index : Z;
  hr_receiver_index : Z;
  hr_unencrypted_ephemeral : bytes;
  hr_encrypted_nothing : bytes;
  hr_macs : message_macs
}.

Record message_handshake_cookie := mk_cookie_reply {
  hc_type : Z;
  hc_receiver_index : Z;
  hc_nonce : bytes;
  hc_encrypted_cookie : bytes
}.

Record message_transport_data := mk_transport_data {
  td_type : Z;
  td_receiver_index : Z;
  td_counter : Z
}.

#[export] Instance eta_macs : Eta message_macs := fun r => mk_macs (mac1 r) (mac2 r).
#[export] Instance eta_initiation : Eta message_handshake_initiation := fun r =>
  mk_initiation (hi_type r) (hi_sender_index r) (hi_unencrypted_ephemeral r)
    (hi_encrypted_static r) (hi_encrypted_timestamp r) (hi_macs r).
#[export] Instance eta_response : Eta message_handshake_response := fun r =>
  mk_response (hr_type r) (hr_sender_index r) (hr_receiver_index r)
    (hr_unencrypted_ephemeral r) (hr_encrypted_nothing r) (hr_macs r).
#[export] Instance eta_cookie_reply : Eta message_handshake_cookie := fun r =>
  mk_cookie_reply (hc_type r) (hc_receiver_index r) (hc_nonce r) (hc_encrypted_cookie r).
#[export] Instance eta_transport_data : Eta message_transport_data := fun r =>
  mk_transport_data (td_type r) (td_receiver_index r) (td_counter r).

(** The value-initialised structs ([= {}]). *)
Definition macs_init : message_macs := mk_macs (zeros NoiseMacSize) (zeros NoiseMacSize).
Definition initiation_init : message_handshake_initiation :=
  mk_initiation 0 0 (zeros NoisePublicKeySize) (zeros EncryptedStaticSize)
    (zeros EncryptedTimestampSize) macs_init.
Definition response_init : message_handshake_response :=
  mk_response 0 0 0 (zeros NoisePublicKeySize) (zeros EncryptedNothingSize) macs_init.
Definition cookie_reply_init : message_handshake_cookie :=
  mk_cookie_reply 0 0 (zeros CookieNonceSize) (zeros EncryptedCookieSize).
Definition transport_data_init : message_transport_data := mk_transport_data 0 0 0.

Inductive ParseError :=
  | ParseError_None
  | ParseError_MissingType
  | ParseError_UnknownType
  | ParseError_InvalidLength
  | ParseError_InvalidArgument
  | ParseError_InsufficientCapacity.

#[export] Instance ParseError_eq_dec : EqDecision ParseError.
Proof. solve_decision. Defined.

Record ParseResult := mk_parse_result {
  pr_success : bool;
  pr_error : ParseError;
  pr_type : MessageType
}.

Definition MakeFailure (error : ParseError) (type : MessageType) : ParseResult :=
  mk_parse_result false error type.
Definition MakeSuccess (type : MessageType) : ParseResult :=
  mk_parse_result true ParseError_None type.

(** The sizes as numerals, for arithmetic. *)
Ltac unfold_sizes :=
  unfold HandshakeInitiationSize, HandshakeResponseSize, HandshakeCookieSize,
    TransportDataHeaderSize, EncryptedStaticSize, EncryptedTimestampSize, EncryptedNothingSize,
    EncryptedCookieSize, MessageTypeSize, MessageSenderIndexSize, MessageReceiverIndexSize,
    MessageCounterSize, NoisePublicKeySize, NoiseMacSize, NoiseTagSize, TAI64NTimestampSize,
    CookieNonceSize, CookieValueSize in *.

(** ** Reader and writer *)

Record PacketReader := mk_reader { rd_input : bytes; rd_offset : nat }.

Definition CanRead (r : PacketReader) (size : nat) : bool :=
  (size <=? length (rd_input r) - rd_offset r)%nat.

Definition ReadLe32 : M PacketReader Z := fun r =>
  if CanRead r 4 then
    (Some (LoadLe32 (drop (rd_offset r) (rd_input r))), mk_reader (rd_input r) (rd_offset r + 4))
  else (None, r).
Definition ReadLe64 : M PacketReader Z := fun r =>
  if CanRead r 8 then
    (Some (LoadLe64 (drop (rd_offset r) (rd_input r))), mk_reader (rd_input r) (rd_offset r + 8))
  else (None, r).
Definition ReadArray (Size : nat) : M PacketReader bytes := fun r =>
  if CanRead r Size then
    (Some (subspan (rd_input r) (rd_offset r) Size), mk_reader (rd_input r) (rd_offset r + Size))
  else (None, r).

Record PacketWriter := mk_writer { wr_output : bytes; wr_offset : nat }.

Definition CanWrite (w : PacketWriter) (size : nat) : bool :=
  (size <=? length (wr_output w) - wr_offset w)%nat.

Definition WriteBytes (value : bytes) : M PacketWriter unit := fun w =>
  if CanWrite w (length value) then
    (Some tt, mk_writer (write_at (wr_output w) (wr_offset w) value) (wr_offset w + length value))
  else (None, w).
Definition WriteLe32 (value : Z) : M PacketWriter unit := WriteBytes (StoreLe32 value).
Definition WriteLe64 (value : Z) : M PacketWriter unit := WriteBytes (StoreLe64 value).
Definition WriteArray (value : bytes) : M PacketWriter unit := WriteBytes value.

(** ** Type inspection and validation *)

Definition GetMessageType (field : Z) : MessageType :=
  if field =? 0 then MessageType_Invalid
  else if field =? 1 then MessageType_HandshakeInitiation
  else if field =? 2 then MessageType_HandshakeResponse
  else if field =? 3 then MessageType_CookieReply
  else if field =? 4 then MessageType_TransportData
  else MessageType_Unnamed field.

Definition SetMessageType (type : MessageType) : Z :=
  match type with
  | MessageType_Invalid => 0
  | MessageType_HandshakeInitiation => 1
  | MessageType_HandshakeResponse => 2
  | MessageType_CookieReply => 3
  | MessageType_TransportData => 4
  | MessageType_Unnamed word => word
  end.

Definition InspectMessageType (packet : bytes) : ParseResult :=
  if (length packet <? MessageTypeSize)%nat then
    MakeFailure ParseError_MissingType MessageType_Invalid
  else
    let type := GetMessageType (LoadLe32 packet) in
    match type with
    | MessageType_HandshakeInitiation | MessageType_HandshakeResponse
    | MessageType_CookieReply | MessageType_TransportData => MakeSuccess type
    | MessageType_Invalid | MessageType_Unnamed _ => MakeFailure ParseError_UnknownType type
    end.

Definition ValidatePacket (packet : bytes) (expected_type : MessageType)
    (required_size : nat) (exact_size : bool) : ParseResult :=
  let type_result := InspectMessageType packet in
  if negb (pr_success type_result) then type_result
  else if negb (bool_decide (pr_type type_result = expected_type)) then
    MakeFailure ParseError_UnknownType (pr_type type_result)
  else if (exact_size && negb (length packet =? required_size)%nat)
          || (negb exact_size && (length packet <? required_size)%nat) then
    MakeFailure ParseError_InvalidLength (pr_type type_result)
  else MakeSuccess (pr_type type_result).

Definition ValidateSerializeTarget (output : bytes) (required_size : nat)
    (actual_type expected_type : MessageType) : ParseError :=
  if (length output <? required_size)%nat then ParseError_InsufficientCapacity
  else if bool_decide (actual_type = expected_type) then ParseError_None
  else ParseError_InvalidArgument.

(** ** Parsers

    [FinishParse] is the common tail of the four parsers: a chain of reads that
    fails part-way yields [InvalidLength] (the theorems below show that this
    never happens once [ValidatePacket] has succeeded). *)

Definition FinishParse {T} (result : ParseResult) (reads : M PacketReader T) (packet : bytes)
    (out : T) : ParseResult * T :=
  match reads (mk_reader packet 0) with
  | (Some message, _) => (result, message)
  | (None, _) => (MakeFailure ParseError_InvalidLength (pr_type result), out)
  end.

Definition ReadInitiation : M PacketReader message_handshake_initiation :=
  type ← ReadLe32;
  sender_index ← ReadLe32;
  unencrypted_ephemeral ← ReadArray NoisePublicKeySize;
  encrypted_static ← ReadArray EncryptedStaticSize;
  encrypted_timestamp ← ReadArray EncryptedTimestampSize;
  m1 ← ReadArray NoiseMacSize;
  m2 ← ReadArray NoiseMacSize;
  mret (mk_initiation type sender_index unencrypted_ephemeral encrypted_static
          encrypted_timestamp (mk_macs m1 m2)).

Definition ParseHandshakeInitiation (packet : bytes) (out : message_handshake_initiation)
    : ParseResult * message_handshake_initiation :=
  let result := ValidatePacket packet MessageType_HandshakeInitiation HandshakeInitiationSize true in
  if negb (pr_success result) then (result, out)
  else FinishParse result ReadInitiation packet out.

Definition ReadResponse : M PacketReader message_handshake_response :=
  type ← ReadLe32;
  sender_index ← ReadLe32;
  receiver_index ← ReadLe32;
  unencrypted_ephemeral ← ReadArray NoisePublicKeySize;
  encrypted_nothing ← ReadArray EncryptedNothingSize;
  m1 ← ReadArray NoiseMacSize;
  m2 ← ReadArray NoiseMacSize;
  mret (mk_response type sender_index receiver_index unencrypted_ephemeral
          encrypted_nothing (mk_macs m1 m2)).

Definition ParseHandshakeResponse (packet : bytes) (out : message_handshake_response)
    : ParseResult * message_handshake_response :=
  let result := ValidatePacket packet MessageType_HandshakeResponse HandshakeResponseSize true in
  if negb (pr_success result) then (result, out)
  else FinishParse result ReadResponse packet out.

Definition ReadCookieReply : M PacketReader message_handshake_cookie :=
  type ← ReadLe32;
  receiver_index ← ReadLe32;
  nonce ← ReadArray CookieNonceSize;
  encrypted_cookie ← ReadArray EncryptedCookieSize;
  mret (mk_cookie_reply type receiver_index nonce encrypted_cookie).

Definition ParseHandshakeCookie (packet : bytes) (out : message_handshake_cookie)
    : ParseResult * message_handshake_cookie :=
  let result := ValidatePacket packet MessageType_CookieReply HandshakeCookieSize true in
  if negb (pr_success result) then (result, out)
  else FinishParse result ReadCookieReply packet out.

Definition ReadTransportHeader : M PacketReader message_transport_data :=
  type ← ReadLe32;
  receiver_index ← ReadLe32;
  counter ← ReadLe64;
  mret (mk_transport_data type receiver_index counter).

Definition ParseTransportDataHeader (packet : bytes) (out : message_transport_data)
    : ParseResult * message_transport_data :=
  let result := ValidatePacket packet MessageType_TransportData TransportDataHeaderSize false in
  if negb (pr_success result) then (result, out)
  else FinishParse result ReadTransportHeader packet out.

(** ** Serialisers

    The writer works on [output.first(size)]; the rest of the span is kept. *)

Definition FinishSerialize (writes : M PacketWriter unit) (size : nat) (output : bytes)
    : ParseError * bytes :=
  match writes (mk_writer (take size output) 0) with
  | (Some _, w) => (ParseError_None, wr_output w ++ drop size output)
  | (None, w) => (ParseError_InsufficientCapacity, wr_output w ++ drop size output)
  end.

Definition WriteInitiation (message : message_handshake_initiation) : M PacketWriter unit :=
  _ ← WriteLe32 (hi_type message);
  _ ← WriteLe32 (hi_sender_index message);
  _ ← WriteArray (hi_unencrypted_ephemeral message);
  _ ← WriteArray (hi_encrypted_static message);
  _ ← WriteArray (hi_encrypted_timestamp message);
  _ ← WriteArray (mac1 (hi_macs message));
  WriteArray (mac2 (hi_macs message)).

Definition SerializeHandshakeInitiation (output : bytes) (message : message_handshake_initiation)
    : ParseError * bytes :=
  let error := ValidateSerializeTarget output HandshakeInitiationSize
                 (GetMessageType (hi_type message)) MessageType_HandshakeInitiation in
  if negb (bool_decide (error = ParseError_None)) then (error, output)
  else FinishSerialize (WriteInitiation message) HandshakeInitiationSize output.

Definition WriteResponse (message : message_handshake_response) : M PacketWriter unit :=
  _ ← WriteLe32 (hr_type message);
  _ ← WriteLe32 (hr_sender_index message);
  _ ← WriteLe32 (hr_receiver_index message);
  _ ← WriteArray (hr_unencrypted_ephemeral message);
  _ ← WriteArray (hr_encrypted_nothing message);
  _ ← WriteArray (mac1 (hr_macs message));
  WriteArray (mac2 (hr_macs message)).

Definition SerializeHandshakeResponse (output : bytes) (message : message_handshake_response)
    : ParseError * bytes :=
  let error := ValidateSerializeTarget output HandshakeResponseSize
                 (GetMessageType (hr_type message)) MessageType_HandshakeResponse in
  if negb (bool_decide (error = ParseError_None)) then (error, output)
  else FinishSerialize (WriteResponse message) HandshakeResponseSize output.

Definition WriteCookieReply (message : message_handshake_cookie) : M PacketWriter unit :=
  _ ← WriteLe32 (hc_type message);
  _ ← WriteLe32 (hc_receiver_index message);
  _ ← WriteArray (hc_nonce message);
  WriteArray (hc_encrypted_cookie message).

Definition SerializeHandshakeCookie (output : bytes) (message : message_handshake_cookie)
    : ParseError * bytes :=
  let error := ValidateSerializeTarget output HandshakeCookieSize
                 (GetMessageType (hc_type message)) MessageType_CookieReply in
  if negb (bool_decide (error = ParseError_None)) then (error, output)
  else FinishSerialize (WriteCookieReply message) HandshakeCookieSize output.

Definition WriteTransportHeader (message : message_transport_data) : M PacketWriter unit :=
  _ ← WriteLe32 (td_type message);
  _ ← WriteLe32 (td_receiver_index message);
  WriteLe64 (td_counter message).

Definition SerializeTransportDataHeader (output : bytes) (message : message_transport_data)
    : ParseError * bytes :=
  let error := ValidateSerializeTarget output TransportDataHeaderSize
                 (GetMessageType (td_type message)) MessageType_TransportData in
  if negb (bool_decide (error = ParseError_None)) then (error, output)
  else FinishSerialize (WriteTransportHeader message) TransportDataHeaderSize output.

(** ** Dispatch

    A handler is a state transformer on the caller's context; a null function
    pointer is [None]. *)

Record PacketDispatchHandlers (C : Type) := mk_handlers {
  on_handshake_initiation : option (message_handshake_initiation -> C -> C);
  on_handshake_response : option (message_handshake_response -> C -> C);
  on_cookie_reply : option (message_handshake_cookie -> C -> C);
  on_transport_data : option (message_transport_data -> bytes -> C -> C)
}.
Arguments mk_handlers {C}.
Arguments on_handshake_initiation {C}.
Arguments on_handshake_response {C}.
Arguments on_cookie_reply {C}.
Arguments on_transport_data {C}.

Definition DispatchPacket {C} (packet : bytes) (handlers : PacketDispatchHandlers C) (ctx : C)
    : ParseResult * C :=
  let result := InspectMessageType packet in
  if negb (pr_success result) then (result, ctx)
  else
    let call {T} (parsed : ParseResult * T) (handler : option (T -> C -> C)) :=
      let '(result, message) := parsed in
      (result, match handler with
               | Some h => if pr_success result then h message ctx else ctx
               | None => ctx
               end) in
    match pr_type result with
    | MessageType_HandshakeInitiation =>
        call (ParseHandshakeInitiation packet initiation_init) (on_handshake_initiation handlers)
    | MessageType_HandshakeResponse =>
        call (ParseHandshakeResponse packet response_init) (on_handshake_response handlers)
    | MessageType_CookieReply =>
        call (ParseHandshakeCookie packet cookie_reply_init) (on_cookie_reply handlers)
    | MessageType_TransportData =>
        call (ParseTransportDataHeader packet transport_data_init)
          ((fun h m => h m (drop TransportDataHeaderSize packet)) <$> on_transport_data handlers)
    | MessageType_Invalid | MessageType_Unnamed _ =>
        (MakeFailure ParseError_UnknownType (pr_type result), ctx)
    end.

(** ** Well-formed messages: every field has the width of its C++ type and the
    type word is the one of the message. *)

Definition macs_ok (m : message_macs) : Prop :=
  bytes_of NoiseMacSize (mac1 m) /\ bytes_of NoiseMacSize (mac2 m).
Definition initiation_ok (m : message_handshake_initiation) : Prop :=
  hi_type m = 1 /\ is_u32 (hi_sender_index m) /\
  bytes_of NoisePublicKeySize (hi_unencrypted_ephemeral m) /\
  bytes_of EncryptedStaticSize (hi_encrypted_static m) /\
  bytes_of EncryptedTimestampSize (hi_encrypted_timestamp m) /\ macs_ok (hi_macs m).
Definition response_ok (m : message_handshake_response) : Prop :=
  hr_type m = 2 /\ is_u32 (hr_sender_index m) /\ is_u32 (hr_receiver_index m) /\
  bytes_of NoisePublicKeySize (hr_unencrypted_ephemeral m) /\
  bytes_of EncryptedNothingSize (hr_encrypted_nothing m) /\ macs_ok (hr_macs m).
Definition cookie_reply_ok (m : message_handshake_cookie) : Prop :=
  hc_type m = 3 /\ is_u32 (hc_receiver_index m) /\
  bytes_of CookieNonceSize (hc_nonce m) /\ bytes_of EncryptedCookieSize (hc_encrypted_cookie m).
Definition transport_data_ok (m : message_transport_data) : Prop :=
  td_type m = 4 /\ is_u32 (td_receiver_index m) /\ is_u64 (td_counter m).

(** ** The layout of each message, field by field. *)

Definition enc_macs (m : message_macs) : bytes := mac1 m ++ mac2 m.
Definition enc_initiation (m : message_handshake_initiation) : bytes :=
  StoreLe32 (hi_type m) ++ StoreLe32 (hi_sender_index m) ++ hi_unencrypted_ephemeral m
  ++ hi_encrypted_static m ++ hi_encrypted_timestamp m ++ enc_macs (hi_macs m).
Definition enc_response (m : message_handshake_response) : bytes :=
  StoreLe32 (hr_type m) ++ StoreLe32 (hr_sender_index m) ++ StoreLe32 (hr_receiver_index m)
  ++ hr_unencrypted_ephemeral m ++ hr_encrypted_nothing m ++ enc_macs (hr_macs m).
Definition enc_cookie_reply (m : message_handshake_cookie) : bytes :=
  StoreLe32 (hc_type m) ++ StoreLe32 (hc_receiver_index m) ++ hc_nonce m ++ hc_encrypted_cookie m.
Definition enc_transport_data (m : message_transport_data) : bytes :=
  StoreLe32 (td_type m) ++ StoreLe32 (td_receiver_index m) ++ StoreLe64 (td_counter m).

(** ** Reader and writer lemmas *)

Definition remaining (r : PacketReader) : bytes := drop (rd_offset r) (rd_input r).

(** [decodes m bs v]: in front of any suffix, [m] consumes exactly [bs] and
    yields [v]. *)
Definition decodes {A} (m : M PacketReader A) (bs : bytes) (v : A) : Prop :=
  forall r suf, remaining r = bs ++ suf ->
  exists r', m r = (Some v, r') /\ remaining r' = suf.

(** [encodes m bs]: [m] writes exactly [bs] at the writer's offset. *)
Definition encodes (m : M PacketWriter unit) (bs : bytes) : Prop :=
  forall w, (wr_offset w + length bs <= length (wr_output w))%nat ->
  m w = (Some tt, mk_writer (write_at (wr_output w) (wr_offset w) bs) (wr_offset w + length bs)).

Lemma CanRead_remaining r n : CanRead r n = (n <=? length (remaining r))%nat.
Proof. unfold CanRead, remaining. by rewrite length_drop. Qed.

Lemma decodes_word (m : M PacketReader Z) n (load : bytes -> Z) v bs :
  (forall r, m r = if CanRead r n then
                     (Some (load (remaining r)), mk_reader (rd_input r) (rd_offset r + n))
                   else (None, r)) ->
  length bs = n -> (forall suf, load (bs ++ suf) = v) -> decodes m bs v.
Proof.
  intros Hm Hn Hv r suf Hr. exists (mk_reader (rd_input r) (rd_offset r + n)). split.
  - rewrite Hm, CanRead_remaining, Hr, length_app, Hv.
    by rewrite (proj2 (Nat.leb_le _ _)) by lia.
  - unfold remaining in *. simpl. rewrite <- drop_drop, Hr. by rewrite drop_app_length' by done.
Qed.

Lemma decodes_ReadLe32 v : is_u32 v -> decodes ReadLe32 (StoreLe32 v) v.
Proof.
  intros. eapply decodes_word with (n := 4%nat) (load := LoadLe32); [done|done|].
  intros. by apply LoadLe32_StoreLe32.
Qed.

Lemma decodes_ReadLe64 v : is_u64 v -> decodes ReadLe64 (StoreLe64 v) v.
Proof.
  intros. eapply decodes_word with (n := 8%nat) (load := LoadLe64); [done|done|].
  intros. by apply LoadLe64_StoreLe64.
Qed.

Lemma decodes_ReadArray n bs : length bs = n -> decodes (ReadArray n) bs bs.
Proof.
  intros Hn r suf Hr. exists (mk_reader (rd_input r) (rd_offset r + n)). split.
  - unfold ReadArray, subspan. fold (remaining r). rewrite CanRead_remaining, Hr, length_app.
    rewrite (proj2 (Nat.leb_le _ _)) by lia. by rewrite take_app_length' by done.
  - unfold remaining in *. simpl. rewrite <- drop_drop, Hr. by rewrite drop_app_length' by done.
Qed.

Lemma decodes_bind {A B} (m : M PacketReader A) (k : A -> M PacketReader B) bs bs' a b :
  decodes m bs a -> decodes (k a) bs' b -> decodes (m ≫= k) (bs ++ bs') b.
Proof.
  intros Hm Hk r suf Hr. rewrite <- app_assoc in Hr.
  destruct (Hm r _ Hr) as (r1 & E1 & R1). destruct (Hk r1 _ R1) as (r2 & E2 & R2).
  exists r2. split; [|done]. unfold mbind, M_bind. by rewrite E1.
Qed.

Lemma decodes_last {A B} (m : M PacketReader A) (k : A -> M PacketReader B) bs a b :
  decodes m bs a -> k a = mret b -> decodes (m ≫= k) bs b.
Proof.
  intros Hm Hk r suf Hr. destruct (Hm r _ Hr) as (r1 & E1 & R1).
  exists r1. split; [|done]. unfold mbind, M_bind. by rewrite E1, Hk.
Qed.

Lemma write_at_app l o a b :
  (o + length a <= length l)%nat ->
  write_at (write_at l o a) (o + length a) b = write_at l o (a ++ b).
Proof.
  intros. unfold write_at at 1.
  assert (take (o + length a) (write_at l o a) = take o l ++ a) as ->.
  { unfold write_at. rewrite app_assoc. apply take_app_length'. size_simpl. lia. }
  assert (drop (o + length a + length b) (write_at l o a) = drop (o + length (a ++ b)) l) as ->.
  { unfold write_at. rewrite app_assoc, drop_app_ge by (size_simpl; lia).
    rewrite drop_drop. f_equal. size_simpl. lia. }
  unfold write_at. by rewrite <- !app_assoc.
Qed.

Lemma encodes_WriteBytes v : encodes (WriteBytes v) v.
Proof.
  intros w Hw. unfold WriteBytes, CanWrite.
  by rewrite (proj2 (Nat.leb_le _ _)) by lia.
Qed.

Lemma encodes_bind m m' bs bs' :
  encodes m bs -> encodes m' bs' -> encodes (_ ← m; m') (bs ++ bs').
Proof.
  intros Hm Hm' w Hw. rewrite length_app in Hw.
  unfold mbind, M_bind. rewrite Hm by lia. rewrite Hm'.
  - f_equal. simpl. rewrite write_at_app, length_app by lia. f_equal. lia.
  - simpl. rewrite length_write_at; lia.
Qed.

Lemma encodes_Le32 v : encodes (WriteLe32 v) (StoreLe32 v).
Proof. apply encodes_WriteBytes. Qed.
Lemma encodes_Le64 v : encodes (WriteLe64 v) (StoreLe64 v).
Proof. apply encodes_WriteBytes. Qed.
Lemma encodes_Array v : encodes (WriteArray v) v.
Proof. apply encodes_WriteBytes. Qed.

Lemma FinishSerialize_encodes m bs size output :
  encodes m bs -> length bs = size -> (size <= length output)%nat ->
  FinishSerialize m size output = (ParseError_None, bs ++ drop size output).
Proof.
  intros Hm Hs Ho. unfold FinishSerialize.
  rewrite Hm by (simpl; size_simpl; lia). f_equal. simpl. f_equal.
  unfold write_at. simpl. rewrite drop_ge by (size_simpl; lia). apply app_nil_r.
Qed.

Lemma FinishParse_decodes {T} result (m : M PacketReader T) bs suf v out :
  decodes m bs v -> FinishParse result m (bs ++ suf) out = (result, v).
Proof.
  intros Hm. unfold FinishParse. destruct (Hm (mk_reader (bs ++ suf) 0) suf) as (r & -> & _).
  - unfold remaining. by rewrite drop_0.
  - done.
Qed.

Create HintDb codec.
#[export] Hint Resolve decodes_ReadLe32 decodes_ReadLe64 decodes_ReadArray
  encodes_Le32 encodes_Le64 encodes_Array : codec.

(** Decomposes a well-formedness hypothesis into the widths of the fields. *)
Ltac open_ok H :=
  unfold initiation_ok, response_ok, cookie_reply_ok, transport_data_ok, macs_ok, bytes_of in H;
  destruct_and? H.

(** Reduces the projections of message structs and nothing else. *)
Ltac simpl_fields :=
  cbn [hi_type hi_sender_index hi_unencrypted_ephemeral hi_encrypted_static
       hi_encrypted_timestamp hi_macs hr_type hr_sender_index hr_receiver_index
       hr_unencrypted_ephemeral hr_encrypted_nothing hr_macs hc_type hc_receiver_index
       hc_nonce hc_encrypted_cookie td_type td_receiver_index td_counter mac1 mac2] in *.

(** Proves [decodes]/[encodes] of a chain from the lemmas on its steps. *)
Ltac codec_chain :=
  repeat first
    [ solve [eauto with codec]
    | eapply decodes_last; [solve [eauto with codec] | reflexivity]
    | eapply decodes_bind; [solve [eauto with codec] |]
    | eapply encodes_bind; [solve [eauto with codec] |] ].

(** ** Each reader decodes the layout of its message; each writer produces it. *)

Lemma initiation_decodes m : initiation_ok m -> decodes ReadInitiation (enc_initiation m) m.
Proof.
  destruct m as [ty idx eph st ts [m1 m2]]. intros H. open_ok H. simpl_fields. subst ty.
  assert (is_u32 1) by (unfold in_width; lia).
  unfold ReadInitiation, enc_initiation, enc_macs; simpl_fields. codec_chain.
Qed.

Lemma response_decodes m : response_ok m -> decodes ReadResponse (enc_response m) m.
Proof.
  destruct m as [ty idx ridx eph en [m1 m2]]. intros H. open_ok H. simpl_fields. subst ty.
  assert (is_u32 2) by (unfold in_width; lia).
  unfold ReadResponse, enc_response, enc_macs; simpl_fields. codec_chain.
Qed.

Lemma cookie_reply_decodes m : cookie_reply_ok m -> decodes ReadCookieReply (enc_cookie_reply m) m.
Proof.
  destruct m as [ty idx n c]. intros H. open_ok H. simpl_fields. subst ty.
  assert (is_u32 3) by (unfold in_width; lia).
  unfold ReadCookieReply, enc_cookie_reply; simpl_fields. codec_chain.
Qed.

Lemma transport_data_decodes m :
  transport_data_ok m -> decodes ReadTransportHeader (enc_transport_data m) m.
Proof.
  destruct m as [ty idx c]. intros H. open_ok H. simpl_fields. subst ty.
  assert (is_u32 4) by (unfold in_width; lia).
  unfold ReadTransportHeader, enc_transport_data; simpl_fields. codec_chain.
Qed.

Lemma initiation_encodes m : encodes (WriteInitiation m) (enc_initiation m).
Proof. unfold WriteInitiation, enc_initiation, enc_macs. codec_chain. Qed.
Lemma response_encodes m : encodes (WriteResponse m) (enc_response m).
Proof. unfold WriteResponse, enc_response, enc_macs. codec_chain. Qed.
Lemma cookie_reply_encodes m : encodes (WriteCookieReply m) (enc_cookie_reply m).
Proof. unfold WriteCookieReply, enc_cookie_reply. codec_chain. Qed.
Lemma transport_data_encodes m : encodes (WriteTransportHeader m) (enc_transport_data m).
Proof. unfold WriteTransportHeader, enc_transport_data. codec_chain. Qed.

(** *** Every byte string of the right length and type word is such a layout. *)

(** The list at the front of [l], with the rest: used to cut a packet into
    fields. *)
Lemma cut_field n k l :
  bytes_of (n + k) l -> exists a b, l = a ++ b /\ bytes_of n a /\ bytes_of k b.
Proof.
  intros [Hl Hb]. exists (take n l), (drop n l). rewrite take_drop.
  split; [done|]. split; split; size_simpl; try lia; auto with wg.
Qed.

Lemma cut_word k l :
  bytes_of (4 + k) l ->
  exists v b, l = StoreLe32 v ++ b /\ is_u32 v /\ bytes_of k b.
Proof.
  intros [Hl Hb]. exists (LoadLe32 l), (drop 4 l).
  rewrite StoreLe32_LoadLe32, take_drop by (done || lia).
  split; [done|]. split; [auto with wg|]. split; [size_simpl; lia | auto with wg].
Qed.

Lemma initiation_layout packet :
  bytes_of HandshakeInitiationSize packet -> LoadLe32 packet = 1 ->
  exists m, initiation_ok m /\ packet = enc_initiation m.
Proof.
  intros H E. destruct (cut_word 144 _ H) as (ty & p1 & -> & W1 & H1).
  rewrite LoadLe32_StoreLe32 in E by done. subst ty.
  destruct (cut_word 140 _ H1) as (idx & p2 & -> & W2 & H2).
  destruct (cut_field 32 108 _ H2) as (f1 & p3 & -> & F1 & H3).
  destruct (cut_field 48 60 _ H3) as (f2 & p4 & -> & F2 & H4).
  destruct (cut_field 28 32 _ H4) as (f3 & p5 & -> & F3 & H5).
  destruct (cut_field 16 16 _ H5) as (f4 & f5 & -> & F4 & F5).
  by exists (mk_initiation 1 idx f1 f2 f3 (mk_macs f4 f5)).
Qed.

Lemma response_layout packet :
  bytes_of HandshakeResponseSize packet -> LoadLe32 packet = 2 ->
  exists m, response_ok m /\ packet = enc_response m.
Proof.
  intros H E. destruct (cut_word 88 _ H) as (ty & p1 & -> & W1 & H1).
  rewrite LoadLe32_StoreLe32 in E by done. subst ty.
  destruct (cut_word 84 _ H1) as (idx & p2 & -> & W2 & H2).
  destruct (cut_word 80 _ H2) as (ridx & p3 & -> & W3 & H3).
  destruct (cut_field 32 48 _ H3) as (f1 & p4 & -> & F1 & H4).
  destruct (cut_field 16 32 _ H4) as (f2 & p5 & -> & F2 & H5).
  destruct (cut_field 16 16 _ H5) as (f3 & f4 & -> & F3 & F4).
  by exists (mk_response 2 idx ridx f1 f2 (mk_macs f3 f4)).
Qed.

Lemma cookie_reply_layout packet :
  bytes_of HandshakeCookieSize packet -> LoadLe32 packet = 3 ->
  exists m, cookie_reply_ok m /\ packet = enc_cookie_reply m.
Proof.
  intros H E. destruct (cut_word 60 _ H) as (ty & p1 & -> & W1 & H1).
  rewrite LoadLe32_StoreLe32 in E by done. subst ty.
  destruct (cut_word 56 _ H1) as (idx & p2 & -> & W2 & H2).
  destruct (cut_field 24 32 _ H2) as (f1 & f2 & -> & F1 & F2).
  by exists (mk_cookie_reply 3 idx f1 f2).
Qed.

Lemma transport_data_layout packet :
  bytes_ok packet -> (TransportDataHeaderSize <= length packet)%nat -> LoadLe32 packet = 4 ->
  exists m payload, transport_data_ok m /\ bytes_ok payload /\
                    packet = enc_transport_data m ++ payload.
Proof.
  intros Hb Hl E. change TransportDataHeaderSize with 16%nat in Hl.
  assert (bytes_of (4 + (4 + (length packet - 8))) packet) as H by (split; [lia|done]).
  destruct (cut_word _ _ H) as (ty & p1 & -> & W1 & H1).
  rewrite LoadLe32_StoreLe32 in E by done. subst ty.
  destruct (cut_word _ _ H1) as (idx & p2 & -> & W2 & [_ B2]).
  assert (8 <= length p2)%nat.
  { rewrite !length_app in Hl. change (length (StoreLe32 _)) with 4%nat in Hl. lia. }
  exists (mk_transport_data 4 idx (LoadLe64 p2)), (drop 8 p2). split_and!.
  - split_and!; simpl; auto with wg.
  - auto with wg.
  - unfold enc_transport_data. simpl_fields. rewrite <- !app_assoc.
    by rewrite StoreLe64_LoadLe64, take_drop by done.
Qed.

(** ** Parsers and serialisers on whole packets *)

(** A packet that starts with the encoding of a type word, validated. *)
Lemma ValidatePacket_ok (type : Z) (size : nat) (exact : bool) (packet rest : bytes) :
  1 <= type <= 4 ->
  packet = StoreLe32 type ++ rest ->
  (if exact then length packet = size else (size <= length packet)%nat) ->
  InspectMessageType packet = MakeSuccess (GetMessageType type) /\
  ValidatePacket packet (GetMessageType type) size exact = MakeSuccess (GetMessageType type).
Proof.
  intros Ht Hp Hs. assert (is_u32 type) by (unfold in_width; lia).
  assert (InspectMessageType packet = MakeSuccess (GetMessageType type)) as HI.
  { unfold InspectMessageType. rewrite Hp, LoadLe32_StoreLe32 by done. simpl.
    assert (type = 1 \/ type = 2 \/ type = 3 \/ type = 4) as [->|[->|[->| ->] ] ] by lia; done. }
  split; [done|]. unfold ValidatePacket. rewrite HI. simpl.
  rewrite bool_decide_true by done. simpl.
  destruct exact; simpl.
  - by rewrite Hs, Nat.eqb_refl.
  - by rewrite (proj2 (Nat.ltb_ge _ _)) by lia.
Qed.

(** *** The four parsers on a well-formed packet *)

Lemma length_enc_initiation m : initiation_ok m -> length (enc_initiation m) = HandshakeInitiationSize.
Proof. intros H. open_ok H. unfold enc_initiation, enc_macs. size_simpl. unfold_sizes. simpl. lia. Qed.
Lemma length_enc_response m : response_ok m -> length (enc_response m) = HandshakeResponseSize.
Proof. intros H. open_ok H. unfold enc_response, enc_macs. size_simpl. unfold_sizes. simpl. lia. Qed.
Lemma length_enc_cookie_reply m : cookie_reply_ok m -> length (enc_cookie_reply m) = HandshakeCookieSize.
Proof. intros H. open_ok H. unfold enc_cookie_reply. size_simpl. unfold_sizes. simpl. lia. Qed.
Lemma length_enc_transport_data m : length (enc_transport_data m) = TransportDataHeaderSize.
Proof. done. Qed.

Lemma ParseHandshakeInitiation_enc m out :
  initiation_ok m ->
  InspectMessageType (enc_initiation m) = MakeSuccess MessageType_HandshakeInitiation /\
  ParseHandshakeInitiation (enc_initiation m) out = (MakeSuccess MessageType_HandshakeInitiation, m).
Proof.
  intros H. pose proof (length_enc_initiation m H) as HL.
  destruct (ValidatePacket_ok 1 HandshakeInitiationSize true (enc_initiation m) _ ltac:(lia)
              ltac:(by rewrite <- (proj1 H)) HL) as [HI HV].
  change (GetMessageType 1) with MessageType_HandshakeInitiation in HI, HV.
  split; [done|]. unfold ParseHandshakeInitiation. rewrite HV. cbn [negb pr_success MakeSuccess].
  rewrite <- (app_nil_r (enc_initiation m)). by apply FinishParse_decodes, initiation_decodes.
Qed.
Lemma ParseHandshakeResponse_enc m out :
  response_ok m ->
  InspectMessageType (enc_response m) = MakeSuccess MessageType_HandshakeResponse /\
  ParseHandshakeResponse (enc_response m) out = (MakeSuccess MessageType_HandshakeResponse, m).
Proof.
  intros H. pose proof (length_enc_response m H) as HL.
  destruct (ValidatePacket_ok 2 HandshakeResponseSize true (enc_response m) _ ltac:(lia)
              ltac:(by rewrite <- (proj1 H)) HL) as [HI HV].
  change (GetMessageType 2) with MessageType_HandshakeResponse in HI, HV.
  split; [done|]. unfold ParseHandshakeResponse. rewrite HV. cbn [negb pr_success MakeSuccess].
  rewrite <- (app_nil_r (enc_response m)). by apply FinishParse_decodes, response_decodes.
Qed.
Lemma ParseHandshakeCookie_enc m out :
  cookie_reply_ok m ->
  InspectMessageType (enc_cookie_reply m) = MakeSuccess MessageType_CookieReply /\
  ParseHandshakeCookie (enc_cookie_reply m) out = (MakeSuccess MessageType_CookieReply, m).
Proof.
  intros H. pose proof (length_enc_cookie_reply m H) as HL.
  destruct (ValidatePacket_ok 3 HandshakeCookieSize true (enc_cookie_reply m) _ ltac:(lia)
              ltac:(by rewrite <- (proj1 H)) HL) as [HI HV].
  change (GetMessageType 3) with MessageType_CookieReply in HI, HV.
  split; [done|]. unfold ParseHandshakeCookie. rewrite HV. cbn [negb pr_success MakeSuccess].
  rewrite <- (app_nil_r (enc_cookie_reply m)). by apply FinishParse_decodes, cookie_reply_decodes.
Qed.
Lemma ParseTransportDataHeader_enc m payload out :
  transport_data_ok m ->
  InspectMessageType (enc_transport_data m ++ payload) = MakeSuccess MessageType_TransportData /\
  ParseTransportDataHeader (enc_transport_data m ++ payload) out
  = (MakeSuccess MessageType_TransportData, m).
Proof.
  intros H. pose proof (length_enc_transport_data m) as HL.
  destruct (ValidatePacket_ok 4 TransportDataHeaderSize false (enc_transport_data m ++ payload)
              (StoreLe32 (td_receiver_index m) ++ StoreLe64 (td_counter m) ++ payload) ltac:(lia))
    as [HI HV].
  { unfold enc_transport_data. by rewrite (proj1 H), <- !app_assoc. }
  { size_simpl. lia. }
  change (GetMessageType 4) with MessageType_TransportData in HI, HV.
  split; [done|]. unfold ParseTransportDataHeader. rewrite HV. cbn [negb pr_success MakeSuccess].
  by apply FinishParse_decodes, transport_data_decodes.
Qed.

(** *** The four serialisers on a well-formed message *)

Lemma serialize_target_ok output size type :
  (size <= length output)%nat ->
  ValidateSerializeTarget output size type type = ParseError_None.
Proof.
  intros. unfold ValidateSerializeTarget.
  rewrite (proj2 (Nat.ltb_ge _ _)) by lia. by rewrite bool_decide_true.
Qed.

Lemma SerializeHandshakeInitiation_enc output m :
  initiation_ok m -> (HandshakeInitiationSize <= length output)%nat ->
  SerializeHandshakeInitiation output m
  = (ParseError_None, enc_initiation m ++ drop HandshakeInitiationSize output).
Proof.
  intros H HL. unfold SerializeHandshakeInitiation. rewrite (proj1 H).
  change (GetMessageType 1) with MessageType_HandshakeInitiation.
  rewrite serialize_target_ok by done. rewrite bool_decide_true by done. cbn [negb].
  apply FinishSerialize_encodes; [apply initiation_encodes | by apply length_enc_initiation | done].
Qed.
Lemma SerializeHandshakeResponse_enc output m :
  response_ok m -> (HandshakeResponseSize <= length output)%nat ->
  SerializeHandshakeResponse output m
  = (ParseError_None, enc_response m ++ drop HandshakeResponseSize output).
Proof.
  intros H HL. unfold SerializeHandshakeResponse. rewrite (proj1 H).
  change (GetMessageType 2) with MessageType_HandshakeResponse.
  rewrite serialize_target_ok by done. rewrite bool_decide_true by done. cbn [negb].
  apply FinishSerialize_encodes; [apply response_encodes | by apply length_enc_response | done].
Qed.
Lemma SerializeHandshakeCookie_enc output m :
  cookie_reply_ok m -> (HandshakeCookieSize <= length output)%nat ->
  SerializeHandshakeCookie output m
  = (ParseError_None, enc_cookie_reply m ++ drop HandshakeCookieSize output).
Proof.
  intros H HL. unfold SerializeHandshakeCookie. rewrite (proj1 H).
  change (GetMessageType 3) with MessageType_CookieReply.
  rewrite serialize_target_ok by done. rewrite bool_decide_true by done. cbn [negb].
  apply FinishSerialize_encodes; [apply cookie_reply_encodes | by apply length_enc_cookie_reply | done].
Qed.
Lemma SerializeTransportDataHeader_enc output m :
  transport_data_ok m -> (TransportDataHeaderSize <= length output)%nat ->
  SerializeTransportDataHeader output m
  = (ParseError_None, enc_transport_data m ++ drop TransportDataHeaderSize output).
Proof.
  intros H HL. unfold SerializeTransportDataHeader. rewrite (proj1 H).
  change (GetMessageType 4) with MessageType_TransportData.
  rewrite serialize_target_ok by done. rewrite bool_decide_true by done. cbn [negb].
  apply FinishSerialize_encodes; [apply transport_data_encodes | done | done].
Qed.

(** ** The codec as a whole

    [wire_message] is what a peer can put on the wire: one of the three
    handshake messages, or a transport header followed by its payload. *)

Inductive wire_message :=
  | WireInitiation (m : message_handshake_initiation)
  | WireResponse (m : message_handshake_response)
  | WireCookieReply (m : message_handshake_cookie)
  | WireTransport (m : message_transport_data) (payload : bytes).

Definition wire_ok (w : wire_message) : Prop :=
  match w with
  | WireInitiation m => initiation_ok m
  | WireResponse m => response_ok m
  | WireCookieReply m => cookie_reply_ok m
  | WireTransport m payload => transport_data_ok m /\ bytes_ok payload
  end.

Definition wire_type (w : wire_message) : MessageType :=
  match w with
  | WireInitiation _ => MessageType_HandshakeInitiation
  | WireResponse _ => MessageType_HandshakeResponse
  | WireCookieReply _ => MessageType_CookieReply
  | WireTransport _ _ => MessageType_TransportData
  end.

(** The packet the serialisers produce in a zeroed buffer of the exact size. *)
Definition wire_packet (w : wire_message) : ParseError * bytes :=
  match w with
  | WireInitiation m => SerializeHandshakeInitiation (zeros HandshakeInitiationSize) m
  | WireResponse m => SerializeHandshakeResponse (zeros HandshakeResponseSize) m
  | WireCookieReply m => SerializeHandshakeCookie (zeros HandshakeCookieSize) m
  | WireTransport m payload =>
      let '(error, header) := SerializeTransportDataHeader (zeros TransportDataHeaderSize) m in
      (error, header ++ payload)
  end.

(** What the handlers do with a received message. *)
Definition deliver {C} (handlers : PacketDispatchHandlers C) (w : wire_message) (ctx : C) : C :=
  match w with
  | WireInitiation m => match on_handshake_initiation handlers with Some h => h m ctx | None => ctx end
  | WireResponse m => match on_handshake_response handlers with Some h => h m ctx | None => ctx end
  | WireCookieReply m => match on_cookie_reply handlers with Some h => h m ctx | None => ctx end
  | WireTransport m payload =>
      match on_transport_data handlers with Some h => h m payload ctx | None => ctx end
  end.

Lemma drop_zeros n : drop n (zeros n) = [].
Proof. apply drop_ge. by rewrite length_zeros. Qed.

Lemma wire_packet_enc w :
  wire_ok w ->
  wire_packet w = (ParseError_None,
    match w with
    | WireInitiation m => enc_initiation m
    | WireResponse m => enc_response m
    | WireCookieReply m => enc_cookie_reply m
    | WireTransport m payload => enc_transport_data m ++ payload
    end).
Proof.
  assert (forall n, (n <= length (zeros n))%nat) as HZ by (intros; rewrite length_zeros; lia).
  destruct w as [m|m|m|m payload]; simpl wire_packet; intros H.
  - by rewrite SerializeHandshakeInitiation_enc, drop_zeros, app_nil_r.
  - by rewrite SerializeHandshakeResponse_enc, drop_zeros, app_nil_r.
  - by rewrite SerializeHandshakeCookie_enc, drop_zeros, app_nil_r.
  - destruct H as [H _]. by rewrite SerializeTransportDataHeader_enc, drop_zeros, app_nil_r.
Qed.

Lemma dispatch_enc {C} w (handlers : PacketDispatchHandlers C) ctx :
  wire_ok w ->
  DispatchPacket (snd (wire_packet w)) handlers ctx
  = (MakeSuccess (wire_type w), deliver handlers w ctx).
Proof.
  intros H. rewrite wire_packet_enc by done. unfold DispatchPacket.
  destruct w as [m|m|m|m payload]; cbn [snd wire_type deliver].
  - destruct (ParseHandshakeInitiation_enc m initiation_init H) as [-> E].
    cbn [negb pr_success pr_type MakeSuccess]. rewrite E. by destruct on_handshake_initiation.
  - destruct (ParseHandshakeResponse_enc m response_init H) as [-> E].
    cbn [negb pr_success pr_type MakeSuccess]. rewrite E. by destruct on_handshake_response.
  - destruct (ParseHandshakeCookie_enc m cookie_reply_init H) as [-> E].
    cbn [negb pr_success pr_type MakeSuccess]. rewrite E. by destruct on_cookie_reply.
  - destruct H as [H _].
    destruct (ParseTransportDataHeader_enc m payload transport_data_init H) as [-> E].
    cbn [negb pr_success pr_type MakeSuccess]. rewrite E.
    rewrite drop_app_length' by done. by destruct on_transport_data.
Qed.

(** The acceptance condition of the codec: which error a packet meets. *)
Definition packet_error (packet : bytes) : ParseError :=
  let wrong_length (ok : bool) := if ok then ParseError_None else ParseError_InvalidLength in
  if (length packet <? MessageTypeSize)%nat then ParseError_MissingType
  else match GetMessageType (LoadLe32 packet) with
       | MessageType_HandshakeInitiation => wrong_length (length packet =? HandshakeInitiationSize)%nat
       | MessageType_HandshakeResponse => wrong_length (length packet =? HandshakeResponseSize)%nat
       | MessageType_CookieReply => wrong_length (length packet =? HandshakeCookieSize)%nat
       | MessageType_TransportData => wrong_length (TransportDataHeaderSize <=? length packet)%nat
       | MessageType_Invalid | MessageType_Unnamed _ => ParseError_UnknownType
       end.

Lemma GetMessageType_named word t : GetMessageType word = t -> word = SetMessageType t.
Proof. unfold GetMessageType. by repeat case_if; bool_prop; intros <-. Qed.

(** A packet that meets no error is the encoding of a message. *)
Lemma packet_error_None packet :
  bytes_ok packet -> packet_error packet = ParseError_None ->
  exists w, wire_ok w /\ wire_packet w = (ParseError_None, packet).
Proof.
  intros Hb. unfold packet_error. case_if; [done|].
  destruct (GetMessageType (LoadLe32 packet)) eqn:T; try done;
    apply GetMessageType_named in T; simpl in T; case_if; try done; intros _; bool_prop.
  - destruct (initiation_layout packet ltac:(done) T) as (m & Hm & ->).
    exists (WireInitiation m). split; [done|]. by rewrite wire_packet_enc.
  - destruct (response_layout packet ltac:(done) T) as (m & Hm & ->).
    exists (WireResponse m). split; [done|]. by rewrite wire_packet_enc.
  - destruct (cookie_reply_layout packet ltac:(done) T) as (m & Hm & ->).
    exists (WireCookieReply m). split; [done|]. by rewrite wire_packet_enc.
  - destruct (transport_data_layout packet Hb ltac:(done) T) as (m & p & Hm & Hp & ->).
    exists (WireTransport m p). split; [done|]. by rewrite wire_packet_enc.
Qed.

(** A packet that meets an error is reported with it and not handled. *)
Lemma dispatch_rejects {C} packet (handlers : PacketDispatchHandlers C) ctx :
  packet_error packet <> ParseError_None ->
  exists r, DispatchPacket packet handlers ctx = (r, ctx) /\
            pr_success r = false /\ pr_error r = packet_error packet.
Proof.
  unfold packet_error, DispatchPacket, InspectMessageType, ParseHandshakeInitiation,
    ParseHandshakeResponse, ParseHandshakeCookie, ParseTransportDataHeader, ValidatePacket,
    InspectMessageType.
  case_if; [intros _; eexists; by split_and!|].
  destruct (GetMessageType (LoadLe32 packet)) eqn:T; try (intros _; eexists; by split_and!).
  all: cbn [negb pr_success pr_type MakeSuccess]; rewrite bool_decide_true by done; cbn [negb andb orb].
  all: case_if; [done|]; intros _; rewrite ?orb_false_r; cbn [negb andb orb].
  1-3: by destruct handlers as [[] [] [] []]; eexists; split_and!.
  bool_prop. rewrite (proj2 (Nat.ltb_lt _ _)) by lia.
  by destruct handlers as [[] [] [] []]; eexists; split_and!.
Qed.

(** ** Properties *)

(** Round trip through the wire: any well-formed message, serialised by the
    serialiser of its type, is accepted by [DispatchPacket], which reports the
    type and runs exactly the handler of that type on exactly that message (and
    payload). *)
Theorem dispatch_roundtrip (C : Type) (w : wire_message)
    (handlers : PacketDispatchHandlers C) (ctx : C) (H : wire_ok w) :
  fst (wire_packet w) = ParseError_None /\
  DispatchPacket (snd (wire_packet w)) handlers ctx
  = (MakeSuccess (wire_type w), deliver handlers w ctx).
Proof. split; [by rewrite wire_packet_enc | by apply dispatch_enc]. Qed.

(** [DispatchPacket] is exact: on every byte string it either reports the
    error of [packet_error] (missing type, unknown type, wrong length) and
    leaves the handlers' context untouched, or the bytes are the serialisation
    of a unique well-formed message, which is delivered. *)
Theorem dispatch_exact (C : Type) (packet : bytes)
    (handlers : PacketDispatchHandlers C) (ctx : C) (H : bytes_ok packet) :
  (packet_error packet <> ParseError_None /\
   exists r, DispatchPacket packet handlers ctx = (r, ctx) /\
             pr_success r = false /\ pr_error r = packet_error packet) \/
  (packet_error packet = ParseError_None /\
   exists w, wire_ok w /\ wire_packet w = (ParseError_None, packet) /\
             (forall w', wire_ok w' -> wire_packet w' = (ParseError_None, packet) -> w' = w) /\
             DispatchPacket packet handlers ctx
             = (MakeSuccess (wire_type w), deliver handlers w ctx)).
Proof.
  destruct (decide (packet_error packet = ParseError_None)) as [E|E].
  2: { left. split; [done|]. by apply dispatch_rejects. }
  right. split; [done|].
  destruct (packet_error_None packet H E) as (w & Hw & Ew).
  exists w. split_and!; [done|done| |].
  - intros w' Hw' Ew'.
    set (hs := mk_handlers (Some (fun m _ => Some (WireInitiation m)))
                 (Some (fun m _ => Some (WireResponse m)))
                 (Some (fun m _ => Some (WireCookieReply m)))
                 (Some (fun m p _ => Some (WireTransport m p)))).
    pose proof (dispatch_enc w hs None Hw) as D. pose proof (dispatch_enc w' hs None Hw') as D'.
    rewrite Ew in D. rewrite Ew' in D'. rewrite D in D'. injection D' as _ D'.
    by destruct w, w'; simpl in D'; congruence.
  - pose proof (dispatch_enc w handlers ctx Hw) as D. by rewrite Ew in D.
Qed.

(** ** Witnesses *)

Definition sample_initiation : message_handshake_initiation :=
  mk_initiation 1 305419896 (replicate 32 7) (replicate 48 8) (replicate 28 9)
    (mk_macs (replicate 16 10) (replicate 16 11)).

Lemma sample_initiation_ok : wire_ok (WireInitiation sample_initiation).
Proof. vm_compute. repeat split; repeat constructor; done. Defined.

Lemma dispatch_roundtrip_witness :
  fst (wire_packet (WireInitiation sample_initiation)) = ParseError_None /\
  DispatchPacket (snd (wire_packet (WireInitiation sample_initiation)))
    (mk_handlers (Some (fun m n => n + hi_sender_index m)) None None None) 1
  = (MakeSuccess MessageType_HandshakeInitiation, 305419897).
Proof. exact (dispatch_roundtrip Z _ _ 1 sample_initiation_ok). Defined.

Lemma dispatch_exact_witness :
  packet_error [9; 0; 0; 0; 1] = ParseError_UnknownType /\
  exists r, DispatchPacket [9; 0; 0; 0; 1] (mk_handlers None None None None) tt = (r, tt) /\
            pr_success r = false.
Proof.
  split; [done|].
  destruct (dispatch_exact unit [9; 0; 0; 0; 1] (mk_handlers None None None None) tt)
    as [[_ (r & E & S & _)] | [N _]].
  - repeat constructor; done.
  - by exists r.
  - done.
Defined.
