(* ===== verification/Replay.v ===== *)
(** * The anti-replay window

    Models [ReplayWindow] of [wireguard/session.hpp] and
    [wireguard/session.cpp]: a ring of 128 blocks of 64 bits addressed by the
    low bits of the packet counter.  The abstract specification is the set of
    counters accepted so far; [window_refines] proves that [TryAdvance] returns,
    on every sequence of 64-bit counters, exactly what that specification
    returns. *)

From S2P Require Import Prelude.
Local Open Scope Z_scope.

Definition BlockBitLog : Z := 6.
Definition BlockBits : Z := Z.shiftl 1 BlockBitLog.
Definition RingBlocks : Z := Z.shiftl 1 7.
Definition WindowSize : Z := (RingBlocks - 1) * BlockBits.
Definition BlockMask : Z := RingBlocks - 1.
Definition BitMask : Z := BlockBits - 1.

Record ReplayWindow := mk_window {
  m_highest_counter : Z;
  m_ring : list Z;
  m_initialized : bool
}.

(** [m_ring[i & BlockMask]], read and written. *)
Definition ring_get (ring : list Z) (i : Z) : Z := default 0 (ring !! Z.to_nat (Z.land i BlockMask)).
Definition ring_set (ring : list Z) (i v : Z) : list Z := <[Z.to_nat (Z.land i BlockMask) := v]> ring.

(** The loop [for (i = first; i < first + count; ++i) m_ring[i & BlockMask] = 0]. *)
Fixpoint ring_clear (ring : list Z) (first : Z) (count : nat) : list Z :=
  match count with
  | O => ring
  | S count' => ring_clear (ring_set ring first 0) (first + 1) count'
  end.

Definition Window_TryAdvance (w : ReplayWindow) (counter : Z) : bool * ReplayWindow :=
  let index_block := Z.shiftr counter BlockBitLog in
  let mark (highest : Z) (ring : list Z) :=
    let index_bit := Z.land counter BitMask in
    let old_block := ring_get ring index_block in
    let new_block := Z.lor old_block (Z.shiftl 1 index_bit) in
    (negb (old_block =? new_block),
     mk_window highest (ring_set ring index_block new_block) true) in
  if m_highest_counter w <? counter then
    let current := Z.shiftr (m_highest_counter w) BlockBitLog in
    let diff := index_block - current in
    let diff := if RingBlocks <? diff then RingBlocks else diff in
    mark counter (ring_clear (m_ring w) (current + 1) (Z.to_nat diff))
  else if m_initialized w && (WindowSize <? m_highest_counter w - counter) then (false, w)
  else mark (m_highest_counter w) (m_ring w).

Definition Window_Reset : ReplayWindow := mk_window 0 (replicate 128 0) false.

(** A sequence of received counters. *)
Fixpoint window_run (w : ReplayWindow) (counters : list Z) : list bool * ReplayWindow :=
  match counters with
  | [] => ([], w)
  | c :: rest =>
      let '(accepted, w') := Window_TryAdvance w c in
      let '(results, w'') := window_run w' rest in
      (accepted :: results, w'')
  end.

(** ** Abstract specification

    The state is the list of accepted counters.  A counter is accepted when it
    is new and not more than [WindowSize] behind the highest one. *)

Definition highest (seen : list Z) : Z := foldr Z.max 0 seen.

Definition spec_accepts (seen : list Z) (c : Z) : bool :=
  bool_decide (c ∉ seen) && (highest seen - c <=? WindowSize).

Fixpoint spec_run (seen : list Z) (counters : list Z) : list bool :=
  match counters with
  | [] => []
  | c :: rest =>
      spec_accepts seen c :: spec_run (if spec_accepts seen c then c :: seen else seen) rest
  end.

(** ** Ring lemmas *)

Lemma land_mask127 i : Z.land i BlockMask = i mod 128.
Proof. exact (land_mask 7 i ltac:(lia)). Qed.
Lemma land_mask63 i : Z.land i BitMask = i mod 64.
Proof. exact (land_mask 6 i ltac:(lia)). Qed.
Lemma block_of i : Z.shiftr i BlockBitLog = i / 64.
Proof. apply shiftr_div. unfold BlockBitLog. lia. Qed.

Lemma ring_set_length ring i v : length (ring_set ring i v) = length ring.
Proof. apply length_insert. Qed.

Lemma ring_clear_length ring i n : length (ring_clear ring i n) = length ring.
Proof. revert ring i. induction n; intros; simpl; [done|]. by rewrite IHn, ring_set_length. Qed.

Lemma ring_get_set ring i j v :
  length ring = 128%nat ->
  ring_get (ring_set ring i v) j = if i mod 128 =? j mod 128 then v else ring_get ring j.
Proof.
  intros HL. unfold ring_get, ring_set. rewrite !land_mask127.
  pose proof (Z.mod_pos_bound i 128 ltac:(lia)). pose proof (Z.mod_pos_bound j 128 ltac:(lia)).
  case_if; bool_prop.
  - rewrite Heqb. by rewrite list_lookup_insert_eq by lia.
  - by rewrite list_lookup_insert_ne by lia.
Qed.

(** Clearing [n] blocks from [i] zeroes exactly the blocks [j] whose distance
    from [i] modulo the ring size is below [n]. *)
Lemma ring_get_clear ring i n j :
  length ring = 128%nat -> (n <= 128)%nat ->
  ring_get (ring_clear ring i n) j
  = if (j - i) mod 128 <? Z.of_nat n then 0 else ring_get ring j.
Proof.
  revert ring i. induction n as [|n IH]; intros ring i HL Hn; simpl ring_clear.
  - rewrite (proj2 (Z.ltb_ge _ _)); [done|]. apply Z.mod_pos_bound. lia.
  - rewrite IH by (rewrite ?ring_set_length; lia). rewrite ring_get_set by done.
    destruct (i mod 128 =? j mod 128) eqn:E; bool_prop.
    + rewrite (proj2 (Z.ltb_lt ((j - i) mod 128) _)); [by case_if|].
      replace ((j - i) mod 128) with 0; [lia|].
      symmetry. Z.div_mod_to_equations. lia.
    + replace ((j - (i + 1)) mod 128 <? Z.of_nat n) with ((j - i) mod 128 <? Z.of_nat (S n));
        [done|].
      assert ((j - (i + 1)) mod 128 = (j - i) mod 128 - 1) as ->
        by (Z.div_mod_to_equations; lia).
      apply eq_iff_eq_true. rewrite !Z.ltb_lt. lia.
Qed.

(** ** The simulation relation *)

(** The blocks that can still be consulted: those at most 127 below the block
    of the highest counter. *)
Definition live_block (h b : Z) : Prop := h / 64 - 127 <= b <= h / 64.

Record window_sim (w : ReplayWindow) (seen : list Z) : Prop := {
  sim_length : length (m_ring w) = 128%nat;
  sim_highest : m_highest_counter w = highest seen;
  sim_range : Forall is_u64 seen;
  sim_init : m_initialized w = true \/ (m_initialized w = false /\ seen = []);
  sim_bits : forall c, 0 <= c -> live_block (highest seen) (c / 64) ->
    Z.testbit (ring_get (m_ring w) (c / 64)) (c mod 64) = bool_decide (c ∈ seen)
}.

Lemma highest_nonneg seen : 0 <= highest seen.
Proof. induction seen; simpl; lia. Qed.

Lemma highest_ge seen c : c ∈ seen -> c <= highest seen.
Proof. induction 1; simpl; lia. Qed.

Lemma ring_get_replicate n i : ring_get (replicate n 0) i = 0.
Proof.
  unfold ring_get. destruct (_ !! _) eqn:E; [|done].
  by apply lookup_replicate_1 in E as [-> _].
Qed.

Lemma window_sim_reset : window_sim Window_Reset [].
Proof.
  split; try done.
  - by right.
  - intros c Hc _. unfold Window_Reset. cbn [m_ring].
    rewrite ring_get_replicate, Z.bits_0. by rewrite bool_decide_false by set_solver.
Qed.

Lemma div_mod_64 c d : c / 64 = d / 64 -> c mod 64 = d mod 64 -> c = d.
Proof. intros. Z.div_mod_to_equations. lia. Qed.

(** Setting the bit of [c] in its block, in a ring that represents [seen]
    around the new highest counter. *)
Lemma mark_bits ring seen h c d :
  length ring = 128%nat -> 0 <= c -> 0 <= d ->
  live_block h (c / 64) -> live_block h (d / 64) ->
  Z.testbit (ring_get ring (d / 64)) (d mod 64) = bool_decide (d ∈ seen) ->
  Z.testbit (ring_get (ring_set ring (c / 64)
               (Z.lor (ring_get ring (c / 64)) (Z.shiftl 1 (c mod 64)))) (d / 64)) (d mod 64)
  = bool_decide (d ∈ c :: seen).
Proof.
  intros HL Hc Hd Lc Ld E. unfold live_block in *. rewrite ring_get_set by done.
  pose proof (Z.mod_pos_bound c 64 ltac:(lia)). pose proof (Z.mod_pos_bound d 64 ltac:(lia)).
  assert (bool_decide (d ∈ c :: seen) = bool_decide (d = c) || bool_decide (d ∈ seen)) as ->.
  { rewrite <- bool_decide_or. apply bool_decide_ext. by rewrite elem_of_cons. }
  destruct (_ =? _) eqn:B; bool_prop.
  - assert (c / 64 = d / 64) as B' by (Z.div_mod_to_equations; lia).
    rewrite Z.lor_spec, B', E, orb_comm. f_equal.
    rewrite Z.shiftl_1_l, Z.pow2_bits_eqb by lia.
    destruct (decide (d = c)) as [->|D].
    + by rewrite bool_decide_true, Z.eqb_refl.
    + rewrite (bool_decide_false (d = c)) by done. apply Z.eqb_neq. intros M. apply D. by apply div_mod_64.
  - rewrite E, (bool_decide_false (d = c)); [done|]. by intros ->.
Qed.

Lemma mark_fresh ring c :
  0 <= c ->
  negb (ring_get ring (c / 64) =? Z.lor (ring_get ring (c / 64)) (Z.shiftl 1 (c mod 64)))
  = negb (Z.testbit (ring_get ring (c / 64)) (c mod 64)).
Proof.
  intros Hc. pose proof (Z.mod_pos_bound c 64 ltac:(lia)). f_equal.
  generalize (ring_get ring (c / 64)) as b. intros b. apply eq_iff_eq_true. rewrite Z.eqb_eq. split.
  - intros E. rewrite E, Z.lor_spec, Z.shiftl_1_l, Z.pow2_bits_true by lia. apply orb_true_r.
  - intros T. apply Z.bits_inj'. intros i Hi.
    rewrite Z.lor_spec, Z.shiftl_1_l, Z.pow2_bits_eqb by lia.
    destruct (_ =? i) eqn:E; bool_prop; [subst; by rewrite T | by rewrite orb_false_r].
Qed.

(** After clearing for a counter above the highest one, the ring represents the
    same set around the new highest counter. *)
Lemma clear_bits ring seen c d :
  length ring = 128%nat -> highest seen < c -> 0 <= d -> live_block c (d / 64) ->
  (forall e, 0 <= e -> live_block (highest seen) (e / 64) ->
     Z.testbit (ring_get ring (e / 64)) (e mod 64) = bool_decide (e ∈ seen)) ->
  Z.testbit (ring_get (ring_clear ring (highest seen / 64 + 1)
     (Z.to_nat (if 128 <? c / 64 - highest seen / 64 then 128 else c / 64 - highest seen / 64)))
     (d / 64)) (d mod 64)
  = bool_decide (d ∈ seen).
Proof.
  intros HL Hc Hd Ld HB. pose proof (highest_nonneg seen).
  set (h := highest seen) in *. unfold live_block in *.
  assert (h / 64 <= c / 64) by (apply Z.div_le_mono; lia).
  assert (0 <= h / 64) by (apply Z.div_pos; lia).
  set (n := if 128 <? c / 64 - h / 64 then 128 else c / 64 - h / 64).
  assert (0 <= n <= 128 /\ n <= c / 64 - h / 64 /\ (n = 128 \/ n = c / 64 - h / 64)) as Hn
    by (unfold n; case_if; bool_prop; lia).
  clearbody n. rewrite ring_get_clear by lia. rewrite Z2Nat.id by lia.
  destruct (Z.le_gt_cases (d / 64) (h / 64)) as [Hle|Hgt].
  - assert (n <= (d / 64 - (h / 64 + 1)) mod 128) by (Z.div_mod_to_equations; lia).
    rewrite (proj2 (Z.ltb_ge _ _)) by lia. apply HB; lia.
  - assert ((d / 64 - (h / 64 + 1)) mod 128 < n) by (Z.div_mod_to_equations; lia).
    rewrite (proj2 (Z.ltb_lt _ _)) by lia. rewrite Z.bits_0, bool_decide_false; [done|].
    intros Hin%highest_ge. assert (d / 64 <= h / 64) by (apply Z.div_le_mono; lia). lia.
Qed.

Lemma spec_accepts_above seen c : highest seen < c -> spec_accepts seen c = true.
Proof.
  intros. unfold spec_accepts. rewrite bool_decide_true.
  - apply Z.leb_le. change WindowSize with 8128. lia.
  - intros ?%highest_ge. lia.
Qed.

Lemma live_block_window h c : c <= h -> h - c <= WindowSize -> live_block h (c / 64).
Proof.
  change WindowSize with 8128. unfold live_block. intros. split; [|apply Z.div_le_mono; lia].
  Z.div_mod_to_equations. lia.
Qed.

Lemma window_step_above w seen c :
  window_sim w seen -> is_u64 c -> highest seen < c ->
  exists w', Window_TryAdvance w c = (true, w') /\ window_sim w' (c :: seen).
Proof.
  intros [HL HH HR HI HB] Hc Hlt. pose proof (highest_nonneg seen).
  unfold Window_TryAdvance. rewrite HH, !block_of, land_mask63.
  rewrite (proj2 (Z.ltb_lt _ _)) by done. change RingBlocks with 128. eexists. split.
  - rewrite mark_fresh by lia. f_equal.
    rewrite (clear_bits _ seen c c) by (done || lia || (unfold live_block; lia)).
    rewrite bool_decide_false; [done|]. intros ?%highest_ge. lia.
  - assert (highest (c :: seen) = c) as E by (simpl; fold (highest seen); lia).
    split; cbn [m_ring m_highest_counter m_initialized].
    + by rewrite ring_set_length, ring_clear_length.
    + done.
    + by constructor.
    + by left.
    + rewrite E. intros d Hd Ld. apply mark_bits with (h := c); try done; try lia.
      * by rewrite ring_clear_length.
      * unfold live_block. lia.
      * by apply clear_bits.
Qed.

Lemma window_step_within w seen c :
  window_sim w seen -> is_u64 c -> c <= highest seen -> highest seen - c <= WindowSize ->
  exists w', Window_TryAdvance w c = (bool_decide (c ∉ seen), w') /\
             window_sim w' (if bool_decide (c ∉ seen) then c :: seen else seen).
Proof.
  intros [HL HH HR HI HB] Hc Hle HW.
  unfold Window_TryAdvance. rewrite HH, !block_of, land_mask63.
  rewrite (proj2 (Z.ltb_ge _ _)) by done.
  rewrite (proj2 (Z.ltb_ge WindowSize _)), andb_false_r by done.
  assert (live_block (highest seen) (c / 64)) as Lc by by apply live_block_window.
  unfold in_width in Hc. eexists. split.
  - rewrite mark_fresh, HB by (done || lia). by rewrite bool_decide_not.
  - assert (forall d, 0 <= d -> live_block (highest seen) (d / 64) ->
      Z.testbit (ring_get (ring_set (m_ring w) (c / 64)
        (Z.lor (ring_get (m_ring w) (c / 64)) (Z.shiftl 1 (c mod 64)))) (d / 64)) (d mod 64)
      = bool_decide (d ∈ c :: seen)) as HM.
    { intros. apply mark_bits with (h := highest seen); try done; try lia. by apply HB. }
    assert (highest (c :: seen) = highest seen) as E by (simpl; fold (highest seen); lia).
    case_bool_decide as N; split; cbn [m_ring m_highest_counter m_initialized];
      rewrite ?ring_set_length, ?E; try done; try (by left).
    + by constructor.
    + intros d Hd Ld. rewrite HM by done. apply bool_decide_ext.
      rewrite elem_of_cons. split; [|by right]. by intros [->|?].
Qed.

Lemma window_step w seen c :
  window_sim w seen -> is_u64 c ->
  exists w', Window_TryAdvance w c = (spec_accepts seen c, w') /\
             window_sim w' (if spec_accepts seen c then c :: seen else seen).
Proof.
  intros HS Hc. destruct (Z.lt_ge_cases (highest seen) c) as [Hlt|Hge].
  { rewrite spec_accepts_above by done. by apply window_step_above. }
  unfold spec_accepts. destruct (Z.le_gt_cases (highest seen - c) WindowSize) as [HW|HW].
  - rewrite (proj2 (Z.leb_le _ _)), andb_true_r by done. by apply window_step_within.
  - rewrite (proj2 (Z.leb_gt _ _)), andb_false_r by done. exists w. split; [|done].
    unfold Window_TryAdvance. destruct HS as [HL HH HR HI HB]. rewrite HH.
    rewrite (proj2 (Z.ltb_ge _ _)) by done.
    assert (m_initialized w = true) as ->.
    { destruct HI as [?|[_ ->]]; [done|]. change WindowSize with 8128 in *. unfold in_width in *. simpl in *. lia. }
    by rewrite (proj2 (Z.ltb_lt _ _)) by lia.
Qed.

Lemma window_run_sim w seen counters :
  window_sim w seen -> Forall is_u64 counters ->
  fst (window_run w counters) = spec_run seen counters.
Proof.
  intros HS HF. revert w seen HS. induction HF as [|c cs Hc HF IH]; intros w seen HS; [done|].
  simpl. destruct (window_step w seen c HS Hc) as (w' & E & HS'). rewrite E.
  specialize (IH w' _ HS'). destruct (window_run w' cs) as [rs w'']. simpl in *. by rewrite IH.
Qed.

(** The counters of a run that were accepted. *)
Fixpoint keep_accepted (counters : list Z) (results : list bool) : list Z :=
  match counters, results with
  | c :: cs, ok :: rs => if ok then c :: keep_accepted cs rs else keep_accepted cs rs
  | _, _ => []
  end.

Definition accepted (w : ReplayWindow) (counters : list Z) : list Z :=
  keep_accepted counters (fst (window_run w counters)).

Lemma spec_run_accepted seen counters c :
  c ∈ keep_accepted counters (spec_run seen counters) -> c ∉ seen.
Proof.
  revert seen. induction counters as [|d ds IH]; intros seen; simpl; [set_solver|].
  destruct (spec_accepts seen d) eqn:E; [|apply IH].
  rewrite elem_of_cons. intros [->|H].
  - unfold spec_accepts in E. by bool_prop.
  - apply IH in H. set_solver.
Qed.

Lemma spec_run_nodup seen counters : NoDup (keep_accepted counters (spec_run seen counters)).
Proof.
  revert seen. induction counters as [|d ds IH]; intros seen; simpl; [constructor|].
  destruct (spec_accepts seen d) eqn:E; [|apply IH].
  constructor; [|apply IH]. intros H%spec_run_accepted. set_solver.
Qed.

(** ** Properties *)

(** C40. Refinement: over any sequence of 64-bit counters, the ring-based
    [TryAdvance] started from a reset window accepts exactly the counters that
    the abstract anti-replay specification accepts: those not accepted before
    and at most 8128 behind the highest accepted one. *)
Theorem window_refines (counters : list Z) (H : Forall is_u64 counters) :
  fst (window_run Window_Reset counters) = spec_run [] counters.
Proof. apply window_run_sim; [apply window_sim_reset | done]. Qed.

(** Replay protection: no counter is ever accepted twice by one window,
    whatever the order and repetitions in which counters arrive. *)
Theorem no_counter_accepted_twice (counters : list Z) (H : Forall is_u64 counters) :
  NoDup (accepted Window_Reset counters).
Proof.
  unfold accepted. rewrite (window_run_sim _ []) by (apply window_sim_reset || done).
  apply spec_run_nodup.
Qed.

(** ** Witnesses *)

Lemma window_refines_witness :
  fst (window_run Window_Reset [5; 5; 0; 20000; 4; 11872; 11871; 20000])
  = [true; false; true; true; false; true; false; false].
Proof.
  rewrite window_refines; [vm_compute; reflexivity|].
  repeat constructor; done.
Defined.

Lemma no_counter_accepted_twice_witness :
  NoDup (accepted Window_Reset [7; 7; 8; 7]) /\ accepted Window_Reset [7; 7; 8; 7] = [7; 8].
Proof.
  split; [|vm_compute; reflexivity].
  apply no_counter_accepted_twice. repeat constructor; done.
Defined.
