(* ===== verification/PacketQueue.v ===== *)
(** * The bounded inner-packet queue

    Models [InnerPacketRecord], [QueueStatistics] and the class template
    [InnerPacketQueue<Capacity>] of [wireguard/inner_packet.hpp]: a ring buffer
    with statistics counters.  [queue_refines_fifo] shows that every sequence of
    operations behaves as on a bounded FIFO list; [queue_statistics_balance]
    that the counters account for every packet, modulo their 64-bit width; and
    the invariant includes that slots outside the queue are wiped. *)

From S2P Require Import Prelude.
Local Open Scope Z_scope.

Definition MaxInnerIpPacketSize : nat := 1500.

Record InnerPacketRecord := mk_record {
  rec_bytes : bytes;
  rec_packet_id : Z;
  rec_activation_generation : Z;
  rec_peer_index : Z;
  rec_size : Z
}.
Definition record_init : InnerPacketRecord := mk_record (zeros MaxInnerIpPacketSize) 0 0 0 0.
#[export] Instance eta_record : Eta InnerPacketRecord := fun r =>
  mk_record (rec_bytes r) (rec_packet_id r) (rec_activation_generation r) (rec_peer_index r)
    (rec_size r).

Inductive QueuePushResult := QueuePushResult_Pushed | QueuePushResult_Full.
#[export] Instance QueuePushResult_eq_dec : EqDecision QueuePushResult.
Proof. solve_decision. Defined.

Inductive QueueDisposition :=
  | QueueDisposition_Delivered
  | QueueDisposition_Sent
  | QueueDisposition_Stale
  | QueueDisposition_Unavailable
  | QueueDisposition_SendFailed
  | QueueDisposition_RetryExhausted
  | QueueDisposition_Cleared.

#[export] Instance QueueDisposition_eq_dec : EqDecision QueueDisposition.
Proof. solve_decision. Defined.

Record QueueStatistics := mk_statistics {
  st_pushed : Z;
  st_popped : Z;
  st_rejected_full : Z;
  st_delivered : Z;
  st_sent : Z;
  st_stale : Z;
  st_unavailable : Z;
  st_send_failed : Z;
  st_retry_exhausted : Z;
  st_cleared : Z;
  st_high_watermark : nat
}.
Definition statistics_init : QueueStatistics := mk_statistics 0 0 0 0 0 0 0 0 0 0 0.
#[export] Instance eta_statistics : Eta QueueStatistics := fun r =>
  mk_statistics (st_pushed r) (st_popped r) (st_rejected_full r) (st_delivered r) (st_sent r)
    (st_stale r) (st_unavailable r) (st_send_failed r) (st_retry_exhausted r) (st_cleared r)
    (st_high_watermark r).

(** [QueueStatistics::Dropped]. *)
Definition Statistics_Dropped (s : QueueStatistics) : Z :=
  u64 (st_rejected_full s + st_stale s + st_unavailable s + st_send_failed s
       + st_retry_exhausted s + st_cleared s).

Record InnerPacketQueue := mk_queue {
  q_records : list InnerPacketRecord;
  q_head : nat;
  q_count : nat;
  q_statistics : QueueStatistics
}.
#[export] Instance eta_queue : Eta InnerPacketQueue := fun r =>
  mk_queue (q_records r) (q_head r) (q_count r) (q_statistics r).

(** [m_statistics.field += value] on a 64-bit counter. *)
Definition add64 (value counter : Z) : Z := u64 (counter + value).

Definition RecordDisposition (disposition : QueueDisposition) (count : nat)
    (s : QueueStatistics) : QueueStatistics :=
  let value := Z.of_nat count in
  match disposition with
  | QueueDisposition_Delivered => s <| st_delivered ::= add64 value |>
  | QueueDisposition_Sent => s <| st_sent ::= add64 value |>
  | QueueDisposition_Stale => s <| st_stale ::= add64 value |>
  | QueueDisposition_Unavailable => s <| st_unavailable ::= add64 value |>
  | QueueDisposition_SendFailed => s <| st_send_failed ::= add64 value |>
  | QueueDisposition_RetryExhausted => s <| st_retry_exhausted ::= add64 value |>
  | QueueDisposition_Cleared => s <| st_cleared ::= add64 value |>
  end.

(** [m_records[i]]. *)
Definition record_at (records : list InnerPacketRecord) (i : nat) : InnerPacketRecord :=
  default record_init (records !! i).

Section Queue.
Context (Capacity : nat).

Definition queue_init : InnerPacketQueue :=
  mk_queue (replicate Capacity record_init) 0 0 statistics_init.

Definition Queue_Push (packet : InnerPacketRecord) (q : InnerPacketQueue)
    : QueuePushResult * InnerPacketQueue :=
  if (q_count q =? Capacity)%nat then
    (QueuePushResult_Full, q <| q_statistics ::= fun s => s <| st_rejected_full ::= add64 1 |> |>)
  else
    let q := q <| q_records := <[((q_head q + q_count q) mod Capacity)%nat := packet]> (q_records q) |> in
    let q := q <| q_count := S (q_count q) |> in
    let q := q <| q_statistics ::= fun s => s <| st_pushed ::= add64 1 |> |> in
    let q := if (st_high_watermark (q_statistics q) <? q_count q)%nat then
               q <| q_statistics ::= fun s => s <| st_high_watermark := q_count q |> |>
             else q in
    (QueuePushResult_Pushed, q).

Definition Queue_Front (q : InnerPacketQueue) : option InnerPacketRecord :=
  if (q_count q =? 0)%nat then None else Some (record_at (q_records q) (q_head q)).

(** [Pop(out, disposition)]: the popped record, or [None] where the C++
    returns [false]; a caller that passes a null [out] ignores the record. *)
Definition Queue_Pop (disposition : QueueDisposition) (q : InnerPacketQueue)
    : option InnerPacketRecord * InnerPacketQueue :=
  if (q_count q =? 0)%nat then (None, q)
  else
    let out := record_at (q_records q) (q_head q) in
    let q := q <| q_records := <[q_head q := record_init]> (q_records q) |> in
    let q := q <| q_head := ((q_head q + 1) mod Capacity)%nat |> in
    let q := q <| q_count := (q_count q - 1)%nat |> in
    let q := q <| q_statistics ::= fun s =>
               RecordDisposition disposition 1 (s <| st_popped ::= add64 1 |>) |> in
    (Some out, q).

(** The loop of [Clear] over the occupied slots. *)
Fixpoint wipe_slots (records : list InnerPacketRecord) (head i n : nat) : list InnerPacketRecord :=
  match n with
  | O => records
  | S n' => wipe_slots (<[((head + i) mod Capacity)%nat := record_init]> records) head (S i) n'
  end.

Definition Queue_Clear (disposition : QueueDisposition) (q : InnerPacketQueue)
    : nat * InnerPacketQueue :=
  let cleared := q_count q in
  let q := q <| q_records := wipe_slots (q_records q) (q_head q) 0 (q_count q) |> in
  let q := q <| q_head := 0%nat |> in
  let q := q <| q_count := 0%nat |> in
  let q := q <| q_statistics ::= fun s =>
             RecordDisposition disposition cleared (s <| st_popped ::= add64 (Z.of_nat cleared) |>) |> in
  (cleared, q).

Definition Queue_Size (q : InnerPacketQueue) : nat := q_count q.

(** ** The queue as a list *)

(** The ring index of the [i]-th queued packet. *)
Definition slot (q : InnerPacketQueue) (i : nat) : nat := ((q_head q + i) mod Capacity)%nat.

Definition contents (q : InnerPacketQueue) : list InnerPacketRecord :=
  (fun i => record_at (q_records q) (slot q i)) <$> seq 0 (q_count q).

(** Invariant: the indices are in range, and every slot that holds no queued
    packet is value-initialised (packet bytes are wiped when they leave). *)
Record queue_wf (q : InnerPacketQueue) : Prop := {
  wf_records : length (q_records q) = Capacity;
  wf_head : (q_head q < Capacity)%nat;
  wf_count : (q_count q <= Capacity)%nat;
  wf_wiped : forall j, (forall i, (i < q_count q)%nat -> slot q i <> j) ->
             record_at (q_records q) j = record_init
}.

(** Counter balance: every packet pushed was popped or is still queued, and
    every popped packet has exactly one disposition, modulo the 64-bit width. *)
Definition dispositions (s : QueueStatistics) : Z :=
  st_delivered s + st_sent s + st_stale s + st_unavailable s + st_send_failed s
  + st_retry_exhausted s + st_cleared s.
Record queue_balanced (q : InnerPacketQueue) : Prop := {
  bal_pushed : cong 64 (st_pushed (q_statistics q))
                       (st_popped (q_statistics q) + Z.of_nat (q_count q));
  bal_popped : cong 64 (st_popped (q_statistics q)) (dispositions (q_statistics q));
  bal_watermark : (q_count q <= st_high_watermark (q_statistics q) <= Capacity)%nat
}.

(** ** Abstract specification: a bounded FIFO *)

Inductive queue_op :=
  | OpPush (packet : InnerPacketRecord)
  | OpFront
  | OpPop (disposition : QueueDisposition)
  | OpClear (disposition : QueueDisposition)
  | OpSize.

Inductive queue_reply :=
  | ReplyPush (result : QueuePushResult)
  | ReplyFront (packet : option InnerPacketRecord)
  | ReplyPop (packet : option InnerPacketRecord)
  | ReplyClear (count : nat)
  | ReplySize (count : nat).

Definition queue_step (q : InnerPacketQueue) (op : queue_op) : queue_reply * InnerPacketQueue :=
  match op with
  | OpPush packet => let '(r, q') := Queue_Push packet q in (ReplyPush r, q')
  | OpFront => (ReplyFront (Queue_Front q), q)
  | OpPop d => let '(r, q') := Queue_Pop d q in (ReplyPop r, q')
  | OpClear d => let '(r, q') := Queue_Clear d q in (ReplyClear r, q')
  | OpSize => (ReplySize (Queue_Size q), q)
  end.

Definition fifo_step (l : list InnerPacketRecord) (op : queue_op)
    : queue_reply * list InnerPacketRecord :=
  match op with
  | OpPush packet =>
      if (length l <? Capacity)%nat then (ReplyPush QueuePushResult_Pushed, l ++ [packet])
      else (ReplyPush QueuePushResult_Full, l)
  | OpFront => (ReplyFront (head l), l)
  | OpPop _ => (ReplyPop (head l), tail l)
  | OpClear _ => (ReplyClear (length l), [])
  | OpSize => (ReplySize (length l), l)
  end.

Fixpoint run_ops {S} (step : S -> queue_op -> queue_reply * S) (s : S) (ops : list queue_op)
    : list queue_reply * S :=
  match ops with
  | [] => ([], s)
  | op :: rest =>
      let '(r, s') := step s op in
      let '(rs, s'') := run_ops step s' rest in
      (r :: rs, s'')
  end.

(** ** Lemmas on slots *)

Lemma mod_slot_inj h i j :
  (i < Capacity)%nat -> (j < Capacity)%nat ->
  ((h + i) mod Capacity = (h + j) mod Capacity)%nat -> i = j.
Proof.
  intros Hi Hj E.
  pose proof (Nat.div_mod_eq (h + i) Capacity) as Di.
  pose proof (Nat.div_mod_eq (h + j) Capacity) as Dj. rewrite E in Di.
  set (a := ((h + i) / Capacity)%nat) in *. set (b := ((h + j) / Capacity)%nat) in *.
  destruct (Nat.lt_total a b) as [?|[?|?]]; nia.
Qed.

Lemma record_at_insert records j k r :
  (j < length records)%nat ->
  record_at (<[j := r]> records) k = if decide (j = k) then r else record_at records k.
Proof.
  intros. unfold record_at. case_decide; subst.
  - by rewrite list_lookup_insert_eq.
  - by rewrite list_lookup_insert_ne.
Qed.

Lemma record_at_replicate n i : record_at (replicate n record_init) i = record_init.
Proof.
  unfold record_at. destruct (_ !! i) eqn:E; [|done]. by apply lookup_replicate_1 in E as [-> _].
Qed.

Lemma wipe_slots_length records head i n : length (wipe_slots records head i n) = length records.
Proof. revert records i. induction n; intros; simpl; [done|]. by rewrite IHn, length_insert. Qed.

(** A wiped slot is value-initialised; the others are unchanged. *)
Lemma wipe_slots_keep records head i n j :
  record_at records j = record_init ->
  length records = Capacity -> (0 < Capacity)%nat ->
  record_at (wipe_slots records head i n) j = record_init.
Proof.
  revert records i. induction n as [|n IH]; intros records i E HL HC; [done|]. simpl.
  pose proof (Nat.mod_upper_bound (head + i) Capacity ltac:(lia)).
  apply IH; rewrite ?length_insert; [|done|done].
  rewrite record_at_insert by lia. by case_decide.
Qed.

Lemma wipe_slots_at records head i n k j :
  length records = Capacity -> (0 < Capacity)%nat ->
  (i <= k < i + n)%nat -> ((head + k) mod Capacity)%nat = j ->
  record_at (wipe_slots records head i n) j = record_init.
Proof.
  revert records i. induction n as [|n IH]; intros records i HL HC Hk E; [lia|]. simpl.
  pose proof (Nat.mod_upper_bound (head + i) Capacity ltac:(lia)).
  destruct (decide (k = i)) as [->|].
  - apply wipe_slots_keep; rewrite ?length_insert; [|done|done].
    rewrite record_at_insert by lia. by rewrite decide_True.
  - apply IH; rewrite ?length_insert; try done; lia.
Qed.

Lemma contents_length q : length (contents q) = q_count q.
Proof. unfold contents. by rewrite length_fmap, length_seq. Qed.

Lemma slot_lt q i : (0 < Capacity)%nat -> (slot q i < Capacity)%nat.
Proof. intros. unfold slot. apply Nat.mod_upper_bound. lia. Qed.

Lemma Queue_Front_head q : queue_wf q -> Queue_Front q = head (contents q).
Proof.
  intros [_ Hh _ _]. unfold contents, Queue_Front, slot. destruct (q_count q) eqn:E; [done|].
  cbn [Nat.eqb seq fmap list_fmap head]. by rewrite Nat.add_0_r, Nat.mod_small by lia.
Qed.

(** *** Push *)

Lemma Queue_Push_full p q :
  q_count q = Capacity ->
  Queue_Push p q = (QueuePushResult_Full,
                    q <| q_statistics ::= fun s => s <| st_rejected_full ::= add64 1 |> |>).
Proof. intros E. unfold Queue_Push. by rewrite E, Nat.eqb_refl. Qed.

Lemma Queue_Push_room p q q' r :
  (q_count q < Capacity)%nat -> Queue_Push p q = (r, q') ->
  r = QueuePushResult_Pushed /\
  q_records q' = <[slot q (q_count q) := p]> (q_records q) /\
  q_head q' = q_head q /\ q_count q' = S (q_count q).
Proof.
  intros HC. unfold Queue_Push. rewrite (proj2 (Nat.eqb_neq _ _)) by lia.
  case_if; intros [= <- <-]; done.
Qed.

Lemma push_contents p q q' r :
  queue_wf q -> (q_count q < Capacity)%nat -> Queue_Push p q = (r, q') ->
  contents q' = contents q ++ [p] /\ queue_wf q'.
Proof.
  intros [HL Hh Hc HW] HC E. apply Queue_Push_room in E as (_ & ER & EH & EC); [|done].
  pose proof (slot_lt q (q_count q) ltac:(lia)).
  assert (forall i, slot q' i = slot q i) as ES by (intros; unfold slot; by rewrite EH).
  split.
  - unfold contents. rewrite EC, seq_S, fmap_app, Nat.add_0_l. simpl. f_equal.
    + apply list_fmap_ext. intros k i Hk. apply lookup_seq in Hk as [-> Hk].
      rewrite ES, ER, record_at_insert by lia. rewrite decide_False; [done|].
      intros Es%mod_slot_inj; lia.
    + rewrite ES, ER, record_at_insert by lia. by rewrite decide_True.
  - split; rewrite ?ER, ?length_insert; try lia.
    intros j Hj. rewrite record_at_insert by lia. rewrite decide_False.
    + apply HW. intros i Hi. rewrite <- ES. apply Hj. lia.
    + rewrite <- ES. apply Hj. lia.
Qed.

(** *** Pop *)

Lemma Queue_Pop_some d q q' r :
  (q_count q <> 0)%nat -> Queue_Pop d q = (r, q') ->
  r = Some (record_at (q_records q) (q_head q)) /\
  q_records q' = <[q_head q := record_init]> (q_records q) /\
  q_head q' = ((q_head q + 1) mod Capacity)%nat /\ q_count q' = (q_count q - 1)%nat.
Proof.
  intros HC. unfold Queue_Pop. rewrite (proj2 (Nat.eqb_neq _ _)) by lia.
  by intros [= <- <-].
Qed.

Lemma pop_contents d q q' r :
  queue_wf q -> (q_count q <> 0)%nat -> Queue_Pop d q = (r, q') ->
  r = head (contents q) /\ contents q' = tail (contents q) /\ queue_wf q'.
Proof.
  intros HQ HC E. pose proof HQ as [HL Hh Hc HW].
  rewrite <- Queue_Front_head by done. unfold Queue_Front.
  rewrite (proj2 (Nat.eqb_neq _ _)) by lia.
  apply Queue_Pop_some in E as (-> & ER & EH & EC); [|done]. split; [done|].
  assert (slot q 0 = q_head q) as S0 by (unfold slot; rewrite Nat.add_0_r, Nat.mod_small; lia).
  assert (forall i, slot q' i = slot q (S i)) as ES.
  { intros. unfold slot. rewrite EH, Nat.Div0.add_mod_idemp_l. f_equal. lia. }
  split.
  - unfold contents. rewrite EC. destruct (q_count q) as [|n] eqn:EN; [done|].
    replace (S n - 1)%nat with n by lia. cbn [seq fmap list_fmap tail].
    rewrite <- fmap_S_seq, <- list_fmap_compose.
    apply list_fmap_ext. intros k i Hk. apply lookup_seq in Hk as [-> Hk]. simpl.
    rewrite ES, ER, record_at_insert by lia. rewrite decide_False; [done|].
    rewrite <- S0. intros Es%mod_slot_inj; lia.
  - split; rewrite ?ER, ?length_insert; try lia.
    + rewrite EH. apply Nat.mod_upper_bound. lia.
    + intros j Hj. rewrite record_at_insert by lia. case_decide; [done|].
      apply HW. intros [|i] Hi; [by rewrite S0|]. rewrite <- ES. apply Hj. lia.
Qed.

(** *** Clear *)

Lemma clear_contents d q :
  queue_wf q ->
  fst (Queue_Clear d q) = length (contents q) /\
  contents (snd (Queue_Clear d q)) = [] /\ queue_wf (snd (Queue_Clear d q)).
Proof.
  intros [HL Hh Hc HW]. rewrite contents_length. split_and!; [done|done|].
  unfold Queue_Clear. split; simpl; rewrite ?wipe_slots_length; try lia.
  intros j _.
  destruct (decide (Exists (fun k => slot q k = j) (seq 0 (q_count q)))) as [E|N].
  - apply Exists_exists in E as (k & Hk & Ek). apply elem_of_seq in Hk.
    apply (wipe_slots_at _ _ _ _ k); [lia|lia|lia|done].
  - apply wipe_slots_keep; [|lia|lia]. apply HW. intros i Hi Ei. apply N.
    apply Exists_exists. exists i. split; [|done]. apply elem_of_seq. lia.
Qed.

Lemma queue_init_wf : (0 < Capacity)%nat -> queue_wf queue_init.
Proof.
  intros. split; simpl; rewrite ?length_replicate; try lia.
  intros j _. apply record_at_replicate.
Qed.

(** *** One step, and any sequence *)

Lemma queue_step_fifo q op :
  queue_wf q ->
  fst (queue_step q op) = fst (fifo_step (contents q) op) /\
  contents (snd (queue_step q op)) = snd (fifo_step (contents q) op) /\
  queue_wf (snd (queue_step q op)).
Proof.
  intros HQ. pose proof HQ as [HL Hh Hc HW]. destruct op as [p| |d|d|]; simpl.
  - rewrite contents_length. destruct (Nat.ltb_spec (q_count q) Capacity) as [HC|HC].
    + destruct (Queue_Push p q) as [r q'] eqn:E.
      destruct (push_contents p q q' r HQ HC E) as [E1 E2].
      by apply Queue_Push_room in E as (-> & _).
    + by rewrite Queue_Push_full by lia.
  - by rewrite Queue_Front_head.
  - destruct (Nat.eq_dec (q_count q) 0) as [HC|HC].
    + assert (contents q = []) as EN by (apply nil_length_inv; by rewrite contents_length).
      unfold Queue_Pop. rewrite HC. simpl. by rewrite EN.
    + destruct (Queue_Pop d q) as [r q'] eqn:E.
      by destruct (pop_contents d q q' r HQ HC E) as (-> & ? & ?).
  - destruct (clear_contents d q HQ) as (E1 & E2 & E3).
    exact (conj (f_equal ReplyClear E1) (conj E2 E3)).
  - by rewrite contents_length.
Qed.

Lemma run_ops_fifo q ops :
  queue_wf q ->
  fst (run_ops queue_step q ops) = fst (run_ops fifo_step (contents q) ops) /\
  contents (snd (run_ops queue_step q ops)) = snd (run_ops fifo_step (contents q) ops) /\
  queue_wf (snd (run_ops queue_step q ops)).
Proof.
  revert q. induction ops as [|op ops IH]; intros q HQ; [done|]. simpl.
  destruct (queue_step_fifo q op HQ) as (E1 & E2 & E3).
  destruct (queue_step q op) as [r q'], (fifo_step (contents q) op) as [r' l']. simpl in *. subst.
  destruct (IH q' E3) as (F1 & F2 & F3).
  destruct (run_ops queue_step q' ops) as [rs q''].
  destruct (run_ops fifo_step (contents q') ops) as [rs' l'']. simpl in *. by subst.
Qed.

(** *** The counters *)

Lemma add64_cong value counter : cong 64 (add64 value counter) (counter + value).
Proof. apply cong_wrap. Qed.

Lemma RecordDisposition_sum d n s :
  cong 64 (dispositions (RecordDisposition d n s)) (dispositions s + Z.of_nat n).
Proof.
  destruct d; unfold dispositions; cbn -[add64 Z.add]; rewrite add64_cong;
    (match goal with |- cong _ ?a ?b => replace a with b by lia end); reflexivity.
Qed.

Lemma RecordDisposition_keeps d n s :
  st_pushed (RecordDisposition d n s) = st_pushed s /\
  st_popped (RecordDisposition d n s) = st_popped s /\
  st_high_watermark (RecordDisposition d n s) = st_high_watermark s.
Proof. by destruct d. Qed.

(** Both [Pop] and [Clear] account for [n] packets leaving the queue. *)
Lemma leave_balanced d n q q' :
  queue_balanced q -> (n <= q_count q)%nat -> q_count q' = (q_count q - n)%nat ->
  q_statistics q'
  = RecordDisposition d n ((q_statistics q) <| st_popped ::= add64 (Z.of_nat n) |>) ->
  queue_balanced q'.
Proof.
  intros [B1 B2 B3] Hn EC ES.
  destruct (RecordDisposition_keeps d n ((q_statistics q) <| st_popped ::= add64 (Z.of_nat n) |>))
    as (E1 & E2 & E3).
  split; rewrite ES; [rewrite E1, E2|rewrite E2, RecordDisposition_sum|rewrite E3].
  - cbn -[add64 Z.add]. rewrite B1, add64_cong, EC.
    match goal with |- cong _ ?a ?b => replace a with b by lia end. reflexivity.
  - cbn -[add64 Z.add]. rewrite add64_cong, B2. reflexivity.
  - cbn -[add64 Z.add]. lia.
Qed.

Lemma queue_step_balanced q op :
  queue_wf q -> queue_balanced q -> queue_balanced (snd (queue_step q op)).
Proof.
  intros [_ _ Hc _] B. destruct op as [p| |d|d|]; simpl; try done.
  - unfold Queue_Push. destruct B as [B1 B2 B3].
    destruct (Nat.eqb_spec (q_count q) Capacity); [by split|]. cbn zeta.
    case_if; simpl in *; bool_prop; split; cbn -[add64 Z.add Z.of_nat]; try done; try lia.
    all: rewrite add64_cong, B1; match goal with |- cong _ ?a ?b => replace a with b by lia end;
      reflexivity.
  - destruct (Queue_Pop d q) as [r q'] eqn:E. unfold Queue_Pop in E.
    destruct (Nat.eqb_spec (q_count q) 0); injection E as <- <-; [done|].
    by apply (leave_balanced d 1 q); try lia.
  - apply (leave_balanced d (q_count q) q); try done. simpl. lia.
Qed.

Lemma queue_init_balanced : queue_balanced queue_init.
Proof. split; simpl; [reflexivity..|lia]. Qed.

Lemma run_ops_balanced q ops :
  queue_wf q -> queue_balanced q -> queue_balanced (snd (run_ops queue_step q ops)).
Proof.
  revert q. induction ops as [|op ops IH]; intros q HQ B; [done|]. simpl.
  pose proof (queue_step_balanced q op HQ B) as B'.
  destruct (queue_step_fifo q op HQ) as (_ & _ & HQ').
  destruct (queue_step q op) as [r q']. specialize (IH q' HQ' B').
  by destruct (run_ops queue_step q' ops).
Qed.

(** ** Properties *)

(** From a fresh queue, every sequence of operations returns exactly the
    replies of a bounded FIFO list, leaves the queue holding the list's
    packets in order, and leaves every slot that holds no packet wiped. *)
Theorem queue_refines_fifo ops :
  (0 < Capacity)%nat ->
  let q := snd (run_ops queue_step queue_init ops) in
  fst (run_ops queue_step queue_init ops) = fst (run_ops fifo_step [] ops) /\
  contents q = snd (run_ops fifo_step [] ops) /\
  queue_wf q.
Proof.
  intros HC q. exact (run_ops_fifo queue_init ops (queue_init_wf HC)).
Qed.

(** After every sequence of operations the counters balance: pushed equals
    popped plus queued, every popped packet has one disposition (both modulo
    the 64-bit width), and the high watermark lies between the number of
    queued packets and the capacity. *)
Theorem queue_statistics_balance ops :
  (0 < Capacity)%nat -> queue_balanced (snd (run_ops queue_step queue_init ops)).
Proof. intros HC. apply run_ops_balanced; [by apply queue_init_wf|apply queue_init_balanced]. Qed.

End Queue.

(** A packet record recognisable by its id. *)
Definition sample_record (id : Z) : InnerPacketRecord := mk_record [id] id 7 0 1.

Lemma queue_refines_fifo_witness :
  let ops := [OpPush (sample_record 1); OpPush (sample_record 2); OpPush (sample_record 3);
              OpPop QueueDisposition_Sent; OpPush (sample_record 4); OpFront] in
  contents 2 (snd (run_ops (queue_step 2) (queue_init 2) ops)) = [sample_record 2; sample_record 4].
Proof.
  intros ops. destruct (queue_refines_fifo 2 ops ltac:(lia)) as (_ & -> & _). reflexivity.
Defined.

Lemma queue_statistics_balance_witness :
  queue_balanced 2 (snd (run_ops (queue_step 2) (queue_init 2)
    [OpPush (sample_record 1); OpPush (sample_record 2); OpClear QueueDisposition_Cleared])).
Proof. apply (queue_statistics_balance 2). lia. Defined.
