(* ===== verification/Platform.v ===== *)
(** * Clocks and entropy

    The functions of [wgnx/platform/clock.hpp] and [wgnx/platform/random.hpp]
    that the protocol calls are backed by Horizon services, so their answers are
    parameters: a [World] fixes, for every future call, the value the service
    returns, and counts the calls made so far.  The world also carries the
    function-local static [g_next_index] of [wireguard/index_allocator.cpp]. *)

From S2P Require Import Prelude Endian.
Local Open Scope Z_scope.

Record timespec64 := mk_timespec64 { tv_sec : Z; tv_nsec : Z }.

Record World := mk_world {
  w_monotonic : nat -> Z;
  w_monotonic_reads : nat;
  w_realtime : nat -> timespec64;
  w_realtime_reads : nat;
  w_entropy : nat -> Z;
  w_entropy_used : nat;
  w_next_index : Z
}.
#[export] Instance eta_world : Eta World := fun r =>
  mk_world (w_monotonic r) (w_monotonic_reads r) (w_realtime r) (w_realtime_reads r)
    (w_entropy r) (w_entropy_used r) (w_next_index r).

Definition NSEC_PER_SEC : Z := 1000000000.

(** Durations in nanoseconds, as [std::chrono] converts them. *)
Definition seconds (n : Z) : Z := n * NSEC_PER_SEC.
Definition milliseconds (n : Z) : Z := n * 1000000.

Definition ktime_get_coarse_boottime_ns (w : World) : Z * World :=
  (w_monotonic w (w_monotonic_reads w), w <| w_monotonic_reads ::= S |>).

Definition ktime_get_real_ts64 (w : World) : timespec64 * World :=
  (w_realtime w (w_realtime_reads w), w <| w_realtime_reads ::= S |>).

(** [GetMonotonicTime] of [wireguard/session.cpp]. *)
Definition GetMonotonicTime (w : World) : Z * World := ktime_get_coarse_boottime_ns w.

Definition get_random_bytes (size : nat) (w : World) : bytes * World :=
  (w_entropy w <$> seq (w_entropy_used w) size, w <| w_entropy_used ::= Nat.add size |>).

(** [get_random_bytes(std::addressof(value), sizeof(value))] on a little-endian
    machine. *)
Definition get_random_u32 (w : World) : Z * World :=
  let '(raw, w) := get_random_bytes 4 w in (LoadLe32 raw, w).

(** What the services promise: entropy is bytes, nanoseconds are below a second,
    and the index counter stays a 32-bit value. *)
Record world_ok (w : World) : Prop := {
  wo_entropy : forall i, is_byte (w_entropy w i);
  wo_nsec : forall i, 0 <= tv_nsec (w_realtime w i) < NSEC_PER_SEC;
  wo_index : is_u32 (w_next_index w)
}.

(** The services never run backwards in what they have answered. *)
Definition same_services (w w' : World) : Prop :=
  w_monotonic w' = w_monotonic w /\ w_realtime w' = w_realtime w /\ w_entropy w' = w_entropy w.

#[export] Instance same_services_preorder : PreOrder same_services.
Proof. unfold same_services. split; [done|]. intros x y z. intuition congruence. Qed.

Lemma get_random_bytes_ok n w : world_ok w -> bytes_of n (fst (get_random_bytes n w)).
Proof.
  intros [HE _ _]. unfold get_random_bytes. split; simpl.
  - by rewrite length_fmap, length_seq.
  - unfold bytes_ok. apply Forall_fmap, Forall_true. intros i. apply HE.
Qed.

Lemma get_random_bytes_world n w :
  world_ok w -> world_ok (snd (get_random_bytes n w)).
Proof. by intros [? ? ?]; split. Qed.

Lemma get_random_u32_ok w :
  world_ok w ->
  is_u32 (fst (get_random_u32 w)) /\ world_ok (snd (get_random_u32 w)).
Proof.
  intros HW. unfold get_random_u32.
  pose proof (get_random_bytes_ok 4 w HW) as [_ HB].
  pose proof (get_random_bytes_world 4 w HW) as HW'.
  destruct (get_random_bytes 4 w) as [raw w']. simpl in *. eauto with wg.
Qed.

Lemma GetMonotonicTime_world w : world_ok w -> world_ok (snd (GetMonotonicTime w)).
Proof. by intros [? ? ?]; split. Qed.

Lemma ktime_get_real_ts64_world w : world_ok w -> world_ok (snd (ktime_get_real_ts64 w)).
Proof. by intros [? ? ?]; split. Qed.
#[export] Hint Resolve get_random_bytes_ok get_random_bytes_world GetMonotonicTime_world
  ktime_get_real_ts64_world : wg.

(** A world for examples: the clocks tick by [tick] nanoseconds from [start],
    and the entropy stream repeats the low bytes of [seed + 7 i]. *)
Definition sample_world (start tick seed : Z) : World :=
  mk_world (fun i => start + Z.of_nat i * tick) 0
           (fun i => mk_timespec64 (1700000000 + Z.of_nat i) 5) 0
           (fun i => (seed + 7 * Z.of_nat i) mod 256) 0 0.

Lemma sample_world_ok start tick seed : world_ok (sample_world start tick seed).
Proof.
  split; simpl.
  - intros i. unfold in_width. change (2 ^ 8) with 256. apply Z.mod_pos_bound. lia.
  - intros _. unfold NSEC_PER_SEC. lia.
  - unfold in_width. lia.
Qed.
