(* ===== verification/Session.v ===== *)
(** * Session keys, cookies and keypairs

    Models the state types of [wireguard/session.hpp] and their operations in
    [wireguard/session.cpp]: key material with its validity flag and explicit
    clearing, the cookie, the static identity and handshake material, and
    [noise_keypair] with its lifetime and its send-counter reservation.  Moves
    are functions that return both the destination and the emptied source. *)

From S2P Require Import Prelude Messages Replay Platform.
Local Open Scope Z_scope.

Definition RekeyAfterMessages : Z := Z.shiftl 1 60.
Definition RejectAfterMessages : Z := (2 ^ 64 - 1) - Z.shiftl 1 13.
Definition RekeyAfterTime : Z := seconds 120.
Definition RekeyAttemptTime : Z := seconds 90.
Definition RekeyTimeout : Z := seconds 5.
Definition KeepaliveTimeout : Z := seconds 10.
Definition HandshakeInitiationRate : Z := milliseconds 20.
Definition MaxTimerHandshakes : Z := RekeyAttemptTime / RekeyTimeout.
Definition RekeyTimeoutJitterMaxMs : Z := 334.
Definition RejectAfterTime : Z := seconds 180.
Definition ZeroKeyMaterialAfterTime : Z := RejectAfterTime * 3.
Definition CookieRefreshTime : Z := seconds 120.
Definition UnderLoadAfterTime : Z := seconds 1.
Definition HandshakeRateLimitPacketsPerSecond : Z := 20.
Definition HandshakeRateLimitBurst : Z := 5.
Definition HandshakeRateLimitSlots : nat := 8.

(** ** Key material *)

(** The shared layout of [noise_public_key], [noise_private_key],
    [noise_symmetric_key] and [noise_secret32]. *)
Record noise_key := mk_key { key_bytes : bytes; key_valid : bool }.
#[export] Instance eta_key : Eta noise_key := fun r => mk_key (key_bytes r) (key_valid r).
Abbreviation noise_public_key := noise_key (only parsing).
Abbreviation noise_private_key := noise_key (only parsing).
Abbreviation noise_symmetric_key := noise_key (only parsing).
Abbreviation noise_secret32 := noise_key (only parsing).

Definition key_init : noise_key := mk_key (zeros 32) false.

(** [Clear()]: [crypto::secure_clear] zeroes the array. *)
Definition key_Clear (k : noise_key) : noise_key :=
  k <| key_bytes := zeros 32 |> <| key_valid := false |>.

(** [MoveSecret(destination, source)]. *)
Definition MoveSecret (destination source : noise_key) : noise_key * noise_key :=
  let destination := key_Clear destination in
  let destination := destination <| key_bytes := key_bytes source |> in
  let destination := destination <| key_valid := key_valid source |> in
  (destination, key_Clear source).

Definition key_ok (k : noise_key) : Prop := bytes_of 32 (key_bytes k).

Lemma key_Clear_init k : key_Clear k = key_init.
Proof. done. Qed.
Lemma MoveSecret_spec d s : MoveSecret d s = (s, key_init).
Proof. by destruct s. Qed.
Lemma key_init_ok : key_ok key_init.
Proof. apply bytes_of_zeros. Qed.
#[export] Hint Resolve key_init_ok : wg.

(** ** Cookies *)

Record noise_cookie := mk_cookie {
  ck_value : bytes;
  ck_last_mac1 : bytes;
  ck_birth_time : Z;
  ck_valid : bool;
  ck_has_last_mac1 : bool
}.
#[export] Instance eta_cookie : Eta noise_cookie := fun r =>
  mk_cookie (ck_value r) (ck_last_mac1 r) (ck_birth_time r) (ck_valid r) (ck_has_last_mac1 r).
Definition cookie_init : noise_cookie :=
  mk_cookie (zeros CookieValueSize) (zeros NoiseMacSize) 0 false false.

Definition cookie_Clear (c : noise_cookie) : noise_cookie :=
  c <| ck_value := zeros CookieValueSize |> <| ck_last_mac1 := zeros NoiseMacSize |>
    <| ck_birth_time := 0 |> <| ck_valid := false |> <| ck_has_last_mac1 := false |>.

(** [noise_cookie::operator=(noise_cookie&&)] between distinct objects. *)
Definition cookie_move (this other : noise_cookie) : noise_cookie * noise_cookie :=
  let this := cookie_Clear this in
  let this := this <| ck_value := ck_value other |> <| ck_last_mac1 := ck_last_mac1 other |>
    <| ck_birth_time := ck_birth_time other |> <| ck_valid := ck_valid other |>
    <| ck_has_last_mac1 := ck_has_last_mac1 other |> in
  (this, cookie_Clear other).

Definition noise_cookie_reset (cookie : noise_cookie) : noise_cookie := cookie_Clear cookie.

Definition noise_cookie_record_last_mac1 (cookie : noise_cookie) (mac1 : bytes) : noise_cookie :=
  cookie <| ck_last_mac1 := mac1 |> <| ck_has_last_mac1 := true |>.

(** The clock is read only for a cookie that holds a value. *)
Definition noise_cookie_is_valid (cookie : noise_cookie) (w : World) : bool * World :=
  if negb (ck_valid cookie) then (false, w)
  else
    let CookieLifetime := seconds 120 in
    let '(now, w) := GetMonotonicTime w in
    ((0 <? ck_birth_time cookie) && (ck_birth_time cookie <=? now)
     && (now - ck_birth_time cookie <=? CookieLifetime), w).

Lemma noise_cookie_is_valid_world cookie w :
  (world_ok w -> world_ok (snd (noise_cookie_is_valid cookie w))) /\
  same_services w (snd (noise_cookie_is_valid cookie w)).
Proof.
  unfold noise_cookie_is_valid. destruct (ck_valid cookie); [|done]. simpl.
  split; [by apply (GetMonotonicTime_world w)|done].
Qed.

(** ** Identity and handshake material *)

Record noise_static_identity := mk_identity {
  static_private : noise_private_key;
  static_public : noise_public_key;
  remote_static : noise_public_key;
  preshared_key : noise_symmetric_key
}.
#[export] Instance eta_identity : Eta noise_static_identity := fun r =>
  mk_identity (static_private r) (static_public r) (remote_static r) (preshared_key r).
Definition identity_init : noise_static_identity :=
  mk_identity key_init key_init key_init key_init.

Record noise_handshake_material := mk_material {
  ephemeral_private : noise_private_key;
  ephemeral_public : noise_public_key;
  remote_ephemeral : noise_public_key;
  precomputed_static_static : noise_secret32;
  chaining_key : noise_symmetric_key;
  hash : noise_symmetric_key
}.
#[export] Instance eta_material : Eta noise_handshake_material := fun r =>
  mk_material (ephemeral_private r) (ephemeral_public r) (remote_ephemeral r)
    (precomputed_static_static r) (chaining_key r) (hash r).
Definition material_init : noise_handshake_material :=
  mk_material key_init key_init key_init key_init key_init key_init.

Definition noise_static_identity_reset (identity : noise_static_identity) : noise_static_identity :=
  identity <| static_private ::= key_Clear |>
    <| static_public ::= fun k => k <| key_bytes := zeros 32 |> <| key_valid := false |> |>
    <| remote_static ::= fun k => k <| key_bytes := zeros 32 |> <| key_valid := false |> |>
    <| preshared_key ::= key_Clear |>.

Definition noise_handshake_material_reset (material : noise_handshake_material)
    : noise_handshake_material :=
  material <| ephemeral_private ::= key_Clear |>
    <| ephemeral_public ::= fun k => k <| key_bytes := zeros 32 |> <| key_valid := false |> |>
    <| remote_ephemeral ::= fun k => k <| key_bytes := zeros 32 |> <| key_valid := false |> |>
    <| precomputed_static_static ::= key_Clear |>
    <| chaining_key ::= key_Clear |> <| hash ::= key_Clear |>.

Lemma noise_static_identity_reset_init i : noise_static_identity_reset i = identity_init.
Proof. done. Qed.
Lemma noise_handshake_material_reset_init m : noise_handshake_material_reset m = material_init.
Proof. done. Qed.

(** ** Keypairs *)

Inductive KeypairState := KeypairState_Empty | KeypairState_Established.
#[export] Instance KeypairState_eq_dec : EqDecision KeypairState.
Proof. solve_decision. Defined.

Inductive KeypairSendState :=
  | KeypairSendState_Ready
  | KeypairSendState_Invalid
  | KeypairSendState_Expired
  | KeypairSendState_CounterExhausted.
#[export] Instance KeypairSendState_eq_dec : EqDecision KeypairSendState.
Proof. solve_decision. Defined.

Record noise_keypair := mk_keypair {
  kp_state : KeypairState;
  kp_local_index : Z;
  kp_remote_index : Z;
  kp_send_counter : Z;
  kp_is_initiator : bool;
  kp_birth_time : Z;
  kp_sending_key : noise_symmetric_key;
  kp_receiving_key : noise_symmetric_key;
  kp_receive_replay_window : ReplayWindow
}.
#[export] Instance eta_keypair : Eta noise_keypair := fun r =>
  mk_keypair (kp_state r) (kp_local_index r) (kp_remote_index r) (kp_send_counter r)
    (kp_is_initiator r) (kp_birth_time r) (kp_sending_key r) (kp_receiving_key r)
    (kp_receive_replay_window r).
Definition keypair_init : noise_keypair :=
  mk_keypair KeypairState_Empty 0 0 0 false 0 key_init key_init Window_Reset.

Definition keypair_Reset (k : noise_keypair) : noise_keypair :=
  k <| kp_state := KeypairState_Empty |> <| kp_local_index := 0 |> <| kp_remote_index := 0 |>
    <| kp_send_counter := 0 |> <| kp_is_initiator := false |> <| kp_birth_time := 0 |>
    <| kp_sending_key ::= key_Clear |> <| kp_receiving_key ::= key_Clear |>
    <| kp_receive_replay_window := Window_Reset |>.

Definition keypair_Establish (local_index remote_index birth_time : Z)
    (sending_key receiving_key : noise_symmetric_key) (send_counter : Z) (is_initiator : bool)
    (k : noise_keypair) : noise_keypair :=
  let k := keypair_Reset k in
  if (local_index =? 0) || (remote_index =? 0) || (birth_time <? 0)
     || negb (key_valid sending_key) || negb (key_valid receiving_key) then k
  else
    k <| kp_state := KeypairState_Established |> <| kp_local_index := local_index |>
      <| kp_remote_index := remote_index |> <| kp_birth_time := birth_time |>
      <| kp_sending_key ::= fun s => s <| key_bytes := key_bytes sending_key |>
                                       <| key_valid := key_valid sending_key |> |>
      <| kp_receiving_key ::= fun s => s <| key_bytes := key_bytes receiving_key |>
                                         <| key_valid := key_valid receiving_key |> |>
      <| kp_send_counter := send_counter |> <| kp_is_initiator := is_initiator |>.

(** [noise_keypair::operator=(noise_keypair&&)] between distinct objects. *)
Definition keypair_move (this other : noise_keypair) : noise_keypair * noise_keypair :=
  let this := keypair_Reset this in
  let '(sending, other_sending) := MoveSecret (kp_sending_key this) (kp_sending_key other) in
  let '(receiving, other_receiving) := MoveSecret (kp_receiving_key this) (kp_receiving_key other) in
  let this := this <| kp_state := kp_state other |> <| kp_local_index := kp_local_index other |>
    <| kp_remote_index := kp_remote_index other |> <| kp_send_counter := kp_send_counter other |>
    <| kp_is_initiator := kp_is_initiator other |> <| kp_birth_time := kp_birth_time other |>
    <| kp_sending_key := sending |> <| kp_receiving_key := receiving |>
    <| kp_receive_replay_window := kp_receive_replay_window other |> in
  let other := other <| kp_sending_key := other_sending |> <| kp_receiving_key := other_receiving |>
    <| kp_state := KeypairState_Empty |> <| kp_local_index := 0 |> <| kp_remote_index := 0 |>
    <| kp_send_counter := 0 |> <| kp_is_initiator := false |> <| kp_birth_time := 0 |>
    <| kp_receive_replay_window := Window_Reset |> in
  (this, other).

Definition keypair_IsValid (k : noise_keypair) : bool :=
  bool_decide (kp_state k = KeypairState_Established) && negb (kp_local_index k =? 0)
  && negb (kp_remote_index k =? 0) && key_valid (kp_sending_key k) && key_valid (kp_receiving_key k).

(** [KeypairAgeResult]: [None] where [valid] is false. *)
Definition keypair_AgeAt (now : Z) (k : noise_keypair) : option Z :=
  if negb (keypair_IsValid k) || (now <? kp_birth_time k) then None
  else Some (now - kp_birth_time k).

Definition keypair_SendStateAt (now : Z) (k : noise_keypair) : KeypairSendState :=
  match keypair_AgeAt now k with
  | None => KeypairSendState_Invalid
  | Some age =>
      if RejectAfterTime <=? age then KeypairSendState_Expired
      else if RejectAfterMessages <=? kp_send_counter k then KeypairSendState_CounterExhausted
      else KeypairSendState_Ready
  end.

Definition keypair_CanSendAt (now : Z) (k : noise_keypair) : bool :=
  bool_decide (keypair_SendStateAt now k = KeypairSendState_Ready).

Definition keypair_CanReceiveAt (now : Z) (k : noise_keypair) : bool :=
  match keypair_AgeAt now k with
  | None => false
  | Some age => age <? RejectAfterTime
  end.

Definition keypair_NeedsRekeyAt (now : Z) (k : noise_keypair) : bool :=
  match keypair_AgeAt now k with
  | None => false
  | Some age =>
      (RekeyAfterMessages <? kp_send_counter k) || (kp_is_initiator k && (RekeyAfterTime <? age))
  end.

(** The state returned, the reserved counter when it is [Ready] ([out_counter]
    is untouched otherwise), and the keypair afterwards. *)
Definition keypair_ReserveSendCounterAt (now : Z) (k : noise_keypair)
    : KeypairSendState * option Z * noise_keypair :=
  match keypair_SendStateAt now k with
  | KeypairSendState_Ready =>
      (KeypairSendState_Ready, Some (kp_send_counter k),
       k <| kp_send_counter ::= fun c => u64 (c + 1) |>)
  | state => (state, None, k)
  end.

(** ** Facts the other components use *)

Definition keypair_ok (k : noise_keypair) : Prop :=
  key_ok (kp_sending_key k) /\ key_ok (kp_receiving_key k) /\ is_u32 (kp_local_index k)
  /\ is_u32 (kp_remote_index k) /\ is_u64 (kp_send_counter k).

Lemma keypair_Reset_init k : keypair_Reset k = keypair_init.
Proof. done. Qed.

Lemma keypair_move_spec this other : keypair_move this other = (other, keypair_init).
Proof. unfold keypair_move. rewrite !MoveSecret_spec. by destruct other. Qed.

Lemma keypair_IsValid_iff k :
  keypair_IsValid k = true <->
  kp_state k = KeypairState_Established /\ kp_local_index k <> 0 /\ kp_remote_index k <> 0 /\
  key_valid (kp_sending_key k) = true /\ key_valid (kp_receiving_key k) = true.
Proof.
  unfold keypair_IsValid. rewrite !andb_true_iff, bool_decide_eq_true, !negb_true_iff, !Z.eqb_neq.
  tauto.
Qed.

Lemma keypair_init_invalid : keypair_IsValid keypair_init = false.
Proof. done. Qed.

Lemma Establish_invalid l r birth sk rk c0 initiator k :
  (l =? 0) || (r =? 0) || (birth <? 0) || negb (key_valid sk) || negb (key_valid rk) = true ->
  keypair_Establish l r birth sk rk c0 initiator k = keypair_init.
Proof. intros E. unfold keypair_Establish. by rewrite E. Qed.

Lemma Establish_valid l r birth sk rk c0 initiator k :
  (l =? 0) || (r =? 0) || (birth <? 0) || negb (key_valid sk) || negb (key_valid rk) = false ->
  keypair_Establish l r birth sk rk c0 initiator k
  = mk_keypair KeypairState_Established l r c0 initiator birth sk rk Window_Reset /\
  keypair_IsValid (keypair_Establish l r birth sk rk c0 initiator k) = true.
Proof.
  intros E. unfold keypair_Establish. rewrite E. bool_prop.
  assert (keypair_IsValid (mk_keypair KeypairState_Established l r c0 initiator birth sk rk
                             Window_Reset) = true) as HV by by apply keypair_IsValid_iff.
  destruct sk, rk. by split.
Qed.

(** Successive reservations at the given times: the counters handed out. *)
Fixpoint reserve_run (times : list Z) (k : noise_keypair) : list Z * noise_keypair :=
  match times with
  | [] => ([], k)
  | now :: rest =>
      let '(_, reserved, k') := keypair_ReserveSendCounterAt now k in
      let '(cs, k'') := reserve_run rest k' in
      (option_list reserved ++ cs, k'')
  end.

Lemma ReserveSendCounterAt_cases now k :
  is_u64 (kp_send_counter k) ->
  (keypair_SendStateAt now k = KeypairSendState_Ready /\ kp_send_counter k < RejectAfterMessages /\
   keypair_ReserveSendCounterAt now k
   = (KeypairSendState_Ready, Some (kp_send_counter k),
      k <| kp_send_counter := kp_send_counter k + 1 |>)) \/
  (keypair_SendStateAt now k <> KeypairSendState_Ready /\
   keypair_ReserveSendCounterAt now k = (keypair_SendStateAt now k, None, k)).
Proof.
  intros HU. unfold keypair_ReserveSendCounterAt.
  destruct (keypair_SendStateAt now k) eqn:E; [left|right; by split..].
  assert (kp_send_counter k < RejectAfterMessages) as HL.
  { unfold keypair_SendStateAt in E. destruct (keypair_AgeAt now k); [|done].
    repeat (case_if_in E; [done|]). bool_prop. lia. }
  assert (u64 (kp_send_counter k + 1) = kp_send_counter k + 1) as EW.
  { apply wrap_id. unfold in_width in *.
    change RejectAfterMessages with 18446744073709543423 in HL. lia. }
  split_and!; [done|done|]. unfold upd. cbn -[wrap Z.add]. by rewrite EW.
Qed.

Lemma reserve_run_counters times k :
  is_u64 (kp_send_counter k) ->
  fst (reserve_run times k)
  = (fun i => kp_send_counter k + Z.of_nat i) <$> seq 0 (length (fst (reserve_run times k))) /\
  Forall (fun c => c < RejectAfterMessages) (fst (reserve_run times k)).
Proof.
  revert k. induction times as [|now times IH]; intros k HU; [done|]. simpl.
  destruct (ReserveSendCounterAt_cases now k HU) as [(_ & HL & ->)|(_ & ->)].
  - specialize (IH (k <| kp_send_counter := kp_send_counter k + 1 |>)).
    destruct (reserve_run times _) as [cs k'']. simpl in *.
    destruct IH as [E F].
    { unfold in_width in *. change RejectAfterMessages with 18446744073709543423 in HL. lia. }
    split; [|by constructor]. f_equal; [lia|]. rewrite E at 1. rewrite <- fmap_S_seq.
    rewrite <- list_fmap_compose. apply list_fmap_ext. intros. simpl. lia.
  - specialize (IH k HU). by destruct (reserve_run times k).
Qed.

(** However often and at whatever times an established keypair reserves
    send counters, it hands out the counters [c0, c0+1, ...] in this order, each
    below [RejectAfterMessages]: no (key, nonce) pair is ever used twice and the
    64-bit counter never wraps. *)
Theorem send_counters_never_repeat times k (H : is_u64 (kp_send_counter k)) :
  let counters := fst (reserve_run times k) in
  counters = (fun i => kp_send_counter k + Z.of_nat i) <$> seq 0 (length counters) /\
  NoDup counters /\
  Forall (fun c => c < RejectAfterMessages) counters.
Proof.
  intros counters. destruct (reserve_run_counters times k H) as [E F].
  split_and!; [done| |done]. unfold counters. rewrite E. apply NoDup_fmap_2, NoDup_seq.
  intros i j. lia.
Qed.

(** Lifetime of a keypair.  With two non-zero indices, a non-negative birth
    time and two valid keys, [Establish] gives a keypair that may send exactly
    during the 180 seconds after its birth while its counter is below
    [RejectAfterMessages], may receive exactly during those 180 seconds, and asks
    for a rekey exactly once its counter passed [RekeyAfterMessages] or, for the
    initiator, once it is older than 120 seconds; with any other arguments the
    keypair is empty and never usable. *)
Theorem keypair_lifetime l r birth sk rk c0 initiator k now :
  let k' := keypair_Establish l r birth sk rk c0 initiator k in
  let valid := l <> 0 /\ r <> 0 /\ 0 <= birth /\ key_valid sk = true /\ key_valid rk = true in
  let alive := valid /\ birth <= now < birth + 180 * 1000000000 in
  (keypair_CanSendAt now k' = true <-> alive /\ c0 < 2 ^ 64 - 1 - 2 ^ 13) /\
  (keypair_CanReceiveAt now k' = true <-> alive) /\
  (keypair_NeedsRekeyAt now k' = true <->
     valid /\ birth <= now /\
     (2 ^ 60 < c0 \/ (initiator = true /\ birth + 120 * 1000000000 < now))) /\
  (~ valid -> k' = keypair_init).
Proof.
  intros k' valid alive.
  destruct ((l =? 0) || (r =? 0) || (birth <? 0) || negb (key_valid sk) || negb (key_valid rk)) eqn:E.
  - assert (~ valid) as HV.
    { intros (? & ? & ? & Hs & Hr). rewrite Hs, Hr in E.
      repeat (apply orb_true_iff in E as [E|E]); bool_prop; try done; lia. }
    subst k'. rewrite (Establish_invalid _ _ _ _ _ _ _ _ E).
    unfold alive. split_and!; try (split; [done|tauto]). done.
  - destruct (Establish_valid _ _ _ _ _ c0 initiator k E) as [E1 E2]. fold k' in E1, E2.
    bool_prop. assert valid as HV by by split_and!.
    assert (forall t, keypair_AgeAt t k' = if t <? birth then None else Some (t - birth)) as EA.
    { intros t. unfold keypair_AgeAt. rewrite E2, E1. done. }
    unfold keypair_CanSendAt, keypair_SendStateAt, keypair_CanReceiveAt, keypair_NeedsRekeyAt.
    rewrite EA, E1. cbn [kp_send_counter kp_is_initiator].
    change RejectAfterTime with 180000000000. change RekeyAfterTime with 120000000000.
    change RejectAfterMessages with (2 ^ 64 - 1 - 2 ^ 13). change RekeyAfterMessages with (2 ^ 60).
    unfold alive. destruct (Z.ltb_spec now birth).
    { split_and!; [split; [done|lia]..|tauto]. }
    split_and!; [| | |tauto].
    + destruct (Z.leb_spec 180000000000 (now - birth)); [split; [done|lia]|].
      destruct (Z.leb_spec (2 ^ 64 - 1 - 2 ^ 13) c0); [split; [done|lia]|].
      split; [intros _|done]. split; [|lia]. split; [done|lia].
    + rewrite Z.ltb_lt. split; [intros; split; [done|lia]|lia].
    + rewrite orb_true_iff, andb_true_iff, !Z.ltb_lt. split.
      * intros [?|[? ?]]; (split_and!; [done|lia|]); [by left|right; split; [done|lia]].
      * intros (_ & _ & [?|[? ?]]); [by left|right; split; [done|lia]].
Qed.

(** A keypair one reservation below the limit, born at time 5. *)
Definition sample_keypair (counter : Z) : noise_keypair :=
  keypair_Establish 11 22 5 (mk_key (zeros 32) true) (mk_key (zeros 32) true) counter true keypair_init.

Lemma send_counters_never_repeat_witness :
  is_u64 (kp_send_counter (sample_keypair (RejectAfterMessages - 2))) /\
  NoDup (fst (reserve_run [5; 6; 7; 180000000005] (sample_keypair (RejectAfterMessages - 2)))).
Proof.
  assert (is_u64 (kp_send_counter (sample_keypair (RejectAfterMessages - 2)))) as H
    by (by apply (bool_decide_unpack _); vm_compute).
  split; [exact H|]. by apply (send_counters_never_repeat _ _ H).
Defined.
