(* ===== verification/Base64.v ===== *)
(** * The text form of keys

    Models the base64 codec of [wireguard/session.cpp] ([DecodeWireGuardKey],
    [EncodeWireGuardKey]) and the key parsers and printers built on it.
    [decode_exact] says which texts denote a key: for every key the encoder's
    text and the three that differ from it only in the two unused bits of the
    last digit. *)

From S2P Require Import Prelude Endian Messages Platform Session.
Local Open Scope Z_scope.

Definition WireGuardEncodedKeySize : nat := 44.
Definition Base64Alphabet : bytes :=
  chars "ABCDEFGHIJKLMNOPQRSTUVWXYZabcdefghijklmnopqrstuvwxyz0123456789+/".

Definition DecodeBase64Char (ch : Z) : Z :=
  if (char "A" <=? ch) && (ch <=? char "Z") then ch - char "A"
  else if (char "a" <=? ch) && (ch <=? char "z") then ch - char "a" + 26
  else if (char "0" <=? ch) && (ch <=? char "9") then ch - char "0" + 52
  else if ch =? char "+" then 62
  else if ch =? char "/" then 63
  else -1.

Definition IsAllZero (data : bytes) : bool := foldl Z.lor 0 data =? 0.

Definition ClampX25519PrivateKey (key : bytes) : bytes :=
  let key := <[0%nat := Z.land (byte_at key 0) 248]> key in
  let key := <[31%nat := Z.land (byte_at key 31) 127]> key in
  <[31%nat := Z.lor (byte_at key 31) 64]> key.

(** [if (out_index >= NoisePublicKeySize) return false; out[out_index++] = b;] *)
Definition push_byte (out : bytes) (b : Z) : option bytes :=
  if (NoisePublicKeySize <=? length out)%nat then None else Some (out ++ [b]).

(** The loop of [DecodeWireGuardKey] from offset [i], with the bytes written so
    far. *)
Fixpoint decode_loop (text : bytes) (groups i : nat) (out : bytes) : option bytes :=
  match groups with
  | O => Some out
  | S groups' =>
      let last_group := (i + 4 =? length text)%nat in
      let digit ch := if ch =? char "=" then -2 else DecodeBase64Char ch in
      let a := DecodeBase64Char (byte_at text i) in
      let b := DecodeBase64Char (byte_at text (i + 1)) in
      let c := digit (byte_at text (i + 2)) in
      let d := digit (byte_at text (i + 3)) in
      if (a <? 0) || (b <? 0) || (c =? -1) || (d =? -1) then None
      else if negb last_group && ((c <? 0) || (d <? 0)) then None
      else if (if last_group then (c <? 0) || negb (d =? -2) else (c <? 0) || (d <? 0)) then None
      else
        let value := Z.lor (Z.lor (Z.lor (Z.shiftl a 18) (Z.shiftl b 12))
                                  (Z.shiftl (if c <? 0 then 0 else c) 6))
                           (if d <? 0 then 0 else d) in
        out ← push_byte out (Z.land (Z.shiftr value 16) 255);
        out ← (if 0 <=? c then push_byte out (Z.land (Z.shiftr value 8) 255) else Some out);
        out ← (if 0 <=? d then push_byte out (Z.land value 255) else Some out);
        decode_loop text groups' (i + 4) out
  end.

(** [None] is [return false]; the callers then discard the array. *)
Definition DecodeWireGuardKey (text : bytes) : option bytes :=
  if negb (length text =? WireGuardEncodedKeySize)%nat
     || negb (byte_at text (length text - 1) =? char "=") then None
  else
    out ← decode_loop text (length text / 4) 0 [];
    if (length out =? NoisePublicKeySize)%nat then Some out else None.

(** The loop of [EncodeWireGuardKey]: the characters written from byte [i] on. *)
Fixpoint encode_loop (data : bytes) (groups i : nat) : bytes :=
  match groups with
  | O => []
  | S groups' =>
      let remaining := (NoisePublicKeySize - i)%nat in
      let value := Z.lor (Z.lor (Z.shiftl (byte_at data i) 16)
                                (Z.shiftl (if (1 <? remaining)%nat then byte_at data (i + 1) else 0) 8))
                         (if (2 <? remaining)%nat then byte_at data (i + 2) else 0) in
      let digit n := byte_at Base64Alphabet (Z.to_nat (Z.land (Z.shiftr value n) 63)) in
      [digit 18; digit 12; if (1 <? remaining)%nat then digit 6 else char "=";
       if (2 <? remaining)%nat then digit 0 else char "="]
      ++ encode_loop data groups' (i + 3)
  end.

(** The text written, [ceil(32 / 3) = 11] groups, and the buffer afterwards. *)
Definition encoded_text (data : bytes) : bytes := encode_loop data 11 0.
Definition EncodeWireGuardKey (out_text data : bytes) : bool * bytes :=
  if (length out_text <? WireGuardEncodedKeySize + 1)%nat then (false, out_text)
  else
    let text := encoded_text data in
    ((length text =? WireGuardEncodedKeySize)%nat, write_at out_text 0 (text ++ [0])).

Definition noise_is_valid_encoded_key (text : bytes) (allow_empty : bool) : bool :=
  if (length text =? 0)%nat then allow_empty
  else match DecodeWireGuardKey text with Some _ => true | None => false end.

(** The parsers return [None] where the C++ returns [false] and leaves [out_key]
    untouched. *)
Definition noise_parse_private_key (text : bytes) : option noise_private_key :=
  key ← DecodeWireGuardKey text;
  if IsAllZero key then None else Some (mk_key (ClampX25519PrivateKey key) true).

Definition noise_parse_public_key (text : bytes) : option noise_public_key :=
  key ← DecodeWireGuardKey text; Some (mk_key key true).

Definition noise_parse_preshared_key (text : bytes) : option noise_symmetric_key :=
  if (length text =? 0)%nat then None
  else key ← DecodeWireGuardKey text; Some (mk_key key true).

Definition noise_public_key_to_text (out_text : bytes) (key : noise_public_key) : bool * bytes :=
  if negb (key_valid key) then (false, out_text) else EncodeWireGuardKey out_text (key_bytes key).

(** ** Digits *)

Definition digit_char (v : Z) : Z := byte_at Base64Alphabet (Z.to_nat v).

Lemma DecodeBase64Char_alphabet v : 0 <= v < 64 -> DecodeBase64Char (digit_char v) = v.
Proof.
  intros Hv.
  assert (Forall (fun n => DecodeBase64Char (digit_char (Z.of_nat n)) = Z.of_nat n) (seq 0 64)) as H
    by (apply (bool_decide_unpack _); vm_compute; exact I).
  rewrite Forall_forall in H. specialize (H (Z.to_nat v)).
  rewrite Z2Nat.id in H by lia. apply H, elem_of_seq. lia.
Qed.

Lemma DecodeBase64Char_inv ch :
  0 <= DecodeBase64Char ch -> DecodeBase64Char ch < 64 /\ digit_char (DecodeBase64Char ch) = ch.
Proof.
  intros H.
  assert (43 <= ch < 123).
  { unfold DecodeBase64Char, char in H. cbn in H.
    repeat (case_if_in H; [bool_prop; lia|]). lia. }
  assert (Forall (fun n => 0 <= DecodeBase64Char (Z.of_nat n) ->
            DecodeBase64Char (Z.of_nat n) < 64 /\
            digit_char (DecodeBase64Char (Z.of_nat n)) = Z.of_nat n) (seq 43 80)) as HF
    by (apply (bool_decide_unpack _); vm_compute; exact I).
  rewrite Forall_forall in HF. specialize (HF (Z.to_nat ch)).
  rewrite Z2Nat.id in HF by lia. apply HF; [|done]. apply elem_of_seq. lia.
Qed.

Lemma digit_char_not_pad v : 0 <= v < 64 -> (digit_char v =? char "=") = false.
Proof.
  intros Hv. apply Z.eqb_neq. intros E. pose proof (DecodeBase64Char_alphabet v Hv) as H.
  rewrite E in H. vm_compute in H. lia.
Qed.

(** The four base64 digits of three bytes. *)
Definition digits3 (x y z : Z) : list Z :=
  [x / 4; (x mod 4) * 16 + y / 16; (y mod 16) * 4 + z / 64; z mod 64].

(** The three bytes of four digits, and back. *)
Lemma group_bytes a b c d :
  0 <= a < 64 -> 0 <= b < 64 -> 0 <= c < 64 -> 0 <= d < 64 ->
  let value := Z.lor (Z.lor (Z.lor (Z.shiftl a 18) (Z.shiftl b 12)) (Z.shiftl c 6)) d in
  let x := Z.land (Z.shiftr value 16) 255 in
  let y := Z.land (Z.shiftr value 8) 255 in
  let z := Z.land value 255 in
  x = a * 4 + b / 16 /\ y = (b mod 16) * 16 + c / 4 /\ z = (c mod 4) * 64 + d.
Proof.
  intros Ha Hb Hc Hd value.
  assert (value = a * 262144 + b * 4096 + c * 64 + d) as ->.
  { assert (value = Z.lor d (Z.shiftl (Z.lor c (Z.shiftl (Z.lor b (Z.shiftl a 6)) 6)) 6)) as ->.
    { unfold value. rewrite !Z.shiftl_lor, !Z.shiftl_shiftl by lia.
      by rewrite (Z.lor_comm d), (Z.lor_comm (Z.shiftl c 6)), (Z.lor_comm (Z.shiftl b (6 + 6))). }
    rewrite !lor_shiftl by (unfold in_width; lia). lia. }
  intros x y z. subst x y z. rewrite !land_255, !shiftr_div by lia.
  change (2 ^ 16) with 65536. change (2 ^ 8) with 256.
  split_and!.
  - rewrite <- (Z.mod_small (a * 4 + b / 16) 256) by (Z.to_euclidean_division_equations; lia).
    f_equal. Z.to_euclidean_division_equations; lia.
  - Z.to_euclidean_division_equations; lia.
  - Z.to_euclidean_division_equations; lia.
Qed.

Lemma group_digits x y z :
  is_byte x -> is_byte y -> is_byte z ->
  let value := Z.lor (Z.lor (Z.shiftl x 16) (Z.shiftl y 8)) z in
  (fun n => Z.land (Z.shiftr value n) 63) <$> [18; 12; 6; 0] = digits3 x y z.
Proof.
  intros Hx Hy Hz value. unfold in_width in *. change (2 ^ 8) with 256 in *.
  assert (value = x * 65536 + y * 256 + z) as ->.
  { assert (value = Z.lor z (Z.shiftl (Z.lor y (Z.shiftl x 8)) 8)) as ->.
    { unfold value. rewrite !Z.shiftl_lor, !Z.shiftl_shiftl by lia.
      by rewrite (Z.lor_comm z), (Z.lor_comm (Z.shiftl y 8)). }
    rewrite !lor_shiftl by (unfold in_width; lia). lia. }
  unfold digits3. cbn [fmap list_fmap].
  change 63 with (2 ^ 6 - 1). rewrite !land_mask, !shiftr_div by lia.
  change (2 ^ 6) with 64. change (2 ^ 18) with 262144. change (2 ^ 12) with 4096.
  change (2 ^ 0) with 1. f_equal; [|f_equal; [|f_equal; [|f_equal]]].
  all: Z.to_euclidean_division_equations; lia.
Qed.

Lemma digits3_range x y z :
  is_byte x -> is_byte y -> is_byte z -> Forall (fun d => 0 <= d < 64) (digits3 x y z).
Proof.
  unfold in_width. change (2 ^ 8) with 256. intros.
  unfold digits3. repeat constructor; Z.to_euclidean_division_equations; lia.
Qed.

(** ** The text of a byte string, group by group

    [enc_tail low k] is the text of [k] (of length [3 n - 1]) whose last digit
    carries the value [low] in its two unused bits. *)
Fixpoint enc_tail (low : Z) (k : bytes) : bytes :=
  match k with
  | x :: y :: z :: rest => (digit_char <$> digits3 x y z) ++ enc_tail low rest
  | [x; y] => [digit_char (x / 4); digit_char ((x mod 4) * 16 + y / 16);
               digit_char ((y mod 16) * 4 + low); char "="]
  | _ => []
  end.

(** Induction on the number of groups of a byte string of length [3 n - 1]. *)
Lemma tail_ind (P : nat -> bytes -> Prop) :
  (forall x y, P 1%nat [x; y]) ->
  (forall n x y z rest, P (S n) rest -> length rest = (3 * S n - 1)%nat ->
                        P (S (S n)) (x :: y :: z :: rest)) ->
  forall n k, (0 < n)%nat -> length k = (3 * n - 1)%nat -> P n k.
Proof.
  intros H1 H2 n. induction n as [|[|n] IH]; intros k Hn HL; [lia| |].
  - destruct k as [|x [|y [|]]]; simpl in HL; try lia. apply H1.
  - destruct k as [|x [|y [|z rest]]]; simpl in HL; try lia.
    apply H2; [apply IH|]; lia.
Qed.

Lemma enc_tail_length low n k :
  (0 < n)%nat -> length k = (3 * n - 1)%nat -> length (enc_tail low k) = (4 * n)%nat.
Proof.
  revert n k. apply (tail_ind (fun n k => length (enc_tail low k) = (4 * n)%nat)); [done|].
  intros n x y z rest IH _. simpl. rewrite IH. lia.
Qed.

Lemma byte_at_suffix text i l r : drop i text = l -> byte_at text (i + r) = byte_at l r.
Proof. intros <-. by rewrite byte_at_drop. Qed.

Lemma suffix_length {text : bytes} {i l} : drop i text = l -> l <> [] -> length text = (i + length l)%nat.
Proof.
  intros E N. assert (i < length text)%nat.
  { destruct (decide (i < length text)%nat); [done|]. rewrite drop_ge in E by lia. by subst l. }
  rewrite <- E, length_drop. lia.
Qed.

Lemma suffix_next {text : bytes} {i a b c d rest} :
  drop i text = a :: b :: c :: d :: rest -> drop (i + 4) text = rest.
Proof. intros E. by rewrite <- drop_drop, E. Qed.

(** One group of the decoder, as it depends on the next four characters. *)
Definition decode_group (last_group : bool) (ca cb cc cd : Z) : option bytes :=
  let a := DecodeBase64Char ca in let b := DecodeBase64Char cb in
  let c := DecodeBase64Char cc in let d := DecodeBase64Char cd in
  if (0 <=? a) && (0 <=? b) && (0 <=? c) && (if last_group then cd =? char "=" else 0 <=? d) then
    Some ([a * 4 + b / 16; (b mod 16) * 16 + c / 4]
          ++ (if last_group then [] else [(c mod 4) * 64 + d]))
  else None.

Lemma pad_not_digit : DecodeBase64Char (char "=") = -1.
Proof. done. Qed.

Lemma DecodeBase64Char_cases ch : DecodeBase64Char ch = -1 \/ 0 <= DecodeBase64Char ch < 64.
Proof.
  destruct (Z.lt_ge_cases (DecodeBase64Char ch) 0) as [H|H].
  - left. unfold DecodeBase64Char in *. cbn in *. repeat (case_if; [bool_prop; lia|]). done.
  - right. by destruct (DecodeBase64Char_inv ch H).
Qed.

Lemma push_byte_room out b : (length out < 32)%nat -> push_byte out b = Some (out ++ [b]).
Proof. intros. unfold push_byte. by rewrite (proj2 (Nat.leb_gt _ _)). Qed.

Ltac sign_of x :=
  rewrite ?(proj2 (Z.leb_le 0 x)), ?(proj2 (Z.ltb_ge x 0)), ?(proj2 (Z.eqb_neq x (-1))) by lia;
  cbn [orb andb].

Lemma decode_loop_group text n i out last ca cb cc cd rest :
  drop i text = ca :: cb :: cc :: cd :: rest ->
  (last = true <-> rest = []) ->
  (length out + (if last then 2 else 3) <= 32)%nat ->
  decode_loop text (S n) i out
  = match decode_group last ca cb cc cd with
    | Some bs => decode_loop text n (i + 4) (out ++ bs)
    | None => None
    end.
Proof.
  intros E HR HL. pose proof (suffix_length E ltac:(done)) as HT. simpl in HT.
  assert (byte_at text i = ca) as E0.
  { rewrite <- (Nat.add_0_r i). by rewrite (byte_at_suffix _ _ _ 0 E). }
  assert ((i + 4 =? length text)%nat = last) as E4.
  { rewrite HT. destruct last.
    - rewrite (proj1 HR) by done. apply Nat.eqb_eq. simpl. lia.
    - apply Nat.eqb_neq. destruct rest; [by pose proof (proj2 HR eq_refl)|]. simpl. lia. }
  cbn [decode_loop].
  rewrite E0, E4, (byte_at_suffix _ _ _ 1 E), (byte_at_suffix _ _ _ 2 E), (byte_at_suffix _ _ _ 3 E).
  clear E0 E4 HT E HR. unfold byte_at, decode_group. cbn [lookup list_lookup default from_option].
  unfold id.
  destruct (Z.eqb_spec cc (char "=")) as [->|_].
  { rewrite pad_not_digit. destruct last; cbn; rewrite ?andb_false_r; repeat case_if; done. }
  destruct (DecodeBase64Char_cases ca) as [Ea|Ha]; [by rewrite Ea|].
  destruct (DecodeBase64Char_cases cb) as [Eb|Hb].
  { rewrite Eb, andb_false_r. cbn. by rewrite orb_true_r. }
  destruct (DecodeBase64Char_cases cc) as [Ec|Hc].
  { rewrite Ec, andb_false_r. cbn. by rewrite !orb_true_r. }
  generalize dependent (DecodeBase64Char ca). generalize dependent (DecodeBase64Char cb).
  generalize dependent (DecodeBase64Char cc). intros c Hc b Hb a Ha.
  sign_of a. sign_of b. sign_of c.
  destruct (Z.eqb_spec cd (char "=")) as [->|_].
  - rewrite pad_not_digit. destruct last; [|done].
    destruct (group_bytes a b c 0) as (E1 & E2 & _); [lia..|].
    change (-2 =? -1) with false. change (-2 =? -2) with true. change (-2 <? 0) with true.
    change (0 <=? -2) with false. cbn [negb andb]. rewrite E1, E2.
    rewrite push_byte_room by lia. cbn [mbind option_bind].
    rewrite push_byte_room by (size_simpl; simpl; lia). cbn [mbind option_bind].
    rewrite <- app_assoc. done.
  - destruct last.
    { destruct (DecodeBase64Char_cases cd) as [Ed|Hd]; [by rewrite Ed|].
      sign_of (DecodeBase64Char cd). by rewrite (proj2 (Z.eqb_neq _ (-2))) by lia. }
    destruct (DecodeBase64Char_cases cd) as [Ed|Hd]; [by rewrite Ed|].
    generalize dependent (DecodeBase64Char cd). intros d Hd. sign_of d.
    destruct (group_bytes a b c d) as (E1 & E2 & E3); [lia..|]. rewrite E1, E2, E3.
    do 3 (rewrite push_byte_room by (size_simpl; simpl; lia); cbn [mbind option_bind negb andb]).
    rewrite <- !app_assoc. done.
Qed.

(** ** Decoding and encoding against [enc_tail] *)

Lemma decode_group_digits x y z :
  is_byte x -> is_byte y -> is_byte z ->
  decode_group false (digit_char (x / 4)) (digit_char ((x mod 4) * 16 + y / 16))
    (digit_char ((y mod 16) * 4 + z / 64)) (digit_char (z mod 64)) = Some [x; y; z].
Proof.
  intros Hx Hy Hz. pose proof (digits3_range x y z Hx Hy Hz) as HF.
  apply Forall_cons in HF as [Ha HF]. apply Forall_cons in HF as [Hb HF].
  apply Forall_cons in HF as [Hc HF]. apply Forall_cons in HF as [Hd _].
  unfold decode_group. rewrite !DecodeBase64Char_alphabet by done.
  rewrite !(proj2 (Z.leb_le 0 _)) by lia. cbn [andb]. cbn [app]. unfold in_width in *.
  change (2 ^ 8) with 256 in *.
  f_equal. f_equal; [|f_equal; [|f_equal]]; Z.to_euclidean_division_equations; lia.
Qed.

Lemma decode_group_last low x y :
  is_byte x -> is_byte y -> 0 <= low < 4 ->
  decode_group true (digit_char (x / 4)) (digit_char ((x mod 4) * 16 + y / 16))
    (digit_char ((y mod 16) * 4 + low)) (char "=") = Some [x; y].
Proof.
  unfold in_width. change (2 ^ 8) with 256. intros Hx Hy Hl.
  unfold decode_group.
  rewrite !DecodeBase64Char_alphabet by (Z.to_euclidean_division_equations; lia).
  rewrite !(proj2 (Z.leb_le 0 _)) by (Z.to_euclidean_division_equations; lia).
  rewrite Z.eqb_refl. cbn [andb app].
  f_equal. f_equal; [|f_equal]; Z.to_euclidean_division_equations; lia.
Qed.

(** What a decoded group says about its characters. *)
Lemma decode_group_inv last ca cb cc cd bs :
  decode_group last ca cb cc cd = Some bs ->
  bytes_ok bs /\ exists x y z, is_byte x /\ is_byte y /\ 0 <= z < 256 /\
    [ca; cb; cc] = digit_char <$> [x / 4; (x mod 4) * 16 + y / 16; (y mod 16) * 4 + z / 64] /\
    (if last then bs = [x; y] /\ cd = char "=" else bs = [x; y; z] /\ cd = digit_char (z mod 64)).
Proof.
  unfold decode_group. intros E. case_if_in E; [|done]. bool_prop.
  destruct (DecodeBase64Char_inv ca) as [Ra Ea]; [done|].
  destruct (DecodeBase64Char_inv cb) as [Rb Eb]; [done|].
  destruct (DecodeBase64Char_inv cc) as [Rc Ec]; [done|].
  generalize dependent (DecodeBase64Char ca). generalize dependent (DecodeBase64Char cb).
  generalize dependent (DecodeBase64Char cc). intros c Hc ? <- b Hb ? <- a Ha ? ? <-.
  assert (forall z, (z = 64 * (c mod 4) \/ exists d, 0 <= d < 64 /\ z = (c mod 4) * 64 + d) ->
    let x := a * 4 + b / 16 in let y := (b mod 16) * 16 + c / 4 in
    is_byte x /\ is_byte y /\ 0 <= z < 256 /\ x / 4 = a /\ (x mod 4) * 16 + y / 16 = b /\
    (y mod 16) * 4 + z / 64 = c) as HZ.
  { intros z Hz x y. unfold in_width. change (2 ^ 8) with 256. subst x y.
    destruct Hz as [->|(d & ? & ->)]; split_and!; Z.to_euclidean_division_equations; lia. }
  destruct last; injection E as <-.
  - destruct (HZ (64 * (c mod 4))) as (Hx & Hy & ? & E1 & E2 & E3); [by left|].
    split; [rewrite !bytes_ok_cons; auto with wg|].
    eexists _, _, (64 * (c mod 4)). split_and!; [exact Hx|exact Hy|lia|lia| |done|by apply Z.eqb_eq].
    cbn [fmap list_fmap]. by rewrite E1, E2, E3.
  - bool_prop. destruct (DecodeBase64Char_inv cd) as [Rd Ed]; [done|].
    destruct (HZ ((c mod 4) * 64 + DecodeBase64Char cd)) as (Hx & Hy & ? & E1 & E2 & E3);
      [right; eauto|].
    split; [rewrite !bytes_ok_cons; auto with wg|].
    eexists _, _, ((c mod 4) * 64 + DecodeBase64Char cd). split_and!; [exact Hx|exact Hy|lia|lia| |done|].
    + cbn [fmap list_fmap]. by rewrite E1, E2, E3.
    + rewrite <- Ed at 1. f_equal. Z.to_euclidean_division_equations; lia.
Qed.

Lemma decode_loop_enc low n k :
  (0 < n)%nat -> length k = (3 * n - 1)%nat -> 0 <= low < 4 ->
  forall text i out, bytes_ok k -> drop i text = enc_tail low k -> (length out + length k <= 32)%nat ->
  decode_loop text n i out = Some (out ++ k).
Proof.
  intros Hn HL Hlow. revert n k Hn HL. apply (tail_ind (fun n k => forall text i out,
    bytes_ok k -> drop i text = enc_tail low k -> (length out + length k <= 32)%nat ->
    decode_loop text n i out = Some (out ++ k))).
  - intros x y text i out HB E HR. cbn [enc_tail] in E. simpl in HR.
    apply Forall_cons in HB as [Hx HB]. apply Forall_cons in HB as [Hy _].
    rewrite (decode_loop_group _ _ _ _ true _ _ _ _ _ E) by (done || lia).
    by rewrite decode_group_last.
  - intros n x y z rest IH HL text i out HB E HR. cbn [enc_tail fmap list_fmap digits3 app] in E.
    simpl in HR. apply Forall_cons in HB as [Hx HB]. apply Forall_cons in HB as [Hy HB].
    apply Forall_cons in HB as [Hz HB].
    rewrite (decode_loop_group _ _ _ _ false _ _ _ _ _ E); [|split; [done|]|lia].
    + rewrite decode_group_digits by done.
      rewrite (IH _ _ _ HB (suffix_next E)) by (size_simpl; simpl; lia).
      by rewrite <- app_assoc.
    + intros F. pose proof (enc_tail_length low (S n) rest ltac:(lia) HL) as G.
      rewrite F in G. simpl in G. lia.
Qed.

Lemma decode_loop_inv n text i out k :
  (0 < n)%nat -> length text = (i + 4 * n)%nat -> (length out + (3 * n - 1) <= 32)%nat ->
  decode_loop text n i out = Some k ->
  exists k' low, k = out ++ k' /\ length k' = (3 * n - 1)%nat /\ bytes_ok k' /\ 0 <= low < 4 /\
    drop i text = enc_tail low k'.
Proof.
  revert i out. induction n as [|n IH]; intros i out Hn HL HO E; [lia|].
  assert (exists ca cb cc cd rest, drop i text = ca :: cb :: cc :: cd :: rest /\
            length rest = (4 * n)%nat) as (ca & cb & cc & cd & rest & ED & HR).
  { assert (length (drop i text) = (4 * S n)%nat) as HD by (rewrite length_drop; lia).
    destruct (drop i text) as [|ca [|cb [|cc [|cd rest]]]]; simpl in HD; try lia.
    exists ca, cb, cc, cd, rest. split; [done|lia]. }
  rewrite (decode_loop_group _ _ _ _ (bool_decide (n = 0%nat)) _ _ _ _ _ ED) in E.
  2: { rewrite bool_decide_eq_true. destruct rest; simpl in HR; split; intros; done || lia. }
  2: { case_bool_decide; lia. }
  destruct (decode_group _ ca cb cc cd) as [bs|] eqn:EG; [|done].
  apply decode_group_inv in EG as (HB & x & y & z & Hx & Hy & Hz & [= -> -> ->] & HC).
  case_bool_decide as Hn0.
  - destruct HC as [-> ->]. subst n. injection E as <-.
    exists [x; y], (z / 64). destruct rest; [|done].
    split_and!; try done; Z.to_euclidean_division_equations; lia.
  - destruct HC as [-> ->]. apply IH in E as (k' & low & -> & HK & HBK & Hlow & ED'); cycle 1.
    + lia.
    + lia.
    + size_simpl. simpl. lia.
    + exists (x :: y :: z :: k'), low. rewrite <- app_assoc.
      split_and!; [done|simpl; lia|by apply bytes_ok_app with (l := [x; y; z])|lia|lia|].
      rewrite ED. apply suffix_next in ED. rewrite ED in ED'. by rewrite ED'.
Qed.

Lemma encode_loop_step data n i l :
  drop i data = l -> length data = NoisePublicKeySize -> l <> [] ->
  encode_loop data (S n) i
  = (let z := byte_at l 2 in
     let y := byte_at l 1 in
     let x := byte_at l 0 in
     let value := Z.lor (Z.lor (Z.shiftl x 16) (Z.shiftl (if (1 <? length l)%nat then y else 0) 8))
                        (if (2 <? length l)%nat then z else 0) in
     let digit n := digit_char (Z.land (Z.shiftr value n) 63) in
     [digit 18; digit 12; if (1 <? length l)%nat then digit 6 else char "=";
      if (2 <? length l)%nat then digit 0 else char "="])
    ++ encode_loop data n (i + 3).
Proof.
  intros E HN Hl. pose proof (suffix_length E Hl) as HT.
  assert (byte_at data i = byte_at l 0) as E0.
  { rewrite <- (Nat.add_0_r i). apply (byte_at_suffix _ _ _ _ E). }
  cbn [encode_loop]. replace (NoisePublicKeySize - i)%nat with (length l) by lia.
  by rewrite E0, !(byte_at_suffix _ _ _ _ E).
Qed.

Lemma encode_loop_enc data n k i :
  (0 < n)%nat -> length k = (3 * n - 1)%nat ->
  bytes_ok k -> drop i data = k -> length data = NoisePublicKeySize ->
  encode_loop data n i = enc_tail 0 k.
Proof.
  intros Hn HL. revert i. revert n k Hn HL. apply (tail_ind (fun n k => forall i,
    bytes_ok k -> drop i data = k -> length data = NoisePublicKeySize ->
    encode_loop data n i = enc_tail 0 k)).
  - intros x y i HB E HN. rewrite !bytes_ok_cons in HB. destruct HB as (Hx & Hy & _).
    rewrite (encode_loop_step _ _ _ _ E) by done.
    pose proof (group_digits x y 0 Hx Hy ltac:(unfold in_width; lia)) as HG.
    cbn [fmap list_fmap] in HG. injection HG as G1 G2 G3 _.
    cbn -[Z.land Z.lor Z.shiftl Z.shiftr Z.div Z.modulo digit_char]. by rewrite G1, G2, G3.
  - intros n x y z rest IH HL i HB E HN. pose proof HB as HB'. rewrite !bytes_ok_cons in HB.
    destruct HB as (Hx & Hy & Hz & HR).
    rewrite (encode_loop_step _ _ _ _ E) by done.
    rewrite (IH (i + 3)%nat HR); [|by rewrite <- drop_drop, E|done].
    pose proof (group_digits x y z Hx Hy Hz) as HG.
    cbn [fmap list_fmap] in HG. injection HG as G1 G2 G3 G4.
    cbn -[Z.land Z.lor Z.shiftl Z.shiftr Z.div Z.modulo digit_char enc_tail encode_loop].
    by rewrite G1, G2, G3, G4.
Qed.

Lemma enc_tail_pad low n k :
  (0 < n)%nat -> length k = (3 * n - 1)%nat ->
  (byte_at (enc_tail low k) (4 * n - 1) =? char "=") = true.
Proof.
  revert n k. apply (tail_ind (fun n k =>
    (byte_at (enc_tail low k) (4 * n - 1) =? char "=") = true)); [reflexivity|].
  intros n x y z rest IH HL.
  replace (4 * S (S n) - 1)%nat with (4 + (4 * S n - 1))%nat by lia. exact IH.
Qed.

Lemma encoded_text_enc k : bytes_of 32 k -> encoded_text k = enc_tail 0 k.
Proof. intros [HL HB]. apply encode_loop_enc; done || lia. Qed.

(** [text] with [low] added to the value of its last digit, whose two lowest
    bits the encoder leaves zero. *)
Definition with_spare_bits (low : Z) (text : bytes) : bytes :=
  <[42%nat := digit_char (DecodeBase64Char (byte_at text 42) + low)]> text.

Lemma enc_tail_spare low n k :
  (0 < n)%nat -> length k = (3 * n - 1)%nat -> bytes_ok k ->
  enc_tail low k
  = <[(4 * n - 2)%nat := digit_char (DecodeBase64Char (byte_at (enc_tail 0 k) (4 * n - 2)) + low)]>
      (enc_tail 0 k).
Proof.
  revert n k. apply (tail_ind (fun n k => bytes_ok k -> enc_tail low k = <[(4 * n - 2)%nat
    := digit_char (DecodeBase64Char (byte_at (enc_tail 0 k) (4 * n - 2)) + low)]> (enc_tail 0 k))).
  - intros x y HB. rewrite !bytes_ok_cons in HB. destruct HB as (Hx & Hy & _).
    cbn -[DecodeBase64Char digit_char Z.div Z.modulo Z.mul Z.add].
    unfold byte_at. cbn -[DecodeBase64Char digit_char Z.div Z.modulo Z.mul Z.add].
    rewrite DecodeBase64Char_alphabet by (Z.to_euclidean_division_equations; lia).
    by rewrite Z.add_0_r.
  - intros n x y z rest IH HL HB. rewrite !bytes_ok_cons in HB. destruct HB as (_ & _ & _ & HR).
    cbn [enc_tail]. rewrite (IH HR). replace (4 * S (S n) - 2)%nat with (4 + (4 * S n - 2))%nat by lia.
    done.
Qed.

Lemma decode_enc_tail low k :
  bytes_of 32 k -> 0 <= low < 4 -> DecodeWireGuardKey (enc_tail low k) = Some k.
Proof.
  intros [HL HB] Hlow. unfold DecodeWireGuardKey.
  pose proof (enc_tail_length low 11 k ltac:(lia) HL) as HT. rewrite HT.
  change (4 * 11 =? WireGuardEncodedKeySize)%nat with true. change (4 * 11 / 4)%nat with 11%nat.
  rewrite (enc_tail_pad low 11 k) by (done || lia). cbn [negb orb].
  rewrite (decode_loop_enc low 11 k) by (done || (simpl; lia)). cbn [mbind option_bind app].
  by rewrite HL.
Qed.

Lemma DecodeWireGuardKey_inv text k :
  DecodeWireGuardKey text = Some k ->
  bytes_of 32 k /\ exists low, 0 <= low < 4 /\ text = with_spare_bits low (encoded_text k).
Proof.
  unfold DecodeWireGuardKey.
  destruct (Nat.eqb_spec (length text) WireGuardEncodedKeySize) as [HL|]; [|done].
  intros E. cbn [negb orb] in E. case_if_in E; [done|]. rewrite HL in E.
  change WireGuardEncodedKeySize with 44%nat in *. change (44 / 4)%nat with 11%nat in E.
  destruct (decode_loop text 11 0 []) as [out|] eqn:ED; [|done]. cbn [mbind option_bind] in E.
  case_if_in E; [|done]. injection E as ->.
  apply decode_loop_inv in ED as (k' & low & -> & HK & HB & Hlow & EK); [|simpl; lia..].
  split; [done|]. exists low. split; [done|].
  rewrite encoded_text_enc by done. unfold with_spare_bits.
  rewrite drop_0 in EK. rewrite EK at 1. apply (enc_tail_spare low 11); done || lia.
Qed.

(** ** What the parsers return *)

Lemma clamp_ok r : bytes_of 32 r -> bytes_of 32 (ClampX25519PrivateKey r).
Proof.
  intros [HL HO]. unfold ClampX25519PrivateKey. split; [by rewrite !length_insert|].
  assert (forall l i m, bytes_ok l -> is_byte m -> bytes_ok (<[i:=m]> l)) as HI.
  { intros l i m Hl Hm. by apply Forall_insert. }
  assert (forall b m, is_byte b -> is_byte (Z.land b (m mod 256))) as HM.
  { intros b m Hb. rewrite <- land_255. rewrite (Z.land_comm m), Z.land_assoc, (Z.land_comm _ m), Z.land_assoc.
    rewrite land_255. apply byte_mod. }
  apply HI; [apply HI; [apply HI|]|]; try done.
  - apply (HM _ 248). by apply byte_at_ok.
  - apply (HM _ 127). apply byte_at_ok. apply HI; [done|]. apply (HM _ 248). by apply byte_at_ok.
  - apply lor_width; [lia| |unfold in_width; lia]. apply byte_at_ok.
    apply HI; [apply HI; [done|]|].
    + apply (HM _ 248). by apply byte_at_ok.
    + apply (HM _ 127). apply byte_at_ok. apply HI; [done|]. apply (HM _ 248). by apply byte_at_ok.
Qed.

Lemma noise_parse_private_key_ok text k :
  noise_parse_private_key text = Some k -> key_ok k /\ key_valid k = true.
Proof.
  unfold noise_parse_private_key. intros (raw & ED & E)%option.bind_Some.
  case_if_in E; [done|]. injection E as <-.
  apply DecodeWireGuardKey_inv in ED as [HB _]. split; [by apply clamp_ok|done].
Qed.
Lemma noise_parse_public_key_ok text k :
  noise_parse_public_key text = Some k -> key_ok k /\ key_valid k = true.
Proof.
  unfold noise_parse_public_key. intros (raw & ED & E)%option.bind_Some. injection E as <-.
  by apply DecodeWireGuardKey_inv in ED as [HB _].
Qed.
Lemma noise_parse_preshared_key_ok text k :
  noise_parse_preshared_key text = Some k -> key_ok k /\ key_valid k = true.
Proof.
  unfold noise_parse_preshared_key. case_if; [done|].
  intros (raw & ED & E)%option.bind_Some. injection E as <-.
  by apply DecodeWireGuardKey_inv in ED as [HB _].
Qed.

(** ** Properties *)

(** A text is accepted as a key exactly when it is the encoder's text of
    that key, up to the two unused low bits of the last digit (the decoder does
    not insist on the canonical text, so every key has four). *)
Theorem decode_exact text k :
  DecodeWireGuardKey text = Some k <->
  bytes_of 32 k /\ exists low, 0 <= low < 4 /\ text = with_spare_bits low (encoded_text k).
Proof.
  split; [apply DecodeWireGuardKey_inv|].
  intros [[HL HB] (low & Hlow & ->)]. rewrite encoded_text_enc by done.
  unfold with_spare_bits. rewrite <- (enc_tail_spare low 11) by (done || lia).
  by apply decode_enc_tail.
Qed.

(** Every 32-byte key printed into a buffer of at least 45 characters is
    NUL-terminated there, leaves the rest of the buffer unchanged, and reads
    back as the same key with every parser (an all-zero private key is refused,
    and a private key comes back clamped). *)
Theorem key_text_roundtrip buffer k (H : bytes_of 32 k) (HB : (45 <= length buffer)%nat) :
  exists text, EncodeWireGuardKey buffer k = (true, text ++ 0 :: drop 45 buffer) /\
    length text = 44%nat /\
    DecodeWireGuardKey text = Some k /\
    noise_parse_public_key text = Some (mk_key k true) /\
    noise_parse_preshared_key text = Some (mk_key k true) /\
    noise_parse_private_key text
    = (if IsAllZero k then None else Some (mk_key (ClampX25519PrivateKey k) true)) /\
    noise_is_valid_encoded_key text false = true.
Proof.
  exists (encoded_text k). rewrite encoded_text_enc by done.
  pose proof (enc_tail_length 0 11 k ltac:(lia) (proj1 H)) as HL.
  assert (DecodeWireGuardKey (enc_tail 0 k) = Some k) as HD
    by (apply decode_enc_tail; done || lia).
  unfold EncodeWireGuardKey, noise_parse_public_key, noise_parse_preshared_key,
    noise_parse_private_key, noise_is_valid_encoded_key.
  rewrite encoded_text_enc by done. rewrite HD, HL.
  rewrite (proj2 (Nat.ltb_ge _ _)) by done. split_and!; try done.
  f_equal. unfold write_at. rewrite length_app, HL, take_0, <- app_assoc. done.
Qed.

Lemma key_text_roundtrip_witness :
  exists text, EncodeWireGuardKey (zeros 64) (seqZ 1 32) = (true, text ++ 0 :: zeros 19) /\
    noise_parse_private_key text = Some (mk_key (ClampX25519PrivateKey (seqZ 1 32)) true).
Proof.
  destruct (key_text_roundtrip (zeros 64) (seqZ 1 32)) as (text & E1 & _ & _ & _ & _ & E2 & _).
  - apply (bool_decide_unpack _). vm_compute. exact I.
  - rewrite length_zeros. lia.
  - exists text. split; [exact E1|exact E2].
Defined.
