(* ===== verification/InnerPacket.v ===== *)
(** * Inner packet validation and allowed-source filtering

    Models [wireguard/inner_packet.cpp]: the internet checksum, the IPv4 and
    IPv6 header checks, the removal of transport padding, the AllowedIPs parser
    and the prefix match.  [padded_exact] says which payloads are accepted,
    [allowed_source_exact] which sources a configuration admits, bit by bit. *)

From S2P Require Import Prelude PacketQueue.
Local Open Scope Z_scope.

Definition MaxInnerIpPacketSize : nat := PacketQueue.MaxInnerIpPacketSize.
Definition MinimumIpv4HeaderSize : nat := 20.
Definition Ipv6HeaderSize : nat := 40.
Definition MaximumPaddingSize : nat := 15.

(** [static_cast<InnerIpVersion>(nibble)]: the values 4 and 6 are named, 0 is
    [Unknown], and the others have no name. *)
Inductive InnerIpVersion :=
  | InnerIpVersion_Unknown
  | InnerIpVersion_Ipv4
  | InnerIpVersion_Ipv6
  | InnerIpVersion_Unnamed (value : Z).
#[export] Instance InnerIpVersion_eq_dec : EqDecision InnerIpVersion.
Proof. solve_decision. Defined.

Definition cast_version (nibble : Z) : InnerIpVersion :=
  if nibble =? 0 then InnerIpVersion_Unknown
  else if nibble =? 4 then InnerIpVersion_Ipv4
  else if nibble =? 6 then InnerIpVersion_Ipv6
  else InnerIpVersion_Unnamed nibble.

Inductive InnerIpValidationError :=
  | InnerIp_None
  | InnerIp_TooShort
  | InnerIp_TooLarge
  | InnerIp_InvalidVersion
  | InnerIp_InvalidHeaderLength
  | InnerIp_LengthMismatch
  | InnerIp_InvalidHeaderChecksum
  | InnerIp_InvalidPadding.
#[export] Instance InnerIpValidationError_eq_dec : EqDecision InnerIpValidationError.
Proof. solve_decision. Defined.

(** ** Headers *)

Definition LoadBigEndian16 (data : bytes) (offset : nat) : Z :=
  u16 (Z.lor (Z.shiftl (byte_at data offset) 8) (byte_at data (offset + 1))).

(** The two summing loops of [HasValidInternetChecksum], from [offset] on. *)
Fixpoint checksum_loop (fuel : nat) (data : bytes) (offset : nat) (sum : Z) : Z :=
  match fuel with
  | O => sum
  | S fuel' =>
      if (offset + 1 <? length data)%nat then
        checksum_loop fuel' data (offset + 2) (u32 (sum + LoadBigEndian16 data offset))
      else if (offset <? length data)%nat then
        u32 (sum + Z.shiftl (byte_at data offset) 8)
      else sum
  end.

(** [while ((sum >> 16) != 0) sum = (sum & 0xFFFF) + (sum >> 16);] *)
Fixpoint fold_carries (fuel : nat) (sum : Z) : Z :=
  match fuel with
  | O => sum
  | S fuel' =>
      if negb (Z.shiftr sum 16 =? 0) then
        fold_carries fuel' (u32 (Z.land sum 65535 + Z.shiftr sum 16))
      else sum
  end.

(** Three folds are enough for a 32-bit sum; see [fold_carries_done]. *)
Definition HasValidInternetChecksum (data : bytes) : bool :=
  u16 (fold_carries 3 (checksum_loop (S (length data)) data 0 0)) =? 65535.

Definition ValidateInnerIpv4Packet (packet : bytes) : InnerIpValidationError :=
  if (length packet <? MinimumIpv4HeaderSize)%nat then InnerIp_TooShort
  else if (MaxInnerIpPacketSize <? length packet)%nat then InnerIp_TooLarge
  else if negb (Z.shiftr (byte_at packet 0) 4 =? 4) then InnerIp_InvalidVersion
  else
    let header_size := (Z.to_nat (Z.land (byte_at packet 0) 15) * 4)%nat in
    if (header_size <? MinimumIpv4HeaderSize)%nat || (length packet <? header_size)%nat then
      InnerIp_InvalidHeaderLength
    else if negb (LoadBigEndian16 packet 2 =? Z.of_nat (length packet)) then InnerIp_LengthMismatch
    else if negb (HasValidInternetChecksum (take header_size packet)) then
      InnerIp_InvalidHeaderChecksum
    else InnerIp_None.

Definition ValidateInnerIpv6Packet (packet : bytes) : InnerIpValidationError :=
  if (length packet <? Ipv6HeaderSize)%nat then InnerIp_TooShort
  else if (MaxInnerIpPacketSize <? length packet)%nat then InnerIp_TooLarge
  else if negb (Z.shiftr (byte_at packet 0) 4 =? 6) then InnerIp_InvalidVersion
  else
    let payload_size := LoadBigEndian16 packet 4 in
    if negb (Z.of_nat Ipv6HeaderSize + payload_size =? Z.of_nat (length packet)) then
      InnerIp_LengthMismatch
    else InnerIp_None.

(** The result and the value left in [*out_version]. *)
Definition ValidateInnerIpPacket (packet : bytes) : InnerIpValidationError * InnerIpVersion :=
  if (length packet =? 0)%nat then (InnerIp_TooShort, InnerIpVersion_Unknown)
  else
    let version := cast_version (Z.shiftr (byte_at packet 0) 4) in
    let result :=
      match version with
      | InnerIpVersion_Ipv4 => ValidateInnerIpv4Packet packet
      | InnerIpVersion_Ipv6 => ValidateInnerIpv6Packet packet
      | _ => InnerIp_InvalidVersion
      end in
    if bool_decide (result = InnerIp_None) then (result, version)
    else (result, InnerIpVersion_Unknown).

(** ** Padding *)

Definition GetUnpaddedPacketSize (payload : bytes) : nat :=
  if (length payload =? 0)%nat then 0%nat
  else
    match cast_version (Z.shiftr (byte_at payload 0) 4) with
    | InnerIpVersion_Ipv4 =>
        if (4 <=? length payload)%nat then Z.to_nat (LoadBigEndian16 payload 2) else 0%nat
    | InnerIpVersion_Ipv6 =>
        if (Ipv6HeaderSize <=? length payload)%nat
        then (Ipv6HeaderSize + Z.to_nat (LoadBigEndian16 payload 4))%nat else 0%nat
    | _ => 0%nat
    end.

Definition all_zero_bytes (data : bytes) : bool := forallb (fun b => b =? 0) data.

(** The result and the value left in [*out_packet_size]. *)
Definition ValidatePaddedInnerIpv4Packet (payload : bytes) : InnerIpValidationError * nat :=
  if (length payload <? MinimumIpv4HeaderSize)%nat then (InnerIp_TooShort, 0%nat)
  else
    let packet_size := Z.to_nat (LoadBigEndian16 payload 2) in
    if (packet_size <? MinimumIpv4HeaderSize)%nat then (InnerIp_LengthMismatch, 0%nat)
    else if (MaxInnerIpPacketSize <? packet_size)%nat then (InnerIp_TooLarge, 0%nat)
    else if (length payload <? packet_size)%nat then (InnerIp_LengthMismatch, 0%nat)
    else if (MaximumPaddingSize <? length payload - packet_size)%nat then
      (InnerIp_InvalidPadding, 0%nat)
    else if negb (all_zero_bytes (drop packet_size payload)) then (InnerIp_InvalidPadding, 0%nat)
    else
      let validation := ValidateInnerIpv4Packet (take packet_size payload) in
      if negb (bool_decide (validation = InnerIp_None)) then (validation, 0%nat)
      else (InnerIp_None, packet_size).

(** The result, [*out_packet_size] and [*out_version]. *)
Definition ValidatePaddedInnerIpPacket (payload : bytes)
    : InnerIpValidationError * nat * InnerIpVersion :=
  let reject error := (error, 0%nat, InnerIpVersion_Unknown) in
  if (length payload =? 0)%nat then reject InnerIp_TooShort
  else
    let precheck :=
      match cast_version (Z.shiftr (byte_at payload 0) 4) with
      | InnerIpVersion_Ipv4 =>
          if (length payload <? MinimumIpv4HeaderSize)%nat then Some InnerIp_TooShort else None
      | InnerIpVersion_Ipv6 =>
          if (length payload <? Ipv6HeaderSize)%nat then Some InnerIp_TooShort else None
      | _ => Some InnerIp_InvalidVersion
      end in
    match precheck with
    | Some error => reject error
    | None =>
        let packet_size := GetUnpaddedPacketSize payload in
        if (packet_size =? 0)%nat then reject InnerIp_LengthMismatch
        else if (MaxInnerIpPacketSize <? packet_size)%nat then reject InnerIp_TooLarge
        else if (length payload <? packet_size)%nat then reject InnerIp_LengthMismatch
        else if (MaximumPaddingSize <? length payload - packet_size)%nat then
          reject InnerIp_InvalidPadding
        else if negb (all_zero_bytes (drop packet_size payload)) then reject InnerIp_InvalidPadding
        else
          let '(validation, version) := ValidateInnerIpPacket (take packet_size payload) in
          if negb (bool_decide (validation = InnerIp_None)) then (validation, 0%nat, version)
          else (InnerIp_None, packet_size, version)
    end.

(** ** AllowedIPs *)

(** [text.find(ch, offset)] and [text.rfind(ch)]; [None] is [npos]. *)
Fixpoint find_char (text : bytes) (ch : Z) : option nat :=
  match text with
  | [] => None
  | c :: rest => if c =? ch then Some 0%nat else S <$> find_char rest ch
  end.
Definition find_from (text : bytes) (ch : Z) (offset : nat) : option nat :=
  (fun n => (offset + n)%nat) <$> find_char (drop offset text) ch.
Definition rfind_char (text : bytes) (ch : Z) : option nat :=
  (fun n => (length text - 1 - n)%nat) <$> find_char (reverse text) ch.

(** [value.substr(offset, end - offset)], to the end where [end] is [npos]. *)
Definition component (text : bytes) (offset : nat) (stop : option nat) : bytes :=
  match stop with
  | None => drop offset text
  | Some d => subspan text offset (d - offset)
  end.

Definition is_blank (c : Z) : bool := (c =? 32) || (c =? 9).
Fixpoint trim_front (text : bytes) : bytes :=
  match text with
  | [] => []
  | c :: rest => if is_blank c then trim_front rest else text
  end.
Definition Trim (text : bytes) : bytes := reverse (trim_front (reverse (trim_front text))).

Fixpoint decimal_loop (text : bytes) (maximum parsed : Z) : option Z :=
  match text with
  | [] => Some parsed
  | character :: rest =>
      if (character <? char "0") || (char "9" <? character) then None
      else
        let parsed := u32 (u32 (parsed * 10) + (character - char "0")) in
        if maximum <? parsed then None else decimal_loop rest maximum parsed
  end.
Definition ParseDecimal (text : bytes) (maximum : Z) : option Z :=
  if (length text =? 0)%nat then None else decimal_loop text maximum 0.

(** The loop of [ParseIpv4Address] from component [index] on, with the bytes
    written so far. *)
Fixpoint ipv4_loop (fuel index offset : nat) (text out : bytes) : option bytes :=
  match fuel with
  | O => None
  | S fuel' =>
      let delimiter := find_from text (char ".") offset in
      parsed ← ParseDecimal (component text offset delimiter) 255;
      let out := out ++ [u8 parsed] in
      if (index =? 3)%nat then
        match delimiter with None => Some out | Some _ => None end
      else
        match delimiter with
        | None => None
        | Some d => ipv4_loop fuel' (S index) (d + 1) text out
        end
  end.
Definition ParseIpv4Address (text : bytes) : option bytes := ipv4_loop 4 0 0 text [].

Definition hex_digit (c : Z) : Z :=
  if (char "0" <=? c) && (c <=? char "9") then c - char "0"
  else if (char "a" <=? c) && (c <=? char "f") then c - char "a" + 10
  else if (char "A" <=? c) && (c <=? char "F") then c - char "A" + 10
  else 16.

Fixpoint hex_loop (text : bytes) (parsed : Z) : option Z :=
  match text with
  | [] => Some parsed
  | c :: rest =>
      let digit := hex_digit c in
      if digit =? 16 then None else hex_loop rest (Z.lor (u32 (Z.shiftl parsed 4)) digit)
  end.

(** The [while] loop of [ParseIpv6Address]: the words read, and [compressed_at]
    ([8] is [words.size()], no compression seen).  Every iteration advances
    [offset], so [length text] iterations are enough. *)
Fixpoint ipv6_loop (fuel offset : nat) (text : bytes) (words : list Z) (compressed_at : nat)
    : option (list Z * nat) :=
  match fuel with
  | O => if (offset <? length text)%nat then None else Some (words, compressed_at)
  | S fuel' =>
      if negb (offset <? length text)%nat then Some (words, compressed_at)
      else if (length words =? 8)%nat then None
      else
        let delimiter := find_from text (char ":") offset in
        let component := component text offset delimiter in
        if (length component =? 0)%nat || (4 <? length component)%nat then None
        else
          parsed ← hex_loop component 0;
          let words := words ++ [u16 parsed] in
          match delimiter with
          | None => Some (words, compressed_at)
          | Some d =>
              if (d + 1 <? length text)%nat && (byte_at text (d + 1) =? char ":") then
                if negb (compressed_at =? 8)%nat then None
                else ipv6_loop fuel' (d + 2) text words (length words)
              else ipv6_loop fuel' (d + 1) text words compressed_at
          end
  end.

Definition word_bytes (w : Z) : bytes := [u8 (Z.shiftr w 8); u8 (Z.land w 255)].

Definition ParseIpv6Address (text : bytes) : option bytes :=
  if (length text =? 0)%nat then None
  else
    '(offset, compressed_at) ←
      (if byte_at text 0 =? char ":" then
         if (length text <? 2)%nat || negb (byte_at text 1 =? char ":") then None
         else Some (2%nat, 0%nat)
       else Some (0%nat, 8%nat));
    '(words, compressed_at) ← ipv6_loop (length text) offset text [] compressed_at;
    let word_count := length words in
    words ←
      (if (compressed_at =? 8)%nat then
         if negb (word_count =? 8)%nat then None else Some words
       else if (8 <=? word_count)%nat then None
       else Some (take compressed_at words ++ replicate (8 - word_count) 0 ++ drop compressed_at words));
    Some (words ≫= word_bytes).

Record AllowedIp := mk_allowed { al_address : bytes; al_size : nat; al_prefix : Z }.

Definition ParseAllowedIp (text : bytes) : option AllowedIp :=
  slash ← rfind_char text (char "/");
  if (slash =? 0)%nat || (slash + 1 =? length text)%nat then None
  else
    let address := Trim (take slash text) in
    let ipv6 := match find_char address (char ":") with Some _ => true | None => false end in
    prefix ← ParseDecimal (Trim (drop (slash + 1) text)) (if ipv6 then 128 else 32);
    parsed ← (if ipv6 then ParseIpv6Address address else ParseIpv4Address address);
    Some (mk_allowed (write_at (zeros 16) 0 parsed) (if ipv6 then 16 else 4) (u8 prefix)).

Definition PrefixMatches (allowed : AllowedIp) (source : bytes) (source_size : nat) : bool :=
  if negb (al_size allowed =? source_size)%nat then false
  else
    let full_bytes := Z.to_nat (al_prefix allowed / 8) in
    if negb (bool_decide (take full_bytes (al_address allowed) = take full_bytes source)) then false
    else
      let remaining_bits := al_prefix allowed mod 8 in
      if remaining_bits =? 0 then true
      else
        let mask := u8 (Z.shiftl 255 (8 - remaining_bits)) in
        Z.land (byte_at (al_address allowed) full_bytes) mask
        =? Z.land (byte_at source full_bytes) mask.

(** The loop over the comma-separated items. *)
Fixpoint allowed_loop (fuel : nat) (allowed_ips source : bytes) (source_size : nat) : bool :=
  match fuel with
  | O => false
  | S fuel' =>
      if (length allowed_ips =? 0)%nat then false
      else
        let delimiter := find_char allowed_ips (char ",") in
        let item := Trim (match delimiter with
                          | None => allowed_ips
                          | Some d => take d allowed_ips
                          end) in
        if match ParseAllowedIp item with
           | Some allowed => PrefixMatches allowed source source_size
           | None => false
           end then true
        else
          match delimiter with
          | None => false
          | Some d => allowed_loop fuel' (drop (d + 1) allowed_ips) source source_size
          end
  end.

Definition AllowedIpsContainSource (packet allowed_ips : bytes) : bool :=
  match ValidateInnerIpPacket packet with
  | (InnerIp_None, version) =>
      let ipv4 := bool_decide (version = InnerIpVersion_Ipv4) in
      let source := drop (if ipv4 then 12 else 8) packet in
      let source_size := if ipv4 then 4%nat else 16%nat in
      allowed_loop (S (length allowed_ips)) allowed_ips source source_size
  | _ => false
  end.

Example parse_allowed_examples :
  ParseAllowedIp (chars "10.1.0.0/16") = Some (mk_allowed ([10; 1] ++ zeros 14) 4 16) /\
  ParseAllowedIp (chars "fd00::1 / 64") = Some (mk_allowed ([253; 0] ++ zeros 13 ++ [1]) 16 64) /\
  ParseAllowedIp (chars "::/0") = Some (mk_allowed (zeros 16) 16 0) /\
  ParseAllowedIp (chars "10.1.0/16") = None.
Proof. vm_compute. done. Qed.

(** Eight groups followed by a trailing separator are accepted. *)
Example ipv6_trailing_colon :
  ParseIpv6Address (chars "1:2:3:4:5:6:7:8:") = ParseIpv6Address (chars "1:2:3:4:5:6:7:8") /\
  ParseIpv6Address (chars "1:2:3:4:5:6:7:8::") = ParseIpv6Address (chars "1:2:3:4:5:6:7:8") /\
  ParseIpv6Address (chars "1:2:3:4:5:6:7:8") <> None.
Proof. vm_compute. done. Qed.

(** ** The checksum as a sum modulo 65535 *)

(** The sum of the big-endian 16-bit words, the last byte padded with zero. *)
Fixpoint words_sum (data : bytes) : Z :=
  match data with
  | a :: b :: rest => a * 256 + b + words_sum rest
  | [a] => a * 256
  | [] => 0
  end.

Lemma words_ind (P : bytes -> Prop) :
  P [] -> (forall a, P [a]) -> (forall a b l, P l -> P (a :: b :: l)) -> forall l, P l.
Proof.
  intros H0 H1 H2 l. enough (P l /\ forall a, P (a :: l)) by tauto.
  induction l as [|b l [IH1 IH2]]; [by auto|]. split; [done|]. intros. by apply H2.
Qed.

Lemma words_sum_bound data :
  bytes_ok data -> 0 <= words_sum data <= 65535 * ((Z.of_nat (length data) + 1) / 2).
Proof.
  induction data as [|a|a b l IH] using words_ind; intros HB; [done| |].
  - rewrite bytes_ok_cons in HB. destruct HB as [Ha _]. unfold in_width in Ha.
    cbn [words_sum length]. change ((Z.of_nat 1 + 1) / 2) with 1. lia.
  - rewrite !bytes_ok_cons in HB. destruct HB as (Ha & Hb & HB). specialize (IH HB).
    unfold in_width in *. cbn [words_sum length].
    replace (Z.of_nat (S (S (length l))) + 1) with (Z.of_nat (length l) + 1 + 1 * 2) by lia.
    rewrite Z.div_add by lia. lia.
Qed.

Lemma LoadBigEndian16_sum data o :
  bytes_ok data -> LoadBigEndian16 data o = byte_at data o * 256 + byte_at data (o + 1) /\
                   0 <= LoadBigEndian16 data o < 65536.
Proof.
  intros HB. pose proof (byte_at_ok data o HB) as Ha. pose proof (byte_at_ok data (o + 1) HB) as Hb.
  unfold LoadBigEndian16. rewrite Z.lor_comm, lor_shiftl by (done || lia).
  unfold in_width in *. rewrite wrap_id by (unfold in_width; lia). lia.
Qed.

Lemma checksum_loop_sum fuel data offset sum :
  bytes_ok data -> (length data - offset < fuel)%nat -> 0 <= sum ->
  sum + words_sum (drop offset data) < 2 ^ 32 ->
  checksum_loop fuel data offset sum = sum + words_sum (drop offset data).
Proof.
  intros HB. revert offset sum. induction fuel as [|fuel IH]; intros offset sum HF H0 HS; [lia|].
  cbn [checksum_loop]. destruct (Nat.ltb_spec (offset + 1) (length data)) as [H1|H1].
  - destruct (LoadBigEndian16_sum data offset HB) as [EL HL].
    assert (drop offset data = byte_at data offset :: byte_at data (offset + 1) :: drop (offset + 2) data)
      as ED.
    { unfold byte_at. destruct (lookup_lt_is_Some_2 data offset) as [x Hx]; [lia|].
      destruct (lookup_lt_is_Some_2 data (offset + 1)) as [y Hy]; [lia|].
      rewrite Hx, Hy. simpl. rewrite (drop_S _ x) by done. f_equal.
      replace (S offset) with (offset + 1)%nat by lia. rewrite (drop_S _ y) by done.
      by replace (S (offset + 1)) with (offset + 2)%nat by lia. }
    rewrite ED in HS |- *. cbn [words_sum] in HS |- *.
    pose proof (words_sum_bound (drop (offset + 2) data) ltac:(auto with wg)) as HW.
    rewrite wrap_id by (unfold in_width; lia). rewrite IH; lia.
  - destruct (Nat.ltb_spec offset (length data)) as [H2|H2].
    + assert (drop offset data = [byte_at data offset]) as ED.
      { unfold byte_at. destruct (lookup_lt_is_Some_2 data offset) as [x Hx]; [lia|].
        rewrite Hx. rewrite (drop_S _ x) by done. by rewrite drop_ge by lia. }
      rewrite ED in HS |- *. cbn [words_sum] in *. pose proof (byte_at_ok data offset HB) as Hb.
      unfold in_width in Hb. rewrite Z.shiftl_mul_pow2 by lia. change (2 ^ 8) with 256 in *.
      by rewrite wrap_id by (unfold in_width; lia).
    + rewrite drop_ge by lia. simpl. lia.
Qed.

(** One fold keeps the value modulo 65535 and its being zero. *)
Lemma fold_step s :
  0 <= s < 2 ^ 32 ->
  let s' := u32 (Z.land s 65535 + Z.shiftr s 16) in
  s' = s mod 65536 + s / 65536 /\ s' mod 65535 = s mod 65535 /\ (s' = 0 <-> s = 0).
Proof.
  intros Hs s'. assert (s' = s mod 65536 + s / 65536) as E.
  { unfold s'. rewrite (land_mask 16) by lia. rewrite shiftr_div by lia. change (2 ^ 16) with 65536.
    apply wrap_id. unfold in_width. Z.to_euclidean_division_equations; lia. }
  split; [done|]. rewrite E. split.
  - rewrite (Z.div_mod s 65536) at 3 by lia.
    replace (65536 * (s / 65536) + s mod 65536)
      with (s mod 65536 + s / 65536 + (s / 65536) * 65535) by lia.
    by rewrite Z.mod_add by lia.
  - Z.to_euclidean_division_equations; lia.
Qed.

Lemma fold_carries_spec fuel s :
  0 <= s < 2 ^ 32 ->
  let r := fold_carries fuel s in
  r mod 65535 = s mod 65535 /\ (r = 0 <-> s = 0) /\ 0 <= r < 2 ^ 32.
Proof.
  revert s. induction fuel as [|fuel IH]; intros s Hs; cbn [fold_carries]; [tauto|].
  case_if; [|tauto]. destruct (fold_step s Hs) as (E & E1 & E2).
  destruct (IH (u32 (Z.land s 65535 + Z.shiftr s 16))) as (F1 & F2 & F3).
  { rewrite E. Z.to_euclidean_division_equations; lia. }
  split_and!; [congruence|tauto|lia|lia].
Qed.

(** The loop of the C++ stops after at most two folds of a 32-bit sum. *)
Lemma fold_carries_done fuel s : 0 <= s < 2 ^ 32 -> fold_carries (2 + fuel) s < 65536.
Proof.
  intros Hs. cbn [fold_carries Nat.add]. destruct (fold_step s Hs) as (E & _ & _).
  assert (forall t, 0 <= t < 65536 -> forall n, fold_carries n t = t) as HStop.
  { intros t Ht [|n]; [done|]. cbn [fold_carries]. rewrite shiftr_div by lia.
    change (2 ^ 16) with 65536. by rewrite Z.div_small by lia. }
  assert (forall t, Z.shiftr t 16 = t / 65536) as HS by (intros; by rewrite shiftr_div by lia).
  destruct (Z.eqb_spec (Z.shiftr s 16) 0) as [E0|E0]; cbn [negb]; rewrite HS in E0.
  { Z.to_euclidean_division_equations; lia. }
  set (s' := u32 (Z.land s 65535 + Z.shiftr s 16)) in *.
  assert (0 <= s' <= 131070) by (rewrite E; Z.to_euclidean_division_equations; lia).
  destruct (fold_step s') as (E' & _ & _); [lia|].
  destruct (Z.eqb_spec (Z.shiftr s' 16) 0) as [E1|E1]; cbn [negb]; rewrite HS in E1.
  { Z.to_euclidean_division_equations; lia. }
  rewrite HStop; rewrite E'; clear E E'; clearbody s'; Z.to_euclidean_division_equations; lia.
Qed.

Lemma internet_checksum_sum data (HB : bytes_ok data) (HL : Z.of_nat (length data) <= 131072) :
  let folded := fold_carries 3 (checksum_loop (S (length data)) data 0 0) in
  checksum_loop (S (length data)) data 0 0 = words_sum data /\ words_sum data < 2 ^ 32 /\
  0 <= folded < 65536 /\ folded mod 65535 = words_sum data mod 65535 /\ (folded = 0 <-> words_sum data = 0).
Proof.
  pose proof (words_sum_bound data HB) as HW.
  assert (words_sum data < 2 ^ 32) by (Z.to_euclidean_division_equations; lia).
  assert (checksum_loop (S (length data)) data 0 0 = words_sum data) as EC.
  { rewrite checksum_loop_sum; rewrite ?drop_0; done || lia. }
  cbv zeta. rewrite EC. destruct (fold_carries_spec 3 (words_sum data)) as (E1 & E2 & E3); [lia|].
  pose proof (fold_carries_done 1 (words_sum data) ltac:(lia)) as E4. change (2 + 1)%nat with 3%nat in E4.
  split_and!; done || lia.
Qed.
Lemma valid_checksum_sum data (HB : bytes_ok data) (HL : Z.of_nat (length data) <= 131072) :
  HasValidInternetChecksum data = true <-> words_sum data <> 0 /\ words_sum data mod 65535 = 0.
Proof.
  destruct (internet_checksum_sum data HB HL) as (_ & _ & Hr & E1 & E2). unfold HasValidInternetChecksum.
  set (r := fold_carries 3 _) in *. rewrite wrap_id by (unfold in_width; lia). rewrite Z.eqb_eq, <- E1. split.
  - intros Er. split; [rewrite <- E2; lia|by rewrite Er].
  - intros [HN HM]. rewrite <- E2 in HN. Z.to_euclidean_division_equations; lia.
Qed.

(** The header checksum test accepts exactly the byte strings whose 16-bit
    big-endian words (a last odd byte padded with zero) add up to a non-zero
    multiple of 65535, that is to all ones in one's-complement arithmetic; for
    every input of up to 131072 bytes the 32-bit accumulator does not overflow
    and the carry-folding loop stops after at most two rounds. *)
Theorem checksum_exact data (HB : bytes_ok data) (HL : Z.of_nat (length data) <= 131072) :
  (HasValidInternetChecksum data = true <-> words_sum data <> 0 /\ words_sum data mod 65535 = 0) /\
  checksum_loop (S (length data)) data 0 0 = words_sum data /\
  forall fuel, fold_carries (2 + fuel) (words_sum data) < 65536.
Proof.
  destruct (internet_checksum_sum data HB HL) as (EC & Hs & _). split_and!; [by apply valid_checksum_sum|done|].
  intros fuel. apply fold_carries_done. pose proof (words_sum_bound data HB). lia.
Qed.

(** ** Header validation and padding *)

(** A well-formed IPv4 packet: version 4, a header of 20 bytes or more inside the
    packet, the total length equal to the packet's, a correct header checksum. *)
Record ipv4_ok (p : bytes) : Prop := {
  v4_size : (20 <= length p <= 1500)%nat;
  v4_version : byte_at p 0 / 16 = 4;
  v4_header : 20 <= (byte_at p 0 mod 16) * 4 <= Z.of_nat (length p);
  v4_length : byte_at p 2 * 256 + byte_at p 3 = Z.of_nat (length p);
  v4_checksum : words_sum (take (Z.to_nat (byte_at p 0 mod 16 * 4)) p) <> 0 /\
                words_sum (take (Z.to_nat (byte_at p 0 mod 16 * 4)) p) mod 65535 = 0
}.

(** A well-formed IPv6 packet: version 6 and a payload length equal to what
    follows the 40-byte header. *)
Record ipv6_ok (p : bytes) : Prop := {
  v6_size : (40 <= length p <= 1500)%nat;
  v6_version : byte_at p 0 / 16 = 6;
  v6_length : 40 + byte_at p 4 * 256 + byte_at p 5 = Z.of_nat (length p)
}.

Lemma version_nibble p : Z.shiftr (byte_at p 0) 4 = byte_at p 0 / 16.
Proof. by rewrite shiftr_div by lia. Qed.
Lemma header_nibble p : Z.land (byte_at p 0) 15 = byte_at p 0 mod 16.
Proof. by rewrite (land_mask 4) by lia. Qed.

Lemma ValidateInnerIpv4Packet_ok p :
  bytes_ok p -> (ValidateInnerIpv4Packet p = InnerIp_None <-> ipv4_ok p).
Proof.
  intros HB. unfold ValidateInnerIpv4Packet. rewrite version_nibble, header_nibble.
  change MinimumIpv4HeaderSize with 20%nat. change MaxInnerIpPacketSize with 1500%nat.
  pose proof (byte_at_ok p 0 HB) as H0. unfold in_width in H0. change (2 ^ 8) with 256 in H0.
  destruct (LoadBigEndian16_sum p 2 HB) as [EL _]. rewrite EL. change (2 + 1)%nat with 3%nat.
  replace (Z.to_nat (byte_at p 0 mod 16) * 4)%nat with (Z.to_nat (byte_at p 0 mod 16 * 4))
    by (rewrite Z2Nat.inj_mul by (Z.to_euclidean_division_equations; lia); done).
  pose proof (checksum_exact (take (Z.to_nat (byte_at p 0 mod 16 * 4)) p)
    ltac:(auto with wg)) as HC.
  set (h := byte_at p 0 mod 16 * 4) in *.
  assert (0 <= h <= 60) by (unfold h; Z.to_euclidean_division_equations; lia).
  destruct HC as [HC _]; [size_simpl; lia|].
  split.
  - intros E. repeat (case_if_in E; [done|]). bool_prop.
    split; rewrite ?HC in *; fold h; try lia; tauto.
  - intros [V1 V2 V3 V4 V5]. rewrite V2, V4. apply HC in V5. fold h in V3.
    rewrite (proj2 (Nat.ltb_ge _ _)), (proj2 (Nat.ltb_ge _ _)) by lia.
    rewrite (proj2 (Nat.ltb_ge _ _)), (proj2 (Nat.ltb_ge _ _)) by lia.
    by rewrite !Z.eqb_refl, V5.
Qed.

Lemma ValidateInnerIpv6Packet_ok p :
  bytes_ok p -> (ValidateInnerIpv6Packet p = InnerIp_None <-> ipv6_ok p).
Proof.
  intros HB. unfold ValidateInnerIpv6Packet. rewrite version_nibble.
  change Ipv6HeaderSize with 40%nat. change MaxInnerIpPacketSize with 1500%nat.
  destruct (LoadBigEndian16_sum p 4 HB) as [EL _]. rewrite EL. change (4 + 1)%nat with 5%nat.
  split.
  - intros E. repeat (case_if_in E; [done|]). bool_prop. split; lia.
  - intros [V1 V2 V3]. rewrite V2.
    rewrite (proj2 (Nat.ltb_ge _ _)), (proj2 (Nat.ltb_ge _ _)) by lia.
    by rewrite Z.eqb_refl, (proj2 (Z.eqb_eq _ _)) by lia.
Qed.

(** A valid packet of the given version. *)
Definition packet_ok (version : InnerIpVersion) (p : bytes) : Prop :=
  match version with
  | InnerIpVersion_Ipv4 => ipv4_ok p
  | InnerIpVersion_Ipv6 => ipv6_ok p
  | _ => False
  end.

Lemma ValidateInnerIpPacket_ok p version :
  bytes_ok p -> (ValidateInnerIpPacket p = (InnerIp_None, version) <-> packet_ok version p).
Proof.
  intros HB. pose proof (ValidateInnerIpv4Packet_ok p HB) as H4.
  pose proof (ValidateInnerIpv6Packet_ok p HB) as H6.
  unfold ValidateInnerIpPacket. rewrite version_nibble. unfold cast_version.
  destruct (Nat.eqb_spec (length p) 0) as [H0|H0].
  { split; [done|]. destruct version; simpl; try done; intros []; lia. }
  destruct (Z.eqb_spec (byte_at p 0 / 16) 0) as [E0|E0].
  { rewrite bool_decide_false by done. split; [done|].
    destruct version; simpl; try done; intros []; lia. }
  destruct (Z.eqb_spec (byte_at p 0 / 16) 4) as [E4|E4].
  { case_bool_decide as E; split; intros HX.
    - injection HX as _ <-. by apply H4.
    - destruct version; simpl in HX; first [done|by rewrite E|destruct HX; lia].
    - by injection HX as ? _.
    - destruct version; simpl in HX; first [done|by apply H4 in HX|destruct HX; lia]. }
  destruct (Z.eqb_spec (byte_at p 0 / 16) 6) as [E6|E6].
  { case_bool_decide as E; split; intros HX.
    - injection HX as _ <-. by apply H6.
    - destruct version; simpl in HX; first [done|by rewrite E|destruct HX; lia].
    - by injection HX as ? _.
    - destruct version; simpl in HX; first [done|by apply H6 in HX|destruct HX; lia]. }
  rewrite bool_decide_false by done. split; [done|].
  destruct version; simpl; try done; intros []; lia.
Qed.

Lemma all_zero_bytes_zeros data : all_zero_bytes data = true <-> data = zeros (length data).
Proof.
  induction data as [|b data IH]; simpl; [done|].
  rewrite andb_true_iff, Z.eqb_eq, IH. unfold zeros. simpl. split.
  - intros [-> E]. by rewrite <- E.
  - intros [= -> E]. by rewrite <- E.
Qed.

(** The size field of a packet is unaffected by what follows it. *)
Lemma byte_at_app_l (p q : bytes) i : (i < length p)%nat -> byte_at (p ++ q) i = byte_at p i.
Proof. intros. unfold byte_at. by rewrite lookup_app_l. Qed.

Lemma unpadded_size version p q :
  bytes_ok p -> packet_ok version p ->
  GetUnpaddedPacketSize (p ++ q) = length p /\
  cast_version (Z.shiftr (byte_at (p ++ q) 0) 4) = version.
Proof.
  intros HB HP. unfold GetUnpaddedPacketSize. rewrite version_nibble, length_app.
  unfold cast_version.
  assert (forall o, (o + 1 < length p)%nat ->
    LoadBigEndian16 (p ++ q) o = byte_at p o * 256 + byte_at p (o + 1)) as EL.
  { intros o Ho. transitivity (LoadBigEndian16 p o); [|by apply LoadBigEndian16_sum].
    unfold LoadBigEndian16. by rewrite !byte_at_app_l by lia. }
  destruct version; simpl in HP; try done.
  - destruct HP as [V1 V2 V3 V4 V5]. rewrite byte_at_app_l, V2, EL by lia.
    rewrite (proj2 (Nat.eqb_neq _ _)) by lia. cbn -[Z.of_nat].
    rewrite V4. destruct (length p + length q)%nat as [|[|[|[|n]]]] eqn:E; try lia.
    rewrite Nat2Z.id. done.
  - destruct HP as [V1 V2 V3]. rewrite byte_at_app_l, V2 by lia.
    rewrite (proj2 (Nat.eqb_neq _ _)) by lia. cbn -[Z.of_nat Ipv6HeaderSize].
    rewrite (proj2 (Nat.leb_le _ _)) by (change Ipv6HeaderSize with 40%nat; lia).
    rewrite (EL 4%nat) by lia. change (4 + 1)%nat with 5%nat.
    split; [|done]. change Ipv6HeaderSize with 40%nat.
    pose proof (byte_at_ok p 4 HB). pose proof (byte_at_ok p 5 HB). unfold in_width in *. lia.
Qed.

(** Removing transport padding.  A decrypted payload is accepted with packet
    size [n] and IP version [v] exactly when it is a well-formed packet of
    version [v] and [n] bytes followed by at most 15 zero bytes; so the packet
    is determined by the payload, and a rejected payload reports size 0. *)
Theorem padded_exact payload n version (HB : bytes_ok payload) :
  (ValidatePaddedInnerIpPacket payload = (InnerIp_None, n, version) <->
   exists packet pad, payload = packet ++ zeros pad /\ (pad <= 15)%nat /\ length packet = n /\
     packet_ok version packet) /\
  (fst (fst (ValidatePaddedInnerIpPacket payload)) <> InnerIp_None ->
   snd (fst (ValidatePaddedInnerIpPacket payload)) = 0%nat).
Proof.
  unfold ValidatePaddedInnerIpPacket. change MaximumPaddingSize with 15%nat.
  change MaxInnerIpPacketSize with 1500%nat. split; [split|].
  - intros E. case_if_in E; [done|].
    assert (0 < GetUnpaddedPacketSize payload <= length payload /\
            length payload - GetUnpaddedPacketSize payload <= 15)%nat as [Hm Hp].
    { destruct (cast_version _) in E; try done; repeat (case_if_in E; [done|]); bool_prop; lia. }
    set (m := GetUnpaddedPacketSize payload) in *.
    exists (take m payload), (length payload - m)%nat.
    assert (all_zero_bytes (drop m payload) = true /\
            ValidateInnerIpPacket (take m payload) = (InnerIp_None, version) /\ m = n)
      as (HZ & HV & <-).
    { destruct (ValidateInnerIpPacket (take m payload)) as [validation v].
      destruct (decide (validation = InnerIp_None)) as [->|N];
        [rewrite (bool_decide_true (InnerIp_None = _)) in E by done
        |rewrite (bool_decide_false (validation = _)) in E by done]; cbn [negb] in E;
        destruct (cast_version _) in E; try done; repeat (case_if_in E; [done|]); bool_prop;
        injection E; intros; by subst. }
    split_and!; [|lia|rewrite length_take; lia|].
    + rewrite <- (take_drop m payload) at 1. f_equal.
      rewrite (proj1 (all_zero_bytes_zeros _)) by done. by rewrite length_drop.
    + apply ValidateInnerIpPacket_ok; [auto with wg|done].
  - intros (packet & pad & -> & Hpad & <- & HP). apply bytes_ok_app in HB as [HB _].
    destruct (unpadded_size version packet (zeros pad) HB HP) as [ES EV].
    rewrite ES, EV.
    assert (ValidateInnerIpPacket packet = (InnerIp_None, version)) as EP
      by (by apply ValidateInnerIpPacket_ok).
    rewrite length_app, length_zeros, take_app_length, drop_app_length, EP.
    rewrite (proj2 (all_zero_bytes_zeros _)) by (by rewrite length_zeros).
    change MinimumIpv4HeaderSize with 20%nat. change Ipv6HeaderSize with 40%nat.
    destruct version; try done; destruct HP;
      rewrite !(proj2 (Nat.eqb_neq _ _)), !(proj2 (Nat.ltb_ge _ _)) by lia; done.
  - case_if; [done|]. destruct (cast_version _); try done; repeat (case_if; [done|]);
      destruct (ValidateInnerIpPacket _) as [validation v]; case_if; try done; bool_prop; tauto.
Qed.

(** ** Prefix matching, bit by bit *)

(** Bit [i] of an address, the most significant bit of the first byte first. *)
Definition bit_at (data : bytes) (i : nat) : bool :=
  Z.testbit (byte_at data (i / 8)) (7 - Z.of_nat (i mod 8)).

(** What the parser promises about an entry: sixteen address bytes, of which
    [al_size] count, and a prefix that stays within them. *)
Record allowed_ok (a : AllowedIp) : Prop := {
  ao_address : bytes_of 16 (al_address a);
  ao_size : al_size a = 4%nat \/ al_size a = 16%nat;
  ao_prefix : 0 <= al_prefix a <= 8 * Z.of_nat (al_size a)
}.

Lemma byte_bits x y :
  is_byte x -> is_byte y ->
  (x = y <-> forall j, 0 <= j < 8 -> Z.testbit x (7 - j) = Z.testbit y (7 - j)).
Proof.
  intros Hx Hy. split; [by intros ->|]. intros H.
  rewrite <- (wrap_id 8 x), <- (wrap_id 8 y) by done. unfold wrap.
  apply Z.bits_inj'. intros k Hk. destruct (Z.lt_ge_cases k 8).
  - rewrite !Z.mod_pow2_bits_low by lia. specialize (H (7 - k) ltac:(lia)).
    by replace (7 - (7 - k)) with k in H by lia.
  - by rewrite !Z.mod_pow2_bits_high by lia.
Qed.

Lemma mask_testbit r k :
  1 <= r <= 7 -> 0 <= k ->
  Z.testbit (u8 (Z.shiftl 255 (8 - r))) k = ((8 - r <=? k) && (k <? 8)).
Proof.
  intros Hr Hk. unfold wrap. destruct (Z.ltb_spec k 8).
  - rewrite Z.mod_pow2_bits_low, Z.shiftl_spec by lia. rewrite andb_true_r.
    destruct (Z.leb_spec (8 - r) k).
    + change 255 with (Z.ones 8). apply Z.ones_spec_low. lia.
    + apply Z.testbit_neg_r. lia.
  - rewrite Z.mod_pow2_bits_high by lia. by rewrite andb_false_r.
Qed.

Lemma mask_bits r x y :
  1 <= r <= 7 ->
  let mask := u8 (Z.shiftl 255 (8 - r)) in
  (Z.land x mask = Z.land y mask <->
   forall j, 0 <= j < r -> Z.testbit x (7 - j) = Z.testbit y (7 - j)).
Proof.
  intros Hr mask. split.
  - intros E j Hj. apply (f_equal (fun z => Z.testbit z (7 - j))) in E.
    rewrite !Z.land_spec in E. unfold mask in E. rewrite mask_testbit in E by lia.
    rewrite (proj2 (Z.leb_le _ _)), (proj2 (Z.ltb_lt _ _)) in E by lia.
    by rewrite !andb_true_r in E.
  - intros H. apply Z.bits_inj'. intros k Hk. rewrite !Z.land_spec. unfold mask.
    rewrite mask_testbit by lia. destruct (Z.leb_spec (8 - r) k), (Z.ltb_spec k 8);
      rewrite ?andb_false_r, ?andb_true_r; try done.
    specialize (H (7 - k) ltac:(lia)). by replace (7 - (7 - k)) with k in H by lia.
Qed.

Lemma bit_at_split data n j : (j < 8)%nat -> bit_at data (8 * n + j) = Z.testbit (byte_at data n) (7 - Z.of_nat j).
Proof.
  intros. unfold bit_at. replace (8 * n + j)%nat with (j + n * 8)%nat by lia.
  rewrite Nat.div_add, Nat.Div0.mod_add by lia. rewrite Nat.div_small, Nat.mod_small by lia. done.
Qed.

Lemma bit_split i : exists n j, (j < 8)%nat /\ i = (8 * n + j)%nat.
Proof.
  exists (i / 8)%nat, (i mod 8)%nat. split; [apply Nat.mod_upper_bound; lia|].
  apply Nat.div_mod_eq.
Qed.

Lemma take_bits n a b :
  bytes_ok a -> bytes_ok b -> (n <= length a)%nat -> (n <= length b)%nat ->
  (take n a = take n b <-> forall i, (i < 8 * n)%nat -> bit_at a i = bit_at b i).
Proof.
  intros Ha Hb La Lb. split.
  - intros E i Hi. destruct (bit_split i) as (m & j & Hj & ->). rewrite !bit_at_split by done.
    assert (m < n)%nat as Hm by lia. rewrite <- (byte_at_take a n), <- (byte_at_take b n) by done.
    by rewrite E.
  - intros H. apply (list_eq_same_length _ _ n); [rewrite length_take; lia..|].
    intros m x y Hm Ex Ey. rewrite lookup_take_lt in Ex, Ey by done.
    assert (x = byte_at a m) as -> by (unfold byte_at; by rewrite Ex).
    assert (y = byte_at b m) as -> by (unfold byte_at; by rewrite Ey).
    apply byte_bits; [auto with wg..|]. intros j Hj.
    specialize (H (8 * m + Z.to_nat j)%nat ltac:(lia)).
    rewrite !bit_at_split in H by lia. by rewrite Z2Nat.id in H by lia.
Qed.

Lemma PrefixMatches_bits a source size :
  allowed_ok a -> bytes_ok source -> (al_size a <= length source)%nat ->
  (PrefixMatches a source size = true <->
   al_size a = size /\ forall i, (Z.of_nat i < al_prefix a) -> bit_at (al_address a) i = bit_at source i).
Proof.
  intros [[HL HB] HS HP] Hs Ls. unfold PrefixMatches.
  destruct (Nat.eqb_spec (al_size a) size) as [<-|]; cbn [negb]; [|split; [done|tauto]].
  set (n := Z.to_nat (al_prefix a / 8)). set (r := al_prefix a mod 8).
  assert (al_prefix a = 8 * Z.of_nat n + r /\ 0 <= r < 8) as [EP Hr].
  { unfold n, r. Z.to_euclidean_division_equations; lia. }
  assert (n <= al_size a <= 16)%nat as Hn by lia.
  pose proof (take_bits n (al_address a) source HB Hs ltac:(lia) ltac:(lia)) as HT.
  destruct (bool_decide (take n (al_address a) = take n source)) eqn:ET; cbn [negb]; bool_prop.
  - pose proof (proj1 HT ET) as HF. destruct (Z.eqb_spec r 0) as [E0|E0].
    + split; [|done]. intros _. split; [done|]. intros i Hi. apply HF. lia.
    + rewrite Z.eqb_eq, (mask_bits r) by lia. split.
      * intros H. split; [done|]. intros i Hi. destruct (bit_split i) as (m & j & Hj & ->).
        destruct (decide (m = n)) as [->|]; [|apply HF; lia].
        rewrite !bit_at_split by done. apply H. lia.
      * intros [_ H] j Hj. specialize (H (8 * n + Z.to_nat j)%nat ltac:(lia)).
        rewrite !bit_at_split in H by lia. by rewrite Z2Nat.id in H by lia.
  - split; [done|]. intros [_ H]. exfalso. apply ET, HT. intros i Hi. apply H. lia.
Qed.

(** ** What the parsers return *)

Lemma decimal_loop_bound text m parsed v :
  0 <= parsed <= m -> m < 65536 -> decimal_loop text m parsed = Some v -> 0 <= v <= m.
Proof.
  revert parsed. induction text as [|c rest IH]; intros parsed Hp Hm; cbn [decimal_loop].
  - by intros [= <-].
  - case_if; [done|]. case_if; [done|]. bool_prop. apply IH; [|done].
    split; [|done]. apply wrap_width. lia.
Qed.

Lemma ParseDecimal_bound text m v :
  0 <= m < 65536 -> ParseDecimal text m = Some v -> 0 <= v <= m.
Proof.
  intros Hm. unfold ParseDecimal. case_if; [done|]. apply decimal_loop_bound; lia.
Qed.

Lemma ipv4_loop_bytes fuel index offset text out r :
  bytes_ok out -> length out = index -> (index + fuel = 4)%nat ->
  ipv4_loop fuel index offset text out = Some r -> bytes_of 4 r.
Proof.
  revert index offset out. induction fuel as [|fuel IH]; intros index offset out HB HL HF; [done|].
  cbn [ipv4_loop]. destruct (ParseDecimal _ 255) as [v|]; [|done]. cbn [mbind option_bind].
  assert (bytes_ok (out ++ [u8 v])) as HB'.
  { apply bytes_ok_app. split; [done|]. apply bytes_ok_cons. split; [apply wrap_width; lia|constructor]. }
  destruct (Nat.eqb_spec index 3).
  - destruct (find_from _ _ _); [done|]. intros [= <-]. split; [size_simpl; simpl; lia|done].
  - destruct (find_from _ _ _) as [d|]; [|done]. apply IH; [done|size_simpl; simpl; lia|lia].
Qed.

Lemma ipv6_loop_words fuel offset text words c r :
  (length words <= 8)%nat -> (c <= 8)%nat ->
  ipv6_loop fuel offset text words c = Some r -> (length (fst r) <= 8)%nat /\ (snd r <= 8)%nat.
Proof.
  revert offset words c. induction fuel as [|fuel IH]; intros offset words c HW HC; cbn [ipv6_loop].
  - case_if; [done|]. by intros [= <-].
  - case_if; [by intros [= <-]|]. case_if; [done|]. case_if; [done|]. bool_prop.
    destruct (hex_loop _ 0) as [v|]; [|done]. cbn [mbind option_bind].
    assert (length (words ++ [u16 v]) <= 8)%nat by (size_simpl; simpl; lia).
    destruct (find_from _ _ _) as [d|]; [|by intros [= <-]].
    case_if; [case_if; [done|]|]; apply IH; lia.
Qed.

Lemma word_bytes_ok words : bytes_of (2 * length words) (words ≫= word_bytes).
Proof.
  induction words as [|w words [IL IB]]; [split; [done|constructor]|].
  cbn [mbind list_bind]. change (mbind word_bytes words) with (words ≫= word_bytes). split.
  - rewrite length_app, IL. simpl. lia.
  - apply bytes_ok_app. split; [|done]. unfold word_bytes. rewrite !bytes_ok_cons.
    split_and!; [apply wrap_width; lia|apply wrap_width; lia|constructor].
Qed.

Lemma ParseIpv6Address_bytes text r : ParseIpv6Address text = Some r -> bytes_of 16 r.
Proof.
  unfold ParseIpv6Address. case_if; [done|].
  destruct (if byte_at text 0 =? char ":" then _ else _) as [[offset c]|] eqn:EO; [|done].
  assert (c <= 8)%nat by (repeat case_if_in EO; simplify_eq; lia).
  cbn [mbind option_bind]. destruct (ipv6_loop _ _ _ _ _) as [[words c']|] eqn:EL; [|done].
  apply ipv6_loop_words in EL as [HW HC]; [|simpl; lia|done]. simpl in HW, HC.
  cbn [mbind option_bind].
  destruct (if (c' =? 8)%nat then _ else _) as [words'|] eqn:EW; [|done].
  intros [= <-]. pose proof (word_bytes_ok words') as HB.
  assert (length words' = 8)%nat as E8; [|by rewrite E8 in HB].
  repeat case_if_in EW; bool_prop; simplify_eq; [done|].
  size_simpl. lia.
Qed.

Lemma write_zeros_bytes n m l : bytes_of n l -> (n <= m)%nat -> bytes_of m (write_at (zeros m) 0 l).
Proof.
  intros [HL HB] Hn. split.
  - rewrite length_write_at; rewrite length_zeros; lia.
  - unfold write_at. rewrite take_0, !bytes_ok_app. split_and!; [constructor|done|auto with wg].
Qed.

Lemma ParseAllowedIp_ok text a : ParseAllowedIp text = Some a -> allowed_ok a.
Proof.
  unfold ParseAllowedIp. destruct (rfind_char _ _) as [slash|]; [|done]. cbn [mbind option_bind].
  case_if; [done|].
  destruct (find_char (Trim (take slash text)) (char ":")) as [d|];
    (destruct (ParseDecimal _ _) as [p|] eqn:EP; [|done]); cbn [mbind option_bind].
  - destruct (ParseIpv6Address _) as [r|] eqn:ER; [|done]. intros [= <-].
    apply ParseDecimal_bound in EP; [|lia]. apply ParseIpv6Address_bytes in ER.
    split; simpl; [apply (write_zeros_bytes 16); [done|lia]|by right|].
    rewrite wrap_id by (unfold in_width; lia). lia.
  - destruct (ParseIpv4Address _) as [r|] eqn:ER; [|done]. intros [= <-].
    apply ParseDecimal_bound in EP; [|lia].
    apply ipv4_loop_bytes in ER; [|constructor|done|done].
    split; simpl; [apply (write_zeros_bytes 4); [done|lia]|by left|].
    rewrite wrap_id by (unfold in_width; lia). lia.
Qed.

(** The items of a list separated by [separator]. *)
Fixpoint split_on (separator : Z) (text : bytes) : list bytes :=
  match text with
  | [] => [[]]
  | c :: rest =>
      if c =? separator then [] :: split_on separator rest
      else match split_on separator rest with
           | item :: items => (c :: item) :: items
           | [] => [[c]]
           end
  end.

Lemma split_on_find separator text :
  split_on separator text
  = match find_char text separator with
    | None => [text]
    | Some d => take d text :: split_on separator (drop (d + 1) text)
    end.
Proof.
  induction text as [|c rest IH]; [done|]. cbn [split_on find_char].
  destruct (Z.eqb_spec c separator); [done|]. rewrite IH.
  by destruct (find_char rest separator).
Qed.

Lemma find_char_lt text ch d : find_char text ch = Some d -> (d < length text)%nat.
Proof.
  revert d. induction text as [|c rest IH]; intros d; [done|]. cbn [find_char length].
  case_if; [intros [= <-]; lia|]. destruct (find_char rest ch) as [e|]; [|done].
  intros [= <-]. specialize (IH e eq_refl). lia.
Qed.

(** Whether one item of the list admits the source. *)
Definition item_matches (source : bytes) (size : nat) (item : bytes) : bool :=
  match ParseAllowedIp (Trim item) with
  | Some allowed => PrefixMatches allowed source size
  | None => false
  end.

Lemma allowed_loop_split fuel text source size :
  (length text < fuel)%nat ->
  allowed_loop fuel text source size = existsb (item_matches source size) (split_on (char ",") text).
Proof.
  revert text. induction fuel as [|fuel IH]; intros text HF; [lia|]. cbn [allowed_loop].
  destruct (Nat.eqb_spec (length text) 0) as [E0|E0].
  { by destruct text. }
  rewrite split_on_find. destruct (find_char text (char ",")) as [d|] eqn:ED.
  - apply find_char_lt in ED. cbn [existsb]. unfold item_matches at 1.
    rewrite IH by (rewrite length_drop; lia). by case_if.
  - cbn [existsb]. unfold item_matches. rewrite orb_false_r. by case_if.
Qed.

(** The source address field of a packet. *)
Definition source_size (version : InnerIpVersion) : nat :=
  if bool_decide (version = InnerIpVersion_Ipv4) then 4%nat else 16%nat.
Definition source_of (version : InnerIpVersion) (packet : bytes) : bytes :=
  drop (if bool_decide (version = InnerIpVersion_Ipv4) then 12 else 8)%nat packet.

Lemma source_room version packet :
  packet_ok version packet -> (source_size version <= length (source_of version packet))%nat.
Proof.
  unfold source_size, source_of. rewrite length_drop.
  destruct version; simpl; try done; intros []; lia.
Qed.

(** A packet passes the AllowedIPs check exactly when it is a well-formed
    IPv4 or IPv6 packet and some comma-separated item of the configuration
    parses to an entry of the same address family whose first [prefix] bits are
    the first [prefix] bits of the packet's source address.  Every entry that
    parses has a prefix within its address, so the comparison reads no byte
    outside the entry or the source field. *)
Theorem allowed_source_exact packet allowed_ips (HB : bytes_ok packet) :
  (AllowedIpsContainSource packet allowed_ips = true <->
   exists version item a, packet_ok version packet /\
     item ∈ split_on (char ",") allowed_ips /\ ParseAllowedIp (Trim item) = Some a /\
     al_size a = source_size version /\
     forall i, Z.of_nat i < al_prefix a ->
       bit_at (al_address a) i = bit_at (source_of version packet) i) /\
  (forall item a, ParseAllowedIp item = Some a -> allowed_ok a).
Proof.
  split; [|exact ParseAllowedIp_ok].
  assert (forall version item, packet_ok version packet ->
    (item_matches (source_of version packet) (source_size version) item = true <->
     exists a, ParseAllowedIp (Trim item) = Some a /\ al_size a = source_size version /\
       forall i, Z.of_nat i < al_prefix a ->
         bit_at (al_address a) i = bit_at (source_of version packet) i)) as HI.
  { intros version item HP. unfold item_matches.
    destruct (ParseAllowedIp (Trim item)) as [a|] eqn:EA; [|split; [done|by intros (? & ? & _)]].
    pose proof (source_room version packet HP) as HR.
    destruct (decide (al_size a = source_size version)) as [ES|NS].
    - rewrite PrefixMatches_bits; [|by eapply ParseAllowedIp_ok|by apply bytes_ok_drop|by rewrite ES].
      split; [intros [? ?]; eauto|]. by intros (? & [= <-] & ? & ?).
    - unfold PrefixMatches. rewrite (proj2 (Nat.eqb_neq _ _)) by done. cbn [negb].
      split; [done|]. by intros (? & [= <-] & ? & _). }
  unfold AllowedIpsContainSource.
  destruct (ValidateInnerIpPacket packet) as [e version] eqn:EV.
  destruct e; try (split; [done|]; intros (v & item & a & HP & _);
                   apply (ValidateInnerIpPacket_ok _ _ HB) in HP; congruence).
  pose proof EV as HP. apply (ValidateInnerIpPacket_ok _ _ HB) in HP.
  change (if bool_decide (version = InnerIpVersion_Ipv4) then 4%nat else 16%nat)
    with (source_size version).
  rewrite allowed_loop_split by lia. rewrite existsb_exists. split.
  - intros (item & Hin & HM). apply list_elem_of_In in Hin. apply (HI version item HP) in HM
      as (a & ? & ? & ?). eauto 10.
  - intros (v & item & a & HPv & Hin & HM). apply (ValidateInnerIpPacket_ok _ _ HB) in HPv.
    assert (v = version) as -> by congruence. exists item. split; [by apply list_elem_of_In|].
    apply (HI version item HP). eauto.
Qed.

(** A 20-byte IPv4 header from 10.1.0.2 to 10.1.0.1. *)
Definition sample_packet : bytes := [69; 0; 0; 20; 0; 0; 0; 0; 64; 17; 102; 213; 10; 1; 0; 2; 10; 1; 0; 1].

Lemma sample_packet_bytes : bytes_ok sample_packet.
Proof. apply (bool_decide_unpack _). vm_compute. exact I. Qed.

Lemma checksum_exact_witness :
  HasValidInternetChecksum sample_packet = true /\ words_sum sample_packet mod 65535 = 0.
Proof.
  split; [vm_compute; reflexivity|].
  apply (checksum_exact sample_packet sample_packet_bytes); [vm_compute; done|vm_compute; reflexivity].
Defined.

Lemma padded_exact_witness :
  exists packet pad, sample_packet ++ zeros 12 = packet ++ zeros pad /\ (pad <= 15)%nat /\
    length packet = 20%nat /\ packet_ok InnerIpVersion_Ipv4 packet.
Proof.
  apply (padded_exact (sample_packet ++ zeros 12) 20 InnerIpVersion_Ipv4).
  - apply bytes_ok_app. split; [exact sample_packet_bytes|apply bytes_ok_zeros].
  - vm_compute. reflexivity.
Defined.

Lemma allowed_source_exact_witness :
  exists version item a, packet_ok version sample_packet /\
    item ∈ split_on (char ",") (chars "fd00::/8, 10.1.0.0/16") /\
    ParseAllowedIp (Trim item) = Some a /\ al_size a = source_size version /\
    forall i, Z.of_nat i < al_prefix a ->
      bit_at (al_address a) i = bit_at (source_of version sample_packet) i.
Proof.
  apply (allowed_source_exact sample_packet (chars "fd00::/8, 10.1.0.0/16") sample_packet_bytes).
  vm_compute. reflexivity.
Defined.
