(* ===== verification/Timers.v ===== *)
(** * Protocol timers

    Models [wireguard/timers.cpp] (the per-peer timer intent),
    [wireguard/timer_coordinator.cpp] (generation-checked tokens) and
    [runtime/timer_schedule.cpp] (armed and queued expirations).  Expirations
    run asynchronously, so the question is which of them may still act:
    [token_current_exact] says that a token is current from its [Arm] until the
    next operation on its hook, and [deliveries_bounded] that the schedule
    delivers a token no more often than it was armed. *)

From S2P Require Import Prelude Platform Session.
Local Open Scope Z_scope.

Inductive TimerHook :=
  | TimerHook_RetransmitHandshake
  | TimerHook_SendKeepalive
  | TimerHook_NewHandshake
  | TimerHook_ZeroKeyMaterial
  | TimerHook_PersistentKeepalive.
#[export] Instance TimerHook_eq_dec : EqDecision TimerHook.
Proof. solve_decision. Defined.

(** ** Timer intent ([wg_timers]); deadlines are in milliseconds *)

Record wg_timer_hook_state := mk_hook_intent { th_pending : bool; th_deadline : Z }.
#[export] Instance eta_hook_intent : Eta wg_timer_hook_state := fun r =>
  mk_hook_intent (th_pending r) (th_deadline r).
Definition hook_intent_init : wg_timer_hook_state := mk_hook_intent false 0.

Record wg_timers := mk_timers {
  retransmit_handshake : wg_timer_hook_state;
  send_keepalive : wg_timer_hook_state;
  new_handshake : wg_timer_hook_state;
  zero_key_material : wg_timer_hook_state;
  persistent_keepalive : wg_timer_hook_state;
  need_another_keepalive : bool
}.
#[export] Instance eta_timers : Eta wg_timers := fun r =>
  mk_timers (retransmit_handshake r) (send_keepalive r) (new_handshake r) (zero_key_material r)
    (persistent_keepalive r) (need_another_keepalive r).
Definition timers_init : wg_timers :=
  mk_timers hook_intent_init hook_intent_init hook_intent_init hook_intent_init hook_intent_init false.

Definition GetHookState (hook : TimerHook) (timers : wg_timers) : wg_timer_hook_state :=
  match hook with
  | TimerHook_RetransmitHandshake => retransmit_handshake timers
  | TimerHook_SendKeepalive => send_keepalive timers
  | TimerHook_NewHandshake => new_handshake timers
  | TimerHook_ZeroKeyMaterial => zero_key_material timers
  | TimerHook_PersistentKeepalive => persistent_keepalive timers
  end.

(** Writing through the pointer [GetHookState] returns. *)
Definition SetHookState (hook : TimerHook) (state : wg_timer_hook_state) (timers : wg_timers)
    : wg_timers :=
  match hook with
  | TimerHook_RetransmitHandshake => timers <| retransmit_handshake := state |>
  | TimerHook_SendKeepalive => timers <| send_keepalive := state |>
  | TimerHook_NewHandshake => timers <| new_handshake := state |>
  | TimerHook_ZeroKeyMaterial => timers <| zero_key_material := state |>
  | TimerHook_PersistentKeepalive => timers <| persistent_keepalive := state |>
  end.

Definition wg_timers_init : wg_timers := timers_init.

Definition wg_timers_schedule (hook : TimerHook) (deadline : Z) (timers : wg_timers) : wg_timers :=
  SetHookState hook ((GetHookState hook timers) <| th_pending := true |> <| th_deadline := deadline |>)
    timers.

Definition wg_timers_cancel (hook : TimerHook) (timers : wg_timers) : wg_timers :=
  let state := GetHookState hook timers in
  if negb (th_pending state) then timers
  else SetHookState hook (state <| th_pending := false |> <| th_deadline := 0 |>) timers.

Definition wg_timers_cancel_all (timers : wg_timers) : wg_timers :=
  let timers := wg_timers_cancel TimerHook_RetransmitHandshake timers in
  let timers := wg_timers_cancel TimerHook_SendKeepalive timers in
  let timers := wg_timers_cancel TimerHook_NewHandshake timers in
  let timers := wg_timers_cancel TimerHook_ZeroKeyMaterial timers in
  let timers := wg_timers_cancel TimerHook_PersistentKeepalive timers in
  timers <| need_another_keepalive := false |>.

Definition wg_timers_any_pending (timers : wg_timers) : bool :=
  th_pending (GetHookState TimerHook_RetransmitHandshake timers)
  || th_pending (GetHookState TimerHook_SendKeepalive timers)
  || th_pending (GetHookState TimerHook_NewHandshake timers)
  || th_pending (GetHookState TimerHook_ZeroKeyMaterial timers)
  || th_pending (GetHookState TimerHook_PersistentKeepalive timers).

(** In milliseconds. *)
Definition GetHandshakeRetryDelay (jitter_ms : Z) : Z :=
  RekeyTimeout / 1000000 + jitter_ms mod RekeyTimeoutJitterMaxMs.

(** ** Tokens ([TimerCoordinator]) *)

Record TimerOwner := mk_owner {
  ow_peer_index : Z;
  ow_activation_generation : Z;
  ow_protocol_sequence : Z
}.
#[export] Instance TimerOwner_eq_dec : EqDecision TimerOwner.
Proof. solve_decision. Defined.

Record TimerToken := mk_token {
  tk_hook : TimerHook;
  tk_owner : TimerOwner;
  tk_generation : Z
}.
#[export] Instance TimerToken_eq_dec : EqDecision TimerToken.
Proof. solve_decision. Defined.
Definition token_init : TimerToken := mk_token TimerHook_RetransmitHandshake (mk_owner 0 0 0) 0.
Definition token_IsValid (token : TimerToken) : bool := negb (tk_generation token =? 0).

Record HookState := mk_hook_state { hs_token : TimerToken; hs_armed : bool }.
Definition hook_state_init : HookState := mk_hook_state token_init false.

Definition HookCount : nat := 5.

Definition HookIndex (hook : TimerHook) : nat :=
  match hook with
  | TimerHook_RetransmitHandshake => 0
  | TimerHook_SendKeepalive => 1
  | TimerHook_NewHandshake => 2
  | TimerHook_ZeroKeyMaterial => 3
  | TimerHook_PersistentKeepalive => 4
  end.

Record TimerCoordinator := mk_coordinator {
  m_hooks : list HookState;
  m_next_generation : Z
}.
#[export] Instance eta_coordinator : Eta TimerCoordinator := fun r =>
  mk_coordinator (m_hooks r) (m_next_generation r).
Definition coordinator_init : TimerCoordinator :=
  mk_coordinator (replicate HookCount hook_state_init) 1.

Definition hook_at (c : TimerCoordinator) (hook : TimerHook) : HookState :=
  default hook_state_init (m_hooks c !! HookIndex hook).

(** The recursive call happens only for generation 0, after which the counter is
    at least 1, so it nests at most once. *)
Fixpoint NextGeneration_loop (fuel : nat) (c : TimerCoordinator) : Z * TimerCoordinator :=
  let generation := m_next_generation c in
  let c := c <| m_next_generation ::= fun g => u32 (g + 1) |> in
  let c := if m_next_generation c =? 0 then c <| m_next_generation := 1 |> else c in
  match fuel with
  | O => (generation, c)
  | S fuel' => if generation =? 0 then NextGeneration_loop fuel' c else (generation, c)
  end.
Definition NextGeneration : TimerCoordinator -> Z * TimerCoordinator := NextGeneration_loop 1.

Definition Coordinator_Arm (hook : TimerHook) (owner : TimerOwner) (c : TimerCoordinator)
    : TimerToken * TimerCoordinator :=
  let '(generation, c) := NextGeneration c in
  let token := mk_token hook owner generation in
  (token, c <| m_hooks ::= <[HookIndex hook := mk_hook_state token true]> |>).

Definition Coordinator_Cancel (hook : TimerHook) (c : TimerCoordinator)
    : TimerToken * TimerCoordinator :=
  let state := hook_at c hook in
  let canceled := if hs_armed state then hs_token state else token_init in
  let c := c <| m_hooks ::= <[HookIndex hook := hook_state_init]> |> in
  let '(_, c) := NextGeneration c in
  (canceled, c).

Definition Coordinator_CancelAll (c : TimerCoordinator) : TimerCoordinator :=
  let c := c <| m_hooks ::= fmap (fun _ => hook_state_init) |> in
  snd (NextGeneration c).

Definition Coordinator_IsCurrent (token : TimerToken) (current_owner : TimerOwner)
    (c : TimerCoordinator) : bool :=
  if negb (token_IsValid token) || negb (bool_decide (tk_owner token = current_owner)) then false
  else
    let state := hook_at c (tk_hook token) in
    hs_armed state && bool_decide (hs_token state = token).

Definition Coordinator_IsArmed (hook : TimerHook) (c : TimerCoordinator) : bool :=
  hs_armed (hook_at c hook).

(** ** Expirations ([TimerSchedule]) *)

Record Slot := mk_slot {
  sl_armed_token : TimerToken;
  sl_queued_token : TimerToken;
  sl_deadline : Z;
  sl_armed : bool
}.
#[export] Instance eta_slot : Eta Slot := fun r =>
  mk_slot (sl_armed_token r) (sl_queued_token r) (sl_deadline r) (sl_armed r).
Definition slot_init : Slot := mk_slot token_init token_init 0 false.

Abbreviation TimerSchedule := (list Slot).
Definition schedule_init : TimerSchedule := replicate HookCount slot_init.

Definition slot_at (s : TimerSchedule) (hook : TimerHook) : Slot :=
  default slot_init (s !! HookIndex hook).
Definition set_slot (hook : TimerHook) (slot : Slot) (s : TimerSchedule) : TimerSchedule :=
  <[HookIndex hook := slot]> s.

Definition Schedule_Arm (token : TimerToken) (deadline : Z) (s : TimerSchedule)
    : bool * TimerSchedule :=
  if negb (token_IsValid token) then (false, s)
  else
    let slot := slot_at s (tk_hook token) in
    (true, set_slot (tk_hook token)
             (slot <| sl_armed_token := token |> <| sl_deadline := deadline |> <| sl_armed := true |>) s).

Definition Schedule_CancelHook (hook : TimerHook) (s : TimerSchedule) : TimerSchedule :=
  let slot := slot_at s hook in
  set_slot hook (slot <| sl_armed_token := token_init |> <| sl_deadline := 0 |> <| sl_armed := false |>) s.

Definition Schedule_Cancel (token : TimerToken) (s : TimerSchedule) : bool * TimerSchedule :=
  if negb (token_IsValid token) then (false, s)
  else
    let slot := slot_at s (tk_hook token) in
    if negb (sl_armed slot) || negb (bool_decide (sl_armed_token slot = token)) then (false, s)
    else (true, Schedule_CancelHook (tk_hook token) s).

Definition Schedule_CancelAll (s : TimerSchedule) : TimerSchedule :=
  (fun slot => slot <| sl_armed_token := token_init |> <| sl_deadline := 0 |>
                    <| sl_armed := false |>) <$> s.

Definition Schedule_CaptureExpiration (hook : TimerHook) (s : TimerSchedule) : bool * TimerSchedule :=
  let slot := slot_at s hook in
  if negb (sl_armed slot) then (false, s)
  else
    (true, set_slot hook (slot <| sl_queued_token := sl_armed_token slot |>
                            <| sl_armed_token := token_init |> <| sl_deadline := 0 |>
                            <| sl_armed := false |>) s).

Definition Schedule_TakeDelivery (hook : TimerHook) (s : TimerSchedule) : TimerToken * TimerSchedule :=
  let slot := slot_at s hook in
  (sl_queued_token slot, set_slot hook (slot <| sl_queued_token := token_init |>) s).

(** ** Generations *)

Definition generation_ok (g : Z) : Prop := 1 <= g <= 2 ^ 32 - 1.

(** The [k]-th generation after [g], in the cycle [1 .. 2^32 - 1]. *)
Definition generation_after (g k : Z) : Z := (g - 1 + k) mod (2 ^ 32 - 1) + 1.

Lemma NextGeneration_spec c :
  generation_ok (m_next_generation c) ->
  NextGeneration c
  = (m_next_generation c, c <| m_next_generation := generation_after (m_next_generation c) 1 |>).
Proof.
  unfold generation_ok. intros Hg. unfold NextGeneration. cbn [NextGeneration_loop].
  rewrite (proj2 (Z.eqb_neq (m_next_generation c) 0)) by lia. f_equal.
  destruct c as [hooks g]. unfold upd. simpl in *. unfold generation_after, wrap.
  replace (g - 1 + 1) with g by lia.
  destruct (Z.eq_dec g (2 ^ 32 - 1)) as [->|]; [done|].
  rewrite !Z.mod_small by lia. rewrite (proj2 (Z.eqb_neq (g + 1) 0)) by lia. done.
Qed.

Lemma generation_after_ok g k : generation_ok (generation_after g k).
Proof. unfold generation_ok, generation_after. pose proof (Z.mod_pos_bound (g - 1 + k) (2 ^ 32 - 1)). lia. Qed.

Lemma generation_after_add g k : generation_after (generation_after g k) 1 = generation_after g (k + 1).
Proof.
  unfold generation_after. f_equal.
  replace ((g - 1 + k) mod (2 ^ 32 - 1) + 1 - 1 + 1) with ((g - 1 + k) mod (2 ^ 32 - 1) + 1) by lia.
  rewrite Zplus_mod_idemp_l. f_equal. lia.
Qed.

Lemma generation_after_fresh g k :
  generation_ok g -> 0 < k < 2 ^ 32 - 1 -> generation_after g k <> g.
Proof.
  unfold generation_ok, generation_after. intros Hg Hk.
  destruct (Z.lt_ge_cases (g - 1 + k) (2 ^ 32 - 1)).
  - rewrite Z.mod_small by lia. lia.
  - replace (g - 1 + k) with (g - 1 + k - (2 ^ 32 - 1) + 1 * (2 ^ 32 - 1)) by lia.
    rewrite Z.mod_add, Z.mod_small by lia. lia.
Qed.

Lemma HookIndex_inj h h' : HookIndex h = HookIndex h' -> h = h'.
Proof. by destruct h, h'. Qed.
Lemma HookIndex_lt h : (HookIndex h < HookCount)%nat.
Proof. destruct h; simpl; unfold HookCount; lia. Qed.

(** ** Sequences of coordinator operations *)

Inductive coordinator_op :=
  | OpArm (hook : TimerHook) (owner : TimerOwner)
  | OpCancelHook (hook : TimerHook)
  | OpCancelAllHooks.

Definition coordinator_step (c : TimerCoordinator) (op : coordinator_op) : TimerCoordinator :=
  match op with
  | OpArm hook owner => snd (Coordinator_Arm hook owner c)
  | OpCancelHook hook => snd (Coordinator_Cancel hook c)
  | OpCancelAllHooks => Coordinator_CancelAll c
  end.

(** Whether an operation replaces or clears the token of [hook]. *)
Definition touches (hook : TimerHook) (op : coordinator_op) : bool :=
  match op with
  | OpArm h _ | OpCancelHook h => bool_decide (h = hook)
  | OpCancelAllHooks => true
  end.

Definition coordinator_ok (c : TimerCoordinator) : Prop :=
  length (m_hooks c) = HookCount /\ generation_ok (m_next_generation c).

Lemma hook_at_insert hooks g h h' st :
  length hooks = HookCount ->
  hook_at (mk_coordinator (<[HookIndex h := st]> hooks) g) h'
  = if decide (h = h') then st else hook_at (mk_coordinator hooks g) h'.
Proof.
  intros HL. unfold hook_at. simpl. case_decide as E.
  - subst. rewrite list_lookup_insert_eq; [done|]. rewrite HL. apply HookIndex_lt.
  - rewrite list_lookup_insert_ne; [done|]. intros F. by apply HookIndex_inj in F.
Qed.

(** One step consumes one generation, keeps the hooks it does not touch, and
    leaves in a touched hook no token or one with the consumed generation. *)
Lemma coordinator_step_spec c op h :
  coordinator_ok c ->
  let c' := coordinator_step c op in
  coordinator_ok c' /\
  m_next_generation c' = generation_after (m_next_generation c) 1 /\
  (touches h op = false -> hook_at c' h = hook_at c h) /\
  (touches h op = true ->
   hs_armed (hook_at c' h) = false \/
   tk_generation (hs_token (hook_at c' h)) = m_next_generation c).
Proof.
  intros [HL HG] c'. pose proof (generation_after_ok (m_next_generation c) 1) as HG'.
  destruct c as [hooks g]. simpl in *. subst c'.
  destruct op as [h' owner|h'|]; cbn [coordinator_step touches].
  - unfold Coordinator_Arm. rewrite NextGeneration_spec by done.
    unfold upd. cbn -[hook_at].
    rewrite hook_at_insert by done. split; [split; [simpl; by rewrite length_insert|done]|].
    split; [done|]. split.
    + intros E%bool_decide_eq_false. by rewrite decide_False.
    + intros E%bool_decide_eq_true. rewrite decide_True by done. by right.
  - unfold Coordinator_Cancel. rewrite NextGeneration_spec by done.
    unfold upd. cbn -[hook_at].
    rewrite hook_at_insert by done. split; [split; [simpl; by rewrite length_insert|done]|].
    split; [done|]. split.
    + intros E%bool_decide_eq_false. by rewrite decide_False.
    + intros E%bool_decide_eq_true. rewrite decide_True by done. by left.
  - unfold Coordinator_CancelAll. rewrite NextGeneration_spec by done.
    unfold upd. cbn -[hook_at].
    split; [split; [simpl; by rewrite length_fmap|done]|].
    split; [done|]. split; [done|]. intros _. left.
    unfold hook_at. simpl. rewrite list_lookup_fmap. by destruct (hooks !! _).
Qed.

Lemma run_coordinator g h owner ops k c :
  coordinator_ok c -> generation_ok g ->
  m_next_generation c = generation_after g k -> 0 < k ->
  k + Z.of_nat (length ops) <= 2 ^ 32 - 1 ->
  forall dead, (if (dead : bool) then
     hs_armed (hook_at c h) = false \/ tk_generation (hs_token (hook_at c h)) <> g
   else hook_at c h = mk_hook_state (mk_token h owner g) true) ->
  Coordinator_IsCurrent (mk_token h owner g) owner (foldl coordinator_step c ops)
  = negb (dead || existsb (touches h) ops).
Proof.
  intros HC Hg HN Hk. revert k c HC HN Hk. induction ops as [|op ops IH]; intros k c HC HN Hk HL dead HD.
  - cbn [foldl existsb]. rewrite orb_false_r. unfold Coordinator_IsCurrent, token_IsValid.
    cbn [tk_generation tk_owner tk_hook]. rewrite (proj2 (Z.eqb_neq g 0)), bool_decide_true
      by (done || (unfold generation_ok in Hg; lia)). cbn [negb orb].
    destruct dead; cbn [negb].
    + destruct HD as [->|HD]; [done|]. apply andb_false_iff. right. apply bool_decide_eq_false.
      intros E. by rewrite E in HD.
    + rewrite HD. by rewrite bool_decide_true.
  - cbn [foldl existsb].
    destruct (coordinator_step_spec c op h HC) as (HC' & HN' & HK & HT).
    rewrite HN, generation_after_add in HN'. cbn [length] in HL.
    rewrite (IH (k + 1) _ HC' HN' ltac:(lia) ltac:(lia) (dead || touches h op)).
    { by rewrite orb_assoc. }
    destruct (touches h op) eqn:ET; [rewrite orb_true_r|rewrite orb_false_r].
    + destruct (HT eq_refl) as [?|E]; [by left|right]. rewrite E, HN.
      apply generation_after_fresh; [done|lia].
    + by rewrite HK.
Qed.

(** ** Sequences of schedule operations *)

Inductive schedule_op :=
  | OpSchedArm (token : TimerToken) (deadline : Z)
  | OpSchedCancel (token : TimerToken)
  | OpSchedCancelHook (hook : TimerHook)
  | OpSchedCancelAll
  | OpSchedCapture (hook : TimerHook)
  | OpSchedTake (hook : TimerHook).

(** The token an operation arms, and the one it delivers (an invalid token is
    the C++'s "nothing to deliver"). *)
Definition valid_only (token : TimerToken) : list TimerToken :=
  if token_IsValid token then [token] else [].
Definition armed_by (op : schedule_op) : list TimerToken :=
  match op with OpSchedArm token _ => valid_only token | _ => [] end.

Definition schedule_step (s : TimerSchedule) (op : schedule_op) : list TimerToken * TimerSchedule :=
  match op with
  | OpSchedArm token deadline => ([], snd (Schedule_Arm token deadline s))
  | OpSchedCancel token => ([], snd (Schedule_Cancel token s))
  | OpSchedCancelHook hook => ([], Schedule_CancelHook hook s)
  | OpSchedCancelAll => ([], Schedule_CancelAll s)
  | OpSchedCapture hook => ([], snd (Schedule_CaptureExpiration hook s))
  | OpSchedTake hook =>
      let '(token, s) := Schedule_TakeDelivery hook s in (valid_only token, s)
  end.

Fixpoint schedule_run (s : TimerSchedule) (ops : list schedule_op) : list TimerToken * TimerSchedule :=
  match ops with
  | [] => ([], s)
  | op :: rest =>
      let '(delivered, s') := schedule_step s op in
      let '(more, s'') := schedule_run s' rest in
      (delivered ++ more, s'')
  end.

(** The tokens a schedule still holds. *)
Definition slot_tokens (slot : Slot) : list TimerToken :=
  valid_only (sl_queued_token slot) ++ (if sl_armed slot then valid_only (sl_armed_token slot) else []).
Definition held (s : TimerSchedule) : list TimerToken := s ≫= slot_tokens.

Lemma held_set_slot s hook slot' extra gone :
  length s = HookCount ->
  gone ++ slot_tokens slot' ⊆+ slot_tokens (slot_at s hook) ++ extra ->
  gone ++ held (set_slot hook slot' s) ⊆+ held s ++ extra.
Proof.
  intros HL HS. unfold held, set_slot, slot_at in *.
  destruct (lookup_lt_is_Some_2 s (HookIndex hook)) as [slot Hslot].
  { rewrite HL. apply HookIndex_lt. }
  rewrite Hslot in HS. simpl in HS.
  rewrite insert_take_drop by (rewrite HL; apply HookIndex_lt).
  rewrite <- (take_drop_middle s (HookIndex hook) slot) at 3 by done.
  rewrite !bind_app, !bind_cons.
  transitivity ((take (HookIndex hook) s ≫= slot_tokens) ++
                (gone ++ slot_tokens slot') ++ (drop (S (HookIndex hook)) s ≫= slot_tokens)).
  { apply Permutation_submseteq. rewrite <- app_assoc, !app_assoc.
    f_equiv. f_equiv. by rewrite (Permutation_app_comm gone). }
  etransitivity; [by apply submseteq_app, submseteq_app|].
  apply Permutation_submseteq. rewrite <- !app_assoc. do 2 f_equiv.
  apply Permutation_app_comm.
Qed.

Lemma held_cancel_all s : held (Schedule_CancelAll s) ⊆+ held s.
Proof.
  unfold held, Schedule_CancelAll. induction s as [|slot s IH]; [done|].
  rewrite fmap_cons, !bind_cons. apply submseteq_app; [|done].
  unfold slot_tokens. simpl. apply submseteq_app; [done|apply submseteq_nil_l].
Qed.

Lemma submseteq_tail {A} (l k : list A) : l ⊆+ (l ++ k) ++ [].
Proof. rewrite app_nil_r. apply submseteq_inserts_r. done. Qed.

Lemma schedule_step_held s op :
  length s = HookCount ->
  fst (schedule_step s op) ++ held (snd (schedule_step s op)) ⊆+ held s ++ armed_by op /\
  length (snd (schedule_step s op)) = HookCount.
Proof.
  intros HL.
  assert (forall hook slot, length (set_slot hook slot s) = HookCount) as HSL.
  { intros. unfold set_slot. by rewrite length_insert. }
  assert (forall hook, held (Schedule_CancelHook hook s) ⊆+ held s) as HC.
  { intros hook. rewrite <- (app_nil_r (held s)). apply (held_set_slot s hook _ [] []); [done|].
    unfold slot_tokens. simpl. rewrite app_nil_r. apply submseteq_tail. }
  assert (held s ⊆+ held s ++ []) as HR by by rewrite app_nil_r.
  destruct op as [token deadline|token|hook| |hook|hook]; cbn [schedule_step fst snd armed_by app].
  - unfold Schedule_Arm, valid_only. destruct (token_IsValid token) eqn:EV; cbn [negb snd]; [|done].
    split; [|done]. apply (held_set_slot s _ _ [token] []); [done|].
    unfold slot_tokens, valid_only. simpl. rewrite EV. simpl.
    rewrite <- app_assoc. apply submseteq_app; [done|]. apply submseteq_inserts_l. done.
  - unfold Schedule_Cancel. case_if; [done|]. case_if; [done|]. cbn [snd]. rewrite app_nil_r.
    split; [apply HC|apply HSL].
  - rewrite app_nil_r. split; [apply HC|apply HSL].
  - rewrite app_nil_r. split; [apply held_cancel_all|]. unfold Schedule_CancelAll.
    by rewrite length_fmap.
  - unfold Schedule_CaptureExpiration. destruct (sl_armed (slot_at s hook)) eqn:EA; [|done].
    cbn [negb snd]. split; [|apply HSL]. apply (held_set_slot s hook _ [] []); [done|].
    unfold slot_tokens. simpl. rewrite EA, !app_nil_r. apply submseteq_inserts_l. done.
  - unfold Schedule_TakeDelivery. cbn [fst snd]. split; [|apply HSL].
    apply held_set_slot; [done|]. unfold slot_tokens. simpl. by rewrite app_nil_r.
Qed.

Lemma schedule_run_held s ops :
  length s = HookCount ->
  fst (schedule_run s ops) ++ held (snd (schedule_run s ops)) ⊆+ held s ++ (ops ≫= armed_by).
Proof.
  revert s. induction ops as [|op ops IH]; intros s HL.
  { simpl. by rewrite app_nil_r. }
  cbn [schedule_run]. destruct (schedule_step_held s op HL) as [HS HL'].
  destruct (schedule_step s op) as [delivered s']. specialize (IH s' HL'). simpl in *.
  destruct (schedule_run s' ops) as [more s'']. simpl in *.
  rewrite <- app_assoc. etransitivity; [by apply submseteq_app|].
  rewrite !app_assoc. by apply submseteq_app.
Qed.

(** ** Properties *)

(** Stale timer tokens never act.  Take any coordinator reached from the
    initial one, arm a hook and perform any further operations (fewer than
    [2^32 - 1]): the armed token is current for an owner exactly when that is the
    owner it was armed for and no later operation armed or cancelled the same
    hook or cancelled all hooks. *)
Theorem token_current_exact before hook owner current_owner ops
    (H : Z.of_nat (length ops) < 2 ^ 32 - 1) :
  let c := foldl coordinator_step coordinator_init before in
  let '(token, c1) := Coordinator_Arm hook owner c in
  Coordinator_IsCurrent token current_owner (foldl coordinator_step c1 ops)
  = bool_decide (current_owner = owner) && negb (existsb (touches hook) ops).
Proof.
  intros c. assert (coordinator_ok c) as HC.
  { unfold c. assert (coordinator_ok coordinator_init) as H0 by (split; [done|split; vm_compute; done]).
    revert H0. generalize coordinator_init. induction before as [|op before IH]; intros c0 H0; [done|].
    apply IH. by destruct (coordinator_step_spec c0 op hook H0). }
  clearbody c. destruct (coordinator_step_spec c (OpArm hook owner) hook HC) as (HC1 & HN & _).
  cbn [coordinator_step] in HC1, HN. destruct HC as [HL HG].
  unfold Coordinator_Arm in *. rewrite NextGeneration_spec in * by done. cbn [snd] in *.
  destruct (decide (current_owner = owner)) as [->|NO].
  - rewrite bool_decide_true by done. cbn [andb].
    rewrite (run_coordinator (m_next_generation c) hook owner ops 1) with (dead := false);
      [done|done|done|done|lia|lia|].
    destruct c as [hooks g]. unfold upd. cbn -[hook_at]. rewrite hook_at_insert by done.
    by rewrite decide_True.
  - rewrite bool_decide_false by done. unfold Coordinator_IsCurrent. cbn [tk_owner].
    rewrite (bool_decide_false (owner = current_owner)) by congruence. by rewrite orb_true_r.
Qed.

(** Over any sequence of arm, cancel, expiration and delivery operations on
    a fresh schedule, the valid tokens delivered are, counted with
    multiplicity, among those armed: an armed timer fires at most once, and
    nothing is delivered that was not armed. *)
Theorem deliveries_bounded ops :
  fst (schedule_run schedule_init ops) ⊆+ ops ≫= armed_by.
Proof.
  pose proof (schedule_run_held schedule_init ops ltac:(done)) as H.
  change (held schedule_init) with (@nil TimerToken) in H. simpl in H.
  etransitivity; [|exact H]. apply submseteq_inserts_r. done.
Qed.

Lemma token_current_exact_witness :
  let '(token, c1) := Coordinator_Arm TimerHook_SendKeepalive (mk_owner 1 2 3) coordinator_init in
  Coordinator_IsCurrent token (mk_owner 1 2 3)
    (foldl coordinator_step c1 [OpArm TimerHook_NewHandshake (mk_owner 1 2 3)]) = true.
Proof.
  exact (token_current_exact [] TimerHook_SendKeepalive (mk_owner 1 2 3) (mk_owner 1 2 3)
    [OpArm TimerHook_NewHandshake (mk_owner 1 2 3)] eq_refl).
Defined.
