(* ===== verification/Blake2s.v ===== *)
(** * BLAKE2s

    Models the reference implementation the program hashes with,
    [wireguard/crypto/third_party/blake2/blake2s-ref.c]: the compression
    function, initialisation with and without a key, the streaming update with
    its lazily compressed buffer, and finalisation.  [update_chunking] proves
    that a digest depends on the concatenation of the updates only, although the
    buffers left behind by different chunkings differ. *)

From S2P Require Import Prelude Endian.
Local Open Scope Z_scope.

Definition BLAKE2S_BLOCKBYTES : nat := 64.
Definition BLAKE2S_OUTBYTES : nat := 32.
Definition BLAKE2S_KEYBYTES : nat := 32.

Record blake2s_state := mk_blake2s {
  b2_h : list Z;
  b2_t0 : Z;
  b2_t1 : Z;
  b2_f0 : Z;
  b2_f1 : Z;
  b2_buf : bytes;
  b2_buflen : nat;
  b2_outlen : nat;
  b2_last_node : Z
}.
#[export] Instance eta_blake2s : Eta blake2s_state := fun r =>
  mk_blake2s (b2_h r) (b2_t0 r) (b2_t1 r) (b2_f0 r) (b2_f1 r) (b2_buf r) (b2_buflen r)
    (b2_outlen r) (b2_last_node r).

Definition blake2s_IV : list Z :=
  [0x6A09E667; 0xBB67AE85; 0x3C6EF372; 0xA54FF53A; 0x510E527F; 0x9B05688C; 0x1F83D9AB; 0x5BE0CD19].

Definition blake2s_sigma : list (list nat) :=
  [[0; 1; 2; 3; 4; 5; 6; 7; 8; 9; 10; 11; 12; 13; 14; 15];
   [14; 10; 4; 8; 9; 15; 13; 6; 1; 12; 0; 2; 11; 7; 5; 3];
   [11; 8; 12; 0; 5; 2; 15; 13; 10; 14; 3; 6; 7; 1; 9; 4];
   [7; 9; 3; 1; 13; 12; 11; 14; 2; 6; 5; 10; 4; 0; 15; 8];
   [9; 0; 5; 7; 2; 4; 10; 15; 14; 1; 11; 12; 6; 8; 3; 13];
   [2; 12; 6; 10; 0; 11; 8; 3; 4; 13; 7; 5; 15; 14; 1; 9];
   [12; 5; 1; 15; 14; 13; 4; 10; 0; 7; 6; 3; 9; 2; 8; 11];
   [13; 11; 7; 14; 12; 1; 3; 9; 5; 0; 15; 4; 8; 6; 2; 10];
   [6; 15; 14; 9; 11; 3; 0; 8; 12; 2; 13; 7; 1; 4; 10; 5];
   [10; 2; 8; 4; 7; 6; 1; 5; 15; 11; 9; 14; 3; 12; 13; 0]]%nat.

(** [a[i]] on a word array. *)
Definition word_at (l : list Z) (i : nat) : Z := nth i l 0.

Definition rotr32 (w c : Z) : Z := Z.lor (Z.shiftr w c) (u32 (Z.shiftl w (32 - c))).

Definition load32 (src : bytes) (offset : nat) : Z := LoadLe32 (drop offset src).

(** [G(r, i, v[a], v[b], v[c], v[d])]. *)
Definition G (m : list Z) (r i a b c d : nat) (v : list Z) : list Z :=
  let s := nth r blake2s_sigma [] in
  let va := word_at v a in let vb := word_at v b in
  let vc := word_at v c in let vd := word_at v d in
  let va := u32 (va + vb + word_at m (nth (2 * i) s 0%nat)) in
  let vd := rotr32 (Z.lxor vd va) 16 in
  let vc := u32 (vc + vd) in
  let vb := rotr32 (Z.lxor vb vc) 12 in
  let va := u32 (va + vb + word_at m (nth (2 * i + 1) s 0%nat)) in
  let vd := rotr32 (Z.lxor vd va) 8 in
  let vc := u32 (vc + vd) in
  let vb := rotr32 (Z.lxor vb vc) 7 in
  <[d := vd]> (<[c := vc]> (<[b := vb]> (<[a := va]> v))).

Definition ROUND (m : list Z) (r : nat) (v : list Z) : list Z :=
  let v := G m r 0 0 4 8 12 v in
  let v := G m r 1 1 5 9 13 v in
  let v := G m r 2 2 6 10 14 v in
  let v := G m r 3 3 7 11 15 v in
  let v := G m r 4 0 5 10 15 v in
  let v := G m r 5 1 6 11 12 v in
  let v := G m r 6 2 7 8 13 v in
  G m r 7 3 4 9 14 v.

Definition blake2s_compress (block : bytes) (st : blake2s_state) : blake2s_state :=
  let m := (fun i => load32 block (i * 4)) <$> seq 0 16 in
  let iv := word_at blake2s_IV in
  let v := take 8 (b2_h st) ++
           [iv 0; iv 1; iv 2; iv 3; Z.lxor (b2_t0 st) (iv 4); Z.lxor (b2_t1 st) (iv 5);
            Z.lxor (b2_f0 st) (iv 6); Z.lxor (b2_f1 st) (iv 7)]%nat in
  let v := foldl (fun v r => ROUND m r v) v (seq 0 10) in
  st <| b2_h := (fun i => Z.lxor (Z.lxor (word_at (b2_h st) i) (word_at v i)) (word_at v (i + 8)))
               <$> seq 0 8 |>.

Definition blake2s_increment_counter (inc : Z) (st : blake2s_state) : blake2s_state :=
  let st := st <| b2_t0 := u32 (b2_t0 st + inc) |> in
  st <| b2_t1 := u32 (b2_t1 st + (if b2_t0 st <? inc then 1 else 0)) |>.

(** The parameter block: digest and key length, fanout and depth 1, all else
    zero. *)
Definition param_block (outlen keylen : nat) : bytes :=
  [u8 (Z.of_nat outlen); u8 (Z.of_nat keylen); 1; 1] ++ zeros 28.

Definition blake2s_init_param (P : bytes) : blake2s_state :=
  mk_blake2s ((fun i => Z.lxor (word_at blake2s_IV i) (load32 P (i * 4))) <$> seq 0 8) 0 0 0 0
    (zeros BLAKE2S_BLOCKBYTES) 0 (Z.to_nat (byte_at P 0)) 0.

Definition blake2s_init (outlen : nat) : option blake2s_state :=
  if (outlen =? 0)%nat || (BLAKE2S_OUTBYTES <? outlen)%nat then None
  else Some (blake2s_init_param (param_block outlen 0)).

(** [while (inlen > BLAKE2S_BLOCKBYTES)]: the remaining input afterwards.  Each
    round consumes 64 bytes, so [length input] rounds are enough. *)
Fixpoint update_loop (fuel : nat) (input : bytes) (st : blake2s_state) : bytes * blake2s_state :=
  match fuel with
  | O => (input, st)
  | S fuel' =>
      if (BLAKE2S_BLOCKBYTES <? length input)%nat then
        let st := blake2s_increment_counter (Z.of_nat BLAKE2S_BLOCKBYTES) st in
        let st := blake2s_compress (take BLAKE2S_BLOCKBYTES input) st in
        update_loop fuel' (drop BLAKE2S_BLOCKBYTES input) st
      else (input, st)
  end.

Definition blake2s_update (input : bytes) (st : blake2s_state) : blake2s_state :=
  if (0 <? length input)%nat then
    let left := b2_buflen st in
    let fill := (BLAKE2S_BLOCKBYTES - left)%nat in
    let '(input, st) :=
      if (fill <? length input)%nat then
        let st := st <| b2_buflen := 0%nat |> in
        let st := st <| b2_buf ::= fun buf => write_at buf left (take fill input) |> in
        let st := blake2s_increment_counter (Z.of_nat BLAKE2S_BLOCKBYTES) st in
        let st := blake2s_compress (b2_buf st) st in
        update_loop (length input) (drop fill input) st
      else (input, st) in
    let st := st <| b2_buf ::= fun buf => write_at buf (b2_buflen st) input |> in
    st <| b2_buflen ::= fun n => (n + length input)%nat |>
  else st.

Definition blake2s_init_key (outlen : nat) (key : bytes) : option blake2s_state :=
  if (outlen =? 0)%nat || (BLAKE2S_OUTBYTES <? outlen)%nat then None
  else if (length key =? 0)%nat || (BLAKE2S_KEYBYTES <? length key)%nat then None
  else
    let block := write_at (zeros BLAKE2S_BLOCKBYTES) 0 key in
    Some (blake2s_update block (blake2s_init_param (param_block outlen (length key)))).

Definition blake2s_set_lastblock (st : blake2s_state) : blake2s_state :=
  let st := if negb (b2_last_node st =? 0) then st <| b2_f1 := 2 ^ 32 - 1 |> else st in
  st <| b2_f0 := 2 ^ 32 - 1 |>.

(** The digest of [outlen] bytes, [None] where the C returns -1. *)
Definition blake2s_final (outlen : nat) (st : blake2s_state) : option bytes :=
  if (outlen <? b2_outlen st)%nat || negb (b2_f0 st =? 0) then None
  else
    let st := blake2s_increment_counter (Z.of_nat (b2_buflen st)) st in
    let st := blake2s_set_lastblock st in
    let st := st <| b2_buf ::= fun buf => take (b2_buflen st) buf
                                        ++ zeros (BLAKE2S_BLOCKBYTES - b2_buflen st) |> in
    let st := blake2s_compress (b2_buf st) st in
    let buffer := b2_h st ≫= StoreLe32 in
    Some (take outlen buffer).

(** RFC 7693, appendix B: BLAKE2s-256 of "abc". *)
Example blake2s_abc :
  (st ← blake2s_init 32; blake2s_final 32 (blake2s_update (chars "abc") st))
  = Some [0x50; 0x8C; 0x5E; 0x8C; 0x32; 0x7C; 0x14; 0xE2; 0xE1; 0xA7; 0x2B; 0xA3; 0x4E; 0xEB; 0x45;
          0x2F; 0x37; 0x45; 0x8B; 0x20; 0x9E; 0xD6; 0x3A; 0x29; 0x4D; 0x99; 0x9B; 0x4C; 0x86; 0x67;
          0x59; 0x82].
Proof. vm_compute. reflexivity. Qed.

(** ** Chunking

    Two states are equivalent when they agree on everything but the stale bytes
    of the buffer beyond [b2_buflen]. *)

Definition pending (st : blake2s_state) : bytes := take (b2_buflen st) (b2_buf st).

Definition set_raw (buf : bytes) (buflen : nat) (st : blake2s_state) : blake2s_state :=
  st <| b2_buf := buf |> <| b2_buflen := buflen |>.
Definition set_buf (rest : bytes) : blake2s_state -> blake2s_state :=
  set_raw (rest ++ zeros (BLAKE2S_BLOCKBYTES - length rest)) (length rest).

Definition canon (st : blake2s_state) : blake2s_state := set_buf (pending st) st.

Definition state_equiv (st st' : blake2s_state) : Prop := canon st = canon st'.
#[export] Instance state_equiv_equivalence : Equivalence state_equiv.
Proof. unfold state_equiv. split; [by intros ?|by intros ? ?|intros ? ? ?; congruence]. Qed.

Record state_ok (st : blake2s_state) : Prop := {
  so_buf : length (b2_buf st) = BLAKE2S_BLOCKBYTES;
  so_buflen : (b2_buflen st <= BLAKE2S_BLOCKBYTES)%nat
}.

(** Counting and compressing one block. *)
Definition advance (block : bytes) (st : blake2s_state) : blake2s_state :=
  blake2s_compress block (blake2s_increment_counter (Z.of_nat BLAKE2S_BLOCKBYTES) st).

(** Reference definition: compress as long as more than one block is there, and
    keep the rest. *)
Definition absorb (data : bytes) (st : blake2s_state) : blake2s_state :=
  let all := pending st ++ data in
  let '(rest, st) := update_loop (length all) all st in
  set_buf rest st.

Lemma update_loop_more fuel input st :
  (64 < length input)%nat ->
  update_loop (S fuel) input st = update_loop fuel (drop 64 input) (advance (take 64 input) st).
Proof. intros. cbn [update_loop]. by rewrite (proj2 (Nat.ltb_lt _ _)). Qed.

Lemma update_loop_stop fuel input st :
  (length input <= 64)%nat -> update_loop fuel input st = (input, st).
Proof.
  intros. destruct fuel; [done|]. cbn [update_loop]. by rewrite (proj2 (Nat.ltb_ge _ _)).
Qed.

Lemma update_loop_fuel n m input st :
  (length input <= n)%nat -> (length input <= m)%nat ->
  update_loop n input st = update_loop m input st.
Proof.
  revert m input st. induction n as [|n IH]; intros m input st Hn Hm.
  { by rewrite !update_loop_stop by lia. }
  destruct (decide (length input <= 64)%nat); [by rewrite !update_loop_stop by lia|].
  destruct m as [|m]; [lia|]. rewrite !update_loop_more by lia.
  apply IH; rewrite length_drop; lia.
Qed.

Lemma update_loop_rest n input st :
  (length input <= n)%nat -> (length (fst (update_loop n input st)) <= 64)%nat.
Proof.
  revert input st. induction n as [|n IH]; intros input st Hn.
  { simpl. lia. }
  destruct (decide (length input <= 64)%nat); [by rewrite update_loop_stop|].
  rewrite update_loop_more by lia. apply IH. rewrite length_drop. lia.
Qed.

(** Looping over a prefix first makes no difference. *)
Lemma update_loop_app n a b st :
  (length a <= n)%nat ->
  let '(r, st') := update_loop n a st in
  update_loop (length (a ++ b)) (a ++ b) st = update_loop (length (r ++ b)) (r ++ b) st'.
Proof.
  revert a st. induction n as [|n IH]; intros a st Hn.
  { rewrite update_loop_stop by lia. done. }
  destruct (decide (length a <= 64)%nat); [by rewrite update_loop_stop|].
  rewrite update_loop_more by lia.
  specialize (IH (drop 64 a) (advance (take 64 a) st)). rewrite length_drop in IH.
  specialize (IH ltac:(lia)).
  destruct (update_loop n (drop 64 a) (advance (take 64 a) st)) as [r st'] eqn:E.
  rewrite <- IH.
  rewrite (update_loop_fuel _ (S (length (a ++ b)))) by lia.
  rewrite update_loop_more by (size_simpl; lia).
  rewrite take_app_le, drop_app_le by lia. apply update_loop_fuel; size_simpl; lia.
Qed.

Lemma advance_set_raw block buf n st :
  advance block (set_raw buf n st) = set_raw buf n (advance block st).
Proof. reflexivity. Qed.

(** The buffer plays no role in the loop. *)
Lemma update_loop_set_raw fuel input buf n st :
  update_loop fuel input (set_raw buf n st)
  = (let '(r, st') := update_loop fuel input st in (r, set_raw buf n st')).
Proof.
  revert input st. induction fuel as [|fuel IH]; intros input st; [done|]. cbn [update_loop].
  destruct (BLAKE2S_BLOCKBYTES <? length input)%nat; [|done].
  fold (advance (take BLAKE2S_BLOCKBYTES input) (set_raw buf n st)).
  fold (advance (take BLAKE2S_BLOCKBYTES input) st). rewrite advance_set_raw. apply IH.
Qed.

Lemma set_buf_twice r r' st : set_buf r (set_buf r' st) = set_buf r st.
Proof. done. Qed.

Lemma pending_set_buf r st : pending (set_buf r st) = r.
Proof. unfold pending, set_buf, set_raw, upd. simpl. by rewrite take_app_length. Qed.

(** Unfolding lemma that keeps [set_buf] folded. *)
Lemma update_loop_set_buf fuel input rest st :
  update_loop fuel input (set_buf rest st)
  = (let '(r, st') := update_loop fuel input st in (r, set_buf rest st')).
Proof. apply update_loop_set_raw. Qed.

Lemma absorb_app a b st : absorb b (absorb a st) = absorb (a ++ b) st.
Proof.
  unfold absorb. pose proof (update_loop_app (length (pending st ++ a)) (pending st ++ a) b st ltac:(lia)) as H.
  rewrite app_assoc.
  destruct (update_loop (length (pending st ++ a)) (pending st ++ a) st) as [r st'].
  rewrite pending_set_buf, update_loop_set_buf, H.
  destruct (update_loop (length (r ++ b)) (r ++ b) st') as [r' st'']. apply set_buf_twice.
Qed.

Lemma absorb_canon data st : absorb data (canon st) = absorb data st.
Proof.
  unfold absorb, canon. rewrite pending_set_buf, update_loop_set_buf.
  by destruct (update_loop _ _ st).
Qed.

Lemma length_pending st : state_ok st -> length (pending st) = b2_buflen st.
Proof.
  intros [HB HL]. unfold pending. rewrite length_take. lia.
Qed.

Lemma take_write_at l o v :
  (o + length v <= length l)%nat -> take (o + length v) (write_at l o v) = take o l ++ v.
Proof.
  intros. unfold write_at. rewrite app_assoc, take_app_length'; [done|]. size_simpl. lia.
Qed.

Lemma write_at_full l o v : (o + length v = length l)%nat -> write_at l o v = take o l ++ v.
Proof. intros. unfold write_at. rewrite drop_ge by lia. by rewrite app_nil_r. Qed.

(** Appending to the buffer of a state with an empty loop. *)
Lemma canon_append data st :
  state_ok st -> (b2_buflen st + length data <= 64)%nat ->
  let st' := st <| b2_buf ::= fun buf => write_at buf (b2_buflen st) data |>
                <| b2_buflen ::= fun n => (n + length data)%nat |> in
  canon st' = set_buf (pending st ++ data) st /\ state_ok st'.
Proof.
  intros [HB HL] HD st'.
  assert (pending st' = pending st ++ data) as EP.
  { unfold pending, st', upd. simpl. apply take_write_at. rewrite HB.
    unfold BLAKE2S_BLOCKBYTES. lia. }
  split; [unfold canon; by rewrite EP|].
  split; unfold st', upd; simpl.
  - rewrite length_write_at; [done|]. rewrite HB. unfold BLAKE2S_BLOCKBYTES. lia.
  - unfold BLAKE2S_BLOCKBYTES. lia.
Qed.

Lemma blake2s_update_absorb data st :
  state_ok st ->
  canon (blake2s_update data st) = absorb data st /\ state_ok (blake2s_update data st).
Proof.
  intros HO. pose proof HO as [HB HL]. pose proof (length_pending st HO) as HP.
  unfold blake2s_update, absorb. unfold BLAKE2S_BLOCKBYTES in *.
  destruct (Nat.ltb_spec 0 (length data)) as [H0|H0].
  2: { destruct data; simpl in H0; [|lia].
       rewrite update_loop_stop by (size_simpl; simpl; lia).
       by rewrite app_nil_r. }
  destruct (Nat.ltb_spec (64 - b2_buflen st) (length data)) as [H1|H1].
  2: { rewrite update_loop_stop by (size_simpl; lia). by apply canon_append; [|lia]. }
  set (fill := (64 - b2_buflen st)%nat) in *.
  assert (write_at (b2_buf st) (b2_buflen st) (take fill data) = take 64 (pending st ++ data)) as EB.
  { rewrite write_at_full by (size_simpl; lia).
    rewrite take_app, (take_ge (pending st)) by lia. by rewrite HP. }
  assert (drop fill data = drop 64 (pending st ++ data)) as ED.
  { rewrite drop_app, (drop_ge (pending st)) by lia. by rewrite HP. }
  change (st <| b2_buflen := 0%nat |> <| b2_buf ::= fun buf => write_at buf (b2_buflen st) (take fill data) |>)
    with (set_raw (write_at (b2_buf st) (b2_buflen st) (take fill data)) 0 st).
  rewrite EB, ED.
  change (b2_buf (blake2s_increment_counter (Z.of_nat 64) (set_raw (take 64 (pending st ++ data)) 0 st)))
    with (take 64 (pending st ++ data)).
  match goal with
  | |- context [blake2s_compress ?b (blake2s_increment_counter (Z.of_nat 64) ?s)] =>
      change (blake2s_compress b (blake2s_increment_counter (Z.of_nat 64) s)) with (advance b s)
  end.
  rewrite advance_set_raw, update_loop_set_raw.
  rewrite (update_loop_fuel (length (pending st ++ data)) (S (length (pending st ++ data)))) by lia.
  rewrite update_loop_more by (size_simpl; lia).
  rewrite (update_loop_fuel (length (pending st ++ data)) (length data)) by (size_simpl; lia).
  pose proof (update_loop_rest (length data) (drop 64 (pending st ++ data))
    (advance (take 64 (pending st ++ data)) st)) as HR.
  destruct (update_loop _ _ _) as [rest st']. simpl in HR. specialize (HR ltac:(size_simpl; lia)).
  destruct (canon_append rest (set_raw (take 64 (pending st ++ data)) 0 st')) as [E1 E2].
  { split; unfold set_raw, upd; simpl; [|lia]. size_simpl. unfold BLAKE2S_BLOCKBYTES. lia. }
  { simpl. lia. }
  split; [exact E1|exact E2].
Qed.

(** The digest reads the buffer only through [pending]. *)
Lemma blake2s_final_pending outlen st :
  blake2s_final outlen st
  = (if (outlen <? b2_outlen st)%nat || negb (b2_f0 st =? 0) then None
     else Some (take outlen (b2_h (blake2s_compress
            (pending st ++ zeros (BLAKE2S_BLOCKBYTES - b2_buflen st))
            (blake2s_set_lastblock (blake2s_increment_counter (Z.of_nat (b2_buflen st)) st)))
            ≫= StoreLe32))).
Proof.
  unfold blake2s_final. destruct (_ || _); [done|].
  unfold blake2s_set_lastblock. change (b2_last_node (blake2s_increment_counter _ st)) with (b2_last_node st).
  by destruct (negb (b2_last_node st =? 0)).
Qed.

Lemma final_compress_canon block n st :
  b2_h (blake2s_compress block (blake2s_set_lastblock (blake2s_increment_counter n (canon st))))
  = b2_h (blake2s_compress block (blake2s_set_lastblock (blake2s_increment_counter n st))).
Proof.
  unfold blake2s_set_lastblock.
  change (b2_last_node (blake2s_increment_counter n (canon st))) with (b2_last_node st).
  change (b2_last_node (blake2s_increment_counter n st)) with (b2_last_node st).
  destruct (negb (b2_last_node st =? 0)); reflexivity.
Qed.

Lemma blake2s_final_canon outlen st :
  state_ok st -> blake2s_final outlen (canon st) = blake2s_final outlen st.
Proof.
  intros HO. pose proof (length_pending st HO) as HP. rewrite !blake2s_final_pending.
  unfold canon at 3. rewrite pending_set_buf.
  change (b2_buflen (canon st)) with (length (pending st)). rewrite HP.
  change (b2_outlen (canon st)) with (b2_outlen st). change (b2_f0 (canon st)) with (b2_f0 st).
  by rewrite final_compress_canon.
Qed.

Lemma state_ok_init P : state_ok (blake2s_init_param P).
Proof. split; simpl; [done|unfold BLAKE2S_BLOCKBYTES; lia]. Qed.

Lemma blake2s_update_app a b st :
  state_ok st ->
  state_equiv (blake2s_update b (blake2s_update a st)) (blake2s_update (a ++ b) st).
Proof.
  intros HO. unfold state_equiv.
  destruct (blake2s_update_absorb a st HO) as [EA HA].
  destruct (blake2s_update_absorb b _ HA) as [EB _].
  destruct (blake2s_update_absorb (a ++ b) st HO) as [EC _].
  by rewrite EB, EC, <- absorb_canon, EA, absorb_app.
Qed.

Lemma state_ok_update a st : state_ok st -> state_ok (blake2s_update a st).
Proof. intros HO. by apply blake2s_update_absorb. Qed.
#[export] Hint Resolve state_ok_init state_ok_update : wg.

Lemma blake2s_final_equiv outlen st st' :
  state_ok st -> state_ok st' -> state_equiv st st' ->
  blake2s_final outlen st = blake2s_final outlen st'.
Proof.
  intros H H' E. rewrite <- (blake2s_final_canon outlen st H), <- (blake2s_final_canon outlen st' H').
  by rewrite E.
Qed.

(** The whole message hashed from a state, in pieces. *)
Definition update_all (pieces : list bytes) (st : blake2s_state) : blake2s_state :=
  foldl (fun st piece => blake2s_update piece st) st pieces.

(** ** Digests *)

Lemma compress_h_length block st : length (b2_h (blake2s_compress block st)) = 8%nat.
Proof. unfold blake2s_compress, upd. cbn [b2_h]. by rewrite length_fmap, length_seq. Qed.

Lemma blake2s_digest_bytes outlen st d :
  blake2s_final outlen st = Some d -> (outlen <= 32)%nat -> bytes_of outlen d.
Proof.
  rewrite blake2s_final_pending.
  match goal with |- context [blake2s_compress ?b ?s] => pose proof (compress_h_length b s) as Hh end.
  revert Hh. generalize (b2_h (blake2s_compress (pending st ++ zeros (BLAKE2S_BLOCKBYTES - b2_buflen st))
    (blake2s_set_lastblock (blake2s_increment_counter (Z.of_nat (b2_buflen st)) st)))). intros h Hh.
  case_if; [done|]. intros [= <-] HL.
  assert (bytes_of (4 * length h) (h ≫= StoreLe32)) as [HB1 HB2].
  { clear Hh. induction h as [|w h [IL IB]]; [split; [done|constructor]|].
    rewrite bind_cons. destruct (StoreLe32_bytes w) as [WL WB]. split.
    - rewrite length_app, IL, WL. simpl. lia.
    - by apply bytes_ok_app. }
  split; [rewrite length_take; lia|auto with wg].
Qed.

Lemma update_all_concat pieces st :
  state_ok st -> state_equiv (update_all pieces st) (blake2s_update (concat pieces) st) /\
                 state_ok (update_all pieces st).
Proof.
  revert st. induction pieces as [|p pieces IH]; intros st HO; [by split|].
  destruct (IH (blake2s_update p st)) as [E HO']; [auto with wg|]. split; [|done].
  cbn [concat update_all foldl]. etransitivity; [exact E|]. by apply blake2s_update_app.
Qed.

Lemma init_state_ok outlen key st :
  blake2s_init outlen = Some st \/ blake2s_init_key outlen key = Some st -> state_ok st.
Proof.
  unfold blake2s_init, blake2s_init_key. intros [E|E]; repeat (case_if_in E; [done|]);
    injection E as <-; auto with wg.
Qed.

(** What hashing does not change: an initialised state always yields a digest. *)
Definition ready (n : nat) (st : blake2s_state) : Prop :=
  state_ok st /\ b2_outlen st = n /\ b2_f0 st = 0.

Lemma update_loop_keeps fuel input st :
  b2_outlen (snd (update_loop fuel input st)) = b2_outlen st /\
  b2_f0 (snd (update_loop fuel input st)) = b2_f0 st.
Proof.
  revert input st. induction fuel as [|fuel IH]; intros input st; [done|]. cbn [update_loop].
  destruct (BLAKE2S_BLOCKBYTES <? length input)%nat; [|done].
  fold (advance (take BLAKE2S_BLOCKBYTES input) st).
  destruct (IH (drop BLAKE2S_BLOCKBYTES input) (advance (take BLAKE2S_BLOCKBYTES input) st)) as [-> ->].
  done.
Qed.

Lemma ready_update n data st : ready n st -> ready n (blake2s_update data st).
Proof.
  intros (HO & EO & EF). destruct (blake2s_update_absorb data st HO) as [EC HO'].
  split; [done|]. unfold absorb in EC.
  pose proof (update_loop_keeps (length (pending st ++ data)) (pending st ++ data) st) as [K1 K2].
  destruct (update_loop _ _ _) as [rest st']. simpl in K1, K2.
  pose proof (f_equal b2_outlen EC) as E1. pose proof (f_equal b2_f0 EC) as E2.
  unfold canon, set_buf, set_raw, upd in E1, E2. simpl in E1, E2. split; congruence.
Qed.

Lemma ready_init n st : blake2s_init n = Some st -> ready n st.
Proof.
  intros E. pose proof (init_state_ok n [] st (or_introl E)) as HO. unfold blake2s_init in E.
  case_if_in E; [done|]. injection E as <-. split; [done|]. bool_prop. split; [|done].
  unfold blake2s_init_param, param_block, byte_at. cbn. unfold BLAKE2S_OUTBYTES in *.
  rewrite wrap_id by (unfold in_width; lia). lia.
Qed.

Lemma ready_init_key n key st : blake2s_init_key n key = Some st -> ready n st.
Proof.
  intros E. unfold blake2s_init_key in E. case_if_in E; [done|]. case_if_in E; [done|].
  injection E as <-. apply ready_update. split; [apply state_ok_init|]. bool_prop. split; [|done].
  unfold blake2s_init_param, param_block, byte_at. cbn. unfold BLAKE2S_OUTBYTES in *.
  rewrite wrap_id by (unfold in_width; lia). lia.
Qed.

Lemma ready_final n st : ready n st -> exists d, blake2s_final n st = Some d.
Proof.
  intros (_ & EO & EF). rewrite blake2s_final_pending, EO, EF.
  rewrite (proj2 (Nat.ltb_ge n n)) by lia. eexists. reflexivity.
Qed.

(** Incremental hashing.  From an initialised state, keyed or not, feeding
    two sequences of pieces with the same concatenation gives the same digest of
    any size, however the pieces straddle the 64-byte blocks; and a digest that
    is produced has exactly the requested number of bytes. *)
Theorem update_chunking outlen key st pieces pieces' n
    (HI : blake2s_init outlen = Some st \/ blake2s_init_key outlen key = Some st)
    (HP : concat pieces = concat pieces') :
  blake2s_final n (update_all pieces st) = blake2s_final n (update_all pieces' st) /\
  (forall d, (n <= 32)%nat -> blake2s_final n (update_all pieces st) = Some d -> bytes_of n d).
Proof.
  pose proof (init_state_ok outlen key st HI) as HO.
  destruct (update_all_concat pieces st HO) as [E1 H1].
  destruct (update_all_concat pieces' st HO) as [E2 H2].
  split; [|intros d Hn Hd; by eapply blake2s_digest_bytes].
  apply blake2s_final_equiv; [done|done|]. by rewrite E1, E2, HP.
Qed.

Lemma update_chunking_witness :
  exists st, blake2s_init 32 = Some st /\
    blake2s_final 32 (update_all [zeros 63; zeros 2; zeros 70] st)
    = blake2s_final 32 (update_all [zeros 135] st).
Proof.
  eexists. split; [reflexivity|].
  apply (update_chunking 32 [] _ [zeros 63; zeros 2; zeros 70] [zeros 135] 32).
  - left. reflexivity.
  - reflexivity.
Defined.
