(* ===== verification/Crypto.v ===== *)
(** * Cryptographic wrappers

    Models [wireguard/crypto/primitives.cpp]: the [Blake2sHasher] object with its
    life cycle, one-shot hashing, HMAC, and the AEAD and X25519 wrappers.  The
    curve and the ciphers themselves (the vendored Monocypher) and the
    constant-time comparison of the Atmosphere libraries are the fields of the
    class [Primitives]; [PrimitivesLaws] states what their documentation promises
    and what the protocol relies on.  [toy_primitives] shows that the laws can
    hold. *)

From S2P Require Import Prelude Endian Blake2s.
Local Open Scope Z_scope.

Definition Blake2sBlockSize : nat := 64.
Definition Blake2sHashSize : nat := 32.
Definition Blake2sKeySize : nat := 32.
Definition ChaCha20NonceSize : nat := 12.
Definition XChaCha20NonceSize : nat := 24.
Definition Poly1305TagSize : nat := 16.

(** ** The hasher object *)

Record Blake2sHasher := mk_hasher {
  bh_backend : option blake2s_state;
  bh_digest_size : nat;
  bh_initialized : bool;
  bh_finalized : bool
}.
#[export] Instance eta_hasher : Eta Blake2sHasher := fun r =>
  mk_hasher (bh_backend r) (bh_digest_size r) (bh_initialized r) (bh_finalized r).
Definition hasher_init : Blake2sHasher := mk_hasher None 0 false false.

Definition hasher_Reset (h : Blake2sHasher) : Blake2sHasher :=
  h <| bh_backend := None |> <| bh_digest_size := 0%nat |> <| bh_initialized := false |>
    <| bh_finalized := false |>.

(** Constructing the backend in the object's storage. *)
Definition hasher_construct (digest_size : nat) (key : bytes) : M Blake2sHasher unit := fun h =>
  match (if (length key =? 0)%nat then blake2s_init digest_size
         else blake2s_init_key digest_size key) with
  | None => (None, hasher_Reset h)
  | Some backend =>
      (Some tt, h <| bh_backend := Some backend |> <| bh_digest_size := digest_size |>
                  <| bh_initialized := true |>)
  end.

Definition hasher_InitializeDigest (digest_size : nat) (key : bytes) : M Blake2sHasher unit :=
  _ ← modify hasher_Reset;
  _ ← require (negb ((digest_size =? 0)%nat || (Blake2sHashSize <? digest_size)%nat
                     || (Blake2sKeySize <? length key)%nat));
  hasher_construct digest_size key.

Definition hasher_Update (data : bytes) : M Blake2sHasher unit := fun h =>
  if negb (bh_initialized h) || bh_finalized h then (None, h)
  else
    match bh_backend h with
    | None => (None, h)
    | Some backend => (Some tt, h <| bh_backend := Some (blake2s_update data backend) |>)
    end.

(** [FinalDigest] into an array of [output_size] bytes. *)
Definition hasher_Final (output_size : nat) : M Blake2sHasher bytes := fun h =>
  if negb (bh_initialized h) || bh_finalized h || negb (output_size =? bh_digest_size h)%nat
  then (None, h)
  else
    match bh_backend h with
    | None => (None, h)
    | Some backend =>
        (blake2s_final output_size backend, (hasher_Reset h) <| bh_finalized := true |>)
    end.

(** A computation on a hasher local to the calling function. *)
Definition with_hasher {A} (m : M Blake2sHasher A) : option A := fst (m hasher_init).

(** [Blake2sHash(output, data, key)] with [DigestSize] bytes of output. *)
Definition Blake2sHash (DigestSize : nat) (data key : bytes) : option bytes :=
  with_hasher (_ ← hasher_InitializeDigest DigestSize key;
               _ ← hasher_Update data;
               hasher_Final DigestSize).

(** [array[i] ^ value] for every element. *)
Definition xor_pad (value : Z) (data : bytes) : bytes := (fun b => Z.lxor b value) <$> data.

Definition Blake2sHmac (key data : bytes) : option bytes :=
  normalized_key ←
    (if (Blake2sBlockSize <? length key)%nat then
       normalized_hash ← Blake2sHash Blake2sHashSize key [];
       Some (write_at (zeros Blake2sBlockSize) 0 normalized_hash)
     else if negb (length key =? 0)%nat then Some (write_at (zeros Blake2sBlockSize) 0 key)
     else Some (zeros Blake2sBlockSize));
  let inner_pad := xor_pad 54 normalized_key in
  let outer_pad := xor_pad 92 normalized_key in
  inner_hash ← with_hasher (_ ← hasher_InitializeDigest Blake2sHashSize [];
                            _ ← hasher_Update inner_pad; _ ← hasher_Update data;
                            hasher_Final Blake2sHashSize);
  with_hasher (_ ← hasher_InitializeDigest Blake2sHashSize [];
               _ ← hasher_Update outer_pad; _ ← hasher_Update inner_hash;
               hasher_Final Blake2sHashSize).

(** ** Primitives that are parameters *)

Class Primitives := {
  (** [crypto_aead_init_ietf] and [crypto_aead_write]: ciphertext and tag. *)
  crypto_aead_ietf_write : forall (key nonce aad plaintext : bytes), bytes * bytes;
  (** [crypto_aead_init_ietf] and [crypto_aead_read]: [None] is a bad tag. *)
  crypto_aead_ietf_read : forall (key nonce aad ciphertext tag : bytes), option bytes;
  (** The same with [crypto_aead_init_x]. *)
  crypto_aead_x_write : forall (key nonce aad plaintext : bytes), bytes * bytes;
  crypto_aead_x_read : forall (key nonce aad ciphertext tag : bytes), option bytes;
  crypto_x25519 : forall (scalar point : bytes), bytes;
  crypto_x25519_public_key : forall (scalar : bytes), bytes;
  (** [ams::crypto::IsSameBytes] on two arrays of the same size. *)
  IsSameBytes : forall (lhs rhs : bytes), bool
}.

(** An authenticated cipher: sizes, and that reading accepts exactly what
    writing produced. *)
Record aead_laws (nonce_size : nat) (write : bytes -> bytes -> bytes -> bytes -> bytes * bytes)
    (read : bytes -> bytes -> bytes -> bytes -> bytes -> option bytes) : Prop := {
  aead_sizes : forall key nonce aad plaintext,
    bytes_of 32 key -> bytes_of nonce_size nonce -> bytes_ok aad -> bytes_ok plaintext ->
    bytes_of (length plaintext) (fst (write key nonce aad plaintext)) /\
    bytes_of 16 (snd (write key nonce aad plaintext));
  aead_read_write : forall key nonce aad plaintext,
    bytes_of 32 key -> bytes_of nonce_size nonce -> bytes_ok aad -> bytes_ok plaintext ->
    read key nonce aad (fst (write key nonce aad plaintext)) (snd (write key nonce aad plaintext))
    = Some plaintext;
  aead_read_sound : forall key nonce aad ciphertext tag plaintext,
    bytes_of 32 key -> bytes_of nonce_size nonce -> bytes_ok aad -> bytes_ok ciphertext ->
    bytes_of 16 tag ->
    read key nonce aad ciphertext tag = Some plaintext ->
    bytes_ok plaintext /\ write key nonce aad plaintext = (ciphertext, tag)
}.

Class PrimitivesLaws (P : Primitives) : Prop := {
  ietf_laws : aead_laws ChaCha20NonceSize crypto_aead_ietf_write crypto_aead_ietf_read;
  x_laws : aead_laws XChaCha20NonceSize crypto_aead_x_write crypto_aead_x_read;
  x25519_size : forall scalar point, bytes_of 32 scalar -> bytes_of 32 point ->
    bytes_of 32 (crypto_x25519 scalar point);
  x25519_public_size : forall scalar, bytes_of 32 scalar ->
    bytes_of 32 (crypto_x25519_public_key scalar);
  (** Diffie-Hellman: both sides compute the same shared secret. *)
  x25519_agree : forall a b, bytes_of 32 a -> bytes_of 32 b ->
    crypto_x25519 a (crypto_x25519_public_key b) = crypto_x25519 b (crypto_x25519_public_key a);
  (** Points that are public keys of the group never give the all-zero secret
      (RFC 7748: only low-order points do). *)
  x25519_nonzero : forall a b, bytes_of 32 a -> bytes_of 32 b ->
    forallb (fun x => x =? 0) (crypto_x25519 a (crypto_x25519_public_key b)) = false;
  IsSameBytes_spec : forall lhs rhs, length lhs = length rhs ->
    (IsSameBytes lhs rhs = true <-> lhs = rhs)
}.

Section Wrappers.
Context {P : Primitives}.

Definition secure_equal (lhs rhs : bytes) : bool :=
  (length lhs =? length rhs)%nat && ((length lhs =? 0)%nat || IsSameBytes lhs rhs).

(** The destination has [ciphertext_size] bytes; [None] is [return false]. *)
Definition chacha20poly1305_encrypt (ciphertext_size : nat) (plaintext aad key nonce : bytes)
    : option (bytes * bytes) :=
  if negb (ciphertext_size =? length plaintext)%nat then None
  else Some (crypto_aead_ietf_write key nonce aad plaintext).

Definition chacha20poly1305_decrypt (plaintext_size : nat) (ciphertext tag aad key nonce : bytes)
    : option bytes :=
  if negb (plaintext_size =? length ciphertext)%nat then None
  else crypto_aead_ietf_read key nonce aad ciphertext tag.

Definition xchacha20poly1305_encrypt (ciphertext_size : nat) (plaintext aad key nonce : bytes)
    : option (bytes * bytes) :=
  if negb (ciphertext_size =? length plaintext)%nat then None
  else Some (crypto_aead_x_write key nonce aad plaintext).

Definition xchacha20poly1305_decrypt (plaintext_size : nat) (ciphertext tag aad key nonce : bytes)
    : option bytes :=
  if negb (plaintext_size =? length ciphertext)%nat then None
  else crypto_aead_x_read key nonce aad ciphertext tag.

(** [None] where the shared secret is all zero. *)
Definition x25519 (scalar point : bytes) : option bytes :=
  let out := crypto_x25519 scalar point in
  if forallb (fun b => b =? 0) out then None else Some out.

Definition x25519_public_key (private_key : bytes) : option bytes :=
  Some (crypto_x25519_public_key private_key).

Lemma secure_equal_spec `{!PrimitivesLaws P} lhs rhs : secure_equal lhs rhs = true <-> lhs = rhs.
Proof.
  unfold secure_equal. rewrite andb_true_iff, orb_true_iff, !Nat.eqb_eq. split.
  - intros [HL [H0|HS]]; [|by apply IsSameBytes_spec].
    destruct lhs, rhs; simpl in *; done || lia.
  - intros ->. split; [done|]. right. by apply IsSameBytes_spec.
Qed.
End Wrappers.

(** ** Hashing always succeeds *)

(** The digest of a message under a key, [None] for sizes out of range. *)
Definition digest (n : nat) (key message : bytes) : option bytes :=
  st ← (if (length key =? 0)%nat then blake2s_init n else blake2s_init_key n key);
  blake2s_final n (blake2s_update message st).

Definition size_ok (n : nat) (key : bytes) : Prop := (0 < n <= 32)%nat /\ (length key <= 32)%nat.

Lemma digest_state n key :
  size_ok n key ->
  exists st, (if (length key =? 0)%nat then blake2s_init n else blake2s_init_key n key) = Some st /\
    ready n st.
Proof.
  intros [Hn Hk]. destruct (Nat.eqb_spec (length key) 0) as [E|E].
  - destruct (blake2s_init n) as [st|] eqn:EI.
    + exists st. split; [done|by apply ready_init].
    + unfold blake2s_init in EI. case_if_in EI; [|done].
      apply orb_true_iff in Heqb as [?|?]; bool_prop; unfold BLAKE2S_OUTBYTES in *; lia.
  - destruct (blake2s_init_key n key) as [st|] eqn:EI.
    + exists st. split; [done|by apply (ready_init_key n key)].
    + unfold blake2s_init_key in EI. case_if_in EI; [|case_if_in EI; [|done]].
      * apply orb_true_iff in Heqb as [?|?]; bool_prop; unfold BLAKE2S_OUTBYTES in *; lia.
      * apply orb_true_iff in Heqb0 as [?|?]; bool_prop; unfold BLAKE2S_KEYBYTES in *; lia.
Qed.

Lemma digest_Some n key message :
  size_ok n key -> exists d, digest n key message = Some d /\ bytes_of n d.
Proof.
  intros HS. destruct (digest_state n key HS) as (st & E & HR). unfold digest. rewrite E.
  cbn [mbind option_bind]. destruct (ready_final n _ (ready_update n message st HR)) as [d Hd].
  exists d. split; [done|]. eapply blake2s_digest_bytes; [exact Hd|]. destruct HS. lia.
Qed.

(** Any sequence of updates between initialisation and [Final]. *)
Fixpoint updates (pieces : list bytes) : M Blake2sHasher unit :=
  match pieces with
  | [] => mret tt
  | p :: rest => _ ← hasher_Update p; updates rest
  end.

Lemma Initialize_ready n key :
  size_ok n key ->
  exists st, (if (length key =? 0)%nat then blake2s_init n else blake2s_init_key n key) = Some st /\
    ready n st /\
    hasher_InitializeDigest n key hasher_init = (Some tt, mk_hasher (Some st) n true false).
Proof.
  intros HS. destruct (digest_state n key HS) as (st & E & HR). exists st. split_and!; try done.
  unfold hasher_InitializeDigest, hasher_construct, mbind, M_bind, modify, require. rewrite E.
  destruct HS as [? ?]. unfold Blake2sHashSize, Blake2sKeySize.
  rewrite (proj2 (Nat.eqb_neq n 0)), !(proj2 (Nat.ltb_ge _ _)) by lia. done.
Qed.

Lemma Update_ready n st p :
  hasher_Update p (mk_hasher (Some st) n true false)
  = (Some tt, mk_hasher (Some (blake2s_update p st)) n true false).
Proof. done. Qed.

Lemma Final_ready n st :
  fst (hasher_Final n (mk_hasher (Some st) n true false)) = blake2s_final n st.
Proof. unfold hasher_Final. cbn. by rewrite Nat.eqb_refl. Qed.

Lemma updates_ready n pieces st :
  updates pieces (mk_hasher (Some st) n true false)
  = (Some tt, mk_hasher (Some (update_all pieces st)) n true false).
Proof.
  revert st. induction pieces as [|p pieces IH]; intros st; [done|].
  cbn [updates]. unfold mbind, M_bind. rewrite Update_ready. apply IH.
Qed.

Lemma hash_pieces n key pieces :
  size_ok n key ->
  with_hasher (_ ← hasher_InitializeDigest n key; _ ← updates pieces; hasher_Final n)
  = digest n key (concat pieces).
Proof.
  intros HS. destruct (Initialize_ready n key HS) as (st & E & HR & EI).
  unfold with_hasher, mbind, M_bind at 1. rewrite EI. cbn iota. unfold M_bind.
  rewrite updates_ready, Final_ready. unfold digest. rewrite E. cbn [mbind option_bind].
  destruct (update_all_concat pieces st (proj1 HR)) as [EQ HO].
  apply blake2s_final_equiv; [done| |done]. apply state_ok_update, HR.
Qed.

Lemma hash_one n key data :
  size_ok n key ->
  with_hasher (_ ← hasher_InitializeDigest n key; _ ← hasher_Update data; hasher_Final n)
  = digest n key data.
Proof.
  intros HS. replace (digest n key data) with (digest n key (concat [data])) by (simpl; by rewrite app_nil_r).
  rewrite <- (hash_pieces n key [data] HS). unfold with_hasher, mbind, M_bind, updates.
  destruct (hasher_InitializeDigest n key hasher_init) as [[[]|] h]; [|done].
  unfold mbind, M_bind, mret, M_ret. by destruct (hasher_Update data h) as [[[]|] h'].
Qed.

Lemma hash_two n key a b :
  size_ok n key ->
  with_hasher (_ ← hasher_InitializeDigest n key; _ ← hasher_Update a; _ ← hasher_Update b;
               hasher_Final n)
  = digest n key (a ++ b).
Proof.
  intros HS. replace (digest n key (a ++ b)) with (digest n key (concat [a; b]))
    by (simpl; by rewrite app_nil_r).
  rewrite <- (hash_pieces n key [a; b] HS). unfold with_hasher, mbind, M_bind, updates.
  destruct (hasher_InitializeDigest n key hasher_init) as [[[]|] h]; [|done].
  unfold mbind, M_bind, mret, M_ret. destruct (hasher_Update a h) as [[[]|] h']; [|done].
  by destruct (hasher_Update b h') as [[[]|] h''].
Qed.

Lemma Blake2sHash_digest n data key :
  size_ok n key -> Blake2sHash n data key = digest n key data.
Proof. apply hash_one. Qed.

Lemma Initialize_bad n key h :
  ~ size_ok n key -> fst (hasher_InitializeDigest n key h) = None.
Proof.
  intros HN. unfold hasher_InitializeDigest, mbind, M_bind, modify, require.
  unfold Blake2sHashSize, Blake2sKeySize.
  destruct ((n =? 0)%nat || (32 <? n)%nat || (32 <? length key)%nat) eqn:E; [done|].
  bool_prop. destruct HN. split; lia.
Qed.

(** HMAC as RFC 2104 defines it over BLAKE2s-256. *)
Definition hmac_reference (key data : bytes) : option bytes :=
  key ← (if (length key <=? 64)%nat then Some key else digest 32 [] key);
  let padded := key ++ zeros (64 - length key) in
  inner ← digest 32 [] (((fun b => Z.lxor b 0x36) <$> padded) ++ data);
  digest 32 [] (((fun b => Z.lxor b 0x5c) <$> padded) ++ inner).

Lemma size_ok_32 : size_ok 32 [].
Proof. split; simpl; lia. Qed.
#[export] Hint Resolve size_ok_32 : wg.

Lemma pad_zeros (l : bytes) : (length l <= 64)%nat -> write_at (zeros 64) 0 l = l ++ zeros (64 - length l).
Proof.
  intros. unfold write_at, zeros. rewrite take_0, drop_replicate. done.
Qed.

Lemma Blake2sHmac_reference key data : Blake2sHmac key data = hmac_reference key data.
Proof.
  unfold Blake2sHmac, hmac_reference, xor_pad. unfold Blake2sBlockSize, Blake2sHashSize.
  rewrite Blake2sHash_digest by auto with wg.
  assert (forall (o : option bytes),
    (nk ← o; inner_hash ← with_hasher (_ ← hasher_InitializeDigest 32 [];
        _ ← hasher_Update ((fun b => Z.lxor b 54) <$> nk); _ ← hasher_Update data; hasher_Final 32);
      with_hasher (_ ← hasher_InitializeDigest 32 [];
        _ ← hasher_Update ((fun b => Z.lxor b 92) <$> nk); _ ← hasher_Update inner_hash; hasher_Final 32))
    = (nk ← o; inner ← digest 32 [] (((fun b => Z.lxor b 0x36) <$> nk) ++ data);
       digest 32 [] (((fun b => Z.lxor b 0x5c) <$> nk) ++ inner))) as HO.
  { intros [nk|]; [|done]. cbn [mbind option_bind]. rewrite hash_two by auto with wg.
    destruct (digest 32 [] _); [|done]. cbn [mbind option_bind]. by rewrite hash_two by auto with wg. }
  rewrite HO. destruct (Nat.ltb_spec 64 (length key)) as [H|H].
  - rewrite (proj2 (Nat.leb_gt _ _)) by lia.
    destruct (digest_Some 32 [] key size_ok_32) as (d & Ed & Hd & _). rewrite Ed.
    cbn [mbind option_bind]. by rewrite pad_zeros by lia.
  - rewrite (proj2 (Nat.leb_le _ _)) by lia.
    destruct (Nat.eqb_spec (length key) 0) as [E|E]; cbn [negb mbind option_bind].
    + by destruct key.
    + by rewrite pad_zeros by lia.
Qed.

Lemma Blake2sHmac_Some key data : exists d, Blake2sHmac key data = Some d /\ bytes_of 32 d.
Proof.
  rewrite Blake2sHmac_reference. unfold hmac_reference.
  destruct (if (length key <=? 64)%nat then Some key else digest 32 [] key) as [k|] eqn:EK.
  - cbn [mbind option_bind].
    destruct (digest_Some 32 [] ((((fun b => Z.lxor b 0x36) <$> (k ++ zeros (64 - length k))) ++ data))
      size_ok_32) as (i & -> & _). cbn [mbind option_bind]. apply digest_Some, size_ok_32.
  - destruct (Nat.leb (length key) 64); [done|].
    destruct (digest_Some 32 [] key size_ok_32) as (d & Ed & _). congruence.
Qed.

(** Hashing through the [Blake2sHasher] object is total and computes plain
    BLAKE2s: for digest sizes 1 to 32 and keys of at most 32 bytes every sequence
    of updates yields the digest of the concatenated data, of the requested size;
    any other size is refused; and the HMAC is RFC 2104's over BLAKE2s-256 and
    never fails. *)
Theorem hashing_total n key pieces :
  let m := with_hasher (_ ← hasher_InitializeDigest n key; _ ← updates pieces; hasher_Final n) in
  (if decide (0 < n <= 32 /\ length key <= 32)%nat
   then m = digest n key (concat pieces) /\ exists d, m = Some d /\ bytes_of n d
   else m = None) /\
  (forall k data, Blake2sHmac k data = hmac_reference k data /\
                  exists d, Blake2sHmac k data = Some d /\ bytes_of 32 d).
Proof.
  intros m. split; [|split; [apply Blake2sHmac_reference|apply Blake2sHmac_Some]].
  case_decide as HS; [change (size_ok n key) in HS|].
  - unfold m. rewrite hash_pieces by done. split; [done|]. by apply digest_Some.
  - unfold m, with_hasher, mbind, M_bind at 1. pose proof (Initialize_bad n key hasher_init HS) as E.
    by destruct (hasher_InitializeDigest n key hasher_init) as [[|] h].
Qed.

(** ** An instance of the primitives *)

(** A toy cipher that authenticates the plaintext with a keyed BLAKE2s tag, and a
    toy group whose public keys are the private ones and whose shared secret is
    the exclusive or, made non-zero in its first byte. *)
Definition toy_tag (key nonce aad plaintext : bytes) : bytes :=
  default (zeros 16) (digest 16 (take 32 key)
    (StoreLe32 (Z.of_nat (length nonce)) ++ nonce
     ++ StoreLe32 (Z.of_nat (length aad)) ++ aad ++ plaintext)).
Definition toy_write (key nonce aad plaintext : bytes) : bytes * bytes :=
  (plaintext, toy_tag key nonce aad plaintext).
Definition toy_read (key nonce aad ciphertext tag : bytes) : option bytes :=
  if bool_decide (tag = toy_tag key nonce aad ciphertext) then Some ciphertext else None.
Definition toy_x25519 (scalar point : bytes) : bytes :=
  1 :: tail (zip_with (fun a b => u8 (a + b)) scalar point).

Definition toy_primitives : Primitives := {|
  crypto_aead_ietf_write := toy_write; crypto_aead_ietf_read := toy_read;
  crypto_aead_x_write := toy_write; crypto_aead_x_read := toy_read;
  crypto_x25519 := toy_x25519; crypto_x25519_public_key := id;
  IsSameBytes := fun lhs rhs => bool_decide (lhs = rhs) |}.

Lemma toy_aead_laws n : aead_laws n toy_write toy_read.
Proof.
  split.
  - intros key nonce aad p [HK1 HK2] HN HA HP. split; [by split|]. simpl. unfold toy_tag.
    destruct (digest_Some 16 (take 32 key) (StoreLe32 (Z.of_nat (length nonce)) ++ nonce
     ++ StoreLe32 (Z.of_nat (length aad)) ++ aad ++ p)) as (d & -> & Hd); [|done].
    split; [lia|]. rewrite length_take. lia.
  - intros key nonce aad p _ _ _ _. unfold toy_read. simpl. by rewrite bool_decide_true.
  - intros key nonce aad c tag p _ _ _ HC _. unfold toy_read. case_bool_decide as E; [|done].
    intros [= <-]. split; [done|]. by rewrite E.
Qed.

Lemma toy_x25519_size scalar point :
  bytes_of 32 scalar -> bytes_of 32 point -> bytes_of 32 (toy_x25519 scalar point).
Proof.
  intros [Ha1 Ha2] [Hb1 Hb2]. unfold toy_x25519.
  assert (bytes_ok (zip_with (fun a b => u8 (a + b)) scalar point)) as HB.
  { clear. revert point. induction scalar as [|a s IH]; intros [|b p]; simpl; try constructor.
    - apply wrap_width. lia.
    - apply IH. }
  assert (length (zip_with (fun a b => u8 (a + b)) scalar point) = 32%nat) as HL
    by (rewrite length_zip_with; lia).
  destruct (zip_with _ scalar point) as [|x l]; [done|]. cbn [tail]. split; [done|].
  apply bytes_ok_cons in HB as [_ HB]. apply bytes_ok_cons. split; [|done]. unfold in_width. lia.
Qed.

#[export] Instance toy_laws : PrimitivesLaws toy_primitives.
Proof.
  split.
  - apply toy_aead_laws.
  - apply toy_aead_laws.
  - apply toy_x25519_size.
  - done.
  - intros a b _ _. simpl. unfold toy_x25519, id. f_equal. f_equal.
    rewrite <- zip_with_flip. apply zip_with_ext; [|done|done]. intros. simpl. by rewrite Z.add_comm.
  - done.
  - intros lhs rhs _. simpl. apply bool_decide_eq_true.
Qed.
