(* ===== verification/Device.v ===== *)
(** * Peers, devices and the index registry

    The protocol state of one tunnel, [wg_device] with its single [wg_peer]
    ([wireguard/device.hpp], [wireguard/peer.hpp], [wireguard/handshake.hpp]), and
    the operations on receiver indices: the allocator of
    [wireguard/index_allocator.cpp] and the registry of [wireguard/device.cpp].
    An [Env] is the device together with the clocks and entropy it uses; the
    handlers of the later files are computations on it. *)

From S2P Require Import Prelude Endian Messages PacketQueue Platform Session Timers.
Local Open Scope Z_scope.

(** ** State *)

Inductive address_family :=
  | address_family_unspecified
  | address_family_inet
  | address_family_inet6.
#[export] Instance address_family_eq_dec : EqDecision address_family.
Proof. solve_decision. Defined.

Record endpoint := mk_endpoint { ep_family : address_family; ep_port : Z; ep_address : bytes }.

Record HandshakeRateLimitEntry := mk_rate_limit {
  rl_family : address_family;
  rl_address : bytes;
  rl_last_update : Z;
  rl_tokens : Z;
  rl_active : bool;
  rl_initialized : bool
}.
#[export] Instance eta_rate_limit : Eta HandshakeRateLimitEntry := fun r =>
  mk_rate_limit (rl_family r) (rl_address r) (rl_last_update r) (rl_tokens r) (rl_active r)
    (rl_initialized r).
Definition rate_limit_init : HandshakeRateLimitEntry :=
  mk_rate_limit address_family_unspecified (zeros 16) 0 0 false false.

Record ResponderCookieState := mk_responder_cookie {
  rc_secret : noise_secret32;
  rc_secret_birth : Z;
  rc_arrival_last_update : Z;
  rc_under_load_until : Z;
  rc_arrival_tokens : Z;
  rc_arrival_initialized : bool;
  rc_rate_limits : list HandshakeRateLimitEntry
}.
#[export] Instance eta_responder_cookie : Eta ResponderCookieState := fun r =>
  mk_responder_cookie (rc_secret r) (rc_secret_birth r) (rc_arrival_last_update r)
    (rc_under_load_until r) (rc_arrival_tokens r) (rc_arrival_initialized r) (rc_rate_limits r).
Definition responder_cookie_init : ResponderCookieState :=
  mk_responder_cookie key_init 0 0 0 0 false (replicate HandshakeRateLimitSlots rate_limit_init).

Inductive HandshakeState :=
  | HandshakeState_Zeroed
  | HandshakeState_InitiationCreated
  | HandshakeState_InitiationReceived
  | HandshakeState_ResponseCreated
  | HandshakeState_ResponseReceived
  | HandshakeState_SessionDerived
  | HandshakeState_Failed.
#[export] Instance HandshakeState_eq_dec : EqDecision HandshakeState.
Proof. solve_decision. Defined.

Record noise_handshake := mk_handshake {
  hk_state : HandshakeState;
  hk_local_index : Z;
  hk_remote_index : Z;
  hk_transition_count : Z;
  hk_last_transition : Z;
  hk_last_initiation_timestamp : bytes;
  hk_last_initiation_consumption : Z;
  hk_has_last_initiation_timestamp : bool
}.
#[export] Instance eta_handshake : Eta noise_handshake := fun r =>
  mk_handshake (hk_state r) (hk_local_index r) (hk_remote_index r) (hk_transition_count r)
    (hk_last_transition r) (hk_last_initiation_timestamp r) (hk_last_initiation_consumption r)
    (hk_has_last_initiation_timestamp r).
Definition handshake_init : noise_handshake :=
  mk_handshake HandshakeState_Zeroed 0 0 0 0 (zeros TAI64NTimestampSize) 0 false.

Record HandshakeRetryState := mk_retry {
  rt_active : bool;
  rt_send_attempts : Z;
  rt_sequence_count : Z;
  rt_exhausted_sequence_count : Z
}.
#[export] Instance eta_retry : Eta HandshakeRetryState := fun r =>
  mk_retry (rt_active r) (rt_send_attempts r) (rt_sequence_count r) (rt_exhausted_sequence_count r).
Definition retry_init : HandshakeRetryState := mk_retry false 0 0 0.

Definition PeerNameCapacity : nat := 32.
Definition PeerStagedPacketCapacity : nat := 8.

Record wg_peer := mk_peer {
  pr_name : bytes;
  pr_persistent_keepalive_interval : Z;
  pr_has_preshared_key : bool;
  pr_static_identity : noise_static_identity;
  pr_handshake_material : noise_handshake_material;
  pr_cookie : noise_cookie;
  pr_handshake : noise_handshake;
  pr_timers : wg_timers;
  pr_current_keypair : noise_keypair;
  pr_next_keypair : noise_keypair;
  pr_previous_keypair : noise_keypair;
  pr_staged_outbound_packets : InnerPacketQueue;
  pr_handshake_retry : HandshakeRetryState;
  pr_last_initiation : message_handshake_initiation;
  pr_has_last_initiation : bool
}.
#[export] Instance eta_peer : Eta wg_peer := fun r =>
  mk_peer (pr_name r) (pr_persistent_keepalive_interval r) (pr_has_preshared_key r)
    (pr_static_identity r) (pr_handshake_material r) (pr_cookie r) (pr_handshake r) (pr_timers r)
    (pr_current_keypair r) (pr_next_keypair r) (pr_previous_keypair r)
    (pr_staged_outbound_packets r) (pr_handshake_retry r) (pr_last_initiation r)
    (pr_has_last_initiation r).
Definition peer_init : wg_peer :=
  mk_peer (zeros PeerNameCapacity) 0 false identity_init material_init cookie_init handshake_init
    timers_init keypair_init keypair_init keypair_init (queue_init PeerStagedPacketCapacity)
    retry_init initiation_init false.

Inductive wg_index_slot :=
  | wg_index_slot_None
  | wg_index_slot_Handshake
  | wg_index_slot_CurrentKeypair
  | wg_index_slot_NextKeypair
  | wg_index_slot_PreviousKeypair.
#[export] Instance wg_index_slot_eq_dec : EqDecision wg_index_slot.
Proof. solve_decision. Defined.

Record wg_index_registry_entry := mk_entry { re_index : Z; re_active : bool }.
Definition entry_init : wg_index_registry_entry := mk_entry 0 false.
Record wg_index_registry := mk_registry {
  ir_handshake : wg_index_registry_entry;
  ir_current_keypair : wg_index_registry_entry;
  ir_next_keypair : wg_index_registry_entry;
  ir_previous_keypair : wg_index_registry_entry
}.
#[export] Instance eta_registry : Eta wg_index_registry := fun r =>
  mk_registry (ir_handshake r) (ir_current_keypair r) (ir_next_keypair r) (ir_previous_keypair r).
Definition registry_init : wg_index_registry :=
  mk_registry entry_init entry_init entry_init entry_init.

Record wg_device := mk_device {
  dv_index_allocator : Z;
  dv_index_registry : wg_index_registry;
  dv_responder_cookie : ResponderCookieState;
  dv_peer : wg_peer;
  dv_has_peer : bool
}.
#[export] Instance eta_device : Eta wg_device := fun r =>
  mk_device (dv_index_allocator r) (dv_index_registry r) (dv_responder_cookie r) (dv_peer r)
    (dv_has_peer r).
Definition device_init : wg_device :=
  mk_device 0 registry_init responder_cookie_init peer_init false.

(** A device and the services it calls. *)
Record Env := mk_env { ev_world : World; ev_device : wg_device }.
#[export] Instance eta_env : Eta Env := fun r => mk_env (ev_world r) (ev_device r).

Abbreviation the_peer e := (dv_peer (ev_device e)).

(** Lifting operations on a part of the environment. *)
Definition on_device (f : wg_device -> wg_device) (e : Env) : Env := e <| ev_device ::= f |>.
Definition on_peer (f : wg_peer -> wg_peer) (e : Env) : Env :=
  e <| ev_device ::= fun d => d <| dv_peer ::= f |> |>.
Definition on_world {A} (f : World -> A * World) (e : Env) : A * Env :=
  let '(a, w) := f (ev_world e) in (a, e <| ev_world := w |>).

(** ** The index allocator *)

Definition wg_index_allocator_init : Z := 0.

(** The static [g_next_index] lives in the world. *)
Definition wg_index_allocator_next (allocator : Z) (w : World) : Z * Z * World :=
  let w :=
    if w_next_index w =? 0 then
      let '(seed, w) := get_random_u32 w in
      w <| w_next_index := if seed =? 0 then 1 else seed |>
    else w in
  let result := w_next_index w in
  let w := w <| w_next_index := u32 (result + 1) |> in
  let w := if w_next_index w =? 0 then w <| w_next_index := 1 |> else w in
  (result, result, w).

(** ** The registry *)

Definition GetRegistryEntry (registry : wg_index_registry) (slot : wg_index_slot)
    : option wg_index_registry_entry :=
  match slot with
  | wg_index_slot_Handshake => Some (ir_handshake registry)
  | wg_index_slot_CurrentKeypair => Some (ir_current_keypair registry)
  | wg_index_slot_NextKeypair => Some (ir_next_keypair registry)
  | wg_index_slot_PreviousKeypair => Some (ir_previous_keypair registry)
  | wg_index_slot_None => None
  end.

Definition SetRegistryEntry (slot : wg_index_slot) (index : Z) (device : wg_device) : wg_device :=
  let entry := mk_entry index (negb (index =? 0)) in
  match slot with
  | wg_index_slot_Handshake => device <| dv_index_registry ::= fun r => r <| ir_handshake := entry |> |>
  | wg_index_slot_CurrentKeypair =>
      device <| dv_index_registry ::= fun r => r <| ir_current_keypair := entry |> |>
  | wg_index_slot_NextKeypair =>
      device <| dv_index_registry ::= fun r => r <| ir_next_keypair := entry |> |>
  | wg_index_slot_PreviousKeypair =>
      device <| dv_index_registry ::= fun r => r <| ir_previous_keypair := entry |> |>
  | wg_index_slot_None => device
  end.

Definition lookup_slots : list wg_index_slot :=
  [wg_index_slot_Handshake; wg_index_slot_CurrentKeypair; wg_index_slot_NextKeypair;
   wg_index_slot_PreviousKeypair].

Definition entry_matches (registry : wg_index_registry) (index : Z) (slot : wg_index_slot) : bool :=
  match GetRegistryEntry registry slot with
  | Some entry => re_active entry && (re_index entry =? index)
  | None => false
  end.

Definition wg_device_lookup_index_slot (device : wg_device) (index : Z) : wg_index_slot :=
  if index =? 0 then wg_index_slot_None
  else
    match List.find (entry_matches (dv_index_registry device) index) lookup_slots with
    | Some slot => slot
    | None => wg_index_slot_None
    end.

Definition wg_device_index_matches_slot (device : wg_device) (slot : wg_index_slot) (index : Z) : bool :=
  if index =? 0 then false
  else
    match GetRegistryEntry (dv_index_registry device) slot with
    | Some entry => if re_active entry then re_index entry =? index else false
    | None => false
    end.

Definition IsRegisteredIndex (device : wg_device) (index : Z) : bool :=
  negb (bool_decide (wg_device_lookup_index_slot device index = wg_index_slot_None)).

Fixpoint allocate_loop (attempts : nat) (e : Env) : Z * Env :=
  match attempts with
  | O => (0, e)
  | S attempts' =>
      let '(candidate, allocator, w) :=
        wg_index_allocator_next (dv_index_allocator (ev_device e)) (ev_world e) in
      let e := mk_env w ((ev_device e) <| dv_index_allocator := allocator |>) in
      if negb (candidate =? 0) && negb (IsRegisteredIndex (ev_device e) candidate) then (candidate, e)
      else allocate_loop attempts' e
  end.
Definition wg_device_allocate_index (e : Env) : Z * Env := allocate_loop 32 e.

Definition wg_device_clear_index_registry (device : wg_device) : wg_device :=
  device <| dv_index_registry := registry_init |>.

Definition wg_device_register_handshake_index (index : Z) : wg_device -> wg_device :=
  SetRegistryEntry wg_index_slot_Handshake index.

Definition wg_device_reset (device : wg_device) : wg_device := device_init.

Definition valid_index (k : noise_keypair) : Z :=
  if keypair_IsValid k then kp_local_index k else 0.

Definition wg_device_refresh_keypair_indices (peer : wg_peer) (device : wg_device) : wg_device :=
  let device := SetRegistryEntry wg_index_slot_Handshake 0 device in
  let device := SetRegistryEntry wg_index_slot_CurrentKeypair
                  (valid_index (pr_current_keypair peer)) device in
  let device := SetRegistryEntry wg_index_slot_NextKeypair
                  (valid_index (pr_next_keypair peer)) device in
  SetRegistryEntry wg_index_slot_PreviousKeypair (valid_index (pr_previous_keypair peer)) device.

(** [wg_device_promote_next_keypair] on the device's own peer. *)
Definition wg_device_promote_next_keypair (device : wg_device) : bool * wg_device :=
  let peer := dv_peer device in
  if negb (keypair_IsValid (pr_next_keypair peer)) then (false, device)
  else
    let peer := peer <| pr_previous_keypair ::= keypair_Reset |> in
    let '(previous, current) := keypair_move (pr_previous_keypair peer) (pr_current_keypair peer) in
    let peer := peer <| pr_previous_keypair := previous |> <| pr_current_keypair := current |> in
    let peer := peer <| pr_current_keypair ::= keypair_Reset |> in
    let '(current, next) := keypair_move (pr_current_keypair peer) (pr_next_keypair peer) in
    let peer := peer <| pr_current_keypair := current |> <| pr_next_keypair := next |> in
    let peer := peer <| pr_next_keypair ::= keypair_Reset |> in
    let device := device <| dv_peer := peer |> in
    (true, wg_device_refresh_keypair_indices peer device).

Definition wg_peer_keypair_for_slot (peer : wg_peer) (slot : wg_index_slot) : option noise_keypair :=
  match slot with
  | wg_index_slot_CurrentKeypair => Some (pr_current_keypair peer)
  | wg_index_slot_NextKeypair => Some (pr_next_keypair peer)
  | wg_index_slot_PreviousKeypair => Some (pr_previous_keypair peer)
  | wg_index_slot_Handshake | wg_index_slot_None => None
  end.

(** Writing through the pointer [wg_peer_keypair_for_slot] returns. *)
Definition set_keypair_for_slot (slot : wg_index_slot) (k : noise_keypair) (peer : wg_peer) : wg_peer :=
  match slot with
  | wg_index_slot_CurrentKeypair => peer <| pr_current_keypair := k |>
  | wg_index_slot_NextKeypair => peer <| pr_next_keypair := k |>
  | wg_index_slot_PreviousKeypair => peer <| pr_previous_keypair := k |>
  | wg_index_slot_Handshake | wg_index_slot_None => peer
  end.

(** [None] is the null pointer. *)
Definition wg_device_first_peer (device : wg_device) : option wg_peer :=
  if dv_has_peer device then Some (dv_peer device) else None.

(** ** Lookup *)

(** The entry of a slot names [index]. *)
Definition registered (registry : wg_index_registry) (slot : wg_index_slot) (index : Z) : Prop :=
  exists entry, GetRegistryEntry registry slot = Some entry /\ re_active entry = true /\
                re_index entry = index.

Lemma entry_matches_registered registry index slot :
  entry_matches registry index slot = true <-> registered registry slot index.
Proof.
  unfold entry_matches, registered. destruct (GetRegistryEntry registry slot) as [entry|].
  - rewrite andb_true_iff, Z.eqb_eq. split; [intros []; eauto|]. by intros (? & [= <-] & ? & ?).
  - split; [done|]. by intros (? & ? & _).
Qed.

Lemma lookup_registered device index slot :
  wg_device_lookup_index_slot device index = slot -> slot <> wg_index_slot_None ->
  index <> 0 /\ registered (dv_index_registry device) slot index.
Proof.
  unfold wg_device_lookup_index_slot. intros E N. case_if_in E; [congruence|]. bool_prop.
  destruct (List.find _ _) as [s|] eqn:EF; [|congruence]. subst s.
  apply find_some in EF as [_ EF]. by rewrite entry_matches_registered in EF.
Qed.

Lemma lookup_none device index :
  index <> 0 ->
  (wg_device_lookup_index_slot device index = wg_index_slot_None <->
   forall slot, slot ∈ lookup_slots -> ~ registered (dv_index_registry device) slot index).
Proof.
  intros HN. unfold wg_device_lookup_index_slot. rewrite (proj2 (Z.eqb_neq _ _)) by done. split.
  - intros E slot Hs HR. destruct (List.find _ _) as [s|] eqn:EF.
    + apply find_some in EF as [Hin _]. subst s. simpl in Hin. by destruct Hin as [?|[?|[?|[?|[]]]]].
    + apply list_elem_of_In in Hs. pose proof (find_none _ _ EF slot Hs) as HF.
      apply entry_matches_registered in HR. congruence.
  - intros H. destruct (List.find _ _) as [s|] eqn:EF; [|done].
    apply find_some in EF as [Hin EF]. apply entry_matches_registered in EF.
    apply list_elem_of_In in Hin. exfalso. by apply (H s).
Qed.

(** ** Allocation *)

(** Seeding of the static counter on the first use. *)
Definition prime (w : World) : World :=
  if w_next_index w =? 0 then
    let '(seed, w) := get_random_u32 w in w <| w_next_index := if seed =? 0 then 1 else seed |>
  else w.

Lemma prime_ok w :
  world_ok w ->
  world_ok (prime w) /\ generation_ok (w_next_index (prime w)) /\ same_services w (prime w).
Proof.
  intros HW. unfold prime, generation_ok. destruct (Z.eqb_spec (w_next_index w) 0) as [E|E].
  - pose proof (get_random_u32_ok w HW) as [HS HW'].
    assert (same_services w (snd (get_random_u32 w))) as HSS by done.
    destruct (get_random_u32 w) as [seed w']. simpl in HS, HW', HSS. unfold in_width in HS.
    destruct HW' as [H1 H2 H3].
    destruct (Z.eqb_spec seed 0); unfold upd; simpl; (split; [split; simpl; unfold in_width; done||lia|]);
      (split; [lia|done]).
  - destruct HW as [H1 H2 H3]. split; [by split|]. unfold in_width in H3. split; [lia|done].
Qed.

Lemma next_primed a w :
  world_ok w -> generation_ok (w_next_index w) ->
  wg_index_allocator_next a w
  = (w_next_index w, w_next_index w, w <| w_next_index := generation_after (w_next_index w) 1 |>).
Proof.
  intros HW HG. unfold wg_index_allocator_next. unfold generation_ok in HG.
  rewrite (proj2 (Z.eqb_neq _ _)) by lia. f_equal. destruct w as [m mr r rr en eu g]. unfold upd.
  simpl in *. unfold generation_after, wrap. replace (g - 1 + 1) with g by lia.
  destruct (Z.eq_dec g (2 ^ 32 - 1)) as [->|]; [done|].
  rewrite !Z.mod_small by lia. by rewrite (proj2 (Z.eqb_neq (g + 1) 0)) by lia.
Qed.

Lemma next_prime a w : world_ok w -> wg_index_allocator_next a w = wg_index_allocator_next a (prime w).
Proof.
  intros HW. destruct (prime_ok w HW) as (_ & HG & _). unfold wg_index_allocator_next.
  fold (prime w). unfold generation_ok in HG. by rewrite (proj2 (Z.eqb_neq (w_next_index (prime w)) 0)) by lia.
Qed.

Lemma set_next_ok w g : world_ok w -> generation_ok g -> world_ok (w <| w_next_index := g |>).
Proof. intros [H1 H2 H3] Hg. split; [done|done|]. unfold generation_ok in Hg. split; simpl; lia. Qed.

(** What a change of environment by the allocator leaves alone. *)
Record allocator_frame (e e' : Env) : Prop := {
  af_world : world_ok (ev_world e');
  af_services : same_services (ev_world e) (ev_world e');
  af_registry : dv_index_registry (ev_device e') = dv_index_registry (ev_device e);
  af_peer : the_peer e' = the_peer e;
  af_cookie : dv_responder_cookie (ev_device e') = dv_responder_cookie (ev_device e);
  af_has_peer : dv_has_peer (ev_device e') = dv_has_peer (ev_device e)
}.

Lemma allocate_loop_primed n e g k :
  world_ok (ev_world e) -> generation_ok g ->
  w_next_index (ev_world e) = generation_after g k ->
  let '(c, e') := allocate_loop n e in
  allocator_frame e e' /\
  ((c <> 0 /\ is_u32 c /\ IsRegisteredIndex (ev_device e) c = false) \/
   (c = 0 /\ forall j, 0 <= j < Z.of_nat n ->
      IsRegisteredIndex (ev_device e) (generation_after g (k + j)) = true)).
Proof.
  revert e k. induction n as [|n IH]; intros e k HW Hg EN.
  { simpl. split; [by split|]. right. split; [done|]. intros. lia. }
  cbn [allocate_loop]. pose proof (generation_after_ok g k) as Hk.
  rewrite next_primed by (rewrite ?EN; done). rewrite EN.
  set (c := generation_after g k) in *.
  set (e1 := mk_env _ _).
  assert (allocator_frame e e1) as HF.
  { unfold e1. split; try done. apply set_next_ok; [done|apply generation_after_ok]. }
  assert (forall i, IsRegisteredIndex (ev_device e1) i = IsRegisteredIndex (ev_device e) i) as HR by done.
  unfold generation_ok in Hk. rewrite (proj2 (Z.eqb_neq c 0)) by lia. cbn [negb andb].
  rewrite HR. destruct (IsRegisteredIndex (ev_device e) c) eqn:ER; cbn [negb].
  - specialize (IH e1 (k + 1)). destruct (allocate_loop n e1) as [c' e'].
    destruct IH as [[F1 F2 F3 F4 F5 F6] HC].
    { apply HF. } { done. } { unfold e1. simpl. apply generation_after_add. }
    destruct HF as [G1 G2 G3 G4 G5 G6]. split.
    + split; [exact F1|etransitivity; [exact G2|exact F2]|congruence..].
    + destruct HC as [HC|[-> HC]]; [by left|right]. split; [done|]. intros j Hj.
      destruct (Z.eq_dec j 0) as [->|]; [by rewrite Z.add_0_r|].
      replace (k + j) with (k + 1 + (j - 1)) by lia. apply HC. lia.
  - split; [done|]. left. split; [lia|]. split; [split; lia|done].
Qed.

(** At most four indices are registered at a time. *)
Definition registered_indices (registry : wg_index_registry) : list Z :=
  [re_index (ir_handshake registry); re_index (ir_current_keypair registry);
   re_index (ir_next_keypair registry); re_index (ir_previous_keypair registry)].

Lemma IsRegisteredIndex_in device index :
  IsRegisteredIndex device index = true -> In index (registered_indices (dv_index_registry device)).
Proof.
  unfold IsRegisteredIndex. intros E. apply negb_true_iff, bool_decide_eq_false in E.
  destruct (lookup_registered device index _ eq_refl E) as (_ & entry & EG & _ & EI).
  unfold registered_indices. destruct (wg_device_lookup_index_slot device index);
    simplify_eq/=; tauto.
Qed.

Lemma allocate_index_spec e :
  world_ok (ev_world e) ->
  let '(c, e') := wg_device_allocate_index e in
  allocator_frame e e' /\ c <> 0 /\ is_u32 c /\ IsRegisteredIndex (ev_device e) c = false.
Proof.
  intros HW. unfold wg_device_allocate_index.
  destruct (prime_ok (ev_world e) HW) as (HW' & HG & HS).
  set (g := w_next_index (prime (ev_world e))) in *.
  assert (allocate_loop 32 e = allocate_loop 32 (e <| ev_world := prime (ev_world e) |>)) as ->.
  { cbn [allocate_loop]. change (ev_world (e <| ev_world := prime (ev_world e) |>)) with (prime (ev_world e)).
    change (ev_device (e <| ev_world := prime (ev_world e) |>)) with (ev_device e).
    by rewrite next_prime. }
  pose proof (allocate_loop_primed 32 (e <| ev_world := prime (ev_world e) |>) g 0 HW' HG) as HL.
  destruct (allocate_loop 32 _) as [c e']. destruct HL as [[F1 F2 F3 F4 F5 F6] HC].
  { unfold generation_after. unfold generation_ok in HG. rewrite Z.mod_small by lia. simpl.
    fold g. lia. }
  split; [split; try done; etransitivity; [exact HS|exact F2]|].
  destruct HC as [?|[_ HC]]; [done|]. exfalso.
  set (cs := (fun j => generation_after g (Z.of_nat j)) <$> seq 0 5).
  assert (NoDup cs) as HN.
  { unfold cs. apply NoDup_fmap_2_strong; [|apply NoDup_seq].
    intros i j Hi%elem_of_seq Hj%elem_of_seq E. unfold generation_after in E.
    change (2 ^ 32 - 1) with 4294967295 in E. Z.to_euclidean_division_equations. lia. }
  apply NoDup_ListNoDup in HN.
  apply (NoDup_incl_length) with (l' := registered_indices (dv_index_registry (ev_device e))) in HN;
    [simpl in HN; lia|].
  intros c' Hc'. apply list_elem_of_In, list_elem_of_fmap in Hc' as (j & -> & Hj%elem_of_seq).
  apply IsRegisteredIndex_in. apply (HC (Z.of_nat j)). lia.
Qed.

(** The index allocated depends on the registry, the static counter and the
    entropy stream only. *)
Definition allocation_view (e : Env) : wg_index_registry * Z * (nat -> Z) * nat :=
  (dv_index_registry (ev_device e), w_next_index (ev_world e), w_entropy (ev_world e),
   w_entropy_used (ev_world e)).

Lemma allocate_loop_view n e e' :
  allocation_view e = allocation_view e' -> fst (allocate_loop n e) = fst (allocate_loop n e').
Proof.
  revert e e'. induction n as [|n IH]; intros [w d] [w' d']; [done|].
  unfold allocation_view. cbn [ev_world ev_device]. intros E. injection E as ER EI EE EU.
  cbn [allocate_loop ev_world ev_device].
  assert (exists c a1 a2 w1 w2,
    wg_index_allocator_next (dv_index_allocator d) w = (c, a1, w1) /\
    wg_index_allocator_next (dv_index_allocator d') w' = (c, a2, w2) /\
    w_next_index w1 = w_next_index w2 /\ w_entropy w1 = w_entropy w2 /\
    w_entropy_used w1 = w_entropy_used w2) as (c & a1 & a2 & w1 & w2 & -> & -> & E1 & E2 & E3).
  { unfold wg_index_allocator_next, get_random_u32, get_random_bytes. rewrite <- EI.
    destruct (Z.eqb_spec (w_next_index w) 0).
    - rewrite EE, EU. unfold upd. cbn -[LoadLe32 fmap wrap].
      repeat case_match; do 5 eexists; split_and!; try reflexivity; cbn; congruence.
    - cbn. unfold upd. rewrite <- EI.
      repeat case_match; do 5 eexists; split_and!; try reflexivity; cbn; congruence. }
  set (e1 := mk_env w1 _). set (e2 := mk_env w2 _).
  assert (IsRegisteredIndex (d' <| dv_index_allocator := a2 |>) c
          = IsRegisteredIndex (d <| dv_index_allocator := a1 |>) c) as ->.
  { unfold IsRegisteredIndex, wg_device_lookup_index_slot, upd. cbn. by rewrite ER. }
  destruct (negb (c =? 0) && _); [done|]. apply IH. unfold allocation_view, e1, e2, upd. cbn. congruence.
Qed.

Lemma allocate_index_view e e' :
  allocation_view e = allocation_view e' ->
  fst (wg_device_allocate_index e) = fst (wg_device_allocate_index e').
Proof. apply allocate_loop_view. Qed.

(** Allocation reads no clock. *)
Lemma allocate_loop_reads n e :
  let w := ev_world e in let w' := ev_world (snd (allocate_loop n e)) in
  w_monotonic_reads w' = w_monotonic_reads w /\ w_realtime_reads w' = w_realtime_reads w.
Proof.
  revert e. induction n as [|n IH]; intros [w d]; [done|]. cbn [allocate_loop ev_world ev_device].
  assert (forall a, let '(_, _, w') := wg_index_allocator_next a w in
    w_monotonic_reads w' = w_monotonic_reads w /\ w_realtime_reads w' = w_realtime_reads w) as HN.
  { intros a. unfold wg_index_allocator_next, get_random_u32, get_random_bytes, upd. by repeat case_if. }
  specialize (HN (dv_index_allocator d)). destruct (wg_index_allocator_next _ w) as [[c a'] w'].
  destruct HN as [H1 H2].
  destruct (negb (c =? 0) && _); [done|].
  specialize (IH (mk_env w' (d <| dv_index_allocator := a' |>))). cbn [ev_world] in IH.
  destruct IH as [I1 I2]. split; congruence.
Qed.

(** ** The registry after a refresh *)

(** An entry written by [SetRegistryEntry]. *)
Lemma registered_entry index i :
  (exists entry, Some (mk_entry index (negb (index =? 0))) = Some entry /\ re_active entry = true /\
                 re_index entry = i) <-> index <> 0 /\ i = index.
Proof.
  split.
  - intros (? & [= <-] & HA & <-). simpl in HA. by bool_prop.
  - intros [HN ->]. eexists. split; [done|]. simpl. by rewrite (proj2 (Z.eqb_neq _ _)).
Qed.

(** The registry says exactly which index each keypair of the peer answers to. *)
Definition registry_synced (device : wg_device) : Prop :=
  forall slot i,
    registered (dv_index_registry device) slot i <->
    exists k, wg_peer_keypair_for_slot (dv_peer device) slot = Some k /\
              keypair_IsValid k = true /\ i = kp_local_index k.

Lemma valid_index_registered k i :
  (valid_index k <> 0 /\ i = valid_index k) <->
  exists k', Some k = Some k' /\ keypair_IsValid k' = true /\ i = kp_local_index k'.
Proof.
  unfold valid_index. destruct (keypair_IsValid k) eqn:E.
  - split; [intros [_ ->]; eauto|]. intros (? & [= <-] & _ & ->).
    split; [|done]. by apply keypair_IsValid_iff in E as (_ & ? & _).
  - split; [lia|]. intros (? & [= <-] & ? & _). congruence.
Qed.

Lemma refresh_synced device :
  registry_synced (wg_device_refresh_keypair_indices (dv_peer device) device).
Proof.
  intros slot i. unfold registered.
  destruct slot; cbn; try (rewrite registered_entry; apply valid_index_registered).
  - split; [by intros (? & ? & _)|by intros (? & ? & _)].
  - split; [|by intros (? & ? & _)]. intros (? & [= <-] & HA & _). done.
Qed.

(** Every valid keypair of the peer is registered under its local index. *)
Definition keypairs_registered (device : wg_device) : Prop :=
  forall slot k, wg_peer_keypair_for_slot (dv_peer device) slot = Some k ->
    keypair_IsValid k = true -> registered (dv_index_registry device) slot (kp_local_index k).

Lemma synced_registered device : registry_synced device -> keypairs_registered device.
Proof. intros HS slot k Ek HV. apply HS. eauto. Qed.

(** The slot an index is routed to once the registry was refreshed. *)
Lemma synced_lookup_current device :
  registry_synced device -> keypair_IsValid (pr_current_keypair (dv_peer device)) = true ->
  wg_device_lookup_index_slot device (kp_local_index (pr_current_keypair (dv_peer device)))
  = wg_index_slot_CurrentKeypair.
Proof.
  intros HS HV. apply keypair_IsValid_iff in HV as HV'. destruct HV' as (_ & HL & _).
  unfold wg_device_lookup_index_slot. rewrite (proj2 (Z.eqb_neq _ _)) by done.
  unfold lookup_slots. cbn [List.find].
  destruct (entry_matches _ _ wg_index_slot_Handshake) eqn:EH.
  { apply entry_matches_registered, HS in EH as (k & ? & _). done. }
  rewrite (proj2 (entry_matches_registered _ _ wg_index_slot_CurrentKeypair)); [done|].
  apply HS. eauto.
Qed.

Lemma synced_lookup_next device :
  registry_synced device -> keypair_IsValid (pr_next_keypair (dv_peer device)) = true ->
  (keypair_IsValid (pr_current_keypair (dv_peer device)) = true ->
   kp_local_index (pr_current_keypair (dv_peer device))
   <> kp_local_index (pr_next_keypair (dv_peer device))) ->
  wg_device_lookup_index_slot device (kp_local_index (pr_next_keypair (dv_peer device)))
  = wg_index_slot_NextKeypair.
Proof.
  intros HS HV HD. apply keypair_IsValid_iff in HV as HV'. destruct HV' as (_ & HL & _).
  unfold wg_device_lookup_index_slot. rewrite (proj2 (Z.eqb_neq _ _)) by done.
  unfold lookup_slots. cbn [List.find].
  destruct (entry_matches _ _ wg_index_slot_Handshake) eqn:EH.
  { apply entry_matches_registered, HS in EH as (k & ? & _). done. }
  destruct (entry_matches _ _ wg_index_slot_CurrentKeypair) eqn:EC.
  { apply entry_matches_registered, HS in EC as (k & Ek & ? & ?). simplify_eq/=. exfalso. by apply HD. }
  rewrite (proj2 (entry_matches_registered _ _ wg_index_slot_NextKeypair)); [done|].
  apply HS. eauto.
Qed.

Lemma promote_spec device :
  let peer := dv_peer device in
  keypair_IsValid (pr_next_keypair peer) = true ->
  wg_device_promote_next_keypair device
  = (true, wg_device_refresh_keypair_indices
             (peer <| pr_previous_keypair := pr_current_keypair peer |>
                   <| pr_current_keypair := pr_next_keypair peer |>
                   <| pr_next_keypair := keypair_init |>)
             (device <| dv_peer := peer <| pr_previous_keypair := pr_current_keypair peer |>
                   <| pr_current_keypair := pr_next_keypair peer |>
                   <| pr_next_keypair := keypair_init |> |>)).
Proof.
  intros peer HV. unfold wg_device_promote_next_keypair. fold peer. rewrite HV. cbn [negb].
  rewrite !keypair_move_spec. reflexivity.
Qed.

(** ** Properties *)

(** Allocation of receiver indices always succeeds: it returns a non-zero
    32-bit index that the registry does not hold, within the 32 attempts of the
    loop, and changes nothing but the allocator and the entropy position.  (The
    candidates are consecutive and skip zero, and at most four indices are
    registered.) *)
Theorem allocate_index_fresh e (H : world_ok (ev_world e)) :
  let '(index, e') := wg_device_allocate_index e in
  index <> 0 /\ is_u32 index /\
  wg_device_lookup_index_slot (ev_device e) index = wg_index_slot_None /\
  the_peer e' = the_peer e /\
  dv_index_registry (ev_device e') = dv_index_registry (ev_device e) /\
  world_ok (ev_world e').
Proof.
  pose proof (allocate_index_spec e H) as HA. destruct (wg_device_allocate_index e) as [c e'].
  destruct HA as ([F1 F2 F3 F4 F5 F6] & Hc & Hu & HR). split_and!; try done; try apply Hu.
  unfold IsRegisteredIndex in HR. by apply negb_false_iff, bool_decide_eq_true in HR.
Qed.

(** Promotion of the confirmed keypair.  Without a valid next keypair nothing
    changes.  Otherwise the next keypair becomes current, the old current becomes
    previous, the next slot is emptied, and from then on a receiver index is
    routed to a slot only if that slot holds a valid keypair with that local
    index, an index of no valid keypair is routed nowhere, and the promoted
    keypair's own index is routed to the current slot. *)
Theorem promote_routes device :
  let '(promoted, device') := wg_device_promote_next_keypair device in
  let peer := dv_peer device in let peer' := dv_peer device' in
  if keypair_IsValid (pr_next_keypair peer) then
    promoted = true /\
    pr_current_keypair peer' = pr_next_keypair peer /\
    pr_previous_keypair peer' = pr_current_keypair peer /\
    pr_next_keypair peer' = keypair_init /\
    wg_device_lookup_index_slot device' (kp_local_index (pr_next_keypair peer))
    = wg_index_slot_CurrentKeypair /\
    (forall i slot, wg_device_lookup_index_slot device' i = slot -> slot <> wg_index_slot_None ->
       exists k, wg_peer_keypair_for_slot peer' slot = Some k /\ keypair_IsValid k = true /\
                 kp_local_index k = i) /\
    (forall i slot k, wg_peer_keypair_for_slot peer' slot = Some k -> keypair_IsValid k = true ->
       kp_local_index k = i -> wg_device_lookup_index_slot device' i <> wg_index_slot_None)
  else promoted = false /\ device' = device.
Proof.
  destruct (keypair_IsValid (pr_next_keypair (dv_peer device))) eqn:HV.
  2: { unfold wg_device_promote_next_keypair. by rewrite HV. }
  rewrite promote_spec by done.
  set (peer' := _ <| pr_next_keypair := keypair_init |>).
  pose proof (refresh_synced (device <| dv_peer := peer' |>)) as HS.
  change (dv_peer (device <| dv_peer := peer' |>)) with peer' in HS.
  set (device' := wg_device_refresh_keypair_indices peer' (device <| dv_peer := peer' |>)) in *.
  assert (dv_peer device' = peer') as EP by done. rewrite EP.
  cbn zeta. rewrite HV. unfold registry_synced in HS. rewrite EP in HS.
  apply keypair_IsValid_iff in HV as HV'. destruct HV' as (_ & HL & _).
  split_and!; try done.
  - rewrite <- (synced_lookup_current device'); [done| |].
    + intros slot i. rewrite EP. apply HS.
    + by rewrite EP.
  - intros i slot E N. destruct (lookup_registered _ _ _ E N) as [_ HR].
    apply HS in HR as (k & ? & ? & ->). eauto.
  - intros i slot k Ek Hk <- E. apply keypair_IsValid_iff in Hk as HK'. destruct HK' as (_ & HLk & _).
    assert (slot ∈ lookup_slots) as Hin.
    { apply list_elem_of_In. destruct slot; simpl; try done; tauto. }
    apply (proj1 (lookup_none device' _ HLk) E slot Hin). apply HS. eauto.
Qed.

Lemma allocate_index_fresh_witness :
  let '(index, e') := wg_device_allocate_index (mk_env (sample_world 0 1 9) device_init) in
  index <> 0 /\ is_u32 index.
Proof.
  pose proof (allocate_index_fresh (mk_env (sample_world 0 1 9) device_init)
    (sample_world_ok 0 1 9)) as H.
  destruct (wg_device_allocate_index _) as [index e']. destruct H as (? & ? & _). by split.
Defined.
