(* ===== verification/Data.v ===== *)
(** * Transport data

    Models [wireguard/data.hpp] and [wireguard/data.cpp]: the padding of
    payloads, sealing a payload under a keypair, opening a received packet, and
    routing an incoming packet to the keypair its receiver index names.  A span
    the C++ writes through is passed in and returned; sizes are 64-bit. *)

From S2P Require Import Prelude Endian Messages Replay Platform Session Crypto Device.
Local Open Scope Z_scope.

(** ** Types *)

Inductive TransportDataError :=
  | TransportDataError_None
  | TransportDataError_InvalidArgument
  | TransportDataError_InvalidKeypair
  | TransportDataError_KeyExpired
  | TransportDataError_InsufficientCapacity
  | TransportDataError_InvalidPacket
  | TransportDataError_ReceiverIndexMismatch
  | TransportDataError_CounterExhausted
  | TransportDataError_ReplayRejected
  | TransportDataError_AuthenticationFailed.
#[export] Instance TransportDataError_eq_dec : EqDecision TransportDataError.
Proof. solve_decision. Defined.

Record TransportDataDecryptResult := mk_decrypt_result {
  dr_header : message_transport_data;
  dr_payload_size : nat
}.
Definition decrypt_result_init : TransportDataDecryptResult := mk_decrypt_result transport_data_init 0.

Record TransportDataCreateResult := mk_create_result {
  tc_error : TransportDataError;
  tc_packet_size : Z;
  tc_counter : Z
}.
Definition CreateFailure (error : TransportDataError) : TransportDataCreateResult :=
  mk_create_result error 0 0.

Record IncomingTransportDataResult := mk_incoming_result {
  in_slot : wg_index_slot;
  in_decrypt : TransportDataDecryptResult;
  in_promoted_next_keypair : bool
}.
Definition incoming_result_init : IncomingTransportDataResult :=
  mk_incoming_result wg_index_slot_None decrypt_result_init false.

(** ** Sizes *)

Definition TransportDataPaddingBlockSize : Z := 16.

Definition round_up (size : Z) : Z :=
  u64 (u64 (u64 (size + TransportDataPaddingBlockSize) - 1) / TransportDataPaddingBlockSize
       * TransportDataPaddingBlockSize).

Definition GetPaddedTransportPayloadSize (payload_size : Z) : Z :=
  if payload_size =? 0 then 0 else round_up payload_size.

(** The overload with an MTU. *)
Definition GetPaddedTransportPayloadSize_mtu (payload_size mtu : Z) : Z :=
  if (mtu =? 0) || (payload_size =? 0) then GetPaddedTransportPayloadSize payload_size
  else
    let last_unit := if mtu <? payload_size then payload_size mod mtu else payload_size in
    let padded_last_unit := round_up last_unit in
    u64 (u64 (payload_size + (if mtu <? padded_last_unit then mtu else padded_last_unit)) - last_unit).

Definition BuildTransportNonce (counter : Z) : bytes :=
  write_at (zeros ChaCha20NonceSize) 4 (StoreLe64 counter).

Section Data.
Context {P : Primitives}.

(** ** Sealing *)

(** The result, the output span, the keypair and the world afterwards. *)
Definition noise_create_transport_data_packet (output : bytes) (keypair : noise_keypair)
    (payload : bytes) (mtu : Z) (w : World)
    : TransportDataCreateResult * bytes * noise_keypair * World :=
  let payload_size := Z.of_nat (length payload) in
  if (2 ^ 64 - 1) - (TransportDataPaddingBlockSize - 1) <? payload_size then
    (CreateFailure TransportDataError_InsufficientCapacity, output, keypair, w)
  else
    let padded_payload_size := GetPaddedTransportPayloadSize_mtu payload_size mtu in
    let required_size := u64 (u64 (Z.of_nat TransportDataHeaderSize + padded_payload_size)
                              + Z.of_nat NoiseTagSize) in
    if (required_size <? padded_payload_size) || (Z.of_nat (length output) <? required_size) then
      (CreateFailure TransportDataError_InsufficientCapacity, output, keypair, w)
    else
      let '(now, w) := GetMonotonicTime w in
      let '(state, reserved, keypair) := keypair_ReserveSendCounterAt now keypair in
      match state with
      | KeypairSendState_Invalid =>
          (CreateFailure TransportDataError_InvalidKeypair, output, keypair, w)
      | KeypairSendState_Expired =>
          (CreateFailure TransportDataError_KeyExpired, output, keypair, w)
      | KeypairSendState_CounterExhausted =>
          (CreateFailure TransportDataError_CounterExhausted, output, keypair, w)
      | KeypairSendState_Ready =>
          let counter := default 0 reserved in
          let header := mk_transport_data (SetMessageType MessageType_TransportData)
                          (kp_remote_index keypair) counter in
          let '(error, head) := SerializeTransportDataHeader (take TransportDataHeaderSize output) header in
          let output := write_at output 0 head in
          if negb (bool_decide (error = ParseError_None)) then
            (CreateFailure TransportDataError_InvalidPacket, output, keypair, w)
          else
            let padded := Z.to_nat padded_payload_size in
            let output := write_at output TransportDataHeaderSize payload in
            let output := write_at output (TransportDataHeaderSize + length payload)
                            (zeros (padded - length payload)) in
            let ciphertext := subspan output TransportDataHeaderSize padded in
            match chacha20poly1305_encrypt (length ciphertext) ciphertext []
                    (key_bytes (kp_sending_key keypair)) (BuildTransportNonce counter) with
            | None => (CreateFailure TransportDataError_AuthenticationFailed, output, keypair, w)
            | Some (encrypted, tag) =>
                let output := write_at output TransportDataHeaderSize encrypted in
                let output := write_at output (TransportDataHeaderSize + padded) tag in
                (mk_create_result TransportDataError_None required_size counter, output, keypair, w)
            end
      end.

Definition noise_create_keepalive_packet (output : bytes) (keypair : noise_keypair) (w : World)
    : TransportDataCreateResult * bytes * noise_keypair * World :=
  noise_create_transport_data_packet output keypair [] 0 w.

(** ** Opening *)

Record Opened := mk_opened {
  op_error : TransportDataError;
  op_payload : bytes;
  op_result : TransportDataDecryptResult;
  op_keypair : noise_keypair;
  op_world : World
}.

Definition noise_consume_transport_data_packet (packet : bytes) (keypair : noise_keypair)
    (out_payload : bytes) (w : World) : Opened :=
  let fail error w := mk_opened error out_payload decrypt_result_init keypair w in
  if negb (keypair_IsValid keypair) then fail TransportDataError_InvalidKeypair w
  else
    let '(now, w) := GetMonotonicTime w in
    if negb (keypair_CanReceiveAt now keypair) then fail TransportDataError_KeyExpired w
    else
      let '(parsed, header) := ParseTransportDataHeader packet transport_data_init in
      if negb (pr_success parsed) || (length packet <? TransportDataHeaderSize + NoiseTagSize)%nat
      then fail TransportDataError_InvalidPacket w
      else if negb (td_receiver_index header =? kp_local_index keypair) then
        fail TransportDataError_ReceiverIndexMismatch w
      else if RejectAfterMessages <=? td_counter header then fail TransportDataError_CounterExhausted w
      else
        let payload_size := (length packet - TransportDataHeaderSize - NoiseTagSize)%nat in
        if (length out_payload <? payload_size)%nat then fail TransportDataError_InsufficientCapacity w
        else
          let '(fresh, candidate_replay_window) :=
            Window_TryAdvance (kp_receive_replay_window keypair) (td_counter header) in
          if negb fresh then fail TransportDataError_ReplayRejected w
          else
            let ciphertext := subspan packet TransportDataHeaderSize payload_size in
            let tag := subspan packet (TransportDataHeaderSize + payload_size) NoiseTagSize in
            match chacha20poly1305_decrypt payload_size ciphertext tag []
                    (key_bytes (kp_receiving_key keypair)) (BuildTransportNonce (td_counter header)) with
            | None =>
                mk_opened TransportDataError_AuthenticationFailed
                  (write_at out_payload 0 (zeros payload_size)) decrypt_result_init keypair w
            | Some plaintext =>
                mk_opened TransportDataError_None (write_at out_payload 0 plaintext)
                  (mk_decrypt_result header payload_size)
                  (keypair <| kp_receive_replay_window := candidate_replay_window |>) w
            end.

(** ** Routing *)

(** The error, the output span, the result and the environment afterwards; the
    peer is the one of the device. *)
Definition noise_consume_incoming_transport_data_packet (packet out_payload : bytes) (e : Env)
    : TransportDataError * bytes * IncomingTransportDataResult * Env :=
  let '(parsed, header) := ParseTransportDataHeader packet transport_data_init in
  if negb (pr_success parsed) then
    (TransportDataError_InvalidPacket, out_payload, incoming_result_init, e)
  else
    let slot := wg_device_lookup_index_slot (ev_device e) (td_receiver_index header) in
    match wg_peer_keypair_for_slot (the_peer e) slot with
    | None => (TransportDataError_ReceiverIndexMismatch, out_payload, incoming_result_init, e)
    | Some keypair =>
        let o := noise_consume_transport_data_packet packet keypair out_payload (ev_world e) in
        let e := (on_peer (set_keypair_for_slot slot (op_keypair o)) e) <| ev_world := op_world o |> in
        if negb (bool_decide (op_error o = TransportDataError_None)) then
          (op_error o, op_payload o, incoming_result_init, e)
        else
          let '(promoted, e) :=
            if bool_decide (slot = wg_index_slot_NextKeypair) then
              let '(promoted, device) := wg_device_promote_next_keypair (ev_device e) in
              (promoted, e <| ev_device := device |>)
            else (false, e) in
          (TransportDataError_None, op_payload o, mk_incoming_result slot (op_result o) promoted, e)
    end.
End Data.

(** ** Sizes: padding never overflows what the size check admits *)

Lemma round_up_bounds size :
  0 <= size <= 2 ^ 64 - 16 ->
  size <= round_up size <= size + 15 /\ round_up size mod 16 = 0.
Proof.
  intros H. unfold round_up. change TransportDataPaddingBlockSize with 16.
  assert (u64 (u64 (size + 16) - 1) = size + 15) as ->.
  { destruct (Z.eq_dec size (2 ^ 64 - 16)) as [->|N]; [done|].
    rewrite (wrap_id 64 (size + 16)), wrap_id; unfold in_width; lia. }
  pose proof (Z.div_mod (size + 15) 16 ltac:(lia)) as HD.
  pose proof (Z.mod_pos_bound (size + 15) 16 ltac:(lia)) as HM.
  rewrite wrap_id by (unfold in_width; lia).
  split; [lia|]. by rewrite Z.mod_mul.
Qed.

Lemma padded_bounds size mtu :
  0 <= size <= 2 ^ 64 - 16 -> is_u64 mtu ->
  let padded := GetPaddedTransportPayloadSize_mtu size mtu in
  size <= padded <= size + 15 /\
  (mtu = 0 -> padded mod 16 = 0) /\
  (size <= mtu -> padded <= mtu /\ (padded mod 16 = 0 \/ padded = mtu)).
Proof.
  intros H Hm. unfold GetPaddedTransportPayloadSize_mtu, GetPaddedTransportPayloadSize.
  unfold in_width in Hm. cbv zeta.
  destruct (Z.eqb_spec size 0) as [->|N]; [rewrite orb_true_r; split_and!; done || (intros; lia) || (intros; split; [lia|by left])|].
  pose proof (round_up_bounds size H) as [B M].
  destruct (Z.eqb_spec mtu 0) as [->|Nm]; cbn [orb]; [split; [done|]; split; [done|lia]|].
  set (last := if mtu <? size then size mod mtu else size).
  assert (0 <= last <= size /\ last <= mtu /\ (size <= mtu -> last = size)) as (L1 & L2 & L3).
  { subst last. destruct (Z.ltb_spec mtu size); [|lia].
    pose proof (Z.mod_pos_bound size mtu ltac:(lia)). pose proof (Z.mod_le size mtu). lia. }
  pose proof (round_up_bounds last ltac:(lia)) as [BL ML].
  set (unit := if mtu <? round_up last then mtu else round_up last).
  assert (last <= unit <= last + 15 /\ unit <= mtu /\ (unit mod 16 = 0 \/ unit = mtu)) as (U1 & U2 & U3).
  { subst unit. destruct (Z.ltb_spec mtu (round_up last)); [|split; [lia|split; [lia|by left]]].
    split; [lia|split; [lia|by right]]. }
  assert (u64 (u64 (size + unit) - last) = size + (unit - last)) as ->.
  { unfold wrap. rewrite Zminus_mod_idemp_l. rewrite Z.mod_small; lia. }
  split; [lia|]. split; [lia|]. intros HS. rewrite (L3 HS).
  replace (size + (unit - size)) with unit by lia. done.
Qed.

(** ** Sealed packets *)

Lemma write_at_at (a b v : bytes) n :
  length a = n -> write_at (a ++ b) n v = a ++ v ++ drop (length v) b.
Proof.
  intros <-. unfold write_at. rewrite take_app_length. do 2 f_equal.
  by rewrite drop_app_ge, Nat.add_comm, Nat.add_sub by lia.
Qed.

Lemma BuildTransportNonce_eq counter : BuildTransportNonce counter = zeros 4 ++ StoreLe64 counter.
Proof. reflexivity. Qed.
Lemma BuildTransportNonce_bytes counter : bytes_of ChaCha20NonceSize (BuildTransportNonce counter).
Proof.
  rewrite BuildTransportNonce_eq. destruct (StoreLe64_bytes counter) as [HL HB].
  split; [by rewrite length_app, HL|]. apply bytes_ok_app. split; [apply bytes_ok_zeros|done].
Qed.
Lemma BuildTransportNonce_inj c d :
  is_u64 c -> is_u64 d -> BuildTransportNonce c = BuildTransportNonce d -> c = d.
Proof. rewrite !BuildTransportNonce_eq. intros ? ? E%app_inv_head. by apply StoreLe64_inj. Qed.
#[export] Hint Resolve BuildTransportNonce_bytes : wg.

(** The bytes a receiver sees of a payload: the payload and its zero padding. *)
Definition padded_payload (payload : bytes) (mtu : Z) : bytes :=
  payload ++ zeros (Z.to_nat (GetPaddedTransportPayloadSize_mtu (Z.of_nat (length payload)) mtu)
                    - length payload).

Definition required_size (payload : bytes) (mtu : Z) : nat :=
  (TransportDataHeaderSize + length (padded_payload payload mtu) + NoiseTagSize)%nat.

Lemma length_padded_payload payload mtu :
  Z.of_nat (length payload) <= 2 ^ 64 - 16 -> is_u64 mtu ->
  Z.of_nat (length (padded_payload payload mtu))
  = GetPaddedTransportPayloadSize_mtu (Z.of_nat (length payload)) mtu.
Proof.
  intros H Hm. pose proof (padded_bounds (Z.of_nat (length payload)) mtu ltac:(lia) Hm) as [B _].
  unfold padded_payload. rewrite length_app, length_zeros. lia.
Qed.

Section Sealing.
Context {P : Primitives}.

Definition sealed (key : bytes) (header : message_transport_data) (plaintext : bytes) : bytes :=
  let '(ciphertext, tag) :=
    crypto_aead_ietf_write key (BuildTransportNonce (td_counter header)) [] plaintext in
  enc_transport_data header ++ ciphertext ++ tag.

(** The header a keypair puts on its next packet. *)
Definition next_header (k : noise_keypair) : message_transport_data :=
  mk_transport_data (SetMessageType MessageType_TransportData) (kp_remote_index k) (kp_send_counter k).

Lemma next_header_ok k :
  is_u32 (kp_remote_index k) -> is_u64 (kp_send_counter k) -> transport_data_ok (next_header k).
Proof. intros. unfold transport_data_ok. by split_and!. Qed.

Context {L : PrimitivesLaws P}.

Lemma length_sealed key header plaintext :
  bytes_of 32 key -> bytes_ok plaintext ->
  length (sealed key header plaintext)
  = (TransportDataHeaderSize + length plaintext + NoiseTagSize)%nat.
Proof.
  intros HK HB. unfold sealed.
  destruct (aead_sizes _ _ _ ietf_laws key (BuildTransportNonce (td_counter header)) [] plaintext)
    as [[S1 _] [S2 _]]; auto with wg.
  destruct (crypto_aead_ietf_write _ _ _ _) as [c t]. cbn [fst snd] in *.
  rewrite !length_app, length_enc_transport_data, S1, S2. unfold_sizes. lia.
Qed.

(** Sealing, once the sizes were accepted and a counter was reserved. *)
Lemma seal_run output key header payload pad :
  transport_data_ok header -> bytes_of 32 key -> bytes_ok payload ->
  (TransportDataHeaderSize + (length payload + pad) + NoiseTagSize <= length output)%nat ->
  exists head, SerializeTransportDataHeader (take TransportDataHeaderSize output) header
               = (ParseError_None, head) /\
  let o1 := write_at (write_at (write_at output 0 head) TransportDataHeaderSize payload)
              (TransportDataHeaderSize + length payload) (zeros pad) in
  let plaintext := payload ++ zeros pad in
  subspan o1 TransportDataHeaderSize (length plaintext) = plaintext /\
  let '(c, t) := crypto_aead_ietf_write key (BuildTransportNonce (td_counter header)) [] plaintext in
  write_at (write_at o1 TransportDataHeaderSize c) (TransportDataHeaderSize + length plaintext) t
  = sealed key header plaintext
    ++ drop (TransportDataHeaderSize + length plaintext + NoiseTagSize) output.
Proof.
  intros Hh HK HB HL. eexists.
  rewrite SerializeTransportDataHeader_enc
    by (done || (rewrite length_take; unfold_sizes; lia)).
  rewrite (drop_ge (take _ _)) by (rewrite length_take; lia). rewrite app_nil_r.
  split; [reflexivity|]. cbv zeta.
  set (T := TransportDataHeaderSize) in *.
  assert (length (enc_transport_data header) = T) as HE by apply length_enc_transport_data.
  assert (write_at output 0 (enc_transport_data header) = enc_transport_data header ++ drop T output) as ->.
  { unfold write_at. by rewrite take_0, HE. }
  rewrite (write_at_at _ _ _ T) by done. rewrite drop_drop.
  rewrite (app_assoc (enc_transport_data header) payload).
  rewrite (write_at_at _ _ _ (T + length payload)) by (rewrite length_app; lia).
  rewrite drop_drop, length_zeros, <- app_assoc, (app_assoc payload).
  set (plaintext := payload ++ zeros pad).
  assert (length plaintext = length payload + pad)%nat as EL
    by (unfold plaintext; by rewrite length_app, length_zeros).
  split.
  { rewrite subspan_app_r by lia. rewrite HE, Nat.sub_diag. by apply subspan_app_l. }
  unfold sealed.
  destruct (aead_sizes _ _ _ ietf_laws key (BuildTransportNonce (td_counter header)) [] plaintext)
    as [[S1 _] [S2 _]]; auto with wg.
  { apply bytes_ok_app. auto with wg. }
  destruct (crypto_aead_ietf_write _ _ _ _) as [c t]. cbn [fst snd] in *.
  rewrite (write_at_at _ _ _ T) by done.
  rewrite drop_app_ge by lia. rewrite S1, Nat.sub_diag, drop_0.
  rewrite (app_assoc (enc_transport_data header) c).
  rewrite (write_at_at _ _ _ (T + length plaintext)) by (rewrite length_app; lia).
  rewrite drop_drop, S2, <- !app_assoc. do 4 f_equal. rewrite EL. unfold_sizes. lia.
Qed.

(** The error of a keypair that may not send. *)
Definition send_error (state : KeypairSendState) : TransportDataError :=
  match state with
  | KeypairSendState_Ready => TransportDataError_None
  | KeypairSendState_Invalid => TransportDataError_InvalidKeypair
  | KeypairSendState_Expired => TransportDataError_KeyExpired
  | KeypairSendState_CounterExhausted => TransportDataError_CounterExhausted
  end.

Definition fits (output payload : bytes) (mtu : Z) : Prop :=
  Z.of_nat (length payload) <= 2 ^ 64 - 16 /\ (required_size payload mtu <= length output)%nat.
#[export] Instance fits_dec output payload mtu : Decision (fits output payload mtu).
Proof. unfold fits. apply _. Defined.

(** The size checks admit exactly the payloads that fit. *)
Lemma create_refuses output k payload mtu w :
  is_u64 mtu -> Z.of_nat (length output) < 2 ^ 64 -> ~ fits output payload mtu ->
  noise_create_transport_data_packet output k payload mtu w
  = (CreateFailure TransportDataError_InsufficientCapacity, output, k, w).
Proof.
  intros Hm HO HF. unfold noise_create_transport_data_packet.
  change (2 ^ 64 - 1 - (TransportDataPaddingBlockSize - 1)) with (2 ^ 64 - 16).
  destruct (Z.ltb_spec (2 ^ 64 - 16) (Z.of_nat (length payload))) as [|HP]; [done|].
  pose proof (length_padded_payload payload mtu HP Hm) as EL.
  pose proof (padded_bounds (Z.of_nat (length payload)) mtu ltac:(lia) Hm) as [B _].
  rewrite <- EL in *. set (n := length (padded_payload payload mtu)) in *.
  assert (~ (TransportDataHeaderSize + n + NoiseTagSize <= length output)%nat) as HR.
  { intros HR. apply HF. by split. }
  replace ((_ <? Z.of_nat n) || _) with true; [done|]. symmetry. apply orb_true_iff.
  change TransportDataHeaderSize with 16%nat in *. change NoiseTagSize with 16%nat in *.
  rewrite !Z.ltb_lt. unfold wrap. rewrite Zplus_mod_idemp_l.
  destruct (Z.lt_ge_cases (Z.of_nat 16 + Z.of_nat n + Z.of_nat 16) (2 ^ 64)).
  - right. rewrite Z.mod_small; lia.
  - left. rewrite <- (Z.mod_unique _ (2 ^ 64) 1 (Z.of_nat n + 32 - 2 ^ 64)); lia.
Qed.

(** Creating a packet, on every branch. *)
Lemma create_spec output k payload mtu w :
  keypair_ok k -> bytes_ok payload -> is_u64 mtu -> Z.of_nat (length output) < 2 ^ 64 ->
  let '(now, w') := GetMonotonicTime w in
  let plaintext := padded_payload payload mtu in
  noise_create_transport_data_packet output k payload mtu w
  = if decide (fits output payload mtu) then
      if decide (keypair_SendStateAt now k = KeypairSendState_Ready) then
        (mk_create_result TransportDataError_None (Z.of_nat (required_size payload mtu)) (kp_send_counter k),
         sealed (key_bytes (kp_sending_key k)) (next_header k) plaintext
           ++ drop (required_size payload mtu) output,
         k <| kp_send_counter := kp_send_counter k + 1 |>, w')
      else (CreateFailure (send_error (keypair_SendStateAt now k)), output, k, w')
    else (CreateFailure TransportDataError_InsufficientCapacity, output, k, w).
Proof.
  intros (HS & _ & _ & HRi & HC) HB Hm HO. destruct (GetMonotonicTime w) as [now w'] eqn:EW. cbv zeta.
  destruct (decide (fits output payload mtu)) as [[HP HR]|]; [|by apply create_refuses].
  unfold noise_create_transport_data_packet. rewrite EW.
  change (2 ^ 64 - 1 - (TransportDataPaddingBlockSize - 1)) with (2 ^ 64 - 16).
  rewrite (proj2 (Z.ltb_ge _ _)) by done.
  pose proof (length_padded_payload payload mtu HP Hm) as EL.
  pose proof (padded_bounds (Z.of_nat (length payload)) mtu ltac:(lia) Hm) as [B _].
  rewrite <- EL in *. set (n := length (padded_payload payload mtu)) in *.
  assert (u64 (u64 (Z.of_nat TransportDataHeaderSize + Z.of_nat n) + Z.of_nat NoiseTagSize)
          = Z.of_nat (required_size payload mtu)) as ->.
  { unfold required_size in *. fold n in HR |- *. unfold_sizes.
    unfold wrap. rewrite Zplus_mod_idemp_l, Z.mod_small; lia. }
  assert ((Z.of_nat (required_size payload mtu) <? Z.of_nat n)
          || (Z.of_nat (length output) <? Z.of_nat (required_size payload mtu)) = false) as ->.
  { apply orb_false_iff. rewrite !Z.ltb_ge. unfold required_size in *. fold n in HR |- *. lia. }
  destruct (ReserveSendCounterAt_cases now k HC) as [(E & _ & ->)|(E & ->)].
  2: { rewrite decide_False by done. by destruct (keypair_SendStateAt now k). }
  rewrite decide_True by done. cbn [default kp_remote_index kp_sending_key].
  change (mk_transport_data _ _ _) with (next_header k).
  assert (n = length payload + (n - length payload))%nat as En by lia.
  destruct (seal_run output (key_bytes (kp_sending_key k)) (next_header k) payload (n - length payload))
    as (head & -> & HRun); [by apply next_header_ok|done|done|unfold required_size in HR; fold n in HR; lia|].
  cbv zeta in HRun. rewrite bool_decide_true by done. cbn [negb]. rewrite Nat2Z.id.
  change (payload ++ zeros (n - length payload)) with (payload ++ zeros (n - length payload)) in HRun.
  assert (payload ++ zeros (n - length payload) = padded_payload payload mtu) as EP.
  { unfold n, padded_payload. f_equal. f_equal. rewrite length_app, length_zeros. lia. }
  rewrite EP in HRun. fold n in HRun. destruct HRun as [-> HRun].
  unfold chacha20poly1305_encrypt. rewrite Nat.eqb_refl. cbn [negb].
  change (td_counter (next_header k)) with (kp_send_counter k) in HRun.
  destruct (crypto_aead_ietf_write _ _ _ _) as [c t]. rewrite HRun. reflexivity.
Qed.

End Sealing.

(** ** Opened packets *)

Lemma ParseTransportDataHeader_inv packet out :
  bytes_ok packet -> pr_success (fst (ParseTransportDataHeader packet out)) = true ->
  exists h rest, transport_data_ok h /\ bytes_ok rest /\ packet = enc_transport_data h ++ rest /\
    ParseTransportDataHeader packet out = (MakeSuccess MessageType_TransportData, h).
Proof.
  intros HB. unfold ParseTransportDataHeader at 1.
  destruct (pr_success (ValidatePacket packet MessageType_TransportData TransportDataHeaderSize false))
    eqn:EV; [|cbn [negb fst]; congruence]. intros _.
  assert ((TransportDataHeaderSize <= length packet)%nat /\ LoadLe32 packet = 4) as [HL HT].
  { revert EV. unfold ValidatePacket, InspectMessageType. destruct (length packet <? MessageTypeSize)%nat; [done|].
    destruct (GetMessageType (LoadLe32 packet)) eqn:T; try done.
    cbn [negb pr_success pr_type MakeSuccess andb orb]. rewrite bool_decide_true by done. cbn [negb].
    case_if; [done|]. intros _. bool_prop. apply GetMessageType_named in T. by split. }
  destruct (transport_data_layout packet HB HL HT) as (h & rest & Hh & Hr & ->).
  exists h, rest. split_and!; try done. by apply ParseTransportDataHeader_enc.
Qed.

Section Opening.
Context {P : Primitives} {L : PrimitivesLaws P}.

(** When a keypair accepts a packet, and what it finds inside. *)
Record opens (now : Z) (k : noise_keypair) (capacity : nat) (packet : bytes)
    (header : message_transport_data) (plaintext : bytes) : Prop := {
  on_valid : keypair_IsValid k = true;
  on_alive : keypair_CanReceiveAt now k = true;
  on_header : transport_data_ok header;
  on_index : td_receiver_index header = kp_local_index k;
  on_counter : td_counter header < RejectAfterMessages;
  on_room : (length plaintext <= capacity)%nat;
  on_plaintext : bytes_ok plaintext;
  on_fresh : fst (Window_TryAdvance (kp_receive_replay_window k) (td_counter header)) = true;
  on_sealed : packet = sealed (key_bytes (kp_receiving_key k)) header plaintext
}.

(** The ciphertext and the tag of a packet with the given header. *)
Lemma body_parts header (c t : bytes) :
  bytes_of 16 t ->
  let packet := enc_transport_data header ++ c ++ t in
  (length packet - TransportDataHeaderSize - NoiseTagSize)%nat = length c /\
  (TransportDataHeaderSize + NoiseTagSize <= length packet)%nat /\
  subspan packet TransportDataHeaderSize (length c) = c /\
  subspan packet (TransportDataHeaderSize + length c) NoiseTagSize = t.
Proof.
  intros [Ht _] packet. subst packet.
  pose proof (length_enc_transport_data header) as HE. change NoiseTagSize with 16%nat.
  rewrite !length_app, HE, Ht. split; [lia|]. split; [lia|].
  rewrite !(subspan_app_r (enc_transport_data header)) by lia. rewrite HE, Nat.sub_diag.
  split; [by apply subspan_app_l|].
  rewrite Nat.add_comm, Nat.add_sub, subspan_app_r, Nat.sub_diag by lia. by apply subspan_all.
Qed.

Lemma consume_opens k packet out w header plaintext :
  keypair_ok k -> opens (fst (GetMonotonicTime w)) k (length out) packet header plaintext ->
  noise_consume_transport_data_packet packet k out w
  = mk_opened TransportDataError_None (plaintext ++ drop (length plaintext) out)
      (mk_decrypt_result header (length plaintext))
      (k <| kp_receive_replay_window :=
              snd (Window_TryAdvance (kp_receive_replay_window k) (td_counter header)) |>)
      (snd (GetMonotonicTime w)).
Proof.
  intros (_ & HK & _) [O1 O2 O3 O4 O5 O6 O7 O8 O9].
  unfold noise_consume_transport_data_packet. rewrite O1. cbn [negb].
  destruct (GetMonotonicTime w) as [now w']. cbn [fst snd] in *. rewrite O2. cbn [negb].
  unfold sealed in O9.
  destruct (aead_sizes _ _ _ ietf_laws (key_bytes (kp_receiving_key k))
    (BuildTransportNonce (td_counter header)) [] plaintext) as [[S1 _] [S2 B2]]; auto with wg.
  pose proof (aead_read_write _ _ _ ietf_laws (key_bytes (kp_receiving_key k))
    (BuildTransportNonce (td_counter header)) [] plaintext HK (BuildTransportNonce_bytes _)
    bytes_ok_nil O7) as HR.
  destruct (crypto_aead_ietf_write _ _ _ _) as [c t]. cbn [fst snd] in *.
  assert (ParseTransportDataHeader packet transport_data_init
          = (MakeSuccess MessageType_TransportData, header)) as ->
    by (rewrite O9; by apply ParseTransportDataHeader_enc).
  destruct (body_parts header c t (conj S2 B2)) as (E1 & E2 & E3 & E4). rewrite <- O9 in *.
  cbn [negb pr_success MakeSuccess orb]. rewrite (proj2 (Nat.ltb_ge _ _)) by done.
  rewrite O4, Z.eqb_refl. cbn [negb]. rewrite (proj2 (Z.leb_gt _ _)) by done.
  rewrite E1, S1, (proj2 (Nat.ltb_ge _ _)) by lia.
  destruct (Window_TryAdvance _ _) as [fresh window]. cbn [fst snd] in *. subst fresh. cbn [negb].
  rewrite <- S1, E3, E4. unfold chacha20poly1305_decrypt. rewrite Nat.eqb_refl. cbn [negb].
  rewrite HR, S1. unfold write_at. by rewrite take_0.
Qed.

(** Every other packet is refused; the keypair is not touched. *)
Lemma consume_cases k packet out w :
  keypair_ok k -> bytes_ok packet ->
  let o := noise_consume_transport_data_packet packet k out w in
  (exists header plaintext, op_error o = TransportDataError_None /\
     opens (fst (GetMonotonicTime w)) k (length out) packet header plaintext) \/
  (op_error o <> TransportDataError_None /\ op_keypair o = k /\ op_result o = decrypt_result_init /\
   (op_payload o = out \/
    op_error o = TransportDataError_AuthenticationFailed /\
    exists n, (n <= length out)%nat /\ op_payload o = zeros n ++ drop n out)).
Proof.
  intros HKO HB. pose proof HKO as (_ & HK & _). cbv zeta.
  unfold noise_consume_transport_data_packet.
  destruct (keypair_IsValid k) eqn:EV; cbn [negb]; [|right; by eauto].
  destruct (GetMonotonicTime w) as [now w']. cbn [fst].
  destruct (keypair_CanReceiveAt now k) eqn:ER; cbn [negb]; [|right; by eauto].
  destruct (pr_success (fst (ParseTransportDataHeader packet transport_data_init))) eqn:EP.
  2: { destruct (ParseTransportDataHeader _ _) as [r h]. cbn [fst] in EP. rewrite EP. right. by eauto. }
  destruct (ParseTransportDataHeader_inv packet _ HB EP) as (h & rest & Hh & Hr & -> & ->).
  cbn [pr_success MakeSuccess negb orb].
  destruct (Nat.ltb_spec (length (enc_transport_data h ++ rest)) (TransportDataHeaderSize + NoiseTagSize))
    as [|HLen]; [right; by eauto|].
  destruct (Z.eqb_spec (td_receiver_index h) (kp_local_index k)) as [EI|]; cbn [negb]; [|right; by eauto].
  destruct (Z.leb_spec RejectAfterMessages (td_counter h)) as [|HC]; [right; by eauto|].
  rewrite length_app, length_enc_transport_data in HLen. change NoiseTagSize with 16%nat in HLen.
  set (n := (length rest - 16)%nat).
  assert (exists c t, rest = c ++ t /\ length c = n /\ bytes_ok c /\ bytes_of 16 t) as
    (c & t & -> & Hc & Bc & Ht).
  { exists (take n rest), (drop n rest). rewrite take_drop. split; [done|].
    split; [rewrite length_take; lia|]. split; [auto with wg|]. split; [rewrite length_drop; lia|].
    auto with wg. }
  destruct (body_parts h c t Ht) as (E1 & E2 & E3 & E4).
  rewrite E1. destruct (Nat.ltb_spec (length out) (length c)) as [|HO]; [right; by eauto|].
  destruct (Window_TryAdvance _ _) as [[] window] eqn:EW; cbn [negb]; [|right; by eauto].
  rewrite E3, E4. unfold chacha20poly1305_decrypt. rewrite Nat.eqb_refl. cbn [negb].
  destruct (crypto_aead_ietf_read _ _ _ _ _) as [plaintext|] eqn:ED.
  - left. cbn [op_error]. exists h, plaintext. split; [done|].
    destruct (aead_read_sound _ _ _ ietf_laws _ _ _ _ _ _ HK (BuildTransportNonce_bytes _)
      bytes_ok_nil Bc Ht ED) as [BP EWr].
    destruct (aead_sizes _ _ _ ietf_laws (key_bytes (kp_receiving_key k))
      (BuildTransportNonce (td_counter h)) [] plaintext) as [[S1 _] _]; auto with wg.
    rewrite EWr in S1. cbn [fst] in S1.
    split; try done; [lia|by rewrite EW|]. unfold sealed. by rewrite EWr.
  - right. cbn [op_error op_keypair op_result op_payload]. split_and!; try done. right. split; [done|].
    exists (length c). split; [done|]. unfold write_at. by rewrite take_0, length_zeros.
Qed.
End Opening.

(** ** Sequences of packets *)

Section Traffic.
Context {P : Primitives} {L : PrimitivesLaws P}.

(** The two ends of a session. *)
Record linked (a b : noise_keypair) : Prop := {
  ln_ok_a : keypair_ok a;
  ln_ok_b : keypair_ok b;
  ln_valid_a : keypair_IsValid a = true;
  ln_valid_b : keypair_IsValid b = true;
  ln_there : kp_sending_key a = kp_receiving_key b;
  ln_back : kp_sending_key b = kp_receiving_key a;
  ln_index_a : kp_local_index a = kp_remote_index b;
  ln_index_b : kp_local_index b = kp_remote_index a
}.
Lemma linked_sym a b : linked a b -> linked b a.
Proof. by intros []; split. Qed.

(** The packet a keypair creates opens at the other end. *)
Lemma created_opens a b now payload mtu capacity :
  linked a b -> bytes_ok payload ->
  keypair_CanReceiveAt now b = true -> kp_send_counter a < RejectAfterMessages ->
  (length (padded_payload payload mtu) <= capacity)%nat ->
  fst (Window_TryAdvance (kp_receive_replay_window b) (kp_send_counter a)) = true ->
  opens now b capacity (sealed (key_bytes (kp_sending_key a)) (next_header a) (padded_payload payload mtu))
    (next_header a) (padded_payload payload mtu).
Proof.
  intros [(_ & _ & _ & HR & HC) _ VA VB ET EB EA EBi] HB HA HL HO HF. split; try done.
  - unfold padded_payload. apply bytes_ok_app. auto with wg.
  - by rewrite ET.
Qed.

Lemma Ready_counter now k :
  keypair_SendStateAt now k = KeypairSendState_Ready -> kp_send_counter k < RejectAfterMessages.
Proof.
  unfold keypair_SendStateAt. destruct (keypair_AgeAt now k); [|done].
  case_if; [done|]. case_if; [done|]. intros _. by bool_prop.
Qed.

(** Successive requests on one keypair: the created packets with their
    counters. *)
Fixpoint create_run (requests : list (bytes * bytes * Z)) (k : noise_keypair) (w : World)
    : list (Z * bytes) * noise_keypair * World :=
  match requests with
  | [] => ([], k, w)
  | (output, payload, mtu) :: rest =>
      let '(r, output, k, w) := noise_create_transport_data_packet output k payload mtu w in
      let '(created, k, w) := create_run rest k w in
      if bool_decide (tc_error r = TransportDataError_None)
      then ((tc_counter r, take (Z.to_nat (tc_packet_size r)) output) :: created, k, w)
      else (created, k, w)
  end.

Definition request_ok (request : bytes * bytes * Z) : Prop :=
  let '(output, payload, mtu) := request in
  Z.of_nat (length output) < 2 ^ 64 /\ bytes_ok payload /\ is_u64 mtu.

Definition created_under (k : noise_keypair) (entry : Z * bytes) : Prop :=
  exists plaintext, snd entry
    = sealed (key_bytes (kp_sending_key k))
        (mk_transport_data (SetMessageType MessageType_TransportData) (kp_remote_index k) (fst entry)) plaintext.

Lemma length_required (payload : bytes) mtu k header :
  keypair_ok k -> bytes_ok payload ->
  length (sealed (key_bytes (kp_sending_key k)) header (padded_payload payload mtu))
  = required_size payload mtu.
Proof.
  intros (HK & _) HB. apply length_sealed; [done|]. apply bytes_ok_app. auto with wg.
Qed.

Lemma create_run_spec requests k w :
  keypair_ok k -> Forall request_ok requests ->
  let created := fst (fst (create_run requests k w)) in
  fst <$> created = (fun i => kp_send_counter k + Z.of_nat i) <$> seq 0 (length created) /\
  Forall (created_under k) created /\
  Forall (fun c => is_u64 c) (fst <$> created).
Proof.
  intros HK HF. revert k w HK. induction HF as [|[ [output payload] mtu] rest (HO & HB & Hm) HF IH];
    intros k w HK; [by split_and!|]. cbn [create_run].
  pose proof (create_spec output k payload mtu w HK HB Hm HO) as HS.
  destruct (GetMonotonicTime w) as [now w']. cbv zeta in HS. rewrite HS.
  destruct (decide (fits output payload mtu)) as [_|]; [destruct (decide _) as [HR|HR]|]; cbv zeta iota.
  2: { specialize (IH k w' HK). destruct (create_run rest k w') as [ [created k'] w''].
       rewrite bool_decide_false; [done|]. by destruct (keypair_SendStateAt now k). }
  2: { specialize (IH k w HK). by destruct (create_run rest k w) as [ [created k'] w'']. }
  pose proof (Ready_counter now k HR) as HC. pose proof HK as (K1 & K2 & K3 & K4 & K5).
  specialize (IH (k <| kp_send_counter := kp_send_counter k + 1 |>) w').
  destruct (create_run rest _ w') as [ [created k'] w'']. cbn [fst snd tc_error] in *.
  rewrite bool_decide_true by done. cbn [tc_counter tc_packet_size].
  destruct IH as (E & F & U).
  { refine (conj K1 (conj K2 (conj K3 (conj K4 _)))). cbn. unfold in_width in *.
    change RejectAfterMessages with 18446744073709543423 in HC. lia. }
  split; [|split].
  - cbn [fmap list_fmap length seq fst]. f_equal; [lia|]. rewrite E, <- fmap_S_seq, <- list_fmap_compose.
    apply list_fmap_ext. intros. cbn. lia.
  - constructor; [|exact F]. exists (padded_payload payload mtu). cbn [fst snd].
    rewrite Nat2Z.id. by rewrite take_app_length' by (symmetry; by apply length_required).
  - by constructor.
Qed.

(** Successive packets offered to one keypair: the counters of the accepted
    ones. *)
Fixpoint consume_run (packets : list (bytes * bytes)) (k : noise_keypair) (w : World)
    : list Z * noise_keypair * World :=
  match packets with
  | [] => ([], k, w)
  | (packet, out) :: rest =>
      let o := noise_consume_transport_data_packet packet k out w in
      let '(counters, k', w') := consume_run rest (op_keypair o) (op_world o) in
      if bool_decide (op_error o = TransportDataError_None)
      then (td_counter (dr_header (op_result o)) :: counters, k', w')
      else (counters, k', w')
  end.

Lemma consume_run_sim packets k w seen :
  keypair_ok k -> Forall (fun p => bytes_ok (fst p)) packets ->
  window_sim (kp_receive_replay_window k) seen ->
  let counters := fst (fst (consume_run packets k w)) in
  NoDup counters /\ Forall (fun c => c ∉ seen) counters.
Proof.
  intros HK HF. revert k w seen HK. induction HF as [|[packet out] rest HB HF IH]; intros k w seen HK HS.
  { split; constructor. }
  cbn [consume_run]. cbn [fst] in HB.
  destruct (consume_cases k packet out w HK HB) as [(h & p & _ & HO)|(HE & EK & _)].
  2: { rewrite bool_decide_false by done. rewrite EK.
       set (v := op_world _). specialize (IH k v seen HK HS).
       by destruct (consume_run rest k v) as [ [cs k'] w']. }
  rewrite (consume_opens k packet out w h p HK HO). cbn [op_error op_keypair op_world op_result dr_header].
  rewrite bool_decide_true by done.
  pose proof (on_header _ _ _ _ _ _ HO) as (_ & _ & HC).
  destruct (window_step _ seen _ HS HC) as (win & EW & HS').
  pose proof (on_fresh _ _ _ _ _ _ HO) as HFr. rewrite EW in HFr |- *. cbn [fst snd] in *.
  rewrite HFr in HS'.
  set (k' := k <| kp_receive_replay_window := win |>) in *.
  assert (window_sim (kp_receive_replay_window k') (td_counter h :: seen)) as HS2 by exact HS'.
  specialize (IH k' (snd (GetMonotonicTime w)) (td_counter h :: seen) HK HS2).
  destruct (consume_run rest _ _) as [ [cs k''] w']. cbn [fst snd] in *. destruct IH as [IN IF].
  assert (td_counter h ∉ seen) as HN.
  { unfold spec_accepts in HFr. by bool_prop. }
  split; constructor; try done.
  - intros Hin. rewrite Forall_forall in IF. specialize (IF _ Hin). set_solver.
  - eapply Forall_impl; [exact IF|]. set_solver.
Qed.

Lemma nonces_distinct counters :
  Forall (fun c => is_u64 c) counters -> NoDup counters -> NoDup (BuildTransportNonce <$> counters).
Proof.
  intros U HN. induction HN as [|c cs HN _ IH]; [constructor|]. apply Forall_cons in U as [HC U].
  cbn. constructor; [|by apply IH]. intros (d & EQ & Hd)%list_elem_of_fmap. apply HN.
  rewrite Forall_forall in U. by rewrite (BuildTransportNonce_inj c d HC (U d Hd) EQ).
Qed.

(** An established keypair has seen nothing. *)
Lemma established_fresh k : kp_receive_replay_window k = Window_Reset -> window_sim (kp_receive_replay_window k) [].
Proof. intros ->. apply window_sim_reset. Qed.

(** ** Properties *)

(** C3. Transport round trip.  Let [a] and [b] be the two ends of a session, the
    payload fit the output span, [a] be ready to send and [b] to receive, and the
    counter be fresh for [b]'s window.  Then creating succeeds; the packet has the
    announced size; and [b] accepts it, delivers the payload followed by at most
    15 zero bytes, reports the counter, and changes nothing but its window. *)
Theorem transport_roundtrip a b output payload mtu out wa wb
    (HL : linked a b) (HB : bytes_ok payload) (Hm : is_u64 mtu)
    (HO : Z.of_nat (length output) < 2 ^ 64) (HF : fits output payload mtu)
    (HS : keypair_CanSendAt (fst (GetMonotonicTime wa)) a = true)
    (HR : keypair_CanReceiveAt (fst (GetMonotonicTime wb)) b = true)
    (HRoom : (length (padded_payload payload mtu) <= length out)%nat)
    (HFresh : fst (Window_TryAdvance (kp_receive_replay_window b) (kp_send_counter a)) = true) :
  let '(r, buffer, a', _) := noise_create_transport_data_packet output a payload mtu wa in
  let o := noise_consume_transport_data_packet (take (Z.to_nat (tc_packet_size r)) buffer) b out wb in
  tc_error r = TransportDataError_None /\ tc_counter r = kp_send_counter a /\
  kp_send_counter a' = kp_send_counter a + 1 /\
  op_error o = TransportDataError_None /\
  (exists pad, (pad <= 15)%nat /\
     take (dr_payload_size (op_result o)) (op_payload o) = payload ++ zeros pad /\
     tc_packet_size r = 32 + Z.of_nat (length payload + pad)) /\
  td_counter (dr_header (op_result o)) = tc_counter r /\
  op_keypair o = b <| kp_receive_replay_window :=
                        snd (Window_TryAdvance (kp_receive_replay_window b) (kp_send_counter a)) |>.
Proof.
  pose proof (create_spec output a payload mtu wa (ln_ok_a _ _ HL) HB Hm HO) as HC.
  destruct (GetMonotonicTime wa) as [now wa']. cbn [fst] in HS. unfold keypair_CanSendAt in HS. bool_prop.
  cbv zeta in HC. rewrite decide_True in HC by done. rewrite decide_True in HC by done. rewrite HC.
  cbn [tc_error tc_counter tc_packet_size]. rewrite Nat2Z.id.
  rewrite take_app_length' by (symmetry; apply length_required; [apply HL|done]).
  rewrite (consume_opens b _ out wb _ _ (ln_ok_b _ _ HL)
             (created_opens a b _ payload mtu _ HL HB HR (Ready_counter _ _ HS) HRoom HFresh)).
  cbn [op_error op_result op_payload op_keypair dr_header dr_payload_size].
  split_and!; try done.
  exists (Z.to_nat (GetPaddedTransportPayloadSize_mtu (Z.of_nat (length payload)) mtu) - length payload)%nat.
  destruct HF as [HP _].
  pose proof (padded_bounds (Z.of_nat (length payload)) mtu ltac:(lia) Hm) as [B _].
  split; [lia|]. split; [by rewrite take_app_length|].
  unfold required_size. change TransportDataHeaderSize with 16%nat. change NoiseTagSize with 16%nat.
  unfold padded_payload. rewrite length_app, length_zeros. lia.
Qed.

(** C6. No nonce is used twice.  Over any sequence of requests on one keypair,
    the created packets carry the consecutive counters that start at the
    keypair's, every packet is sealed with its own counter under the keypair's
    sending key, and the 12-byte nonces are pairwise distinct. *)
Theorem sealed_nonces_distinct requests k w
    (HK : keypair_ok k) (HF : Forall request_ok requests) :
  let created := fst (fst (create_run requests k w)) in
  fst <$> created = (fun i => kp_send_counter k + Z.of_nat i) <$> seq 0 (length created) /\
  Forall (created_under k) created /\
  NoDup (BuildTransportNonce <$> (fst <$> created)).
Proof.
  intros created. destruct (create_run_spec requests k w HK HF) as (E & F & U).
  split; [exact E|]. split; [exact F|]. fold created in U, E.
  assert (NoDup (fst <$> created)) as HN.
  { rewrite E. apply NoDup_fmap_2; [intros i j; lia|apply NoDup_seq]. }
  by apply nonces_distinct.
Qed.

(** C5. At most one delivery.  Whatever byte strings are offered to an established
    keypair, in whatever order and however often, the counters of the packets it
    accepts are pairwise distinct: a replayed packet is never delivered again. *)
Theorem delivered_at_most_once packets k w
    (HK : keypair_ok k) (HF : Forall (fun p => bytes_ok (fst p)) packets)
    (HW : kp_receive_replay_window k = Window_Reset) :
  NoDup (fst (fst (consume_run packets k w))).
Proof. exact (proj1 (consume_run_sim packets k w [] HK HF (established_fresh k HW))). Qed.

(** The device after a packet was accepted in a slot. *)
Definition accepted_in (slot : wg_index_slot) (k : noise_keypair) (device : wg_device) : wg_device :=
  let device := device <| dv_peer ::= set_keypair_for_slot slot k |> in
  if bool_decide (slot = wg_index_slot_NextKeypair) then snd (wg_device_promote_next_keypair device)
  else device.

Definition peer_keypairs_ok (peer : wg_peer) : Prop :=
  forall slot k, wg_peer_keypair_for_slot peer slot = Some k -> keypair_ok k.

Lemma set_keypair_for_slot_same slot k peer :
  wg_peer_keypair_for_slot peer slot = Some k -> set_keypair_for_slot slot k peer = peer.
Proof. destruct peer, slot; cbn; intros; by simplify_eq. Qed.

Lemma on_peer_same f e : f (the_peer e) = the_peer e -> on_peer f e = e.
Proof. destruct e as [w [] ]. unfold on_peer, upd. cbn. by intros ->. Qed.

Lemma promote_returns device :
  fst (wg_device_promote_next_keypair device) = keypair_IsValid (pr_next_keypair (dv_peer device)).
Proof.
  destruct (keypair_IsValid _) eqn:E; [by rewrite promote_spec|].
  unfold wg_device_promote_next_keypair. by rewrite E.
Qed.

Lemma opens_header now k capacity packet header plaintext :
  opens now k capacity packet header plaintext ->
  ParseTransportDataHeader packet transport_data_init = (MakeSuccess MessageType_TransportData, header).
Proof.
  intros HO. rewrite (on_sealed _ _ _ _ _ _ HO). unfold sealed.
  destruct (crypto_aead_ietf_write _ _ _ _). apply ParseTransportDataHeader_enc, HO.
Qed.

Lemma incoming_accepts packet out e slot k header plaintext :
  wg_device_lookup_index_slot (ev_device e) (td_receiver_index header) = slot ->
  wg_peer_keypair_for_slot (the_peer e) slot = Some k -> keypair_ok k ->
  opens (fst (GetMonotonicTime (ev_world e))) k (length out) packet header plaintext ->
  noise_consume_incoming_transport_data_packet packet out e
  = (TransportDataError_None, plaintext ++ drop (length plaintext) out,
     mk_incoming_result slot (mk_decrypt_result header (length plaintext))
       (bool_decide (slot = wg_index_slot_NextKeypair)),
     mk_env (snd (GetMonotonicTime (ev_world e)))
       (accepted_in slot (k <| kp_receive_replay_window :=
          snd (Window_TryAdvance (kp_receive_replay_window k) (td_counter header)) |>) (ev_device e))).
Proof.
  intros ES EK HK HO. unfold noise_consume_incoming_transport_data_packet.
  rewrite (opens_header _ _ _ _ _ _ HO). cbn [pr_success MakeSuccess negb]. rewrite ES, EK.
  rewrite (consume_opens k packet out (ev_world e) header plaintext HK HO).
  cbn [op_error op_payload op_keypair op_world op_result]. rewrite (bool_decide_true (_ = TransportDataError_None)) by done.
  cbn [negb]. set (k' := k <| kp_receive_replay_window := _ |>).
  assert (keypair_IsValid k' = true) as HV by apply HO.
  unfold accepted_in. destruct (decide (slot = wg_index_slot_NextKeypair)) as [EN|EN].
  2: { rewrite (bool_decide_false (slot = _)) by done. reflexivity. }
  rewrite (bool_decide_true (slot = _)) by done. subst slot. rewrite EN.
  pose proof (promote_returns ((ev_device e) <| dv_peer ::= set_keypair_for_slot wg_index_slot_NextKeypair k' |>)) as HPr.
  change (keypair_IsValid _) with (keypair_IsValid k') in HPr. rewrite HV in HPr.
  match goal with |- context [wg_device_promote_next_keypair ?d] =>
    change (wg_device_promote_next_keypair d) with (wg_device_promote_next_keypair
      ((ev_device e) <| dv_peer ::= set_keypair_for_slot wg_index_slot_NextKeypair k' |>)) end.
  destruct (wg_device_promote_next_keypair _) as [promoted device]. cbn [fst snd] in *. by subst promoted.
Qed.

(** A packet that no registered keypair opens is refused. *)
Lemma incoming_cases packet out e :
  bytes_ok packet -> peer_keypairs_ok (the_peer e) ->
  (exists slot k header plaintext,
     wg_device_lookup_index_slot (ev_device e) (td_receiver_index header) = slot /\
     wg_peer_keypair_for_slot (the_peer e) slot = Some k /\
     opens (fst (GetMonotonicTime (ev_world e))) k (length out) packet header plaintext) \/
  exists error out' w, noise_consume_incoming_transport_data_packet packet out e
    = (error, out', incoming_result_init, mk_env w (ev_device e)) /\
    error <> TransportDataError_None /\
    (out' = out \/ error = TransportDataError_AuthenticationFailed /\
     exists n, (n <= length out)%nat /\ out' = zeros n ++ drop n out).
Proof.
  intros HB HK. unfold noise_consume_incoming_transport_data_packet.
  destruct (ParseTransportDataHeader packet transport_data_init) as [parsed h] eqn:EP.
  destruct (pr_success parsed) eqn:ES; cbn [negb].
  2: { right. destruct e. do 3 eexists. split; [reflexivity|]. split; [done|]. by left. }
  destruct (wg_peer_keypair_for_slot (the_peer e) _) as [k|] eqn:EK.
  2: { right. destruct e. do 3 eexists. split; [reflexivity|]. split; [done|]. by left. }
  destruct (consume_cases k packet out (ev_world e) (HK _ _ EK) HB) as [(h' & p & _ & HO)|(HE & EKP & _ & HOut)].
  - left. pose proof (opens_header _ _ _ _ _ _ HO) as EQ. rewrite EP in EQ. simplify_eq.
    by eexists _, k, h', p.
  - right. rewrite (bool_decide_false (op_error _ = _)) by done. cbn [negb]. rewrite EKP.
    do 3 eexists. split; [|by split]. rewrite on_peer_same by (by apply set_keypair_for_slot_same).
    reflexivity.
Qed.

(** C13. Incoming transport packets.  A packet is accepted exactly when its
    receiver index is registered for a keypair of the peer and that keypair
    opens it; then the plaintext is delivered, that keypair's window advances, and
    the next keypair is promoted exactly when the packet was for it.  Any other
    packet leaves the device as it was; the output is untouched, or zeroed when
    authentication failed. *)
Theorem incoming_transport_exact packet out e
    (HB : bytes_ok packet) (HK : peer_keypairs_ok (the_peer e)) :
  let now := fst (GetMonotonicTime (ev_world e)) in
  let '(error, out', result, e') := noise_consume_incoming_transport_data_packet packet out e in
  (error = TransportDataError_None /\
   exists slot k header plaintext,
     wg_device_lookup_index_slot (ev_device e) (td_receiver_index header) = slot /\
     wg_peer_keypair_for_slot (the_peer e) slot = Some k /\
     opens now k (length out) packet header plaintext /\
     out' = plaintext ++ drop (length plaintext) out /\
     result = mk_incoming_result slot (mk_decrypt_result header (length plaintext))
                (bool_decide (slot = wg_index_slot_NextKeypair)) /\
     ev_device e' = accepted_in slot (k <| kp_receive_replay_window :=
       snd (Window_TryAdvance (kp_receive_replay_window k) (td_counter header)) |>) (ev_device e)) \/
  (error <> TransportDataError_None /\ result = incoming_result_init /\ ev_device e' = ev_device e /\
   (out' = out \/ error = TransportDataError_AuthenticationFailed /\
    exists n, (n <= length out)%nat /\ out' = zeros n ++ drop n out) /\
   ~ (exists slot k header plaintext,
     wg_device_lookup_index_slot (ev_device e) (td_receiver_index header) = slot /\
     wg_peer_keypair_for_slot (the_peer e) slot = Some k /\
     opens now k (length out) packet header plaintext)).
Proof.
  cbv zeta.
  destruct (incoming_cases packet out e HB HK)
    as [(slot & k & header & plaintext & ES & EK & HO)|(error & out' & w & EI & HE & HOut)].
  - rewrite (incoming_accepts packet out e slot k header plaintext ES EK (HK _ _ EK) HO).
    left. split; [done|]. by exists slot, k, header, plaintext.
  - rewrite EI. right. split_and!; try done.
    intros (slot & k & header & plaintext & ES & EK & HO).
    rewrite (incoming_accepts packet out e slot k header plaintext ES EK (HK _ _ EK) HO) in EI.
    by simplify_eq.
Qed.

(** The promotion that confirms a session. *)
Lemma accepted_in_next k device :
  keypair_IsValid k = true ->
  let peer' := dv_peer (accepted_in wg_index_slot_NextKeypair k device) in
  pr_current_keypair peer' = k /\ pr_previous_keypair peer' = pr_current_keypair (dv_peer device) /\
  pr_next_keypair peer' = keypair_init.
Proof.
  intros HV. unfold accepted_in. rewrite bool_decide_true by done.
  pose proof (promote_spec (device <| dv_peer ::= set_keypair_for_slot wg_index_slot_NextKeypair k |>)) as HPr.
  cbv zeta in HPr. rewrite (HPr HV). done.
Qed.

(** The first packet of a new session.  Right after a handshake the initiator [a]
    holds the session as its current keypair and the responder as its next one;
    the initiator's first packet is delivered and promotes the keypair. *)
Lemma first_packet_confirms eb a payload mtu out :
  linked a (pr_next_keypair (the_peer eb)) -> bytes_ok payload ->
  registry_synced (ev_device eb) ->
  (keypair_IsValid (pr_current_keypair (the_peer eb)) = true ->
   kp_local_index (pr_current_keypair (the_peer eb)) <> kp_local_index (pr_next_keypair (the_peer eb))) ->
  kp_send_counter a = 0 -> kp_receive_replay_window (pr_next_keypair (the_peer eb)) = Window_Reset ->
  keypair_CanReceiveAt (fst (GetMonotonicTime (ev_world eb))) (pr_next_keypair (the_peer eb)) = true ->
  (length (padded_payload payload mtu) <= length out)%nat ->
  let packet := sealed (key_bytes (kp_sending_key a)) (next_header a) (padded_payload payload mtu) in
  exists result eb',
    noise_consume_incoming_transport_data_packet packet out eb
    = (TransportDataError_None,
       padded_payload payload mtu ++ drop (length (padded_payload payload mtu)) out, result, eb') /\
    in_promoted_next_keypair result = true /\
    dr_payload_size (in_decrypt result) = length (padded_payload payload mtu) /\
    pr_next_keypair (the_peer eb') = keypair_init /\
    pr_previous_keypair (the_peer eb') = pr_current_keypair (the_peer eb) /\
    linked a (pr_current_keypair (the_peer eb')).
Proof.
  intros HL HP HSync HD HCa HWb HR HRoom packet. set (b0 := pr_next_keypair (the_peer eb)) in *.
  assert (opens (fst (GetMonotonicTime (ev_world eb))) b0 (length out) packet (next_header a)
    (padded_payload payload mtu)) as HO.
  { apply created_opens; try done; [by rewrite HCa|]. rewrite HWb, HCa. reflexivity. }
  assert (wg_device_lookup_index_slot (ev_device eb) (td_receiver_index (next_header a))
          = wg_index_slot_NextKeypair) as ELook.
  { change (td_receiver_index (next_header a)) with (kp_remote_index a).
    rewrite <- (ln_index_b _ _ HL). apply synced_lookup_next; [done|apply HL|done]. }
  rewrite (incoming_accepts packet out eb _ b0 _ _ ELook eq_refl (ln_ok_b _ _ HL) HO).
  set (b := b0 <| kp_receive_replay_window := _ |>).
  assert (linked a b) as HLb by by destruct HL.
  destruct (accepted_in_next b (ev_device eb) (ln_valid_b _ _ HLb)) as (E1 & E2 & E3).
  do 2 eexists. split; [reflexivity|]. cbn [in_promoted_next_keypair in_decrypt dr_payload_size ev_device].
  rewrite bool_decide_true by done. rewrite E1. by split_and!.
Qed.
End Traffic.

(** ** Witnesses: one session between two ends *)

Definition sample_end (local remote first second : Z) (initiator : bool) : noise_keypair :=
  mk_keypair KeypairState_Established local remote 0 initiator 5 (mk_key (replicate 32 first) true)
    (mk_key (replicate 32 second) true) Window_Reset.
Definition end_a : noise_keypair := sample_end 11 22 7 9 true.
Definition end_b : noise_keypair := sample_end 22 11 9 7 false.

Lemma sample_linked : linked end_a end_b.
Proof. by split; try (apply (bool_decide_unpack _); vm_compute). Qed.

Definition sample_payload : bytes := [69; 1; 2; 3; 4].

(** A device holding [end_b] as its next keypair. *)
Definition sample_receiver : Env :=
  let device := device_init <| dv_peer ::= fun p => p <| pr_next_keypair := end_b |> |> <| dv_has_peer := true |> in
  mk_env (sample_world 1000 10 3) (wg_device_refresh_keypair_indices (dv_peer device) device).

Lemma transport_roundtrip_witness :
  let '(r, buffer, _, _) := @noise_create_transport_data_packet toy_primitives (zeros 64) end_a sample_payload 0
                              (sample_world 1000 10 1) in
  tc_error r = TransportDataError_None /\ tc_packet_size r = 48 /\
  op_error (@noise_consume_transport_data_packet toy_primitives (take 48 buffer) end_b (zeros 20)
              (sample_world 2000 10 2)) = TransportDataError_None.
Proof.
  pose proof (@transport_roundtrip toy_primitives toy_laws end_a end_b (zeros 64) sample_payload 0 (zeros 20)
    (sample_world 1000 10 1) (sample_world 2000 10 2)) as H.
  assert (tc_packet_size (fst (fst (fst (@noise_create_transport_data_packet toy_primitives (zeros 64) end_a
    sample_payload 0 (sample_world 1000 10 1))))) = 48) as ES by (vm_compute; reflexivity).
  destruct (noise_create_transport_data_packet _ _ _ _ _) as [[[r buffer] a'] w']. cbn [fst] in ES.
  destruct H as (H1 & _ & _ & H2 & _).
  - apply sample_linked.
  - by apply (bool_decide_unpack _); vm_compute.
  - by apply (bool_decide_unpack _); vm_compute.
  - by vm_compute.
  - by apply (bool_decide_unpack _); vm_compute.
  - by vm_compute.
  - by vm_compute.
  - by apply (bool_decide_unpack _); vm_compute.
  - by vm_compute.
  - split; [exact H1|]. split; [exact ES|]. rewrite ES in H2. exact H2.
Defined.

Lemma sealed_nonces_distinct_witness :
  let created := fst (fst (@create_run toy_primitives
    [(zeros 64, sample_payload, 0); (zeros 3, sample_payload, 0); (zeros 32, [], 0)] end_a
    (sample_world 1000 10 1))) in
  fst <$> created = [0; 1] /\ NoDup (BuildTransportNonce <$> (fst <$> created)).
Proof.
  split; [vm_compute; reflexivity|].
  apply (@sealed_nonces_distinct toy_primitives toy_laws).
  - by apply (bool_decide_unpack _); vm_compute.
  - repeat constructor; by apply (bool_decide_unpack _); vm_compute.
Defined.

Lemma delivered_at_most_once_witness :
  let packet := @sealed toy_primitives (replicate 32 7) (mk_transport_data 4 22 6) sample_payload in
  let counters := fst (fst (@consume_run toy_primitives
    [(packet, zeros 9); ([1; 2], zeros 9); (packet, zeros 9)] end_b (sample_world 1000 10 1))) in
  counters = [6] /\ NoDup counters.
Proof.
  intros packet. split; [vm_compute; reflexivity|].
  apply (@delivered_at_most_once toy_primitives toy_laws).
  - by apply (bool_decide_unpack _); vm_compute.
  - by apply (bool_decide_unpack _); vm_compute.
  - reflexivity.
Defined.

Lemma sample_receiver_keypairs : peer_keypairs_ok (the_peer sample_receiver).
Proof.
  intros slot k. destruct slot; cbn; intros; simplify_eq; by apply (bool_decide_unpack _); vm_compute.
Qed.

Lemma incoming_transport_exact_witness :
  let packet := @sealed toy_primitives (replicate 32 7) (mk_transport_data 4 22 6) sample_payload in
  let '(error, out', result, e') := @noise_consume_incoming_transport_data_packet toy_primitives packet
                                      (zeros 9) sample_receiver in
  error = TransportDataError_None /\ in_promoted_next_keypair result = true /\
  wg_device_lookup_index_slot (ev_device e') 22 = wg_index_slot_CurrentKeypair.
Proof.
  intros packet.
  pose proof (@incoming_transport_exact toy_primitives toy_laws packet (zeros 9) sample_receiver) as H.
  cbv zeta in H.
  set (run := @noise_consume_incoming_transport_data_packet toy_primitives packet (zeros 9) sample_receiver) in *.
  assert (fst (fst (fst run)) = TransportDataError_None) as E1 by (vm_compute; reflexivity).
  assert (in_promoted_next_keypair (snd (fst run)) = true) as E2 by (vm_compute; reflexivity).
  assert (wg_device_lookup_index_slot (ev_device (snd run)) 22 = wg_index_slot_CurrentKeypair) as E3
    by (vm_compute; reflexivity).
  destruct run as [[[error out'] result] e']. cbn [fst snd] in *.
  destruct H as [[H _]|[H _]].
  - by apply (bool_decide_unpack _); vm_compute.
  - apply sample_receiver_keypairs.
  - by split_and!.
  - exfalso. by apply H.
Defined.
