(* ===== verification/Identity.v ===== *)
(** * Static identities

    The parts of [wireguard/session.cpp] that derive keys: public keys from
    private ones, the static identity of a peer from its configured keys, and
    the precomputed static-static secret. *)

From S2P Require Import Prelude Messages Platform Session Base64 Crypto.
Local Open Scope Z_scope.

Section Identity.
Context {P : Primitives}.

(** [None] where the C++ returns [false] and leaves [out_key] untouched. *)
Definition noise_derive_public_key (private_key : noise_private_key) : option noise_public_key :=
  if negb (key_valid private_key) then None
  else
    public_key ← x25519_public_key (key_bytes private_key);
    Some (mk_key public_key true).

(** [noise_derive_public_key_text(out_text, private_key)]. *)
Definition noise_derive_public_key_text (out_text : bytes) (private_key : noise_private_key)
    : bool * bytes :=
  match noise_derive_public_key private_key with
  | None => (false, out_text)
  | Some public_key => noise_public_key_to_text out_text public_key
  end.

(** [noise_derive_public_key_text(out_text, private_key_text)]. *)
Definition noise_derive_public_key_text_from_text (out_text private_key_text : bytes) : bool * bytes :=
  match noise_parse_private_key private_key_text with
  | None => (false, out_text)
  | Some private_key => noise_derive_public_key_text out_text private_key
  end.

(** [preshared_key] is [None] where the C++ pointer is null.  The result is the
    returned boolean and the identity afterwards. *)
Definition noise_static_identity_init_from_keys (private_key : noise_private_key)
    (peer_public_key_text : bytes) (psk : option noise_symmetric_key)
    (identity : noise_static_identity) : bool * noise_static_identity :=
  if negb (key_valid private_key) then (false, identity)
  else
    let identity := noise_static_identity_reset identity in
    let identity := identity <| static_private := mk_key (key_bytes private_key) true |> in
    match noise_derive_public_key (static_private identity) with
    | None => (false, noise_static_identity_reset identity)
    | Some public_key =>
        let identity := identity <| static_public := public_key |> in
        match noise_parse_public_key peer_public_key_text with
        | None => (false, noise_static_identity_reset identity)
        | Some remote =>
            let identity := identity <| remote_static := remote |> in
            match psk with
            | Some k =>
                if key_valid k then (true, identity <| preshared_key := mk_key (key_bytes k) true |>)
                else (true, identity)
            | None => (true, identity)
            end
        end
    end.

Definition noise_static_identity_init (private_key_text peer_public_key_text preshared_key_text : bytes)
    (identity : noise_static_identity) : bool * noise_static_identity :=
  let identity := noise_static_identity_reset identity in
  match noise_parse_private_key private_key_text with
  | None => (false, noise_static_identity_reset identity)
  | Some private_key =>
      let identity := identity <| static_private := private_key |> in
      match x25519_public_key (key_bytes private_key) with
      | None => (false, noise_static_identity_reset identity)
      | Some public_key =>
          let identity := identity <| static_public := mk_key public_key true |> in
          match noise_parse_public_key peer_public_key_text with
          | None => (false, noise_static_identity_reset identity)
          | Some remote =>
              let identity := identity <| remote_static := remote |> in
              if negb (length preshared_key_text =? 0)%nat then
                match noise_parse_preshared_key preshared_key_text with
                | None => (false, noise_static_identity_reset identity)
                | Some psk => (true, identity <| preshared_key := psk |>)
                end
              else (true, identity)
          end
      end
  end.

Definition noise_precompute_static_static (identity : noise_static_identity)
    (material : noise_handshake_material) : bool * noise_handshake_material :=
  if negb (key_valid (static_private identity)) || negb (key_valid (remote_static identity)) then
    (false, material)
  else
    match x25519 (key_bytes (static_private identity)) (key_bytes (remote_static identity)) with
    | None => (false, material)
    | Some secret =>
        if IsAllZero secret then (false, material)
        else (true, material <| precomputed_static_static := mk_key secret true |>)
    end.

(** ** Identities configured for each other *)

(** [identity] and its precomputed secret belong to the holder of the private
    key [own], configured for the holder of [other] with preshared key [psk]. *)
Record configured (identity : noise_static_identity) (precomputed : noise_secret32)
    (own other psk : bytes) : Prop := {
  cf_private : static_private identity = mk_key own true;
  cf_public : static_public identity = mk_key (crypto_x25519_public_key own) true;
  cf_remote : remote_static identity = mk_key (crypto_x25519_public_key other) true;
  cf_psk : key_bytes (preshared_key identity) = psk;
  cf_precomputed : precomputed = mk_key (crypto_x25519 own (crypto_x25519_public_key other)) true
}.

End Identity.
