(* ===== verification/Noise.v ===== *)
(** * The Noise transcript

    The file-local helpers of [wireguard/handshake.cpp]: key derivation, the
    mixing of hashes, Diffie-Hellman results and the preshared key into the
    handshake transcript, encryption of handshake fields, the TAI64N timestamp,
    and the two message authentication codes.  Helpers that return [false] return
    [None] here; hashing cannot fail ([Crypto.hashing_total]), so a helper that
    fails has not yet written to its in-out arguments. *)

From S2P Require Import Prelude Endian Messages Platform Session Base64 Crypto.
Local Open Scope Z_scope.

Definition NoiseHashSize : nat := Blake2sHashSize.
Definition NoiseSymmetricKeySize : nat := 32.
Definition InitiationsPerSecond : Z := 50.
Definition Tai64nBaseSeconds : Z := 0x400000000000000a.
Definition ZeroNonce : bytes := zeros ChaCha20NonceSize.
Definition HandshakeName : bytes := chars "Noise_IKpsk2_25519_ChaChaPoly_BLAKE2s".
Definition IdentifierName : bytes := chars "WireGuard v1 zx2c4 Jason@zx2c4.com".
Definition Mac1KeyLabel : bytes := chars "mac1----".
Definition CookieKeyLabel : bytes := chars "cookie--".

(** [IsAllZero] of handshake.cpp, [std::ranges::all_of]. *)
Definition handshake_IsAllZero (data : bytes) : bool := forallb (fun b => b =? 0) data.

(** [while ((result << 1) > result && (result << 1) <= value) result <<= 1;]
    on 64-bit integers; [result] doubles, so 64 rounds are enough. *)
Fixpoint round_loop (fuel : nat) (value result : Z) : Z :=
  match fuel with
  | O => result
  | S fuel' =>
      let doubled := u64 (Z.shiftl result 1) in
      if (result <? doubled) && (doubled <=? value) then round_loop fuel' value doubled else result
  end.
Definition RoundDownToPowerOfTwo (value : Z) : Z :=
  if value =? 0 then 0 else round_loop 64 value 1.

(** [GetHandshakeInitCache]: the chaining key and hash, where [ready]. *)
Definition HandshakeInitCache : option (bytes * bytes) :=
  ck ← Blake2sHash 32 HandshakeName [];
  h ← with_hasher (_ ← hasher_InitializeDigest NoiseHashSize [];
                   _ ← hasher_Update ck; _ ← hasher_Update IdentifierName;
                   hasher_Final NoiseHashSize);
  Some (ck, h).

(** The three overloads of [Kdf]. *)
Definition Kdf1 (data ck : bytes) : option bytes :=
  secret ← Blake2sHmac ck data;
  Blake2sHmac secret [1].
Definition Kdf2 (data ck : bytes) : option (bytes * bytes) :=
  secret ← Blake2sHmac ck data;
  first ← Blake2sHmac secret [1];
  second ← Blake2sHmac secret (first ++ [2]);
  Some (first, second).
Definition Kdf3 (data ck : bytes) : option (bytes * bytes * bytes) :=
  secret ← Blake2sHmac ck data;
  first ← Blake2sHmac secret [1];
  second ← Blake2sHmac secret (first ++ [2]);
  third ← Blake2sHmac secret (second ++ [3]);
  Some (first, second, third).

Definition MixHash (hash src : bytes) : option bytes :=
  with_hasher (_ ← hasher_InitializeDigest NoiseHashSize [];
               _ ← hasher_Update hash; _ ← hasher_Update src;
               hasher_Final NoiseHashSize).

Definition HandshakeInit (remote_static : noise_public_key) : option (bytes * bytes) :=
  '(ck, h) ← HandshakeInitCache;
  h ← MixHash h (key_bytes remote_static);
  Some (ck, h).

Section Noise.
Context {P : Primitives}.

(** The new chaining key and the message key. *)
Definition MixDh (ck private_key public_key : bytes) : option (bytes * bytes) :=
  dh ← x25519 private_key public_key;
  if handshake_IsAllZero dh then None else Kdf2 dh ck.

(** The overload that discards the message key. *)
Definition MixDh_discard (ck private_key public_key : bytes) : option bytes :=
  '(ck, _) ← MixDh ck private_key public_key; Some ck.

Definition MixPrecomputedDh (ck : bytes) (precomputed : noise_secret32) : option (bytes * bytes) :=
  if negb (key_valid precomputed) || handshake_IsAllZero (key_bytes precomputed) then None
  else Kdf2 (key_bytes precomputed) ck.

(** The new chaining key, hash and message key. *)
Definition MixPsk (ck hash psk : bytes) : option (bytes * bytes * bytes) :=
  '(ck, temp_hash, key) ← Kdf3 psk ck;
  hash ← MixHash hash temp_hash;
  Some (ck, hash, key).

(** The ciphertext with its tag, and the new hash. *)
Definition MessageEncrypt (dst_size : nat) (plaintext key hash : bytes) : option (bytes * bytes) :=
  if negb (dst_size =? length plaintext + NoiseTagSize)%nat then None
  else
    '(ciphertext, tag) ← chacha20poly1305_encrypt (length plaintext) plaintext hash key ZeroNonce;
    let dst := ciphertext ++ tag in
    hash ← MixHash hash dst;
    Some (dst, hash).

(** The plaintext, and the new hash. *)
Definition MessageDecrypt (dst_size : nat) (src key hash : bytes) : option (bytes * bytes) :=
  if (length src <? NoiseTagSize)%nat || negb (dst_size =? length src - NoiseTagSize)%nat then None
  else
    let tag := drop (length src - NoiseTagSize) src in
    plaintext ← chacha20poly1305_decrypt dst_size (take dst_size src) tag hash key ZeroNonce;
    hash ← MixHash hash src;
    Some (plaintext, hash).

(** The new chaining key and hash; the ephemeral key itself is copied. *)
Definition MessageEphemeral (ephemeral ck hash : bytes) : option (bytes * bytes) :=
  hash ← MixHash hash ephemeral;
  ck ← Kdf1 ephemeral ck;
  Some (ck, hash).

Definition Tai64nNow (w : World) : bytes * World :=
  let '(now, w) := ktime_get_real_ts64 w in
  let rounding := RoundDownToPowerOfTwo (NSEC_PER_SEC / InitiationsPerSecond) in
  let tv_nsec := if negb (rounding =? 0) then tv_nsec now - Z.rem (tv_nsec now) rounding
                 else tv_nsec now in
  (StoreBe64 (u64 (Tai64nBaseSeconds + u64 (tv_sec now))) ++ StoreBe32 (u32 tv_nsec), w).

(** ** Message authentication codes *)

(** [hash(Mac1KeyLabel || remote_static)], the first lines of [ComputeMac1]. *)
Definition mac1_key (remote_static : noise_public_key) : option bytes :=
  with_hasher (_ ← hasher_InitializeDigest NoiseSymmetricKeySize [];
               _ ← hasher_Update Mac1KeyLabel; _ ← hasher_Update (key_bytes remote_static);
               hasher_Final NoiseSymmetricKeySize).

(** What the two overloads of [ComputeMac1], [ComputeMac2] and
    [ApplyOutgoingMacs] need to know about a message type. *)
Class MacMessage (T : Type) := {
  message_size : nat;
  serialize : bytes -> T -> ParseError * bytes;
  get_macs : T -> message_macs;
  set_macs : message_macs -> T -> T
}.
#[export] Instance initiation_macs : MacMessage message_handshake_initiation := {
  message_size := HandshakeInitiationSize;
  serialize := SerializeHandshakeInitiation;
  get_macs := hi_macs;
  set_macs := fun macs m => m <| hi_macs := macs |> }.
#[export] Instance response_macs : MacMessage message_handshake_response := {
  message_size := HandshakeResponseSize;
  serialize := SerializeHandshakeResponse;
  get_macs := hr_macs;
  set_macs := fun macs m => m <| hr_macs := macs |> }.

Definition ComputeMac1 {T} `{MacMessage T} (message : T) (remote_static : noise_public_key) : option T :=
  if negb (key_valid remote_static) then None
  else
    mac1_key ← mac1_key remote_static;
    let '(error, serialized) := serialize (zeros message_size) message in
    if negb (bool_decide (error = ParseError_None)) then None
    else
      mac ← Blake2sHash NoiseMacSize (take (message_size - 2 * NoiseMacSize) serialized) mac1_key;
      Some (set_macs ((get_macs message) <| mac1 := mac |>) message).

Definition VerifyMac1 {T} `{MacMessage T} (message : T) (local_static : noise_public_key) : bool :=
  if negb (key_valid local_static) then false
  else
    match ComputeMac1 message local_static with
    | None => false
    | Some expected => secure_equal (mac1 (get_macs expected)) (mac1 (get_macs message))
    end.

Definition ComputeCookieKey (remote_static : noise_public_key) : option bytes :=
  if negb (key_valid remote_static) then None
  else
    with_hasher (_ ← hasher_InitializeDigest NoiseSymmetricKeySize [];
                 _ ← hasher_Update CookieKeyLabel; _ ← hasher_Update (key_bytes remote_static);
                 hasher_Final NoiseSymmetricKeySize).

Definition ComputeMac2 {T} `{MacMessage T} (message : T) (cookie : noise_cookie) : option bytes :=
  let '(error, serialized) := serialize (zeros message_size) message in
  if negb (bool_decide (error = ParseError_None)) then None
  else Blake2sHash NoiseMacSize (take (message_size - NoiseMacSize) serialized) (ck_value cookie).

(** The returned boolean, the message, the cookie and the world afterwards. *)
Definition ApplyOutgoingMacs {T} `{MacMessage T} (message : T) (remote_static : noise_public_key)
    (cookie : noise_cookie) (w : World) : bool * T * noise_cookie * World :=
  let message := set_macs macs_init message in
  match ComputeMac1 message remote_static with
  | None => (false, message, cookie, w)
  | Some message =>
      let cookie := noise_cookie_record_last_mac1 cookie (mac1 (get_macs message)) in
      let '(valid, w) := noise_cookie_is_valid cookie w in
      if valid then
        match ComputeMac2 message cookie with
        | None => (false, message, cookie, w)
        | Some mac => (true, set_macs ((get_macs message) <| mac2 := mac |>) message, cookie, w)
        end
      else (true, message, cookie, w)
  end.

(** The first and second session key. *)
Definition DeriveSessionKeys (ck : bytes) : option (noise_symmetric_key * noise_symmetric_key) :=
  '(first, second) ← Kdf2 [] ck;
  Some (mk_key first true, mk_key second true).

End Noise.

(** The known-answer test of [RunHandshakeCryptoSelfTest]. *)
Definition RunHandshakeCryptoSelfTest {P : Primitives} : bool :=
  let ChainingKey := seqZ 0xa0 32 in
  let Input := chars "noise-kdf-vector" in
  let ExpectedFirst :=
    [0x81; 0x58; 0x86; 0xce; 0xaf; 0xbd; 0xb3; 0x05; 0x17; 0x99; 0x3b; 0x0f; 0x79; 0xa8; 0xa8; 0xd7;
     0x39; 0x83; 0x1b; 0xb2; 0x48; 0xf7; 0x86; 0x0c; 0xa4; 0xb7; 0x95; 0xe0; 0x18; 0x03; 0x00; 0xa6] in
  let ExpectedSecond :=
    [0x76; 0x28; 0x10; 0xa0; 0x5a; 0x0b; 0xec; 0x8f; 0xf4; 0x47; 0xfc; 0xba; 0x27; 0xdb; 0x05; 0x44;
     0x21; 0x24; 0x8b; 0x7e; 0x42; 0xf6; 0x98; 0x6d; 0x75; 0x39; 0xcb; 0xbb; 0xba; 0x61; 0x0d; 0x72] in
  let ExpectedThird :=
    [0xf6; 0x0b; 0x2f; 0x4c; 0x8e; 0x0e; 0x3d; 0xc3; 0x27; 0x72; 0x1a; 0xe4; 0x43; 0xd5; 0x76; 0xd4;
     0x79; 0xc1; 0xee; 0xfb; 0x37; 0xf9; 0x69; 0xc8; 0x08; 0x6d; 0x5e; 0x36; 0x63; 0x69; 0x3b; 0x10] in
  match Kdf3 Input ChainingKey with
  | None => false
  | Some (first, second, third) =>
      secure_equal first ExpectedFirst && secure_equal second ExpectedSecond
      && secure_equal third ExpectedThird
  end.

(** ** Totality and agreement

    Hashing never fails, so the steps of the transcript succeed on arrays of the
    right size; a Diffie-Hellman step gives both sides the same result, and an
    encryption step is undone by the matching decryption step. *)

Lemma MixHash_digest h src : MixHash h src = digest 32 [] (h ++ src).
Proof. apply hash_two. auto with wg. Qed.

Lemma MixHash_Some h src : exists h', MixHash h src = Some h' /\ bytes_of 32 h'.
Proof. rewrite MixHash_digest. apply digest_Some. auto with wg. Qed.

Lemma Kdf1_Some data ck : exists k, Kdf1 data ck = Some k /\ bytes_of 32 k.
Proof.
  unfold Kdf1. destruct (Blake2sHmac_Some ck data) as (s & -> & _). apply Blake2sHmac_Some.
Qed.

Lemma Kdf2_Some data ck :
  exists k1 k2, Kdf2 data ck = Some (k1, k2) /\ bytes_of 32 k1 /\ bytes_of 32 k2.
Proof.
  unfold Kdf2. destruct (Blake2sHmac_Some ck data) as (s & -> & _). cbn [mbind option_bind].
  destruct (Blake2sHmac_Some s [1]) as (k1 & -> & H1). cbn [mbind option_bind].
  destruct (Blake2sHmac_Some s (k1 ++ [2])) as (k2 & -> & H2). by exists k1, k2.
Qed.

Lemma Kdf3_Some data ck :
  exists k1 k2 k3, Kdf3 data ck = Some (k1, k2, k3) /\ bytes_of 32 k1 /\ bytes_of 32 k2 /\ bytes_of 32 k3.
Proof.
  unfold Kdf3. destruct (Blake2sHmac_Some ck data) as (s & -> & _). cbn [mbind option_bind].
  destruct (Blake2sHmac_Some s [1]) as (k1 & -> & H1). cbn [mbind option_bind].
  destruct (Blake2sHmac_Some s (k1 ++ [2])) as (k2 & -> & H2). cbn [mbind option_bind].
  destruct (Blake2sHmac_Some s (k2 ++ [3])) as (k3 & -> & H3). by exists k1, k2, k3.
Qed.

Lemma HandshakeInitCache_Some :
  exists ck h, HandshakeInitCache = Some (ck, h) /\ bytes_of 32 ck /\ bytes_of 32 h.
Proof.
  unfold HandshakeInitCache. rewrite Blake2sHash_digest by auto with wg.
  destruct (digest_Some 32 [] HandshakeName size_ok_32) as (ck & -> & Hck). cbn [mbind option_bind].
  unfold NoiseHashSize, Blake2sHashSize. rewrite hash_two by auto with wg.
  destruct (digest_Some 32 [] (ck ++ IdentifierName) size_ok_32) as (h & -> & Hh).
  by exists ck, h.
Qed.

Lemma HandshakeInit_Some k :
  exists ck h, HandshakeInit k = Some (ck, h) /\ bytes_of 32 ck /\ bytes_of 32 h.
Proof.
  unfold HandshakeInit. destruct HandshakeInitCache_Some as (ck & h & -> & Hck & _).
  cbn [mbind option_bind]. destruct (MixHash_Some h (key_bytes k)) as (h' & -> & Hh').
  by exists ck, h'.
Qed.

Lemma HandshakeInit_key k k' : key_bytes k = key_bytes k' -> HandshakeInit k = HandshakeInit k'.
Proof. unfold HandshakeInit. by intros ->. Qed.

Lemma MessageEphemeral_Some eph ck h :
  exists ck' h', MessageEphemeral eph ck h = Some (ck', h') /\ bytes_of 32 ck' /\ bytes_of 32 h'.
Proof.
  unfold MessageEphemeral. destruct (MixHash_Some h eph) as (h' & -> & Hh'). cbn [mbind option_bind].
  destruct (Kdf1_Some eph ck) as (ck' & -> & Hck'). by exists ck', h'.
Qed.

Lemma DeriveSessionKeys_Some ck :
  exists k1 k2, DeriveSessionKeys ck = Some (mk_key k1 true, mk_key k2 true) /\
    bytes_of 32 k1 /\ bytes_of 32 k2.
Proof.
  unfold DeriveSessionKeys. destruct (Kdf2_Some [] ck) as (k1 & k2 & -> & ?). by exists k1, k2.
Qed.

Section Agreement.
Context {P : Primitives}.

Lemma MixPsk_Some ck h psk :
  exists ck' h' key, MixPsk ck h psk = Some (ck', h', key) /\
    bytes_of 32 ck' /\ bytes_of 32 h' /\ bytes_of 32 key.
Proof.
  unfold MixPsk. destruct (Kdf3_Some psk ck) as (k1 & k2 & k3 & -> & H1 & H2 & H3).
  cbn [mbind option_bind]. destruct (MixHash_Some h k2) as (h' & -> & Hh). by exists k1, h', k3.
Qed.

Lemma MixPrecomputedDh_Some ck secret :
  handshake_IsAllZero secret = false ->
  exists ck' key, MixPrecomputedDh ck (mk_key secret true) = Some (ck', key) /\
    bytes_of 32 ck' /\ bytes_of 32 key.
Proof. intros HZ. unfold MixPrecomputedDh. simpl. rewrite HZ. apply Kdf2_Some. Qed.

Context {L : PrimitivesLaws P}.

(** The Diffie-Hellman result both sides compute. *)
Lemma MixDh_agree ck a b :
  bytes_of 32 a -> bytes_of 32 b ->
  exists ck' key,
    MixDh ck a (crypto_x25519_public_key b) = Some (ck', key) /\
    MixDh ck b (crypto_x25519_public_key a) = Some (ck', key) /\
    bytes_of 32 ck' /\ bytes_of 32 key.
Proof.
  intros Ha Hb. unfold MixDh, x25519, handshake_IsAllZero.
  rewrite <- (x25519_agree a b) by done. rewrite !(x25519_nonzero a b) by done.
  cbn [mbind option_bind]. rewrite (x25519_nonzero a b) by done.
  destruct (Kdf2_Some (crypto_x25519 a (crypto_x25519_public_key b)) ck) as (k1 & k2 & -> & ? & ?).
  by exists k1, k2.
Qed.

Lemma MixDh_discard_agree ck a b :
  bytes_of 32 a -> bytes_of 32 b ->
  exists ck',
    MixDh_discard ck a (crypto_x25519_public_key b) = Some ck' /\
    MixDh_discard ck b (crypto_x25519_public_key a) = Some ck' /\ bytes_of 32 ck'.
Proof.
  intros Ha Hb. unfold MixDh_discard. destruct (MixDh_agree ck a b Ha Hb) as (ck' & key & -> & -> & ? & ?).
  by exists ck'.
Qed.

Lemma ZeroNonce_ok : bytes_of 12 ZeroNonce.
Proof. apply bytes_of_zeros. Qed.

Lemma MessageEncrypt_Decrypt p key h :
  bytes_ok p -> bytes_of 32 key -> bytes_ok h ->
  exists c h',
    MessageEncrypt (length p + 16) p key h = Some (c, h') /\
    MessageDecrypt (length p) c key h = Some (p, h') /\
    bytes_of (length p + 16) c /\ bytes_of 32 h'.
Proof.
  intros Hp Hk Hh. pose proof (ietf_laws (PrimitivesLaws := L)) as LA.
  destruct (aead_sizes _ _ _ LA key ZeroNonce h p) as [[HC1 HC2] [HT1 HT2]]; try done.
  { apply ZeroNonce_ok. }
  pose proof (aead_read_write _ _ _ LA key ZeroNonce h p Hk ZeroNonce_ok Hh Hp) as HR.
  unfold MessageEncrypt, MessageDecrypt, chacha20poly1305_encrypt, chacha20poly1305_decrypt.
  unfold NoiseTagSize. rewrite !Nat.eqb_refl. cbn [negb].
  destruct (crypto_aead_ietf_write key ZeroNonce h p) as [c tag] eqn:EW. simpl in HC1, HC2, HT1, HT2, HR.
  cbn [mbind option_bind]. destruct (MixHash_Some h (c ++ tag)) as (h' & EH & Hh').
  exists (c ++ tag), h'. rewrite EH. rewrite length_app, HT1.
  replace (length c + 16 - 16)%nat with (length c) by lia.
  rewrite (proj2 (Nat.ltb_ge _ _)) by lia. rewrite HC1, Nat.eqb_refl. cbn [negb orb].
  rewrite take_app_length', drop_app_length', HC1, Nat.eqb_refl by done.
  cbn [negb mbind option_bind]. rewrite HR. cbn [mbind option_bind].
  do 2 (split; [done|]). split; [|done]. split; [size_simpl; lia|by apply bytes_ok_app].
Qed.
End Agreement.

Example self_test_toy : @RunHandshakeCryptoSelfTest toy_primitives = true.
Proof. vm_compute. reflexivity. Qed.

(** Conversion checks of later proofs unfold hashing last. *)
#[global] Strategy 1000 [Blake2sHash Blake2sHmac digest HandshakeInitCache HandshakeInit MixHash
  Kdf1 Kdf2 Kdf3 MessageEphemeral MessageEncrypt MessageDecrypt MixPsk MixDh MixDh_discard
  MixPrecomputedDh DeriveSessionKeys ComputeCookieKey mac1_key ComputeMac1 ComputeMac2 VerifyMac1
  ApplyOutgoingMacs].
