(* ===== verification/Admission.v ===== *)
(** * Admission of handshake packets

    The responder's denial-of-service protection in [wireguard/handshake.cpp]:
    MAC1 on the raw packet, the token buckets, the table of sources, the cookie
    check and the cookie reply, and [noise_handshake_admit_responder_packet].
    Times are nanoseconds since boot; the token arithmetic stays far below the
    64-bit range of [std::chrono::nanoseconds]. *)

From S2P Require Import Prelude Endian Messages Platform Session Crypto Device Noise.
Local Open Scope Z_scope.

Definition HandshakeRateTokenCost : Z := NSEC_PER_SEC / HandshakeRateLimitPacketsPerSecond.
Definition HandshakeRateMaximumTokens : Z := HandshakeRateTokenCost * HandshakeRateLimitBurst.

Inductive ResponderHandshakeAdmission :=
  | ResponderHandshakeAdmission_Accepted
  | ResponderHandshakeAdmission_CookieReply
  | ResponderHandshakeAdmission_RateLimited
  | ResponderHandshakeAdmission_Invalid.
#[export] Instance ResponderHandshakeAdmission_eq_dec : EqDecision ResponderHandshakeAdmission.
Proof. solve_decision. Defined.

Definition SourceAddressSize (source : endpoint) : nat :=
  match ep_family source with
  | address_family_inet => 4
  | address_family_inet6 => 16
  | address_family_unspecified => 0
  end.

(** The first [out_size] bytes of [out]. *)
Definition BuildSourceBytes (source : endpoint) : option bytes :=
  let address_size := SourceAddressSize source in
  if (address_size =? 0)%nat then None
  else Some (take address_size (ep_address source)
             ++ [u8 (Z.shiftr (ep_port source) 8); u8 (Z.land (ep_port source) 255)]).

(** ** Token buckets *)

(** The returned boolean with [tokens], [last_update] and [initialized]. *)
Definition ConsumeHandshakeRate (tokens last_update : Z) (initialized : bool) (now : Z)
    : bool * (Z * Z * bool) :=
  let '(tokens, last_update, initialized) :=
    if negb initialized then (HandshakeRateMaximumTokens, now, true)
    else if last_update <? now then
      (Z.min HandshakeRateMaximumTokens (tokens + (now - last_update)), now, initialized)
    else (tokens, last_update, initialized) in
  if tokens <? HandshakeRateTokenCost then (false, (tokens, last_update, initialized))
  else (true, (tokens - HandshakeRateTokenCost, last_update, initialized)).

Definition IsUnderLoad (state : ResponderCookieState) (now : Z) : bool * ResponderCookieState :=
  let '(arrival_allowed, (tokens, last_update, initialized)) :=
    ConsumeHandshakeRate (rc_arrival_tokens state) (rc_arrival_last_update state)
      (rc_arrival_initialized state) now in
  let state := state <| rc_arrival_tokens := tokens |> <| rc_arrival_last_update := last_update |>
                     <| rc_arrival_initialized := initialized |> in
  let state := if negb arrival_allowed then state <| rc_under_load_until := now + UnderLoadAfterTime |>
               else state in
  (negb arrival_allowed || (now <? rc_under_load_until state), state).

(** [entry.active && entry.family == source.family && std::equal(...)] *)
Definition entry_is_source (source : endpoint) (entry : HandshakeRateLimitEntry) : bool :=
  rl_active entry && bool_decide (rl_family entry = ep_family source)
  && bool_decide (take (SourceAddressSize source) (rl_address entry)
                  = take (SourceAddressSize source) (ep_address source)).

Definition entry_reusable (now : Z) (entry : HandshakeRateLimitEntry) : bool :=
  negb (rl_active entry)
  || ((rl_last_update entry <? now) && (UnderLoadAfterTime <? now - rl_last_update entry)).

(** The loop over [rate_limits] from position [i]: the entry of the source, or
    else the last reusable one. *)
Fixpoint find_entry (source : endpoint) (now : Z) (entries : list HandshakeRateLimitEntry) (i : nat)
    (reusable : option nat) : nat + option nat :=
  match entries with
  | [] => inr reusable
  | entry :: rest =>
      if entry_is_source source entry then inl i
      else find_entry source now rest (S i) (if entry_reusable now entry then Some i else reusable)
  end.

(** The position of the entry returned ([None] is the null pointer), and the
    table afterwards. *)
Definition FindRateLimitEntry (state : ResponderCookieState) (source : endpoint) (now : Z)
    : option nat * ResponderCookieState :=
  let address_size := SourceAddressSize source in
  if (address_size =? 0)%nat then (None, state)
  else
    match find_entry source now (rc_rate_limits state) 0 None with
    | inl i => (Some i, state)
    | inr None => (None, state)
    | inr (Some i) =>
        let entry := rate_limit_init <| rl_family := ep_family source |>
          <| rl_address := write_at (zeros 16) 0 (take address_size (ep_address source)) |>
          <| rl_active := true |> in
        (Some i, state <| rc_rate_limits ::= <[i := entry]> |>)
    end.

Section Admission.
Context {P : Primitives}.

(** ** MAC1 of a raw packet *)

Definition VerifyPacketMac1 (packet : bytes) (local_static : noise_public_key) : bool :=
  let type := InspectMessageType packet in
  let expected_size :=
    if pr_success type && bool_decide (pr_type type = MessageType_HandshakeInitiation)
    then HandshakeInitiationSize
    else if pr_success type && bool_decide (pr_type type = MessageType_HandshakeResponse)
    then HandshakeResponseSize else 0%nat in
  if negb (key_valid local_static) || (expected_size =? 0)%nat
     || negb (length packet =? expected_size)%nat then false
  else
    match (key ← mac1_key local_static;
           Blake2sHash NoiseMacSize (take (length packet - 2 * NoiseMacSize) packet) key) with
    | None => false
    | Some expected =>
        secure_equal expected (subspan packet (length packet - 2 * NoiseMacSize) NoiseMacSize)
    end.

(** ** Cookies *)

(** The condition on the responder's secret shared by the two functions below. *)
Definition secret_unusable (state : ResponderCookieState) (now : Z) : bool :=
  negb (key_valid (rc_secret state)) || (rc_secret_birth state =? 0)
  || (now <? rc_secret_birth state) || (CookieRefreshTime <? now - rc_secret_birth state).

Definition CheckPacketMac2 (state : ResponderCookieState) (packet : bytes) (source : endpoint)
    (now : Z) : bool :=
  if secret_unusable state now then false
  else
    match (source_bytes ← BuildSourceBytes source;
           cookie ← Blake2sHash CookieValueSize source_bytes (key_bytes (rc_secret state));
           Blake2sHash NoiseMacSize (take (length packet - NoiseMacSize) packet) cookie) with
    | None => false
    | Some expected => secure_equal expected (drop (length packet - NoiseMacSize) packet)
    end.

(** The returned boolean, the responder state, [*out_cookie] and the world. *)
Definition CreateCookieReply (state : ResponderCookieState) (local_static : noise_public_key)
    (packet : bytes) (source : endpoint) (now : Z) (out_cookie : message_handshake_cookie) (w : World)
    : bool * ResponderCookieState * message_handshake_cookie * World :=
  if negb (key_valid local_static) then (false, state, out_cookie, w)
  else
    let '(state, w) :=
      if secret_unusable state now then
        let '(secret, w) := get_random_bytes 32 w in
        (state <| rc_secret := mk_key secret true |> <| rc_secret_birth := now |>, w)
      else (state, w) in
    match (source_bytes ← BuildSourceBytes source;
           cookie ← Blake2sHash CookieValueSize source_bytes (key_bytes (rc_secret state));
           key ← ComputeCookieKey local_static;
           Some (cookie, key)) with
    | None => (false, state, out_cookie, w)
    | Some (cookie, key) =>
        let out_cookie := cookie_reply_init
          <| hc_type := SetMessageType MessageType_CookieReply |>
          <| hc_receiver_index := LoadLe32 (drop MessageTypeSize packet) |> in
        let '(nonce, w) := get_random_bytes CookieNonceSize w in
        let out_cookie := out_cookie <| hc_nonce := nonce |> in
        match (if hc_receiver_index out_cookie =? 0 then None
               else xchacha20poly1305_encrypt CookieValueSize cookie
                      (subspan packet (length packet - 2 * NoiseMacSize) NoiseMacSize) key nonce) with
        | None => (false, state, cookie_reply_init, w)
        | Some (ciphertext, tag) =>
            (true, state, out_cookie <| hc_encrypted_cookie := ciphertext ++ tag |>, w)
        end
    end.

(** ** Admission *)

(** The outcome, [*out_cookie] and the environment. *)
Definition noise_handshake_admit_responder_packet (packet : bytes) (source : endpoint) (now : Z)
    (out_cookie : message_handshake_cookie) (e : Env)
    : ResponderHandshakeAdmission * message_handshake_cookie * Env :=
  match wg_device_first_peer (ev_device e) with
  | None => (ResponderHandshakeAdmission_Invalid, out_cookie, e)
  | Some peer =>
      let local_static := static_public (pr_static_identity peer) in
      if (SourceAddressSize source =? 0)%nat || negb (VerifyPacketMac1 packet local_static) then
        (ResponderHandshakeAdmission_Invalid, out_cookie, e)
      else
        let set_state s := e <| ev_device ::= fun d => d <| dv_responder_cookie := s |> |> in
        let '(under_load, state) := IsUnderLoad (dv_responder_cookie (ev_device e)) now in
        if negb under_load then (ResponderHandshakeAdmission_Accepted, out_cookie, set_state state)
        else if negb (CheckPacketMac2 state packet source now) then
          let '(ok, state, out_cookie, w) :=
            CreateCookieReply state local_static packet source now out_cookie (ev_world e) in
          (if ok then ResponderHandshakeAdmission_CookieReply else ResponderHandshakeAdmission_Invalid,
           out_cookie, (set_state state) <| ev_world := w |>)
        else
          let '(position, state) := FindRateLimitEntry state source now in
          match position with
          | None => (ResponderHandshakeAdmission_RateLimited, out_cookie, set_state state)
          | Some i =>
              let entry := default rate_limit_init (rc_rate_limits state !! i) in
              let '(allowed, (tokens, last_update, initialized)) :=
                ConsumeHandshakeRate (rl_tokens entry) (rl_last_update entry) (rl_initialized entry)
                  now in
              let entry := entry <| rl_tokens := tokens |> <| rl_last_update := last_update |>
                                 <| rl_initialized := initialized |> in
              let state := state <| rc_rate_limits ::= <[i := entry]> |> in
              (if allowed then ResponderHandshakeAdmission_Accepted
               else ResponderHandshakeAdmission_RateLimited, out_cookie, set_state state)
          end
  end.
End Admission.
