(* ===== verification/Macs.v ===== *)
(** * Message authentication codes

    What [ComputeMac1], [VerifyMac1], [ApplyOutgoingMacs] and the raw-packet check
    [VerifyPacketMac1] compute, for both message types at once.  The class
    [MacMessageLaws] is the interface the two message types implement: how a
    message is laid out around its two authentication codes. *)

From S2P Require Import Prelude Endian Messages Platform Session Crypto Device Noise Admission.
Local Open Scope Z_scope.

(** The bytes the first code covers: everything before the codes. *)
Class MacMessageLaws (T : Type) `{MM : MacMessage T} := {
  message_ok : T -> Prop;
  body : T -> bytes;
  message_type : MessageType;
  serialize_ok : forall m, message_ok m ->
    serialize (zeros message_size) m = (ParseError_None, body m ++ enc_macs (get_macs m));
  body_ok : forall m, message_ok m -> bytes_of (message_size - 2 * NoiseMacSize) (body m);
  size_min : (2 * NoiseMacSize <= message_size)%nat;
  body_set : forall macs m, body (set_macs macs m) = body m;
  ok_macs : forall m, message_ok m -> macs_ok (get_macs m);
  ok_set : forall macs m, message_ok m -> macs_ok macs -> message_ok (set_macs macs m);
  get_set : forall macs m, get_macs (set_macs macs m) = macs;
  set_set : forall macs macs' m, set_macs macs (set_macs macs' m) = set_macs macs m;
  inspect_ok : forall m, message_ok m ->
    InspectMessageType (body m ++ enc_macs (get_macs m)) = MakeSuccess message_type;
  size_of_type :
    (if bool_decide (message_type = MessageType_HandshakeInitiation) then HandshakeInitiationSize
     else if bool_decide (message_type = MessageType_HandshakeResponse) then HandshakeResponseSize
     else 0%nat) = message_size
}.

Definition body_initiation (m : message_handshake_initiation) : bytes :=
  StoreLe32 (hi_type m) ++ StoreLe32 (hi_sender_index m) ++ hi_unencrypted_ephemeral m
  ++ hi_encrypted_static m ++ hi_encrypted_timestamp m.
Definition body_response (m : message_handshake_response) : bytes :=
  StoreLe32 (hr_type m) ++ StoreLe32 (hr_sender_index m) ++ StoreLe32 (hr_receiver_index m)
  ++ hr_unencrypted_ephemeral m ++ hr_encrypted_nothing m.

Lemma enc_initiation_body m : enc_initiation m = body_initiation m ++ enc_macs (hi_macs m).
Proof. unfold enc_initiation, body_initiation. by rewrite <- !app_assoc. Qed.
Lemma enc_response_body m : enc_response m = body_response m ++ enc_macs (hr_macs m).
Proof. unfold enc_response, body_response. by rewrite <- !app_assoc. Qed.

#[export] Instance initiation_mac_laws : MacMessageLaws message_handshake_initiation.
Proof.
  refine {| message_ok := initiation_ok; body := body_initiation;
            message_type := MessageType_HandshakeInitiation |}; cbn [serialize get_macs set_macs message_size initiation_macs].
  - intros m H. rewrite SerializeHandshakeInitiation_enc; [|done|by rewrite length_zeros].
    by rewrite drop_zeros, app_nil_r, enc_initiation_body.
  - intros m H. open_ok H. unfold body_initiation. split.
    + size_simpl. unfold_sizes. simpl. lia.
    + rewrite !bytes_ok_app. split_and!; try done; apply StoreLe32_bytes.
  - unfold_sizes. lia.
  - by intros macs [].
  - intros m H. apply H.
  - intros macs m H ?. unfold initiation_ok, response_ok in *. destruct m; cbn in *. tauto.
  - by intros macs [].
  - by intros macs macs' [].
  - intros m H. rewrite <- enc_initiation_body. by apply (ParseHandshakeInitiation_enc m initiation_init).
  - done.
Defined.

#[export] Instance response_mac_laws : MacMessageLaws message_handshake_response.
Proof.
  refine {| message_ok := response_ok; body := body_response;
            message_type := MessageType_HandshakeResponse |}; cbn [serialize get_macs set_macs message_size response_macs].
  - intros m H. rewrite SerializeHandshakeResponse_enc; [|done|by rewrite length_zeros].
    by rewrite drop_zeros, app_nil_r, enc_response_body.
  - intros m H. open_ok H. unfold body_response. split.
    + size_simpl. unfold_sizes. simpl. lia.
    + rewrite !bytes_ok_app. split_and!; try done; apply StoreLe32_bytes.
  - unfold_sizes. lia.
  - by intros macs [].
  - intros m H. apply H.
  - intros macs m H ?. unfold initiation_ok, response_ok in *. destruct m; cbn in *. tauto.
  - by intros macs [].
  - by intros macs macs' [].
  - intros m H. rewrite <- enc_response_body. by apply (ParseHandshakeResponse_enc m response_init).
  - done.
Defined.

(** ** The two codes *)

Lemma digest_of_16 key message :
  bytes_of 16 key \/ bytes_of 32 key ->
  exists d, Blake2sHash 16 message key = Some d /\ bytes_of 16 d.
Proof.
  intros H. assert (size_ok 16 key) as HS by (split; [lia|destruct H as [[-> _]|[-> _]]; lia]).
  rewrite Blake2sHash_digest by done. by apply digest_Some.
Qed.

Lemma mac1_key_Some rs : exists k, mac1_key rs = Some k /\ bytes_of 32 k.
Proof.
  unfold mac1_key, NoiseSymmetricKeySize. rewrite hash_two by auto with wg.
  apply digest_Some. auto with wg.
Qed.

(** MAC1 of a message body for the holder of a static key. *)
Definition mac1_of (rs : noise_public_key) (covered : bytes) : option bytes :=
  key ← mac1_key rs; Blake2sHash NoiseMacSize covered key.

Lemma mac1_of_Some rs covered : exists m, mac1_of rs covered = Some m /\ bytes_of 16 m.
Proof.
  unfold mac1_of. destruct (mac1_key_Some rs) as (k & -> & Hk). cbn [mbind option_bind].
  apply digest_of_16. by right.
Qed.

Lemma mac1_of_key rs rs' covered : key_bytes rs = key_bytes rs' -> mac1_of rs covered = mac1_of rs' covered.
Proof. unfold mac1_of, mac1_key. by intros ->. Qed.

Lemma macs_init_ok : macs_ok macs_init.
Proof. split; apply bytes_of_zeros. Qed.

Section MacLemmas.
Context {P : Primitives} {T : Type} `{ML : MacMessageLaws T}.

Lemma take_body (m : T) rest :
  message_ok m -> take (message_size - 2 * NoiseMacSize) (body m ++ rest) = body m.
Proof. intros H. apply take_app_length'. by destruct (body_ok m H). Qed.

Lemma ComputeMac1_spec (m : T) rs :
  message_ok m -> key_valid rs = true ->
  exists mac, mac1_of rs (body m) = Some mac /\ bytes_of 16 mac /\
    ComputeMac1 m rs = Some (set_macs ((get_macs m) <| mac1 := mac |>) m).
Proof.
  intros HM HV. destruct (mac1_of_Some rs (body m)) as (mac & EM & HB). exists mac. split; [done|].
  split; [done|]. unfold ComputeMac1. rewrite HV. cbn [negb].
  unfold mac1_of in EM. destruct (mac1_key rs) as [k|]; [|done]. cbn [mbind option_bind] in *.
  rewrite serialize_ok by done. rewrite bool_decide_true by done. cbn [negb].
  rewrite take_body by done. by rewrite EM.
Qed.

Lemma ComputeMac2_spec (m : T) cookie :
  message_ok m -> bytes_of 16 (ck_value cookie) ->
  exists mac, ComputeMac2 m cookie = Some mac /\ bytes_of 16 mac /\
    Blake2sHash NoiseMacSize (body m ++ mac1 (get_macs m)) (ck_value cookie) = Some mac.
Proof.
  intros HM HV. unfold ComputeMac2. rewrite serialize_ok by done. rewrite bool_decide_true by done.
  cbn [negb]. unfold enc_macs. rewrite app_assoc.
  rewrite take_app_length'.
  2: { destruct (body_ok m HM) as [HL _]. destruct (ok_macs m HM) as [[H1 _] _].
       pose proof (size_min (T := T)) as HS. rewrite length_app, HL, H1. lia. }
  destruct (digest_of_16 (ck_value cookie) (body m ++ mac1 (get_macs m))) as (mac & E & Hm); [by left|].
  unfold NoiseMacSize. rewrite E. by exists mac.
Qed.

Lemma VerifyMac1_spec `{!PrimitivesLaws P} (m : T) ls :
  message_ok m ->
  VerifyMac1 m ls = true <-> key_valid ls = true /\ mac1_of ls (body m) = Some (mac1 (get_macs m)).
Proof.
  intros HM. unfold VerifyMac1. destruct (key_valid ls) eqn:HV; cbn [negb]; [|by split; [|intros []]].
  destruct (ComputeMac1_spec m ls HM HV) as (mac & EM & _ & ->). rewrite get_set, EM.
  rewrite secure_equal_spec. simpl. split; [intros ->; done|]. by intros [_ [= ->]].
Qed.

(** What [ApplyOutgoingMacs] leaves in the message, the cookie and the world. *)
Lemma ApplyOutgoingMacs_spec (m : T) rs cookie w :
  message_ok m -> key_valid rs = true -> bytes_of 16 (ck_value cookie) -> world_ok w ->
  exists m1 m2,
    mac1_of rs (body m) = Some m1 /\ bytes_of 16 m1 /\ bytes_of 16 m2 /\
    (fst (noise_cookie_is_valid cookie w) = true ->
     Blake2sHash NoiseMacSize (body m ++ m1) (ck_value cookie) = Some m2) /\
    world_ok (snd (noise_cookie_is_valid cookie w)) /\
    ApplyOutgoingMacs m rs cookie w
    = (true, set_macs (mk_macs m1 m2) m, noise_cookie_record_last_mac1 cookie m1,
       snd (noise_cookie_is_valid cookie w)).
Proof.
  intros HM HV HC HW. unfold ApplyOutgoingMacs.
  set (m0 := set_macs macs_init m). assert (message_ok m0) as HM0 by by apply ok_set, macs_init_ok.
  destruct (ComputeMac1_spec m0 rs HM0 HV) as (m1 & EM & Hm1 & ->).
  unfold m0 in *. rewrite body_set in EM. rewrite !get_set, set_set.
  set (macs1 := macs_init <| mac1 := m1 |>). change (mac1 macs1) with m1.
  assert (macs_ok macs1) as HMs by (split; [done|apply bytes_of_zeros]).
  assert (forall c, noise_cookie_is_valid (noise_cookie_record_last_mac1 cookie c) w
                    = noise_cookie_is_valid cookie w) as EV by done.
  rewrite EV. assert (world_ok (snd (noise_cookie_is_valid cookie w))) as HW'.
  { unfold noise_cookie_is_valid. destruct (ck_valid cookie); simpl; [|done].
    by apply (GetMonotonicTime_world w). }
  destruct (noise_cookie_is_valid cookie w) as [valid w'] eqn:EC. simpl in HW'.
  destruct valid.
  - destruct (ComputeMac2_spec (set_macs macs1 m)
      (noise_cookie_record_last_mac1 cookie m1)) as (m2 & -> & Hm2 & EB);
      [by apply ok_set|done|]. rewrite body_set, get_set in EB.
    exists m1, m2. split; [done|]. split; [done|]. split; [done|]. split; [done|]. split; [done|].
    rewrite set_set. done.
  - exists m1, (zeros 16). split; [done|]. split; [done|]. split; [apply bytes_of_zeros|].
    split; [done|]. split; [done|]. done.
Qed.

(** The check on the raw packet is the check on the parsed message. *)
Lemma VerifyPacketMac1_spec `{!PrimitivesLaws P} (m : T) ls :
  message_ok m -> VerifyPacketMac1 (body m ++ enc_macs (get_macs m)) ls = VerifyMac1 m ls.
Proof.
  intros HM. apply eq_true_iff_eq. rewrite VerifyMac1_spec by done. unfold VerifyPacketMac1.
  rewrite inspect_ok by done. cbn [pr_success pr_type MakeSuccess andb]. rewrite size_of_type.
  destruct (body_ok m HM) as [HL HO]. destruct (ok_macs m HM) as [[H1 H1'] [H2 H2']].
  pose proof (size_min (T := T)) as HS. unfold enc_macs.
  set (macs := get_macs m) in *. unfold NoiseMacSize in *.
  assert (length (body m ++ mac1 macs ++ mac2 macs) = message_size) as HN by (size_simpl; lia).
  rewrite HN, Nat.eqb_refl. rewrite (proj2 (Nat.eqb_neq message_size 0)) by lia.
  destruct (key_valid ls); cbn [negb orb]; [|by split; [|intros []]].
  rewrite take_app_length' by lia.
  assert (subspan (body m ++ mac1 macs ++ mac2 macs) (message_size - 2 * 16) 16 = mac1 macs) as ->.
  { unfold subspan. rewrite drop_app_length' by lia. by rewrite take_app_length'. }
  unfold mac1_of. destruct (mac1_key ls) as [k|]; cbn [mbind option_bind]; [|by split; [|intros [_ ?]]].
  unfold NoiseMacSize. destruct (Blake2sHash 16 (body m) k) as [mac|]; [|by split; [|intros [_ ?]]].
  rewrite secure_equal_spec. split; [by intros ->|]. by intros [_ [= ->]].
Qed.
End MacLemmas.
