(* ===== verification/Handshake.v ===== *)
(** * The handshake state machine

    The handlers of [wireguard/handshake.cpp] on the device's peer: creating and
    consuming initiations and responses, consuming cookie replies, deriving the
    session keys, and dispatching an incoming packet.  A handler returns early
    with [false]; what it wrote to the peer before that stays written. *)

From S2P Require Import Prelude Endian Messages Platform Session Base64 Crypto Device Identity Noise.
Local Open Scope Z_scope.

Inductive HandshakePacketOutcome :=
  | HandshakePacketOutcome_Invalid
  | HandshakePacketOutcome_InitiationConsumed
  | HandshakePacketOutcome_ResponseConsumed
  | HandshakePacketOutcome_CookieReplyConsumed.
#[export] Instance HandshakePacketOutcome_eq_dec : EqDecision HandshakePacketOutcome.
Proof. solve_decision. Defined.

(** ** The handshake record *)

Definition ClearHandshakeTranscript (peer : wg_peer) : wg_peer :=
  peer <| pr_handshake_material ::= fun m =>
            m <| ephemeral_private ::= key_Clear |>
              <| ephemeral_public ::= fun k => k <| key_bytes := zeros 32 |> <| key_valid := false |> |>
              <| remote_ephemeral ::= fun k => k <| key_bytes := zeros 32 |> <| key_valid := false |> |>
              <| chaining_key ::= key_Clear |> <| hash ::= key_Clear |> |>
       <| pr_handshake ::= fun h => h <| hk_local_index := 0 |> <| hk_remote_index := 0 |> |>.

Definition noise_handshake_clear_transcript (peer : wg_peer) : wg_peer := ClearHandshakeTranscript peer.

Definition noise_handshake_init (w : World) : noise_handshake * World :=
  let '(now, w) := GetMonotonicTime w in
  (handshake_init <| hk_state := HandshakeState_Zeroed |> <| hk_last_transition := now |>, w).

Definition noise_handshake_transition (new_state : HandshakeState) (handshake : noise_handshake)
    (w : World) : bool * noise_handshake * World :=
  let old_state := hk_state handshake in
  let handshake := handshake <| hk_state := new_state |> in
  let '(now, w) := GetMonotonicTime w in
  let handshake := handshake <| hk_last_transition := now |>
                             <| hk_transition_count ::= fun c => u32 (c + 1) |> in
  (negb (bool_decide (old_state = new_state)), handshake, w).

Definition noise_handshake_set_local_index (local_index : Z) (handshake : noise_handshake)
    : noise_handshake := handshake <| hk_local_index := local_index |>.
Definition noise_handshake_set_remote_index (remote_index : Z) (handshake : noise_handshake)
    : noise_handshake := handshake <| hk_remote_index := remote_index |>.

(** ** Lifting to the environment *)

Definition on_material (f : noise_handshake_material -> noise_handshake_material) : Env -> Env :=
  on_peer (fun p => p <| pr_handshake_material ::= f |>).
Definition on_handshake (f : noise_handshake -> noise_handshake) : Env -> Env :=
  on_peer (fun p => p <| pr_handshake ::= f |>).
Definition transition_to (new_state : HandshakeState) (e : Env) : Env :=
  let '(_, handshake, w) :=
    noise_handshake_transition new_state (pr_handshake (the_peer e)) (ev_world e) in
  (on_handshake (fun _ => handshake) e) <| ev_world := w |>.

(** A handler that also fills a message [*dst]. *)
Record Writing (T : Type) := mk_writing { wd_env : Env; wd_dst : T }.
Arguments mk_writing {T} _ _.
Arguments wd_env {T} _.
Arguments wd_dst {T} _.
#[export] Instance eta_writing T : Eta (Writing T) := fun r => mk_writing (wd_env r) (wd_dst r).

Definition in_env {T} (f : Env -> Env) : M (Writing T) unit := modify (fun s => s <| wd_env ::= f |>).
Definition in_dst {T} (f : T -> T) : M (Writing T) unit := modify (fun s => s <| wd_dst ::= f |>).
Definition with_world {T A} (f : World -> A * World) : M (Writing T) A :=
  step_with (fun s => let '(a, e) := on_world f (wd_env s) in (a, s <| wd_env := e |>)).
Definition the_material (e : Env) : noise_handshake_material := pr_handshake_material (the_peer e).
Definition the_identity (e : Env) : noise_static_identity := pr_static_identity (the_peer e).

(** The new chaining key and hash of the transcript, written in place. *)
Definition set_ck (ck : bytes) : Env -> Env :=
  on_material (fun m => m <| chaining_key ::= fun k => k <| key_bytes := ck |> |>).
Definition set_h (h : bytes) : Env -> Env :=
  on_material (fun m => m <| hash ::= fun k => k <| key_bytes := h |> |>).
Definition ck_of (e : Env) : bytes := key_bytes (chaining_key (the_material e)).
Definition h_of (e : Env) : bytes := key_bytes (hash (the_material e)).

Section Handshake.
Context {P : Primitives}.

(** [ApplyOutgoingMacs(dst, peer->static_identity.remote_static, peer)] *)
Definition apply_outgoing_macs {T} `{MacMessage T} : M (Writing T) unit := fun s =>
  let e := wd_env s in
  let '(ok, message, cookie, w) :=
    ApplyOutgoingMacs (wd_dst s) (remote_static (the_identity e)) (pr_cookie (the_peer e)) (ev_world e) in
  let e := (on_peer (fun p => p <| pr_cookie := cookie |>) e) <| ev_world := w |> in
  (if ok then Some tt else None, mk_writing e message).

(** The ephemeral key pair of a new message: drawn, clamped, and stored. *)
Definition fresh_ephemeral {T} : M (Writing T) unit :=
  ephemeral_private_bytes ← with_world (get_random_bytes NoisePublicKeySize);
  _ ← in_env (on_material (fun m =>
        m <| ephemeral_private := mk_key (ClampX25519PrivateKey ephemeral_private_bytes) true |>));
  e ← gets wd_env;
  public_key ← try_opt (x25519_public_key (key_bytes (ephemeral_private (the_material e))));
  in_env (on_material (fun m => m <| ephemeral_public := mk_key public_key true |>)).

(** Running the steps of a handler on a given state. *)
Lemma bind_in_env {T A} f (k : unit -> M (Writing T) A) e d :
  (in_env f ≫= k) (mk_writing e d) = k tt (mk_writing (f e) d).
Proof. done. Qed.
Lemma bind_in_dst {T A} f (k : unit -> M (Writing T) A) e d :
  (in_dst f ≫= k) (mk_writing e d) = k tt (mk_writing e (f d)).
Proof. done. Qed.
Lemma bind_with_world {T A B} (f : World -> A * World) (k : A -> M (Writing T) B) e d a w :
  f (ev_world e) = (a, w) ->
  (with_world f ≫= k) (mk_writing e d) = k a (mk_writing (e <| ev_world := w |>) d).
Proof.
  intros E. unfold with_world. rewrite bind_step_with. unfold on_world. cbn [wd_env].
  by rewrite E.
Qed.
Lemma bind_fresh_ephemeral {T A} (k : unit -> M (Writing T) A) e d r w :
  get_random_bytes NoisePublicKeySize (ev_world e) = (r, w) ->
  (fresh_ephemeral ≫= k) (mk_writing e d)
  = k tt (mk_writing (on_material (fun m =>
        m <| ephemeral_private := mk_key (ClampX25519PrivateKey r) true |>
          <| ephemeral_public := mk_key (crypto_x25519_public_key (ClampX25519PrivateKey r)) true |>)
        (e <| ev_world := w |>)) d).
Proof.
  intros E. unfold fresh_ephemeral. unfold mbind at 1, M_bind at 1.
  rewrite (bind_with_world _ _ e d r w E). rewrite bind_in_env, bind_gets. done.
Qed.
Lemma bind_apply_outgoing_macs {T A} `{MacMessage T} (k : unit -> M (Writing T) A) e d m cookie w :
  ApplyOutgoingMacs d (remote_static (the_identity e)) (pr_cookie (the_peer e)) (ev_world e)
  = (true, m, cookie, w) ->
  (apply_outgoing_macs ≫= k) (mk_writing e d)
  = k tt (mk_writing ((on_peer (fun p => p <| pr_cookie := cookie |>) e) <| ev_world := w |>) m).
Proof.
  intros E. unfold mbind, M_bind, apply_outgoing_macs. cbn [wd_env wd_dst]. by rewrite E.
Qed.

(** ** Initiations *)

Definition noise_handshake_create_initiation : M (Writing message_handshake_initiation) unit :=
  e ← gets wd_env;
  let identity := the_identity e in
  let hs := pr_handshake (the_peer e) in
  _ ← require (key_valid (static_private identity) && key_valid (static_public identity)
               && key_valid (remote_static identity)
               && key_valid (precomputed_static_static (the_material e))
               && negb (hk_local_index hs =? 0));
  _ ← in_dst (fun _ => initiation_init
        <| hi_type := SetMessageType MessageType_HandshakeInitiation |>
        <| hi_sender_index := hk_local_index hs |>);
  '(ck, h) ← try_opt (HandshakeInit (remote_static identity));
  _ ← in_env (on_material (fun m => m <| chaining_key := mk_key ck true |> <| hash := mk_key h true |>));
  _ ← fresh_ephemeral;
  e ← gets wd_env;
  let ephemeral := key_bytes (ephemeral_public (the_material e)) in
  _ ← in_dst (fun d => d <| hi_unencrypted_ephemeral := ephemeral |>);
  '(ck, h) ← try_opt (MessageEphemeral ephemeral (ck_of e) (h_of e));
  _ ← in_env (fun e => set_h h (set_ck ck e));
  e ← gets wd_env;
  '(ck, key) ← try_opt (MixDh (ck_of e) (key_bytes (ephemeral_private (the_material e)))
                          (key_bytes (remote_static identity)));
  _ ← in_env (set_ck ck);
  e ← gets wd_env;
  '(encrypted, h) ← try_opt (MessageEncrypt EncryptedStaticSize (key_bytes (static_public identity)) key (h_of e));
  _ ← in_dst (fun d => d <| hi_encrypted_static := encrypted |>);
  _ ← in_env (set_h h);
  e ← gets wd_env;
  '(ck, key) ← try_opt (MixPrecomputedDh (ck_of e) (precomputed_static_static (the_material e)));
  _ ← in_env (set_ck ck);
  timestamp ← with_world Tai64nNow;
  e ← gets wd_env;
  '(encrypted, h) ← try_opt (MessageEncrypt EncryptedTimestampSize timestamp key (h_of e));
  _ ← in_dst (fun d => d <| hi_encrypted_timestamp := encrypted |>);
  _ ← in_env (set_h h);
  _ ← apply_outgoing_macs;
  dst ← gets wd_dst;
  _ ← in_env (on_peer (fun p => p <| pr_last_initiation := dst |> <| pr_has_last_initiation := true |>));
  in_env (transition_to HandshakeState_InitiationCreated).

(** [std::lexicographical_compare] on byte strings. *)
Fixpoint lexicographical_compare (a b : bytes) : bool :=
  match a, b with
  | _, [] => false
  | [], _ :: _ => true
  | x :: a, y :: b => if x <? y then true else if y <? x then false else lexicographical_compare a b
  end.

(** The transcript a responder reconstructs from an initiation: chaining key,
    hash, remote static key and timestamp.  It uses local buffers only. *)
Definition read_initiation (src : message_handshake_initiation) (identity : noise_static_identity)
    (precomputed : noise_secret32) : option (bytes * bytes * bytes) :=
  '(ck, h) ← HandshakeInit (static_public identity);
  '(ck, h) ← MessageEphemeral (hi_unencrypted_ephemeral src) ck h;
  '(ck, key) ← MixDh ck (key_bytes (static_private identity)) (hi_unencrypted_ephemeral src);
  '(remote, h) ← MessageDecrypt NoisePublicKeySize (hi_encrypted_static src) key h;
  if negb (secure_equal remote (key_bytes (remote_static identity))) then None
  else
    '(ck, key) ← MixPrecomputedDh ck precomputed;
    '(timestamp, h) ← MessageDecrypt TAI64NTimestampSize (hi_encrypted_timestamp src) key h;
    Some (ck, h, timestamp).

Definition noise_handshake_consume_initiation (src : message_handshake_initiation) : M Env unit :=
  e ← gets id;
  let identity := the_identity e in
  let hs := pr_handshake (the_peer e) in
  _ ← require (key_valid (static_private identity) && key_valid (static_public identity)
               && key_valid (remote_static identity)
               && key_valid (precomputed_static_static (the_material e)));
  _ ← require (bool_decide (GetMessageType (hi_type src) = MessageType_HandshakeInitiation));
  _ ← require (negb (hi_sender_index src =? 0));
  _ ← require (VerifyMac1 src (static_public identity));
  '(ck, h, timestamp) ← try_opt (read_initiation src identity (precomputed_static_static (the_material e)));
  _ ← require (negb (hk_has_last_initiation_timestamp hs
                     && negb (lexicographical_compare (hk_last_initiation_timestamp hs) timestamp)));
  now ← step_with (on_world GetMonotonicTime);
  _ ← require (negb ((0 <? hk_last_initiation_consumption hs)
                     && ((now <? hk_last_initiation_consumption hs)
                         || (now - hk_last_initiation_consumption hs <=? HandshakeInitiationRate))));
  _ ← modify (on_material (fun m =>
        m <| remote_ephemeral := mk_key (hi_unencrypted_ephemeral src) true |>
          <| hash := mk_key h true |> <| chaining_key := mk_key ck true |>));
  _ ← modify (on_handshake (fun hs =>
        hs <| hk_remote_index := hi_sender_index src |> <| hk_last_initiation_timestamp := timestamp |>
           <| hk_has_last_initiation_timestamp := true |> <| hk_last_initiation_consumption := now |>));
  modify (transition_to HandshakeState_InitiationReceived).

(** ** Responses *)

Definition noise_handshake_create_response : M (Writing message_handshake_response) unit :=
  e ← gets wd_env;
  let identity := the_identity e in
  let hs := pr_handshake (the_peer e) in
  _ ← require (key_valid (remote_static identity) && key_valid (remote_ephemeral (the_material e))
               && negb (hk_local_index hs =? 0) && negb (hk_remote_index hs =? 0)
               && bool_decide (hk_state hs = HandshakeState_InitiationReceived));
  _ ← in_dst (fun _ => response_init
        <| hr_type := SetMessageType MessageType_HandshakeResponse |>
        <| hr_receiver_index := hk_remote_index hs |>);
  _ ← fresh_ephemeral;
  e ← gets wd_env;
  let ephemeral := key_bytes (ephemeral_public (the_material e)) in
  _ ← in_dst (fun d => d <| hr_unencrypted_ephemeral := ephemeral |>);
  '(ck, h) ← try_opt (MessageEphemeral ephemeral (ck_of e) (h_of e));
  _ ← in_env (fun e => set_h h (set_ck ck e));
  e ← gets wd_env;
  ck ← try_opt (MixDh_discard (ck_of e) (key_bytes (ephemeral_private (the_material e)))
                  (key_bytes (remote_ephemeral (the_material e))));
  _ ← in_env (set_ck ck);
  e ← gets wd_env;
  ck ← try_opt (MixDh_discard (ck_of e) (key_bytes (ephemeral_private (the_material e)))
                  (key_bytes (remote_static identity)));
  _ ← in_env (set_ck ck);
  e ← gets wd_env;
  '(ck, h, key) ← try_opt (MixPsk (ck_of e) (h_of e) (key_bytes (preshared_key identity)));
  _ ← in_env (fun e => set_h h (set_ck ck e));
  e ← gets wd_env;
  '(encrypted, h) ← try_opt (MessageEncrypt EncryptedNothingSize [] key (h_of e));
  _ ← in_dst (fun d => d <| hr_encrypted_nothing := encrypted |>);
  _ ← in_env (set_h h);
  _ ← in_dst (fun d => d <| hr_sender_index := hk_local_index hs |>);
  _ ← apply_outgoing_macs;
  in_env (transition_to HandshakeState_ResponseCreated).

(** The transcript an initiator reconstructs from a response. *)
Definition read_response (src : message_handshake_response) (identity : noise_static_identity)
    (material : noise_handshake_material) : option (bytes * bytes) :=
  let h := key_bytes (hash material) in
  let ck := key_bytes (chaining_key material) in
  '(ck, h) ← MessageEphemeral (hr_unencrypted_ephemeral src) ck h;
  ck ← MixDh_discard ck (key_bytes (ephemeral_private material)) (hr_unencrypted_ephemeral src);
  ck ← MixDh_discard ck (key_bytes (static_private identity)) (hr_unencrypted_ephemeral src);
  '(ck, h, key) ← MixPsk ck h (key_bytes (preshared_key identity));
  '(_, h) ← MessageDecrypt 0 (hr_encrypted_nothing src) key h;
  Some (ck, h).

Definition noise_handshake_consume_response (src : message_handshake_response) : M Env unit :=
  e ← gets id;
  let identity := the_identity e in
  let hs := pr_handshake (the_peer e) in
  let current := pr_current_keypair (the_peer e) in
  _ ← require (key_valid (static_private identity) && key_valid (ephemeral_private (the_material e))
               && bool_decide (hk_state hs = HandshakeState_InitiationCreated));
  _ ← require (bool_decide (GetMessageType (hr_type src) = MessageType_HandshakeResponse));
  _ ← require (negb (hr_sender_index src =? 0));
  _ ← require (VerifyMac1 src (static_public identity));
  _ ← require (negb (hr_sender_index src =? hk_local_index hs));
  _ ← require (wg_device_index_matches_slot (ev_device e) wg_index_slot_Handshake (hr_receiver_index src));
  _ ← require (negb (keypair_IsValid current && (hr_sender_index src =? kp_remote_index current)));
  '(ck, h) ← try_opt (read_response src identity (the_material e));
  _ ← modify (on_material (fun m =>
        m <| remote_ephemeral := mk_key (hr_unencrypted_ephemeral src) true |>
          <| hash := mk_key h true |> <| chaining_key := mk_key ck true |>));
  _ ← modify (on_handshake (fun hs => hs <| hk_remote_index := hr_sender_index src |>));
  modify (transition_to HandshakeState_ResponseReceived).

(** ** Cookie replies *)

Definition MatchesCookieReceiverIndex (device : wg_device) (receiver_index : Z) : bool :=
  if receiver_index =? 0 then false
  else
    let slot := wg_device_lookup_index_slot device receiver_index in
    bool_decide (slot = wg_index_slot_Handshake) || bool_decide (slot = wg_index_slot_CurrentKeypair)
    || bool_decide (slot = wg_index_slot_NextKeypair)
    || bool_decide (slot = wg_index_slot_PreviousKeypair).

(** [ApplyOutgoingMacs(&peer->last_initiation, ...)], in place. *)
Definition renew_last_initiation : M Env unit := fun e =>
  let '(ok, s) := apply_outgoing_macs (mk_writing e (pr_last_initiation (the_peer e))) in
  (ok, on_peer (fun p => p <| pr_last_initiation := wd_dst s |>) (wd_env s)).

Definition noise_handshake_consume_cookie_reply (src : message_handshake_cookie) : M Env unit :=
  e ← gets id;
  let identity := the_identity e in
  let cookie := pr_cookie (the_peer e) in
  _ ← require (key_valid (remote_static identity));
  _ ← require (bool_decide (GetMessageType (hc_type src) = MessageType_CookieReply));
  _ ← require (MatchesCookieReceiverIndex (ev_device e) (hc_receiver_index src));
  _ ← require (ck_has_last_mac1 cookie);
  cookie_key ← try_opt (ComputeCookieKey (remote_static identity));
  cookie_value ← try_opt (xchacha20poly1305_decrypt CookieValueSize
                            (take CookieValueSize (hc_encrypted_cookie src))
                            (drop (length (hc_encrypted_cookie src) - NoiseTagSize)
                               (hc_encrypted_cookie src))
                            (ck_last_mac1 cookie) cookie_key (hc_nonce src));
  now ← step_with (on_world GetMonotonicTime);
  _ ← modify (on_peer (fun p => p <| pr_cookie ::= fun c =>
        c <| ck_value := cookie_value |> <| ck_valid := true |> <| ck_birth_time := now |> |>));
  e ← gets id;
  if pr_has_last_initiation (the_peer e) then renew_last_initiation else mret tt.

(** ** Session keys *)

(** The keypair slots after a new session: the two branches of
    [noise_handshake_begin_session]. *)
Definition install_initiator_keypair (new_keypair : noise_keypair) (peer : wg_peer) : wg_peer :=
  let peer := peer <| pr_previous_keypair ::= keypair_Reset |> in
  let peer :=
    if keypair_IsValid (pr_next_keypair peer) then
      let '(previous, next) := keypair_move (pr_previous_keypair peer) (pr_next_keypair peer) in
      let peer := peer <| pr_previous_keypair := previous |> <| pr_next_keypair := next |> in
      peer <| pr_next_keypair ::= keypair_Reset |> <| pr_current_keypair ::= keypair_Reset |>
    else
      let '(previous, current) := keypair_move (pr_previous_keypair peer) (pr_current_keypair peer) in
      let peer := peer <| pr_previous_keypair := previous |> <| pr_current_keypair := current |> in
      peer <| pr_current_keypair ::= keypair_Reset |> in
  peer <| pr_current_keypair := fst (keypair_move (pr_current_keypair peer) new_keypair) |>.
Definition install_responder_keypair (new_keypair : noise_keypair) (peer : wg_peer) : wg_peer :=
  let peer := peer <| pr_next_keypair ::= keypair_Reset |> in
  let peer := peer <| pr_next_keypair := fst (keypair_move (pr_next_keypair peer) new_keypair) |> in
  peer <| pr_previous_keypair ::= keypair_Reset |>.

Definition noise_handshake_begin_session : M Env unit :=
  e ← gets id;
  let hs := pr_handshake (the_peer e) in
  let state := hk_state hs in
  let initiator := bool_decide (state = HandshakeState_ResponseReceived) in
  _ ← require (bool_decide (state = HandshakeState_ResponseCreated) || initiator);
  _ ← require (key_valid (chaining_key (the_material e)));
  '(first, second) ← try_opt (DeriveSessionKeys (ck_of e));
  let '(sending_key, receiving_key) := if initiator then (first, second) else (second, first) in
  now ← step_with (on_world GetMonotonicTime);
  let new_keypair := keypair_Establish (hk_local_index hs) (hk_remote_index hs) now sending_key
                       receiving_key 0 initiator keypair_init in
  _ ← require (keypair_IsValid new_keypair);
  _ ← modify (on_peer (if initiator then install_initiator_keypair new_keypair
                       else install_responder_keypair new_keypair));
  _ ← modify (on_device (fun d => wg_device_refresh_keypair_indices (dv_peer d) d));
  _ ← modify (transition_to HandshakeState_SessionDerived);
  modify (on_peer noise_handshake_clear_transcript).

(** ** Incoming packets *)

Definition noise_handshake_consume_incoming_packet (packet : bytes) (e : Env)
    : HandshakePacketOutcome * Env :=
  let type_result := InspectMessageType packet in
  if negb (pr_success type_result) then (HandshakePacketOutcome_Invalid, e)
  else
    match pr_type type_result with
    | MessageType_HandshakeInitiation =>
        let '(parse_result, initiation) := ParseHandshakeInitiation packet initiation_init in
        if negb (pr_success parse_result) then (HandshakePacketOutcome_Invalid, e)
        else
          let '(consumed, e) := run_bool (noise_handshake_consume_initiation initiation) e in
          if negb consumed then (HandshakePacketOutcome_Invalid, e)
          else
            let '(local_index, e) := wg_device_allocate_index e in
            if local_index =? 0 then
              (HandshakePacketOutcome_Invalid, on_peer noise_handshake_clear_transcript e)
            else
              let e := on_handshake (noise_handshake_set_local_index local_index) e in
              (HandshakePacketOutcome_InitiationConsumed,
               on_device (wg_device_register_handshake_index local_index) e)
    | MessageType_HandshakeResponse =>
        let '(parse_result, response) := ParseHandshakeResponse packet response_init in
        if negb (pr_success parse_result) then (HandshakePacketOutcome_Invalid, e)
        else
          let '(consumed, e) := run_bool (noise_handshake_consume_response response) e in
          (if consumed then HandshakePacketOutcome_ResponseConsumed else HandshakePacketOutcome_Invalid, e)
    | MessageType_CookieReply =>
        let '(parse_result, cookie) := ParseHandshakeCookie packet cookie_reply_init in
        if negb (pr_success parse_result) then (HandshakePacketOutcome_Invalid, e)
        else
          let '(consumed, e) := run_bool (noise_handshake_consume_cookie_reply cookie) e in
          (if consumed then HandshakePacketOutcome_CookieReplyConsumed else HandshakePacketOutcome_Invalid, e)
    | MessageType_TransportData | MessageType_Invalid | MessageType_Unnamed _ =>
        (HandshakePacketOutcome_Invalid, e)
    end.

(** [wg_device_create_handshake_initiation] of device.cpp. *)
Definition wg_device_create_handshake_initiation : M (Writing message_handshake_initiation) unit :=
  s ← gets id;
  _ ← require (bool_decide (is_Some (wg_device_first_peer (ev_device (wd_env s)))));
  local_index ← step_with (fun s => let '(i, e) := wg_device_allocate_index (wd_env s) in
                                    (i, s <| wd_env := e |>));
  _ ← require (negb (local_index =? 0));
  _ ← in_env (on_handshake (noise_handshake_set_local_index local_index));
  _ ← in_env (on_handshake (noise_handshake_set_remote_index 0));
  _ ← in_env (on_device (wg_device_register_handshake_index local_index));
  noise_handshake_create_initiation.

(** A device whose peer is configured and whose services behave. *)
Record ready_peer (e : Env) (own other psk : bytes) : Prop := {
  rp_world : world_ok (ev_world e);
  rp_clock : forall i, 0 <= w_monotonic (ev_world e) i;
  rp_has_peer : dv_has_peer (ev_device e) = true;
  rp_configured : configured (the_identity e) (precomputed_static_static (the_material e)) own other psk;
  rp_cookie : bytes_of 16 (ck_value (pr_cookie (the_peer e)))
}.

End Handshake.
