(* ===== verification/Agreement.v ===== *)
(** * Two peers running the handshake

    The handlers of [Handshake.v] connected through the wire: what one side
    writes is serialised, dispatched and consumed by the other.  The transcript
    of each message is given once for the sender and once for the receiver, and
    the lemmas show that they agree. *)

From S2P Require Import Prelude Endian Messages Replay Platform Session Base64 Crypto Device.
From S2P Require Import Identity Noise Admission Macs Handshake.
Local Open Scope Z_scope.

(** Takes apart a successful chain of option binds. *)
Ltac open_binds H :=
  repeat (match type of H with
  | (_ ≫= _) = Some _ =>
      let E := fresh "E" in
      apply (proj1 (option.bind_Some _ _ _)) in H as (? & E & H); cbn beta in H
  | (let '(_, _) := ?p in _) = Some _ => destruct p; cbn beta iota in H
  end).

(** A fallible step whose outcome is the hypothesis [E]. *)
Ltac run_try E :=
  rewrite bind_try_opt;
  match type of E with _ = Some ?v =>
    match goal with |- (match ?o with Some _ => _ | None => _ end) = _ =>
      replace o with (Some v) by (symmetry; exact E); cbn beta iota
    end
  end.
Ltac run_step :=
  first [ rewrite bind_gets | rewrite bind_in_env | rewrite bind_in_dst | rewrite bind_modify
        | rewrite bind_ret ]; cbn beta.

Section Agreement.
Context {P : Primitives}.

(** ** The transcript of an initiation *)

Definition write_initiation (identity : noise_static_identity) (precomputed : noise_secret32)
    (ephemeral timestamp : bytes) : option (bytes * bytes * bytes * bytes) :=
  '(ck, h) ← HandshakeInit (remote_static identity);
  '(ck, h) ← MessageEphemeral (crypto_x25519_public_key ephemeral) ck h;
  '(ck, key) ← MixDh ck ephemeral (key_bytes (remote_static identity));
  '(encrypted_static, h) ← MessageEncrypt EncryptedStaticSize (key_bytes (static_public identity)) key h;
  '(ck, key) ← MixPrecomputedDh ck precomputed;
  '(encrypted_timestamp, h) ← MessageEncrypt EncryptedTimestampSize timestamp key h;
  Some (ck, h, encrypted_static, encrypted_timestamp).

(** The peer after [noise_handshake_create_initiation]. *)
Definition initiated (peer : wg_peer) (ephemeral ck h : bytes) (m : message_handshake_initiation)
    (cookie : noise_cookie) : wg_peer :=
  peer <| pr_handshake_material ::= fun mat =>
            mat <| ephemeral_private := mk_key ephemeral true |>
                <| ephemeral_public := mk_key (crypto_x25519_public_key ephemeral) true |>
                <| chaining_key := mk_key ck true |> <| hash := mk_key h true |> |>
       <| pr_cookie := cookie |> <| pr_last_initiation := m |> <| pr_has_last_initiation := true |>.

Lemma create_initiation_run e d r w1 ts w2 ck h es et m cookie w3 :
  let identity := the_identity e in
  let hs := pr_handshake (the_peer e) in
  let ephemeral := ClampX25519PrivateKey r in
  key_valid (static_private identity) = true -> key_valid (static_public identity) = true ->
  key_valid (remote_static identity) = true ->
  key_valid (precomputed_static_static (the_material e)) = true ->
  hk_local_index hs <> 0 ->
  get_random_bytes 32 (ev_world e) = (r, w1) -> Tai64nNow w1 = (ts, w2) ->
  write_initiation identity (precomputed_static_static (the_material e)) ephemeral ts
  = Some (ck, h, es, et) ->
  ApplyOutgoingMacs (mk_initiation 1 (hk_local_index hs) (crypto_x25519_public_key ephemeral) es et
                       macs_init) (remote_static identity) (pr_cookie (the_peer e)) w2
  = (true, m, cookie, w3) ->
  noise_handshake_create_initiation (mk_writing e d)
  = (Some tt, mk_writing (transition_to HandshakeState_InitiationCreated
       (mk_env w3 ((ev_device e) <| dv_peer := initiated (the_peer e) ephemeral ck h m cookie |>))) m).
Proof.
  intros identity hs ephemeral V1 V2 V3 V4 V5 ER ET EW EM. unfold write_initiation in EW. open_binds EW.
  injection EW as -> -> -> ->.
  unfold noise_handshake_create_initiation. run_step. cbn [wd_env].
  fold identity hs. rewrite bind_require, V1, V2, V3, V4, (proj2 (Z.eqb_neq _ _)) by done.
  cbn [andb negb]. run_step. run_try E. run_step.
  rewrite (bind_fresh_ephemeral _ _ _ r w1) by exact ER. do 2 run_step. run_try E0. do 2 run_step.
  run_try E1. do 2 run_step. run_try E2. do 3 run_step. run_try E3. run_step.
  rewrite (bind_with_world _ _ _ _ ts w2) by exact ET. run_step. run_try E4. do 2 run_step.
  rewrite (bind_apply_outgoing_macs _ _ _ m cookie w3) by exact EM. do 2 run_step.
  reflexivity.
Qed.

(** The peer after [noise_handshake_consume_initiation]. *)
Definition received (peer : wg_peer) (src : message_handshake_initiation) (ck h timestamp : bytes)
    (now : Z) : wg_peer :=
  peer <| pr_handshake_material ::= fun m =>
            m <| remote_ephemeral := mk_key (hi_unencrypted_ephemeral src) true |>
              <| hash := mk_key h true |> <| chaining_key := mk_key ck true |> |>
       <| pr_handshake ::= fun hs =>
            hs <| hk_remote_index := hi_sender_index src |> <| hk_last_initiation_timestamp := timestamp |>
               <| hk_has_last_initiation_timestamp := true |>
               <| hk_last_initiation_consumption := now |> |>.

(** The two conditions on the time of an initiation. *)
Definition not_replayed (hs : noise_handshake) (timestamp : bytes) : bool :=
  negb (hk_has_last_initiation_timestamp hs
        && negb (lexicographical_compare (hk_last_initiation_timestamp hs) timestamp)).
Definition not_flooded (hs : noise_handshake) (now : Z) : bool :=
  negb ((0 <? hk_last_initiation_consumption hs)
        && ((now <? hk_last_initiation_consumption hs)
            || (now - hk_last_initiation_consumption hs <=? HandshakeInitiationRate))).

Lemma consume_initiation_run src e ck h timestamp :
  let identity := the_identity e in
  let hs := pr_handshake (the_peer e) in
  let '(now, w) := GetMonotonicTime (ev_world e) in
  key_valid (static_private identity) = true -> key_valid (static_public identity) = true ->
  key_valid (remote_static identity) = true ->
  key_valid (precomputed_static_static (the_material e)) = true ->
  hi_type src = 1 -> hi_sender_index src <> 0 ->
  VerifyMac1 src (static_public identity) = true ->
  read_initiation src identity (precomputed_static_static (the_material e)) = Some (ck, h, timestamp) ->
  not_replayed hs timestamp = true -> not_flooded hs now = true ->
  noise_handshake_consume_initiation src e
  = (Some tt, transition_to HandshakeState_InitiationReceived
       (mk_env w ((ev_device e) <| dv_peer := received (the_peer e) src ck h timestamp now |>))).
Proof.
  intros identity hs. cbn [GetMonotonicTime ktime_get_coarse_boottime_ns].
  intros V1 V2 V3 V4 HT HI HM HR HP HF.
  unfold noise_handshake_consume_initiation. run_step. change (id e) with e.
  fold identity hs. rewrite bind_require, V1, V2, V3, V4. cbn [andb].
  rewrite bind_require, HT, bool_decide_true by done.
  rewrite bind_require, (proj2 (Z.eqb_neq _ _)) by done. cbn [negb].
  rewrite bind_require. change (id e) with e. fold identity. rewrite HM. run_try HR.
  rewrite bind_require. change (id e) with e. fold hs. fold (not_replayed hs timestamp). rewrite HP.
  rewrite bind_step_with, bind_require.
  match goal with |- (if ?b then _ else _) = _ => replace b with true by (symmetry; exact HF) end.
  do 2 run_step. reflexivity.
Qed.

(** ** The transcript of a response *)

Definition write_response (identity : noise_static_identity) (material : noise_handshake_material)
    (ephemeral : bytes) : option (bytes * bytes * bytes) :=
  '(ck, h) ← MessageEphemeral (crypto_x25519_public_key ephemeral) (key_bytes (chaining_key material))
               (key_bytes (hash material));
  ck ← MixDh_discard ck ephemeral (key_bytes (remote_ephemeral material));
  ck ← MixDh_discard ck ephemeral (key_bytes (remote_static identity));
  '(ck, h, key) ← MixPsk ck h (key_bytes (preshared_key identity));
  '(encrypted_nothing, h) ← MessageEncrypt EncryptedNothingSize [] key h;
  Some (ck, h, encrypted_nothing).

(** The peer after [noise_handshake_create_response]. *)
Definition responded (peer : wg_peer) (ephemeral ck h : bytes) (cookie : noise_cookie) : wg_peer :=
  peer <| pr_handshake_material ::= fun mat =>
            mat <| ephemeral_private := mk_key ephemeral true |>
                <| ephemeral_public := mk_key (crypto_x25519_public_key ephemeral) true |>
                <| chaining_key ::= fun k => k <| key_bytes := ck |> |>
                <| hash ::= fun k => k <| key_bytes := h |> |> |>
       <| pr_cookie := cookie |>.

Lemma create_response_run e d r w1 ck h en m cookie w2 :
  let identity := the_identity e in
  let hs := pr_handshake (the_peer e) in
  let ephemeral := ClampX25519PrivateKey r in
  key_valid (remote_static identity) = true ->
  key_valid (remote_ephemeral (the_material e)) = true ->
  hk_local_index hs <> 0 -> hk_remote_index hs <> 0 ->
  hk_state hs = HandshakeState_InitiationReceived ->
  get_random_bytes 32 (ev_world e) = (r, w1) ->
  write_response identity (the_material e) ephemeral = Some (ck, h, en) ->
  ApplyOutgoingMacs (mk_response 2 (hk_local_index hs) (hk_remote_index hs)
                       (crypto_x25519_public_key ephemeral) en macs_init)
    (remote_static identity) (pr_cookie (the_peer e)) w1 = (true, m, cookie, w2) ->
  noise_handshake_create_response (mk_writing e d)
  = (Some tt, mk_writing (transition_to HandshakeState_ResponseCreated
       (mk_env w2 ((ev_device e) <| dv_peer := responded (the_peer e) ephemeral ck h cookie |>))) m).
Proof.
  intros identity hs ephemeral V1 V2 V3 V4 V5 ER EW EM. unfold write_response in EW. open_binds EW.
  injection EW as -> -> ->.
  unfold noise_handshake_create_response. run_step. cbn [wd_env].
  fold identity hs. rewrite bind_require, V1, V2, V5, !(proj2 (Z.eqb_neq _ _)) by done.
  rewrite bool_decide_true by done. cbn [andb negb]. run_step.
  rewrite (bind_fresh_ephemeral _ _ _ r w1) by exact ER. do 2 run_step. run_try E. do 2 run_step.
  run_try E0. do 2 run_step. run_try E1. do 2 run_step. run_try E2. do 2 run_step. run_try E3.
  do 3 run_step. rewrite (bind_apply_outgoing_macs _ _ _ m cookie w2) by exact EM.
  reflexivity.
Qed.

(** The peer after [noise_handshake_consume_response]. *)
Definition answered (peer : wg_peer) (src : message_handshake_response) (ck h : bytes) : wg_peer :=
  peer <| pr_handshake_material ::= fun m =>
            m <| remote_ephemeral := mk_key (hr_unencrypted_ephemeral src) true |>
              <| hash := mk_key h true |> <| chaining_key := mk_key ck true |> |>
       <| pr_handshake ::= fun hs => hs <| hk_remote_index := hr_sender_index src |> |>.

Lemma consume_response_run src e ck h :
  let identity := the_identity e in
  let hs := pr_handshake (the_peer e) in
  let current := pr_current_keypair (the_peer e) in
  key_valid (static_private identity) = true ->
  key_valid (ephemeral_private (the_material e)) = true ->
  hk_state hs = HandshakeState_InitiationCreated ->
  hr_type src = 2 -> hr_sender_index src <> 0 ->
  VerifyMac1 src (static_public identity) = true ->
  hr_sender_index src <> hk_local_index hs ->
  wg_device_index_matches_slot (ev_device e) wg_index_slot_Handshake (hr_receiver_index src) = true ->
  (keypair_IsValid current = true -> hr_sender_index src <> kp_remote_index current) ->
  read_response src identity (the_material e) = Some (ck, h) ->
  noise_handshake_consume_response src e
  = (Some tt, transition_to HandshakeState_ResponseReceived
       (mk_env (ev_world e) ((ev_device e) <| dv_peer := answered (the_peer e) src ck h |>))).
Proof.
  intros identity hs current V1 V2 HS HT HI HM HL HX HC HR.
  unfold noise_handshake_consume_response. run_step. change (id e) with e. fold identity hs current.
  rewrite bind_require, V1, V2, bool_decide_true by done. cbn [andb].
  rewrite bind_require, HT, bool_decide_true by done.
  rewrite bind_require, (proj2 (Z.eqb_neq _ _)) by done. cbn [negb].
  rewrite bind_require, HM, bind_require, (proj2 (Z.eqb_neq _ _)) by done. cbn [negb].
  rewrite bind_require, HX, bind_require.
  replace (keypair_IsValid current && (hr_sender_index src =? kp_remote_index current)) with false.
  2: { destruct (keypair_IsValid current); [|done]. symmetry. apply Z.eqb_neq. auto. }
  cbn [negb]. run_try HR. do 2 run_step. by destruct e.
Qed.

Context {L : PrimitivesLaws P}.

Lemma public_ok k : bytes_of 32 k -> bytes_of 32 (crypto_x25519_public_key k).
Proof. apply (x25519_public_size (PrimitivesLaws := L)). Qed.

Section Transcripts.
Context (A B : noise_static_identity) (sA sB : noise_secret32) (a b psk : bytes).
Context (Ha : bytes_of 32 a) (Hb : bytes_of 32 b).
Context (HA : configured A sA a b psk) (HB : configured B sB b a psk).

(** Both sides derive the same transcript from an initiation. *)
Lemma initiation_transcript eph ts :
  bytes_of 32 eph -> bytes_of 12 ts ->
  exists ck h es et,
    write_initiation A sA eph ts = Some (ck, h, es, et) /\
    bytes_of 32 ck /\ bytes_of 32 h /\ bytes_of 48 es /\ bytes_of 28 et /\
    forall src, hi_unencrypted_ephemeral src = crypto_x25519_public_key eph ->
      hi_encrypted_static src = es -> hi_encrypted_timestamp src = et ->
      read_initiation src B sB = Some (ck, h, ts).
Proof.
  intros He Hts. destruct HA as [A1 A2 A3 A4 ->], HB as [B1 B2 B3 B4 ->].
  unfold write_initiation, read_initiation.
  assert (HandshakeInit (remote_static A) = HandshakeInit (static_public B)) as EI
    by (apply HandshakeInit_key; by rewrite A3, B2).
  rewrite EI, A2, A3, B1, B3. cbn [key_bytes].
  destruct (HandshakeInit_Some (static_public B)) as (ck0 & h0 & -> & _ & _). cbn [mbind option_bind].
  destruct (MessageEphemeral_Some (crypto_x25519_public_key eph) ck0 h0) as (ck1 & h1 & E1 & Hck1 & Hh1).
  rewrite E1. cbn [mbind option_bind].
  destruct (MixDh_agree ck1 eph b He Hb) as (ck2 & k2 & D1 & D2 & _ & Hk2). rewrite D1.
  cbn [mbind option_bind].
  destruct (public_ok a Ha) as [La Oa].
  destruct (MessageEncrypt_Decrypt (crypto_x25519_public_key a) k2 h1 Oa Hk2 (proj2 Hh1))
    as (es & h2 & ES1 & ES2 & Hes & Hh2). rewrite La in ES1, ES2, Hes.
  change EncryptedStaticSize with (32 + 16)%nat. rewrite ES1. cbn [mbind option_bind].
  rewrite <- (x25519_agree a b Ha Hb).
  destruct (MixPrecomputedDh_Some ck2 (crypto_x25519 a (crypto_x25519_public_key b))
    (x25519_nonzero a b Ha Hb)) as (ck3 & k3 & EP & Hck3 & Hk3). rewrite EP. cbn [mbind option_bind].
  destruct Hts as [Lts Ots].
  destruct (MessageEncrypt_Decrypt ts k3 h2 Ots Hk3 (proj2 Hh2)) as (et & h3 & ET1 & ET2 & Het & Hh3).
  rewrite Lts in ET1, ET2, Het.
  change EncryptedTimestampSize with (12 + 16)%nat. rewrite ET1. cbn [mbind option_bind].
  exists ck3, h3, es, et. do 5 (split; [done|]).
  intros src -> -> ->. rewrite E1. cbn [mbind option_bind]. rewrite D2. cbn [mbind option_bind].
  change NoisePublicKeySize with 32%nat. rewrite ES2. cbn [mbind option_bind].
  rewrite (proj2 (secure_equal_spec _ _)) by done. cbn [negb]. rewrite EP.
  cbn [mbind option_bind]. change TAI64NTimestampSize with 12%nat. by rewrite ET2.
Qed.

(** Both sides derive the same transcript from a response; [mA] is the
    initiator's material and [mB] the responder's. *)
Lemma response_transcript mA mB ea eb :
  bytes_of 32 ea -> bytes_of 32 eb ->
  ephemeral_private mA = mk_key ea true ->
  key_bytes (remote_ephemeral mB) = crypto_x25519_public_key ea ->
  key_bytes (chaining_key mA) = key_bytes (chaining_key mB) ->
  key_bytes (hash mA) = key_bytes (hash mB) ->
  exists ck h en,
    write_response B mB eb = Some (ck, h, en) /\
    bytes_of 32 ck /\ bytes_of 32 h /\ bytes_of 16 en /\
    forall src, hr_unencrypted_ephemeral src = crypto_x25519_public_key eb ->
      hr_encrypted_nothing src = en ->
      read_response src A mA = Some (ck, h).
Proof.
  intros Hea Heb M1 M2 M3 M4. destruct HA as [A1 A2 A3 A4 _], HB as [B1 B2 B3 B4 _].
  unfold write_response, read_response. rewrite M1, M2, M3, M4, A1, B3, A4, B4. cbn [key_bytes].
  destruct (MessageEphemeral_Some (crypto_x25519_public_key eb) (key_bytes (chaining_key mB))
    (key_bytes (hash mB))) as (ck1 & h1 & E1 & _ & _). rewrite E1. cbn [mbind option_bind].
  destruct (MixDh_discard_agree ck1 eb ea Heb Hea) as (ck2 & D1 & D2 & _). rewrite D1.
  cbn [mbind option_bind].
  destruct (MixDh_discard_agree ck2 eb a Heb Ha) as (ck3 & D3 & D4 & _). rewrite D3.
  cbn [mbind option_bind].
  destruct (MixPsk_Some ck3 h1 psk) as (ck4 & h2 & k & EP & Hck4 & Hh2 & Hk). rewrite EP.
  cbn [mbind option_bind].
  destruct (MessageEncrypt_Decrypt [] k h2 bytes_ok_nil Hk (proj2 Hh2)) as (en & h3 & EN1 & EN2 & Hen & Hh3).
  simpl in EN1, EN2, Hen.
  change EncryptedNothingSize with 16%nat. rewrite EN1. cbn [mbind option_bind].
  exists ck4, h3, en. do 4 (split; [done|]).
  intros src -> ->. rewrite E1. cbn [mbind option_bind]. rewrite D2. cbn [mbind option_bind].
  rewrite D4. cbn [mbind option_bind]. rewrite EP. cbn [mbind option_bind]. by rewrite EN2.
Qed.
End Transcripts.

(** ** Starting a session *)

Definition is_initiator (e : Env) : bool :=
  bool_decide (hk_state (pr_handshake (the_peer e)) = HandshakeState_ResponseReceived).
Definition may_begin (e : Env) : Prop :=
  hk_state (pr_handshake (the_peer e)) = HandshakeState_ResponseCreated \/
  hk_state (pr_handshake (the_peer e)) = HandshakeState_ResponseReceived.

Lemma install_initiator_spec k peer :
  install_initiator_keypair k peer
  = peer <| pr_current_keypair := k |>
         <| pr_previous_keypair := if keypair_IsValid (pr_next_keypair peer) then pr_next_keypair peer
                                   else pr_current_keypair peer |>
         <| pr_next_keypair := if keypair_IsValid (pr_next_keypair peer) then keypair_init
                               else pr_next_keypair peer |>.
Proof.
  unfold install_initiator_keypair. cbn -[keypair_move keypair_IsValid keypair_Reset upd].
  change (pr_next_keypair (peer <| pr_previous_keypair ::= keypair_Reset |>)) with (pr_next_keypair peer).
  destruct (keypair_IsValid (pr_next_keypair peer)); rewrite !keypair_move_spec; by destruct peer.
Qed.

Lemma install_responder_spec k peer :
  install_responder_keypair k peer
  = peer <| pr_next_keypair := k |> <| pr_previous_keypair := keypair_init |>.
Proof. unfold install_responder_keypair. rewrite keypair_move_spec. by destruct peer. Qed.

(** The keypair a session starts with. *)
Definition session_keypair (e : Env) (k1 k2 : bytes) : noise_keypair :=
  let hs := pr_handshake (the_peer e) in
  let now := fst (GetMonotonicTime (ev_world e)) in
  if is_initiator e then
    mk_keypair KeypairState_Established (hk_local_index hs) (hk_remote_index hs) 0 true now
      (mk_key k1 true) (mk_key k2 true) Window_Reset
  else
    mk_keypair KeypairState_Established (hk_local_index hs) (hk_remote_index hs) 0 false now
      (mk_key k2 true) (mk_key k1 true) Window_Reset.

(** The environment [noise_handshake_begin_session] leaves. *)
Definition session_begun (e : Env) (k : noise_keypair) : Env :=
  let e := e <| ev_world := snd (GetMonotonicTime (ev_world e)) |> in
  let e := on_peer (if is_initiator e then install_initiator_keypair k else install_responder_keypair k) e in
  let e := on_device (fun d => wg_device_refresh_keypair_indices (dv_peer d) d) e in
  on_peer noise_handshake_clear_transcript (transition_to HandshakeState_SessionDerived e).

Lemma session_keypair_established e k1 k2 :
  let hs := pr_handshake (the_peer e) in
  let keys := if is_initiator e then (k1, k2) else (k2, k1) in
  hk_local_index hs <> 0 -> hk_remote_index hs <> 0 ->
  0 <= fst (GetMonotonicTime (ev_world e)) ->
  keypair_Establish (hk_local_index hs) (hk_remote_index hs) (fst (GetMonotonicTime (ev_world e)))
    (mk_key (fst keys) true) (mk_key (snd keys) true) 0 (is_initiator e) keypair_init
  = session_keypair e k1 k2 /\
  keypair_IsValid (session_keypair e k1 k2) = true.
Proof.
  intros hs keys HL HR HN.
  destruct (Establish_valid (hk_local_index hs) (hk_remote_index hs)
    (fst (GetMonotonicTime (ev_world e))) (mk_key (fst keys) true) (mk_key (snd keys) true) 0
    (is_initiator e) keypair_init) as [E1 E2].
  { rewrite !(proj2 (Z.eqb_neq _ _)), (proj2 (Z.ltb_ge _ _)) by done. done. }
  rewrite E1 in E2. rewrite E1. unfold session_keypair. fold hs. unfold keys in *.
  by destruct (is_initiator e).
Qed.

Lemma begin_session_run e k1 k2 :
  let hs := pr_handshake (the_peer e) in
  may_begin e -> key_valid (chaining_key (the_material e)) = true ->
  DeriveSessionKeys (ck_of e) = Some (mk_key k1 true, mk_key k2 true) ->
  hk_local_index hs <> 0 -> hk_remote_index hs <> 0 ->
  0 <= fst (GetMonotonicTime (ev_world e)) ->
  noise_handshake_begin_session e = (Some tt, session_begun e (session_keypair e k1 k2)).
Proof.
  intros hs HB HC HK HL HR HN.
  destruct (session_keypair_established e k1 k2 HL HR HN) as [HE HV]. fold hs in HE.
  unfold noise_handshake_begin_session. run_step. change (id e) with e. fold hs.
  rewrite bind_require.
  replace (bool_decide (hk_state hs = HandshakeState_ResponseCreated)
           || bool_decide (hk_state hs = HandshakeState_ResponseReceived)) with true.
  2: { symmetry. apply orb_true_iff. rewrite !bool_decide_eq_true. exact HB. }
  rewrite bind_require, HC. run_try HK.
  change (bool_decide (hk_state hs = HandshakeState_ResponseReceived)) with (is_initiator e).
  unfold session_begun.
  change (is_initiator (e <| ev_world := snd (GetMonotonicTime (ev_world e)) |>)) with (is_initiator e).
  destruct (is_initiator e); cbn [fst snd] in HE; rewrite bind_step_with;
    (rewrite bind_require; match goal with |- (if keypair_IsValid ?k then _ else _) = _ =>
       replace k with (session_keypair e k1 k2) by (symmetry; exact HE) end);
    rewrite HV, bind_modify, bind_modify, bind_modify; reflexivity.
Qed.

(** What a begun session consists of. *)
Lemma session_begun_facts e k :
  let e' := session_begun e k in
  registry_synced (ev_device e') /\
  hk_state (pr_handshake (the_peer e')) = HandshakeState_SessionDerived /\
  the_identity e' = the_identity e /\
  (if is_initiator e then
     pr_current_keypair (the_peer e') = k /\
     pr_previous_keypair (the_peer e')
     = (if keypair_IsValid (pr_next_keypair (the_peer e)) then pr_next_keypair (the_peer e)
        else pr_current_keypair (the_peer e)) /\
     keypair_IsValid (pr_next_keypair (the_peer e')) = false
   else
     pr_next_keypair (the_peer e') = k /\
     pr_current_keypair (the_peer e') = pr_current_keypair (the_peer e) /\
     pr_previous_keypair (the_peer e') = keypair_init).
Proof.
  intros e'. unfold e', session_begun.
  change (is_initiator (e <| ev_world := snd (GetMonotonicTime (ev_world e)) |>)) with (is_initiator e).
  set (e0 := e <| ev_world := _ |>).
  split.
  { match goal with |- registry_synced (ev_device (on_peer _ (transition_to _ (on_device _ ?e1)))) =>
      exact (refresh_synced (ev_device e1)) end. }
  destruct (is_initiator e).
  - assert (on_peer (install_initiator_keypair k) e0 = on_peer (fun p => p <| pr_current_keypair := k |>
         <| pr_previous_keypair := if keypair_IsValid (pr_next_keypair p) then pr_next_keypair p
                                   else pr_current_keypair p |>
         <| pr_next_keypair := if keypair_IsValid (pr_next_keypair p) then keypair_init
                               else pr_next_keypair p |>) e0) as ->.
    { unfold on_peer, upd. cbn. by rewrite install_initiator_spec. }
    do 4 (split; [done|]). cbn.
    by destruct (keypair_IsValid (pr_next_keypair (the_peer e))) eqn:EV.
  - assert (on_peer (install_responder_keypair k) e0 = on_peer (fun p => p <| pr_next_keypair := k |>
         <| pr_previous_keypair := keypair_init |>) e0) as ->.
    { unfold on_peer, upd. cbn. by rewrite install_responder_spec. }
    done.
Qed.

(** ** The exchange

    One handshake in the order of the code: the initiator's
    [wg_device_create_handshake_initiation] and serialisation; the responder's
    [noise_handshake_consume_incoming_packet], [noise_handshake_create_response],
    serialisation and [noise_handshake_begin_session]; the initiator's
    [noise_handshake_consume_incoming_packet] and [noise_handshake_begin_session].
    [None] as soon as a step fails. *)
Definition send_initiation (e : Env) : option (Env * bytes) :=
  match wg_device_create_handshake_initiation (mk_writing e initiation_init) with
  | (Some _, s) =>
      match SerializeHandshakeInitiation (zeros HandshakeInitiationSize) (wd_dst s) with
      | (ParseError_None, packet) => Some (wd_env s, packet)
      | _ => None
      end
  | _ => None
  end.
Definition answer_initiation (packet : bytes) (e : Env) : option (Env * bytes) :=
  match noise_handshake_consume_incoming_packet packet e with
  | (HandshakePacketOutcome_InitiationConsumed, e) =>
      match noise_handshake_create_response (mk_writing e response_init) with
      | (Some _, s) =>
          match SerializeHandshakeResponse (zeros HandshakeResponseSize) (wd_dst s) with
          | (ParseError_None, packet) =>
              match noise_handshake_begin_session (wd_env s) with
              | (Some _, e) => Some (e, packet)
              | _ => None
              end
          | _ => None
          end
      | _ => None
      end
  | _ => None
  end.
Definition finish_handshake (packet : bytes) (e : Env) : option Env :=
  match noise_handshake_consume_incoming_packet packet e with
  | (HandshakePacketOutcome_ResponseConsumed, e) =>
      match noise_handshake_begin_session e with
      | (Some _, e) => Some e
      | _ => None
      end
  | _ => None
  end.
Definition handshake_run (eA eB : Env) : option (Env * Env) :=
  '(eA, packet) ← send_initiation eA;
  '(eB, packet) ← answer_initiation packet eB;
  eA ← finish_handshake packet eA;
  Some (eA, eB).

Lemma Tai64nNow_ok w :
  bytes_of 12 (fst (Tai64nNow w)) /\ (world_ok w -> world_ok (snd (Tai64nNow w))).
Proof.
  unfold Tai64nNow. cbn [ktime_get_real_ts64]. split.
  - destruct (StoreBe64_bytes (u64 (Tai64nBaseSeconds + u64 (tv_sec (w_realtime w (w_realtime_reads w))))))
      as [L1 O1].
    set (ns := if negb _ then _ else _). destruct (StoreBe32_bytes (u32 ns)) as [L2 O2].
    cbn [fst]. split; [rewrite length_app, L1, L2; done|by apply bytes_ok_app].
  - intros HW. by apply (ktime_get_real_ts64_world w).
Qed.

(** The timestamp depends on the next answer of the realtime clock only. *)
Lemma Tai64nNow_view w w' :
  w_realtime w' = w_realtime w -> w_realtime_reads w' = w_realtime_reads w ->
  fst (Tai64nNow w') = fst (Tai64nNow w).
Proof. unfold Tai64nNow. cbn [ktime_get_real_ts64]. by intros -> ->. Qed.

(** What the initiator holds after sending, and what it sent. *)
Record initiation_sent (e e' : Env) (m : message_handshake_initiation) (own other psk eph ck h : bytes)
    : Prop := {
  is_ok : initiation_ok m;
  is_index : hi_sender_index m = fst (wg_device_allocate_index e);
  is_nonzero : hi_sender_index m <> 0;
  is_ephemeral_ok : bytes_of 32 eph;
  is_ephemeral : hi_unencrypted_ephemeral m = crypto_x25519_public_key eph;
  is_mac1 : mac1_of (mk_key (crypto_x25519_public_key other) true) (body m)
            = Some (mac1 (hi_macs m));
  is_readable : forall B sB, configured B sB other own psk ->
    read_initiation m B sB = Some (ck, h, fst (Tai64nNow (ev_world e)));
  is_identity : the_identity e' = the_identity e;
  is_private : ephemeral_private (the_material e') = mk_key eph true;
  is_ck : chaining_key (the_material e') = mk_key ck true;
  is_h : hash (the_material e') = mk_key h true;
  is_state : hk_state (pr_handshake (the_peer e')) = HandshakeState_InitiationCreated;
  is_local : hk_local_index (pr_handshake (the_peer e')) = hi_sender_index m;
  is_registered : wg_device_index_matches_slot (ev_device e') wg_index_slot_Handshake
                    (hi_sender_index m) = true;
  is_keypairs : (pr_current_keypair (the_peer e'), pr_next_keypair (the_peer e'),
                 pr_previous_keypair (the_peer e'))
                = (pr_current_keypair (the_peer e), pr_next_keypair (the_peer e),
                   pr_previous_keypair (the_peer e));
  is_world : world_ok (ev_world e');
  is_services : same_services (ev_world e) (ev_world e');
  is_has_peer : dv_has_peer (ev_device e') = dv_has_peer (ev_device e);
  is_last : pr_last_initiation (the_peer e') = m /\ pr_has_last_initiation (the_peer e') = true;
  is_mac1_kept : ck_last_mac1 (pr_cookie (the_peer e')) = mac1 (hi_macs m) /\
    ck_has_last_mac1 (pr_cookie (the_peer e')) = true;
  is_kept : precomputed_static_static (the_material e') = precomputed_static_static (the_material e) /\
    ck_value (pr_cookie (the_peer e')) = ck_value (pr_cookie (the_peer e)) /\
    pr_handshake_retry (the_peer e') = pr_handshake_retry (the_peer e) /\
    pr_staged_outbound_packets (the_peer e') = pr_staged_outbound_packets (the_peer e) /\
    pr_timers (the_peer e') = pr_timers (the_peer e)
}.

(** The environment in which the initiation is written. *)
Definition index_assigned (idx : Z) (e : Env) : Env :=
  on_device (wg_device_register_handshake_index idx)
    (on_handshake (noise_handshake_set_remote_index 0)
      (on_handshake (noise_handshake_set_local_index idx) e)).

Lemma device_create_run e d :
  world_ok (ev_world e) -> dv_has_peer (ev_device e) = true ->
  wg_device_create_handshake_initiation (mk_writing e d)
  = noise_handshake_create_initiation
      (mk_writing (index_assigned (fst (wg_device_allocate_index e)) (snd (wg_device_allocate_index e))) d).
Proof.
  intros HW HP. pose proof (allocate_index_spec e HW) as HA. unfold wg_device_create_handshake_initiation.
  rewrite bind_gets. change (id ?x) with x. cbn [wd_env].
  rewrite bind_require. unfold wg_device_first_peer. rewrite HP, bool_decide_true by done.
  rewrite bind_step_with. cbn [wd_env]. destruct (wg_device_allocate_index e) as [idx e0]. cbn [fst snd].
  destruct HA as (_ & HI & _). rewrite bind_require, (proj2 (Z.eqb_neq _ _)) by done. cbn [negb].
  change ((mk_writing e d) <| wd_env := e0 |>) with (mk_writing e0 d).
  by rewrite !bind_in_env.
Qed.

(** Drawing an ephemeral key, and the timestamp that follows it. *)
Lemma draw_ephemeral w :
  world_ok w ->
  let '(r, w') := get_random_bytes 32 w in
  bytes_of 32 (ClampX25519PrivateKey r) /\ world_ok w' /\ same_services w w' /\
  w_realtime_reads w' = w_realtime_reads w /\ w_monotonic_reads w' = w_monotonic_reads w.
Proof.
  intros HW. pose proof (get_random_bytes_ok 32 w HW) as HB.
  pose proof (get_random_bytes_world 32 w HW) as HW'. simpl in *. by split; [apply clamp_ok|].
Qed.

(** [write_initiation] for a configured identity, read by any counterpart. *)
Lemma write_initiation_spec A sA own other psk eph ts :
  bytes_of 32 own -> bytes_of 32 other -> configured A sA own other psk ->
  bytes_of 32 eph -> bytes_of 12 ts ->
  exists ck h es et, write_initiation A sA eph ts = Some (ck, h, es, et) /\
    bytes_of 48 es /\ bytes_of 28 et /\
    forall B sB src, configured B sB other own psk ->
      hi_unencrypted_ephemeral src = crypto_x25519_public_key eph ->
      hi_encrypted_static src = es -> hi_encrypted_timestamp src = et ->
      read_initiation src B sB = Some (ck, h, ts).
Proof.
  intros Hown Hother HA He Hts.
  set (B0 := mk_identity (mk_key other true) (mk_key (crypto_x25519_public_key other) true)
               (mk_key (crypto_x25519_public_key own) true) (mk_key psk true)).
  destruct (initiation_transcript A B0 sA
    (mk_key (crypto_x25519 other (crypto_x25519_public_key own)) true) own other psk Hown Hother HA
    ltac:(by split) eph ts He Hts) as (ck & h & es & et & EW & _ & _ & Hes & Het & _).
  exists ck, h, es, et. split; [done|]. split; [done|]. split; [done|].
  intros B sB src HB. destruct (initiation_transcript A B sA sB own other psk Hown Hother HA HB eph ts He Hts)
    as (ck' & h' & es' & et' & EW' & _ & _ & _ & _ & HR).
  rewrite EW in EW'. injection EW' as <- <- <- <-. apply HR.
Qed.

Lemma index_assigned_matches idx e :
  idx <> 0 ->
  wg_device_index_matches_slot (ev_device (index_assigned idx e)) wg_index_slot_Handshake idx = true.
Proof.
  intros HI. unfold wg_device_index_matches_slot. rewrite (proj2 (Z.eqb_neq _ _)) by done. cbn.
  by rewrite (proj2 (Z.eqb_neq _ _)), Z.eqb_refl by done.
Qed.

Lemma device_initiation_spec e d own other psk :
  bytes_of 32 own -> bytes_of 32 other -> ready_peer e own other psk ->
  exists e' m eph ck h,
    wg_device_create_handshake_initiation (mk_writing e d) = (Some tt, mk_writing e' m) /\
    initiation_sent e e' m own other psk eph ck h.
Proof.
  intros Hown Hother [HW HC HP HF HK].
  pose proof (allocate_index_spec e HW) as HA. pose proof (allocate_loop_reads 32 e) as [_ HAR].
  fold (wg_device_allocate_index e) in HAR. rewrite device_create_run by done.
  destruct (wg_device_allocate_index e) as [idx [w0 d0]] eqn:EA. cbn [fst snd] in *.
  destruct HA as ([F1 F2 F3 F4 F5 F6] & HI & HU & _). cbn [ev_world ev_device] in *.
  pose proof (draw_ephemeral w0 F1) as HE. destruct (get_random_bytes 32 w0) as [r w1] eqn:ER.
  destruct HE as (Heph & HW1 & HS1 & HR1 & _). set (eph := ClampX25519PrivateKey r) in *.
  destruct (Tai64nNow w1) as [ts w2] eqn:ET. destruct (Tai64nNow_ok w1) as [Hts HW2].
  rewrite ET in Hts, HW2. specialize (HW2 HW1). cbn [fst snd] in *.
  assert (ts = fst (Tai64nNow (ev_world e))) as Ets.
  { change ts with (fst (ts, w2)). rewrite <- ET. apply Tai64nNow_view; [|congruence].
    transitivity (w_realtime w0); [apply HS1|apply F2]. }
  destruct (write_initiation_spec _ _ own other psk eph ts Hown Hother HF Heph Hts)
    as (ck & h & es & et & HWI & Hes & Het & HR).
  set (m0 := mk_initiation 1 idx (crypto_x25519_public_key eph) es et macs_init).
  assert (initiation_ok m0) as Hm0.
  { repeat (split; [done || by apply public_ok|]). apply macs_init_ok. }
  destruct HF as [C1 C2 C3 C4 C5].
  destruct (ApplyOutgoingMacs_spec (ML := initiation_mac_laws) m0 (remote_static (the_identity e))
    (pr_cookie (the_peer e)) w2 Hm0 ltac:(by rewrite C3) HK HW2)
    as (mac1 & mac2 & EM & Hm1 & Hm2 & _ & HW3 & EO).
  set (m := set_macs (mk_macs mac1 mac2) m0) in EO. set (w3 := snd _) in EO, HW3.
  assert (initiation_ok m) as Hm by (apply (ok_set (MacMessageLaws := initiation_mac_laws)); done).
  set (e1 := index_assigned idx (mk_env w0 d0)).
  assert (the_peer e1 = (the_peer e) <| pr_handshake ::= fun hs => hs <| hk_local_index := idx |>
                                          <| hk_remote_index := 0 |> |>) as EP1 by by rewrite <- F4.
  pose proof (create_initiation_run e1 d r w1 ts w2 ck h es et m
    (noise_cookie_record_last_mac1 (pr_cookie (the_peer e)) mac1) w3) as HCR. cbv zeta in HCR.
  unfold the_identity, the_material in HCR. rewrite EP1 in HCR.
  specialize (HCR (f_equal key_valid C1) (f_equal key_valid C2) (f_equal key_valid C3)
    (f_equal key_valid C5) HI ER ET HWI EO).
  rewrite HCR. do 5 eexists. split; [reflexivity|].
  assert (mac1_of (mk_key (crypto_x25519_public_key other) true) (body m) = Some mac1) as EM'.
  { rewrite <- EM. unfold m. rewrite (body_set (MacMessageLaws := initiation_mac_laws)).
    apply mac1_of_key. by rewrite C3. }
  split; try done.
  - by rewrite EA.
  - intros B sB HB. rewrite <- Ets. by apply HR.
  - by apply (index_assigned_matches idx (mk_env w0 d0)).
  - by apply (GetMonotonicTime_world w3).
  - etransitivity; [exact F2|]. etransitivity; [exact HS1|].
    assert (same_services w1 w2) as HS2 by (by replace w2 with (snd (Tai64nNow w1)) by (by rewrite ET)).
    etransitivity; [exact HS2|]. apply (noise_cookie_is_valid_world _ w2).
Qed.

Lemma send_initiation_spec e own other psk :
  bytes_of 32 own -> bytes_of 32 other -> ready_peer e own other psk ->
  exists e' m eph ck h, send_initiation e = Some (e', enc_initiation m) /\
    initiation_sent e e' m own other psk eph ck h.
Proof.
  intros Hown Hother HP.
  destruct (device_initiation_spec e initiation_init own other psk Hown Hother HP)
    as (e' & m & eph & ck & h & ER & HS).
  exists e', m, eph, ck, h. split; [|done]. unfold send_initiation. rewrite ER. cbn [wd_env wd_dst].
  rewrite SerializeHandshakeInitiation_enc by (done || by rewrite length_zeros || apply HS).
  by rewrite drop_zeros, app_nil_r.
Qed.

(** The peer stays ready: a device can go on creating initiations. *)
Lemma initiation_sent_ready e e' m own other psk eph ck h :
  initiation_sent e e' m own other psk eph ck h -> ready_peer e own other psk ->
  ready_peer e' own other psk.
Proof.
  intros HS [_ HC HP HF HK]. destruct (is_kept _ _ _ _ _ _ _ _ _ HS) as (E1 & E2 & _).
  split.
  - apply HS.
  - destruct (is_services _ _ _ _ _ _ _ _ _ HS) as [-> _]. done.
  - by rewrite (is_has_peer _ _ _ _ _ _ _ _ _ HS).
  - by rewrite (is_identity _ _ _ _ _ _ _ _ _ HS), E1.
  - by rewrite E2.
Qed.


(** [write_response] for a configured identity, read by any counterpart. *)
Lemma write_response_spec B sB mB own other psk ea eb :
  bytes_of 32 own -> bytes_of 32 other -> configured B sB own other psk ->
  bytes_of 32 ea -> bytes_of 32 eb ->
  key_bytes (remote_ephemeral mB) = crypto_x25519_public_key ea ->
  exists ck h en, write_response B mB eb = Some (ck, h, en) /\ bytes_of 16 en /\
    forall A sA mA src, configured A sA other own psk ->
      ephemeral_private mA = mk_key ea true ->
      key_bytes (chaining_key mA) = key_bytes (chaining_key mB) ->
      key_bytes (hash mA) = key_bytes (hash mB) ->
      hr_unencrypted_ephemeral src = crypto_x25519_public_key eb ->
      hr_encrypted_nothing src = en -> read_response src A mA = Some (ck, h).
Proof.
  intros Hown Hother HB Hea Heb HM.
  set (A0 := mk_identity (mk_key other true) (mk_key (crypto_x25519_public_key other) true)
               (mk_key (crypto_x25519_public_key own) true) (mk_key psk true)).
  set (mA0 := mB <| ephemeral_private := mk_key ea true |>).
  destruct (response_transcript A0 B (mk_key (crypto_x25519 other (crypto_x25519_public_key own)) true)
    sB other own psk Hother ltac:(by split) HB mA0 mB ea eb Hea Heb eq_refl HM eq_refl eq_refl)
    as (ck & h & en & EW & _ & _ & Hen & _).
  exists ck, h, en. split; [done|]. split; [done|].
  intros A sA mA src HA H1 H2 H3. destruct (response_transcript A B sA sB other own psk Hother HA HB
    mA mB ea eb Hea Heb H1 HM H2 H3) as (ck' & h' & en' & EW' & _ & _ & _ & HR).
  rewrite EW in EW'. injection EW' as <- <- <-. apply HR.
Qed.

(** The next answer of the monotonic clock. *)
Definition clock (w : World) : Z := fst (GetMonotonicTime w).

(** The state after the initiation was consumed and an index was assigned. *)
Record initiation_accepted (e e' : Env) (m : message_handshake_initiation) (ck h : bytes) : Prop := {
  ia_world : world_ok (ev_world e');
  ia_services : same_services (ev_world e) (ev_world e');
  ia_local : hk_local_index (pr_handshake (the_peer e')) = fst (wg_device_allocate_index e);
  ia_nonzero : fst (wg_device_allocate_index e) <> 0;
  ia_width : is_u32 (fst (wg_device_allocate_index e));
  ia_fresh : IsRegisteredIndex (ev_device e) (fst (wg_device_allocate_index e)) = false;
  ia_remote : hk_remote_index (pr_handshake (the_peer e')) = hi_sender_index m;
  ia_state : hk_state (pr_handshake (the_peer e')) = HandshakeState_InitiationReceived;
  ia_identity : the_identity e' = the_identity e;
  ia_ephemeral : remote_ephemeral (the_material e') = mk_key (hi_unencrypted_ephemeral m) true;
  ia_precomputed : precomputed_static_static (the_material e') = precomputed_static_static (the_material e);
  ia_ck : chaining_key (the_material e') = mk_key ck true;
  ia_h : hash (the_material e') = mk_key h true;
  ia_cookie : pr_cookie (the_peer e') = pr_cookie (the_peer e);
  ia_keypairs : (pr_current_keypair (the_peer e'), pr_next_keypair (the_peer e'),
                 pr_previous_keypair (the_peer e'))
                = (pr_current_keypair (the_peer e), pr_next_keypair (the_peer e),
                   pr_previous_keypair (the_peer e))
}.

Lemma consume_initiation_packet_spec e m own other psk ck h ts :
  ready_peer e own other psk ->
  initiation_ok m -> hi_sender_index m <> 0 ->
  mac1_of (mk_key (crypto_x25519_public_key own) true) (body m) = Some (mac1 (hi_macs m)) ->
  read_initiation m (the_identity e) (precomputed_static_static (the_material e)) = Some (ck, h, ts) ->
  not_replayed (pr_handshake (the_peer e)) ts = true ->
  not_flooded (pr_handshake (the_peer e)) (clock (ev_world e)) = true ->
  exists e', noise_handshake_consume_incoming_packet (enc_initiation m) e
             = (HandshakePacketOutcome_InitiationConsumed, e') /\
    initiation_accepted e e' m ck h.
Proof.
  intros [HW HC HP [C1 C2 C3 C4 C5] HK] Hm HI HM HR HNR HNF.
  unfold noise_handshake_consume_incoming_packet.
  destruct (ParseHandshakeInitiation_enc m initiation_init Hm) as [-> ->].
  cbn [pr_success pr_type MakeSuccess negb].
  assert (VerifyMac1 m (static_public (the_identity e)) = true) as HV.
  { apply (VerifyMac1_spec (ML := initiation_mac_laws) m _ Hm). rewrite C2. by split. }
  pose proof (consume_initiation_run m e ck h ts) as HRun. cbv zeta in HRun. unfold clock in HNF.
  destruct (GetMonotonicTime (ev_world e)) as [now w] eqn:EG.
  specialize (HRun (f_equal key_valid C1) (f_equal key_valid C2) (f_equal key_valid C3)
    (f_equal key_valid C5) (proj1 Hm) HI HV HR HNR HNF).
  unfold run_bool. rewrite HRun. cbn [negb].
  set (e1 := transition_to _ _).
  assert (world_ok w) as HWw.
  { pose proof (GetMonotonicTime_world _ HW) as H. by rewrite EG in H. }
  assert (same_services (ev_world e) w) as HSw.
  { by replace w with (snd (GetMonotonicTime (ev_world e))) by (by rewrite EG). }
  assert (world_ok (ev_world e1)) as HW1 by by apply (GetMonotonicTime_world w).
  assert (allocation_view e1 = allocation_view e) as EV.
  { unfold allocation_view. assert (ev_world e1 = snd (GetMonotonicTime w)) as -> by done.
    replace w with (snd (GetMonotonicTime (ev_world e))) by (by rewrite EG). done. }
  pose proof (allocate_index_spec e1 HW1) as HA. pose proof (allocate_index_view _ _ EV) as EI.
  pose proof (allocate_index_spec e HW) as HA0.
  destruct (wg_device_allocate_index e) as [idx0 e0] eqn:EA0. cbn [fst] in EI.
  destruct (wg_device_allocate_index e1) as [idx e2] eqn:EA. cbn [fst] in EI. subst idx0.
  destruct HA as ([F1 F2 F3 F4 F5 F6] & HI2 & HU & _). destruct HA0 as (_ & _ & _ & HF0).
  rewrite (proj2 (Z.eqb_neq _ _)) by done.
  eexists. split; [reflexivity|].
  assert (same_services (ev_world e) (ev_world e2)) as HS2 by (etransitivity; [exact HSw|exact F2]).
  destruct e2 as [w2 d2]. cbn [ev_world ev_device] in *.
  split; rewrite ?EA0; try done.
  all: unfold the_identity, the_material; cbn; rewrite F4; done.
Qed.

(** The state after the response was written: its chaining key is [ck2]. *)
Record response_written (e e' : Env) (m2 : message_handshake_response) (own other psk eph ck2 : bytes)
    : Prop := {
  rw_ok : response_ok m2;
  rw_index : hr_sender_index m2 = hk_local_index (pr_handshake (the_peer e));
  rw_receiver : hr_receiver_index m2 = hk_remote_index (pr_handshake (the_peer e));
  rw_mac1 : mac1_of (mk_key (crypto_x25519_public_key other) true) (body m2) = Some (mac1 (hr_macs m2));
  rw_readable : forall A sA mA, configured A sA other own psk ->
    ephemeral_private mA = mk_key eph true ->
    key_bytes (chaining_key mA) = ck_of e -> key_bytes (hash mA) = h_of e ->
    exists h2, read_response m2 A mA = Some (ck2, h2);
  rw_ck : chaining_key (the_material e') = mk_key ck2 true;
  rw_state : hk_state (pr_handshake (the_peer e')) = HandshakeState_ResponseCreated;
  rw_local : hk_local_index (pr_handshake (the_peer e')) = hk_local_index (pr_handshake (the_peer e));
  rw_remote : hk_remote_index (pr_handshake (the_peer e')) = hk_remote_index (pr_handshake (the_peer e));
  rw_identity : the_identity e' = the_identity e;
  rw_services : same_services (ev_world e) (ev_world e');
  rw_current : pr_current_keypair (the_peer e') = pr_current_keypair (the_peer e)
}.

Lemma create_response_spec e own other psk eph :
  let hs := pr_handshake (the_peer e) in
  bytes_of 32 own -> bytes_of 32 other -> world_ok (ev_world e) ->
  configured (the_identity e) (precomputed_static_static (the_material e)) own other psk ->
  bytes_of 16 (ck_value (pr_cookie (the_peer e))) ->
  hk_state hs = HandshakeState_InitiationReceived ->
  is_u32 (hk_local_index hs) -> is_u32 (hk_remote_index hs) ->
  hk_local_index hs <> 0 -> hk_remote_index hs <> 0 ->
  key_valid (chaining_key (the_material e)) = true ->
  bytes_of 32 eph -> remote_ephemeral (the_material e) = mk_key (crypto_x25519_public_key eph) true ->
  exists e' m2 ck2,
    noise_handshake_create_response (mk_writing e response_init) = (Some tt, mk_writing e' m2) /\
    response_written e e' m2 own other psk eph ck2.
Proof.
  intros hs Hown Hother HW HF HK HS HUl HUr HL HR HV Heph HE.
  pose proof (draw_ephemeral (ev_world e) HW) as HD.
  destruct (get_random_bytes 32 (ev_world e)) as [r w1] eqn:ER.
  destruct HD as (Heb & HW1 & HS1 & _ & _). set (eb := ClampX25519PrivateKey r) in *.
  destruct (write_response_spec _ _ (the_material e) own other psk eph eb Hown Hother HF Heph Heb)
    as (ck2 & h2 & en & HWR & Hen & HRd); [by rewrite HE|].
  set (m0 := mk_response 2 (hk_local_index hs) (hk_remote_index hs) (crypto_x25519_public_key eb) en
               macs_init).
  assert (response_ok m0) as Hm0.
  { repeat (split; [done || by apply public_ok|]). apply macs_init_ok. }
  destruct HF as [C1 C2 C3 C4 C5].
  destruct (ApplyOutgoingMacs_spec (ML := response_mac_laws) m0 (remote_static (the_identity e))
    (pr_cookie (the_peer e)) w1 Hm0 ltac:(by rewrite C3) HK HW1)
    as (mac1 & mac2 & EM & Hm1 & Hm2 & _ & HW2 & EO).
  pose proof (proj2 (noise_cookie_is_valid_world (pr_cookie (the_peer e)) w1)) as HS2.
  set (m2 := set_macs (mk_macs mac1 mac2) m0) in EO. set (w2 := snd _) in EO, HW2, HS2.
  assert (response_ok m2) as Hmm by (apply (ok_set (MacMessageLaws := response_mac_laws)); done).
  pose proof (create_response_run e response_init r w1 ck2 h2 en m2
    (noise_cookie_record_last_mac1 (pr_cookie (the_peer e)) mac1) w2 (f_equal key_valid C3)
    (f_equal key_valid HE) HL HR HS ER HWR EO) as HCR.
  eexists _, m2, ck2. split; [exact HCR|].
  assert (mac1_of (mk_key (crypto_x25519_public_key other) true) (body m2) = Some mac1) as EM'.
  { rewrite <- EM. unfold m2. rewrite (body_set (MacMessageLaws := response_mac_laws)).
    apply mac1_of_key. by rewrite C3. }
  split; try done.
  - intros A sA mA HA H1 H2 H3. exists h2. by apply (HRd A sA mA).
  - change (mk_key ck2 (key_valid (chaining_key (the_material e))) = mk_key ck2 true). by rewrite HV.
  - etransitivity; [exact HS1|exact HS2].
Qed.

(** What the responder sent and holds. *)
Record response_sent (e e' : Env) (m : message_handshake_initiation) (m2 : message_handshake_response)
    (own other psk eph ck h k1 k2 : bytes) : Prop := {
  rs_ok : response_ok m2;
  rs_index : hr_sender_index m2 = fst (wg_device_allocate_index e);
  rs_nonzero : hr_sender_index m2 <> 0;
  rs_fresh : IsRegisteredIndex (ev_device e) (hr_sender_index m2) = false;
  rs_receiver : hr_receiver_index m2 = hi_sender_index m;
  rs_mac1 : mac1_of (mk_key (crypto_x25519_public_key other) true) (body m2) = Some (mac1 (hr_macs m2));
  rs_readable : forall A sA mA, configured A sA other own psk ->
    ephemeral_private mA = mk_key eph true -> chaining_key mA = mk_key ck true ->
    hash mA = mk_key h true ->
    exists ck2 h2, read_response m2 A mA = Some (ck2, h2) /\
      DeriveSessionKeys ck2 = Some (mk_key k1 true, mk_key k2 true);
  rs_synced : registry_synced (ev_device e');
  rs_state : hk_state (pr_handshake (the_peer e')) = HandshakeState_SessionDerived;
  rs_identity : the_identity e' = the_identity e;
  rs_current : pr_current_keypair (the_peer e') = pr_current_keypair (the_peer e);
  rs_previous : pr_previous_keypair (the_peer e') = keypair_init;
  rs_next : exists birth, 0 <= birth /\
    pr_next_keypair (the_peer e')
    = mk_keypair KeypairState_Established (hr_sender_index m2) (hi_sender_index m) 0 false birth
        (mk_key k2 true) (mk_key k1 true) Window_Reset;
  rs_valid : keypair_IsValid (pr_next_keypair (the_peer e')) = true;
  rs_keys : bytes_of 32 k1 /\ bytes_of 32 k2
}.

Lemma answer_initiation_spec e m own other psk eph ck h ts :
  bytes_of 32 own -> bytes_of 32 other -> ready_peer e own other psk ->
  initiation_ok m -> hi_sender_index m <> 0 ->
  bytes_of 32 eph -> hi_unencrypted_ephemeral m = crypto_x25519_public_key eph ->
  mac1_of (mk_key (crypto_x25519_public_key own) true) (body m) = Some (mac1 (hi_macs m)) ->
  read_initiation m (the_identity e) (precomputed_static_static (the_material e)) = Some (ck, h, ts) ->
  not_replayed (pr_handshake (the_peer e)) ts = true ->
  not_flooded (pr_handshake (the_peer e)) (clock (ev_world e)) = true ->
  exists e' m2 k1 k2, answer_initiation (enc_initiation m) e = Some (e', enc_response m2) /\
    response_sent e e' m m2 own other psk eph ck h k1 k2.
Proof.
  intros Hown Hother HP Hm HI Heph HE HM HR HNR HNF.
  destruct (consume_initiation_packet_spec e m own other psk ck h ts HP Hm HI HM HR HNR HNF)
    as (e1 & EC & [A1 A2 A3 A4 A5 A5' A6 A7 A8 A9 A10 A11 A12 A13 A14]).
  unfold answer_initiation. rewrite EC. destruct HP as [HW HC HP HF HK].
  destruct (create_response_spec e1 own other psk eph) as (e2 & m2 & ck2 & ER & HRW);
    rewrite ?A3, ?A6, ?A8, ?A10, ?A11, ?A13; try done; [apply Hm|by rewrite A9, HE|].
  destruct HRW as [W1 W2 W3 W4 W5 W6 W7 W8 W9 W10 W11 W12].
  rewrite A3 in *. rewrite A6 in *. rewrite ER. cbn [wd_dst wd_env].
  rewrite SerializeHandshakeResponse_enc by (done || by rewrite length_zeros).
  rewrite drop_zeros, app_nil_r. destruct (DeriveSessionKeys_Some ck2) as (k1 & k2 & EK & HK1 & HK2).
  assert (0 <= clock (ev_world e2)) as HN.
  { unfold clock. cbn. replace (w_monotonic (ev_world e2)) with (w_monotonic (ev_world e)); [apply HC|].
    destruct W11 as [-> _]. by destruct A2 as [-> _]. }
  assert (is_initiator e2 = false) as EI by (unfold is_initiator; by rewrite W7).
  pose proof (begin_session_run e2 k1 k2) as HB. cbv zeta in HB. rewrite W8, W9 in HB.
  rewrite HB; [|by left|by rewrite W6|unfold ck_of; by rewrite W6|done..].
  destruct (session_begun_facts e2 (session_keypair e2 k1 k2)) as (S1 & S2 & S3 & S4).
  pose proof (session_keypair_established e2 k1 k2) as HSE. cbv zeta in HSE. rewrite W8, W9 in HSE.
  destruct (HSE A4 HI HN) as [_ HV]. rewrite EI in S4. destruct S4 as (S4 & S5 & S6).
  exists (session_begun e2 (session_keypair e2 k1 k2)), m2, k1, k2. split; [done|].
  split; try done; rewrite ?S3, ?S4, ?S5, ?W10, ?W12, ?A8, ?W2; try done.
  - intros A sA mA HA H1 H2 H3. destruct (W5 A sA mA HA H1) as (h2 & E2);
      [unfold ck_of; by rewrite A11, H2|unfold h_of; by rewrite A12, H3|]. by exists ck2, h2.
  - by injection A14 as -> _ _.
  - exists (clock (ev_world e2)). split; [done|]. unfold session_keypair. by rewrite EI, W8, W9.
Qed.
End Agreement.
