(* ===== verification/Exchange.v ===== *)
(** * Agreement of a complete handshake

    The last step of the exchange of [Agreement.v], and the theorem about the
    whole of it. *)

From S2P Require Import Prelude Endian Messages Replay Platform Session Base64 Crypto Device.
From S2P Require Import Data Identity Noise Admission Macs Handshake Agreement.
Local Open Scope Z_scope.

Section Exchange.
Context {P : Primitives} {L : PrimitivesLaws P}.

(** What the initiator holds after the response. *)
Record session_established (e0 e : Env) (l r : Z) (k1 k2 : bytes) : Prop := {
  se_synced : registry_synced (ev_device e);
  se_state : hk_state (pr_handshake (the_peer e)) = HandshakeState_SessionDerived;
  se_current : exists birth, 0 <= birth /\
    pr_current_keypair (the_peer e)
    = mk_keypair KeypairState_Established l r 0 true birth (mk_key k1 true) (mk_key k2 true) Window_Reset;
  se_valid : keypair_IsValid (pr_current_keypair (the_peer e)) = true;
  se_previous : pr_previous_keypair (the_peer e)
    = (if keypair_IsValid (pr_next_keypair (the_peer e0)) then pr_next_keypair (the_peer e0)
       else pr_current_keypair (the_peer e0))
}.

Lemma consume_response_packet_spec e e1 m m2 own other psk eph ck h ck2 h2 :
  ready_peer e own other psk -> initiation_sent e e1 m own other psk eph ck h ->
  response_ok m2 -> hr_sender_index m2 <> 0 -> hr_receiver_index m2 = hi_sender_index m ->
  mac1_of (mk_key (crypto_x25519_public_key own) true) (body m2) = Some (mac1 (hr_macs m2)) ->
  hr_sender_index m2 <> hi_sender_index m ->
  (keypair_IsValid (pr_current_keypair (the_peer e)) = true ->
   hr_sender_index m2 <> kp_remote_index (pr_current_keypair (the_peer e))) ->
  read_response m2 (the_identity e1) (the_material e1) = Some (ck2, h2) ->
  noise_handshake_consume_incoming_packet (enc_response m2) e1
  = (HandshakePacketOutcome_ResponseConsumed, transition_to HandshakeState_ResponseReceived
       (mk_env (ev_world e1) ((ev_device e1) <| dv_peer := answered (the_peer e1) m2 ck2 h2 |>))).
Proof.
  intros [_ _ _ [C1 C2 _ _ _] _] [I1 I2 I3 I4 I5 I6 I7 I8 I9 I10 I11 I12 I13 I14 I15 I16 I17 I18 _ _ _].
  intros Hm HN HRx HM HD HC HR. injection I15 as EC _ _.
  unfold noise_handshake_consume_incoming_packet.
  destruct (ParseHandshakeResponse_enc m2 response_init Hm) as [-> ->].
  cbn [pr_success pr_type MakeSuccess negb]. unfold run_bool.
  rewrite (consume_response_run m2 e1 ck2 h2); rewrite ?I8, ?C1, ?I9, ?I13, ?EC, ?HRx; try done.
  - apply Hm.
  - apply (VerifyMac1_spec (ML := response_mac_laws) m2 _ Hm). rewrite C2. by split.
  - by rewrite <- I8.
Qed.

Lemma finish_handshake_spec e e1 m m2 own other psk eph ck h k1 k2 :
  ready_peer e own other psk -> initiation_sent e e1 m own other psk eph ck h ->
  response_ok m2 -> hr_sender_index m2 <> 0 -> hr_receiver_index m2 = hi_sender_index m ->
  mac1_of (mk_key (crypto_x25519_public_key own) true) (body m2) = Some (mac1 (hr_macs m2)) ->
  hr_sender_index m2 <> hi_sender_index m ->
  (keypair_IsValid (pr_current_keypair (the_peer e)) = true ->
   hr_sender_index m2 <> kp_remote_index (pr_current_keypair (the_peer e))) ->
  (exists ck2 h2, read_response m2 (the_identity e1) (the_material e1) = Some (ck2, h2) /\
     DeriveSessionKeys ck2 = Some (mk_key k1 true, mk_key k2 true)) ->
  exists e2, finish_handshake (enc_response m2) e1 = Some e2 /\
    session_established e e2 (hi_sender_index m) (hr_sender_index m2) k1 k2.
Proof.
  intros HP HS Hm HN HRx HM HD HC (ck2 & h2 & HR & EK). unfold finish_handshake.
  erewrite consume_response_packet_spec by done. destruct HP as [_ HCk _ _ _].
  destruct HS as [I1 I2 I3 I4 I5 I6 I7 I8 I9 I10 I11 I12 I13 I14 I15 I16 I17 I18 _ _ _].
  injection I15 as ECur ENext EPrev.
  set (e2 := transition_to _ _).
  assert (is_initiator e2 = true) as EI by done.
  assert (hk_local_index (pr_handshake (the_peer e2)) = hi_sender_index m) as EL by exact I13.
  assert (hk_remote_index (pr_handshake (the_peer e2)) = hr_sender_index m2) as ER by done.
  assert (pr_current_keypair (the_peer e2) = pr_current_keypair (the_peer e1)) as EC2 by done.
  assert (pr_next_keypair (the_peer e2) = pr_next_keypair (the_peer e1)) as EN2 by done.
  assert (0 <= clock (ev_world e2)) as HNow.
  { unfold clock. cbn. destruct I17 as [-> _]. apply HCk. }
  pose proof (begin_session_run e2 k1 k2) as HB. cbv zeta in HB. rewrite EL, ER in HB.
  rewrite HB by (done || by right).
  destruct (session_begun_facts e2 (session_keypair e2 k1 k2)) as (S1 & S2 & S3 & S4).
  pose proof (session_keypair_established e2 k1 k2) as HSE. cbv zeta in HSE. rewrite EL, ER in HSE.
  destruct (HSE I3 HN HNow) as [_ HV]. rewrite EI in S4. destruct S4 as (S4 & S5 & S6).
  eexists. split; [reflexivity|]. split; try done.
  - exists (clock (ev_world e2)). split; [done|]. rewrite S4. unfold session_keypair.
    by rewrite EI, EL, ER.
  - by rewrite S5, EC2, EN2, ECur, ENext.
Qed.

(** What both devices hold after a complete handshake; [eB] is the responder
    before it. *)
Record session_agreed (eB eA' eB' : Env) : Prop := {
  (** valid keypairs with crossed keys and indices *)
  ag_linked : linked (pr_current_keypair (the_peer eA')) (pr_next_keypair (the_peer eB'));
  ag_initiator : kp_is_initiator (pr_current_keypair (the_peer eA')) = true /\
                 kp_is_initiator (pr_next_keypair (the_peer eB')) = false;
  ag_counters : kp_send_counter (pr_current_keypair (the_peer eA')) = 0 /\
                kp_send_counter (pr_next_keypair (the_peer eB')) = 0;
  ag_windows : kp_receive_replay_window (pr_current_keypair (the_peer eA')) = Window_Reset /\
               kp_receive_replay_window (pr_next_keypair (the_peer eB')) = Window_Reset;
  ag_synced : registry_synced (ev_device eA') /\ registry_synced (ev_device eB');
  ag_routed : wg_device_lookup_index_slot (ev_device eA') (kp_local_index (pr_current_keypair (the_peer eA')))
              = wg_index_slot_CurrentKeypair /\
              wg_device_lookup_index_slot (ev_device eB') (kp_local_index (pr_next_keypair (the_peer eB')))
              = wg_index_slot_NextKeypair;
  ag_state : hk_state (pr_handshake (the_peer eA')) = HandshakeState_SessionDerived /\
             hk_state (pr_handshake (the_peer eB')) = HandshakeState_SessionDerived;
  (** the responder goes on using its old keypair until the new one is confirmed *)
  ag_kept : pr_current_keypair (the_peer eB') = pr_current_keypair (the_peer eB);
  ag_distinct : keypair_IsValid (pr_current_keypair (the_peer eB')) = true ->
    kp_local_index (pr_current_keypair (the_peer eB')) <> kp_local_index (pr_next_keypair (the_peer eB'))
}.

(** When a handshake from [eA] to [eB] cannot fail. *)
Record may_agree (eA eB : Env) (a b psk : bytes) : Prop := {
  ma_own : bytes_of 32 a;
  ma_other : bytes_of 32 b;
  ma_initiator : ready_peer eA a b psk;
  ma_responder : ready_peer eB b a psk;
  ma_registered : keypairs_registered (ev_device eB);
  ma_new : not_replayed (pr_handshake (the_peer eB)) (fst (Tai64nNow (ev_world eA))) = true;
  ma_slow : not_flooded (pr_handshake (the_peer eB)) (clock (ev_world eB)) = true;
  ma_indices : fst (wg_device_allocate_index eB) <> fst (wg_device_allocate_index eA);
  ma_remote : keypair_IsValid (pr_current_keypair (the_peer eA)) = true ->
    fst (wg_device_allocate_index eB) <> kp_remote_index (pr_current_keypair (the_peer eA))
}.

Lemma handshake_agrees eA eB a b psk :
  may_agree eA eB a b psk ->
  exists eA' eB', handshake_run eA eB = Some (eA', eB') /\ session_agreed eB eA' eB'.
Proof.
  intros [Ha Hb HA HB HR Hnew Hslow Hidx Hcur].
  destruct (send_initiation_spec eA a b psk Ha Hb HA) as (eA1 & m & eph & ck & h & ES & HS).
  pose proof HS as [I1 I2 I3 I4 I5 I6 I7 I8 I9 I10 I11 I12 I13 I14 I15 I16 I17 I18 _ _ _].
  destruct (answer_initiation_spec eB m b a psk eph ck h _ Hb Ha HB I1 I3 I4 I5 I6
    (I7 _ _ (rp_configured _ _ _ _ HB)) Hnew Hslow) as (eB' & m2 & k1 & k2 & EA & HRS).
  pose proof HRS as [R1 R2 R3 R4 R5 R6 R7 R8 R9 R10 R11 R12 (bB & HbB & RN) R14 [RK1 RK2] ].
  assert (configured (the_identity eA1) (precomputed_static_static (the_material eA)) a b psk) as HA1
    by (rewrite I8; apply (rp_configured _ _ _ _ HA)).
  destruct (finish_handshake_spec eA eA1 m m2 a b psk eph ck h k1 k2 HA HS R1 R3 R5 R6)
    as (eA' & EF & [E1 E2 (bA & HbA & EC) E4 E5]); [congruence|by rewrite R2| |].
  { apply (R7 _ _ (the_material eA1) HA1); done. }
  assert (keypair_IsValid (pr_current_keypair (the_peer eB')) = true ->
    kp_local_index (pr_current_keypair (the_peer eB')) <> kp_local_index (pr_next_keypair (the_peer eB'))) as HD.
  { intros HV EQ. rewrite RN in EQ. cbn [kp_local_index] in EQ. rewrite R11 in *.
    pose proof (HR wg_index_slot_CurrentKeypair _ eq_refl HV) as HReg. rewrite EQ in HReg.
    assert (IsRegisteredIndex (ev_device eB) (hr_sender_index m2) = true) as HT; [|congruence].
    unfold IsRegisteredIndex. apply negb_true_iff, bool_decide_eq_false. intros HNone.
    apply (proj1 (lookup_none _ _ R3) HNone wg_index_slot_CurrentKeypair); [|done].
    apply list_elem_of_In. simpl. tauto. }
  exists eA', eB'. split.
  { unfold handshake_run. rewrite ES. cbn [mbind option_bind]. rewrite EA. cbn [mbind option_bind].
    by rewrite EF. }
  destruct I1 as (_ & HLI & _). destruct R1 as (_ & HLR & _).
  pose proof (synced_lookup_current _ E1 E4). pose proof (synced_lookup_next _ R8 R14 HD).
  assert (is_u64 0) as HZero by (unfold in_width; lia).
  split; try done; rewrite ?EC, ?RN in *; try done.
Qed.

(** C2. Key agreement.  Take two devices configured for each other (each holds
    its own private key, the other's public key and the same preshared key), both
    with working clocks and entropy.  If the initiation's timestamp is newer than
    the last one the responder accepted and does not come too soon after it, and
    the two receiver indices differ, then every step of the handshake succeeds,
    through serialised packets: afterwards the initiator's current keypair and the
    responder's next keypair are valid, each side's sending key is the other's
    receiving key, each side's local index is the other's remote index, both
    counters start at zero with empty replay windows, exactly the initiator is
    marked as such, both registries route the new indices to these keypairs, and
    the keypair the responder was using stays in place. *)
Theorem handshake_agreement eA eB a b psk (H : may_agree eA eB a b psk) :
  exists eA' eB', handshake_run eA eB = Some (eA', eB') /\ session_agreed eB eA' eB'.
Proof. exact (handshake_agrees eA eB a b psk H). Qed.
End Exchange.

(** ** Two concrete devices *)

Definition key_a : bytes := seqZ 1 32.
Definition key_b : bytes := seqZ 101 32.
Definition sample_psk : bytes := zeros 32.

Definition sample_identity {P : Primitives} (own other : bytes) : noise_static_identity :=
  mk_identity (mk_key own true) (mk_key (crypto_x25519_public_key own) true)
    (mk_key (crypto_x25519_public_key other) true) (mk_key sample_psk true).
Definition sample_env {P : Primitives} (seed : Z) (own other : bytes) : Env :=
  mk_env (sample_world 1000 10 seed)
    (device_init <| dv_has_peer := true |>
       <| dv_peer ::= fun p => p <| pr_static_identity := sample_identity own other |>
            <| pr_handshake_material ::= fun m => m <| precomputed_static_static :=
                 mk_key (crypto_x25519 own (crypto_x25519_public_key other)) true |> |> |>).

Lemma sample_ready {P : Primitives} seed own other :
  ready_peer (sample_env seed own other) own other sample_psk.
Proof.
  split; try done.
  - apply sample_world_ok.
  - intros i. cbn. lia.
  - apply bytes_of_zeros.
Qed.

Lemma sample_registered {P : Primitives} seed own other :
  keypairs_registered (ev_device (sample_env seed own other)).
Proof. intros slot k Ek HV. by destruct slot; cbn in Ek; simplify_eq. Qed.

Lemma sample_may_agree :
  @may_agree toy_primitives (@sample_env toy_primitives 9 key_a key_b)
    (@sample_env toy_primitives 77 key_b key_a) key_a key_b sample_psk.
Proof.
  split; try (apply sample_ready || apply sample_registered || reflexivity).
  - apply (bool_decide_unpack _). vm_compute. exact I.
  - apply (bool_decide_unpack _). vm_compute. exact I.
  - vm_compute. discriminate.
  - vm_compute. discriminate.
Qed.

Lemma handshake_agreement_witness :
  exists eA' eB',
    @handshake_run toy_primitives (@sample_env toy_primitives 9 key_a key_b)
      (@sample_env toy_primitives 77 key_b key_a) = Some (eA', eB') /\
    kp_sending_key (pr_current_keypair (the_peer eA')) = kp_receiving_key (pr_next_keypair (the_peer eB')).
Proof.
  destruct (@handshake_agreement toy_primitives toy_laws _ _ _ _ _ sample_may_agree) as (eA' & eB' & E & H).
  exists eA', eB'. split; [exact E|exact (ln_there _ _ (ag_linked _ _ _ H))].
Defined.
