(* ===== verification/Peer.v ===== *)
(** * The peer's life cycle

    Models [wireguard/peer.cpp] and the initialisation of a device from a
    configuration entry in [wireguard/device.cpp]: construction from configured
    keys, the staging queue, the handshake retry sequence, and the operations
    that erase key material.  Character arrays of the configuration are C
    strings: what a function reads from them is the part before the first zero
    byte. *)

From S2P Require Import Prelude Messages PacketQueue Platform Session Base64 Timers Crypto Device.
From S2P Require Import Identity Handshake.
Local Open Scope Z_scope.

(** ** Types *)

Inductive OutboundStagingAction :=
  | OutboundStagingAction_Idle
  | OutboundStagingAction_Send
  | OutboundStagingAction_InitiateHandshake.
Inductive HandshakeRetryTimeoutAction :=
  | HandshakeRetryTimeoutAction_Ignore
  | HandshakeRetryTimeoutAction_Retry
  | HandshakeRetryTimeoutAction_Exhausted.
#[export] Instance OutboundStagingAction_eq_dec : EqDecision OutboundStagingAction.
Proof. solve_decision. Defined.
#[export] Instance HandshakeRetryTimeoutAction_eq_dec : EqDecision HandshakeRetryTimeoutAction.
Proof. solve_decision. Defined.

Record HandshakeRetryTimeoutResult := mk_timeout_result {
  tr_action : HandshakeRetryTimeoutAction;
  tr_dropped_staged_packets : nat
}.
Definition timeout_ignored : HandshakeRetryTimeoutResult :=
  mk_timeout_result HandshakeRetryTimeoutAction_Ignore 0.

(** Null pointers of the view are [None]; [local_private_key] is never null. *)
Record PeerInitializationView := mk_peer_view {
  pv_name : option bytes;
  pv_local_private_key : noise_private_key;
  pv_remote_public_key : option bytes;
  pv_preshared_key : option noise_symmetric_key;
  pv_persistent_keepalive_interval : Z
}.

(** A [char] array read as a C string. *)
Fixpoint c_string (text : bytes) : bytes :=
  match text with
  | [] => []
  | c :: rest => if c =? 0 then [] else c :: c_string rest
  end.

(** [std::snprintf(name, sizeof(name), "%s", text)] into a zeroed array. *)
Definition print_name (text : bytes) : bytes :=
  let text := take (PeerNameCapacity - 1) text in
  text ++ zeros (PeerNameCapacity - length text).

(** ** Operations *)

Definition wg_peer_reset_keypairs (peer : wg_peer) : wg_peer :=
  peer <| pr_current_keypair ::= keypair_Reset |> <| pr_next_keypair ::= keypair_Reset |>
       <| pr_previous_keypair ::= keypair_Reset |>.

Definition wg_peer_clear_last_initiation (peer : wg_peer) : wg_peer :=
  peer <| pr_last_initiation := initiation_init |> <| pr_has_last_initiation := false |>.

Definition wg_peer_get_outbound_staging_action (peer : wg_peer) (now : Z) : OutboundStagingAction :=
  if (Queue_Size (pr_staged_outbound_packets peer) =? 0)%nat then OutboundStagingAction_Idle
  else if keypair_CanSendAt now (pr_current_keypair peer) then OutboundStagingAction_Send
  else OutboundStagingAction_InitiateHandshake.

(** Logging apart: the number of packets removed, and the peer. *)
Definition wg_peer_clear_staged_outbound_packets (disposition : QueueDisposition) (peer : wg_peer)
    : nat * wg_peer :=
  let '(count, queue) := Queue_Clear PeerStagedPacketCapacity disposition (pr_staged_outbound_packets peer) in
  (count, peer <| pr_staged_outbound_packets := queue |>).

Definition wg_peer_begin_handshake_retry_sequence (peer : wg_peer) : wg_peer :=
  peer <| pr_handshake_retry ::= fun r => r <| rt_active := true |> <| rt_send_attempts := 1 |>
            <| rt_sequence_count ::= fun c => u32 (c + 1) |> |>.

Definition MaxSendAttempts : Z := MaxTimerHandshakes + 2.

Definition wg_peer_handle_handshake_retry_timeout (peer : wg_peer)
    : HandshakeRetryTimeoutResult * wg_peer :=
  if negb (rt_active (pr_handshake_retry peer)) then (timeout_ignored, peer)
  else if rt_send_attempts (pr_handshake_retry peer) <? MaxSendAttempts then
    (mk_timeout_result HandshakeRetryTimeoutAction_Retry 0,
     peer <| pr_handshake_retry ::= fun r => r <| rt_send_attempts ::= fun c => u32 (c + 1) |> |>)
  else
    let peer := peer <| pr_handshake_retry ::= fun r => r <| rt_active := false |>
                          <| rt_exhausted_sequence_count ::= fun c => u32 (c + 1) |> |> in
    let '(dropped, peer) :=
      wg_peer_clear_staged_outbound_packets QueueDisposition_RetryExhausted peer in
    let peer := wg_peer_clear_last_initiation peer in
    (mk_timeout_result HandshakeRetryTimeoutAction_Exhausted dropped, peer).

Definition wg_peer_complete_handshake_retry_sequence (peer : wg_peer) : wg_peer :=
  wg_peer_clear_last_initiation
    (peer <| pr_handshake_retry ::= fun r => r <| rt_active := false |> <| rt_send_attempts := 0 |> |>).

Definition wg_peer_zero_key_material (peer : wg_peer) (w : World) : wg_peer * World :=
  let peer := noise_handshake_clear_transcript peer in
  let '(handshake, w) := noise_handshake_init w in
  let peer := peer <| pr_handshake := handshake |> in
  let peer := wg_peer_complete_handshake_retry_sequence peer in
  let peer := wg_peer_reset_keypairs peer in
  (snd (wg_peer_clear_staged_outbound_packets QueueDisposition_Cleared peer), w).

Definition wg_peer_scrub_transient_state (peer : wg_peer) : wg_peer :=
  let peer := noise_handshake_clear_transcript peer in
  let peer := peer <| pr_cookie ::= noise_cookie_reset |> in
  let peer := wg_peer_clear_last_initiation peer in
  let peer := peer <| pr_handshake_retry := retry_init |> in
  let peer := wg_peer_reset_keypairs peer in
  snd (wg_peer_clear_staged_outbound_packets QueueDisposition_Cleared peer).

Section Initialise.
Context {P : Primitives}.

(** The peer is destroyed and constructed anew first, so its old value plays no
    part. *)
Definition wg_peer_initialize (config : PeerInitializationView) (w : World) : bool * wg_peer * World :=
  let peer := peer_init in
  let peer := peer <| pr_name := print_name (default [] (pv_name config)) |> in
  let peer := peer <| pr_persistent_keepalive_interval := pv_persistent_keepalive_interval config |> in
  let peer := peer <| pr_has_preshared_key :=
                match pv_preshared_key config with Some k => key_valid k | None => false end |> in
  let peer := peer <| pr_static_identity ::= noise_static_identity_reset |> in
  let peer := peer <| pr_handshake_material ::= noise_handshake_material_reset |> in
  let peer := peer <| pr_cookie ::= noise_cookie_reset |> in
  let '(handshake, w) := noise_handshake_init w in
  let peer := peer <| pr_handshake := handshake |> in
  let peer := peer <| pr_timers := wg_timers_init |> in
  let peer := wg_peer_reset_keypairs peer in
  let peer := wg_peer_clear_last_initiation peer in
  let peer := peer <| pr_handshake_retry := retry_init |> in
  let '(ok, identity) :=
    noise_static_identity_init_from_keys (pv_local_private_key config)
      (default [] (pv_remote_public_key config)) (pv_preshared_key config) (pr_static_identity peer) in
  let peer := peer <| pr_static_identity := identity |> in
  if negb ok then (false, peer, w)
  else
    let '(ok, material) := noise_precompute_static_static (pr_static_identity peer)
                             (pr_handshake_material peer) in
    let peer := peer <| pr_handshake_material := material |> in
    if negb ok then
      let peer := peer <| pr_static_identity ::= noise_static_identity_reset |> in
      let peer := peer <| pr_handshake_material ::= noise_handshake_material_reset |> in
      (false, peer, w)
    else (true, peer, w).

(** A configuration entry; its padding is left out. *)
Record PeerConfigEntry := mk_config_entry {
  cf_name : bytes;
  cf_address : bytes;
  cf_endpoint : bytes;
  cf_private_key : bytes;
  cf_dns : bytes;
  cf_public_key : bytes;
  cf_preshared_key : bytes;
  cf_allowed_ips : bytes;
  cf_listen_port : Z;
  cf_persistent_keepalive : Z;
  cf_mtu : Z;
  cf_field_flags : Z;
  cf_leak_protection : bool
}.

Definition wg_device_init_from_parsed_config (config : PeerConfigEntry)
    (local_private_key : noise_private_key) (psk : option noise_symmetric_key) (e : Env) : bool * Env :=
  if negb (key_valid local_private_key) then (false, e)
  else
    let device := wg_device_reset (ev_device e) in
    let device := device <| dv_index_allocator := wg_index_allocator_init |> in
    let device := wg_device_clear_index_registry device in
    let '(ok, peer, w) :=
      wg_peer_initialize
        (mk_peer_view (Some (c_string (cf_name config))) local_private_key
           (Some (c_string (cf_public_key config))) psk (cf_persistent_keepalive config))
        (ev_world e) in
    let device := device <| dv_peer := peer |> in
    if negb ok then (false, mk_env w (wg_device_reset device))
    else (true, mk_env w (device <| dv_has_peer := true |>)).

Definition wg_device_init_from_config_entry (config : PeerConfigEntry) (e : Env) : bool * Env :=
  match noise_parse_private_key (c_string (cf_private_key config)) with
  | None => (false, e)
  | Some private_key =>
      if negb (byte_at (cf_preshared_key config) 0 =? 0) then
        match noise_parse_preshared_key (c_string (cf_preshared_key config)) with
        | None => (false, e)
        | Some psk => wg_device_init_from_parsed_config config private_key (Some psk) e
        end
      else wg_device_init_from_parsed_config config private_key None e
  end.
End Initialise.

(** ** The retry sequence *)

(** The actions of [n] expirations in a row, and the peer after them. *)
Fixpoint retry_timeouts (n : nat) (peer : wg_peer) : list HandshakeRetryTimeoutAction * wg_peer :=
  match n with
  | O => ([], peer)
  | S n' =>
      let '(result, peer) := wg_peer_handle_handshake_retry_timeout peer in
      let '(actions, peer) := retry_timeouts n' peer in
      (tr_action result :: actions, peer)
  end.

(** What a sequence of [attempts] attempts answers to [n] expirations. *)
Fixpoint retry_schedule (retries n : nat) {struct n} : list HandshakeRetryTimeoutAction :=
  match n, retries with
  | O, _ => []
  | S n', S r => HandshakeRetryTimeoutAction_Retry :: retry_schedule r n'
  | S n', O => HandshakeRetryTimeoutAction_Exhausted :: replicate n' HandshakeRetryTimeoutAction_Ignore
  end.

Lemma timeouts_ignored n peer :
  rt_active (pr_handshake_retry peer) = false ->
  retry_timeouts n peer = (replicate n HandshakeRetryTimeoutAction_Ignore, peer).
Proof.
  intros E. induction n as [|n IH]; [done|]. cbn [retry_timeouts].
  unfold wg_peer_handle_handshake_retry_timeout. rewrite E. cbn [negb]. by rewrite IH.
Qed.

(** What giving up leaves behind. *)
Record retry_given_up (peer peer' : wg_peer) : Prop := {
  gu_inactive : rt_active (pr_handshake_retry peer') = false;
  gu_staged : Queue_Size (pr_staged_outbound_packets peer') = 0%nat;
  gu_last : pr_last_initiation peer' = initiation_init /\ pr_has_last_initiation peer' = false;
  gu_counted : rt_exhausted_sequence_count (pr_handshake_retry peer')
    = u32 (rt_exhausted_sequence_count (pr_handshake_retry peer) + 1);
  gu_session : pr_current_keypair peer' = pr_current_keypair peer /\
    pr_next_keypair peer' = pr_next_keypair peer /\ pr_previous_keypair peer' = pr_previous_keypair peer /\
    pr_static_identity peer' = pr_static_identity peer
}.

Lemma timeouts_schedule n r peer :
  rt_active (pr_handshake_retry peer) = true ->
  rt_send_attempts (pr_handshake_retry peer) = MaxSendAttempts - Z.of_nat r -> (r < 20)%nat ->
  fst (retry_timeouts n peer) = retry_schedule r n /\
  ((r < n)%nat -> retry_given_up peer (snd (retry_timeouts n peer))).
Proof.
  revert r peer. induction n as [|n IH]; intros r peer HA HS HR; [split; [done|lia]|].
  cbn [retry_timeouts]. unfold wg_peer_handle_handshake_retry_timeout. rewrite HA, HS. cbn [negb].
  change MaxSendAttempts with 20 in *. destruct r as [|r].
  - rewrite (proj2 (Z.ltb_ge _ _)) by lia. unfold wg_peer_clear_staged_outbound_packets, Queue_Clear.
    rewrite timeouts_ignored by done. split; [done|]. intros _. by split.
  - rewrite (proj2 (Z.ltb_lt _ _)) by lia.
    set (peer' := peer <| pr_handshake_retry ::= _ |>).
    destruct (IH r peer' HA) as [E G].
    + change (rt_send_attempts (pr_handshake_retry peer'))
        with (u32 (rt_send_attempts (pr_handshake_retry peer) + 1)).
      rewrite HS, wrap_id; [lia|]. unfold in_width. lia.
    + lia.
    + destruct (retry_timeouts n peer') as [actions peer'']. cbn [fst snd] in *.
      split; [by rewrite E|]. intros. destruct G; [lia|]. by split.
Qed.

(** A handshake retry sequence is bounded.  After a sequence begins, however
    the peer's retransmission timer expires, it answers with exactly 19 retries
    (20 initiations in all), then gives up once, dropping every staged packet and
    forgetting the last initiation while keeping the identity and the session
    keypairs, and from then on ignores the timer. *)
Theorem retry_sequence_bounded peer n :
  let '(actions, peer') := retry_timeouts n (wg_peer_begin_handshake_retry_sequence peer) in
  actions = retry_schedule 19 n /\
  ((19 < n)%nat -> retry_given_up peer peer').
Proof.
  destruct (timeouts_schedule n 19 (wg_peer_begin_handshake_retry_sequence peer)) as [E G];
    [done|done|lia|].
  destruct (retry_timeouts n _) as [actions peer']. cbn [fst snd] in *. split; [done|].
  intros HN. destruct (G HN). by split.
Qed.

(** ** Erasure *)

(** The peer holds no session key, no transcript and no packet. *)
Record session_erased (peer : wg_peer) : Prop := {
  er_current : pr_current_keypair peer = keypair_init;
  er_next : pr_next_keypair peer = keypair_init;
  er_previous : pr_previous_keypair peer = keypair_init;
  er_transcript : pr_handshake_material peer
    = material_init <| precomputed_static_static := precomputed_static_static (pr_handshake_material peer) |>;
  er_initiation : pr_last_initiation peer = initiation_init /\ pr_has_last_initiation peer = false;
  er_retry : rt_active (pr_handshake_retry peer) = false /\ rt_send_attempts (pr_handshake_retry peer) = 0;
  er_staged : Queue_Size (pr_staged_outbound_packets peer) = 0%nat /\
    forall i, record_at (q_records (pr_staged_outbound_packets peer)) i = record_init
}.

Lemma cleared_queue_wiped d q :
  queue_wf PeerStagedPacketCapacity q ->
  forall i, record_at (q_records (snd (Queue_Clear PeerStagedPacketCapacity d q))) i = record_init.
Proof.
  intros HQ i. destruct (clear_contents PeerStagedPacketCapacity d q HQ) as (_ & _ & HW).
  apply (wf_wiped _ _ HW). intros j. cbn. lia.
Qed.

(** Erasing key material.  Both operations leave a peer without session
    keypairs, without any ephemeral, chaining or transcript secret, without the
    last initiation and without staged packets (their bytes are wiped); both keep
    the configured identity and the static-static secret.  Scrubbing also forgets
    the cookie, zeroing restarts the handshake record. *)
Theorem key_material_erased peer w
    (HQ : queue_wf PeerStagedPacketCapacity (pr_staged_outbound_packets peer)) :
  let zeroed := fst (wg_peer_zero_key_material peer w) in
  let scrubbed := wg_peer_scrub_transient_state peer in
  session_erased zeroed /\ session_erased scrubbed /\
  pr_static_identity zeroed = pr_static_identity peer /\
  pr_static_identity scrubbed = pr_static_identity peer /\
  precomputed_static_static (pr_handshake_material zeroed)
  = precomputed_static_static (pr_handshake_material peer) /\
  precomputed_static_static (pr_handshake_material scrubbed)
  = precomputed_static_static (pr_handshake_material peer) /\
  pr_cookie zeroed = pr_cookie peer /\ pr_cookie scrubbed = cookie_init /\
  pr_handshake zeroed = fst (noise_handshake_init w) /\ pr_handshake_retry scrubbed = retry_init.
Proof.
  pose proof (cleared_queue_wiped QueueDisposition_Cleared _ HQ) as HW.
  split_and!; try done; split; try done; split; done.
Qed.

(** ** Configuration *)

Section Configure.
Context {P : Primitives}.

(** The keys a configuration entry denotes; a preshared key is optional. *)
Record config_keys (config : PeerConfigEntry) (private_key public_key : noise_key)
    (psk : option noise_key) : Prop := {
  ky_private : noise_parse_private_key (c_string (cf_private_key config)) = Some private_key;
  ky_public : noise_parse_public_key (c_string (cf_public_key config)) = Some public_key;
  ky_psk : match psk with
           | None => byte_at (cf_preshared_key config) 0 = 0
           | Some k => byte_at (cf_preshared_key config) 0 <> 0 /\
                       noise_parse_preshared_key (c_string (cf_preshared_key config)) = Some k
           end;
  ky_secret : is_Some (x25519 (key_bytes private_key) (key_bytes public_key))
}.

(** The peer such an entry describes. *)
Definition configured_peer (config : PeerConfigEntry) (private_key public_key : noise_key)
    (psk : option noise_key) (w : World) : wg_peer :=
  peer_init
    <| pr_name := print_name (c_string (cf_name config)) |>
    <| pr_persistent_keepalive_interval := cf_persistent_keepalive config |>
    <| pr_has_preshared_key := bool_decide (is_Some psk) |>
    <| pr_static_identity :=
         mk_identity private_key (mk_key (crypto_x25519_public_key (key_bytes private_key)) true)
           public_key (default key_init psk) |>
    <| pr_handshake_material ::= fun m => m <| precomputed_static_static :=
         mk_key (crypto_x25519 (key_bytes private_key) (key_bytes public_key)) true |> |>
    <| pr_handshake := fst (noise_handshake_init w) |>.

Lemma IsAllZero_forallb data : IsAllZero data = forallb (fun b => b =? 0) data.
Proof.
  unfold IsAllZero. assert (forall acc, (foldl Z.lor acc data =? 0) = (acc =? 0) && forallb (fun b => b =? 0) data) as H.
  { induction data as [|b data IH]; intros acc; simpl; [by rewrite andb_true_r|].
    rewrite IH, andb_assoc. f_equal. apply eq_true_iff_eq.
    rewrite andb_true_iff, !Z.eqb_eq. apply Z.lor_eq_0_iff. }
  apply H.
Qed.

Lemma x25519_value scalar point s :
  x25519 scalar point = Some s -> s = crypto_x25519 scalar point /\ IsAllZero s = false.
Proof.
  unfold x25519. rewrite <- IsAllZero_forallb. case_if; [done|]. by intros [= <-].
Qed.

Lemma configured_run config private_key public_key psk e :
  config_keys config private_key public_key psk ->
  wg_device_init_from_config_entry config e
  = (true, mk_env (snd (noise_handshake_init (ev_world e)))
       (device_init <| dv_peer := configured_peer config private_key public_key psk (ev_world e) |>
                    <| dv_has_peer := true |>)).
Proof.
  intros [H1 H2 H3 [s HS] ]. unfold wg_device_init_from_config_entry. rewrite H1.
  destruct (noise_parse_private_key_ok _ _ H1) as [_ V1].
  destruct (noise_parse_public_key_ok _ _ H2) as [_ V2].
  destruct (x25519_value _ _ _ HS) as [ES ZS].
  assert (forall pskv, (pskv = psk /\ forall k, psk = Some k -> key_valid k = true) ->
    wg_device_init_from_parsed_config config private_key pskv e
    = (true, mk_env (snd (noise_handshake_init (ev_world e)))
         (device_init <| dv_peer := configured_peer config private_key public_key psk (ev_world e) |>
                      <| dv_has_peer := true |>))) as HRun.
  { intros pskv [-> HV]. unfold wg_device_init_from_parsed_config. rewrite V1. cbn [negb].
    unfold wg_peer_initialize. cbn [pv_name pv_local_private_key pv_remote_public_key pv_preshared_key
      pv_persistent_keepalive_interval default].
    destruct (noise_handshake_init (ev_world e)) as [hs w] eqn:EH.
    unfold noise_static_identity_init_from_keys. rewrite V1. cbn [negb].
    unfold noise_derive_public_key. cbn [static_private key_valid negb key_bytes upd].
    unfold x25519_public_key. cbn [mbind option_bind]. unfold default, id. rewrite H2.
    destruct private_key as [pb pv], public_key as [rb rv]. cbn in V1, V2, ES, ZS, HS. subst pv rv s.
    destruct psk as [k|].
    - specialize (HV k eq_refl). rewrite HV. destruct k as [kb kv]. cbn in HV. subst kv.
      unfold noise_precompute_static_static. cbn. rewrite HS, ZS. unfold configured_peer. rewrite EH.
      reflexivity.
    - unfold noise_precompute_static_static. cbn. rewrite HS, ZS. unfold configured_peer. rewrite EH.
      reflexivity. }
  destruct psk as [k|].
  - destruct H3 as [N H3]. rewrite (proj2 (Z.eqb_neq _ _)) by done. cbn [negb]. rewrite H3.
    apply HRun. split; [done|]. intros ? [= <-]. by apply (noise_parse_preshared_key_ok _ _ H3).
  - rewrite H3, Z.eqb_refl. cbn [negb]. by apply HRun.
Qed.

(** Any other entry is refused. *)
Definition init_refused (config : PeerConfigEntry) (e : Env) : Prop :=
  exists w device, wg_device_init_from_config_entry config e = (false, mk_env w device) /\
    (device = ev_device e \/ device = device_init).

Lemma parsed_config_cases config private_key psk e :
  key_valid private_key = true ->
  (exists public_key, noise_parse_public_key (c_string (cf_public_key config)) = Some public_key /\
     is_Some (x25519 (key_bytes private_key) (key_bytes public_key))) \/
  exists w, wg_device_init_from_parsed_config config private_key psk e = (false, mk_env w device_init).
Proof.
  intros V1. unfold wg_device_init_from_parsed_config. rewrite V1. cbn [negb].
  unfold wg_peer_initialize. cbn [pv_name pv_local_private_key pv_remote_public_key pv_preshared_key
    pv_persistent_keepalive_interval default].
  destruct (noise_handshake_init (ev_world e)) as [hs w].
  unfold noise_static_identity_init_from_keys. rewrite V1. cbn [negb].
  unfold noise_derive_public_key. cbn [static_private key_valid negb key_bytes upd].
  unfold x25519_public_key. cbn [mbind option_bind]. unfold default, id.
  destruct (noise_parse_public_key _) as [public_key|] eqn:H2.
  2: { right. eexists. reflexivity. }
  destruct (x25519 (key_bytes private_key) (key_bytes public_key)) as [s|] eqn:HS.
  { left. exists public_key. split; [done|]. by rewrite HS. }
  destruct (noise_parse_public_key_ok _ _ H2) as [_ V2].
  destruct private_key as [pb pv], public_key as [rb rv]. cbn in V1, V2, HS. subst pv rv.
  unfold noise_precompute_static_static.
  right. destruct psk as [ [kb []]|]; cbn; rewrite HS; eexists; reflexivity.
Qed.

Lemma init_cases config e :
  (exists private_key public_key psk, config_keys config private_key public_key psk) \/ init_refused config e.
Proof.
  unfold init_refused, wg_device_init_from_config_entry.
  destruct (noise_parse_private_key _) as [private_key|] eqn:H1; [|right; destruct e; eauto].
  destruct (noise_parse_private_key_ok _ _ H1) as [_ V1].
  destruct (Z.eqb_spec (byte_at (cf_preshared_key config) 0) 0) as [E|N]; cbn [negb].
  - destruct (parsed_config_cases config private_key None e V1) as [(rk & H2 & HS)|(w & EI)]; [left|right; eauto].
    by exists private_key, rk, None.
  - destruct (noise_parse_preshared_key _) as [psk|] eqn:H3; [|right; destruct e; eauto].
    destruct (parsed_config_cases config private_key (Some psk) e V1) as [(rk & H2 & HS)|(w & EI)];
      [left|right; eauto].
    by exists private_key, rk, (Some psk).
Qed.

(** Configuring a device.  The configuration entry is accepted exactly when
    its private key parses and is not all zero, its preshared key is empty or
    parses, its public key parses, and the Diffie-Hellman secret of the two is not
    all zero.  Then the device holds exactly one peer, with those keys, the
    precomputed secret, an idle handshake, no keypairs, an empty registry and an
    empty queue; otherwise the device is as before or empty. *)
Theorem device_init_exact config e :
  let '(ok, e') := wg_device_init_from_config_entry config e in
  (ok = true <-> exists private_key public_key psk, config_keys config private_key public_key psk) /\
  (forall private_key public_key psk, config_keys config private_key public_key psk ->
     ev_device e' = device_init <| dv_peer := configured_peer config private_key public_key psk (ev_world e) |>
                                <| dv_has_peer := true |>) /\
  (ok = false -> ev_device e' = ev_device e \/ ev_device e' = device_init).
Proof.
  destruct (init_cases config e) as [(pk & rk & psk & HK)|(w & device & E & HD)].
  - rewrite (configured_run config pk rk psk e HK). split; [|split; [|done]].
    + split; [|done]. intros _. eauto.
    + intros pk' rk' psk' HK'. pose proof (configured_run config pk' rk' psk' e HK') as E'.
      rewrite (configured_run config pk rk psk e HK) in E'. exact (f_equal (fun r => ev_device (snd r)) E').
  - rewrite E. split; [|split; [|done]].
    + split; [done|]. intros (pk & rk & psk & HK). by rewrite (configured_run config pk rk psk e HK) in E.
    + intros pk rk psk HK. by rewrite (configured_run config pk rk psk e HK) in E.
Qed.
End Configure.

(** ** Witnesses *)

Lemma key_material_erased_witness :
  session_erased (wg_peer_scrub_transient_state peer_init) /\
  session_erased (fst (wg_peer_zero_key_material peer_init (sample_world 5 1 2))).
Proof.
  destruct (key_material_erased peer_init (sample_world 5 1 2)) as (H1 & H2 & _).
  - apply queue_init_wf. unfold PeerStagedPacketCapacity. lia.
  - by split.
Defined.
