(* ===== verification/Tunnel.v ===== *)
(** * From configuration to traffic

    The composition of the components: two devices configured for each other run
    a handshake and exchange transport packets. *)

From S2P Require Import Prelude Messages Replay PacketQueue Platform Session Base64 Timers Crypto Device.
From S2P Require Import Data Identity Noise Macs Handshake Agreement Exchange Peer.
Local Open Scope Z_scope.

Section Tunnel.
Context {P : Primitives} {L : PrimitivesLaws P}.

(** Services that work: entropy is bytes, clocks do not go below zero. *)
Definition services_ok (e : Env) : Prop :=
  world_ok (ev_world e) /\ forall i, 0 <= w_monotonic (ev_world e) i.

Lemma configured_ready config a b psk e :
  services_ok e ->
  config_keys config (mk_key a true) (mk_key (crypto_x25519_public_key b) true) psk ->
  exists e', wg_device_init_from_config_entry config e = (true, e') /\
    ready_peer e' a b (key_bytes (default key_init psk)) /\
    keypairs_registered (ev_device e') /\
    keypair_IsValid (pr_current_keypair (the_peer e')) = false /\
    hk_has_last_initiation_timestamp (pr_handshake (the_peer e')) = false /\
    hk_last_initiation_consumption (pr_handshake (the_peer e')) = 0.
Proof.
  intros [HW HC] HK. rewrite (configured_run config _ _ _ e HK). eexists. split; [reflexivity|].
  split; [|split].
  - split; try done.
    + by apply (GetMonotonicTime_world (ev_world e)).
    + apply bytes_of_zeros.
  - intros slot k Ek HV. by destruct slot; cbn in Ek; simplify_eq.
  - by split_and!.
Qed.

(** Two entries that denote each other's keys. *)
Definition matching_configs (ca cb : PeerConfigEntry) (a b : bytes) (psk : option noise_key) : Prop :=
  config_keys ca (mk_key a true) (mk_key (crypto_x25519_public_key b) true) psk /\
  config_keys cb (mk_key b true) (mk_key (crypto_x25519_public_key a) true) psk.

(** What is sent on the fresh session, and delivered at the other end. *)
Definition first_packet_delivered (ea eb : Env) : Prop :=
  forall (payload buffer out : bytes) (mtu : Z),
    bytes_ok payload -> is_u64 mtu -> Z.of_nat (length buffer) < 2 ^ 64 -> fits buffer payload mtu ->
    (length (padded_payload payload mtu) <= length out)%nat ->
    keypair_CanSendAt (clock (ev_world ea)) (pr_current_keypair (the_peer ea)) = true ->
    keypair_CanReceiveAt (clock (ev_world eb)) (pr_next_keypair (the_peer eb)) = true ->
    let '(r, packet, a, _) :=
      noise_create_transport_data_packet buffer (pr_current_keypair (the_peer ea)) payload mtu (ev_world ea) in
    let '(error, delivered, result, eb') :=
      noise_consume_incoming_transport_data_packet (take (Z.to_nat (tc_packet_size r)) packet) out eb in
    tc_error r = TransportDataError_None /\ error = TransportDataError_None /\
    take (dr_payload_size (in_decrypt result)) delivered = padded_payload payload mtu /\
    in_promoted_next_keypair result = true /\
    pr_previous_keypair (the_peer eb') = pr_current_keypair (the_peer eb) /\
    linked a (pr_current_keypair (the_peer eb')).

Lemma agreed_delivers eb0 ea eb : session_agreed eb0 ea eb -> first_packet_delivered ea eb.
Proof.
  intros [HL _ [HCa HCb] [HWa HWb] [_ HS] _ _ _ HD] payload buffer out mtu HB Hm HO HF HRoom HSend HRecv.
  pose proof (create_spec buffer (pr_current_keypair (the_peer ea)) payload mtu (ev_world ea)
                (ln_ok_a _ _ HL) HB Hm HO) as HC.
  unfold clock in *. destruct (GetMonotonicTime (ev_world ea)) as [now w']. cbn [fst] in HSend.
  unfold keypair_CanSendAt in HSend. bool_prop. cbv zeta in HC.
  rewrite decide_True in HC by done. rewrite decide_True in HC by done. rewrite HC.
  cbn [tc_error tc_packet_size]. rewrite Nat2Z.id.
  rewrite take_app_length' by (symmetry; apply length_required; [apply HL|done]).
  destruct (first_packet_confirms eb _ payload mtu out HL HB HS HD HCa HWb HRecv HRoom)
    as (result & eb' & -> & E1 & E2 & _ & E3 & HL').
  split_and!; try done; [by rewrite E2, take_app_length|].
  destruct HL' as [(K1 & K2 & K3 & K4 & K5) HLb VA VB L1 L2 L3 L4]. split; try done.
  refine (conj K1 (conj K2 (conj K3 (conj K4 _)))). cbn. rewrite HCa. unfold in_width. lia.
Qed.

(** C1. A configured tunnel carries traffic.  Take two configuration entries that
    denote each other's keys and the same preshared key (or none), on two devices
    with working clocks and entropy whose first receiver indices differ.  Both
    devices initialise; the handshake between them succeeds with keypairs that
    match; and while these keypairs are alive, any payload that fits is sealed by
    the initiator, accepted by the responder, delivered with its zero padding, and
    confirms the session: the responder's next keypair becomes its current one,
    still matching the initiator's, and the one it used before becomes previous. *)
Theorem tunnel_end_to_end ca cb ea eb a b psk
    (HM : matching_configs ca cb a b psk) (Hsa : services_ok ea) (Hsb : services_ok eb)
    (Ha : bytes_of 32 a) (Hb : bytes_of 32 b)
    (HI : fst (wg_device_allocate_index (snd (wg_device_init_from_config_entry cb eb)))
          <> fst (wg_device_allocate_index (snd (wg_device_init_from_config_entry ca ea)))) :
  exists ea1 eb1 ea2 eb2,
    wg_device_init_from_config_entry ca ea = (true, ea1) /\
    wg_device_init_from_config_entry cb eb = (true, eb1) /\
    handshake_run ea1 eb1 = Some (ea2, eb2) /\
    session_agreed eb1 ea2 eb2 /\
    first_packet_delivered ea2 eb2.
Proof.
  destruct HM as [HKa HKb].
  destruct (configured_ready ca a b psk ea Hsa HKa) as (ea1 & E1 & R1 & _ & V1 & _).
  destruct (configured_ready cb b a psk eb Hsb HKb) as (eb1 & E2 & R2 & G2 & _ & T2 & C2).
  rewrite E1, E2 in HI. cbn [snd] in HI.
  destruct (handshake_agrees ea1 eb1 a b (key_bytes (default key_init psk))) as (ea2 & eb2 & ER & HAg).
  { split; try done.
    - unfold not_replayed. by rewrite T2.
    - unfold not_flooded. by rewrite C2.
    - rewrite V1. done. }
  exists ea1, eb1, ea2, eb2. split_and!; try done. by apply (agreed_delivers eb1).
Qed.
End Tunnel.

(** ** Two concrete entries *)

Definition text_of (k : bytes) : bytes := encoded_text k ++ [0].
(** Keys that clamping leaves alone. *)
Definition clamped_a : bytes := ClampX25519PrivateKey (seqZ 1 32).
Definition clamped_b : bytes := ClampX25519PrivateKey (seqZ 101 32).
Definition sample_config {P : Primitives} (own other : bytes) : PeerConfigEntry :=
  mk_config_entry (chars "peer" ++ [0]) (chars "10.0.0.2/32" ++ [0]) (chars "192.0.2.1:51820" ++ [0])
    (text_of own) [0] (text_of (crypto_x25519_public_key other)) [0] (chars "0.0.0.0/0" ++ [0])
    0 25 0 0 false.

Lemma sample_config_keys (own other : bytes) :
  noise_parse_private_key (c_string (text_of own)) = Some (mk_key own true) ->
  noise_parse_public_key (c_string (text_of (@crypto_x25519_public_key toy_primitives other)))
  = Some (mk_key (@crypto_x25519_public_key toy_primitives other) true) ->
  bool_decide (is_Some (@x25519 toy_primitives own (@crypto_x25519_public_key toy_primitives other))) = true ->
  @config_keys toy_primitives (@sample_config toy_primitives own other) (mk_key own true)
    (mk_key (@crypto_x25519_public_key toy_primitives other) true) None.
Proof. intros H1 H2 H3. split; [exact H1|exact H2|reflexivity|]. by apply bool_decide_eq_true_1 in H3. Qed.

Definition idle_env (seed : Z) : Env := mk_env (sample_world 1000 10 seed) device_init.
Lemma idle_services seed : services_ok (idle_env seed).
Proof. split; [apply sample_world_ok|]. intros i. cbn. lia. Qed.

Lemma tunnel_end_to_end_witness :
  exists ea2 eb2, session_agreed
    (snd (@wg_device_init_from_config_entry toy_primitives (@sample_config toy_primitives clamped_b clamped_a)
            (idle_env 77))) ea2 eb2.
Proof.
  destruct (@tunnel_end_to_end toy_primitives toy_laws (@sample_config toy_primitives clamped_a clamped_b)
    (@sample_config toy_primitives clamped_b clamped_a) (idle_env 9) (idle_env 77) clamped_a clamped_b None)
    as (ea1 & eb1 & ea2 & eb2 & _ & E2 & _ & HAg & _).
  - split; apply sample_config_keys; vm_compute; reflexivity.
  - apply idle_services.
  - apply idle_services.
  - apply (bool_decide_unpack _). vm_compute. exact I.
  - apply (bool_decide_unpack _). vm_compute. exact I.
  - vm_compute. discriminate.
  - exists ea2, eb2. rewrite E2. exact HAg.
Defined.
