(* ===== verification/PeerController.v ===== *)
(** * The peer controller

    Models [wireguard/peer_controller.hpp] and [wireguard/peer_controller.cpp]:
    the decisions on staged packets and on handshakes.  A handler that takes the
    device and its peer is a computation on the environment. *)

From S2P Require Import Prelude Messages PacketQueue Platform Session Timers Crypto Device.
From S2P Require Import Data Identity Noise Macs Handshake Agreement Exchange Peer.
Local Open Scope Z_scope.

(** ** Types *)

Inductive OutboundSendOutcomeKind :=
  | OutboundSendOutcomeKind_Sent
  | OutboundSendOutcomeKind_KeyUnavailable
  | OutboundSendOutcomeKind_BuildFatal
  | OutboundSendOutcomeKind_TransportDropped
  | OutboundSendOutcomeKind_TransportFatal.

Record OutboundSendOutcome := mk_outcome {
  so_kind : OutboundSendOutcomeKind;
  so_build_error : TransportDataError
}.

Definition Outcome_Sent : OutboundSendOutcome :=
  mk_outcome OutboundSendOutcomeKind_Sent TransportDataError_None.
Definition Outcome_BuildFailed (error : TransportDataError) : OutboundSendOutcome :=
  let key_unavailable := bool_decide (error = TransportDataError_InvalidKeypair)
    || bool_decide (error = TransportDataError_KeyExpired)
    || bool_decide (error = TransportDataError_CounterExhausted) in
  mk_outcome (if key_unavailable then OutboundSendOutcomeKind_KeyUnavailable
              else OutboundSendOutcomeKind_BuildFatal) error.
Definition Outcome_TransportDropped : OutboundSendOutcome :=
  mk_outcome OutboundSendOutcomeKind_TransportDropped TransportDataError_None.
Definition Outcome_TransportFatal : OutboundSendOutcome :=
  mk_outcome OutboundSendOutcomeKind_TransportFatal TransportDataError_None.

Inductive StagedPacketAction :=
  | StagedPacketAction_Continue
  | StagedPacketAction_InitiateHandshake
  | StagedPacketAction_StopOnTerminalFailure.

Record StagedPacketTransition := mk_staged {
  sg_action : StagedPacketAction;
  sg_retired : bool;
  sg_disposition : QueueDisposition;
  sg_remaining : nat
}.

Inductive HandshakeTransitionAction :=
  | HandshakeTransitionAction_Ignore
  | HandshakeTransitionAction_SendInitiation
  | HandshakeTransitionAction_Exhausted
  | HandshakeTransitionAction_Fatal.
#[export] Instance HandshakeTransitionAction_eq_dec : EqDecision HandshakeTransitionAction.
Proof. solve_decision. Defined.

Record HandshakeTransition := mk_transition {
  ht_action : HandshakeTransitionAction;
  ht_dropped_staged_packets : nat
}.
Definition transition (action : HandshakeTransitionAction) : HandshakeTransition := mk_transition action 0.

(** ** Staged packets *)

Definition ApplyStagedSendOutcome (outcome : OutboundSendOutcome) (peer : wg_peer)
    : StagedPacketTransition * wg_peer :=
  let '(action, retire, disposition) :=
    match so_kind outcome with
    | OutboundSendOutcomeKind_Sent => (StagedPacketAction_Continue, true, QueueDisposition_Sent)
    | OutboundSendOutcomeKind_KeyUnavailable =>
        (StagedPacketAction_InitiateHandshake, false, QueueDisposition_Sent)
    | OutboundSendOutcomeKind_TransportDropped =>
        (StagedPacketAction_Continue, true, QueueDisposition_SendFailed)
    | OutboundSendOutcomeKind_BuildFatal | OutboundSendOutcomeKind_TransportFatal =>
        (StagedPacketAction_StopOnTerminalFailure, false, QueueDisposition_Sent)
    end in
  let peer :=
    if (retire : bool) then
      peer <| pr_staged_outbound_packets ::= fun q =>
        snd (Queue_Pop PeerStagedPacketCapacity disposition q) |>
    else peer in
  (mk_staged action retire disposition (Queue_Size (pr_staged_outbound_packets peer)), peer).

Section Controller.
Context {P : Primitives}.

(** ** Handshakes *)

(** The initiation is written straight into [peer.last_initiation]. *)
Definition PrepareFreshInitiation (begin_sequence : bool) (e : Env) : HandshakeTransition * Env :=
  let '(created, s) :=
    run_bool wg_device_create_handshake_initiation (mk_writing e (pr_last_initiation (the_peer e))) in
  let e := on_peer (fun p => p <| pr_last_initiation := wd_dst s |>) (wd_env s) in
  if negb created then (transition HandshakeTransitionAction_Fatal, e)
  else
    let e := if begin_sequence then on_peer wg_peer_begin_handshake_retry_sequence e else e in
    (transition HandshakeTransitionAction_SendInitiation, e).

Definition StartHandshake (e : Env) : HandshakeTransition * Env :=
  if rt_active (pr_handshake_retry (the_peer e)) && th_pending (retransmit_handshake (pr_timers (the_peer e)))
  then (transition HandshakeTransitionAction_Ignore, e)
  else PrepareFreshInitiation true e.

Definition HandleHandshakeRetryTimer (e : Env) : HandshakeTransition * Env :=
  let '(timeout, peer) := wg_peer_handle_handshake_retry_timeout (the_peer e) in
  let e := on_peer (fun _ => peer) e in
  match tr_action timeout with
  | HandshakeRetryTimeoutAction_Ignore => (transition HandshakeTransitionAction_Ignore, e)
  | HandshakeRetryTimeoutAction_Exhausted =>
      (mk_transition HandshakeTransitionAction_Exhausted (tr_dropped_staged_packets timeout), e)
  | HandshakeRetryTimeoutAction_Retry => PrepareFreshInitiation false e
  end.

Definition CompleteSession (e : Env) : bool * Env :=
  let '(begun, e) := run_bool noise_handshake_begin_session e in
  if negb begun then (false, e) else (true, on_peer wg_peer_complete_handshake_retry_sequence e).

Definition DeriveResponderSession (e : Env) : bool * Env := run_bool noise_handshake_begin_session e.

Definition ConfirmResponderSession : Env -> Env := on_peer wg_peer_complete_handshake_retry_sequence.
End Controller.

Section Facts.
Context {P : Primitives} {L : PrimitivesLaws P}.

Lemma on_peer_const e : on_peer (fun _ => the_peer e) e = e.
Proof. by apply on_peer_same. Qed.

Lemma prepare_spec begin_sequence e own other psk :
  bytes_of 32 own -> bytes_of 32 other -> ready_peer e own other psk ->
  exists e' m eph ck h,
    PrepareFreshInitiation begin_sequence e
    = (transition HandshakeTransitionAction_SendInitiation,
       if begin_sequence then on_peer wg_peer_begin_handshake_retry_sequence e' else e') /\
    initiation_sent e e' m own other psk eph ck h.
Proof.
  intros Hown Hother HP.
  destruct (device_initiation_spec e (pr_last_initiation (the_peer e)) own other psk Hown Hother HP)
    as (e' & m & eph & ck & h & ER & HS).
  exists e', m, eph, ck, h. split; [|done]. unfold PrepareFreshInitiation, run_bool. rewrite ER.
  cbn [wd_env wd_dst negb].
  rewrite (on_peer_same (fun p => p <| pr_last_initiation := m |>)); [done|].
  destruct (is_last _ _ _ _ _ _ _ _ _ HS) as [<- _]. by destruct (the_peer e').
Qed.

(** Expirations of the retransmission timer in a row. *)
Fixpoint retry_timer_run (n : nat) (e : Env) : list HandshakeTransitionAction * Env :=
  match n with
  | O => ([], e)
  | S n' =>
      let '(t, e) := HandleHandshakeRetryTimer e in
      let '(actions, e) := retry_timer_run n' e in
      (ht_action t :: actions, e)
  end.

Fixpoint initiation_schedule (retries n : nat) {struct n} : list HandshakeTransitionAction :=
  match n, retries with
  | O, _ => []
  | S n', S r => HandshakeTransitionAction_SendInitiation :: initiation_schedule r n'
  | S n', O => HandshakeTransitionAction_Exhausted :: replicate n' HandshakeTransitionAction_Ignore
  end.

(** The peer holds an initiation that its counterpart can read. *)
Definition initiation_pending (e : Env) (own other psk : bytes) : Prop :=
  pr_has_last_initiation (the_peer e) = true /\ initiation_ok (pr_last_initiation (the_peer e)) /\
  hk_state (pr_handshake (the_peer e)) = HandshakeState_InitiationCreated /\
  wg_device_index_matches_slot (ev_device e) wg_index_slot_Handshake
    (hi_sender_index (pr_last_initiation (the_peer e))) = true /\
  forall B sB, configured B sB other own psk ->
    is_Some (read_initiation (pr_last_initiation (the_peer e)) B sB).

Lemma initiation_sent_pending e e' m own other psk eph ck h :
  initiation_sent e e' m own other psk eph ck h -> initiation_pending e' own other psk.
Proof.
  intros HS. destruct (is_last _ _ _ _ _ _ _ _ _ HS) as [E1 E2]. unfold initiation_pending. rewrite E1.
  destruct HS as [I1 I2 I3 I4 I5 I6 I7 I8 I9 I10 I11 I12 I13 I14 I15 I16 I17 I18 _ _ _]. split_and!; try done.
  intros B sB HB. by rewrite (I7 B sB HB).
Qed.

(** Giving up leaves no initiation and no staged packet. *)
Definition given_up (e : Env) : Prop :=
  rt_active (pr_handshake_retry (the_peer e)) = false /\
  pr_has_last_initiation (the_peer e) = false /\
  Queue_Size (pr_staged_outbound_packets (the_peer e)) = 0%nat.

Lemma retry_timer_ignored n e :
  rt_active (pr_handshake_retry (the_peer e)) = false ->
  retry_timer_run n e = (replicate n HandshakeTransitionAction_Ignore, e).
Proof.
  intros E. induction n as [|n IH]; [done|]. cbn [retry_timer_run].
  unfold HandleHandshakeRetryTimer, wg_peer_handle_handshake_retry_timeout. rewrite E. cbn [negb tr_action].
  rewrite on_peer_const. cbn [timeout_ignored tr_action]. by rewrite IH.
Qed.

Lemma retry_timer_schedule n r e own other psk :
  bytes_of 32 own -> bytes_of 32 other -> ready_peer e own other psk -> initiation_pending e own other psk ->
  rt_active (pr_handshake_retry (the_peer e)) = true ->
  rt_send_attempts (pr_handshake_retry (the_peer e)) = MaxSendAttempts - Z.of_nat r -> (r < 20)%nat ->
  let '(actions, e') := retry_timer_run n e in
  actions = initiation_schedule r n /\ ready_peer e' own other psk /\
  ((n <= r)%nat -> initiation_pending e' own other psk) /\ ((r < n)%nat -> given_up e').
Proof.
  intros Hown Hother. revert r e. induction n as [|n IH]; intros r e HP HI HA HS HR.
  { split_and!; try done. lia. }
  cbn [retry_timer_run]. unfold HandleHandshakeRetryTimer, wg_peer_handle_handshake_retry_timeout.
  rewrite HA, HS. cbn [negb]. change MaxSendAttempts with 20 in *. destruct r as [|r].
  - rewrite (proj2 (Z.ltb_ge _ _)) by lia. unfold wg_peer_clear_staged_outbound_packets, Queue_Clear.
    cbn [tr_action]. rewrite retry_timer_ignored by done.
    split; [done|]. split; [by destruct HP|]. split; [lia|done].
  - rewrite (proj2 (Z.ltb_lt _ _)) by lia. cbn [tr_action].
    set (e1 := on_peer (fun _ => _) e).
    assert (ready_peer e1 own other psk) as HP1 by by destruct HP.
    destruct (prepare_spec false e1 own other psk Hown Hother HP1) as (e2 & m & eph & ck & h & -> & HSent).
    destruct (is_kept _ _ _ _ _ _ _ _ _ HSent) as (_ & _ & ERt & _).
    specialize (IH r e2). destruct (retry_timer_run n e2) as [actions e'].
    destruct IH as (E & HP' & HL & HG).
    + by apply (initiation_sent_ready e1 _ m _ _ _ eph ck h).
    + by apply (initiation_sent_pending e1 _ m _ _ _ eph ck h).
    + by rewrite ERt.
    + rewrite ERt. change (rt_send_attempts (pr_handshake_retry (the_peer e1)))
        with (u32 (rt_send_attempts (pr_handshake_retry (the_peer e)) + 1)).
      rewrite HS, wrap_id; [lia|]. unfold in_width. lia.
    + lia.
    + cbn [ht_action transition]. split; [by rewrite E|]. split; [done|]. split; intros; [apply HL|apply HG]; lia.
Qed.

(** C14. Initiating a session.  On a configured device whose retransmission timer
    is not already running, [StartHandshake] sends an initiation; however the
    timer then expires, 19 more initiations follow, then the attempt is given up
    once (no staged packet and no initiation are kept), and later expirations are
    ignored.  At every moment before that the last initiation is well formed, its
    index is the registered one, and the counterpart can read it; creating one
    never fails. *)
Theorem initiation_attempts e own other psk n
    (Hown : bytes_of 32 own) (Hother : bytes_of 32 other) (HP : ready_peer e own other psk)
    (HI : rt_active (pr_handshake_retry (the_peer e))
          && th_pending (retransmit_handshake (pr_timers (the_peer e))) = false) :
  let '(first, e1) := StartHandshake e in
  let '(actions, e2) := retry_timer_run n e1 in
  ht_action first = HandshakeTransitionAction_SendInitiation /\
  actions = initiation_schedule 19 n /\ ready_peer e2 own other psk /\
  ((n <= 19)%nat -> initiation_pending e2 own other psk) /\ ((19 < n)%nat -> given_up e2).
Proof.
  unfold StartHandshake. rewrite HI.
  destruct (prepare_spec true e own other psk Hown Hother HP) as (e' & m & eph & ck & h & -> & HS).
  set (e1 := on_peer wg_peer_begin_handshake_retry_sequence e').
  assert (ready_peer e1 own other psk) as HP1
    by by destruct (initiation_sent_ready e e' m _ _ _ eph ck h HS HP).
  pose proof (retry_timer_schedule n 19 e1 own other psk Hown Hother HP1
    (initiation_sent_pending e e' m _ _ _ eph ck h HS) eq_refl eq_refl ltac:(lia)) as HR.
  destruct (retry_timer_run n e1) as [actions e2]. by split.
Qed.

(** What leaves the staging queue on each outcome: the packet at its head, when
    the transport took it or dropped it. *)
Definition outcome_retires (kind : OutboundSendOutcomeKind) : option QueueDisposition :=
  match kind with
  | OutboundSendOutcomeKind_Sent => Some QueueDisposition_Sent
  | OutboundSendOutcomeKind_TransportDropped => Some QueueDisposition_SendFailed
  | _ => None
  end.
Definition outcome_action (kind : OutboundSendOutcomeKind) : StagedPacketAction :=
  match kind with
  | OutboundSendOutcomeKind_Sent | OutboundSendOutcomeKind_TransportDropped => StagedPacketAction_Continue
  | OutboundSendOutcomeKind_KeyUnavailable => StagedPacketAction_InitiateHandshake
  | _ => StagedPacketAction_StopOnTerminalFailure
  end.


(** ** Completing a session *)

Lemma begin_session_inv e :
  let '(ok, e') := run_bool noise_handshake_begin_session e in
  if ok then may_begin e /\ exists k, keypair_IsValid k = true /\ e' = session_begun e k
  else ev_device e' = ev_device e.
Proof.
  unfold run_bool, noise_handshake_begin_session. rewrite bind_gets. change (id e) with e.
  rewrite bind_require. change (bool_decide (hk_state _ = HandshakeState_ResponseReceived)) with (is_initiator e).
  destruct (bool_decide _ || is_initiator e) eqn:EB; [|done].
  rewrite bind_require. destruct (key_valid _); [|done]. rewrite bind_try_opt.
  destruct (DeriveSessionKeys (ck_of e)) as [ [first second]|]; [|done].
  assert (may_begin e) as HM.
  { apply orb_true_iff in EB. unfold is_initiator in EB. by rewrite !bool_decide_eq_true in EB. }
  unfold session_begun.
  change (is_initiator (e <| ev_world := snd (GetMonotonicTime (ev_world e)) |>)) with (is_initiator e).
  destruct (is_initiator e); rewrite bind_step_with, bind_require;
    match goal with |- context [keypair_IsValid ?k] => destruct (keypair_IsValid k) eqn:EV; [|done] end;
    rewrite !bind_modify; (split; [done|]); eexists; by split.
Qed.

(** C17. Completing a session.  [CompleteSession] succeeds only on a peer that
    created or received a response; then a valid keypair is installed (current for
    the initiator, next for the responder), the registry routes exactly the valid
    keypairs, the transcript is erased, and the retry sequence is over: no
    initiation is kept and every later expiration of the retransmission timer is
    ignored.  Otherwise the device is unchanged. *)
Theorem session_completion e n :
  let '(ok, e') := CompleteSession e in
  if ok then
    may_begin e /\
    (exists k, keypair_IsValid k = true /\
       if is_initiator e then pr_current_keypair (the_peer e') = k
       else pr_next_keypair (the_peer e') = k /\
            pr_current_keypair (the_peer e') = pr_current_keypair (the_peer e)) /\
    registry_synced (ev_device e') /\
    hk_state (pr_handshake (the_peer e')) = HandshakeState_SessionDerived /\
    chaining_key (the_material e') = key_init /\ hash (the_material e') = key_init /\
    ephemeral_private (the_material e') = key_init /\
    pr_has_last_initiation (the_peer e') = false /\
    retry_timer_run n e' = (replicate n HandshakeTransitionAction_Ignore, e')
  else ev_device e' = ev_device e.
Proof.
  unfold CompleteSession. pose proof (begin_session_inv e) as HB.
  destruct (run_bool noise_handshake_begin_session e) as [ [] e1]; cbn [negb]; [|done].
  destruct HB as (HM & k & HV & ->).
  destruct (session_begun_facts e k) as (S1 & S2 & _ & S4).
  split; [done|]. split.
  { exists k. split; [done|]. by destruct (is_initiator e), S4 as (? & ? & ?). }
  split; [done|]. do 5 (split; [done|]). by apply retry_timer_ignored.
Qed.
End Facts.

(** ** Witnesses *)

Lemma initiation_attempts_witness :
  let '(actions, e2) := @retry_timer_run toy_primitives 21
    (snd (@StartHandshake toy_primitives (@sample_env toy_primitives 9 key_a key_b))) in
  actions = replicate 19 HandshakeTransitionAction_SendInitiation
            ++ [HandshakeTransitionAction_Exhausted; HandshakeTransitionAction_Ignore] /\ given_up e2.
Proof.
  pose proof (@initiation_attempts toy_primitives toy_laws (@sample_env toy_primitives 9 key_a key_b)
    key_a key_b sample_psk 21) as H.
  destruct (@StartHandshake toy_primitives _) as [first e1]. cbn [snd].
  destruct (retry_timer_run 21 e1) as [actions e2].
  destruct H as (_ & H1 & _ & _ & H2).
  - apply (bool_decide_unpack _). vm_compute. exact I.
  - apply (bool_decide_unpack _). vm_compute. exact I.
  - apply sample_ready.
  - reflexivity.
  - split; [exact H1|]. apply H2. lia.
Defined.

