(* ===== verification/Guard.v ===== *)
(** * Replay protection of initiations

    What [noise_handshake_consume_initiation] accepts, and that no sequence of
    operations on the peer makes it accept an initiation twice.  A handler keeps a
    part of the state when every path through it does; [keeps] is proved step by
    step along the handler's code. *)

From stdpp Require Import sorting.
From S2P Require Import Prelude Endian Messages Replay Platform Session Crypto Device.
From S2P Require Import Data Identity Noise Macs Handshake Agreement Exchange Peer PeerController.
Local Open Scope Z_scope.

(** ** Parts of the state that a computation keeps *)

Section Keeps.
Context {S V : Type} (view : S -> V).

Definition keeps {A} (m : M S A) : Prop := forall s, view (snd (m s)) = view s.

Lemma keeps_bind {A B} (m : M S A) (k : A -> M S B) :
  keeps m -> (forall a, keeps (k a)) -> keeps (m ≫= k).
Proof.
  intros Hm Hk s. unfold mbind, M_bind. specialize (Hm s).
  destruct (m s) as [ [a|] s']; cbn [snd] in *; [|done]. by rewrite Hk.
Qed.
Lemma keeps_ret {A} (a : A) : keeps (mret a).
Proof. done. Qed.
Lemma keeps_gets {A} (f : S -> A) : keeps (gets f).
Proof. done. Qed.
Lemma keeps_require b : keeps (require b).
Proof. done. Qed.
Lemma keeps_try_opt {A} (o : option A) : keeps (try_opt o).
Proof. done. Qed.
Lemma keeps_modify f : (forall s, view (f s) = view s) -> keeps (modify f).
Proof. done. Qed.
Lemma keeps_step_with {A} (f : S -> A * S) : (forall s, view (snd (f s)) = view s) -> keeps (step_with f).
Proof. intros Hf s. unfold step_with. specialize (Hf s). by destruct (f s). Qed.
Lemma keeps_if {A} (b : bool) (m m' : M S A) : keeps m -> keeps m' -> keeps (if b then m else m').
Proof. by destruct b. Qed.
End Keeps.

Ltac keeps_step :=
  lazymatch goal with
  | |- keeps _ (_ ≫= _) => apply keeps_bind; [|intros ?]
  | |- keeps _ (let '(_, _) := ?p in _) => destruct p
  | |- keeps _ (if _ then _ else _) => apply keeps_if
  | |- keeps _ (mret _) => apply keeps_ret
  | |- keeps _ (gets _) => apply keeps_gets
  | |- keeps _ (require _) => apply keeps_require
  | |- keeps _ (try_opt _) => apply keeps_try_opt
  | |- keeps _ (modify _) => apply keeps_modify; intros ?; reflexivity
  end.
Ltac keeps_run := repeat (cbv beta zeta; keeps_step).

(** ** What guards initiations *)

Record GuardView := mk_guard {
  gv_identity : noise_static_identity;
  gv_secret : noise_secret32;
  gv_last : option bytes;
  gv_consumed : Z
}.
Definition guard_of (peer : wg_peer) : GuardView :=
  let hs := pr_handshake peer in
  mk_guard (pr_static_identity peer) (precomputed_static_static (pr_handshake_material peer))
    (if hk_has_last_initiation_timestamp hs then Some (hk_last_initiation_timestamp hs) else None)
    (hk_last_initiation_consumption hs).
Definition guard_view (e : Env) : GuardView := guard_of (the_peer e).

Lemma guard_on_peer f e : (forall p, guard_of (f p) = guard_of p) -> guard_view (on_peer f e) = guard_view e.
Proof. intros Hf. apply (Hf (the_peer e)). Qed.

Lemma guard_transition s e : guard_view (transition_to s e) = guard_view e.
Proof. reflexivity. Qed.
Lemma guard_world w e : guard_view (e <| ev_world := w |>) = guard_view e.
Proof. reflexivity. Qed.
Lemma guard_on_world {A} (f : World -> A * World) e : guard_view (snd (on_world f e)) = guard_view e.
Proof. unfold on_world. by destruct (f (ev_world e)). Qed.

Section Guard.
Context {P : Primitives}.

Lemma guard_allocate e : guard_view (snd (wg_device_allocate_index e)) = guard_view e.
Proof.
  unfold wg_device_allocate_index. generalize 32%nat as n. intros n. revert e.
  induction n as [|n IH]; intros e; [done|]. cbn [allocate_loop].
  destruct (wg_index_allocator_next _ _) as [ [candidate allocator] w]. case_if; [done|]. by rewrite IH.
Qed.

Lemma guard_refresh e :
  guard_view (on_device (fun d => wg_device_refresh_keypair_indices (dv_peer d) d) e) = guard_view e.
Proof. reflexivity. Qed.

Lemma consume_response_keeps src : keeps guard_view (noise_handshake_consume_response src).
Proof.
  unfold noise_handshake_consume_response. keeps_run.
Qed.

Lemma begin_session_keeps : keeps guard_view noise_handshake_begin_session.
Proof.
  intros e. pose proof (begin_session_inv e) as HB. unfold run_bool in HB.
  destruct (noise_handshake_begin_session e) as [ [[]|] e']; cbn [snd].
  - destruct HB as (_ & k & _ & ->). unfold session_begun.
    set (e1 := e <| ev_world := _ |>). set (install := if is_initiator e1 then _ else _).
    rewrite guard_on_peer by reflexivity. rewrite guard_transition, guard_refresh.
    change (guard_view e) with (guard_view e1). apply guard_on_peer.
    intros p. unfold install. destruct (is_initiator e1).
    + rewrite install_initiator_spec. reflexivity.
    + reflexivity.
  - unfold guard_view. by rewrite HB.
Qed.

(** *** Handlers that also write a message *)

Definition writing_view {T} (s : Writing T) : GuardView := guard_view (wd_env s).

Lemma keeps_in_env {T} f : (forall e, guard_view (f e) = guard_view e) -> keeps (@writing_view T) (in_env f).
Proof. intros Hf s. apply Hf. Qed.
Lemma keeps_in_dst {T} f : keeps (@writing_view T) (in_dst f).
Proof. done. Qed.
Lemma keeps_with_world {T A} (f : World -> A * World) : keeps (@writing_view T) (with_world f).
Proof.
  intros s. unfold with_world, step_with, on_world. destruct (f (ev_world (wd_env s))). reflexivity.
Qed.
Lemma keeps_fresh_ephemeral {T} : keeps (@writing_view T) fresh_ephemeral.
Proof.
  unfold fresh_ephemeral. keeps_run; [apply keeps_with_world|apply keeps_in_env; intros ?; reflexivity..].
Qed.
Lemma keeps_apply_outgoing_macs {T} `{MacMessage T} : keeps (@writing_view T) apply_outgoing_macs.
Proof.
  intros s. unfold apply_outgoing_macs. destruct (ApplyOutgoingMacs _ _ _ _) as [ [ [ok m] cookie] w].
  reflexivity.
Qed.

Ltac keeps_writing :=
  repeat (cbv beta zeta;
    lazymatch goal with
    | |- keeps _ (in_env _) => apply keeps_in_env; intros ?; reflexivity
    | |- keeps _ (in_dst _) => apply keeps_in_dst
    | |- keeps _ (with_world _) => apply keeps_with_world
    | |- keeps _ fresh_ephemeral => apply keeps_fresh_ephemeral
    | |- keeps _ apply_outgoing_macs => apply keeps_apply_outgoing_macs
    | _ => keeps_step
    end).

Lemma create_initiation_keeps : keeps writing_view noise_handshake_create_initiation.
Proof. unfold noise_handshake_create_initiation. keeps_writing. Qed.
Lemma create_response_keeps : keeps writing_view noise_handshake_create_response.
Proof. unfold noise_handshake_create_response. keeps_writing. Qed.
Lemma device_initiation_keeps : keeps writing_view wg_device_create_handshake_initiation.
Proof.
  unfold wg_device_create_handshake_initiation. keeps_writing; [|apply create_initiation_keeps].
  apply keeps_step_with. intros s. pose proof (guard_allocate (wd_env s)) as HA.
  destruct (wg_device_allocate_index (wd_env s)) as [i e]. exact HA.
Qed.

Lemma renew_keeps : keeps guard_view renew_last_initiation.
Proof.
  intros e. unfold renew_last_initiation.
  pose proof (keeps_apply_outgoing_macs (mk_writing e (pr_last_initiation (the_peer e)))) as HK.
  destruct (apply_outgoing_macs _) as [ok s]. cbn [snd] in *. rewrite guard_on_peer by reflexivity. exact HK.
Qed.
Lemma consume_cookie_reply_keeps src : keeps guard_view (noise_handshake_consume_cookie_reply src).
Proof.
  unfold noise_handshake_consume_cookie_reply. keeps_run.
  - apply keeps_step_with. intros e. apply guard_on_world.
  - apply renew_keeps.
Qed.

(** *** Initiations *)

(** When an initiation is accepted; the timestamp it carries. *)
Record acceptable (e : Env) (src : message_handshake_initiation) (ck h timestamp : bytes) : Prop := {
  ac_identity : key_valid (static_private (the_identity e)) = true /\
    key_valid (static_public (the_identity e)) = true /\ key_valid (remote_static (the_identity e)) = true /\
    key_valid (precomputed_static_static (the_material e)) = true;
  ac_type : hi_type src = 1;
  ac_sender : hi_sender_index src <> 0;
  ac_mac1 : VerifyMac1 src (static_public (the_identity e)) = true;
  ac_read : read_initiation src (the_identity e) (precomputed_static_static (the_material e))
            = Some (ck, h, timestamp);
  ac_new : not_replayed (pr_handshake (the_peer e)) timestamp = true;
  ac_slow : not_flooded (pr_handshake (the_peer e)) (clock (ev_world e)) = true
}.

Definition initiation_consumed (e : Env) (src : message_handshake_initiation) (ck h timestamp : bytes) : Env :=
  let '(now, w) := GetMonotonicTime (ev_world e) in
  transition_to HandshakeState_InitiationReceived
    (mk_env w ((ev_device e) <| dv_peer := received (the_peer e) src ck h timestamp now |>)).

Lemma consume_initiation_accepts src e ck h timestamp :
  acceptable e src ck h timestamp ->
  noise_handshake_consume_initiation src e = (Some tt, initiation_consumed e src ck h timestamp).
Proof.
  intros [ (V1 & V2 & V3 & V4) HT HS HM HR HN HF]. unfold initiation_consumed.
  pose proof (consume_initiation_run src e ck h timestamp) as HRun. unfold clock in HF.
  destruct (GetMonotonicTime (ev_world e)) as [now w] eqn:EW. by apply HRun.
Qed.

Lemma type_word src : GetMessageType (hi_type src) = MessageType_HandshakeInitiation -> hi_type src = 1.
Proof. apply GetMessageType_named. Qed.

Lemma consume_initiation_cases src e :
  (exists ck h timestamp, acceptable e src ck h timestamp) \/
  exists e', noise_handshake_consume_initiation src e = (None, e') /\ ev_device e' = ev_device e.
Proof.
  unfold noise_handshake_consume_initiation. rewrite bind_gets. change (id e) with e. rewrite bind_require.
  destruct (key_valid (static_private _) && _ && _ && _) eqn:EV; [|by right; eexists].
  rewrite bind_require. destruct (bool_decide _) eqn:ET; [|by right; eexists].
  rewrite bind_require. destruct (negb (hi_sender_index src =? 0)) eqn:ES; [|by right; eexists].
  rewrite bind_require. destruct (VerifyMac1 _ _) eqn:EM; [|by right; eexists].
  rewrite bind_try_opt. destruct (read_initiation _ _ _) as [ [ [ck h] ts]|] eqn:ER; [|by right; eexists].
  rewrite bind_require.
  destruct (negb (hk_has_last_initiation_timestamp _ && _)) eqn:EN; [|by right; eexists].
  rewrite bind_step_with, bind_require.
  destruct (negb ((0 <? _) && _)) eqn:EF; [|by right; eexists].
  left. exists ck, h, ts. split; [|apply type_word| |exact EM|exact ER|exact EN|exact EF]; by bool_prop.
Qed.

Definition accept_timestamp (timestamp : bytes) (now : Z) (v : GuardView) : GuardView :=
  mk_guard (gv_identity v) (gv_secret v) (Some timestamp) now.

(** ** Events *)

(** What can happen to the device: a packet arrives, or the runtime calls one of
    the operations. *)
Inductive guard_event :=
  | Ev_handshake_packet (packet : bytes)
  | Ev_transport_packet (packet out : bytes)
  | Ev_create_initiation
  | Ev_create_response
  | Ev_complete_session
  | Ev_confirm_session
  | Ev_clear_transcript.

(** The packet accepted as an initiation by the event, if any. *)
Definition guard_step (event : guard_event) (e : Env) : option bytes * Env :=
  match event with
  | Ev_handshake_packet packet =>
      let '(outcome, e) := noise_handshake_consume_incoming_packet packet e in
      (if bool_decide (outcome = HandshakePacketOutcome_InitiationConsumed) then Some packet else None, e)
  | Ev_transport_packet packet out =>
      (None, snd (noise_consume_incoming_transport_data_packet packet out e))
  | Ev_create_initiation => (None, snd (PrepareFreshInitiation true e))
  | Ev_create_response => (None, wd_env (snd (noise_handshake_create_response (mk_writing e response_init))))
  | Ev_complete_session => (None, snd (CompleteSession e))
  | Ev_confirm_session => (None, ConfirmResponderSession e)
  | Ev_clear_transcript => (None, on_peer noise_handshake_clear_transcript e)
  end.

Fixpoint guard_run (events : list guard_event) (e : Env) : list bytes * Env :=
  match events with
  | [] => ([], e)
  | event :: rest =>
      let '(accepted, e) := guard_step event e in
      let '(packets, e) := guard_run rest e in
      (option_list accepted ++ packets, e)
  end.

(** The timestamp an initiation packet carries for a peer. *)
Definition packet_timestamp (v : GuardView) (packet : bytes) : option bytes :=
  let '(_, initiation) := ParseHandshakeInitiation packet initiation_init in
  snd <$> read_initiation initiation (gv_identity v) (gv_secret v).

Definition newer (last : option bytes) (timestamp : bytes) : Prop :=
  match last with
  | None => True
  | Some t => lexicographical_compare t timestamp = true
  end.

(** One event: nothing happens to the guard, or it moves to a newer timestamp,
    that of the accepted packet. *)
Definition guard_moves (e e' : Env) (accepted : option bytes) : Prop :=
  (guard_view e' = guard_view e /\ accepted = None) \/
  exists packet timestamp, packet_timestamp (guard_view e) packet = Some timestamp /\
    newer (gv_last (guard_view e)) timestamp /\
    guard_view e' = accept_timestamp timestamp (clock (ev_world e)) (guard_view e) /\
    (accepted = None \/ accepted = Some packet).

Lemma handshake_packet_moves packet e :
  let '(outcome, e') := noise_handshake_consume_incoming_packet packet e in
  guard_moves e e' (if bool_decide (outcome = HandshakePacketOutcome_InitiationConsumed)
                    then Some packet else None).
Proof.
  unfold noise_handshake_consume_incoming_packet.
  destruct (pr_success _); cbn [negb]; [|by left].
  destruct (pr_type _); try by left.
  - destruct (ParseHandshakeInitiation packet initiation_init) as [r src] eqn:EP.
    destruct (pr_success r); cbn [negb]; [|by left].
    destruct (consume_initiation_cases src e) as [(ck & h & ts & HA)|(e' & EC & ED)].
    2: { unfold run_bool. rewrite EC. left. split; [|done]. unfold guard_view. by rewrite ED. }
    unfold run_bool. rewrite (consume_initiation_accepts src e ck h ts HA). cbn [negb].
    pose proof (guard_allocate (initiation_consumed e src ck h ts)) as HG.
    destruct (wg_device_allocate_index _) as [index e2]. cbn [snd] in HG.
    assert (packet_timestamp (guard_view e) packet = Some ts) as ET.
    { unfold packet_timestamp. rewrite EP. change (gv_identity _) with (the_identity e).
      change (gv_secret _) with (precomputed_static_static (the_material e)).
      by rewrite (ac_read _ _ _ _ _ HA). }
    assert (newer (gv_last (guard_view e)) ts) as HN.
    { pose proof (ac_new _ _ _ _ _ HA) as HN. unfold not_replayed in HN. unfold guard_view, guard_of.
      cbn [gv_last]. destruct (hk_has_last_initiation_timestamp _); [|done]. cbn in HN |- *.
      by rewrite negb_involutive in HN. }
    assert (guard_view e2 = accept_timestamp ts (clock (ev_world e)) (guard_view e)) as HV
      by (rewrite HG; reflexivity).
    destruct (index =? 0); right; exists packet, ts.
    + rewrite bool_decide_false by done. split; [done|]. split; [done|]. split; [|by left].
      rewrite guard_on_peer by reflexivity. exact HV.
    + rewrite bool_decide_true by done. split; [done|]. split; [done|]. split; [exact HV|by right].
  - destruct (ParseHandshakeResponse packet response_init) as [r src].
    destruct (pr_success r); cbn [negb]; [|by left]. unfold run_bool.
    pose proof (consume_response_keeps src e) as HK.
    destruct (noise_handshake_consume_response src e) as [ [u|] e']; left; by split.
  - destruct (ParseHandshakeCookie packet cookie_reply_init) as [r src].
    destruct (pr_success r); cbn [negb]; [|by left]. unfold run_bool.
    pose proof (consume_cookie_reply_keeps src e) as HK.
    destruct (noise_handshake_consume_cookie_reply src e) as [ [u|] e']; left; by split.
Qed.

Lemma transport_keeps packet out e :
  guard_view (snd (noise_consume_incoming_transport_data_packet packet out e)) = guard_view e.
Proof.
  unfold noise_consume_incoming_transport_data_packet.
  destruct (ParseTransportDataHeader _ _) as [parsed h]. destruct (pr_success parsed); [|done]. cbn [negb].
  set (slot := wg_device_lookup_index_slot _ _).
  destruct (wg_peer_keypair_for_slot _ slot) as [k|]; [|done].
  set (o := noise_consume_transport_data_packet _ _ _ _).
  set (e1 := (on_peer _ e) <| ev_world := _ |>).
  assert (guard_view e1 = guard_view e) as E1.
  { unfold e1. rewrite guard_world. apply guard_on_peer. intros p. by destruct slot. }
  destruct (bool_decide (op_error o = _)); cbn [negb]; [|exact E1].
  destruct (bool_decide (slot = _)); [|exact E1].
  rewrite <- E1. clearbody e1. unfold guard_view, wg_device_promote_next_keypair.
  destruct (keypair_IsValid _); cbn [negb]; [|done].
  rewrite !keypair_move_spec. reflexivity.
Qed.

Lemma guard_step_moves event e :
  let '(accepted, e') := guard_step event e in guard_moves e e' accepted.
Proof.
  destruct event; cbn [guard_step].
  - pose proof (handshake_packet_moves packet e) as HM.
    by destruct (noise_handshake_consume_incoming_packet packet e).
  - left. split; [apply transport_keeps|done].
  - left. split; [|done]. unfold PrepareFreshInitiation, run_bool.
    pose proof (device_initiation_keeps (mk_writing e (pr_last_initiation (the_peer e)))) as HK.
    destruct (wg_device_create_handshake_initiation _) as [ [u|] s]; cbn [negb snd] in *;
      rewrite !guard_on_peer by reflexivity; exact HK.
  - left. split; [apply create_response_keeps|done].
  - left. split; [|done]. unfold CompleteSession, run_bool. pose proof (begin_session_keeps e) as HK.
    destruct (noise_handshake_begin_session e) as [ [u|] e']; cbn [negb snd] in *; [|exact HK].
    rewrite guard_on_peer by reflexivity. exact HK.
  - left. split; [|done]. by apply guard_on_peer.
  - left. split; [|done]. by apply guard_on_peer.
Qed.
End Guard.

(** ** The order on timestamps *)

Lemma lex_irrefl a : lexicographical_compare a a = false.
Proof. induction a as [|x a IH]; [done|]. cbn. by rewrite Z.ltb_irrefl. Qed.
Lemma lex_trans a b c :
  lexicographical_compare a b = true -> lexicographical_compare b c = true ->
  lexicographical_compare a c = true.
Proof.
  revert a c. induction b as [|y b IH]; intros [|x a] [|z c]; cbn; try done.
  destruct (Z.ltb_spec x y), (Z.ltb_spec y x), (Z.ltb_spec y z), (Z.ltb_spec z y),
    (Z.ltb_spec x z), (Z.ltb_spec z x); try done; try lia. apply IH.
Qed.

Section Run.
Context {P : Primitives}.

Definition timestamps_newer (last : option bytes) (timestamps : list bytes) : Prop :=
  Forall (newer last) timestamps /\ StronglySorted (fun a b => lexicographical_compare a b = true) timestamps.

Lemma timestamps_newer_mono last t timestamps :
  newer last t -> timestamps_newer (Some t) timestamps -> timestamps_newer last timestamps.
Proof.
  intros HN [HF HS]. split; [|done]. eapply Forall_impl; [exact HF|]. intros u Hu.
  destruct last as [l|]; [|done]. by apply (lex_trans l t u).
Qed.

Lemma guard_run_sorted events e :
  let '(packets, e') := guard_run events e in
  exists timestamps, Forall2 (fun packet t => packet_timestamp (guard_view e) packet = Some t) packets timestamps /\
    timestamps_newer (gv_last (guard_view e)) timestamps.
Proof.
  revert e. induction events as [|event rest IH]; intros e.
  { exists []. split; [constructor|]. split; constructor. }
  cbn [guard_run]. pose proof (guard_step_moves event e) as HM.
  destruct (guard_step event e) as [accepted e1]. specialize (IH e1).
  destruct (guard_run rest e1) as [packets e'].
  destruct IH as (timestamps & HF & HT). destruct HM as [ [EV ->]|(packet & t & EP & HN & EV & HA)].
  - rewrite EV in *. by exists timestamps.
  - rewrite EV in *.
    assert (Forall2 (fun packet t => packet_timestamp (guard_view e) packet = Some t) packets timestamps) as HF'
      by exact HF.
    change (gv_last (accept_timestamp _ _ _)) with (Some t) in HT.
    destruct HA as [->| ->]; cbn [option_list app].
    + exists timestamps. split; [done|]. by apply (timestamps_newer_mono _ t).
    + exists (t :: timestamps). split; [by constructor|].
      pose proof (timestamps_newer_mono _ _ _ HN HT) as [H1 _]. destruct HT as [H2 H3].
      split; by constructor.
Qed.

End Run.

(** ** Erasing key material forgets the timestamp

    [wg_peer_zero_key_material] reinitialises the whole handshake record, the last
    accepted timestamp included (the reference implementation keeps it): after it,
    an initiation that was accepted before is accepted once more. *)

Section Zeroing.
Context {P : Primitives}.

Definition zeroed (e : Env) : Env :=
  let '(peer, w) := wg_peer_zero_key_material (the_peer e) (ev_world e) in
  mk_env w ((ev_device e) <| dv_peer := peer |>).

Lemma acceptable_zeroed e e1 src ck h timestamp :
  acceptable e src ck h timestamp ->
  the_identity e1 = the_identity e ->
  precomputed_static_static (the_material e1) = precomputed_static_static (the_material e) ->
  acceptable (zeroed e1) src ck h timestamp.
Proof.
  intros [HV HT HS HM HR _ _] EI EP.
  assert (the_identity (zeroed e1) = the_identity e) as EI2 by (rewrite <- EI; reflexivity).
  assert (precomputed_static_static (the_material (zeroed e1)) = precomputed_static_static (the_material e)) as EP2
    by (rewrite <- EP; reflexivity).
  split; rewrite ?EI2, ?EP2; done.
Qed.

Lemma packet_consumed packet src e ck h timestamp :
  ParseHandshakeInitiation packet initiation_init = (MakeSuccess MessageType_HandshakeInitiation, src) ->
  InspectMessageType packet = MakeSuccess MessageType_HandshakeInitiation ->
  acceptable e src ck h timestamp -> world_ok (ev_world e) ->
  fst (noise_handshake_consume_incoming_packet packet e) = HandshakePacketOutcome_InitiationConsumed.
Proof.
  intros EP ET HA HW. unfold noise_handshake_consume_incoming_packet. rewrite ET. cbn [pr_success pr_type MakeSuccess negb].
  rewrite EP. cbn [pr_success MakeSuccess negb]. unfold run_bool.
  rewrite (consume_initiation_accepts src e ck h timestamp HA). cbn [negb].
  pose proof (allocate_index_spec (initiation_consumed e src ck h timestamp)) as HAl.
  destruct (wg_device_allocate_index _) as [index e2].
  destruct HAl as (_ & HI & _). { by apply (GetMonotonicTime_world (snd (GetMonotonicTime (ev_world e)))), GetMonotonicTime_world. }
  by rewrite (proj2 (Z.eqb_neq _ _)).
Qed.

(** An initiation accepted before the keys were erased is accepted again after. *)
Theorem zeroing_reopens_initiations src e (Hm : initiation_ok src) (HW : world_ok (ev_world e))
    (HA : fst (noise_handshake_consume_incoming_packet (enc_initiation src) e)
          = HandshakePacketOutcome_InitiationConsumed) :
  let e1 := snd (noise_handshake_consume_incoming_packet (enc_initiation src) e) in
  fst (noise_handshake_consume_incoming_packet (enc_initiation src) (zeroed e1))
  = HandshakePacketOutcome_InitiationConsumed.
Proof.
  intros e1. destruct (ParseHandshakeInitiation_enc src initiation_init Hm) as [ET EP].
  pose proof (handshake_packet_moves (enc_initiation src) e) as HM.
  unfold e1. revert HA HM.
  unfold noise_handshake_consume_incoming_packet at 1 2 4. rewrite ET. cbn [pr_success pr_type MakeSuccess negb].
  rewrite EP. cbn [pr_success MakeSuccess negb]. unfold run_bool.
  destruct (consume_initiation_cases src e) as [(ck & h & ts & HA)|(e' & EC & _)].
  2: { rewrite EC. done. }
  rewrite (consume_initiation_accepts src e ck h ts HA). cbn [negb].
  pose proof (guard_allocate (initiation_consumed e src ck h ts)) as HG.
  pose proof (allocate_index_spec (initiation_consumed e src ck h ts)) as HAl.
  destruct (wg_device_allocate_index _) as [index e2]. cbn [snd] in *.
  destruct HAl as ([HW2 _ _ _ _ _] & HI & _).
  { by apply (GetMonotonicTime_world (snd (GetMonotonicTime (ev_world e)))), GetMonotonicTime_world. }
  rewrite (proj2 (Z.eqb_neq _ _)) by done. cbn [fst snd]. intros _ _.
  eapply (packet_consumed _ src); [exact EP|exact ET| |].
  - apply (acceptable_zeroed e _ src ck h ts HA); [exact (f_equal gv_identity HG)|exact (f_equal gv_secret HG)].
  - by apply (GetMonotonicTime_world (ev_world e2)).
Qed.
End Zeroing.
