(* ===== verification/RateLimit.v ===== *)
(** * How many handshake packets a responder admits

    Bounds on what [noise_handshake_admit_responder_packet] accepts: a token
    bucket as an amount of credit that time refills, the arrival bucket of the
    device, and the bucket of each source.  A source whose table entry was reused
    for another one had a full bucket, so reuse gives no credit away. *)

From S2P Require Import Prelude Endian Messages Platform Session Crypto Device Noise Admission.
Local Open Scope Z_scope.

(** ** One bucket *)

(** The credit of a bucket at a time. *)
Definition credit (tokens last_update : Z) (initialized : bool) (now : Z) : Z :=
  if initialized then Z.min HandshakeRateMaximumTokens (tokens + Z.max 0 (now - last_update))
  else HandshakeRateMaximumTokens.

Definition cost_if (accepted : bool) : Z := if accepted then HandshakeRateTokenCost else 0.

Lemma rate_constants :
  HandshakeRateTokenCost = 50000000 /\ HandshakeRateMaximumTokens = 250000000 /\
  UnderLoadAfterTime = 1000000000.
Proof. by split_and!. Qed.

(** Consuming pays the cost out of the credit, and is refused only without it. *)
Lemma consume_pays tokens last_update initialized now :
  0 <= tokens <= HandshakeRateMaximumTokens ->
  let '(accepted, (tokens', last_update', initialized')) :=
    ConsumeHandshakeRate tokens last_update initialized now in
  credit tokens' last_update' initialized' now
  = credit tokens last_update initialized now - cost_if accepted /\
  (accepted = false -> credit tokens last_update initialized now < HandshakeRateTokenCost) /\
  initialized' = true /\ 0 <= tokens' <= HandshakeRateMaximumTokens.
Proof.
  destruct rate_constants as (EC & EM & _). intros HT. unfold ConsumeHandshakeRate, credit, cost_if.
  destruct initialized; cbn [negb].
  - destruct (Z.ltb_spec last_update now) as [HL|HL].
    + destruct (Z.ltb_spec (Z.min HandshakeRateMaximumTokens (tokens + (now - last_update)))
        HandshakeRateTokenCost); (split; [lia|split; [intros; done || lia|split; [done|lia]]]).
    + destruct (Z.ltb_spec tokens HandshakeRateTokenCost);
        (split; [lia|split; [intros; done || lia|split; [done|lia]]]).
  - rewrite EC, EM. cbn. split; [lia|]. split; [done|]. split; [done|lia].
Qed.

Lemma credit_grows tokens last_update initialized now now' :
  now <= now' ->
  credit tokens last_update initialized now' <= credit tokens last_update initialized now + (now' - now).
Proof. intros. unfold credit. destruct initialized; lia. Qed.

Lemma credit_bounds tokens last_update initialized now :
  0 <= tokens -> 0 <= credit tokens last_update initialized now <= HandshakeRateMaximumTokens.
Proof. destruct rate_constants as (_ & EM & _). intros. unfold credit. destruct initialized; lia. Qed.

(** ** The buckets of a responder *)

Record state_ok (state : ResponderCookieState) : Prop := {
  so_arrival : 0 <= rc_arrival_tokens state <= HandshakeRateMaximumTokens;
  so_entries : Forall (fun e => 0 <= rl_tokens e <= HandshakeRateMaximumTokens) (rc_rate_limits state)
}.

Lemma responder_cookie_init_ok : state_ok responder_cookie_init.
Proof. split; [cbn; destruct rate_constants as (_ & -> & _); lia|]. by apply (bool_decide_unpack _). Qed.

Definition arrival_credit (state : ResponderCookieState) (now : Z) : Z :=
  credit (rc_arrival_tokens state) (rc_arrival_last_update state) (rc_arrival_initialized state) now.

Definition entry_credit (now : Z) (entry : HandshakeRateLimitEntry) : Z :=
  credit (rl_tokens entry) (rl_last_update entry) (rl_initialized entry) now.

(** The credit of a source: that of its entry, or a full bucket. *)
Fixpoint source_credit (source : endpoint) (now : Z) (entries : list HandshakeRateLimitEntry) : Z :=
  match entries with
  | [] => HandshakeRateMaximumTokens
  | entry :: rest =>
      if entry_is_source source entry then entry_credit now entry else source_credit source now rest
  end.

Definition same_source (a b : endpoint) : bool :=
  bool_decide (ep_family a = ep_family b) &&
  bool_decide (take (SourceAddressSize a) (ep_address a) = take (SourceAddressSize b) (ep_address b)).

Definition entries_ok (entries : list HandshakeRateLimitEntry) : Prop :=
  Forall (fun e => 0 <= rl_tokens e <= HandshakeRateMaximumTokens) entries.

Lemma source_credit_bounds source now entries :
  entries_ok entries -> 0 <= source_credit source now entries <= HandshakeRateMaximumTokens.
Proof.
  induction 1 as [|entry rest HE _ IH]; cbn.
  { destruct rate_constants as (_ & -> & _). lia. }
  destruct (entry_is_source source entry); [|done]. apply credit_bounds. lia.
Qed.

Lemma source_credit_grows source entries now now' :
  now <= now' -> source_credit source now' entries <= source_credit source now entries + (now' - now).
Proof.
  intros H. induction entries as [|entry rest IH]; cbn; [lia|].
  destruct (entry_is_source source entry); [by apply credit_grows|done].
Qed.

(** A reusable entry that belongs to a source has a full bucket. *)
Lemma reusable_full source now entry :
  0 <= rl_tokens entry -> entry_reusable now entry = true -> entry_is_source source entry = true ->
  entry_credit now entry = HandshakeRateMaximumTokens.
Proof.
  destruct rate_constants as (_ & EM & EU). intros HT HR HS. unfold entry_is_source in HS. bool_prop.
  unfold entry_reusable in HR. apply orb_true_iff in HR as [HR|HR]; bool_prop; [congruence|].
  unfold entry_credit, credit. destruct (rl_initialized entry); [|done]. lia.
Qed.

(** *** The lookup *)

Lemma find_entry_found source now entries i reusable j :
  find_entry source now entries i reusable = inl j ->
  exists k entry, j = (i + k)%nat /\ entries !! k = Some entry /\ entry_is_source source entry = true /\
    source_credit source now entries = entry_credit now entry /\
    (forall k' entry', (k' < k)%nat -> entries !! k' = Some entry' -> entry_is_source source entry' = false).
Proof.
  revert i reusable. induction entries as [|entry rest IH]; intros i reusable; cbn [find_entry]; [done|].
  destruct (entry_is_source source entry) eqn:ES.
  - intros [= <-]. exists 0%nat, entry. split; [lia|]. cbn [source_credit]. rewrite ES.
    split_and!; try done. intros. lia.
  - intros H. apply IH in H as (k & en & -> & HL & HE & HC & HB). exists (S k), en.
    split; [lia|]. cbn [source_credit]. rewrite ES. split_and!; try done.
    intros [|k'] en' HK HEn; [cbn in HEn; by simplify_eq|]. apply (HB k' en'); [lia|done].
Qed.

Lemma find_entry_fresh source now entries i reusable r :
  find_entry source now entries i reusable = inr r ->
  (forall k entry, entries !! k = Some entry -> entry_is_source source entry = false) /\
  (r = reusable \/ exists k entry, r = Some (i + k)%nat /\ entries !! k = Some entry /\
     entry_reusable now entry = true).
Proof.
  revert i reusable. induction entries as [|entry rest IH]; intros i reusable; cbn [find_entry].
  { intros [= ->]. split; [done|by left]. }
  destruct (entry_is_source source entry) eqn:ES; [done|]. intros H.
  apply IH in H as [HN HR]. split.
  - intros [|k] en E; [cbn in E; by simplify_eq|by apply (HN k)].
  - destruct HR as [->|(k & en & -> & HL & HRe)].
    + destruct (entry_reusable now entry) eqn:EE; [|by left]. right. exists 0%nat, entry.
      split; [f_equal; lia|done].
    + right. exists (S k), en. split; [f_equal; lia|done].
Qed.

(** Changing one entry. *)
Lemma source_credit_insert source now entries k old new :
  entries !! k = Some old ->
  (entry_is_source source new = entry_is_source source old) ->
  (entry_is_source source old = true -> entry_credit now new <= entry_credit now old) ->
  source_credit source now (<[k := new]> entries) <= source_credit source now entries.
Proof.
  revert k. induction entries as [|entry rest IH]; intros [|k] HL HS HC; cbn in *; try done.
  - simplify_eq. rewrite HS. destruct (entry_is_source source old) eqn:E; [by apply HC|lia].
  - destruct (entry_is_source source entry); [lia|]. by apply IH.
Qed.

(** Handing a reusable entry to another source. *)
Lemma source_credit_reuse source now entries k old new :
  entries_ok entries -> entries !! k = Some old -> entry_reusable now old = true ->
  entry_is_source source new = false ->
  source_credit source now (<[k := new]> entries) <= source_credit source now entries.
Proof.
  intros HO. revert k. induction HO as [|entry rest HE HO IH]; intros [|k] HL HR HS; cbn in *; try done.
  - simplify_eq. rewrite HS. destruct (entry_is_source source old) eqn:E; [|lia].
    rewrite (reusable_full source now old) by (done || lia). by apply source_credit_bounds.
  - destruct (entry_is_source source entry); [lia|]. by apply (IH k).
Qed.

Lemma entries_insert entries k entry :
  entries_ok entries -> 0 <= rl_tokens entry <= HandshakeRateMaximumTokens ->
  entries_ok (<[k := entry]> entries).
Proof. intros. by apply Forall_insert. Qed.

(** ** Sources *)

Definition endpoint_ok (source : endpoint) : Prop := length (ep_address source) = 16%nat.

Lemma source_size_bound source : (SourceAddressSize source <= 16)%nat.
Proof. unfold SourceAddressSize. destruct (ep_family source); lia. Qed.

Lemma owner_same source s entry :
  entry_is_source source entry = true -> entry_is_source s entry = same_source s source.
Proof.
  unfold entry_is_source, same_source. intros H. bool_prop.
  match goal with H : rl_active entry = true |- _ => rewrite H end. cbn [andb].
  destruct (decide (ep_family s = ep_family source)) as [EF|NF].
  - assert (SourceAddressSize s = SourceAddressSize source) as ESz by (unfold SourceAddressSize; by rewrite EF).
    rewrite (bool_decide_true (ep_family s = _)), (bool_decide_true (rl_family entry = _)) by congruence.
    cbn [andb]. apply bool_decide_ext. rewrite ESz. split; congruence.
  - rewrite (bool_decide_false (ep_family s = _)), (bool_decide_false (rl_family entry = _)) by congruence. done.
Qed.

Lemma same_source_sym s t : same_source s t = same_source t s.
Proof. unfold same_source. f_equal; by apply bool_decide_ext. Qed.

Definition fresh_entry (source : endpoint) : HandshakeRateLimitEntry :=
  rate_limit_init <| rl_family := ep_family source |>
    <| rl_address := write_at (zeros 16) 0 (take (SourceAddressSize source) (ep_address source)) |>
    <| rl_active := true |>.

Lemma fresh_entry_source source : endpoint_ok source -> entry_is_source source (fresh_entry source) = true.
Proof.
  intros HO. pose proof (source_size_bound source) as HS. unfold endpoint_ok in HO.
  unfold entry_is_source, fresh_entry. cbn [rl_active rl_family rl_address upd].
  rewrite !bool_decide_true; [done| |done].
  unfold write_at. rewrite take_0. cbn [app]. apply take_app_length'. rewrite length_take. lia.
Qed.

(** The entry after a token was asked of it. *)
Definition charged (entry : HandshakeRateLimitEntry) (now : Z) : bool * HandshakeRateLimitEntry :=
  let '(allowed, (tokens, last_update, initialized)) :=
    ConsumeHandshakeRate (rl_tokens entry) (rl_last_update entry) (rl_initialized entry) now in
  (allowed, entry <| rl_tokens := tokens |> <| rl_last_update := last_update |>
                  <| rl_initialized := initialized |>).

Lemma charged_spec entry now :
  0 <= rl_tokens entry <= HandshakeRateMaximumTokens ->
  let '(allowed, entry') := charged entry now in
  entry_credit now entry' = entry_credit now entry - cost_if allowed /\
  (forall s, entry_is_source s entry' = entry_is_source s entry) /\
  0 <= rl_tokens entry' <= HandshakeRateMaximumTokens.
Proof.
  intros HT. unfold charged. pose proof (consume_pays _ (rl_last_update entry) (rl_initialized entry) now HT) as HC.
  destruct (ConsumeHandshakeRate _ _ _ _) as [allowed [ [tokens last] init] ].
  destruct HC as (H1 & _ & _ & H2). split; [exact H1|]. split; [intros s; reflexivity|exact H2].
Qed.

Lemma source_credit_at source now entries k entry :
  entries !! k = Some entry -> entry_is_source source entry = true ->
  (forall k' entry', (k' < k)%nat -> entries !! k' = Some entry' -> entry_is_source source entry' = false) ->
  source_credit source now entries = entry_credit now entry.
Proof.
  revert k. induction entries as [|e rest IH]; intros [|k] HL HS HB; cbn in *; try done.
  - simplify_eq. by rewrite HS.
  - rewrite (HB 0%nat e) by (done || lia). apply (IH k); [done|done|].
    intros k' e' ? ?. apply (HB (S k') e'); [lia|done].
Qed.

Lemma source_credit_none source now entries :
  (forall k entry, entries !! k = Some entry -> entry_is_source source entry = false) ->
  source_credit source now entries = HandshakeRateMaximumTokens.
Proof.
  induction entries as [|e rest IH]; intros HN; cbn; [done|]. rewrite (HN 0%nat e eq_refl).
  apply IH. intros k entry HE. by apply (HN (S k) entry).
Qed.

(** The decision on a source under load, with the table after it. *)
Definition admit_source (state : ResponderCookieState) (source : endpoint) (now : Z)
    : bool * ResponderCookieState :=
  let '(position, state) := FindRateLimitEntry state source now in
  match position with
  | None => (false, state)
  | Some i =>
      let '(allowed, entry) := charged (default rate_limit_init (rc_rate_limits state !! i)) now in
      (allowed, state <| rc_rate_limits ::= <[i := entry]> |>)
  end.

Lemma admit_source_spec state source now :
  entries_ok (rc_rate_limits state) -> endpoint_ok source ->
  let '(allowed, state') := admit_source state source now in
  entries_ok (rc_rate_limits state') /\
  (rc_arrival_tokens state', rc_arrival_last_update state', rc_arrival_initialized state')
  = (rc_arrival_tokens state, rc_arrival_last_update state, rc_arrival_initialized state) /\
  forall s, source_credit s now (rc_rate_limits state')
            <= source_credit s now (rc_rate_limits state) - cost_if (allowed && same_source s source).
Proof.
  intros HE HO. unfold admit_source, FindRateLimitEntry.
  destruct (SourceAddressSize source =? 0)%nat; [split_and!; try done; intros s; cbn; lia|].
  destruct (find_entry source now (rc_rate_limits state) 0 None) as [j|r] eqn:EF.
  - apply find_entry_found in EF as (k & entry & -> & HL & HS & _ & HB). cbn [Nat.add].
    rewrite HL. cbn [default]. unfold id.
    assert (0 <= rl_tokens entry <= HandshakeRateMaximumTokens) as HT by by apply (Forall_lookup_1 _ _ _ _ HE HL).
    pose proof (charged_spec entry now HT) as HC. destruct (charged entry now) as [allowed entry'].
    destruct HC as (HCr & HSame & HT'). cbn -[insert lookup].
    split; [by apply entries_insert|]. split; [done|]. intros s.
    assert (k < length (rc_rate_limits state))%nat as HLt by by apply lookup_lt_Some in HL.
    destruct (same_source s source) eqn:ES.
    + assert (forall k' e', (k' < k)%nat -> rc_rate_limits state !! k' = Some e' -> entry_is_source s e' = false) as HB'.
      { intros k' e' Hk He. pose proof (HB k' e' Hk He) as HF. destruct (entry_is_source s e') eqn:EX; [|done].
        rewrite (owner_same s source e' EX), same_source_sym in HF. congruence. }
      rewrite (source_credit_at s now (rc_rate_limits state) k entry) by (done || by rewrite (owner_same source)).
      rewrite (source_credit_at s now _ k entry'); [rewrite HCr, andb_true_r; lia|by rewrite list_lookup_insert_eq| |].
      * by rewrite HSame, (owner_same source).
      * intros k' e' Hk. rewrite list_lookup_insert_ne by lia. by apply HB'.
    + rewrite andb_false_r. cbn [cost_if]. rewrite Z.sub_0_r.
      apply (source_credit_insert s now _ k entry entry' HL); [apply HSame|].
      rewrite (owner_same source) by done. by rewrite ES.
  - apply find_entry_fresh in EF as [HN [->|(k & old & -> & HL & HR)] ].
    { split_and!; try done. intros s. cbn. lia. }
    cbn [Nat.add]. fold (fresh_entry source). cbn -[insert lookup charged fresh_entry].
    assert (k < length (rc_rate_limits state))%nat as HLt by by apply lookup_lt_Some in HL.
    rewrite list_lookup_insert_eq by done. cbn [default]. unfold id.
    assert (0 <= rl_tokens (fresh_entry source) <= HandshakeRateMaximumTokens) as HT
      by (cbn; destruct rate_constants as (_ & -> & _); lia).
    pose proof (charged_spec (fresh_entry source) now HT) as HC.
    destruct (charged (fresh_entry source) now) as [allowed entry']. destruct HC as (HCr & HSame & HT'). cbn -[insert lookup]. rewrite list_insert_insert_eq.
    split; [by apply entries_insert|]. split; [done|]. intros s.
    pose proof (fresh_entry_source source HO) as HFr.
    destruct (same_source s source) eqn:ES.
    + assert (forall k' e', rc_rate_limits state !! k' = Some e' -> entry_is_source s e' = false) as HB'.
      { intros k' e' He. pose proof (HN k' e' He) as HF. destruct (entry_is_source s e') eqn:EX; [|done].
        rewrite (owner_same s source e' EX), same_source_sym in HF. congruence. }
      rewrite (source_credit_none s now (rc_rate_limits state)) by exact HB'.
      rewrite (source_credit_at s now _ k entry'); [|by rewrite list_lookup_insert_eq| |].
      * rewrite HCr, andb_true_r. unfold entry_credit, credit. cbn. lia.
      * by rewrite HSame, (owner_same source).
      * intros k' e' Hk. rewrite list_lookup_insert_ne by lia. by apply HB'.
    + rewrite andb_false_r. cbn [cost_if]. rewrite Z.sub_0_r.
      apply (source_credit_reuse s now _ k old); [done|done|done|].
      by rewrite HSame, (owner_same source), ES.
Qed.

(** ** One packet *)

Lemma IsUnderLoad_spec state now :
  state_ok state ->
  let '(under_load, state') := IsUnderLoad state now in
  state_ok state' /\ rc_rate_limits state' = rc_rate_limits state /\
  arrival_credit state' now <= arrival_credit state now - cost_if (negb under_load).
Proof.
  intros [HA HE]. unfold IsUnderLoad.
  pose proof (consume_pays _ (rc_arrival_last_update state) (rc_arrival_initialized state) now HA) as HC.
  destruct (ConsumeHandshakeRate _ _ _ _) as [allowed [ [tokens last] init] ].
  destruct HC as (H1 & _ & _ & H2). unfold arrival_credit.
  set (state1 := state <| rc_arrival_tokens := tokens |> <| rc_arrival_last_update := last |>
                       <| rc_arrival_initialized := init |>).
  destruct allowed; cbn [negb orb].
  - split; [by split|]. split; [done|].
    change (credit tokens last init now
            <= credit (rc_arrival_tokens state) (rc_arrival_last_update state) (rc_arrival_initialized state) now
               - cost_if (negb (now <? rc_under_load_until state1))).
    rewrite H1. destruct rate_constants as (EC & _ & _).
    destruct (now <? rc_under_load_until state1); cbn [negb cost_if]; lia.
  - split; [by split|]. split; [done|].
    change (credit tokens last init now
            <= credit (rc_arrival_tokens state) (rc_arrival_last_update state) (rc_arrival_initialized state) now - 0).
    rewrite H1. cbn [cost_if]. lia.
Qed.

Section Admit.
Context {P : Primitives}.

Lemma CreateCookieReply_keeps state local_static packet source now out_cookie w :
  let '(_, state', _, _) := CreateCookieReply state local_static packet source now out_cookie w in
  rc_rate_limits state' = rc_rate_limits state /\
  (rc_arrival_tokens state', rc_arrival_last_update state', rc_arrival_initialized state')
  = (rc_arrival_tokens state, rc_arrival_last_update state, rc_arrival_initialized state).
Proof.
  unfold CreateCookieReply. destruct (key_valid local_static); cbn [negb]; [|done].
  assert (forall st w',
    rc_rate_limits st = rc_rate_limits state /\
    (rc_arrival_tokens st, rc_arrival_last_update st, rc_arrival_initialized st)
    = (rc_arrival_tokens state, rc_arrival_last_update state, rc_arrival_initialized state) ->
    let '(_, state', _, _) :=
      match (source_bytes ← BuildSourceBytes source;
             cookie ← Blake2sHash CookieValueSize source_bytes (key_bytes (rc_secret st));
             key ← ComputeCookieKey local_static;
             Some (cookie, key)) with
      | None => (false, st, out_cookie, w')
      | Some (cookie, key) =>
          let out_cookie := cookie_reply_init
            <| hc_type := SetMessageType MessageType_CookieReply |>
            <| hc_receiver_index := LoadLe32 (drop MessageTypeSize packet) |> in
          let '(nonce, w) := get_random_bytes CookieNonceSize w' in
          let out_cookie := out_cookie <| hc_nonce := nonce |> in
          match (if hc_receiver_index out_cookie =? 0 then None
                 else xchacha20poly1305_encrypt CookieValueSize cookie
                        (subspan packet (length packet - 2 * NoiseMacSize) NoiseMacSize) key nonce) with
          | None => (false, st, cookie_reply_init, w)
          | Some (ciphertext, tag) =>
              (true, st, out_cookie <| hc_encrypted_cookie := ciphertext ++ tag |>, w)
          end
      end in
    rc_rate_limits state' = rc_rate_limits state /\
    (rc_arrival_tokens state', rc_arrival_last_update state', rc_arrival_initialized state')
    = (rc_arrival_tokens state, rc_arrival_last_update state, rc_arrival_initialized state)) as HRest.
  { intros st w' HSt. destruct (source_bytes ← _; _) as [ [cookie key]|]; [|done].
    destruct (get_random_bytes CookieNonceSize w') as [nonce w2]. cbv zeta.
    destruct (if _ =? 0 then None else _) as [ [c t]|]; done. }
  destruct (secret_unusable state now); [destruct (get_random_bytes 32 w) as [secret w']|]; by apply HRest.
Qed.

(** How a packet got in: [Some false] without load, [Some true] under load. *)
Definition admitted (packet : bytes) (source : endpoint) (now : Z) (e : Env) : option bool :=
  if bool_decide (fst (fst (noise_handshake_admit_responder_packet packet source now cookie_reply_init e))
                  = ResponderHandshakeAdmission_Accepted)
  then Some (fst (IsUnderLoad (dv_responder_cookie (ev_device e)) now)) else None.

Definition admit_next (packet : bytes) (source : endpoint) (now : Z) (e : Env) : Env :=
  snd (noise_handshake_admit_responder_packet packet source now cookie_reply_init e).

Ltac decide_options :=
  cbn [fst snd];
  repeat match goal with
  | |- context [bool_decide (?a = ?b)] =>
      first [rewrite (bool_decide_true (a = b)) by done | rewrite (bool_decide_false (a = b)) by done]
  end;
  cbn [andb cost_if].

Abbreviation responder e := (dv_responder_cookie (ev_device e)).

Lemma admit_step packet source now e :
  state_ok (responder e) -> endpoint_ok source ->
  let how := admitted packet source now e in
  let e' := admit_next packet source now e in
  state_ok (responder e') /\
  arrival_credit (responder e') now
  <= arrival_credit (responder e) now - cost_if (bool_decide (how = Some false)) /\
  forall s, source_credit s now (rc_rate_limits (responder e'))
            <= source_credit s now (rc_rate_limits (responder e))
               - cost_if (bool_decide (how = Some true) && same_source s source).
Proof.
  intros HOk HO. unfold admitted, admit_next, noise_handshake_admit_responder_packet. cbv zeta.
  assert (state_ok (responder e) /\
    arrival_credit (responder e) now <= arrival_credit (responder e) now - cost_if false /\
    forall s, source_credit s now (rc_rate_limits (responder e))
              <= source_credit s now (rc_rate_limits (responder e)) - cost_if (false && same_source s source)) as HSame.
  { split; [done|]. split; [cbn; lia|]. intros s. cbn. lia. }
  destruct (wg_device_first_peer (ev_device e)) as [peer|]; [|exact HSame].
  destruct ((SourceAddressSize source =? 0)%nat || negb (VerifyPacketMac1 packet _)); [exact HSame|]. clear HSame.
  pose proof (IsUnderLoad_spec (responder e) now HOk) as HL.
  destruct (IsUnderLoad (responder e) now) as [under state] eqn:EL.
  destruct HL as (HOk1 & ER & HA). cbn [fst snd]. destruct under; cbn [negb] in HA |- *.
  2: { split; [exact HOk1|]. split; [exact HA|]. intros s. decide_options.
       change (responder (e <| ev_device ::= fun d => d <| dv_responder_cookie := state |> |>)) with state.
       rewrite ER. lia. }
  destruct (CheckPacketMac2 state packet source now); cbn [negb].
  2: { pose proof (CreateCookieReply_keeps state (static_public (pr_static_identity peer)) packet source now
         cookie_reply_init (ev_world e)) as HK.
       destruct (CreateCookieReply _ _ _ _ _ _ _) as [ [ [ok state'] oc] w]. destruct HK as [K1 K2].
       injection K2 as K2 K3 K4. destruct HOk1 as [O1 O2].
       assert (forall outcome, outcome <> ResponderHandshakeAdmission_Accepted ->
         (if bool_decide (outcome = ResponderHandshakeAdmission_Accepted) then Some true else None) = None) as HN
         by (intros outcome HOut; by rewrite bool_decide_false).
       cbn [fst snd]. rewrite HN by by destruct ok. decide_options.
       change (responder (e <| ev_device ::= fun d => d <| dv_responder_cookie := state' |> |>
                            <| ev_world := w |>)) with state'.
       split; [split; by rewrite ?K1, ?K2|]. unfold arrival_credit in *. rewrite K1, K2, K3, K4, ER.
       cbn [cost_if] in HA. split; [lia|]. intros s. lia. }
  pose proof (admit_source_spec state source now (so_entries _ HOk1) HO) as HS.
  unfold admit_source, charged in HS. destruct (FindRateLimitEntry state source now) as [ [i|] state1].
  2: { destruct HS as (HE & HAr & HSrc). injection HAr as A1 A2 A3. cbn [fst snd]. decide_options.
       change (responder (e <| ev_device ::= fun d => d <| dv_responder_cookie := state1 |> |>)) with state1.
       split; [split; [rewrite A1; apply HOk1|exact HE]|]. unfold arrival_credit in *. rewrite A1, A2, A3.
       cbn [cost_if] in HA. split; [lia|]. intros s. specialize (HSrc s). rewrite ER in HSrc.
       cbn [andb cost_if] in HSrc. lia. }
  destruct (ConsumeHandshakeRate _ _ _ _) as [allowed [ [tokens last] init] ].
  destruct HS as (HE & HAr & HSrc). injection HAr as A1 A2 A3. cbn [fst snd].
  set (state2 := state1 <| rc_rate_limits ::= _ |>) in *.
  assert ((if bool_decide ((if allowed then ResponderHandshakeAdmission_Accepted
            else ResponderHandshakeAdmission_RateLimited) = ResponderHandshakeAdmission_Accepted)
           then Some true else None) = if allowed then Some true else None) as -> by by destruct allowed.
  change (responder (e <| ev_device ::= fun d => d <| dv_responder_cookie := state2 |> |>)) with state2.
  assert (rc_arrival_tokens state2 = rc_arrival_tokens state /\
    rc_arrival_last_update state2 = rc_arrival_last_update state /\
    rc_arrival_initialized state2 = rc_arrival_initialized state) as (B1 & B2 & B3) by done.
  split; [split; [rewrite B1; apply HOk1|exact HE]|].
  unfold arrival_credit in *. rewrite B1, B2, B3. rewrite (bool_decide_false (_ = Some false)) by by destruct allowed.
  cbn [cost_if] in *. split; [lia|].
  intros s. specialize (HSrc s). rewrite ER in HSrc. by destruct allowed.
Qed.

(** ** Any sequence of packets *)

(** The admitted packets: where from, and whether under load. *)
Fixpoint admit_run (calls : list (bytes * endpoint * Z)) (e : Env) : list (endpoint * bool) :=
  match calls with
  | [] => []
  | (packet, source, now) :: rest =>
      option_list ((fun under => (source, under)) <$> admitted packet source now e)
      ++ admit_run rest (admit_next packet source now e)
  end.

(** The times of the calls do not decrease, from [t0] to [t1]. *)
Fixpoint ordered (t0 : Z) (calls : list (bytes * endpoint * Z)) (t1 : Z) : Prop :=
  match calls with
  | [] => t0 <= t1
  | (_, _, now) :: rest => t0 <= now /\ ordered now rest t1
  end.

Definition without_load (entry : endpoint * bool) : bool := negb (snd entry).
Definition under_load_from (s : endpoint) (entry : endpoint * bool) : bool :=
  snd entry && same_source s (fst entry).
Definition count (p : endpoint * bool -> bool) (l : list (endpoint * bool)) : Z :=
  Z.of_nat (length (List.filter p l)).

Lemma count_app p l l' : count p (l ++ l') = count p l + count p l'.
Proof. unfold count. rewrite List.filter_app, length_app. lia. Qed.

Lemma count_option p source how :
  HandshakeRateTokenCost * count p (option_list ((fun under => (source, under)) <$> how))
  = cost_if (match how with Some under => p (source, under) | None => false end).
Proof.
  destruct how as [under|]; [|unfold count; cbn; lia]. unfold count. cbn.
  destruct (p (source, under)); cbn; lia.
Qed.

Lemma admit_run_bounds calls t0 t1 e :
  state_ok (responder e) -> Forall (fun c => endpoint_ok (snd (fst c))) calls -> ordered t0 calls t1 ->
  HandshakeRateTokenCost * count without_load (admit_run calls e)
  <= arrival_credit (responder e) t0 + (t1 - t0) /\
  forall s, HandshakeRateTokenCost * count (under_load_from s) (admit_run calls e)
            <= source_credit s t0 (rc_rate_limits (responder e)) + (t1 - t0).
Proof.
  intros HOk HF. revert t0 e HOk. induction HF as [|[ [packet source] now] rest HO HF IH];
    intros t0 e HOk HT; cbn [admit_run ordered] in *.
  - pose proof (credit_bounds (rc_arrival_tokens (responder e)) (rc_arrival_last_update (responder e))
      (rc_arrival_initialized (responder e)) t0 ltac:(apply HOk)) as HC.
    unfold count, arrival_credit. cbn. split; [lia|]. intros s.
    pose proof (source_credit_bounds s t0 _ (so_entries _ HOk)). lia.
  - destruct HT as [HN HT]. cbn [fst snd] in HO.
    destruct (admit_step packet source now e HOk HO) as (HOk' & HA & HS).
    destruct (IH now _ HOk' HT) as [IA IS].
    split.
    + rewrite count_app, Z.mul_add_distr_l, count_option.
      pose proof (credit_grows (rc_arrival_tokens (responder e)) (rc_arrival_last_update (responder e))
        (rc_arrival_initialized (responder e)) t0 now HN) as HG. fold (arrival_credit (responder e) now) in HG.
      fold (arrival_credit (responder e) t0) in HG.
      replace (match admitted packet source now e with Some under => without_load (source, under) | None => false end)
        with (bool_decide (admitted packet source now e = Some false))
        by (destruct (admitted packet source now e) as [ []|]; reflexivity). lia.
    + intros s. specialize (HS s). specialize (IS s).
      rewrite count_app, Z.mul_add_distr_l, count_option.
      pose proof (source_credit_grows s (rc_rate_limits (responder e)) t0 now HN) as HG.
      replace (match admitted packet source now e with Some under => under_load_from s (source, under) | None => false end)
        with (bool_decide (admitted packet source now e = Some true) && same_source s source)
        by (destruct (admitted packet source now e) as [ []|]; reflexivity). lia.
Qed.

(** C15. Admission is bounded.  Over any sequence of handshake packets, from any
    sources, at times that do not decrease and span [t1 - t0] nanoseconds, the
    responder admits at most 5 packets plus 20 per second without asking for a
    cookie, and, under load, at most 5 plus 20 per second from any one source
    address, although the table of sources has only eight entries and reuses
    them. *)
Theorem admission_bounded calls t0 t1 e
    (HOk : state_ok (responder e)) (HF : Forall (fun c => endpoint_ok (snd (fst c))) calls)
    (HT : ordered t0 calls t1) :
  50000000 * count without_load (admit_run calls e) <= 5 * 50000000 + (t1 - t0) /\
  forall s, 50000000 * count (under_load_from s) (admit_run calls e) <= 5 * 50000000 + (t1 - t0).
Proof.
  destruct (admit_run_bounds calls t0 t1 e HOk HF HT) as [HA HS].
  destruct rate_constants as (EC & EM & _). rewrite EC in HA. split.
  - pose proof (credit_bounds (rc_arrival_tokens (responder e)) (rc_arrival_last_update (responder e))
      (rc_arrival_initialized (responder e)) t0 ltac:(apply HOk)) as HC.
    unfold arrival_credit in HA. lia.
  - intros s. specialize (HS s). rewrite EC in HS.
    pose proof (source_credit_bounds s t0 _ (so_entries _ HOk)). lia.
Qed.
End Admit.

(** The state a device starts with satisfies the hypothesis; the bucket lets five
    packets through at once and refuses the sixth. *)
Fixpoint bucket_run (times : list Z) (tokens last_update : Z) (initialized : bool) : list bool :=
  match times with
  | [] => []
  | now :: rest =>
      let '(accepted, (tokens, last_update, initialized)) :=
        ConsumeHandshakeRate tokens last_update initialized now in
      accepted :: bucket_run rest tokens last_update initialized
  end.
Example bucket_burst :
  bucket_run (replicate 6 1000 ++ [50001000; 50001001]) 0 0 false
  = [true; true; true; true; true; false; true; false].
Proof. vm_compute. reflexivity. Qed.

Definition sample_source : endpoint := mk_endpoint address_family_inet 51820 ([10; 0; 0; 1] ++ zeros 12).

Lemma admission_bounded_witness :
  let e := mk_env (sample_world 1000 10 1) device_init in
  50000000 * count without_load (@admit_run toy_primitives [(zeros 148, sample_source, 7)] e) <= 5 * 50000000 + (9 - 3).
Proof.
  apply (@admission_bounded toy_primitives [(zeros 148, sample_source, 7)] 3 9 (mk_env (sample_world 1000 10 1) device_init)).
  - apply responder_cookie_init_ok.
  - repeat constructor.
  - cbn. lia.
Defined.
