(* ===== verification/Cookie.v ===== *)
(** * Cookies end to end

    A responder under load answers an initiation with a cookie reply; the
    initiator decrypts it, authenticates its last initiation again, and the
    responder then finds the second code in order.  The two sides are
    [CreateCookieReply] and [CheckPacketMac2] of [Admission.v] and
    [noise_handshake_consume_cookie_reply] of [Handshake.v]. *)

From S2P Require Import Prelude Endian Messages Platform Session Base64 Crypto Device.
From S2P Require Import Data Identity Noise Admission Macs Handshake Agreement RateLimit Exchange.
Local Open Scope Z_scope.

Section Cookie.
Context {P : Primitives} {L : PrimitivesLaws P}.

(** ** The responder's side *)

Lemma ComputeCookieKey_Some rs :
  key_valid rs = true -> exists k, ComputeCookieKey rs = Some k /\ bytes_of 32 k.
Proof.
  intros HV. unfold ComputeCookieKey. rewrite HV. cbn [negb]. unfold NoiseSymmetricKeySize.
  rewrite hash_two by auto with wg. apply digest_Some. auto with wg.
Qed.

Lemma ComputeCookieKey_bytes rs rs' :
  key_valid rs = true -> key_valid rs' = true -> key_bytes rs = key_bytes rs' ->
  ComputeCookieKey rs = ComputeCookieKey rs'.
Proof. intros V V' E. unfold ComputeCookieKey. by rewrite V, V', E. Qed.

(** The cookie of a source under a secret. *)
Definition cookie_of (state : ResponderCookieState) (source : endpoint) : option bytes :=
  source_bytes ← BuildSourceBytes source;
  Blake2sHash CookieValueSize source_bytes (key_bytes (rc_secret state)).

Lemma cookie_of_Some state source :
  ep_family source <> address_family_unspecified -> bytes_of 32 (key_bytes (rc_secret state)) ->
  exists cookie, cookie_of state source = Some cookie /\ bytes_of 16 cookie.
Proof.
  intros HF HS. unfold cookie_of, BuildSourceBytes.
  rewrite (proj2 (Nat.eqb_neq (SourceAddressSize source) 0)).
  - cbn [mbind option_bind]. apply digest_of_16. by right.
  - unfold SourceAddressSize. by destruct (ep_family source).
Qed.

(** What [CreateCookieReply] answers to a packet with a receiver index. *)
Record reply_created (state state' : ResponderCookieState) (local_static : noise_public_key)
    (packet : bytes) (source : endpoint) (now : Z) (c : message_handshake_cookie) : Prop := {
  cr_ok : cookie_reply_ok c;
  cr_receiver : hc_receiver_index c = LoadLe32 (drop MessageTypeSize packet);
  cr_secret : key_valid (rc_secret state') = true /\ bytes_of 32 (key_bytes (rc_secret state'));
  cr_birth : rc_secret_birth state' = now \/
    rc_secret state' = rc_secret state /\ rc_secret_birth state' = rc_secret_birth state /\
    secret_unusable state now = false;
  cr_opens : forall key cookie, ComputeCookieKey local_static = Some key ->
    cookie_of state' source = Some cookie ->
    xchacha20poly1305_decrypt CookieValueSize (take CookieValueSize (hc_encrypted_cookie c))
      (drop (length (hc_encrypted_cookie c) - NoiseTagSize) (hc_encrypted_cookie c))
      (subspan packet (length packet - 2 * NoiseMacSize) NoiseMacSize) key (hc_nonce c) = Some cookie
}.

Lemma CreateCookieReply_spec state local_static packet source now out_cookie w :
  key_valid local_static = true -> ep_family source <> address_family_unspecified -> world_ok w ->
  key_ok (rc_secret state) -> bytes_ok packet ->
  LoadLe32 (drop MessageTypeSize packet) <> 0 ->
  exists state' c w', CreateCookieReply state local_static packet source now out_cookie w
                      = (true, state', c, w') /\
    reply_created state state' local_static packet source now c.
Proof.
  intros HV HF HW HS HB HR. unfold CreateCookieReply. rewrite HV. cbn [negb].
  set (renewed := if secret_unusable state now then _ else _).
  assert (exists st w1, renewed = (st, w1) /\ world_ok w1 /\ key_valid (rc_secret st) = true /\
    bytes_of 32 (key_bytes (rc_secret st)) /\
    (rc_secret_birth st = now \/ rc_secret st = rc_secret state /\
     rc_secret_birth st = rc_secret_birth state /\ secret_unusable state now = false))
    as (st & w1 & -> & HW1 & HV1 & HS1 & HBirth).
  { unfold renewed. destruct (secret_unusable state now) eqn:EU.
    - pose proof (get_random_bytes_ok 32 w HW) as HR1. pose proof (get_random_bytes_world 32 w HW) as HR2.
      destruct (get_random_bytes 32 w) as [secret w1]. do 2 eexists. split; [reflexivity|].
      split; [done|]. split; [done|]. split; [done|]. by left.
    - do 2 eexists. split; [reflexivity|]. split; [done|]. split; [|split; [done|by right]].
      unfold secret_unusable in EU. by bool_prop. }
  cbv iota. destruct (cookie_of_Some st source HF HS1) as (cookie & EC & HCo).
  destruct (ComputeCookieKey_Some local_static HV) as (key & EK & HK).
  assert ((source_bytes ← BuildSourceBytes source;
           cookie0 ← Blake2sHash CookieValueSize source_bytes (key_bytes (rc_secret st));
           key0 ← ComputeCookieKey local_static; Some (cookie0, key0)) = Some (cookie, key)) as ->.
  { unfold cookie_of in EC. destruct (BuildSourceBytes source) as [sb|]; [|done]. cbn [mbind option_bind] in *.
    rewrite EC. cbn [mbind option_bind]. rewrite EK. done. }
  pose proof (get_random_bytes_ok CookieNonceSize w1 HW1) as HN.
  destruct (get_random_bytes CookieNonceSize w1) as [nonce w2]. cbn [fst] in HN. cbv zeta.
  set (c0 := cookie_reply_init <| hc_type := _ |> <| hc_receiver_index := _ |>).
  change (hc_receiver_index (c0 <| hc_nonce := nonce |>)) with (LoadLe32 (drop MessageTypeSize packet)).
  rewrite (proj2 (Z.eqb_neq _ _)) by done. unfold xchacha20poly1305_encrypt.
  rewrite (proj2 (Nat.eqb_eq _ _)) by (by destruct HCo). cbn [negb].
  set (aad := subspan packet (length packet - 2 * NoiseMacSize) NoiseMacSize).
  assert (bytes_ok aad) as HAad by by apply bytes_ok_subspan.
  destruct HCo as [HCl HCb].
  destruct (aead_sizes _ _ _ x_laws key nonce aad cookie HK HN HAad HCb) as [ [S1 B1] [S2 B2] ].
  pose proof (aead_read_write _ _ _ x_laws key nonce aad cookie HK HN HAad HCb) as HRW.
  destruct (crypto_aead_x_write key nonce aad cookie) as [ct tag]. cbn [fst snd] in *.
  do 3 eexists. split; [reflexivity|]. rewrite HCl in S1.
  assert (length (ct ++ tag) = 32%nat) as HLen by (rewrite length_app; lia).
  split; cbn [rc_secret rc_secret_birth].
  - split; [done|]. split.
    + change (is_u32 (LoadLe32 (drop MessageTypeSize packet))). auto with wg.
    + split; [exact HN|]. split; [exact HLen|]. apply bytes_ok_app. by split.
  - done.
  - by split.
  - exact HBirth.
  - intros key' cookie' EK' EC'. rewrite EK in EK'. rewrite EC in EC'. simplify_eq.
    match goal with |- context [hc_encrypted_cookie ?x] =>
      change (hc_encrypted_cookie x) with (ct ++ tag); change (hc_nonce x) with nonce end.
    rewrite HLen.
    change (32 - NoiseTagSize)%nat with 16%nat. change CookieValueSize with 16%nat.
    rewrite take_app_length', drop_app_length' by lia.
    unfold xchacha20poly1305_decrypt. rewrite S1, Nat.eqb_refl. exact HRW.
Qed.

(** ** The initiator's side *)

(** A peer that sent an initiation and may receive a cookie reply to it. *)
Record awaiting_reply (e : Env) (m : message_handshake_initiation) : Prop := {
  aw_world : world_ok (ev_world e);
  aw_remote : key_valid (remote_static (the_identity e)) = true;
  aw_last : pr_has_last_initiation (the_peer e) = true /\ pr_last_initiation (the_peer e) = m;
  aw_message : initiation_ok m;
  aw_mac1 : ck_has_last_mac1 (pr_cookie (the_peer e)) = true /\
    ck_last_mac1 (pr_cookie (the_peer e)) = mac1 (hi_macs m);
  aw_index : wg_device_index_matches_slot (ev_device e) wg_index_slot_Handshake (hi_sender_index m) = true;
  (** the clock that dates the cookie and checks it *)
  aw_clock : let now := w_monotonic (ev_world e) (w_monotonic_reads (ev_world e)) in
    let later := w_monotonic (ev_world e) (S (w_monotonic_reads (ev_world e))) in
    0 < now /\ now <= later <= now + seconds 120
}.

Lemma sent_awaits e e' m own other psk eph ck h :
  initiation_sent e e' m own other psk eph ck h ->
  key_valid (remote_static (the_identity e)) = true ->
  (let now := w_monotonic (ev_world e') (w_monotonic_reads (ev_world e')) in
   let later := w_monotonic (ev_world e') (S (w_monotonic_reads (ev_world e'))) in
   0 < now /\ now <= later <= now + seconds 120) ->
  awaiting_reply e' m.
Proof.
  intros HS HR HC. destruct (is_last _ _ _ _ _ _ _ _ _ HS). destruct (is_mac1_kept _ _ _ _ _ _ _ _ _ HS).
  split; try done; [apply HS|by rewrite (is_identity _ _ _ _ _ _ _ _ _ HS)|apply HS|apply HS].
Qed.

Lemma matches_receiver device index :
  wg_device_index_matches_slot device wg_index_slot_Handshake index = true ->
  MatchesCookieReceiverIndex device index = true.
Proof.
  unfold wg_device_index_matches_slot, MatchesCookieReceiverIndex, wg_device_lookup_index_slot.
  destruct (index =? 0); [done|]. unfold lookup_slots. cbn [List.find GetRegistryEntry].
  unfold entry_matches. cbn [GetRegistryEntry].
  destruct (re_active _); [|done]. cbn [andb]. intros ->. by rewrite bool_decide_true.
Qed.

(** The cookie is stored and the last initiation authenticated again. *)
Lemma consume_cookie_reply_accepts e m c key cookie :
  awaiting_reply e m -> hc_type c = 3 -> hc_receiver_index c = hi_sender_index m ->
  ComputeCookieKey (remote_static (the_identity e)) = Some key -> bytes_of 16 cookie ->
  xchacha20poly1305_decrypt CookieValueSize (take CookieValueSize (hc_encrypted_cookie c))
    (drop (length (hc_encrypted_cookie c) - NoiseTagSize) (hc_encrypted_cookie c))
    (mac1 (hi_macs m)) key (hc_nonce c) = Some cookie ->
  exists e' mac, noise_handshake_consume_cookie_reply c e = (Some tt, e') /\
    bytes_of 16 mac /\
    Blake2sHash NoiseMacSize (body m ++ mac1 (hi_macs (pr_last_initiation (the_peer e')))) cookie = Some mac /\
    pr_last_initiation (the_peer e') = set_macs (mk_macs (mac1 (hi_macs (pr_last_initiation (the_peer e')))) mac) m /\
    mac1_of (remote_static (the_identity e)) (body m)
    = Some (mac1 (hi_macs (pr_last_initiation (the_peer e')))) /\
    bytes_of 16 (mac1 (hi_macs (pr_last_initiation (the_peer e')))) /\
    ck_value (pr_cookie (the_peer e')) = cookie.
Proof.
  intros [HW HRem [HL1 HL2] HM [HC1 HC2] HIdx [T1 T2] ] HT HRx EK HCo ED.
  unfold noise_handshake_consume_cookie_reply. rewrite bind_gets. change (id e) with e.
  rewrite bind_require, HRem, bind_require, HT, bool_decide_true, bind_require, HRx by done.
  rewrite matches_receiver by done. rewrite bind_require, HC1. rewrite HC2.
  rewrite bind_try_opt, EK, bind_try_opt, ED, bind_step_with, bind_modify, bind_gets.
  unfold on_world. cbn [GetMonotonicTime ktime_get_coarse_boottime_ns fst snd].
  set (now := w_monotonic (ev_world e) (w_monotonic_reads (ev_world e))) in *.
  set (w1 := (ev_world e) <| w_monotonic_reads ::= S |>).
  set (e1 := on_peer _ (e <| ev_world := w1 |>)). change (id e1) with e1.
  change (pr_has_last_initiation (the_peer e1)) with (pr_has_last_initiation (the_peer e)). rewrite HL1.
  set (cookie1 := pr_cookie (the_peer e1)).
  assert (ck_value cookie1 = cookie) as EV by done.
  assert (noise_cookie_is_valid cookie1 w1 = (true, w1 <| w_monotonic_reads ::= S |>)) as EValid.
  { unfold noise_cookie_is_valid. change (ck_valid cookie1) with true. cbn [negb].
    unfold GetMonotonicTime, ktime_get_coarse_boottime_ns. change (ck_birth_time cookie1) with now.
    change (w_monotonic w1 (w_monotonic_reads w1)) with (w_monotonic (ev_world e) (S (w_monotonic_reads (ev_world e)))).
    rewrite (proj2 (Z.ltb_lt _ _)), !(proj2 (Z.leb_le _ _)) by lia. done. }
  assert (world_ok w1) as HW1 by by apply (GetMonotonicTime_world (ev_world e)).
  destruct (ApplyOutgoingMacs_spec (ML := initiation_mac_laws) m (remote_static (the_identity e)) cookie1 w1
    HM HRem ltac:(by rewrite EV) HW1) as (m1 & m2 & E1 & Hm1 & Hm2 & E2 & _ & EA).
  rewrite EValid in E2. specialize (E2 eq_refl). rewrite EV in E2.
  unfold renew_last_initiation, apply_outgoing_macs. cbn [wd_dst wd_env].
  change (pr_last_initiation (the_peer e1)) with (pr_last_initiation (the_peer e)). rewrite HL2.
  change (remote_static (the_identity e1)) with (remote_static (the_identity e)).
  change (pr_cookie (the_peer e1)) with cookie1. change (ev_world e1) with w1. rewrite EA. cbn [wd_dst wd_env].
  do 2 eexists. split; [reflexivity|].
  assert (mac1 (hi_macs (set_macs (mk_macs m1 m2) m)) = m1) as EM1 by by destruct m.
  match goal with |- context [pr_last_initiation (the_peer ?x)] =>
    change (pr_last_initiation (the_peer x)) with (set_macs (mk_macs m1 m2) m) end.
  rewrite EM1. split; [exact Hm2|]. split; [exact E2|]. by split_and!.
Qed.

(** ** Both sides *)

Lemma CheckPacketMac2_accepts state m source now cookie :
  initiation_ok m -> secret_unusable state now = false -> cookie_of state source = Some cookie ->
  Blake2sHash NoiseMacSize (body m ++ mac1 (hi_macs m)) cookie = Some (mac2 (hi_macs m)) ->
  CheckPacketMac2 state (enc_initiation m) source now = true.
Proof.
  intros HM HU HC HH. unfold CheckPacketMac2. rewrite HU.
  pose proof (ok_macs (MacMessageLaws := initiation_mac_laws) m HM) as [ [L1 _] [L2 _] ].
  change (get_macs m) with (hi_macs m) in *.
  rewrite enc_initiation_body. unfold enc_macs. rewrite app_assoc.
  set (covered := body_initiation m ++ mac1 (hi_macs m)) in *.
  assert (length (covered ++ mac2 (hi_macs m)) - NoiseMacSize = length covered)%nat as ->
    by (rewrite length_app, L2; lia).
  rewrite take_app_length, drop_app_length. unfold cookie_of in HC.
  destruct (BuildSourceBytes source) as [sb|]; [|done]. cbn [mbind option_bind] in *. rewrite HC.
  cbn [mbind option_bind]. change (body m) with (body_initiation m) in HH. fold covered in HH. rewrite HH.
  by apply secure_equal_spec.
Qed.

Lemma initiation_words m :
  initiation_ok m -> LoadLe32 (drop MessageTypeSize (enc_initiation m)) = hi_sender_index m.
Proof.
  intros (HT & HI & _). unfold enc_initiation. rewrite drop_app_length' by done.
  by apply LoadLe32_StoreLe32.
Qed.

Lemma initiation_mac1_field m :
  initiation_ok m ->
  subspan (enc_initiation m) (length (enc_initiation m) - 2 * NoiseMacSize) NoiseMacSize = mac1 (hi_macs m).
Proof.
  intros HM. pose proof (ok_macs (MacMessageLaws := initiation_mac_laws) m HM) as [ [L1 _] [L2 _] ].
  change (get_macs m) with (hi_macs m) in *. rewrite enc_initiation_body. unfold enc_macs.
  rewrite !length_app, L1, L2.
  replace (length (body_initiation m) + (NoiseMacSize + NoiseMacSize) - 2 * NoiseMacSize)%nat
    with (length (body_initiation m)) by lia.
  unfold subspan. rewrite drop_app_length. by apply take_app_length'.
Qed.

(** C16. Cookies work end to end.  A responder answers an initiation with a cookie
    reply that, parsed from its bytes, the initiator accepts as long as the
    initiation is the one it is waiting on and its clock runs forward.  The
    initiator then holds the same initiation with fresh codes: both the first code
    and, for as long as the responder keeps its secret (at most 120 seconds), the
    second code pass the responder's checks for the same source. *)
Theorem cookie_round_trip e m state local_static source now w
    (HA : awaiting_reply e m)
    (HLs : key_valid local_static = true)
    (HKey : key_bytes local_static = key_bytes (remote_static (the_identity e)))
    (HF : ep_family source <> address_family_unspecified)
    (HW : world_ok w) (HS : key_ok (rc_secret state)) :
  exists state' c w' e',
    CreateCookieReply state local_static (enc_initiation m) source now cookie_reply_init w
    = (true, state', c, w') /\
    noise_handshake_consume_incoming_packet (enc_cookie_reply c) e
    = (HandshakePacketOutcome_CookieReplyConsumed, e') /\
    let m' := pr_last_initiation (the_peer e') in
    body m' = body m /\ initiation_ok m' /\
    VerifyPacketMac1 (enc_initiation m') local_static = true /\
    forall now', 0 < rc_secret_birth state' <= now' -> now' <= rc_secret_birth state' + seconds 120 ->
      CheckPacketMac2 state' (enc_initiation m') source now' = true.
Proof.
  pose proof (aw_message _ _ HA) as HM.
  assert (hi_sender_index m <> 0) as HI.
  { pose proof (aw_index _ _ HA) as HIdx. unfold wg_device_index_matches_slot in HIdx.
    destruct (Z.eqb_spec (hi_sender_index m) 0); [done|done]. }
  assert (bytes_ok (enc_initiation m)) as HBytes.
  { rewrite enc_initiation_body. pose proof (ok_macs (MacMessageLaws := initiation_mac_laws) m HM) as [ [_ B1] [_ B2] ].
    pose proof (body_ok (MacMessageLaws := initiation_mac_laws) m HM) as [_ B0].
    apply bytes_ok_app. split; [exact B0|]. by apply bytes_ok_app. }
  destruct (CreateCookieReply_spec state local_static (enc_initiation m) source now cookie_reply_init w HLs HF HW HS
    HBytes ltac:(by rewrite initiation_words)) as (state' & c & w' & ER & [C1 C2 [C3 C3'] C4 C5]).
  rewrite initiation_words in C2 by done. rewrite initiation_mac1_field in C5 by done.
  destruct (ComputeCookieKey_Some local_static HLs) as (key & EK & _).
  destruct (cookie_of_Some state' source HF C3') as (cookie & EC & HCo).
  specialize (C5 key cookie EK EC).
  destruct (consume_cookie_reply_accepts e m c key cookie HA (proj1 C1) C2) as
    (e' & mac & E1 & Hmac & E2 & E3 & E4 & Hm1 & _); [|done|done|].
  { rewrite <- EK. symmetry. apply ComputeCookieKey_bytes; [done|apply HA|done]. }
  exists state', c, w', e'. split; [exact ER|]. split.
  { unfold noise_handshake_consume_incoming_packet.
    destruct (ParseHandshakeCookie_enc c cookie_reply_init C1) as [-> ->].
    cbn [pr_success pr_type MakeSuccess negb]. unfold run_bool. by rewrite E1. }
  set (m' := pr_last_initiation (the_peer e')) in *. cbv zeta.
  assert (body m' = body m) as EB by (rewrite E3; apply (body_set (MacMessageLaws := initiation_mac_laws))).
  assert (mac2 (hi_macs m') = mac) as EM2 by (rewrite E3; by destruct m).
  assert (initiation_ok m') as HM'.
  { rewrite E3. by apply (ok_set (MacMessageLaws := initiation_mac_laws)). }
  split; [exact EB|]. split; [exact HM'|]. split.
  - rewrite enc_initiation_body. change (body_initiation m') with (body m').
    rewrite (VerifyPacketMac1_spec (ML := initiation_mac_laws) m' local_static HM').
    apply (VerifyMac1_spec (ML := initiation_mac_laws) m' local_static HM'). split; [done|].
    rewrite EB. rewrite (mac1_of_key local_static _ _ HKey). exact E4.
  - intros now' H1 H2. apply (CheckPacketMac2_accepts state' m' source now' cookie HM').
    + unfold secret_unusable. rewrite C3. change CookieRefreshTime with (seconds 120).
      rewrite (proj2 (Z.eqb_neq _ _)), !(proj2 (Z.ltb_ge _ _)) by lia. done.
    + exact EC.
    + rewrite EB, EM2. exact E2.
Qed.
End Cookie.

Lemma cookie_round_trip_witness :
  exists e m state' c w' e',
    @CreateCookieReply toy_primitives responder_cookie_init
      (mk_key (@crypto_x25519_public_key toy_primitives key_b) true) (enc_initiation m) sample_source 77
      cookie_reply_init (sample_world 5 1 2) = (true, state', c, w') /\
    @noise_handshake_consume_incoming_packet toy_primitives (enc_cookie_reply c) e
    = (HandshakePacketOutcome_CookieReplyConsumed, e').
Proof.
  destruct (@device_initiation_spec toy_primitives toy_laws (@sample_env toy_primitives 9 key_a key_b)
    initiation_init key_a key_b sample_psk) as (e & m & eph & ck & h & _ & HS).
  - apply (bool_decide_unpack _). vm_compute. exact I.
  - apply (bool_decide_unpack _). vm_compute. exact I.
  - apply sample_ready.
  - destruct (@cookie_round_trip toy_primitives toy_laws e m responder_cookie_init
      (mk_key (@crypto_x25519_public_key toy_primitives key_b) true) sample_source 77 (sample_world 5 1 2))
      as (state' & c & w' & e' & H1 & H2 & _).
    + apply (sent_awaits _ _ _ _ _ _ _ _ _ HS); [reflexivity|].
      destruct (is_services _ _ _ _ _ _ _ _ _ HS) as [-> _]. cbn -[Z.mul Z.add Z.of_nat]. unfold seconds, NSEC_PER_SEC. lia.
    + reflexivity.
    + rewrite (is_identity _ _ _ _ _ _ _ _ _ HS). reflexivity.
    + discriminate.
    + apply sample_world_ok.
    + apply key_init_ok.
    + exists e, m, state', c, w', e'. by split.
Defined.
