(* ===== verification/Abort.v ===== *)
(** * Code that can abort

    The runtime calls [std::abort] when one of its bounds is exceeded.  A
    computation of [Run S A] threads the state [S] and is [None] once the process
    has aborted; an early [return] is an ordinary branch.  [wp] is its weakest
    precondition, with a parameter that says whether aborting is acceptable. *)

From S2P Require Import Prelude.

Definition Run (S A : Type) : Type := S -> option (A * S).

#[export] Instance Run_ret S : MRet (Run S) := fun _ a s => Some (a, s).
#[export] Instance Run_bind S : MBind (Run S) := fun _ _ k m s =>
  match m s with
  | Some (a, s') => k a s'
  | None => None
  end.

Section Operations.
Context {S : Type}.

(** [std::abort()] *)
Definition abort {A} : Run S A := fun _ => None.
(** Reading a part of the state, changing it, and calling an operation on it. *)
Definition reads {A} (f : S -> A) : Run S A := fun s => Some (f s, s).
Definition change (f : S -> S) : Run S unit := fun s => Some (tt, f s).
Definition call {A} (f : S -> A * S) : Run S A := fun s => Some (f s).
(** [if (c) { ... }] without an else branch. *)
Definition when (c : bool) (m : Run S unit) : Run S unit := if c then m else mret tt.
(** A loop over a list. *)
Fixpoint each {A} (f : A -> Run S unit) (l : list A) : Run S unit :=
  match l with
  | [] => mret tt
  | a :: l => f a ≫= fun _ => each f l
  end.
End Operations.

(** ** Weakest preconditions *)

Section Wp.
Context {S : Type} (aborting : Prop).

Definition wp {A} (m : Run S A) (Q : A -> S -> Prop) (s : S) : Prop :=
  match m s with
  | Some (a, s') => Q a s'
  | None => aborting
  end.

Lemma wp_bind {A B} (m : Run S A) (k : A -> Run S B) Q s :
  wp m (fun a => wp (k a) Q) s -> wp (m ≫= k) Q s.
Proof. unfold wp, mbind, Run_bind. by destruct (m s) as [ [a s']|]. Qed.
Lemma wp_mono {A} (m : Run S A) (Q Q' : A -> S -> Prop) s :
  wp m Q s -> (forall a s', Q a s' -> Q' a s') -> wp m Q' s.
Proof. unfold wp. destruct (m s) as [ [a s']|]; auto. Qed.
Lemma wp_conj {A} (m : Run S A) (Q Q' : A -> S -> Prop) s :
  wp m Q s -> wp m Q' s -> wp m (fun a s' => Q a s' /\ Q' a s') s.
Proof. unfold wp. destruct (m s) as [ [a s']|]; auto. Qed.
Lemma wp_seq {A B} (m : Run S A) (k : A -> Run S B) (R : A -> S -> Prop) Q s :
  wp m R s -> (forall a s', R a s' -> wp (k a) Q s') -> wp (m ≫= k) Q s.
Proof. intros Hm Hk. apply wp_bind. by eapply wp_mono. Qed.
Lemma wp_ret {A} (a : A) (Q : A -> S -> Prop) s : Q a s -> wp (mret a) Q s.
Proof. done. Qed.
Lemma wp_reads {A} (f : S -> A) (Q : A -> S -> Prop) s : Q (f s) s -> wp (reads f) Q s.
Proof. done. Qed.
Lemma wp_change f (Q : unit -> S -> Prop) s : Q tt (f s) -> wp (change f) Q s.
Proof. done. Qed.
Lemma wp_call {A} (f : S -> A * S) (Q : A -> S -> Prop) s : Q (fst (f s)) (snd (f s)) -> wp (call f) Q s.
Proof. unfold wp, call. by destruct (f s). Qed.
Lemma wp_abort {A} (Q : A -> S -> Prop) s : aborting -> wp abort Q s.
Proof. done. Qed.
Lemma wp_if {A} (b : bool) (m m' : Run S A) Q s :
  (b = true -> wp m Q s) -> (b = false -> wp m' Q s) -> wp (if b then m else m') Q s.
Proof. destruct b; auto. Qed.
Lemma wp_when (b : bool) (m : Run S unit) (Q : unit -> S -> Prop) s :
  (b = true -> wp m Q s) -> (b = false -> Q tt s) -> wp (when b m) Q s.
Proof. destruct b; intros H H'; [by apply H|by apply H']. Qed.
Lemma wp_each {A} (f : A -> Run S unit) (l : list A) (I : list A -> S -> Prop) (Q : unit -> S -> Prop) s :
  I l s -> (forall a l' s', I (a :: l') s' -> wp (f a) (fun _ => I l') s') ->
  (forall s', I [] s' -> Q tt s') -> wp (each f l) Q s.
Proof.
  intros HI HS HQ. generalize dependent s. induction l as [|a l IH]; intros s HI; [by apply HQ|].
  cbn [each]. apply wp_bind. eapply wp_mono; [by apply HS|]. intros ? s'. apply IH.
Qed.
End Wp.

(** Whatever may abort may, with aborting excluded, not. *)
Lemma wp_total {S A} (m : Run S A) Q s : wp False m Q s -> exists a s', m s = Some (a, s') /\ Q a s'.
Proof. unfold wp. destruct (m s) as [ [a s']|]; [eauto|done]. Qed.
Lemma wp_partial {S A} (m : Run S A) Q s a s' : wp True m Q s -> m s = Some (a, s') -> Q a s'.
Proof. unfold wp. intros H E. by rewrite E in H. Qed.
Lemma wp_weaken {S A} (P P' : Prop) (m : Run S A) Q s : (P -> P') -> wp P m Q s -> wp P' m Q s.
Proof. unfold wp. destruct (m s) as [ [a s']|]; auto. Qed.

Lemma wp_none {S A} (m : Run S A) s : wp True m (fun _ _ => False) s -> m s = None.
Proof. unfold wp. by destruct (m s) as [ [a s']|]. Qed.

(** One step of symbolic execution. *)
Ltac wp_step :=
  lazymatch goal with
  | |- wp _ (_ ≫= _) _ _ => apply wp_bind
  | |- wp _ (mret _) _ _ => apply wp_ret
  | |- wp _ (reads _) _ _ => apply wp_reads
  | |- wp _ (change _) _ _ => apply wp_change
  | |- wp _ (call _) _ _ => apply wp_call
  | |- wp _ (when _ _) _ _ => apply wp_when; intros ?
  | |- wp _ (if _ then _ else _) _ _ => apply wp_if; intros ?
  | |- wp _ (let '(_, _) := ?p in _) _ _ => destruct p eqn:?
  end.
