(* ===== verification/RuntimeEvents.v ===== *)
(** * Events, effects and state of the peer runtime

    Models [runtime/domain_types.hpp], [runtime/timer_facts.hpp],
    [runtime/runtime_events.hpp], [runtime/udp_binding.hpp] and the data of
    [runtime/peer/peer_runtime.hpp].  A [DomainId] is the integer it wraps; zero
    is the absent identity.  Character arrays hold C strings.  The bounded
    [EffectBatch] aborts the process when it overflows. *)

From S2P Require Import Prelude Endian Messages PacketQueue Platform Session Timers Crypto Device.
From S2P Require Import Data Peer Abort.
Local Open Scope Z_scope.

(** ** Identities *)

(** [AllocateGeneration] on a 32-bit identity: the value, and the next one. *)
Definition AllocateGeneration (next : Z) : Z * Z :=
  let following := u32 (next + 1) in
  (next, if following =? 0 then 1 else following).

Definition IsCurrentGeneration (expected observed : Z) : bool :=
  negb (expected =? 0) && (expected =? observed).

Record PeerIdentity := mk_peer_identity { pi_peer_index : Z; pi_activation_generation : Z }.
#[export] Instance PeerIdentity_eq_dec : EqDecision PeerIdentity.
Proof. solve_decision. Defined.

(** Milliseconds, and a random word. *)
Record TimerFacts := mk_timer_facts { tf_now : Z; tf_random_u32 : Z }.

(** [std::snprintf(buffer, sizeof(buffer), "%s", text)] *)
Definition print_string (text buffer : bytes) : bytes :=
  write_at buffer 0 (take (length buffer - 1) (c_string text) ++ [0]).

(** ** Platform values *)

Inductive network_path_availability :=
  | network_path_unknown
  | network_path_unavailable
  | network_path_available.
#[export] Instance network_path_availability_eq_dec : EqDecision network_path_availability.
Proof. solve_decision. Defined.

Record network_path_observation := mk_observation {
  ob_availability : network_path_availability;
  ob_raw_state : Z;
  ob_state_result : Z;
  ob_operation_result : Z;
  ob_request_generation : Z
}.
#[export] Instance network_path_observation_eq_dec : EqDecision network_path_observation.
Proof. solve_decision. Defined.
Definition observation_init : network_path_observation := mk_observation network_path_unknown 0 0 0 0.

Inductive socket_error :=
  | socket_error_none
  | socket_error_invalid_endpoint
  | socket_error_transport_init_failed
  | socket_error_open_failed
  | socket_error_send_failed
  | socket_error_receive_failed.
#[export] Instance socket_error_eq_dec : EqDecision socket_error.
Proof. solve_decision. Defined.

Definition InvalidSocket : Z := -1.
Definition endpoint_init : endpoint := mk_endpoint address_family_unspecified 0 (zeros 16).

Inductive PeerRuntimeState :=
  | PeerRuntimeState_Inactive
  | PeerRuntimeState_ResolvingEndpoint
  | PeerRuntimeState_Handshaking
  | PeerRuntimeState_Active
  | PeerRuntimeState_Error.
#[export] Instance PeerRuntimeState_eq_dec : EqDecision PeerRuntimeState.
Proof. solve_decision. Defined.

Inductive PeerErrorStage :=
  | PeerErrorStage_None
  | PeerErrorStage_Config
  | PeerErrorStage_ResolveEndpoint
  | PeerErrorStage_Handshake
  | PeerErrorStage_Transport
  | PeerErrorStage_Internal.
#[export] Instance PeerErrorStage_eq_dec : EqDecision PeerErrorStage.
Proof. solve_decision. Defined.

Inductive PeerErrorCode :=
  | PeerErrorCode_None
  | PeerErrorCode_ConfigInvalid
  | PeerErrorCode_EndpointMissing
  | PeerErrorCode_EndpointMalformed
  | PeerErrorCode_EndpointResolutionFailed
  | PeerErrorCode_TransportInitFailed
  | PeerErrorCode_InternalFailure
  | PeerErrorCode_KeyInvalid
  | PeerErrorCode_HandshakeInitFailed
  | PeerErrorCode_TransportOpenFailed
  | PeerErrorCode_TransportSendFailed
  | PeerErrorCode_TransportReceiveFailed
  | PeerErrorCode_HandshakeTimedOut.
#[export] Instance PeerErrorCode_eq_dec : EqDecision PeerErrorCode.
Proof. solve_decision. Defined.

Record endpoint_resolution_result := mk_resolution {
  rr_success : bool;
  rr_error_stage : PeerErrorStage;
  rr_error_code : PeerErrorCode;
  rr_resolved : endpoint;
  rr_text : bytes
}.

(** ** Events *)

Record ActivationRequestedEvent := mk_activation_requested {
  ar_peer_index : Z;
  ar_occurred_at : Z
}.
Record DeactivationRequestedEvent := mk_deactivation_requested {
  dq_peer : PeerIdentity;
  dq_occurred_at : Z
}.
Record NetworkPathRequestStartedEvent := mk_path_started {
  ps_peer : PeerIdentity;
  ps_path_generation : Z;
  ps_success : bool;
  ps_occurred_at : Z
}.
Record NetworkPathAvailabilityChangedEvent := mk_path_changed {
  pc_peer : PeerIdentity;
  pc_path_generation : Z;
  pc_observation : network_path_observation;
  pc_occurred_at : Z
}.
Inductive TransportIoOperation := TransportIoOperation_Receive | TransportIoOperation_Send.
Record TransportFailureEvent := mk_transport_failure {
  tr_peer : PeerIdentity;
  tr_operation : TransportIoOperation;
  tr_socket : Z;
  tr_socket_generation : Z;
  tr_error : socket_error;
  tr_occurred_at : Z
}.
Record EndpointResolvedEvent := mk_endpoint_resolved {
  en_peer : PeerIdentity;
  en_path_generation : Z;
  en_result : endpoint_resolution_result;
  en_occurred_at : Z
}.
Inductive UdpBindPurpose := UdpBindPurpose_Activation | UdpBindPurpose_Rebind.
#[export] Instance UdpBindPurpose_eq_dec : EqDecision UdpBindPurpose.
Proof. solve_decision. Defined.
Record UdpBindOpenedEvent := mk_bind_opened {
  bo_peer : PeerIdentity;
  bo_path_generation : Z;
  bo_endpoint : endpoint;
  bo_endpoint_text : bytes;
  bo_socket : Z;
  bo_error : socket_error;
  bo_socket_generation : Z;
  bo_purpose : UdpBindPurpose;
  bo_timer_facts : TimerFacts;
  bo_occurred_at : Z
}.
Record UdpRebindRequestedEvent := mk_rebind_requested {
  rb_peer : PeerIdentity;
  rb_occurred_at : Z
}.
Record EncryptedDatagramReceivedEvent := mk_datagram_received {
  dg_peer : PeerIdentity;
  dg_packet : bytes;
  dg_source : endpoint;
  dg_source_text : bytes;
  dg_timer_facts : TimerFacts;
  dg_occurred_at : Z
}.
Record PendingDatagramSentEvent := mk_datagram_sent {
  ds_peer : PeerIdentity;
  ds_datagram_generation : Z;
  ds_bytes_sent : Z;
  ds_error : socket_error;
  ds_timer_facts : TimerFacts;
  ds_occurred_at : Z
}.
Record InnerPacketStagedEvent := mk_packet_staged {
  sp_peer : PeerIdentity;
  sp_packet : bytes;
  sp_packet_id : Z;
  sp_timer_facts : TimerFacts;
  sp_occurred_at : Z
}.
Definition MaximumInnerPacketBatchSize : nat := 3.
(** The arrays of the batch, of [MaximumInnerPacketBatchSize] elements. *)
Record InnerPacketBatchStagedEvent := mk_batch_staged {
  sb_peer : PeerIdentity;
  sb_packets : list bytes;
  sb_packet_ids : list Z;
  sb_count : nat;
  sb_timer_facts : TimerFacts;
  sb_occurred_at : Z
}.
Record ProcessOutboundQueueEvent := mk_process_queue {
  pq_peer : PeerIdentity;
  pq_timer_facts : TimerFacts;
  pq_occurred_at : Z
}.
Record ProtocolTimerExpiredEvent := mk_timer_expired {
  te_peer : PeerIdentity;
  te_hook : TimerHook;
  te_token : TimerToken;
  te_timer_facts : TimerFacts;
  te_occurred_at : Z
}.

Inductive PeerEvent :=
  | Event_ActivationRequested (event : ActivationRequestedEvent)
  | Event_DeactivationRequested (event : DeactivationRequestedEvent)
  | Event_NetworkPathRequestStarted (event : NetworkPathRequestStartedEvent)
  | Event_NetworkPathAvailabilityChanged (event : NetworkPathAvailabilityChangedEvent)
  | Event_TransportFailure (event : TransportFailureEvent)
  | Event_EndpointResolved (event : EndpointResolvedEvent)
  | Event_UdpBindOpened (event : UdpBindOpenedEvent)
  | Event_UdpRebindRequested (event : UdpRebindRequestedEvent)
  | Event_EncryptedDatagramReceived (event : EncryptedDatagramReceivedEvent)
  | Event_PendingDatagramSent (event : PendingDatagramSentEvent)
  | Event_InnerPacketStaged (event : InnerPacketStagedEvent)
  | Event_InnerPacketBatchStaged (event : InnerPacketBatchStagedEvent)
  | Event_ProcessOutboundQueue (event : ProcessOutboundQueueEvent)
  | Event_ProtocolTimerExpired (event : ProtocolTimerExpiredEvent).

(** [MaxEffectsForEvent], as [GetEventEffectBudget] selects it. *)
Definition GetEventEffectBudget (event : PeerEvent) : nat :=
  match event with
  | Event_ActivationRequested _ | Event_NetworkPathRequestStarted _ | Event_EndpointResolved _
  | Event_PendingDatagramSent _ | Event_InnerPacketStaged _ | Event_InnerPacketBatchStaged _
  | Event_ProcessOutboundQueue _ => 5
  | Event_TransportFailure _ => 6
  | Event_DeactivationRequested _ => 7
  | Event_NetworkPathAvailabilityChanged _ | Event_UdpBindOpened _ => 7
  | Event_UdpRebindRequested _ => 1
  | Event_EncryptedDatagramReceived _ | Event_ProtocolTimerExpired _ => 6
  end.

Definition GetPeerIdentity (event : PeerEvent) : PeerIdentity :=
  match event with
  | Event_ActivationRequested v => mk_peer_identity (ar_peer_index v) 0
  | Event_DeactivationRequested v => dq_peer v
  | Event_NetworkPathRequestStarted v => ps_peer v
  | Event_NetworkPathAvailabilityChanged v => pc_peer v
  | Event_TransportFailure v => tr_peer v
  | Event_EndpointResolved v => en_peer v
  | Event_UdpBindOpened v => bo_peer v
  | Event_UdpRebindRequested v => rb_peer v
  | Event_EncryptedDatagramReceived v => dg_peer v
  | Event_PendingDatagramSent v => ds_peer v
  | Event_InnerPacketStaged v => sp_peer v
  | Event_InnerPacketBatchStaged v => sb_peer v
  | Event_ProcessOutboundQueue v => pq_peer v
  | Event_ProtocolTimerExpired v => te_peer v
  end.

(** ** Effects *)

Record ResolveEndpointEffect := mk_resolve_endpoint {
  fe_peer : PeerIdentity;
  fe_path_generation : Z;
  fe_endpoint : bytes
}.
Record OpenUdpBindEffect := mk_open_bind {
  fo_peer : PeerIdentity;
  fo_path_generation : Z;
  fo_endpoint : endpoint;
  fo_endpoint_text : bytes;
  fo_socket_generation : Z;
  fo_replaces_socket : Z;
  fo_purpose : UdpBindPurpose
}.
Record ArmProtocolTimerEffect := mk_arm_timer {
  at_peer : PeerIdentity;
  at_hook : TimerHook;
  at_token : TimerToken;
  at_deadline : Z
}.
#[export] Instance eta_arm_timer : Eta ArmProtocolTimerEffect := fun r =>
  mk_arm_timer (at_peer r) (at_hook r) (at_token r) (at_deadline r).
Record CancelProtocolTimerEffect := mk_cancel_timer {
  ct_peer : PeerIdentity;
  ct_hook : TimerHook;
  ct_token : TimerToken
}.
#[export] Instance eta_cancel_timer : Eta CancelProtocolTimerEffect := fun r =>
  mk_cancel_timer (ct_peer r) (ct_hook r) (ct_token r).

Inductive RuntimeEffect :=
  | Effect_ResolveEndpoint (effect : ResolveEndpointEffect)
  | Effect_StartNetworkPathRequest (peer : PeerIdentity) (path_generation : Z)
  | Effect_StopNetworkPathRequest (peer : PeerIdentity) (path_generation : Z)
  | Effect_OpenUdpBind (effect : OpenUdpBindEffect)
  | Effect_CloseUdpSocket (path_generation socket : Z)
  | Effect_SendPendingDatagram (peer : PeerIdentity) (datagram_generation : Z)
  | Effect_SendCookieReply (peer : PeerIdentity) (destination : endpoint) (packet : bytes)
  | Effect_QueueReceive (peer : PeerIdentity)
  | Effect_ArmProtocolTimer (effect : ArmProtocolTimerEffect)
  | Effect_CancelProtocolTimer (effect : CancelProtocolTimerEffect)
  | Effect_QueueInnerPacketSubmission (peer : PeerIdentity)
  | Effect_PublishDecryptedPacket (peer : PeerIdentity) (packet_generation : Z)
  | Effect_ArmDebugProbeTimeout (peer : PeerIdentity) (deadline : Z)
  | Effect_CancelDebugProbeTimeout.

(** The effects added so far, oldest first. *)
Abbreviation EffectBatch := (list RuntimeEffect).
Definition EffectBatchCapacity : nat := 8.

(** [None] when the capacity is exhausted. *)
Definition TryAdd (effect : RuntimeEffect) (batch : EffectBatch) : option EffectBatch :=
  if (length batch =? EffectBatchCapacity)%nat then None else Some (batch ++ [effect]).
Definition TryAppend (other batch : EffectBatch) : option EffectBatch :=
  if (EffectBatchCapacity - length batch <? length other)%nat then None else Some (batch ++ other).

(** ** The UDP binding *)

Record UdpBinding := mk_binding {
  ub_endpoint : endpoint;
  ub_endpoint_text : bytes;
  ub_socket : Z;
  ub_generation : Z;
  ub_has_endpoint : bool;
  ub_suspended : bool
}.
#[export] Instance eta_binding : Eta UdpBinding := fun r =>
  mk_binding (ub_endpoint r) (ub_endpoint_text r) (ub_socket r) (ub_generation r) (ub_has_endpoint r)
    (ub_suspended r).
Definition binding_init : UdpBinding := mk_binding endpoint_init (zeros 64) InvalidSocket 0 false false.

(** [SetEndpoint] with a text that is not null. *)
Definition SetEndpoint (e : endpoint) (text : bytes) (b : UdpBinding) : UdpBinding :=
  b <| ub_endpoint := e |> <| ub_endpoint_text ::= print_string text |> <| ub_has_endpoint := true |>.
Definition ClearEndpoint (b : UdpBinding) : UdpBinding :=
  b <| ub_endpoint := endpoint_init |> <| ub_endpoint_text ::= <[0%nat := 0]> |>
    <| ub_has_endpoint := false |>.
Definition Binding_IsOpen (b : UdpBinding) : bool := negb (ub_socket b =? InvalidSocket).
(** [None] is the abort on a socket that was not released. *)
Definition AdoptOpenSocket (e : endpoint) (text : bytes) (generation socket : Z) (b : UdpBinding)
    : option UdpBinding :=
  if Binding_IsOpen b then None
  else
    Some ((SetEndpoint e text b) <| ub_socket := socket |> <| ub_generation := generation |>
            <| ub_suspended := false |>).
Definition ReleaseSocket (b : UdpBinding) : Z * UdpBinding :=
  (ub_socket b, b <| ub_socket := InvalidSocket |> <| ub_generation := 0 |>).
Definition ReleaseAndSuspend (b : UdpBinding) : Z * UdpBinding :=
  ReleaseSocket (b <| ub_suspended := true |>).
Definition Binding_Matches (generation socket : Z) (b : UdpBinding) : bool :=
  (ub_generation b =? generation) && (ub_socket b =? socket).

(** ** The peer runtime *)

Record PeerConfigDerivedInfo := mk_derived {
  de_derived_public_key : bytes;
  de_local_private_key : noise_private_key;
  de_preshared_key : noise_symmetric_key;
  de_has_derived_public_key : bool;
  de_has_preshared_key : bool;
  de_secrets_valid : bool
}.
Definition derived_init : PeerConfigDerivedInfo :=
  mk_derived (zeros 64) key_init key_init false false false.

Record PeerRuntimeInfo := mk_lifecycle {
  lc_state : PeerRuntimeState;
  lc_error_stage : PeerErrorStage;
  lc_last_error_code : PeerErrorCode;
  lc_persistent_keepalive_interval : Z;
  lc_state_ticks : Z;
  lc_activation_generation : Z;
  lc_state_changed_ns : Z;
  lc_last_handshake_ns : Z;
  lc_last_rx_ns : Z;
  lc_last_tx_ns : Z;
  lc_rx_bytes : Z;
  lc_tx_bytes : Z;
  lc_established : bool
}.
#[export] Instance eta_lifecycle : Eta PeerRuntimeInfo := fun r =>
  mk_lifecycle (lc_state r) (lc_error_stage r) (lc_last_error_code r)
    (lc_persistent_keepalive_interval r) (lc_state_ticks r) (lc_activation_generation r)
    (lc_state_changed_ns r) (lc_last_handshake_ns r) (lc_last_rx_ns r) (lc_last_tx_ns r)
    (lc_rx_bytes r) (lc_tx_bytes r) (lc_established r).
Definition lifecycle_init : PeerRuntimeInfo :=
  mk_lifecycle PeerRuntimeState_Inactive PeerErrorStage_None PeerErrorCode_None 0 0 0 0 0 0 0 0 0 false.

Record PeerProtocolInfo := mk_protocol { po_device : wg_device; po_instantiated : bool }.
#[export] Instance eta_protocol : Eta PeerProtocolInfo := fun r =>
  mk_protocol (po_device r) (po_instantiated r).

Definition MaxEncryptedDatagramSize : nat :=
  TransportDataHeaderSize + Z.to_nat (GetPaddedTransportPayloadSize (Z.of_nat MaxInnerIpPacketSize))
  + NoiseMacSize.
Definition MaxDecryptedPayloadSize : nat :=
  Z.to_nat (GetPaddedTransportPayloadSize (Z.of_nat MaxInnerIpPacketSize)).

Inductive PendingDatagramKind :=
  | PendingDatagramKind_None
  | PendingDatagramKind_HandshakeInitiation
  | PendingDatagramKind_HandshakeResponse
  | PendingDatagramKind_TransportData
  | PendingDatagramKind_Keepalive.
#[export] Instance PendingDatagramKind_eq_dec : EqDecision PendingDatagramKind.
Proof. solve_decision. Defined.

Record PendingDatagram := mk_pending {
  pd_bytes : bytes;
  pd_size : Z;
  pd_generation : Z;
  pd_inner_packet_id : Z;
  pd_kind : PendingDatagramKind
}.
#[export] Instance eta_pending : Eta PendingDatagram := fun r =>
  mk_pending (pd_bytes r) (pd_size r) (pd_generation r) (pd_inner_packet_id r) (pd_kind r).
Definition pending_init : PendingDatagram :=
  mk_pending (zeros MaxEncryptedDatagramSize) 0 0 0 PendingDatagramKind_None.
Definition IsPending (d : PendingDatagram) : bool :=
  negb (bool_decide (pd_kind d = PendingDatagramKind_None)).

Record DecryptedPacketSlot := mk_decrypted { dp_bytes : bytes; dp_size : nat; dp_generation : Z }.
#[export] Instance eta_decrypted : Eta DecryptedPacketSlot := fun r =>
  mk_decrypted (dp_bytes r) (dp_size r) (dp_generation r).
Definition decrypted_init : DecryptedPacketSlot := mk_decrypted (zeros MaxDecryptedPayloadSize) 0 0.

(** The controller holds nothing but its timers. *)
Record PeerRuntime := mk_runtime {
  m_config : PeerConfigEntry;
  m_derived : PeerConfigDerivedInfo;
  m_binding : UdpBinding;
  m_protocol : PeerProtocolInfo;
  m_controller : TimerCoordinator;
  m_lifecycle : PeerRuntimeInfo;
  m_next_activation_generation : Z;
  m_next_path_request_generation : Z;
  m_path_request_generation : Z;
  m_path_availability : network_path_availability;
  m_last_path_observation : network_path_observation;
  m_has_path_observation : bool;
  m_rebind_on_path_confirmation : bool;
  m_waiting_for_local_path : bool;
  m_endpoint_resolution_started : bool;
  m_receive_started : bool;
  m_next_socket_generation : Z;
  m_pending_socket_generation : Z;
  m_pending_bind_purpose : UdpBindPurpose;
  m_next_datagram_generation : Z;
  m_pending_datagram : PendingDatagram;
  m_staging_record : InnerPacketRecord;
  m_decrypted_packet : DecryptedPacketSlot;
  m_next_decrypted_packet_generation : Z;
  m_peer_index : Z
}.
#[export] Instance eta_runtime : Eta PeerRuntime := fun r =>
  mk_runtime (m_config r) (m_derived r) (m_binding r) (m_protocol r) (m_controller r) (m_lifecycle r)
    (m_next_activation_generation r) (m_next_path_request_generation r)
    (m_path_request_generation r) (m_path_availability r) (m_last_path_observation r)
    (m_has_path_observation r) (m_rebind_on_path_confirmation r) (m_waiting_for_local_path r)
    (m_endpoint_resolution_started r) (m_receive_started r) (m_next_socket_generation r)
    (m_pending_socket_generation r) (m_pending_bind_purpose r) (m_next_datagram_generation r)
    (m_pending_datagram r) (m_staging_record r) (m_decrypted_packet r)
    (m_next_decrypted_packet_generation r) (m_peer_index r).
