(* ===== verification/PeerRuntime.v ===== *)
(** * The peer runtime

    Models the class [PeerRuntime] of [runtime/peer/]: the life cycle
    ([lifecycle.cpp]), activation and path recovery ([activation.cpp]), timers
    ([peer_timers.cpp]), the outbound side ([outbound.cpp]), the inbound side
    ([inbound.cpp]) and the entry point ([peer_runtime.cpp]).  A handler changes
    the runtime, calls the clock, adds effects to a batch and can abort: it is a
    computation of [Run Handling].  Logging is left out. *)

From S2P Require Import Prelude Endian Messages PacketQueue Platform Session Base64 InnerPacket Timers.
From S2P Require Import Crypto Device Data Identity Admission Handshake Peer PeerController.
From S2P Require Import Abort RuntimeEvents.
Local Open Scope Z_scope.

(** ** Handling an event *)

Record Handling := mk_handling {
  hn_self : PeerRuntime;
  hn_world : World;
  hn_effects : EffectBatch
}.
#[export] Instance eta_handling : Eta Handling := fun r =>
  mk_handling (hn_self r) (hn_world r) (hn_effects r).

Abbreviation Handler := (Run Handling).

(** Reading and changing a part of the runtime. *)
Definition self {A} (f : PeerRuntime -> A) : Handler A := reads (fun s => f (hn_self s)).
Definition on_self (f : PeerRuntime -> PeerRuntime) : Handler unit := change (fun s => s <| hn_self ::= f |>).

(** [EffectBatch::Add], and [Append] of the batch another handler returns. *)
Definition Add (effect : RuntimeEffect) : Handler unit := fun s =>
  b ← TryAdd effect (hn_effects s); Some (tt, s <| hn_effects := b |>).
Definition Append (m : Handler unit) : Handler unit := fun s =>
  '(_, s') ← m (s <| hn_effects := [] |>);
  b ← TryAppend (hn_effects s') (hn_effects s);
  Some (tt, s' <| hn_effects := b |>).

Definition now_of : Handler Z := call (fun s =>
  let '(now, w) := GetMonotonicTime (hn_world s) in (now, s <| hn_world := w |>)).

(** The protocol's device with the services it calls. *)
Definition env_of (s : Handling) : Env := mk_env (hn_world s) (po_device (m_protocol (hn_self s))).
Definition with_env (e : Env) (s : Handling) : Handling :=
  s <| hn_self ::= fun r => r <| m_protocol ::= fun p => p <| po_device := ev_device e |> |> |>
    <| hn_world := ev_world e |>.
Definition on_env {A} (f : Env -> A * Env) : Handler A := call (fun s =>
  let '(a, e) := f (env_of s) in (a, with_env e s)).
Definition on_the_peer (f : wg_peer -> wg_peer) : Handler unit :=
  change (fun s => with_env (on_peer f (env_of s)) s).

(** ** State queries ([lifecycle.cpp]) *)

Definition ProtocolPeer (r : PeerRuntime) : option wg_peer :=
  if po_instantiated (m_protocol r) then wg_device_first_peer (po_device (m_protocol r)) else None.
Definition has_protocol_peer (r : PeerRuntime) : bool := bool_decide (is_Some (ProtocolPeer r)).

Definition IsCurrentActivation (activation_generation : Z) (r : PeerRuntime) : bool :=
  IsCurrentGeneration (lc_activation_generation (m_lifecycle r)) activation_generation.
Definition IsCurrentPathRequest (activation_generation path_generation : Z) (r : PeerRuntime) : bool :=
  IsCurrentActivation activation_generation r && negb (path_generation =? 0)
  && (path_generation =? m_path_request_generation r).
Definition in_state (state : PeerRuntimeState) (r : PeerRuntime) : bool :=
  bool_decide (lc_state (m_lifecycle r) = state).
Definition IsInTransportState (r : PeerRuntime) : bool :=
  in_state PeerRuntimeState_Handshaking r || in_state PeerRuntimeState_Active r.
Definition AcceptsInnerPacketSubmission (r : PeerRuntime) : bool :=
  in_state PeerRuntimeState_ResolvingEndpoint r || IsInTransportState r.

Definition StagedInnerPacketCount (r : PeerRuntime) : nat :=
  match ProtocolPeer r with
  | Some peer => Queue_Size (pr_staged_outbound_packets peer)
  | None => 0
  end.
Definition CanStageInnerPackets (count : nat) (r : PeerRuntime) : bool :=
  match ProtocolPeer r with
  | Some peer => (count <=? PeerStagedPacketCapacity - Queue_Size (pr_staged_outbound_packets peer))%nat
  | None => false
  end.

Definition TimerOwnerOf (identity : PeerIdentity) (hook : TimerHook) (peer : wg_peer) : TimerOwner :=
  mk_owner (pi_peer_index identity) (pi_activation_generation identity)
    (if bool_decide (hook = TimerHook_RetransmitHandshake)
     then rt_sequence_count (pr_handshake_retry peer) else 0).

(** ** State changes ([lifecycle.cpp]) *)

Definition AllocateSocketGeneration : Handler Z := call (fun s =>
  let '(allocated, next) := AllocateGeneration (m_next_socket_generation (hn_self s)) in
  (allocated, s <| hn_self ::= fun r => r <| m_next_socket_generation := next |> |>)).
Definition AllocateDatagramGeneration : Handler Z := call (fun s =>
  let '(allocated, next) := AllocateGeneration (m_next_datagram_generation (hn_self s)) in
  (allocated, s <| hn_self ::= fun r => r <| m_next_datagram_generation := next |> |>)).
Definition AllocateDecryptedPacketGeneration : Handler Z := call (fun s =>
  let '(allocated, next) := AllocateGeneration (m_next_decrypted_packet_generation (hn_self s)) in
  (allocated, s <| hn_self ::= fun r => r <| m_next_decrypted_packet_generation := next |> |>)).

Definition ResetLifecycle (state : PeerRuntimeState) (activation_generation now : Z) (r : PeerRuntime)
    : PeerRuntime :=
  r <| m_lifecycle := lifecycle_init <| lc_state := state |>
         <| lc_persistent_keepalive_interval := cf_persistent_keepalive (m_config r) |>
         <| lc_activation_generation := activation_generation |> <| lc_state_changed_ns := now |> |>.

Definition ResetProtocol (r : PeerRuntime) : PeerRuntime :=
  r <| m_protocol ::= fun p => mk_protocol (wg_device_reset (po_device p)) false |>.

(** The pending datagram, the pending bind and the decrypted packet are dropped. *)
Definition drop_transport_work (r : PeerRuntime) : PeerRuntime :=
  r <| m_pending_datagram := pending_init |> <| m_pending_socket_generation := 0 |>
    <| m_decrypted_packet := decrypted_init |>.

Definition Deactivate (now : Z) (r : PeerRuntime) : PeerRuntime :=
  let r := drop_transport_work r in
  let r := r <| m_controller ::= Coordinator_CancelAll |> <| m_path_request_generation := 0 |>
             <| m_path_availability := network_path_unknown |>
             <| m_last_path_observation := observation_init |> <| m_has_path_observation := false |>
             <| m_rebind_on_path_confirmation := false |> <| m_waiting_for_local_path := false |>
             <| m_endpoint_resolution_started := false |> <| m_receive_started := false |> in
  ResetLifecycle PeerRuntimeState_Inactive 0 now (ResetProtocol r).

Definition BeginActivation (now : Z) : Handler Z := call (fun s =>
  let '(allocated, next) := AllocateGeneration (m_next_activation_generation (hn_self s)) in
  (allocated, s <| hn_self ::= fun r =>
     ResetLifecycle PeerRuntimeState_ResolvingEndpoint allocated now
       (r <| m_next_activation_generation := next |>) |>)).

Definition enter_state (state : PeerRuntimeState) (now : Z) (l : PeerRuntimeInfo) : PeerRuntimeInfo :=
  l <| lc_state := state |> <| lc_error_stage := PeerErrorStage_None |>
    <| lc_last_error_code := PeerErrorCode_None |> <| lc_state_ticks := 0 |>
    <| lc_state_changed_ns := now |>.

Definition EnterHandshaking (activation_generation now : Z) : Handler bool :=
  r ← self id;
  if negb (IsCurrentActivation activation_generation r)
     || negb (in_state PeerRuntimeState_ResolvingEndpoint r) then mret false
  else
    _ ← on_self (fun r => r <| m_lifecycle ::= enter_state PeerRuntimeState_Handshaking now |>);
    mret true.

Definition established_at (now : Z) (l : PeerRuntimeInfo) : PeerRuntimeInfo :=
  l <| lc_last_handshake_ns := now |> <| lc_established := true |>.

Definition EnterActive (activation_generation now : Z) : Handler bool :=
  r ← self id;
  if negb (IsCurrentActivation activation_generation r)
     || negb (in_state PeerRuntimeState_Handshaking r) then mret false
  else
    _ ← on_self (fun r => r <| m_lifecycle ::= fun l =>
                             established_at now (enter_state PeerRuntimeState_Active now l) |>);
    mret true.

Definition EnterError (stage : PeerErrorStage) (code : PeerErrorCode) (now : Z) (r : PeerRuntime)
    : PeerRuntime :=
  r <| m_lifecycle ::= fun l =>
    l <| lc_state := PeerRuntimeState_Error |> <| lc_error_stage := stage |>
      <| lc_last_error_code := code |> <| lc_state_ticks := 0 |> <| lc_established := false |>
      <| lc_state_changed_ns := now |> |>.

Definition RecordReceivedBytes (byte_count now : Z) (r : PeerRuntime) : PeerRuntime :=
  r <| m_lifecycle ::= fun l => l <| lc_rx_bytes ::= fun n => u64 (n + byte_count) |>
                                  <| lc_last_rx_ns := now |> |>.
Definition RecordTransmittedBytes (byte_count now : Z) (r : PeerRuntime) : PeerRuntime :=
  r <| m_lifecycle ::= fun l => l <| lc_tx_bytes ::= fun n => u64 (n + byte_count) |>
                                  <| lc_last_tx_ns := now |> |>.

(** An early [return false] of a configuration check is its error code. *)
Definition ValidateConfiguration (r : PeerRuntime) : PeerErrorCode :=
  if (byte_at (cf_public_key (m_config r)) 0 =? 0) || (byte_at (cf_allowed_ips (m_config r)) 0 =? 0)
  then PeerErrorCode_ConfigInvalid
  else if negb (de_secrets_valid (m_derived r))
          || negb (noise_is_valid_encoded_key (c_string (cf_public_key (m_config r))) false)
  then PeerErrorCode_KeyInvalid
  else if byte_at (cf_endpoint (m_config r)) 0 =? 0 then PeerErrorCode_EndpointMissing
  else PeerErrorCode_None.

Definition close_socket : Handler unit :=
  path_generation ← self m_path_request_generation;
  socket ← call (fun s => let '(socket, b) := ReleaseSocket (m_binding (hn_self s)) in
                          (socket, s <| hn_self ::= fun r => r <| m_binding := b |> |>));
  Add (Effect_CloseUdpSocket path_generation socket).

Definition cancel_timer (identity : PeerIdentity) (hook : TimerHook) : Handler unit :=
  Add (Effect_CancelProtocolTimer (mk_cancel_timer identity hook token_init)).
Definition arm_timer (identity : PeerIdentity) (hook : TimerHook) (deadline : Z) : Handler unit :=
  Add (Effect_ArmProtocolTimer (mk_arm_timer identity hook token_init deadline)).

Definition all_hooks : list TimerHook :=
  [TimerHook_RetransmitHandshake; TimerHook_SendKeepalive; TimerHook_NewHandshake;
   TimerHook_ZeroKeyMaterial; TimerHook_PersistentKeepalive].

Definition ClearStagedInnerPackets : Handler unit :=
  present ← self has_protocol_peer;
  when present (on_the_peer (fun p => snd (wg_peer_clear_staged_outbound_packets QueueDisposition_Cleared p))).

(** Every caller passes a batch. *)
Definition EnterActivationError (stage : PeerErrorStage) (code : PeerErrorCode) (now : Z) : Handler unit :=
  _ ← on_self drop_transport_work;
  _ ← ClearStagedInnerPackets;
  present ← self has_protocol_peer;
  _ ← when present (
        _ ← on_the_peer wg_peer_scrub_transient_state;
        on_self (fun r => r <| m_protocol ::= fun p => p <| po_device ::= wg_device_clear_index_registry |> |>));
  _ ← on_self (EnterError stage code now);
  r ← self id;
  let identity := mk_peer_identity (m_peer_index r) (lc_activation_generation (m_lifecycle r)) in
  _ ← when (Binding_IsOpen (m_binding r)) close_socket;
  if pi_activation_generation identity =? 0 then mret tt
  else each (cancel_timer identity) all_hooks.

Section PeerRuntime.
Context {P : Primitives}.

Definition InstantiateProtocol : Handler bool :=
  _ ← on_self ResetProtocol;
  r ← self id;
  if negb (de_secrets_valid (m_derived r)) then mret false
  else
    ok ← on_env (wg_device_init_from_parsed_config (m_config r) (de_local_private_key (m_derived r))
                   (if de_has_preshared_key (m_derived r) then Some (de_preshared_key (m_derived r)) else None));
    if negb (ok : bool) then mret false
    else
      _ ← on_self (fun r => r <| m_protocol ::= fun p => p <| po_instantiated := true |> |>);
      mret true.

(** ** Timers ([peer_timers.cpp]) *)

Definition HandshakeRetryDeadline (facts : TimerFacts) : Z :=
  tf_now facts + GetHandshakeRetryDelay (tf_random_u32 facts).
Definition KeepaliveDeadline (facts : TimerFacts) : Z := tf_now facts + KeepaliveTimeout / 1000000.
Definition NewHandshakeDeadline (facts : TimerFacts) : Z :=
  tf_now facts + KeepaliveTimeout / 1000000 + GetHandshakeRetryDelay (tf_random_u32 facts).
Definition PersistentKeepaliveDeadline (facts : TimerFacts) (r : PeerRuntime) : Z :=
  tf_now facts + cf_persistent_keepalive (m_config r) * 1000.
Definition ZeroKeyMaterialDeadline (facts : TimerFacts) : Z :=
  tf_now facts + ZeroKeyMaterialAfterTime / 1000000.

Definition OnAuthenticatedPacketTraversal (identity : PeerIdentity) (facts : TimerFacts) : Handler unit :=
  r ← self id;
  when (match ProtocolPeer r with
        | Some peer => 0 <? pr_persistent_keepalive_interval peer
        | None => false
        end)
    (arm_timer identity TimerHook_PersistentKeepalive (PersistentKeepaliveDeadline facts r)).

Definition OnAuthenticatedPacketSent (identity : PeerIdentity) : Handler unit :=
  cancel_timer identity TimerHook_SendKeepalive.
Definition OnAuthenticatedPacketReceived (identity : PeerIdentity) : Handler unit :=
  cancel_timer identity TimerHook_NewHandshake.

Definition OnDataPacketSent (identity : PeerIdentity) (facts : TimerFacts) : Handler unit :=
  r ← self id;
  when (match ProtocolPeer r with
        | Some peer => negb (th_pending (new_handshake (pr_timers peer)))
        | None => false
        end)
    (arm_timer identity TimerHook_NewHandshake (NewHandshakeDeadline facts)).

Definition OnDataPacketReceived (identity : PeerIdentity) (facts : TimerFacts) : Handler unit :=
  r ← self id;
  match ProtocolPeer r with
  | None => mret tt
  | Some peer =>
      if th_pending (send_keepalive (pr_timers peer)) then
        on_the_peer (fun p => p <| pr_timers ::= fun t => t <| need_another_keepalive := true |> |>)
      else arm_timer identity TimerHook_SendKeepalive (KeepaliveDeadline facts)
  end.

Definition OnSessionDerived (identity : PeerIdentity) (facts : TimerFacts) : Handler unit :=
  arm_timer identity TimerHook_ZeroKeyMaterial (ZeroKeyMaterialDeadline facts).
Definition OnHandshakeComplete (identity : PeerIdentity) : Handler unit :=
  cancel_timer identity TimerHook_RetransmitHandshake.

(** One effect of [FinalizeTimerEffects]. *)
Definition FinalizeTimerEffect (effect : RuntimeEffect) (r : PeerRuntime) : RuntimeEffect * PeerRuntime :=
  let current identity := IsCurrentActivation (pi_activation_generation identity) r
                          && (pi_peer_index identity =? m_peer_index r) in
  let on_timers f r := r <| m_protocol ::= fun p => p <| po_device ::= fun d => d <| dv_peer ::= fun q =>
                             q <| pr_timers ::= f |> |> |> |> in
  match effect with
  | Effect_ArmProtocolTimer v =>
      if negb (current (at_peer v)) then (effect, r)
      else
        match ProtocolPeer r with
        | None => (effect, r)
        | Some peer =>
            let r := on_timers (wg_timers_cancel (at_hook v)) r in
            let r := on_timers (wg_timers_schedule (at_hook v) (at_deadline v)) r in
            let '(token, c) := Coordinator_Arm (at_hook v) (TimerOwnerOf (at_peer v) (at_hook v) peer)
                                 (m_controller r) in
            (Effect_ArmProtocolTimer (v <| at_token := token |>), r <| m_controller := c |>)
        end
  | Effect_CancelProtocolTimer v =>
      if negb (current (ct_peer v)) then (effect, r)
      else
        let r := if has_protocol_peer r then on_timers (wg_timers_cancel (ct_hook v)) r else r in
        let '(token, c) := Coordinator_Cancel (ct_hook v) (m_controller r) in
        (Effect_CancelProtocolTimer (v <| ct_token := token |>), r <| m_controller := c |>)
  | _ => (effect, r)
  end.
Fixpoint FinalizeTimerEffects (effects : EffectBatch) (r : PeerRuntime) : EffectBatch * PeerRuntime :=
  match effects with
  | [] => ([], r)
  | effect :: rest =>
      let '(effect, r) := FinalizeTimerEffect effect r in
      let '(rest, r) := FinalizeTimerEffects rest r in
      (effect :: rest, r)
  end.

(** ** Building datagrams ([outbound.cpp]) *)

(** A new datagram under construction replaces the empty one. *)
Definition submit_datagram (d : PendingDatagram) : Handler unit :=
  generation ← AllocateDatagramGeneration;
  on_self (fun r => r <| m_pending_datagram := d <| pd_generation := generation |> |>).

Definition PrepareHandshakeInitiation (kind : PendingDatagramKind) : Handler bool :=
  r ← self id;
  match ProtocolPeer r with
  | None => mret false
  | Some peer =>
      if negb (pr_has_last_initiation peer) || IsPending (m_pending_datagram r) then mret false
      else
        let buffer := pd_bytes pending_init in
        let '(error, head) := SerializeHandshakeInitiation (take HandshakeInitiationSize buffer)
                                (pr_last_initiation peer) in
        if negb (bool_decide (error = ParseError_None)) then mret false
        else
          _ ← submit_datagram (pending_init <| pd_bytes := write_at buffer 0 head |>
                 <| pd_size := Z.of_nat HandshakeInitiationSize |> <| pd_kind := kind |>);
          mret true
  end.

Definition PrepareHandshakeResponse : Handler bool :=
  r ← self id;
  if negb (has_protocol_peer r) || IsPending (m_pending_datagram r) then mret false
  else
    '(created, response) ← on_env (fun e =>
       let '(ok, s) := run_bool noise_handshake_create_response (mk_writing e response_init) in
       ((ok, wd_dst s), wd_env s));
    let buffer := pd_bytes pending_init in
    if negb (created : bool) then mret false
    else
      let '(error, head) := SerializeHandshakeResponse (take HandshakeResponseSize buffer) response in
      if negb (bool_decide (error = ParseError_None)) then mret false
      else
        derived ← on_env DeriveResponderSession;
        if negb (derived : bool) then mret false
        else
          _ ← submit_datagram (pending_init <| pd_bytes := write_at buffer 0 head |>
                 <| pd_size := Z.of_nat HandshakeResponseSize |>
                 <| pd_kind := PendingDatagramKind_HandshakeResponse |>);
          mret true.

Definition ResolveEffectiveInnerMtu (configured_mtu : Z) : Z :=
  if configured_mtu =? 0 then 1420 else configured_mtu.

(** The error of a failure; [None] on success. *)
Definition PrepareTransportDatagram (payload : bytes) (kind : PendingDatagramKind) (inner_packet_id : Z)
    : Handler TransportDataError :=
  r ← self id;
  if negb (has_protocol_peer r) || IsPending (m_pending_datagram r) then
    mret TransportDataError_InvalidKeypair
  else
    '(result, sealed) ← on_env (fun e =>
       let '(result, sealed, keypair, w) :=
         noise_create_transport_data_packet (pd_bytes pending_init) (pr_current_keypair (the_peer e))
           payload (ResolveEffectiveInnerMtu (cf_mtu (m_config r))) (ev_world e) in
       ((result, sealed), (on_peer (fun p => p <| pr_current_keypair := keypair |>) e) <| ev_world := w |>));
    if negb (bool_decide (tc_error result = TransportDataError_None)) then mret (tc_error result)
    else
      _ ← submit_datagram (pending_init <| pd_bytes := sealed |> <| pd_size := tc_packet_size result |>
             <| pd_inner_packet_id := inner_packet_id |> <| pd_kind := kind |>);
      mret TransportDataError_None.

Definition send_pending (identity : PeerIdentity) : Handler unit :=
  d ← self m_pending_datagram;
  Add (Effect_SendPendingDatagram identity (pd_generation d)).

(** Retransmission is armed only after the initiation is submitted, so the timer
    facts are not used. *)
Definition StartHandshake (identity : PeerIdentity) (retry : bool) : Handler bool :=
  r ← self id;
  if negb (has_protocol_peer r) then mret false
  else if IsPending (m_pending_datagram r) then mret false
  else
    transition ← on_env (if retry then HandleHandshakeRetryTimer else PeerController.StartHandshake);
    match ht_action transition with
    | HandshakeTransitionAction_Ignore => mret true
    | HandshakeTransitionAction_SendInitiation =>
        prepared ← PrepareHandshakeInitiation PendingDatagramKind_HandshakeInitiation;
        if negb (prepared : bool) then mret false
        else _ ← send_pending identity; mret true
    | _ => mret false
    end.

Definition start_or_fail (identity : PeerIdentity) (now : Z) : Handler unit :=
  started ← StartHandshake identity false;
  when (negb started) (EnterActivationError PeerErrorStage_Handshake PeerErrorCode_HandshakeInitFailed now).

Definition RefreshKeyFreshness (identity : PeerIdentity) (now : Z) : Handler unit :=
  r ← self id;
  match ProtocolPeer r with
  | None => mret tt
  | Some peer =>
      time ← now_of;
      if negb (keypair_NeedsRekeyAt time (pr_current_keypair peer)) || IsPending (m_pending_datagram r)
         || rt_active (pr_handshake_retry peer) then mret tt
      else start_or_fail identity now
  end.

(** A keepalive is sealed and submitted, or the activation fails. *)
Definition send_keepalive_or_fail (identity : PeerIdentity) (now : Z) (armed : Handler unit) : Handler unit :=
  error ← PrepareTransportDatagram [] PendingDatagramKind_Keepalive 0;
  if negb (bool_decide (error = TransportDataError_None)) then
    EnterActivationError PeerErrorStage_Internal PeerErrorCode_InternalFailure now
  else _ ← armed; send_pending identity.

(** ** The staging queue ([outbound.cpp]) *)

Definition pop_staged (disposition : QueueDisposition) : Handler unit :=
  on_the_peer (fun p => p <| pr_staged_outbound_packets ::= fun q =>
                 snd (Queue_Pop PeerStagedPacketCapacity disposition q) |>).

(** The loop; every iteration that continues has removed a packet. *)
Fixpoint process_queue (fuel : nat) (identity : PeerIdentity) (now : Z) : Handler unit :=
  match fuel with
  | O => abort
  | S fuel' =>
      r ← self id;
      match ProtocolPeer r ≫= fun peer => Queue_Front (pr_staged_outbound_packets peer) with
      | None => mret tt
      | Some front =>
          if negb (rec_peer_index front =? pi_peer_index identity)
             || negb (rec_activation_generation front =? pi_activation_generation identity) then
            _ ← pop_staged QueueDisposition_Stale; process_queue fuel' identity now
          else if in_state PeerRuntimeState_ResolvingEndpoint r then mret tt
          else if negb (Binding_IsOpen (m_binding r)) || ub_suspended (m_binding r) then mret tt
          else if negb (IsInTransportState r) then
            _ ← pop_staged QueueDisposition_Unavailable; process_queue fuel' identity now
          else
            time ← now_of;
            action ← self (fun r => match ProtocolPeer r with
                                    | Some peer => wg_peer_get_outbound_staging_action peer time
                                    | None => OutboundStagingAction_Idle
                                    end);
            match action with
            | OutboundStagingAction_InitiateHandshake => start_or_fail identity now
            | OutboundStagingAction_Idle => mret tt
            | OutboundStagingAction_Send =>
                error ← PrepareTransportDatagram (take (Z.to_nat (rec_size front)) (rec_bytes front))
                          PendingDatagramKind_TransportData (rec_packet_id front);
                if bool_decide (error = TransportDataError_None) then send_pending identity
                else
                  action ← on_env (fun e =>
                    let '(t, peer) := ApplyStagedSendOutcome (Outcome_BuildFailed error) (the_peer e) in
                    (sg_action t, on_peer (fun _ => peer) e));
                  match action with
                  | StagedPacketAction_InitiateHandshake => start_or_fail identity now
                  | StagedPacketAction_StopOnTerminalFailure =>
                      EnterActivationError PeerErrorStage_Internal PeerErrorCode_InternalFailure now
                  | StagedPacketAction_Continue => process_queue fuel' identity now
                  end
            end
      end
  end.

Definition ProcessOutboundQueue (identity : PeerIdentity) (now : Z) : Handler unit :=
  r ← self id;
  if negb (has_protocol_peer r) || IsPending (m_pending_datagram r) then mret tt
  else process_queue (S (StagedInnerPacketCount r)) identity now.

(** ** Completed sends and staged packets ([outbound.cpp]) *)

Definition MapSocketError (error : socket_error) : PeerErrorCode :=
  match error with
  | socket_error_none => PeerErrorCode_None
  | socket_error_transport_init_failed => PeerErrorCode_TransportInitFailed
  | socket_error_open_failed => PeerErrorCode_TransportOpenFailed
  | socket_error_send_failed => PeerErrorCode_TransportSendFailed
  | socket_error_receive_failed => PeerErrorCode_TransportReceiveFailed
  | socket_error_invalid_endpoint => PeerErrorCode_InternalFailure
  end.

Definition HandleTransportFailure (event : TransportFailureEvent) : Handler unit :=
  r ← self id;
  if negb (IsCurrentActivation (pi_activation_generation (tr_peer event)) r)
     || negb (IsInTransportState r)
     || negb (Binding_Matches (tr_socket_generation event) (tr_socket event) (m_binding r)) then mret tt
  else
    match MapSocketError (tr_error event) with
    | PeerErrorCode_None | PeerErrorCode_TransportSendFailed | PeerErrorCode_TransportReceiveFailed => mret tt
    | code => EnterActivationError PeerErrorStage_Transport code (tr_occurred_at event)
    end.

Definition retry_timer (event : PendingDatagramSentEvent) : Handler unit :=
  arm_timer (ds_peer event) TimerHook_RetransmitHandshake (HandshakeRetryDeadline (ds_timer_facts event)).

Definition apply_outcome (outcome : OutboundSendOutcome) : Handler unit :=
  on_the_peer (fun p => snd (ApplyStagedSendOutcome outcome p)).

Definition HandleSendSuccess (event : PendingDatagramSentEvent) (kind : PendingDatagramKind) : Handler unit :=
  _ ← on_self (RecordTransmittedBytes (ds_bytes_sent event) (ds_occurred_at event));
  _ ← OnAuthenticatedPacketTraversal (ds_peer event) (ds_timer_facts event);
  _ ← OnAuthenticatedPacketSent (ds_peer event);
  present ← self has_protocol_peer;
  _ ← when (bool_decide (kind = PendingDatagramKind_HandshakeInitiation)) (
        _ ← retry_timer event;
        started ← self m_receive_started;
        when (negb started) (
          _ ← on_self (fun r => r <| m_receive_started := true |>);
          Add (Effect_QueueReceive (ds_peer event))));
  _ ← when (bool_decide (kind = PendingDatagramKind_TransportData) && present) (
        _ ← apply_outcome Outcome_Sent;
        _ ← OnDataPacketSent (ds_peer event) (ds_timer_facts event);
        _ ← Add (Effect_QueueInnerPacketSubmission (ds_peer event));
        RefreshKeyFreshness (ds_peer event) (ds_occurred_at event));
  when (bool_decide (kind = PendingDatagramKind_Keepalive))
    (RefreshKeyFreshness (ds_peer event) (ds_occurred_at event)).

Definition HandleSendFailure (event : PendingDatagramSentEvent) (kind : PendingDatagramKind) : Handler unit :=
  present ← self has_protocol_peer;
  _ ← when (bool_decide (kind = PendingDatagramKind_TransportData) && present)
        (apply_outcome Outcome_TransportDropped);
  if bool_decide (ds_error event = socket_error_send_failed) then
    b ← self m_binding;
    _ ← Append (HandleTransportFailure
          (mk_transport_failure (ds_peer event) TransportIoOperation_Send (ub_socket b) (ub_generation b)
             (ds_error event) (ds_occurred_at event)));
    when (bool_decide (kind = PendingDatagramKind_HandshakeInitiation)) (retry_timer event)
  else
    EnterActivationError PeerErrorStage_Transport PeerErrorCode_TransportSendFailed (ds_occurred_at event).

Definition HandlePendingDatagramCompletion (event : PendingDatagramSentEvent) : Handler unit :=
  r ← self id;
  if negb (IsCurrentActivation (pi_activation_generation (ds_peer event)) r)
     || negb (IsPending (m_pending_datagram r))
     || negb (pd_generation (m_pending_datagram r) =? ds_datagram_generation event) then mret tt
  else
    let kind := pd_kind (m_pending_datagram r) in
    _ ← on_self (fun r => r <| m_pending_datagram := pending_init |>);
    if bool_decide (ds_error event = socket_error_none) then HandleSendSuccess event kind
    else HandleSendFailure event kind.

(** [m_staging_record] is filled and pushed. *)
Definition stage_packet (identity : PeerIdentity) (packet_id : Z) (packet : bytes) : Handler QueuePushResult :=
  _ ← on_self (fun r => r <| m_staging_record :=
        mk_record (write_at (zeros MaxInnerIpPacketSize) 0 packet) packet_id
          (pi_activation_generation identity) (pi_peer_index identity) (u16 (Z.of_nat (length packet))) |>);
  record ← self m_staging_record;
  on_env (fun e =>
    let '(result, queue) := Queue_Push PeerStagedPacketCapacity record
                              (pr_staged_outbound_packets (the_peer e)) in
    (result, on_peer (fun p => p <| pr_staged_outbound_packets := queue |>) e)).

Definition packet_fits (packet : bytes) : bool :=
  negb (length packet =? 0)%nat && (length packet <=? MaxInnerIpPacketSize)%nat.

Definition HandleInnerPacketStaged (event : InnerPacketStagedEvent) : Handler unit :=
  r ← self id;
  if negb (IsCurrentActivation (pi_activation_generation (sp_peer event)) r)
     || negb (AcceptsInnerPacketSubmission r) || negb (has_protocol_peer r)
     || negb (packet_fits (sp_packet event)) then mret tt
  else
    pushed ← stage_packet (sp_peer event) (sp_packet_id event) (sp_packet event);
    if bool_decide (pushed = QueuePushResult_Full) then mret tt
    else
      r ← self id;
      when (IsInTransportState r) (ProcessOutboundQueue (sp_peer event) (sp_occurred_at event)).

Definition HandleInnerPacketBatchStaged (event : InnerPacketBatchStagedEvent) : Handler unit :=
  r ← self id;
  if negb (IsCurrentActivation (pi_activation_generation (sb_peer event)) r)
     || negb (AcceptsInnerPacketSubmission r) || negb (has_protocol_peer r)
     || (sb_count event =? 0)%nat || (MaximumInnerPacketBatchSize <? sb_count event)%nat
     || negb (CanStageInnerPackets (sb_count event) r) then mret tt
  else
    let packets := take (sb_count event) (zip (sb_packets event) (sb_packet_ids event)) in
    if negb (forallb (fun p => packet_fits (fst p)) packets) then mret tt
    else
      _ ← each (fun p =>
            pushed ← stage_packet (sb_peer event) (snd p) (fst p);
            when (bool_decide (pushed = QueuePushResult_Full)) abort) packets;
      r ← self id;
      when (IsInTransportState r) (ProcessOutboundQueue (sb_peer event) (sb_occurred_at event)).

Definition HandleProcessOutboundQueue (event : ProcessOutboundQueueEvent) : Handler unit :=
  r ← self id;
  when (IsCurrentActivation (pi_activation_generation (pq_peer event)) r)
    (ProcessOutboundQueue (pq_peer event) (pq_occurred_at event)).

(** ** Received datagrams ([inbound.cpp]) *)

Definition UpdateEndpointFromAuthenticatedPacket (event : EncryptedDatagramReceivedEvent) : Handler unit :=
  when (negb (bool_decide (ep_family (dg_source event) = address_family_unspecified)))
    (on_self (fun r => r <| m_binding ::= SetEndpoint (dg_source event) (dg_source_text event) |>)).

Definition received_bytes (event : EncryptedDatagramReceivedEvent) : Handler unit :=
  on_self (RecordReceivedBytes (Z.of_nat (length (dg_packet event))) (dg_occurred_at event)).

(** Entering [Active], or renewing the time of the handshake; [false] when the
    transition out of [Handshaking] is refused. *)
Definition establish (event : EncryptedDatagramReceivedEvent) : Handler bool :=
  r ← self id;
  if in_state PeerRuntimeState_Handshaking r then
    EnterActive (pi_activation_generation (dg_peer event)) (dg_occurred_at event)
  else
    _ ← on_self (fun r => r <| m_lifecycle ::= established_at (dg_occurred_at event) |>);
    mret true.

Definition CompleteInitiatorSession (event : EncryptedDatagramReceivedEvent) : Handler unit :=
  present ← self has_protocol_peer;
  if negb present then mret tt
  else
    completed ← on_env CompleteSession;
    if negb (completed : bool) then mret tt
    else
      _ ← UpdateEndpointFromAuthenticatedPacket event;
      _ ← received_bytes event;
      _ ← OnAuthenticatedPacketTraversal (dg_peer event) (dg_timer_facts event);
      _ ← OnAuthenticatedPacketReceived (dg_peer event);
      active ← establish event;
      if negb active then mret tt
      else
        _ ← OnSessionDerived (dg_peer event) (dg_timer_facts event);
        _ ← OnHandshakeComplete (dg_peer event);
        staged ← self StagedInnerPacketCount;
        if negb (staged =? 0)%nat then Add (Effect_QueueInnerPacketSubmission (dg_peer event))
        else send_keepalive_or_fail (dg_peer event) (dg_occurred_at event) (mret tt).

(** What follows a packet that was opened. *)
Definition HandleDecryptedPacket (event : EncryptedDatagramReceivedEvent)
    (result : IncomingTransportDataResult) : Handler unit :=
  _ ← UpdateEndpointFromAuthenticatedPacket event;
  _ ← received_bytes event;
  _ ← OnAuthenticatedPacketTraversal (dg_peer event) (dg_timer_facts event);
  _ ← OnAuthenticatedPacketReceived (dg_peer event);
  _ ← RefreshKeyFreshness (dg_peer event) (dg_occurred_at event);
  _ ← when (in_promoted_next_keypair result) (
        _ ← on_env (fun e => (tt, ConfirmResponderSession e));
        _ ← establish event;
        _ ← OnHandshakeComplete (dg_peer event);
        Add (Effect_QueueInnerPacketSubmission (dg_peer event)));
  let size := dr_payload_size (in_decrypt result) in
  if (size =? 0)%nat then mret tt
  else
    _ ← OnDataPacketReceived (dg_peer event) (dg_timer_facts event);
    d ← self m_decrypted_packet;
    let '(validation, inner_packet_size, _) := ValidatePaddedInnerIpPacket (take size (dp_bytes d)) in
    if negb (bool_decide (validation = InnerIp_None)) then mret tt
    else
      generation ← AllocateDecryptedPacketGeneration;
      _ ← on_self (fun r => r <| m_decrypted_packet ::= fun d =>
                     d <| dp_size := inner_packet_size |> <| dp_generation := generation |> |>);
      Add (Effect_PublishDecryptedPacket (dg_peer event) generation).

Definition HandleTransportData (event : EncryptedDatagramReceivedEvent) : Handler unit :=
  present ← self has_protocol_peer;
  if negb present then mret tt
  else
    _ ← on_self (fun r => r <| m_decrypted_packet ::= fun d => d <| dp_size := 0%nat |> <| dp_generation := 0 |> |>);
    d ← self m_decrypted_packet;
    '(error, out, result) ← on_env (fun e =>
       let '(error, out, result, e) :=
         noise_consume_incoming_transport_data_packet (dg_packet event) (dp_bytes d) e in
       ((error, out, result), e));
    _ ← on_self (fun r => r <| m_decrypted_packet ::= fun d => d <| dp_bytes := out |> |>);
    if negb (bool_decide (error = TransportDataError_None)) then mret tt
    else HandleDecryptedPacket event result.

Definition HandleInitiationConsumed (event : EncryptedDatagramReceivedEvent) : Handler unit :=
  _ ← OnAuthenticatedPacketTraversal (dg_peer event) (dg_timer_facts event);
  _ ← OnAuthenticatedPacketReceived (dg_peer event);
  prepared ← PrepareHandshakeResponse;
  if negb prepared then mret tt
  else
    _ ← UpdateEndpointFromAuthenticatedPacket event;
    _ ← received_bytes event;
    _ ← OnSessionDerived (dg_peer event) (dg_timer_facts event);
    send_pending (dg_peer event).

(** The handshake messages, once admitted. *)
Definition HandleHandshakePacket (event : EncryptedDatagramReceivedEvent) : Handler unit :=
  r ← self id;
  if IsPending (m_pending_datagram r) then mret tt
  else
    outcome ← on_env (noise_handshake_consume_incoming_packet (dg_packet event));
    match outcome with
    | HandshakePacketOutcome_Invalid => mret tt
    | HandshakePacketOutcome_CookieReplyConsumed => received_bytes event
    | HandshakePacketOutcome_ResponseConsumed => CompleteInitiatorSession event
    | HandshakePacketOutcome_InitiationConsumed => HandleInitiationConsumed event
    end.

(** Admission of initiations and responses; [true] when the packet goes on. *)
Definition AdmitHandshakePacket (event : EncryptedDatagramReceivedEvent) : Handler bool :=
  '(admission, cookie) ← on_env (fun e =>
     let '(admission, cookie, e) :=
       noise_handshake_admit_responder_packet (dg_packet event) (dg_source event) (dg_occurred_at event)
         cookie_reply_init e in
     ((admission, cookie), e));
  match admission with
  | ResponderHandshakeAdmission_CookieReply =>
      let '(error, packet) := SerializeHandshakeCookie (zeros HandshakeCookieSize) cookie in
      _ ← when (bool_decide (error = ParseError_None))
            (Add (Effect_SendCookieReply (dg_peer event) (dg_source event) packet));
      mret false
  | ResponderHandshakeAdmission_Accepted => mret true
  | _ => mret false
  end.

Definition HandleEncryptedDatagram (event : EncryptedDatagramReceivedEvent) : Handler unit :=
  r ← self id;
  if negb (IsCurrentActivation (pi_activation_generation (dg_peer event)) r)
     || negb (IsInTransportState r) || negb (has_protocol_peer r)
     || (length (dg_packet event) =? 0)%nat then mret tt
  else
    let type := InspectMessageType (dg_packet event) in
    if negb (pr_success type) then mret tt
    else
      match pr_type type with
      | MessageType_TransportData => HandleTransportData event
      | MessageType_HandshakeInitiation | MessageType_HandshakeResponse =>
          admitted ← AdmitHandshakePacket event;
          when admitted (HandleHandshakePacket event)
      | _ => HandleHandshakePacket event
      end.

(** ** Activation and the local path ([activation.cpp], [peer_timers.cpp]) *)

Definition HandleActivationRequested (event : ActivationRequestedEvent) : Handler unit :=
  r ← self id;
  match ValidateConfiguration r with
  | PeerErrorCode_None =>
      _ ← on_self (fun r => drop_transport_work (r <| m_binding ::= ClearEndpoint |>));
      _ ← on_self ResetProtocol;
      activation_generation ← BeginActivation (ar_occurred_at event);
      _ ← on_self (fun r =>
            let '(allocated, next) := AllocateGeneration (m_next_path_request_generation r) in
            r <| m_next_path_request_generation := next |> <| m_path_request_generation := allocated |>
              <| m_path_availability := network_path_unknown |>
              <| m_last_path_observation := observation_init |> <| m_has_path_observation := false |>
              <| m_rebind_on_path_confirmation := false |> <| m_waiting_for_local_path := true |>
              <| m_endpoint_resolution_started := false |> <| m_receive_started := false |>);
      path_generation ← self m_path_request_generation;
      Add (Effect_StartNetworkPathRequest
             (mk_peer_identity (ar_peer_index event) activation_generation) path_generation)
  | code =>
      EnterActivationError
        (if bool_decide (code = PeerErrorCode_ConfigInvalid) then PeerErrorStage_Config
         else PeerErrorStage_ResolveEndpoint) code (ar_occurred_at event)
  end.

(** The token is taken from the coordinator here. *)
Definition cancel_hook_now (identity : PeerIdentity) (hook : TimerHook) : Handler unit :=
  _ ← on_the_peer (fun p => p <| pr_timers ::= wg_timers_cancel hook |>);
  token ← call (fun s => let '(token, c) := Coordinator_Cancel hook (m_controller (hn_self s)) in
                         (token, s <| hn_self ::= fun r => r <| m_controller := c |> |>));
  Add (Effect_CancelProtocolTimer (mk_cancel_timer identity hook token)).

Definition HandleDeactivationRequested (event : DeactivationRequestedEvent) : Handler unit :=
  r ← self id;
  if negb (IsCurrentActivation (pi_activation_generation (dq_peer event)) r) then mret tt
  else
    _ ← when (negb (m_path_request_generation r =? 0))
          (Add (Effect_StopNetworkPathRequest (dq_peer event) (m_path_request_generation r)));
    _ ← when (Binding_IsOpen (m_binding r)) close_socket;
    _ ← when (has_protocol_peer r) (each (cancel_hook_now (dq_peer event)) all_hooks);
    on_self (Deactivate (dq_occurred_at event)).

(** Only logs. *)
Definition HandleNetworkPathRequestStarted (event : NetworkPathRequestStartedEvent) : Handler unit := mret tt.

Definition HandleUdpRebindRequested (event : UdpRebindRequestedEvent) : Handler unit :=
  r ← self id;
  if negb (IsCurrentActivation (pi_activation_generation (rb_peer event)) r)
     || negb (IsInTransportState r) || negb (ub_has_endpoint (m_binding r)) then mret tt
  else if m_waiting_for_local_path r
          || negb (bool_decide (m_path_availability r = network_path_available))
          || (m_path_request_generation r =? 0) || negb (m_pending_socket_generation r =? 0) then mret tt
  else
    socket_generation ← AllocateSocketGeneration;
    _ ← on_self (fun r => r <| m_pending_socket_generation := socket_generation |>
                            <| m_pending_bind_purpose := UdpBindPurpose_Rebind |>);
    Add (Effect_OpenUdpBind
      (mk_open_bind (rb_peer event) (m_path_request_generation r) (ub_endpoint (m_binding r))
         (print_string (ub_endpoint_text (m_binding r)) (zeros 64)) socket_generation
         (ub_socket (m_binding r)) UdpBindPurpose_Rebind)).

Definition suspended_hooks : list TimerHook :=
  [TimerHook_RetransmitHandshake; TimerHook_SendKeepalive; TimerHook_NewHandshake;
   TimerHook_PersistentKeepalive].

Definition SuspendTransport (identity : PeerIdentity) : Handler unit :=
  r ← self id;
  if ub_suspended (m_binding r) then mret tt
  else
    _ ← each (cancel_timer identity) suspended_hooks;
    socket ← call (fun s => let '(socket, b) := ReleaseAndSuspend (m_binding (hn_self s)) in
                            (socket, s <| hn_self ::= fun r => r <| m_binding := b |> |>));
    when (negb (socket =? InvalidSocket)) (Add (Effect_CloseUdpSocket (m_path_request_generation r) socket)).

Definition HandleNetworkPathAvailabilityChanged (event : NetworkPathAvailabilityChangedEvent) : Handler unit :=
  r ← self id;
  if negb (IsCurrentPathRequest (pi_activation_generation (pc_peer event)) (pc_path_generation event) r)
  then mret tt
  else
    _ ← when (negb (m_has_path_observation r)
              || negb (bool_decide (m_last_path_observation r = pc_observation event)))
          (on_self (fun r => r <| m_last_path_observation := pc_observation event |>
                               <| m_has_path_observation := true |>));
    let rebind := Append (HandleUdpRebindRequested (mk_rebind_requested (pc_peer event) (pc_occurred_at event))) in
    let next := ob_availability (pc_observation event) in
    if bool_decide (next = network_path_unknown) then
      when (bool_decide (m_path_availability r = network_path_available) && IsInTransportState r
            && Binding_IsOpen (m_binding r) && negb (m_rebind_on_path_confirmation r))
        (on_self (fun r => r <| m_rebind_on_path_confirmation := true |>))
    else if bool_decide (next = m_path_availability r) then
      when (bool_decide (next = network_path_available) && m_rebind_on_path_confirmation r) (
        _ ← on_self (fun r => r <| m_rebind_on_path_confirmation := false |>);
        rebind)
    else
      _ ← on_self (fun r => r <| m_path_availability := next |>);
      if bool_decide (next = network_path_unavailable) then
        _ ← on_self (fun r => r <| m_rebind_on_path_confirmation := false |>
                                <| m_waiting_for_local_path := true |>);
        when (Binding_IsOpen (m_binding r)) (SuspendTransport (pc_peer event))
      else
        _ ← on_self (fun r => r <| m_waiting_for_local_path := false |>);
        if negb (m_endpoint_resolution_started r) && in_state PeerRuntimeState_ResolvingEndpoint r then
          _ ← on_self (fun r => r <| m_endpoint_resolution_started := true |>);
          Add (Effect_ResolveEndpoint
            (mk_resolve_endpoint (pc_peer event) (m_path_request_generation r)
               (print_string (cf_endpoint (m_config r)) (zeros 256))))
        else
          when (ub_suspended (m_binding r) && IsInTransportState r && ub_has_endpoint (m_binding r)) rebind.

Definition HandleEndpointResolved (event : EndpointResolvedEvent) : Handler unit :=
  r ← self id;
  if negb (IsCurrentPathRequest (pi_activation_generation (en_peer event)) (en_path_generation event) r)
     || negb (in_state PeerRuntimeState_ResolvingEndpoint r) || m_waiting_for_local_path r
     || negb (bool_decide (m_path_availability r = network_path_available)) then mret tt
  else if negb (rr_success (en_result event)) then
    EnterActivationError (rr_error_stage (en_result event)) (rr_error_code (en_result event))
      (en_occurred_at event)
  else
    _ ← on_self (fun r => r <| m_binding ::= SetEndpoint (rr_resolved (en_result event)) (rr_text (en_result event)) |>);
    socket_generation ← AllocateSocketGeneration;
    _ ← on_self (fun r => r <| m_pending_socket_generation := socket_generation |>
                            <| m_pending_bind_purpose := UdpBindPurpose_Activation |>);
    Add (Effect_OpenUdpBind
      (mk_open_bind (en_peer event) (m_path_request_generation r) (rr_resolved (en_result event))
         (print_string (rr_text (en_result event)) (zeros 64)) socket_generation InvalidSocket
         UdpBindPurpose_Activation)).

(** Recovery after a rebind: drain the queue, or send a keepalive, or start a
    handshake. *)
Definition RecoverTransport (identity : PeerIdentity) (now : Z) : Handler unit :=
  r ← self id;
  if IsPending (m_pending_datagram r) then mret tt
  else
    match ProtocolPeer r with
    | None => mret tt
    | Some peer =>
        time ← now_of;
        if in_state PeerRuntimeState_Active r && keypair_CanSendAt time (pr_current_keypair peer) then
          _ ← when (negb (StagedInnerPacketCount r =? 0)%nat) (ProcessOutboundQueue identity now);
          d ← self m_pending_datagram;
          if negb (StagedInnerPacketCount r =? 0)%nat && IsPending d then mret tt
          else send_keepalive_or_fail identity now (mret tt)
        else start_or_fail identity now
    end.

(** A socket the runtime does not take over is closed. *)
Definition close_event_socket (event : UdpBindOpenedEvent) : Handler unit :=
  path_generation ← self m_path_request_generation;
  when (negb (bo_socket event =? InvalidSocket))
    (Add (Effect_CloseUdpSocket path_generation (bo_socket event))).

Definition adopt_socket (event : UdpBindOpenedEvent) : Handler unit :=
  b ← self m_binding;
  match AdoptOpenSocket (bo_endpoint event) (bo_endpoint_text event) (bo_socket_generation event)
          (bo_socket event) b with
  | None => abort
  | Some b => on_self (fun r => r <| m_binding := b |>)
  end.

Definition HandleRebindOpened (event : UdpBindOpenedEvent) : Handler unit :=
  r ← self id;
  if negb (IsCurrentActivation (pi_activation_generation (bo_peer event)) r)
     || negb (IsInTransportState r) || negb (ub_has_endpoint (m_binding r)) || m_waiting_for_local_path r
     || negb (bool_decide (m_path_availability r = network_path_available)) then close_event_socket event
  else if negb (bool_decide (bo_error event = socket_error_none)) || (bo_socket event =? InvalidSocket) then
    close_event_socket event
  else
    old_socket ← call (fun s => let '(socket, b) := ReleaseSocket (m_binding (hn_self s)) in
                                (socket, s <| hn_self ::= fun r => r <| m_binding := b |> |>));
    _ ← adopt_socket event;
    _ ← when (negb (old_socket =? InvalidSocket))
          (Add (Effect_CloseUdpSocket (m_path_request_generation r) old_socket));
    _ ← RecoverTransport (bo_peer event) (bo_occurred_at event);
    Add (Effect_QueueReceive (bo_peer event)).

Definition HandleActivationBindOpened (event : UdpBindOpenedEvent) : Handler unit :=
  r ← self id;
  if negb (IsCurrentActivation (pi_activation_generation (bo_peer event)) r)
     || negb (in_state PeerRuntimeState_ResolvingEndpoint r) || m_waiting_for_local_path r
     || negb (bool_decide (m_path_availability r = network_path_available)) then close_event_socket event
  else if negb (bool_decide (bo_error event = socket_error_none)) || (bo_socket event =? InvalidSocket) then
    _ ← close_event_socket event;
    EnterActivationError PeerErrorStage_Transport PeerErrorCode_TransportOpenFailed (bo_occurred_at event)
  else
    _ ← adopt_socket event;
    instantiated ← InstantiateProtocol;
    if negb instantiated then
      EnterActivationError PeerErrorStage_Config PeerErrorCode_KeyInvalid (bo_occurred_at event)
    else
      handshaking ← EnterHandshaking (pi_activation_generation (bo_peer event)) (bo_occurred_at event);
      if negb handshaking then close_socket
      else
        present ← self has_protocol_peer;
        transition ← (if (present : bool) then on_env PeerController.StartHandshake
                      else mret (transition HandshakeTransitionAction_Fatal));
        prepared ← match ht_action transition with
                   | HandshakeTransitionAction_SendInitiation =>
                       PrepareHandshakeInitiation PendingDatagramKind_HandshakeInitiation
                   | _ => mret false
                   end;
        if negb prepared then
          EnterActivationError PeerErrorStage_Handshake PeerErrorCode_HandshakeInitFailed (bo_occurred_at event)
        else send_pending (bo_peer event).

Definition HandleUdpBindOpened (event : UdpBindOpenedEvent) : Handler unit :=
  r ← self id;
  if (bo_socket_generation event =? 0)
     || negb (IsCurrentPathRequest (pi_activation_generation (bo_peer event)) (bo_path_generation event) r)
     || negb (bo_socket_generation event =? m_pending_socket_generation r)
     || negb (bool_decide (bo_purpose event = m_pending_bind_purpose r)) then close_event_socket event
  else
    _ ← on_self (fun r => r <| m_pending_socket_generation := 0 |>);
    if bool_decide (bo_purpose event = UdpBindPurpose_Rebind) then HandleRebindOpened event
    else HandleActivationBindOpened event.

(** ** Expired timers ([peer_timers.cpp]) *)

Definition HandleRetransmitExpired (event : ProtocolTimerExpiredEvent) : Handler unit :=
  transition ← on_env HandleHandshakeRetryTimer;
  match ht_action transition with
  | HandshakeTransitionAction_Exhausted =>
      r ← self id;
      when (match ProtocolPeer r with
            | Some peer => negb (th_pending (zero_key_material (pr_timers peer)))
            | None => false
            end)
        (arm_timer (te_peer event) TimerHook_ZeroKeyMaterial (ZeroKeyMaterialDeadline (te_timer_facts event)))
  | action =>
      prepared ← (if bool_decide (action = HandshakeTransitionAction_SendInitiation)
                  then PrepareHandshakeInitiation PendingDatagramKind_HandshakeInitiation else mret false);
      if (prepared : bool) then send_pending (te_peer event)
      else
        when (negb (bool_decide (action = HandshakeTransitionAction_Ignore)))
          (EnterActivationError PeerErrorStage_Handshake PeerErrorCode_HandshakeInitFailed
             (te_occurred_at event))
  end.

Definition HandleKeepaliveExpired (event : ProtocolTimerExpiredEvent) : Handler unit :=
  time ← now_of;
  r ← self id;
  if match ProtocolPeer r with
     | Some peer => keypair_CanSendAt time (pr_current_keypair peer)
     | None => false
     end
  then
    send_keepalive_or_fail (te_peer event) (te_occurred_at event)
      (if bool_decide (te_hook event = TimerHook_SendKeepalive) then
         r ← self id;
         let need_another := match ProtocolPeer r with
                             | Some peer => need_another_keepalive (pr_timers peer)
                             | None => false
                             end in
         _ ← on_the_peer (fun p => p <| pr_timers ::= fun t => t <| need_another_keepalive := false |> |>);
         when need_another
           (arm_timer (te_peer event) (te_hook event) (KeepaliveDeadline (te_timer_facts event)))
       else mret tt)
  else start_or_fail (te_peer event) (te_occurred_at event).

Definition HandleTimerHook (event : ProtocolTimerExpiredEvent) : Handler unit :=
  r ← self id;
  match te_hook event with
  | TimerHook_RetransmitHandshake => HandleRetransmitExpired event
  | TimerHook_SendKeepalive =>
      if negb (in_state PeerRuntimeState_Active r) then mret tt else HandleKeepaliveExpired event
  | TimerHook_NewHandshake =>
      when (in_state PeerRuntimeState_Active r) (start_or_fail (te_peer event) (te_occurred_at event))
  | TimerHook_PersistentKeepalive =>
      if negb (in_state PeerRuntimeState_Active r)
         || match ProtocolPeer r with
            | Some peer => pr_persistent_keepalive_interval peer =? 0
            | None => true
            end
      then mret tt else HandleKeepaliveExpired event
  | TimerHook_ZeroKeyMaterial =>
      _ ← on_env (fun e =>
            let '(peer, w) := wg_peer_zero_key_material (the_peer e) (ev_world e) in
            (tt, (on_peer (fun _ => peer) e) <| ev_world := w |>));
      on_self (fun r => r <| m_protocol ::= fun p => p <| po_device ::= wg_device_clear_index_registry |> |>)
  end.

Definition HandleProtocolTimerExpired (event : ProtocolTimerExpiredEvent) : Handler unit :=
  r ← self id;
  if negb (IsCurrentActivation (pi_activation_generation (te_peer event)) r)
     || negb (bool_decide (tk_hook (te_token event) = te_hook event))
     || negb (ow_peer_index (tk_owner (te_token event)) =? pi_peer_index (te_peer event))
     || negb (ow_activation_generation (tk_owner (te_token event)) =? pi_activation_generation (te_peer event))
  then mret tt
  else
    match ProtocolPeer r with
    | None => mret tt
    | Some peer =>
        if negb (Coordinator_IsCurrent (te_token event) (TimerOwnerOf (te_peer event) (te_hook event) peer)
                   (m_controller r)) then mret tt
        else
          _ ← cancel_timer (te_peer event) (te_hook event);
          let zeroing := bool_decide (te_hook event = TimerHook_ZeroKeyMaterial) in
          if ub_suspended (m_binding r) && negb zeroing then mret tt
          else if negb (IsInTransportState r) && negb zeroing then mret tt
          else HandleTimerHook event
    end.

(** ** The entry point ([peer_runtime.cpp]) *)

Definition HandleEvent (event : PeerEvent) : Handler unit :=
  match event with
  | Event_ActivationRequested v => HandleActivationRequested v
  | Event_DeactivationRequested v => HandleDeactivationRequested v
  | Event_NetworkPathRequestStarted v => HandleNetworkPathRequestStarted v
  | Event_NetworkPathAvailabilityChanged v => HandleNetworkPathAvailabilityChanged v
  | Event_TransportFailure v => HandleTransportFailure v
  | Event_EndpointResolved v => HandleEndpointResolved v
  | Event_UdpBindOpened v => HandleUdpBindOpened v
  | Event_UdpRebindRequested v => HandleUdpRebindRequested v
  | Event_EncryptedDatagramReceived v => HandleEncryptedDatagram v
  | Event_PendingDatagramSent v => HandlePendingDatagramCompletion v
  | Event_InnerPacketStaged v => HandleInnerPacketStaged v
  | Event_InnerPacketBatchStaged v => HandleInnerPacketBatchStaged v
  | Event_ProcessOutboundQueue v => HandleProcessOutboundQueue v
  | Event_ProtocolTimerExpired v => HandleProtocolTimerExpired v
  end.

(** The effects, and the runtime and the services afterwards; [None] is an abort. *)
Definition Handle (event : PeerEvent) (r : PeerRuntime) (w : World)
    : option (EffectBatch * PeerRuntime * World) :=
  '(_, s) ← HandleEvent event (mk_handling r w []);
  let '(effects, r) := FinalizeTimerEffects (hn_effects s) (hn_self s) in
  if (GetEventEffectBudget event <? length effects)%nat then None
  else Some (effects, r, hn_world s).

(** Events in turn: all the effects, and the runtime and the services at the end. *)

Fixpoint handle_all (events : list PeerEvent) (r : PeerRuntime) (w : World)
    : option (list RuntimeEffect * PeerRuntime * World) :=
  match events with
  | [] => Some ([], r, w)
  | event :: events =>
      '(effects, r, w) ← Handle event r w;
      '(rest, r, w) ← handle_all events r w;
      Some (effects ++ rest, r, w)
  end.

(** ** Configuration ([lifecycle.cpp]) *)

Definition runtime_init : PeerRuntime :=
  mk_runtime
    (mk_config_entry (zeros 32) (zeros 48) (zeros 256) (zeros 64) (zeros 128) (zeros 64) (zeros 64)
       (zeros 256) 0 0 0 0 false)
    derived_init binding_init (mk_protocol device_init false) coordinator_init lifecycle_init
    1 1 0 network_path_unknown observation_init false false false false false 1 0
    UdpBindPurpose_Activation 1 pending_init record_init decrypted_init 1 0.

(** [None] is the abort on an open socket. *)
Definition Configure (peer_index : Z) (config : PeerConfigEntry) (derived : PeerConfigDerivedInfo) (now : Z)
    (r : PeerRuntime) : option PeerRuntime :=
  if Binding_IsOpen (m_binding r) then None
  else
    let r := Deactivate now (r <| m_binding ::= ClearEndpoint |>) in
    let r := r <| m_peer_index := peer_index |> <| m_config := config |> <| m_derived := derived |> in
    Some (ResetLifecycle PeerRuntimeState_Inactive 0 now r).

Definition ClearConfiguration (now : Z) (r : PeerRuntime) : Z * PeerRuntime :=
  let '(socket, b) := ReleaseSocket (m_binding r) in
  let r := Deactivate now (r <| m_binding := ClearEndpoint b |>) in
  (socket, r <| m_config := m_config runtime_init |> <| m_derived := derived_init |> <| m_peer_index := 0 |>).
End PeerRuntime.
