(* ===== verification/RuntimeSockets.v ===== *)
(** * Socket ownership of the peer runtime

    A socket that an open event hands to the runtime is either owned by the UDP
    binding or closed by exactly one effect: nothing leaks and nothing is closed
    twice.  The proofs compose triples about the ledger, the sockets owned
    together with the sockets closed so far. *)

From S2P Require Import Prelude Endian Messages PacketQueue Platform Session Base64 InnerPacket Timers.
From S2P Require Import Crypto Device Data Identity Admission Handshake Peer PeerController.
From S2P Require Import Abort RuntimeEvents PeerRuntime.
Local Open Scope Z_scope.

(** ** The ledger *)

Definition closed_sockets (effects : EffectBatch) : list Z :=
  omap (fun effect => match effect with Effect_CloseUdpSocket _ socket => Some socket | _ => None end) effects.
Definition owned_sockets (r : PeerRuntime) : list Z :=
  if Binding_IsOpen (m_binding r) then [ub_socket (m_binding r)] else [].
(** The socket an event hands over. *)
Definition opened_sockets (event : PeerEvent) : list Z :=
  match event with
  | Event_UdpBindOpened v => if bo_socket v =? InvalidSocket then [] else [bo_socket v]
  | _ => []
  end.
Definition ledger (s : Handling) : list Z := owned_sockets (hn_self s) ++ closed_sockets (hn_effects s).

(** [m] adds the sockets [l] to the ledger. *)
Definition books {A} (l : list Z) (m : Handler A) : Prop :=
  forall s, wp True m (fun _ s' => ledger s' ≡ₚ l ++ ledger s) s.

Lemma closed_app e e' : closed_sockets (e ++ e') = closed_sockets e ++ closed_sockets e'.
Proof. apply omap_app. Qed.

Section Books.

Lemma books_ret {A} (a : A) : books [] (mret a).
Proof. intros s. by apply wp_ret. Qed.
Lemma books_bind {A B} l l' (m : Handler A) (k : A -> Handler B) :
  books l m -> (forall a, books l' (k a)) -> books (l ++ l') (m ≫= k).
Proof.
  intros Hm Hk s. eapply wp_seq; [apply Hm|]. intros a s' E. eapply wp_mono; [apply Hk|].
  intros b s'' E'. rewrite E', E. rewrite !(assoc_L (++)). by rewrite (Permutation_app_comm l' l).
Qed.
Lemma books_then {A B} l (m : Handler A) (k : A -> Handler B) :
  books [] m -> (forall a, books l (k a)) -> books l (m ≫= k).
Proof. apply (books_bind []). Qed.
Lemma books_if {A} l (b : bool) (m m' : Handler A) : books l m -> books l m' -> books l (if b then m else m').
Proof. by destruct b. Qed.
Lemma books_when (b : bool) (m : Handler unit) : books [] m -> books [] (when b m).
Proof. intros H. unfold when. apply books_if; [done|apply books_ret]. Qed.
Lemma books_each {A} (f : A -> Handler unit) l : (forall a, books [] (f a)) -> books [] (each f l).
Proof.
  intros H. induction l as [|a l IH]; cbn [each]; [apply books_ret|]. by apply books_then.
Qed.
Lemma books_abort {A} l : books l (abort : Handler A).
Proof. intros s. by apply wp_abort. Qed.
Lemma books_self {A} (f : PeerRuntime -> A) : books [] (self f).
Proof. intros s. by apply wp_reads. Qed.
Lemma books_call {A} (f : Handling -> A * Handling) :
  (forall s, ledger (snd (f s)) = ledger s) -> books [] (call f).
Proof. intros H s. apply wp_call. by rewrite H. Qed.
Lemma books_on_self f : (forall r, owned_sockets (f r) = owned_sockets r) -> books [] (on_self f).
Proof. intros H s. apply wp_change. unfold ledger; cbn. by rewrite H. Qed.
Lemma books_on_env {A} (f : Env -> A * Env) : books [] (on_env f).
Proof. apply books_call. intros s. by destruct (f (env_of s)). Qed.
Lemma books_on_the_peer f : books [] (on_the_peer f).
Proof. intros s. by apply wp_change. Qed.
Lemma books_now : books [] now_of.
Proof. apply books_call. intros s. by destruct (GetMonotonicTime (hn_world s)). Qed.

Lemma books_add effect : books (closed_sockets [effect]) (Add effect).
Proof.
  intros s. unfold wp, Add, TryAdd. destruct (_ =? _)%nat; cbn; [done|]. unfold ledger; cbn.
  rewrite closed_app, (assoc_L (++)). apply Permutation_app_comm.
Qed.
Lemma add_self effect s : wp True (Add effect) (fun _ s' => hn_self s' = hn_self s) s.
Proof. unfold wp, Add, TryAdd. by destruct (_ =? _)%nat. Qed.
Lemma books_append l m : books l m -> books l (Append m).
Proof.
  intros H s. specialize (H (s <| hn_effects := [] |>)). unfold wp, Append in *.
  destruct (m _) as [ [ [] s']|]; cbn; [|done]. unfold TryAppend. destruct (_ <? _)%nat; cbn; [done|].
  revert H. unfold ledger; cbn. rewrite closed_app, app_nil_r. intros H.
  rewrite (assoc_L (++)), (Permutation_app_comm _ (closed_sockets (hn_effects s))), <- (assoc_L (++)), H.
  rewrite !(assoc_L (++)), (Permutation_app_comm _ l), <- !(assoc_L (++)). f_equiv. apply Permutation_app_comm.
Qed.
End Books.

Create HintDb books.
#[export] Hint Resolve books_ret books_abort books_self books_on_env books_on_the_peer books_now : books.
#[export] Hint Extern 3 (books [] (on_self _)) => apply books_on_self; intros; reflexivity : books.
#[export] Hint Extern 3 (books [] (call _)) =>
  apply books_call; intros; first [reflexivity | by destruct (Coordinator_Cancel _ _)] : books.
#[export] Hint Extern 3 (books [] (Add _)) => apply books_add : books.

(** The structure of a handler that books nothing, branch by branch. *)
Ltac keeps_books :=
  repeat first
    [ progress auto with books nocore
    | lazymatch goal with
      | |- books _ (_ ≫= _) => apply books_then; [|intros ?]
      | |- books _ (when _ _) => apply books_when
      | |- books _ (if _ then _ else _) => apply books_if
      | |- books _ (Append _) => apply books_append
      | |- books _ (each _ _) => apply books_each; intros ?
      | |- books _ (match ?x with _ => _ end) => destruct x
      end ].


(** ** The operations on the binding *)

Lemma books_first {A B} l (m : Handler A) (k : A -> Handler B) :
  books l m -> (forall a, books [] (k a)) -> books l (m ≫= k).
Proof. rewrite <- (app_nil_r l) at 2. apply books_bind. Qed.

Lemma ledger_open s : Binding_IsOpen (m_binding (hn_self s)) = true ->
  ledger s = ub_socket (m_binding (hn_self s)) :: closed_sockets (hn_effects s).
Proof. unfold ledger, owned_sockets. by intros ->. Qed.
Lemma ledger_closed s : Binding_IsOpen (m_binding (hn_self s)) = false ->
  ledger s = closed_sockets (hn_effects s).
Proof. unfold ledger, owned_sockets. by intros ->. Qed.

Lemma close_open s : Binding_IsOpen (m_binding (hn_self s)) = true ->
  wp True close_socket (fun _ s' => ledger s' ≡ₚ ledger s) s.
Proof.
  intros Hopen. unfold close_socket. apply wp_bind, wp_reads, wp_bind, wp_call. cbn.
  eapply wp_mono; [apply books_add|]. intros ? s' ->. by rewrite ledger_closed, (ledger_open s).
Qed.
Lemma close_if_open s :
  wp True (when (Binding_IsOpen (m_binding (hn_self s))) close_socket) (fun _ s' => ledger s' ≡ₚ ledger s) s.
Proof. apply wp_when; intros H; [by apply close_open|done]. Qed.
Lemma close_if_open_closes s :
  wp True (when (Binding_IsOpen (m_binding (hn_self s))) close_socket)
    (fun _ s' => owned_sockets (hn_self s') = []) s.
Proof.
  unfold owned_sockets. apply wp_when; intros H; [|by rewrite H]. apply wp_bind, wp_reads, wp_bind, wp_call.
  eapply wp_mono; [apply add_self|]. by intros ? s' ->.
Qed.

Lemma books_enter_error stage code now : books [] (EnterActivationError stage code now).
Proof.
  unfold EnterActivationError, ClearStagedInnerPackets. do 5 (apply books_then; [keeps_books|intros ?]).
  intros s. apply wp_bind, wp_reads. eapply wp_seq; [apply close_if_open|]. intros ? s' E.
  match goal with |- wp _ ?m _ _ => assert (books [] m) as H by (unfold cancel_timer; keeps_books) end.
  eapply wp_mono; [apply H|]. by intros ? s'' ->.
Qed.

#[export] Hint Resolve books_enter_error : books.
#[export] Hint Extern 2 (books _ (arm_timer _ _ _)) => apply books_add : books.
#[export] Hint Extern 2 (books _ (cancel_timer _ _)) => apply books_add : books.

Section Handlers.
Context {P : Primitives}.

Lemma books_OnAuthenticatedPacketTraversal identity facts : books [] (OnAuthenticatedPacketTraversal identity facts).
Proof. unfold OnAuthenticatedPacketTraversal. keeps_books. Qed.
#[local] Hint Resolve books_OnAuthenticatedPacketTraversal : books.
Lemma books_OnAuthenticatedPacketSent identity : books [] (OnAuthenticatedPacketSent identity).
Proof. unfold OnAuthenticatedPacketSent. keeps_books. Qed.
#[local] Hint Resolve books_OnAuthenticatedPacketSent : books.
Lemma books_OnAuthenticatedPacketReceived identity : books [] (OnAuthenticatedPacketReceived identity).
Proof. unfold OnAuthenticatedPacketReceived. keeps_books. Qed.
#[local] Hint Resolve books_OnAuthenticatedPacketReceived : books.
Lemma books_OnDataPacketSent identity facts : books [] (OnDataPacketSent identity facts).
Proof. unfold OnDataPacketSent. keeps_books. Qed.
#[local] Hint Resolve books_OnDataPacketSent : books.
Lemma books_OnDataPacketReceived identity facts : books [] (OnDataPacketReceived identity facts).
Proof. unfold OnDataPacketReceived. keeps_books. Qed.
#[local] Hint Resolve books_OnDataPacketReceived : books.
Lemma books_OnSessionDerived identity facts : books [] (OnSessionDerived identity facts).
Proof. unfold OnSessionDerived. keeps_books. Qed.
#[local] Hint Resolve books_OnSessionDerived : books.
Lemma books_OnHandshakeComplete identity : books [] (OnHandshakeComplete identity).
Proof. unfold OnHandshakeComplete. keeps_books. Qed.
#[local] Hint Resolve books_OnHandshakeComplete : books.
Lemma books_submit_datagram d : books [] (submit_datagram d).
Proof. unfold submit_datagram. keeps_books. Qed.
#[local] Hint Resolve books_submit_datagram : books.
Lemma books_send_pending identity : books [] (send_pending identity).
Proof. unfold send_pending. keeps_books. Qed.
#[local] Hint Resolve books_send_pending : books.
Lemma books_retry_timer event : books [] (retry_timer event).
Proof. unfold retry_timer. keeps_books. Qed.
#[local] Hint Resolve books_retry_timer : books.
Lemma books_apply_outcome outcome : books [] (apply_outcome outcome).
Proof. unfold apply_outcome. keeps_books. Qed.
#[local] Hint Resolve books_apply_outcome : books.
Lemma books_pop_staged disposition : books [] (pop_staged disposition).
Proof. unfold pop_staged. keeps_books. Qed.
#[local] Hint Resolve books_pop_staged : books.
Lemma books_PrepareHandshakeInitiation kind : books [] (PrepareHandshakeInitiation kind).
Proof. unfold PrepareHandshakeInitiation. keeps_books. Qed.
#[local] Hint Resolve books_PrepareHandshakeInitiation : books.
Lemma books_PrepareHandshakeResponse : books [] (PrepareHandshakeResponse).
Proof. unfold PrepareHandshakeResponse. keeps_books. Qed.
#[local] Hint Resolve books_PrepareHandshakeResponse : books.
Lemma books_PrepareTransportDatagram payload kind id : books [] (PrepareTransportDatagram payload kind id).
Proof. unfold PrepareTransportDatagram. keeps_books. Qed.
#[local] Hint Resolve books_PrepareTransportDatagram : books.
Lemma books_StartHandshake identity retry : books [] (PeerRuntime.StartHandshake identity retry).
Proof. unfold PeerRuntime.StartHandshake. keeps_books. Qed.
#[local] Hint Resolve books_StartHandshake : books.
Lemma books_start_or_fail identity now : books [] (start_or_fail identity now).
Proof. unfold start_or_fail. keeps_books. Qed.
#[local] Hint Resolve books_start_or_fail : books.
Lemma books_RefreshKeyFreshness identity now : books [] (RefreshKeyFreshness identity now).
Proof. unfold RefreshKeyFreshness. keeps_books. Qed.
#[local] Hint Resolve books_RefreshKeyFreshness : books.
Lemma books_send_keepalive identity now armed : books [] armed -> books [] (send_keepalive_or_fail identity now armed).
Proof. intros H. unfold send_keepalive_or_fail. keeps_books. Qed.
#[local] Hint Resolve books_send_keepalive : books.
Lemma books_process_queue fuel identity now : books [] (process_queue fuel identity now).
Proof. revert identity now. induction fuel as [|fuel IH]; intros; cbn [process_queue]; keeps_books. Qed.
#[local] Hint Resolve books_process_queue : books.
Lemma books_ProcessOutboundQueue identity now : books [] (ProcessOutboundQueue identity now).
Proof. unfold ProcessOutboundQueue. keeps_books. Qed.
#[local] Hint Resolve books_ProcessOutboundQueue : books.
Lemma books_HandleTransportFailure event : books [] (HandleTransportFailure event).
Proof. unfold HandleTransportFailure. keeps_books. Qed.
#[local] Hint Resolve books_HandleTransportFailure : books.
Lemma books_HandleSendSuccess event kind : books [] (HandleSendSuccess event kind).
Proof. unfold HandleSendSuccess. keeps_books. Qed.
#[local] Hint Resolve books_HandleSendSuccess : books.
Lemma books_HandleSendFailure event kind : books [] (HandleSendFailure event kind).
Proof. unfold HandleSendFailure. keeps_books. Qed.
#[local] Hint Resolve books_HandleSendFailure : books.
Lemma books_HandlePendingDatagramCompletion event : books [] (HandlePendingDatagramCompletion event).
Proof. unfold HandlePendingDatagramCompletion. keeps_books. Qed.
#[local] Hint Resolve books_HandlePendingDatagramCompletion : books.
Lemma books_stage_packet identity id packet : books [] (stage_packet identity id packet).
Proof. unfold stage_packet. keeps_books. Qed.
#[local] Hint Resolve books_stage_packet : books.
Lemma books_HandleInnerPacketStaged event : books [] (HandleInnerPacketStaged event).
Proof. unfold HandleInnerPacketStaged. keeps_books. Qed.
#[local] Hint Resolve books_HandleInnerPacketStaged : books.
Lemma books_HandleInnerPacketBatchStaged event : books [] (HandleInnerPacketBatchStaged event).
Proof. unfold HandleInnerPacketBatchStaged. keeps_books. Qed.
#[local] Hint Resolve books_HandleInnerPacketBatchStaged : books.
Lemma books_HandleProcessOutboundQueue event : books [] (HandleProcessOutboundQueue event).
Proof. unfold HandleProcessOutboundQueue. keeps_books. Qed.
#[local] Hint Resolve books_HandleProcessOutboundQueue : books.
Lemma books_UpdateEndpointFromAuthenticatedPacket event : books [] (UpdateEndpointFromAuthenticatedPacket event).
Proof. unfold UpdateEndpointFromAuthenticatedPacket. keeps_books. Qed.
#[local] Hint Resolve books_UpdateEndpointFromAuthenticatedPacket : books.
Lemma books_received_bytes event : books [] (received_bytes event).
Proof. unfold received_bytes. keeps_books. Qed.
#[local] Hint Resolve books_received_bytes : books.
Lemma books_EnterHandshaking generation now : books [] (EnterHandshaking generation now).
Proof. unfold EnterHandshaking. keeps_books. Qed.
#[local] Hint Resolve books_EnterHandshaking : books.
Lemma books_EnterActive generation now : books [] (EnterActive generation now).
Proof. unfold EnterActive. keeps_books. Qed.
#[local] Hint Resolve books_EnterActive : books.
Lemma books_establish event : books [] (establish event).
Proof. unfold establish. keeps_books. Qed.
#[local] Hint Resolve books_establish : books.
Lemma books_CompleteInitiatorSession event : books [] (CompleteInitiatorSession event).
Proof. unfold CompleteInitiatorSession. keeps_books. Qed.
#[local] Hint Resolve books_CompleteInitiatorSession : books.
Lemma books_HandleDecryptedPacket event result : books [] (HandleDecryptedPacket event result).
Proof. unfold HandleDecryptedPacket. keeps_books. Qed.
#[local] Hint Resolve books_HandleDecryptedPacket : books.
Lemma books_HandleTransportData event : books [] (HandleTransportData event).
Proof. unfold HandleTransportData. keeps_books. Qed.
#[local] Hint Resolve books_HandleTransportData : books.
Lemma books_HandleInitiationConsumed event : books [] (HandleInitiationConsumed event).
Proof. unfold HandleInitiationConsumed. keeps_books. Qed.
#[local] Hint Resolve books_HandleInitiationConsumed : books.
Lemma books_HandleHandshakePacket event : books [] (HandleHandshakePacket event).
Proof. unfold HandleHandshakePacket. keeps_books. Qed.
#[local] Hint Resolve books_HandleHandshakePacket : books.
Lemma books_AdmitHandshakePacket event : books [] (AdmitHandshakePacket event).
Proof. unfold AdmitHandshakePacket. keeps_books. Qed.
#[local] Hint Resolve books_AdmitHandshakePacket : books.
Lemma books_HandleEncryptedDatagram event : books [] (HandleEncryptedDatagram event).
Proof. unfold HandleEncryptedDatagram. keeps_books. Qed.
#[local] Hint Resolve books_HandleEncryptedDatagram : books.
Lemma books_HandleActivationRequested event : books [] (HandleActivationRequested event).
Proof. unfold HandleActivationRequested. keeps_books. Qed.
#[local] Hint Resolve books_HandleActivationRequested : books.
Lemma books_cancel_hook_now identity hook : books [] (cancel_hook_now identity hook).
Proof. unfold cancel_hook_now. keeps_books. Qed.
#[local] Hint Resolve books_cancel_hook_now : books.
Lemma books_HandleUdpRebindRequested event : books [] (HandleUdpRebindRequested event).
Proof. unfold HandleUdpRebindRequested. keeps_books. Qed.
#[local] Hint Resolve books_HandleUdpRebindRequested : books.
Lemma books_HandleEndpointResolved event : books [] (HandleEndpointResolved event).
Proof. unfold HandleEndpointResolved. keeps_books. Qed.
#[local] Hint Resolve books_HandleEndpointResolved : books.
Lemma books_RecoverTransport identity now : books [] (RecoverTransport identity now).
Proof. unfold RecoverTransport. keeps_books. Qed.
#[local] Hint Resolve books_RecoverTransport : books.
Lemma books_HandleRetransmitExpired event : books [] (HandleRetransmitExpired event).
Proof. unfold HandleRetransmitExpired. keeps_books. Qed.
#[local] Hint Resolve books_HandleRetransmitExpired : books.
Lemma books_HandleKeepaliveExpired event : books [] (HandleKeepaliveExpired event).
Proof. unfold HandleKeepaliveExpired. keeps_books. apply books_send_keepalive. keeps_books. Qed.
#[local] Hint Resolve books_HandleKeepaliveExpired : books.
Lemma books_HandleTimerHook event : books [] (HandleTimerHook event).
Proof. unfold HandleTimerHook. keeps_books. Qed.
#[local] Hint Resolve books_HandleTimerHook : books.
Lemma books_HandleProtocolTimerExpired event : books [] (HandleProtocolTimerExpired event).
Proof. unfold HandleProtocolTimerExpired. keeps_books. Qed.
#[local] Hint Resolve books_HandleProtocolTimerExpired : books.

(** Releasing the socket of a binding moves it out of the ledger. *)
Lemma HandleDeactivationRequested_books event : books [] (HandleDeactivationRequested event).
Proof.
  intros s. unfold HandleDeactivationRequested. apply wp_bind, wp_reads, wp_if; intros _; [by apply wp_ret|].
  eapply (wp_seq _ _ _ (fun _ s' => hn_self s' = hn_self s /\ ledger s' ≡ₚ ledger s)).
  - apply wp_when; intros _; [|done]. eapply wp_mono; [apply wp_conj; [apply add_self|apply books_add]|].
    by intros ? ? [? ?].
  - intros ? s1 [E1 E]. eapply wp_seq; [rewrite <- E1; apply close_if_open|]. intros ? s2 E2.
    match goal with |- wp _ ?m _ _ => assert (books [] m) as H by keeps_books end.
    eapply wp_mono; [apply H|]. intros ? s3 ->. by rewrite E2, E.
Qed.

Lemma SuspendTransport_books identity : books [] (SuspendTransport identity).
Proof.
  intros s. unfold SuspendTransport. apply wp_bind, wp_reads, wp_if; intros _; [by apply wp_ret|].
  eapply wp_seq; [apply books_each; intros; apply books_add|]. cbn [app]. intros ? s' E.
  apply wp_bind, wp_call. cbn.
  apply wp_when; intros Hsocket.
  - eapply wp_mono; [apply books_add|]. intros ? s'' ->. rewrite <- E. cbn [closed_sockets omap list_omap].
    rewrite ledger_closed by done. by rewrite (ledger_open s') by done.
  - rewrite <- E. unfold ledger, owned_sockets, Binding_IsOpen. cbn. by rewrite Hsocket.
Qed.
#[local] Hint Resolve HandleDeactivationRequested_books SuspendTransport_books : books.
Lemma books_path_changed event : books [] (HandleNetworkPathAvailabilityChanged event).
Proof. unfold HandleNetworkPathAvailabilityChanged. keeps_books. Qed.
#[local] Hint Resolve books_path_changed : books.

(** ** The socket of an open event *)

Abbreviation event_sockets event := (opened_sockets (Event_UdpBindOpened event)).

Lemma books_close_event event : books (event_sockets event) (close_event_socket event).
Proof.
  unfold close_event_socket, when. apply books_then; [keeps_books|intros path]. cbn.
  destruct (bo_socket event =? InvalidSocket); cbn; [apply books_ret|apply books_add].
Qed.
Lemma refused_or_open (error : socket_error) event :
  negb (bool_decide (error = socket_error_none)) || (bo_socket event =? InvalidSocket) = false ->
  event_sockets event = [bo_socket event].
Proof. cbn. intros [_ ->]%orb_false_elim. done. Qed.

Lemma adopt_spec event s : event_sockets event = [bo_socket event] ->
  wp True (adopt_socket event) (fun _ s' =>
    ledger s' ≡ₚ bo_socket event :: ledger s /\ Binding_IsOpen (m_binding (hn_self s')) = true) s.
Proof.
  intros Hopen. unfold adopt_socket, AdoptOpenSocket. apply wp_bind, wp_reads.
  destruct (Binding_IsOpen _) eqn:Hold; [by apply wp_abort|]. apply wp_change.
  rewrite (ledger_closed s) by done.
  match goal with |- ledger ?s' ≡ₚ _ /\ _ => assert (Binding_IsOpen (m_binding (hn_self s')) = true) as Hnew end.
  { revert Hopen. cbn. unfold Binding_IsOpen. cbn. by destruct (_ =? _). }
  split; [by rewrite ledger_open|done].
Qed.

Lemma books_rebind_opened event : books (event_sockets event) (HandleRebindOpened event).
Proof.
  unfold HandleRebindOpened. intros s. apply wp_bind, wp_reads, wp_if; intros _; [apply books_close_event|].
  apply wp_if; intros Hok; [apply books_close_event|]. apply refused_or_open in Hok. rewrite Hok.
  apply wp_bind, wp_call. cbn. eapply wp_seq; [by apply adopt_spec|]. intros ? s1 [E1 _].
  change (ledger s1 ≡ₚ bo_socket event :: closed_sockets (hn_effects s)) in E1.
  set (old := ub_socket (m_binding (hn_self s))) in *.
  eapply (wp_seq _ _ _ (fun _ s' => ledger s' ≡ₚ [bo_socket event] ++ ledger s)).
  - apply wp_when; intros Hold.
    + eapply wp_mono; [apply books_add|]. intros ? s2 ->. rewrite E1, (ledger_open s) by done. apply perm_swap.
    + by rewrite E1, (ledger_closed s).
  - intros ? s2 E2.
    match goal with |- wp _ ?m _ _ => assert (books [] m) as H by keeps_books end.
    eapply wp_mono; [apply H|]. by intros ? s3 ->.
Qed.

Lemma books_InstantiateProtocol : books [] InstantiateProtocol.
Proof. unfold InstantiateProtocol. keeps_books. Qed.
#[local] Hint Resolve books_InstantiateProtocol : books.

Lemma InstantiateProtocol_binding s :
  wp True InstantiateProtocol (fun _ s' => m_binding (hn_self s') = m_binding (hn_self s)) s.
Proof.
  unfold InstantiateProtocol, self, on_self, on_env. repeat wp_step; try done; case_match; done.
Qed.
Lemma EnterHandshaking_binding generation now s :
  wp True (EnterHandshaking generation now) (fun _ s' => m_binding (hn_self s') = m_binding (hn_self s)) s.
Proof. unfold EnterHandshaking, self, on_self. repeat wp_step; done. Qed.

Lemma books_activation_opened event : books (event_sockets event) (HandleActivationBindOpened event).
Proof.
  unfold HandleActivationBindOpened. intros s. apply wp_bind, wp_reads, wp_if; intros _; [apply books_close_event|].
  apply wp_if; intros Hok.
  - assert (books (event_sockets event) (close_event_socket event ≫= fun _ =>
      EnterActivationError PeerErrorStage_Transport PeerErrorCode_TransportOpenFailed (bo_occurred_at event))) as H
      by (apply books_first; [apply books_close_event|keeps_books]). apply H.
  - apply refused_or_open in Hok as E. rewrite E. eapply wp_seq; [by apply adopt_spec|]. intros ? s1 [E1 Hopen].
    eapply wp_seq; [apply wp_conj; [apply books_InstantiateProtocol|apply InstantiateProtocol_binding]|].
    intros instantiated s2 [E2 B2]. cbn in E2.
    apply wp_if; intros _.
    { eapply wp_mono; [apply books_enter_error|]. intros ? s3 ->. by rewrite E2. }
    eapply wp_seq; [apply wp_conj; [apply books_EnterHandshaking|apply EnterHandshaking_binding]|].
    intros handshaking s3 [E3 B3]. cbn in E3.
    apply wp_if; intros _.
    { eapply wp_mono; [apply close_open; by rewrite B3, B2|]. intros ? s4 ->. by rewrite E3, E2. }
    match goal with |- wp _ ?m _ _ => assert (books [] m) as H by keeps_books end.
    eapply wp_mono; [apply H|]. intros ? s4 ->. by rewrite E3, E2.
Qed.

Lemma books_bind_opened event : books (event_sockets event) (HandleUdpBindOpened event).
Proof.
  unfold HandleUdpBindOpened. apply books_then; [keeps_books|intros r].
  apply books_if; [apply books_close_event|]. apply books_then; [keeps_books|intros _].
  apply books_if; [apply books_rebind_opened|apply books_activation_opened].
Qed.

Lemma books_HandleEvent event : books (opened_sockets event) (HandleEvent event).
Proof. destruct event; cbn [HandleEvent]; try apply books_bind_opened; keeps_books. Qed.

Lemma FinalizeTimerEffect_sockets effect r :
  closed_sockets [fst (FinalizeTimerEffect effect r)] = closed_sockets [effect] /\
  m_binding (snd (FinalizeTimerEffect effect r)) = m_binding r.
Proof.
  destruct effect; cbn [FinalizeTimerEffect]; try done; repeat case_match; done.
Qed.
Lemma FinalizeTimerEffects_sockets effects r :
  closed_sockets (fst (FinalizeTimerEffects effects r)) = closed_sockets effects /\
  m_binding (snd (FinalizeTimerEffects effects r)) = m_binding r.
Proof.
  revert r. induction effects as [|effect effects IH]; intros r; [done|]. cbn [FinalizeTimerEffects].
  destruct (FinalizeTimerEffect effect r) as [effect' r'] eqn:E.
  pose proof (FinalizeTimerEffect_sockets effect r) as [H1 H2]. rewrite E in H1, H2. cbn in H1, H2.
  specialize (IH r') as [H3 H4]. destruct (FinalizeTimerEffects effects r') as [effects' r''].
  cbn [fst snd] in *. split; [|congruence].
  change (effect' :: effects') with ([effect'] ++ effects'). change (effect :: effects) with ([effect] ++ effects).
  rewrite !closed_app, H3. cbn. by rewrite H1.
Qed.

Lemma Handle_books event r w effects r' w' : Handle event r w = Some (effects, r', w') ->
  owned_sockets r' ++ closed_sockets effects ≡ₚ opened_sockets event ++ owned_sockets r.
Proof.
  unfold Handle. destruct (HandleEvent event _) as [ [ [] s]|] eqn:E; cbn; [|done].
  pose proof (wp_partial _ _ _ _ _ (books_HandleEvent event (mk_handling r w [])) E) as H.
  pose proof (FinalizeTimerEffects_sockets (hn_effects s) (hn_self s)) as [H1 H2].
  destruct (FinalizeTimerEffects _ _) as [effects1 r1]. case_match; [done|]. intros [= <- <- <-].
  unfold ledger, owned_sockets in *. cbn [fst snd hn_self hn_effects] in *. rewrite H1, H2, H. by rewrite app_nil_r.
Qed.
(** ** Sequences of events *)

Lemma perm_chain {A} (a b c d f g h : list A) :
  a ++ c ≡ₚ f ++ h -> h ++ b ≡ₚ d ++ g -> a ++ b ++ c ≡ₚ (d ++ f) ++ g.
Proof.
  intros E1 E2. rewrite (Permutation_app_comm b c), (assoc_L (++)), E1, <- (assoc_L (++)), E2.
  rewrite !(assoc_L (++)). by rewrite (Permutation_app_comm f d).
Qed.
Lemma handle_all_books events r w effects r' w' : handle_all events r w = Some (effects, r', w') ->
  owned_sockets r' ++ closed_sockets effects ≡ₚ (events ≫= opened_sockets) ++ owned_sockets r.
Proof.
  revert r w effects. induction events as [|event events IH]; intros r w effects; cbn [handle_all].
  - intros [= <- <- <-]. by rewrite app_nil_r.
  - destruct (Handle event r w) as [ [ [effects1 r1] w1]|] eqn:E1; cbn; [|done].
    destruct (handle_all events r1 w1) as [ [ [effects2 r2] w2]|] eqn:E2; cbn; [|done].
    intros [= <- <- <-]. apply IH in E2. apply Handle_books in E1.
    rewrite closed_app. by eapply perm_chain.
Qed.

Lemma deactivation_closes event r w effects r' w' :
  IsCurrentActivation (pi_activation_generation (dq_peer event)) r = true ->
  Handle (Event_DeactivationRequested event) r w = Some (effects, r', w') -> owned_sockets r' = [].
Proof.
  unfold Handle. destruct (HandleEvent _ _) as [ [ [] s]|] eqn:E; cbn; [|done].
  intros Hcurrent Hhandle.
  pose proof (FinalizeTimerEffects_sockets (hn_effects s) (hn_self s)) as [_ H2].
  destruct (FinalizeTimerEffects _ _) as [effects1 r1]. case_match; [done|]. injection Hhandle as <- <- <-.
  unfold owned_sockets. cbn in H2. rewrite H2. fold (owned_sockets (hn_self s)).
  eapply (wp_partial _ (fun _ s => owned_sockets (hn_self s) = [])), E. clear -Hcurrent. cbn [HandleEvent].
  unfold HandleDeactivationRequested. apply wp_bind, wp_reads, wp_if; intros Hnot; [cbn in Hnot; by rewrite Hcurrent in Hnot|].
  eapply (wp_seq _ _ _ (fun _ s' => hn_self s' = r)).
  { apply wp_when; intros _; [|done]. apply add_self. }
  intros ? s1 <-. eapply wp_seq; [apply (close_if_open_closes s1)|]. intros ? s2 E2.
  eapply (wp_seq _ _ _ (fun _ s' => owned_sockets (hn_self s') = [])).
  - apply wp_when; intros _; [|done]. apply wp_each with (I := fun _ s' => owned_sockets (hn_self s') = []); try done.
    intros hook l s3 E3. unfold cancel_hook_now. apply wp_bind, wp_change, wp_bind, wp_call. cbn.
    destruct (Coordinator_Cancel _ _). cbn. eapply wp_mono; [apply add_self|]. by intros ? s4 ->.
  - intros ? s3 E3. by apply wp_change.
Qed.
(** C8. Over any sequence of events that does not abort, the sockets handed to
    the runtime and the one it owned at first are, each exactly once, closed by an
    effect or still owned by the binding; the deactivation of the current
    activation then leaves none open. *)
Theorem sockets_owned_or_closed (events : list PeerEvent) (r : PeerRuntime) (w : World)
    (effects : list RuntimeEffect) (r' : PeerRuntime) (w' : World) :
  handle_all events r w = Some (effects, r', w') ->
  (events ≫= opened_sockets) ++ owned_sockets r ≡ₚ closed_sockets effects ++ owned_sockets r' /\
  (forall event last r'' w'',
     IsCurrentActivation (pi_activation_generation (dq_peer event)) r' = true ->
     Handle (Event_DeactivationRequested event) r' w' = Some (last, r'', w'') ->
     owned_sockets r'' = [] /\
     (events ≫= opened_sockets) ++ owned_sockets r ≡ₚ closed_sockets (effects ++ last)).
Proof.
  intros H%handle_all_books. split; [by rewrite <- H, Permutation_app_comm|].
  intros event last r'' w'' Hcurrent Hlast.
  pose proof (deactivation_closes _ _ _ _ _ _ Hcurrent Hlast) as E. split; [done|].
  apply Handle_books in Hlast. rewrite E in Hlast. rewrite closed_app, <- H. cbn in Hlast.
  by rewrite Permutation_app_comm, Hlast.
Qed.
End Handlers.

(** An active runtime that owns socket 3. *)
Definition example_runtime : PeerRuntime :=
  runtime_init <| m_binding := binding_init <| ub_socket := 3 |> |>
    <| m_lifecycle := lifecycle_init <| lc_state := PeerRuntimeState_Active |>
                        <| lc_activation_generation := 1 |> |>
    <| m_path_request_generation := 1 |>.
Definition example_world : World := sample_world 1000 10 1.
Definition example_opened (socket : Z) : PeerEvent :=
  Event_UdpBindOpened
    (mk_bind_opened (mk_peer_identity 0 1) 1 endpoint_init [] socket socket_error_none 9
       UdpBindPurpose_Rebind (mk_timer_facts 0 0) 0).
Definition example_deactivation : PeerEvent :=
  Event_DeactivationRequested (mk_deactivation_requested (mk_peer_identity 0 1) 0).

Lemma sockets_owned_or_closed_witness :
  match handle_all (P := toy_primitives) [example_opened 4; example_deactivation] example_runtime example_world with
  | Some (effects, r', _) =>
      closed_sockets effects = [4; 3] /\ [4] ++ [3] ≡ₚ closed_sockets effects ++ owned_sockets r'
  | None => False
  end.
Proof.
  pose proof (sockets_owned_or_closed (P := toy_primitives) [example_opened 4; example_deactivation]
                example_runtime example_world) as H.
  assert (match handle_all (P := toy_primitives) [example_opened 4; example_deactivation] example_runtime
                  example_world with
          | Some (effects, _, _) => closed_sockets effects
          | None => []
          end = [4; 3]) as E by (vm_compute; reflexivity).
  destruct (handle_all _ _ _) as [ [ [effects r'] w']|]; [|discriminate E].
  split; [exact E|]. exact (proj1 (H effects r' w' eq_refl)).
Defined.
