(* ===== verification/RuntimeBudget.v ===== *)
(** * The effect budget of the outbound side

    [Handle] aborts the process when a handler emits more effects than the budget
    of its event.  On a peer that is ready the handlers of the outbound side
    (packets staged, queue processed, sends completed) neither abort nor fail: the
    proofs follow every handler with the resources it still has. *)

From S2P Require Import Prelude Endian Messages PacketQueue Platform Session Base64 InnerPacket Timers.
From S2P Require Import Crypto Device Data Identity Noise Admission Macs Handshake Agreement Exchange Peer.
From S2P Require Import PeerController Tunnel Abort RuntimeEvents PeerRuntime.
Local Open Scope Z_scope.

Section Budget.
Context {P : Primitives} {L : PrimitivesLaws P}.

(** ** Readiness *)

Definition staged (e : Env) : InnerPacketQueue := pr_staged_outbound_packets (the_peer e).
(** A payload that seals into a datagram of the runtime. *)
Definition sendable (mtu : Z) (payload : bytes) : Prop :=
  bytes_ok payload /\ fits (pd_bytes pending_init) payload (ResolveEffectiveInnerMtu mtu).
Definition record_payload (r : InnerPacketRecord) : bytes := take (Z.to_nat (rec_size r)) (rec_bytes r).

(** The protocol of a runtime whose peer can start handshakes and whose staged
    packets fit their datagrams. *)
Record env_ready (mtu : Z) (e : Env) (own other psk : bytes) : Prop := {
  er_peer : ready_peer e own other psk;
  er_queue : queue_wf PeerStagedPacketCapacity (staged e);
  er_staged : Forall (fun r => sendable mtu (record_payload r)) (contents PeerStagedPacketCapacity (staged e));
  er_key : keypair_ok (pr_current_keypair (the_peer e))
}.

Context (own other psk : bytes) (Hown : bytes_of 32 own) (Hother : bytes_of 32 other).
Context (mtu : Z) (Hmtu : is_u64 mtu).

Record ready (s : Handling) : Prop := {
  rd_env : env_ready mtu (env_of s) own other psk;
  rd_instantiated : po_instantiated (m_protocol (hn_self s)) = true;
  rd_mtu : cf_mtu (m_config (hn_self s)) = mtu
}.

(** [m] runs from [s] without aborting, stays ready, emits at most [n] effects and
    does not change the life-cycle state; [Q] is what else holds. *)
Definition spends {A} (n : nat) (m : Handler A) (s : Handling) (Q : A -> Handling -> Prop) : Prop :=
  (length (hn_effects s) + n <= EffectBatchCapacity)%nat ->
  wp False m (fun a s' =>
    ready s' /\ (length (hn_effects s') <= length (hn_effects s) + n)%nat /\
    lc_state (m_lifecycle (hn_self s')) = lc_state (m_lifecycle (hn_self s)) /\ Q a s') s.

Lemma spends_bind {A B} n n' (m : Handler A) (k : A -> Handler B) s Q R :
  spends n m s R -> (forall a s', ready s' -> R a s' -> spends n' (k a) s' Q) ->
  spends (n + n') (m ≫= k) s Q.
Proof.
  intros Hm Hk Hroom. eapply wp_seq; [apply Hm; lia|]. intros a s' (Hr & Hl & Hs & HR).
  eapply wp_mono; [apply Hk; [done|done|lia]|]. intros b s'' (Hr' & Hl' & Hs' & HQ).
  split_and!; [done|lia|congruence|done].
Qed.
Lemma spends_weaken {A} n n' (m : Handler A) s (Q Q' : A -> Handling -> Prop) :
  spends n m s Q -> (n <= n')%nat -> (forall a s', Q a s' -> Q' a s') -> spends n' m s Q'.
Proof.
  intros H Hn HQ Hroom. eapply wp_mono; [apply H; lia|]. intros a s' (? & ? & ? & ?).
  split_and!; [done|lia|done|by apply HQ].
Qed.
Lemma spends_ret {A} (a : A) s (Q : A -> Handling -> Prop) n : ready s -> Q a s -> spends n (mret a) s Q.
Proof. intros Hr HQ _. apply wp_ret. by split_and!; [|lia| |]. Qed.
Lemma spends_self {A B} n (f : PeerRuntime -> A) (k : A -> Handler B) s Q :
  spends n (k (f (hn_self s))) s Q -> spends n (self f ≫= k) s Q.
Proof. intros H Hroom. apply wp_bind, wp_reads. by apply H. Qed.
Lemma spends_if {A} (b : bool) n (m m' : Handler A) s Q :
  (b = true -> spends n m s Q) -> (b = false -> spends n m' s Q) -> spends n (if b then m else m') s Q.
Proof. destruct b; auto. Qed.
Lemma spends_when (b : bool) n (m : Handler unit) s (Q : unit -> Handling -> Prop) :
  ready s -> (b = true -> spends n m s Q) -> (b = false -> Q tt s) -> spends n (when b m) s Q.
Proof. intros Hr H H'. unfold when. apply spends_if; [done|]. intros E. apply spends_ret; auto. Qed.
Lemma spends_add effect s :
  ready s -> spends 1 (Add effect) s (fun _ s' => hn_self s' = hn_self s /\ hn_world s' = hn_world s).
Proof.
  intros Hr Hroom. unfold wp, Add, TryAdd. rewrite (proj2 (Nat.eqb_neq _ _)) by lia. cbn.
  split_and!; try done; [by destruct Hr|]. rewrite length_app. cbn. lia.
Qed.
(** A change of the runtime that keeps it ready. *)
Lemma spends_on_self f s (Q : unit -> Handling -> Prop) :
  ready s -> lc_state (m_lifecycle (f (hn_self s))) = lc_state (m_lifecycle (hn_self s)) ->
  m_protocol (f (hn_self s)) = m_protocol (hn_self s) -> cf_mtu (m_config (f (hn_self s))) = cf_mtu (m_config (hn_self s)) ->
  Q tt (s <| hn_self ::= f |>) -> spends 0 (on_self f) s Q.
Proof.
  intros [He Hi Hm] Hs Hp Hc HQ _. apply wp_change. split_and!; [|cbn; lia|done|done].
  split; cbn; [|by rewrite Hp|by rewrite Hc]. unfold env_of. cbn. by rewrite Hp.
Qed.
(** A protocol operation that keeps the environment ready. *)
Lemma spends_on_env {A} (f : Env -> A * Env) s (Q : A -> Handling -> Prop) :
  ready s -> env_ready mtu (snd (f (env_of s))) own other psk ->
  Q (fst (f (env_of s))) (with_env (snd (f (env_of s))) s) -> spends 0 (on_env f) s Q.
Proof.
  intros [_ Hi Hm] He HQ _. apply wp_call. destruct (f (env_of s)) as [a e]. cbn in *.
  split_and!; [|cbn; lia|done|done]. by split; [destruct e| |].
Qed.

(** ** Starting a handshake *)

Definition idle (s : Handling) : Prop := IsPending (m_pending_datagram (hn_self s)) = false.

Lemma ready_peer_here s : ready s -> ProtocolPeer (hn_self s) = Some (the_peer (env_of s)).
Proof.
  intros [ [ [_ _ HP _ _] _ _ _] Hi _]. unfold ProtocolPeer, wg_device_first_peer. rewrite Hi.
  by replace (dv_has_peer _) with true.
Qed.
Lemma ready_has_peer s : ready s -> has_protocol_peer (hn_self s) = true.
Proof. intros H. unfold has_protocol_peer. by rewrite (ready_peer_here s H). Qed.

Lemma env_ready_same e e' : env_ready mtu e own other psk ->
  the_identity e' = the_identity e ->
  precomputed_static_static (the_material e') = precomputed_static_static (the_material e) ->
  ck_value (pr_cookie (the_peer e')) = ck_value (pr_cookie (the_peer e)) ->
  dv_has_peer (ev_device e') = dv_has_peer (ev_device e) ->
  world_ok (ev_world e') -> same_services (ev_world e) (ev_world e') ->
  queue_wf PeerStagedPacketCapacity (staged e') ->
  contents PeerStagedPacketCapacity (staged e') `sublist_of` contents PeerStagedPacketCapacity (staged e) ->
  keypair_ok (pr_current_keypair (the_peer e')) ->
  env_ready mtu e' own other psk.
Proof.
  intros [ [HW HC HP HF HK] Hq Hs Hk] E1 E2 E3 E4 HW' [ES _] Hq' Hsub Hk'. split; try done.
  - split; [done|by rewrite ES|by rewrite E4|by rewrite E1, E2|by rewrite E3].
  - rewrite Forall_forall in Hs |- *. intros r Hr. apply Hs. by eapply elem_of_sublist.
Qed.

(** Starting the protocol's handshake sends an initiation or does nothing. *)
Lemma protocol_start e : env_ready mtu e own other psk ->
  let '(t, e') := PeerController.StartHandshake e in
  env_ready mtu e' own other psk /\
  (ht_action t = HandshakeTransitionAction_Ignore \/
   ht_action t = HandshakeTransitionAction_SendInitiation /\
   pr_has_last_initiation (the_peer e') = true /\ initiation_ok (pr_last_initiation (the_peer e'))).
Proof.
  intros He. unfold PeerController.StartHandshake. destruct (_ && _); [by split; [|left]|].
  destruct (prepare_spec true e own other psk Hown Hother (er_peer _ _ _ _ _ He)) as (e' & m & eph & ck & h & -> & HS).
  destruct (is_kept _ _ _ _ _ _ _ _ _ HS) as (K1 & K2 & _ & K4 & _).
  destruct (is_last _ _ _ _ _ _ _ _ _ HS) as [M1 M2].
  split.
  - eapply env_ready_same; [exact He|apply HS|exact K1|exact K2|apply HS|apply HS|apply HS| | |].
    + change (queue_wf PeerStagedPacketCapacity (staged e')). unfold staged. rewrite K4. apply He.
    + change (contents PeerStagedPacketCapacity (staged e') `sublist_of` contents PeerStagedPacketCapacity (staged e)).
      unfold staged. by rewrite K4.
    + change (keypair_ok (pr_current_keypair (the_peer e'))).
      pose proof (is_keypairs _ _ _ _ _ _ _ _ _ HS) as [= -> _ _]. apply He.
  - right. split; [done|]. change (pr_has_last_initiation (the_peer e') = true /\ initiation_ok (pr_last_initiation (the_peer e'))).
    rewrite M1. split; [done|apply HS].
Qed.
Lemma spends_submit d s : ready s -> spends 0 (submit_datagram d) s (fun _ _ => True).
Proof.
  intros [He Hi Hm] _. unfold submit_datagram, AllocateDatagramGeneration. apply wp_bind, wp_call.
  destruct (AllocateGeneration _) as [g next]. apply wp_change. by split_and!; [|cbn; lia| |].
Qed.
Lemma spends_send_pending identity s : ready s -> spends 1 (send_pending identity) s (fun _ _ => True).
Proof. intros Hr. apply spends_self. eapply spends_weaken; [by apply spends_add|done|done]. Qed.

Lemma length_pending_bytes : length (pd_bytes pending_init) = MaxEncryptedDatagramSize.
Proof. apply length_zeros. Qed.

Lemma spends_prepare_initiation kind s :
  ready s -> idle s -> pr_has_last_initiation (the_peer (env_of s)) = true ->
  initiation_ok (pr_last_initiation (the_peer (env_of s))) ->
  spends 0 (PrepareHandshakeInitiation kind) s (fun ok _ => ok = true).
Proof.
  intros Hr Hidle Hlast Hok. apply spends_self. cbn [id]. rewrite (ready_peer_here s Hr), Hlast, Hidle. cbn [negb orb].
  rewrite SerializeHandshakeInitiation_enc; [|done|].
  2: { rewrite length_take, length_pending_bytes. vm_compute. lia. }
  rewrite bool_decide_true by done. cbn [negb].
  eapply (spends_bind 0 0); [by apply spends_submit|]. intros ? s' Hr' _. by apply spends_ret.
Qed.

Lemma with_env_idle e s : idle s -> idle (with_env e s).
Proof. done. Qed.
Lemma env_of_with_env e s : env_of (with_env e s) = e.
Proof. by destruct e. Qed.

Lemma spends_StartHandshake identity s :
  ready s -> idle s -> spends 1 (PeerRuntime.StartHandshake identity false) s (fun ok _ => ok = true).
Proof.
  intros Hr Hidle. apply spends_self. cbn [id]. rewrite (ready_has_peer s Hr). cbn [negb].
  unfold idle in Hidle. rewrite Hidle.
  pose proof (protocol_start (env_of s) (rd_env s Hr)) as HP.
  destruct (PeerController.StartHandshake (env_of s)) as [t e] eqn:Et. destruct HP as [He Ht].
  eapply (spends_bind 0 1 _ _ _ _ (fun t' s' => t' = t /\ s' = with_env e s)).
  { apply spends_on_env; [done|by rewrite Et|by rewrite Et]. }
  intros ? s' Hr' [-> ->]. destruct Ht as [->|(-> & Hlast & Hok)]; [by apply spends_ret|].
  eapply (spends_bind 0 1).
  { apply spends_prepare_initiation; [done|exact Hidle|by rewrite env_of_with_env|by rewrite env_of_with_env]. }
  intros ? s'' Hr'' ->. cbn [negb].
  eapply (spends_bind 1 0); [by apply spends_send_pending|]. intros ? s3 Hr3 _. by apply spends_ret.
Qed.

Lemma spends_start_or_fail identity now s :
  ready s -> idle s -> spends 1 (start_or_fail identity now) s (fun _ _ => True).
Proof.
  intros Hr Hidle. eapply (spends_bind 1 0); [by apply spends_StartHandshake|].
  intros ? s' Hr' ->. by apply spends_ret.
Qed.
(** ** Sealing a payload *)

Lemma env_ready_world e w : env_ready mtu e own other psk -> world_ok w -> same_services (ev_world e) w ->
  env_ready mtu (e <| ev_world := w |>) own other psk.
Proof. intros He Hw Hs. eapply env_ready_same; try done; apply He. Qed.
Lemma env_ready_key e k : env_ready mtu e own other psk -> keypair_ok k ->
  env_ready mtu (on_peer (fun p => p <| pr_current_keypair := k |>) e) own other psk.
Proof. intros He Hk. eapply env_ready_same; try done; try apply He. Qed.

Lemma counter_next_ok k now : keypair_ok k -> keypair_SendStateAt now k = KeypairSendState_Ready ->
  keypair_ok (k <| kp_send_counter := kp_send_counter k + 1 |>).
Proof.
  intros (H1 & H2 & H3 & H4 & H5) E. destruct (ReserveSendCounterAt_cases now k H5) as [(_ & HL & _)|[N _]]; [|done].
  split_and!; try done. cbn. unfold in_width in *. change RejectAfterMessages with 18446744073709543423 in HL. lia.
Qed.

Definition handshake_wanted (error : TransportDataError) : Prop :=
  outcome_action (so_kind (Outcome_BuildFailed error)) = StagedPacketAction_InitiateHandshake.

(** The keypair and the services after a payload that fits was sealed or refused. *)
Lemma create_ready payload e : env_ready mtu e own other psk -> sendable mtu payload ->
  let '(result, sealed, k, w) :=
    noise_create_transport_data_packet (pd_bytes pending_init) (pr_current_keypair (the_peer e)) payload
      (ResolveEffectiveInnerMtu mtu) (ev_world e) in
  keypair_ok k /\ world_ok w /\ same_services (ev_world e) w /\
  (tc_error result = TransportDataError_None \/
   tc_error result <> TransportDataError_None /\ handshake_wanted (tc_error result)).
Proof.
  intros He [Hb Hf].
  assert (is_u64 (ResolveEffectiveInnerMtu mtu)) as Hm
    by (unfold ResolveEffectiveInnerMtu; case_match; [unfold in_width; lia|done]).
  pose proof (create_spec (pd_bytes pending_init) _ payload _ (ev_world e) (er_key _ _ _ _ _ He) Hb Hm
                ltac:(rewrite length_pending_bytes; vm_compute; reflexivity)) as HC.
  pose proof (GetMonotonicTime_world (ev_world e) (rp_world _ _ _ _ (er_peer _ _ _ _ _ He))) as HW.
  assert (same_services (ev_world e) (snd (GetMonotonicTime (ev_world e)))) as HS by done.
  destruct (GetMonotonicTime (ev_world e)) as [now w]. cbn [snd] in *. cbv zeta in HC. rewrite HC.
  destruct (decide (fits _ _ _)) as [_|]; [|done]. destruct (decide (keypair_SendStateAt _ _ = _)) as [Hready|].
  - split_and!; try done; [|by left]. by apply (counter_next_ok _ now); [apply He|].
  - split_and!; try done; [apply He|]. right. cbn [tc_error CreateFailure]. by destruct (keypair_SendStateAt _ _).
Qed.

Lemma spends_transport payload kind id s :
  ready s -> idle s -> sendable mtu payload ->
  spends 0 (PrepareTransportDatagram payload kind id) s
    (fun error s' => error = TransportDataError_None \/
                     error <> TransportDataError_None /\ handshake_wanted error /\ idle s').
Proof.
  intros Hr Hidle Hp. apply spends_self. cbn [Datatypes.id]. rewrite (ready_has_peer s Hr). unfold idle in Hidle.
  rewrite Hidle. cbn [negb orb]. rewrite (rd_mtu s Hr).
  pose proof (create_ready payload (env_of s) (rd_env s Hr) Hp) as HC.
  destruct (noise_create_transport_data_packet _ _ _ _ _) as [ [ [result sealed] k] w] eqn:EC.
  destruct HC as (Hk & Hw & Hs & Ht).
  eapply (spends_bind 0 0 _ _ _ _ (fun out s' => fst out = result /\ idle s')).
  { apply spends_on_env; [done|rewrite EC|rewrite EC; by split]. cbn [snd].
    apply env_ready_world; [|done|done]. by apply env_ready_key; [apply Hr|]. }
  intros [result' sealed'] s' Hr' [E Hidle']. cbn in E. subst result'. apply spends_if.
  - intros Hbad%negb_true_iff%bool_decide_eq_false. apply spends_ret; [done|]. right.
    by destruct Ht as [|[? ?]].
  - intros Hok%negb_false_iff%bool_decide_eq_true.
    eapply (spends_bind 0 0); [by apply spends_submit|]. intros ? s'' Hr'' _. apply spends_ret; [done|by left].
Qed.
(** ** The staging queue *)

Abbreviation queued e := (contents PeerStagedPacketCapacity (staged e)).
Abbreviation with_queue q := (on_peer (fun p => p <| pr_staged_outbound_packets := q |>)).

Lemma env_ready_queue e q : env_ready mtu e own other psk -> queue_wf PeerStagedPacketCapacity q ->
  Forall (fun r => sendable mtu (record_payload r)) (contents PeerStagedPacketCapacity q) ->
  env_ready mtu (with_queue q e) own other psk.
Proof. intros [ [HW HC HP HF HK] Hq Hs Hk] Hq' Hs'. by split; [split| | |]. Qed.

Lemma pop_tail d q : queue_wf PeerStagedPacketCapacity q ->
  let q' := snd (Queue_Pop PeerStagedPacketCapacity d q) in
  queue_wf PeerStagedPacketCapacity q' /\
  contents PeerStagedPacketCapacity q' = tail (contents PeerStagedPacketCapacity q) /\
  q_count q' = (q_count q - 1)%nat.
Proof.
  intros HQ. destruct (decide (q_count q = 0%nat)) as [E|N].
  - unfold Queue_Pop. rewrite E. cbn. split_and!; [done| |done].
    pose proof (contents_length PeerStagedPacketCapacity q) as HL. rewrite E in HL.
    by apply nil_length_inv in HL as ->.
  - destruct (Queue_Pop _ d _) as [r q'] eqn:EP.
    destruct (pop_contents PeerStagedPacketCapacity d _ q' r HQ N EP) as (_ & E & HW).
    cbn. split; [exact HW|]. split; [exact E|]. by apply Queue_Pop_some in EP as (_ & _ & _ & ->).
Qed.
Lemma env_ready_pop d e : env_ready mtu e own other psk ->
  env_ready mtu (with_queue (snd (Queue_Pop PeerStagedPacketCapacity d (staged e))) e) own other psk.
Proof.
  intros He. destruct (pop_tail d (staged e) (er_queue _ _ _ _ _ He)) as (Hw & Hc & _).
  apply env_ready_queue; [done..|]. rewrite Hc. pose proof (er_staged _ _ _ _ _ He) as Hs.
  by destruct (queued e); [|apply Forall_cons in Hs as [_ ?] ].
Qed.

Lemma spends_on_the_peer f s (Q : unit -> Handling -> Prop) :
  ready s -> env_ready mtu (on_peer f (env_of s)) own other psk ->
  Q tt (with_env (on_peer f (env_of s)) s) -> spends 0 (on_the_peer f) s Q.
Proof.
  intros [_ Hi Hm] He HQ _. apply wp_change. split_and!; [|cbn; lia|done|done].
  by split; [rewrite env_of_with_env| |].
Qed.

Lemma spends_pop disposition s : ready s -> idle s ->
  spends 0 (pop_staged disposition) s (fun _ s' =>
    idle s' /\ q_count (staged (env_of s')) = (q_count (staged (env_of s)) - 1)%nat).
Proof.
  intros Hr Hidle. apply spends_on_the_peer; [done|by apply env_ready_pop, Hr|].
  split; [done|]. rewrite env_of_with_env. by apply (pop_tail disposition (staged (env_of s))), Hr.
Qed.

Lemma spends_now {B} n (k : Z -> Handler B) s Q : ready s ->
  (forall now s', ready s' -> hn_self s' = hn_self s -> spends n (k now) s' Q) -> spends n (now_of ≫= k) s Q.
Proof.
  intros Hr Hk. apply (spends_bind 0 n _ _ _ _ (fun _ s' => hn_self s' = hn_self s)); [|auto].
  intros _. apply wp_call. destruct (GetMonotonicTime (hn_world s)) as [now w] eqn:Ew.
  assert (w = snd (GetMonotonicTime (hn_world s))) as -> by by rewrite Ew.
  split_and!; [|cbn; lia|done|done]. destruct Hr as [He Hi Hm]. split; [|done|done].
  apply (env_ready_world (env_of s)); [done| |done].
  apply GetMonotonicTime_world, (rp_world _ _ _ _ (er_peer _ _ _ _ _ He)).
Qed.

(** Failing to seal for want of a key leaves the packet and asks for a handshake. *)
Lemma apply_wanted error p : handshake_wanted error ->
  ApplyStagedSendOutcome (Outcome_BuildFailed error) p
  = (mk_staged StagedPacketAction_InitiateHandshake false QueueDisposition_Sent
       (Queue_Size (pr_staged_outbound_packets p)), p).
Proof.
  unfold handshake_wanted, ApplyStagedSendOutcome. by destruct (so_kind (Outcome_BuildFailed error)).
Qed.
Lemma front_queued s front : ready s -> Queue_Front (staged (env_of s)) = Some front ->
  q_count (staged (env_of s)) <> 0%nat /\ sendable mtu (record_payload front).
Proof.
  intros [He _ _] Hf. rewrite (Queue_Front_head _ _ (er_queue _ _ _ _ _ He)) in Hf.
  pose proof (contents_length PeerStagedPacketCapacity (staged (env_of s))) as HL.
  pose proof (er_staged _ _ _ _ _ He) as Hs. destruct (queued (env_of s)); [done|].
  injection Hf as ->. split; [cbn in HL; lia|]. by apply Forall_cons in Hs as [? _].
Qed.

Lemma spends_process_queue fuel identity now s :
  ready s -> idle s -> (q_count (staged (env_of s)) < fuel)%nat ->
  spends 1 (process_queue fuel identity now) s (fun _ _ => True).
Proof.
  revert s. induction fuel as [|fuel IH]; intros s Hr Hidle Hfuel; [lia|]. cbn [process_queue].
  apply spends_self. cbn [id]. rewrite (ready_peer_here s Hr). cbn [mbind option_bind].
  change (pr_staged_outbound_packets (the_peer (env_of s))) with (staged (env_of s)).
  destruct (Queue_Front (staged (env_of s))) as [front|] eqn:Ef; [|by apply spends_ret].
  destruct (front_queued s front Hr Ef) as [Hcount Hsend].
  assert (forall d, spends 1 (pop_staged d ≫= fun _ => process_queue fuel identity now) s (fun _ _ => True)) as Hpop.
  { intros d. eapply (spends_bind 0 1); [by apply spends_pop|]. intros ? s' Hr' [Hidle' Hc]. apply IH; [done|done|lia]. }
  repeat (apply spends_if; intros ?; [by apply Hpop || by apply spends_ret|]).
  apply spends_now; [done|]. intros time s1 Hr1 E1. apply spends_self. rewrite (ready_peer_here s1 Hr1).
  assert (idle s1) as Hidle1 by (unfold idle in *; by rewrite E1).
  destruct (wg_peer_get_outbound_staging_action _ _); [by apply spends_ret| |by apply spends_start_or_fail].
  eapply (spends_bind 0 1); [by apply spends_transport|]. intros error s2 Hr2 Herr. apply spends_if; intros Hnone.
  { by apply spends_send_pending. }
  apply bool_decide_eq_false in Hnone. destruct Herr as [|(_ & Hwanted & Hidle2)]; [done|].
  eapply (spends_bind 0 1 _ _ _ _ (fun action s' => action = StagedPacketAction_InitiateHandshake /\ idle s')).
  - apply spends_on_env; [done| |]; rewrite apply_wanted by done; cbn [fst snd sg_action].
    + rewrite on_peer_const. apply Hr2.
    + by split.
  - intros ? s3 Hr3 [-> Hidle3]. by apply spends_start_or_fail.
Qed.

Lemma spends_ProcessOutboundQueue identity now s : ready s ->
  spends 1 (ProcessOutboundQueue identity now) s (fun _ _ => True).
Proof.
  intros Hr. apply spends_self. cbn [id]. rewrite (ready_has_peer s Hr). cbn [negb orb].
  apply spends_if; intros Hidle; [by apply spends_ret|]. apply spends_process_queue; [done|exact Hidle|].
  unfold StagedInnerPacketCount. rewrite (ready_peer_here s Hr). unfold Queue_Size, staged. lia.
Qed.
(** ** Completed sends *)

Lemma spends_any {A} n (m : Handler A) s (Q : A -> Handling -> Prop) :
  spends n m s Q -> spends n m s (fun _ _ => True).
Proof. intros H. by eapply spends_weaken. Qed.
Lemma spends_more {A} n n' (m : Handler A) s :
  spends n m s (fun _ _ => True) -> (n <= n')%nat -> spends n' m s (fun _ _ => True).
Proof. intros H Hn. by eapply spends_weaken. Qed.
Lemma spends_arm identity hook deadline s : ready s -> spends 1 (arm_timer identity hook deadline) s (fun _ _ => True).
Proof. intros Hr. by eapply spends_any, spends_add. Qed.
Lemma spends_cancel identity hook s : ready s -> spends 1 (cancel_timer identity hook) s (fun _ _ => True).
Proof. intros Hr. by eapply spends_any, spends_add. Qed.
Lemma spends_effect effect s : ready s -> spends 1 (Add effect) s (fun _ _ => True).
Proof. intros Hr. by eapply spends_any, spends_add. Qed.
Lemma spends_if_so (b : bool) n (m : Handler unit) s :
  ready s -> spends n m s (fun _ _ => True) -> spends n (when b m) s (fun _ _ => True).
Proof. intros Hr H. by apply spends_when. Qed.
Lemma spends_first {A B} n n' (m : Handler A) (k : A -> Handler B) s Q :
  spends n m s (fun _ _ => True) -> (forall a s', ready s' -> spends n' (k a) s' Q) ->
  spends (n + n') (m ≫= k) s Q.
Proof. intros Hm Hk. eapply spends_bind; [exact Hm|auto]. Qed.

Lemma spends_RefreshKeyFreshness identity now s : ready s ->
  spends 1 (RefreshKeyFreshness identity now) s (fun _ _ => True).
Proof.
  intros Hr. apply spends_self. cbn [id]. rewrite (ready_peer_here s Hr). apply spends_now; [done|].
  intros time s1 Hr1 E1. apply spends_if; intros Hb; [by apply spends_ret|].
  apply orb_false_iff in Hb as [ [_ Hidle]%orb_false_iff _]. apply spends_start_or_fail; [done|].
  unfold idle. by rewrite E1.
Qed.

Lemma spends_apply_outcome outcome s :
  ready s -> outcome = Outcome_Sent \/ outcome = Outcome_TransportDropped ->
  spends 0 (apply_outcome outcome) s (fun _ _ => True).
Proof.
  intros Hr Ho. apply spends_on_the_peer; [done| |done].
  destruct Ho as [->| ->]; [apply (env_ready_pop QueueDisposition_Sent)|apply (env_ready_pop QueueDisposition_SendFailed)]; apply Hr.
Qed.

Lemma spends_HandleSendSuccess event kind s : ready s -> spends 5 (HandleSendSuccess event kind) s (fun _ _ => True).
Proof.
  intros Hr. unfold HandleSendSuccess. apply (spends_first 0 5); [by apply spends_on_self|]. clear s Hr. intros _ s Hr.
  apply (spends_first 1 4).
  { apply spends_self. apply spends_if_so; [done|]. by apply spends_arm. }
  clear s Hr. intros _ s Hr. apply (spends_first 1 3); [by apply spends_cancel|].
  clear s Hr. intros _ s Hr. apply spends_self. rewrite (ready_has_peer s Hr).
  assert (forall k, ready k -> spends 1 (RefreshKeyFreshness (ds_peer event) (ds_occurred_at event)) k (fun _ _ => True))
    as HRefresh by (intros; by apply spends_RefreshKeyFreshness).
  unfold when. destruct kind; repeat (rewrite bool_decide_true by done || rewrite bool_decide_false by done); cbn [andb].
  - by apply spends_ret.
  - apply (spends_first 3 0); [|clear s Hr; intros _ s Hr; by apply spends_ret].
    apply (spends_first 1 2); [by apply spends_arm|]. clear s Hr. intros _ s Hr. apply spends_self.
    apply spends_if; intros _; [|by apply spends_ret].
    apply (spends_first 0 2); [by apply spends_on_self|]. clear s Hr. intros _ s Hr.
    apply (spends_more 1); [by apply spends_effect|lia].
  - by apply spends_ret.
  - apply (spends_first 0 3); [by apply spends_ret|]. clear s Hr. intros _ s Hr.
    apply (spends_first 3 0); [|clear s Hr; intros _ s Hr; by apply spends_ret].
    apply (spends_first 0 3); [apply spends_apply_outcome; auto|]. clear s Hr. intros _ s Hr.
    apply (spends_first 1 2).
    { apply spends_self. apply spends_if_so; [done|]. by apply spends_arm. }
    clear s Hr. intros _ s Hr. apply (spends_first 1 1); [by apply spends_effect|]. auto.
  - do 2 (apply (spends_first 0 3); [by apply spends_ret|]; clear s Hr; intros _ s Hr).
    eapply spends_weaken; [by apply HRefresh|lia|done].
Qed.

Lemma send_failure_tolerated event s : tr_error event = socket_error_send_failed ->
  HandleTransportFailure event s = Some (tt, s).
Proof.
  intros E. unfold HandleTransportFailure. rewrite E. unfold mbind, Run_bind, self, reads. by destruct (_ || _).
Qed.
Lemma spends_tolerated event s : ready s ->
  tr_error event = socket_error_send_failed \/ tr_error event = socket_error_receive_failed ->
  spends 0 (HandleTransportFailure event) s (fun _ _ => True).
Proof.
  intros Hr He. apply spends_self. apply spends_if; intros _; [by apply spends_ret|].
  destruct He as [-> | ->]; by apply spends_ret.
Qed.
Lemma spends_append_nothing (m : Handler unit) s (Hm : forall s, m s = Some (tt, s)) : ready s ->
  spends 0 (Append m) s (fun _ _ => True).
Proof.
  intros Hr _. unfold wp, Append. rewrite Hm. cbn. rewrite app_nil_r. by split_and!; [destruct Hr|lia| |].
Qed.

Lemma spends_HandleSendFailure event kind s : ready s -> ds_error event = socket_error_send_failed ->
  spends 1 (HandleSendFailure event kind) s (fun _ _ => True).
Proof.
  intros Hr He. apply spends_self. rewrite (ready_has_peer s Hr), He. rewrite (bool_decide_true (_ = _)) by done.
  apply (spends_first 0 1).
  { apply spends_if_so; [done|]. apply spends_apply_outcome; auto. }
  clear s Hr. intros _ s Hr. apply spends_self. apply (spends_first 0 1).
  - apply spends_append_nothing; [intros; by apply send_failure_tolerated|done].
  - clear s Hr. intros _ s Hr. apply spends_if_so; [done|]. by apply spends_arm.
Qed.
Lemma spends_completion event s : ready s ->
  ds_error event = socket_error_none \/ ds_error event = socket_error_send_failed ->
  spends 5 (HandlePendingDatagramCompletion event) s (fun _ _ => True).
Proof.
  intros Hr He. apply spends_self. apply spends_if; intros _; [by apply spends_ret|].
  apply (spends_first 0 5); [by apply spends_on_self|]. generalize (pd_kind (m_pending_datagram (id (hn_self s)))).
  clear s Hr. intros kind _ s Hr. apply spends_if; intros Hb; [by apply spends_HandleSendSuccess|].
  apply bool_decide_eq_false in Hb. eapply (spends_weaken 1); [apply spends_HandleSendFailure; [done|] |lia|done].
  by destruct He.
Qed.

(** ** Packets staged *)

Lemma staged_payload packet id identity :
  (length packet <= MaxInnerIpPacketSize)%nat ->
  record_payload (mk_record (write_at (zeros MaxInnerIpPacketSize) 0 packet) id
    (pi_activation_generation identity) (pi_peer_index identity) (u16 (Z.of_nat (length packet)))) = packet.
Proof.
  intros HL. unfold record_payload. cbn [rec_size rec_bytes].
  assert (Z.of_nat MaxInnerIpPacketSize = 1500) as Hmax by reflexivity.
  rewrite wrap_id by (unfold in_width; lia). rewrite Nat2Z.id. unfold write_at.
  rewrite take_0. cbn [app]. by rewrite take_app_length.
Qed.

Lemma env_ready_push e record result q :
  env_ready mtu e own other psk -> sendable mtu (record_payload record) ->
  Queue_Push PeerStagedPacketCapacity record (staged e) = (result, q) ->
  env_ready mtu (with_queue q e) own other psk.
Proof.
  intros He Hs EP. destruct (decide (q_count (staged e) = PeerStagedPacketCapacity)) as [E|N].
  - rewrite Queue_Push_full in EP by done. injection EP as <- <-.
    destruct (er_queue _ _ _ _ _ He) as [Q1 Q2 Q3 Q4]. by apply env_ready_queue; [|split|apply He].
  - destruct (er_queue _ _ _ _ _ He) as [Q1 Q2 Q3 Q4].
    destruct (push_contents _ _ _ _ _ (er_queue _ _ _ _ _ He) ltac:(lia) EP) as [Hc Hw].
    apply env_ready_queue; [done..|]. rewrite Hc. apply Forall_app. split; [apply He|]. by apply Forall_singleton.
Qed.

Lemma spends_stage identity id packet s :
  ready s -> packet_fits packet = true -> sendable mtu packet ->
  spends 0 (stage_packet identity id packet) s (fun result s' =>
    (q_count (staged (env_of s)) < PeerStagedPacketCapacity)%nat ->
    result <> QueuePushResult_Full /\ q_count (staged (env_of s')) = S (q_count (staged (env_of s)))).
Proof.
  intros Hr [_ Hlen%Nat.leb_le]%andb_true_iff Hsend. unfold stage_packet.
  eapply (spends_bind 0 0 _ _ _ _ (fun _ s' => env_of s' = env_of s /\
            record_payload (m_staging_record (hn_self s')) = packet)).
  { apply spends_on_self; [done..|]. split; [done|]. by apply staged_payload. }
  intros _ s1 Hr1 [E1 Erec]. apply spends_self. generalize dependent (m_staging_record (hn_self s1)).
  intros record Erec. rewrite <- E1.
  destruct (Queue_Push PeerStagedPacketCapacity record (staged (env_of s1))) as [result q] eqn:EP.
  apply spends_on_env; [done| |]; change (pr_staged_outbound_packets (the_peer (env_of s1))) with (staged (env_of s1));
    rewrite EP; cbn [fst snd].
  - apply (env_ready_push _ record result); [by destruct Hr1|by rewrite Erec|done].
  - intros Hroom. rewrite env_of_with_env.
    pose proof (Queue_Push_room _ _ _ _ _ Hroom EP) as (-> & _ & _ & E). split; [done|exact E].
Qed.

Lemma spends_stage_batch identity packets s :
  ready s -> Forall (fun p => packet_fits (fst p) = true /\ sendable mtu (fst p)) packets ->
  (length packets <= PeerStagedPacketCapacity - q_count (staged (env_of s)))%nat ->
  spends 0 (each (fun p =>
      pushed ← stage_packet identity (snd p) (fst p);
      when (bool_decide (pushed = QueuePushResult_Full)) abort) packets) s (fun _ _ => True).
Proof.
  revert s. induction packets as [|p packets IH]; intros s Hr Hall Hroom; [by apply spends_ret|].
  apply Forall_cons in Hall as [ [Hf Hs] Hall]. cbn [length] in Hroom. cbn [each].
  eapply (spends_bind 0 0 _ _ _ _ (fun _ s' => q_count (staged (env_of s')) = S (q_count (staged (env_of s))))).
  - eapply (spends_bind 0 0); [by apply spends_stage|]. intros result s' Hr' H.
    destruct (H ltac:(lia)) as [Hnot Hcount]. rewrite bool_decide_false by done. by apply spends_ret.
  - intros _ s' Hr' Hcount. apply IH; [done|done|]. rewrite Hcount. lia.
Qed.

Lemma spends_packet_staged event s : ready s -> (packet_fits (sp_packet event) = true -> sendable mtu (sp_packet event)) ->
  spends 1 (HandleInnerPacketStaged event) s (fun _ _ => True).
Proof.
  intros Hr Hs. apply spends_self. apply spends_if; intros Hguard; [by apply spends_ret|].
  apply orb_false_iff in Hguard as [_ Hfits%negb_false_iff].
  apply (spends_first 0 1); [eapply spends_any, spends_stage; auto|]. clear s Hr. intros pushed s Hr.
  apply spends_if; intros _; [by apply spends_ret|]. apply spends_self. apply spends_if_so; [done|].
  by apply spends_ProcessOutboundQueue.
Qed.

Lemma spends_batch_staged event s : ready s -> Forall (sendable mtu) (sb_packets event) ->
  spends 1 (HandleInnerPacketBatchStaged event) s (fun _ _ => True).
Proof.
  intros Hr Hs. apply spends_self. apply spends_if; intros Hguard; [by apply spends_ret|].
  apply orb_false_iff in Hguard as [_ Hroom%negb_false_iff]. unfold CanStageInnerPackets in Hroom.
  cbn [id] in Hroom. rewrite (ready_peer_here s Hr) in Hroom. apply Nat.leb_le in Hroom.
  apply spends_if; intros Hfits; [by apply spends_ret|]. apply negb_false_iff in Hfits.
  rewrite forallb_forall in Hfits.
  apply (spends_first 0 1).
  - apply spends_stage_batch; [done| |].
    + apply Forall_forall. intros p Hp. split; [by apply Hfits, list_elem_of_In|].
      apply elem_of_take in Hp as (i & Hp & _). apply lookup_zip_with_Some in Hp as (x & y & -> & Hx & _).
      by eapply Forall_lookup_1.
    + rewrite length_take. unfold Queue_Size, staged in *. lia.
  - clear s Hr Hroom Hfits. intros _ s Hr. apply spends_self. apply spends_if_so; [done|].
    by apply spends_ProcessOutboundQueue.
Qed.
(** ** The local path *)

Lemma spends_call_self {A} (f : PeerRuntime -> A * PeerRuntime) s (Q : A -> Handling -> Prop) :
  ready s -> lc_state (m_lifecycle (snd (f (hn_self s)))) = lc_state (m_lifecycle (hn_self s)) ->
  m_protocol (snd (f (hn_self s))) = m_protocol (hn_self s) ->
  cf_mtu (m_config (snd (f (hn_self s)))) = cf_mtu (m_config (hn_self s)) ->
  (forall s', Q (fst (f (hn_self s))) s') ->
  spends 0 (call (fun s => (fst (f (hn_self s)), s <| hn_self := snd (f (hn_self s)) |>))) s Q.
Proof.
  intros [He Hi Hm] Hs Hp Hc HQ _. apply wp_call. cbn. split_and!; [|lia|done|done].
  split; cbn; [|by rewrite Hp|by rewrite Hc]. unfold env_of. cbn. by rewrite Hp.
Qed.

Lemma spends_rebind event s : ready s -> spends 1 (HandleUdpRebindRequested event) s (fun _ _ => True).
Proof.
  intros Hr. apply spends_self. do 2 (apply spends_if; intros _; [by apply spends_ret|]).
  apply (spends_first 0 1); [by apply (spends_call_self (fun r => let '(a, n) := AllocateGeneration (m_next_socket_generation r) in (a, r <| m_next_socket_generation := n |>)))|].
  intros generation s1 Hr1. apply (spends_first 0 1); [by apply spends_on_self|].
  intros _ s2 Hr2. by apply spends_effect.
Qed.

Lemma spends_suspend identity s : ready s -> spends 5 (SuspendTransport identity) s (fun _ _ => True).
Proof.
  intros Hr. apply spends_self. apply spends_if; intros _; [by apply spends_ret|].
  apply (spends_first 4 1).
  - cbn [each suspended_hooks].
    do 4 (eapply (spends_first 1 _); [by apply spends_cancel|]; clear s Hr; intros _ s Hr). by apply (spends_ret _ _ _ 0).
  - intros _ s1 Hr1. apply (spends_first 0 1).
    + by apply (spends_call_self (fun r => let '(socket, b) := ReleaseAndSuspend (m_binding r) in (socket, r <| m_binding := b |>))).
    + intros socket s2 Hr2. apply spends_if_so; [done|]. by apply spends_effect.
Qed.

Lemma spends_append n (m : Handler unit) s : (n <= EffectBatchCapacity)%nat ->
  spends n m (s <| hn_effects := [] |>) (fun _ _ => True) -> spends n (Append m) s (fun _ _ => True).
Proof.
  intros Hn H Hroom. specialize (H Hn). revert H. unfold wp, Append.
  destruct (m _) as [ [ [] s']|]; [|done]. cbn [mbind option_bind]. intros (Hr & Hl & Hs & _). unfold TryAppend.
  cbn in Hl. rewrite (proj2 (Nat.ltb_ge _ _)) by lia. cbn [mbind option_bind].
  split_and!; [by destruct Hr| |done|done]. cbn. rewrite length_app. lia.
Qed.
Lemma ready_no_effects s : ready s -> ready (s <| hn_effects := [] |>).
Proof. by intros []. Qed.

Lemma spends_path_changed event s : ready s ->
  spends 5 (HandleNetworkPathAvailabilityChanged event) s (fun _ _ => True).
Proof.
  intros Hr. apply spends_self. apply spends_if; intros _; [by apply spends_ret|].
  apply (spends_first 0 5); [apply spends_if_so; [done|by apply spends_on_self]|].
  generalize (id (hn_self s)). clear s Hr. intros r _ s Hr.
  assert (forall s, ready s ->
    spends 5 (Append (HandleUdpRebindRequested (mk_rebind_requested (pc_peer event) (pc_occurred_at event)))) s
      (fun _ _ => True)) as Hrebind.
  { intros s' Hr'. eapply (spends_weaken 1); [|lia|done]. apply spends_append; [unfold EffectBatchCapacity; lia|].
    by apply spends_rebind, ready_no_effects. }
  cbv zeta. apply spends_if; intros _.
  { apply spends_if_so; [done|]. apply (spends_more 0); [by apply spends_on_self|lia]. }
  apply spends_if; intros _.
  { apply spends_if_so; [done|]. apply (spends_first 0 5); [by apply spends_on_self|auto]. }
  apply (spends_first 0 5); [by apply spends_on_self|]. clear s Hr. intros _ s Hr. apply spends_if; intros _.
  { apply (spends_first 0 5); [by apply spends_on_self|]. clear s Hr. intros _ s Hr.
    apply spends_if_so; [done|]. by apply spends_suspend. }
  apply (spends_first 0 5); [by apply spends_on_self|]. clear s Hr. intros _ s Hr. apply spends_if; intros _.
  - apply (spends_first 0 5); [by apply spends_on_self|]. clear s Hr. intros _ s Hr.
    apply (spends_more 1); [by apply spends_effect|lia].
  - apply spends_if_so; [done|auto].
Qed.

(** ** Events *)

(** The events of the outbound side and of the local path, with what their sources
    guarantee: packets that fit, and reports of no error or of a failed send or
    receive. *)
Definition outbound_event (event : PeerEvent) : Prop :=
  match event with
  | Event_PendingDatagramSent v => ds_error v = socket_error_none \/ ds_error v = socket_error_send_failed
  | Event_InnerPacketStaged v => packet_fits (sp_packet v) = true -> sendable mtu (sp_packet v)
  | Event_InnerPacketBatchStaged v => Forall (sendable mtu) (sb_packets v)
  | Event_TransportFailure v => tr_error v = socket_error_send_failed \/ tr_error v = socket_error_receive_failed
  | Event_ProcessOutboundQueue _ | Event_NetworkPathRequestStarted _ | Event_NetworkPathAvailabilityChanged _
  | Event_UdpRebindRequested _ => True
  | _ => False
  end.

Lemma spends_event event s : ready s -> outbound_event event ->
  spends (GetEventEffectBudget event) (HandleEvent event) s (fun _ _ => True).
Proof.
  intros Hr He. destruct event as [ | |v|v|v| | |v| |v|v|v|v| ]; try done; cbn [HandleEvent GetEventEffectBudget].
  - by apply spends_ret.
  - apply (spends_more 5); [by apply spends_path_changed|lia].
  - apply (spends_more 0); [by apply spends_tolerated|lia].
  - by apply spends_rebind.
  - by apply spends_completion.
  - apply (spends_more 1); [by apply spends_packet_staged|lia].
  - apply (spends_more 1); [by apply spends_batch_staged|lia].
  - eapply (spends_weaken 1); [|lia|done]. apply spends_self. apply spends_if_so; [done|].
    by apply spends_ProcessOutboundQueue.
Qed.

(** A runtime that is ready with services [w]. *)
Definition runtime_ready (r : PeerRuntime) (w : World) : Prop := ready (mk_handling r w []).

Lemma finalize_ready effect r w : runtime_ready r w ->
  runtime_ready (snd (FinalizeTimerEffect effect r)) w /\
  lc_state (m_lifecycle (snd (FinalizeTimerEffect effect r))) = lc_state (m_lifecycle r).
Proof.
  intros [ [ [HW HC HP HF HK] Hq Hs Hk] Hi Hm].
  destruct effect; cbn [FinalizeTimerEffect]; try (by split; [split; [split; [split|..]|..]|]);
    repeat case_match; simplify_eq; by split; [split; [split; [split|..]|..]|].
Qed.
Lemma finalize_all_ready effects r w : runtime_ready r w ->
  let '(effects', r') := FinalizeTimerEffects effects r in
  runtime_ready r' w /\ lc_state (m_lifecycle r') = lc_state (m_lifecycle r) /\ length effects' = length effects.
Proof.
  revert r. induction effects as [|effect effects IH]; intros r Hr; [done|]. cbn [FinalizeTimerEffects].
  pose proof (finalize_ready effect r w Hr) as [Hr1 E1]. destruct (FinalizeTimerEffect effect r) as [effect' r1].
  cbn [snd] in *. specialize (IH r1 Hr1). destruct (FinalizeTimerEffects effects r1) as [effects' r'].
  destruct IH as (? & E2 & E3). split_and!; [done|congruence|cbn; lia].
Qed.

Lemma budget_fits event : (GetEventEffectBudget event <= EffectBatchCapacity)%nat.
Proof. destruct event; cbn; unfold EffectBatchCapacity; lia. Qed.

Lemma handle_ready event r w : runtime_ready r w -> outbound_event event ->
  exists effects r' w', Handle event r w = Some (effects, r', w') /\
    (length effects <= GetEventEffectBudget event)%nat /\ runtime_ready r' w' /\
    lc_state (m_lifecycle r') = lc_state (m_lifecycle r).
Proof.
  intros Hr He. destruct (wp_total _ _ _ (spends_event event _ Hr He (budget_fits event)))
    as ([] & [r1 w1 effects] & E & Hr1 & Hl & Es & _). cbn in Hl, Es.
  assert (runtime_ready r1 w1) as Hr1' by by destruct Hr1.
  pose proof (finalize_all_ready effects r1 w1 Hr1') as HF. unfold Handle. rewrite E.
  cbn [mbind option_bind hn_effects hn_self hn_world].
  destruct (FinalizeTimerEffects effects r1) as [effects' r']. destruct HF as (Hr' & Es' & El).
  rewrite (proj2 (Nat.ltb_ge _ _)) by lia. exists effects', r', w1. split_and!; [done|lia|done|congruence].
Qed.

End Budget.

(** A handshaking runtime with a configured peer: a packet is staged, which starts
    a handshake; the initiation is sent, the queue is run, and a send fails. *)
Definition ready_runtime : PeerRuntime :=
  runtime_init
    <| m_protocol := mk_protocol (ev_device (@sample_env toy_primitives 9 key_a key_b)) true |>
    <| m_binding := binding_init <| ub_socket := 3 |> |>
    <| m_lifecycle := lifecycle_init <| lc_state := PeerRuntimeState_Handshaking |>
                        <| lc_activation_generation := 1 |> |>.
Definition ready_world : World := ev_world (@sample_env toy_primitives 9 key_a key_b).
Definition example_identity : PeerIdentity := mk_peer_identity 0 1.
Definition outbound_example : list PeerEvent :=
  [ Event_InnerPacketStaged (mk_packet_staged example_identity (zeros 20) 1 (mk_timer_facts 0 0) 0);
    Event_PendingDatagramSent (mk_datagram_sent example_identity 1 148 socket_error_none (mk_timer_facts 0 0) 0);
    Event_ProcessOutboundQueue (mk_process_queue example_identity (mk_timer_facts 0 0) 0);
    Event_PendingDatagramSent (mk_datagram_sent example_identity 2 0 socket_error_send_failed (mk_timer_facts 0 0) 0) ].

