(* ===== verification/RuntimeAborts.v ===== *)
(** * Events that end the process

    Entering the error state closes the socket and cancels the five timers: six
    effects.  Where a handler does so on top of its own effects, or where its
    budget is five, the batch exceeds the budget and the process aborts. *)

From S2P Require Import Prelude Endian Messages PacketQueue Platform Session Base64 InnerPacket Timers.
From S2P Require Import Crypto Device Data Identity Admission Handshake Peer PeerController.
From S2P Require Import Abort RuntimeEvents PeerRuntime.
Local Open Scope Z_scope.

(** [m], unless it aborts, emits [n] effects from [s]. *)
Definition emits {A} (n : nat) (m : Handler A) (s : Handling) : Prop :=
  wp True m (fun _ s' => length (hn_effects s') = (length (hn_effects s) + n)%nat) s.
(** The binding owns a socket and the activation is a real one. *)
Definition engaged (r : PeerRuntime) : Prop :=
  Binding_IsOpen (m_binding r) = true /\ lc_activation_generation (m_lifecycle r) <> 0.

Lemma emits_add effect s :
  wp True (Add effect) (fun _ s' => hn_self s' = hn_self s /\
    length (hn_effects s') = S (length (hn_effects s))) s.
Proof. unfold wp, Add, TryAdd. destruct (_ =? _)%nat; [done|]. cbn. split; [done|]. rewrite length_app. cbn. lia. Qed.

Lemma emits_cancels identity hooks s : emits (length hooks) (each (cancel_timer identity) hooks) s.
Proof.
  revert s. induction hooks as [|hook hooks IH]; intros s; [apply wp_ret; cbn; lia|].
  cbn [each]. eapply wp_seq; [apply emits_add|]. intros _ s1 [_ E1].
  eapply wp_mono; [apply IH|]. intros _ s2 ->. rewrite E1. cbn. lia.
Qed.

Lemma emits_close s : emits 1 close_socket s.
Proof.
  unfold emits, close_socket. apply wp_bind, wp_reads, wp_bind, wp_call. cbn.
  eapply wp_mono; [apply emits_add|]. intros _ s' [_ ->]. cbn. lia.
Qed.

(** Code that leaves the binding, the activation and the effects. *)
Definition unengaged (s s' : Handling) : Prop :=
  m_binding (hn_self s') = m_binding (hn_self s) /\ hn_effects s' = hn_effects s /\
  lc_activation_generation (m_lifecycle (hn_self s')) = lc_activation_generation (m_lifecycle (hn_self s)).
#[export] Instance unengaged_preorder : PreOrder unengaged.
Proof. unfold unengaged. split; [done|]. intros s s' s''. intuition congruence. Qed.

Lemma quiet_then {A B} (m : Handler A) (k : A -> Handler B) s n :
  wp True m (fun _ s' => unengaged s s') s -> (forall a s', unengaged s s' -> emits n (k a) s') ->
  emits n (m ≫= k) s.
Proof.
  intros Hm Hk. eapply wp_seq; [exact Hm|]. intros a s' E. eapply wp_mono; [by apply Hk|].
  intros b s'' ->. by destruct E as (_ & -> & _).
Qed.
Ltac quiet := unfold on_self, self, on_the_peer; repeat wp_step; done.

Lemma error_emits_six stage code now s : engaged (hn_self s) -> emits 6 (EnterActivationError stage code now) s.
Proof.
  intros [Hopen Hgen]. unfold EnterActivationError, ClearStagedInnerPackets.
  do 5 (apply quiet_then; [quiet|intros ? ? (Eb & _ & Eg);
          rewrite <- Eb in Hopen; rewrite <- Eg in Hgen; clear Eb Eg]).
  apply wp_bind, wp_reads. cbn [id]. unfold when. rewrite Hopen. eapply wp_seq; [apply emits_close|].
  cbn [pi_activation_generation]. intros ? closed E. rewrite (proj2 (Z.eqb_neq _ _)) by exact Hgen.
  eapply wp_mono; [apply emits_cancels|]. intros ? ? ->. rewrite E. cbn [length all_hooks]. lia.
Qed.

(** The event carries the token of the timer that is armed now. *)
Definition timer_current (event : ProtocolTimerExpiredEvent) (r : PeerRuntime) : Prop :=
  exists peer, ProtocolPeer r = Some peer /\
    IsCurrentActivation (pi_activation_generation (te_peer event)) r = true /\
    tk_hook (te_token event) = te_hook event /\
    ow_peer_index (tk_owner (te_token event)) = pi_peer_index (te_peer event) /\
    ow_activation_generation (tk_owner (te_token event)) = pi_activation_generation (te_peer event) /\
    Coordinator_IsCurrent (te_token event) (TimerOwnerOf (te_peer event) (te_hook event) peer) (m_controller r) = true.

Section Aborts.
Context {P : Primitives}.

Lemma finalize_length effects r : length (fst (FinalizeTimerEffects effects r)) = length effects.
Proof.
  revert r. induction effects as [|effect effects IH]; intros r; [done|]. cbn [FinalizeTimerEffects].
  destruct (FinalizeTimerEffect effect r) as [effect' r']. specialize (IH r').
  destruct (FinalizeTimerEffects effects r') as [effects' r'']. cbn in *. by rewrite IH.
Qed.
Lemma finalize_lifecycle effects r : m_lifecycle (snd (FinalizeTimerEffects effects r)) = m_lifecycle r.
Proof.
  revert r. induction effects as [|effect effects IH]; intros r; [done|]. cbn [FinalizeTimerEffects].
  assert (m_lifecycle (snd (FinalizeTimerEffect effect r)) = m_lifecycle r) as E
    by (destruct effect; cbn [FinalizeTimerEffect]; try done; repeat case_match; done).
  destruct (FinalizeTimerEffect effect r) as [effect' r']. specialize (IH r').
  destruct (FinalizeTimerEffects effects r') as [effects' r'']. cbn in *. congruence.
Qed.
(** A handler that stays within its budget, and the state it leaves. *)
Lemma handle_within event r w n (Q : PeerRuntimeInfo -> Prop) :
  wp False (HandleEvent event) (fun _ s => length (hn_effects s) = n /\ Q (m_lifecycle (hn_self s)))
    (mk_handling r w []) -> (n <= GetEventEffectBudget event)%nat ->
  exists effects r' w', Handle event r w = Some (effects, r', w') /\ length effects = n /\ Q (m_lifecycle r').
Proof.
  intros H Hn. destruct (wp_total _ _ _ H) as ([] & s & E & El & HQ). unfold Handle. rewrite E.
  cbn [mbind option_bind]. pose proof (finalize_length (hn_effects s) (hn_self s)) as HL.
  pose proof (finalize_lifecycle (hn_effects s) (hn_self s)) as Hlc.
  destruct (FinalizeTimerEffects _ _) as [effects r']. cbn [fst snd] in *.
  rewrite (proj2 (Nat.ltb_ge _ _)) by lia. exists effects, r', (hn_world s). split_and!; [done|lia|by rewrite Hlc].
Qed.
(** A handler that emits more than its budget ends the process. *)
Lemma overrun_aborts event r w n : emits n (HandleEvent event) (mk_handling r w []) ->
  (GetEventEffectBudget event < n)%nat -> Handle event r w = None.
Proof.
  intros He Hn. unfold Handle. destruct (HandleEvent event _) as [ [ [] s]|] eqn:E; [|done].
  pose proof (wp_partial _ _ _ _ _ He E) as Hl. cbn [mbind option_bind]. cbn [hn_effects length] in Hl.
  pose proof (finalize_length (hn_effects s) (hn_self s)) as HL.
  destruct (FinalizeTimerEffects _ _) as [effects r']. cbn [fst] in HL.
  by rewrite (proj2 (Nat.ltb_lt _ _)) by lia.
Qed.

Lemma emits_skip {A} n (m : Handler A) (k : A -> Handler unit) s a :
  m s = Some (a, s) -> emits n (k a) s -> emits n (m ≫= k) s.
Proof. intros E H. apply wp_bind. unfold wp. rewrite E. exact H. Qed.

(** The completion of the pending datagram with a terminal error. *)
Lemma terminal_completion_emits event s :
  engaged (hn_self s) -> ds_error event <> socket_error_none -> ds_error event <> socket_error_send_failed ->
  IsCurrentActivation (pi_activation_generation (ds_peer event)) (hn_self s) = true ->
  IsPending (m_pending_datagram (hn_self s)) = true ->
  pd_generation (m_pending_datagram (hn_self s)) = ds_datagram_generation event ->
  emits 6 (HandlePendingDatagramCompletion event) s.
Proof.
  intros Hen Hn Hf Hcurrent Hpending Hgeneration. unfold HandlePendingDatagramCompletion.
  apply wp_bind, wp_reads. cbn [id]. rewrite Hcurrent, Hpending, (proj2 (Z.eqb_eq _ _) Hgeneration). cbn [negb orb].
  apply quiet_then; [quiet|]. intros ? s1 E1. rewrite bool_decide_false by done.
  unfold HandleSendFailure, apply_outcome. apply quiet_then; [quiet|]. intros ? s2 E2.
  apply quiet_then; [quiet|]. intros ? s3 E3. rewrite bool_decide_false by done.
  assert (unengaged s s3) as (E & _ & Eg) by (etransitivity; [|exact E3]; by etransitivity).
  apply error_emits_six. unfold engaged in *. by rewrite E, Eg.
Qed.
(** While a datagram is pending nothing can be sealed and no handshake starts. *)
Definition busy (r : PeerRuntime) : Prop := IsPending (m_pending_datagram r) = true.

Lemma busy_keepalive identity now armed s : engaged (hn_self s) -> busy (hn_self s) ->
  emits 6 (send_keepalive_or_fail identity now armed) s.
Proof.
  intros Hen Hb. unfold busy in Hb. apply (emits_skip _ _ _ _ TransportDataError_InvalidKeypair).
  - unfold PrepareTransportDatagram, mbind, Run_bind, self, reads. cbn [id]. by rewrite Hb, orb_true_r.
  - rewrite bool_decide_false by done. by apply error_emits_six.
Qed.
Lemma busy_start identity now s : engaged (hn_self s) -> busy (hn_self s) ->
  emits 6 (start_or_fail identity now) s.
Proof.
  intros Hen Hb. unfold busy in Hb. apply (emits_skip _ _ _ _ false).
  - unfold PeerRuntime.StartHandshake, mbind, Run_bind, self, reads. cbn [id]. rewrite Hb. by destruct (negb _).
  - by apply error_emits_six.
Qed.
Lemma engaged_same s s' : unengaged s s' -> engaged (hn_self s) -> engaged (hn_self s').
Proof. unfold engaged. by intros (-> & _ & ->). Qed.

Lemma busy_expired event s : engaged (hn_self s) -> busy (hn_self s) -> emits 6 (HandleKeepaliveExpired event) s.
Proof.
  intros Hen Hb. unfold HandleKeepaliveExpired.
  eapply (wp_seq _ _ _ (fun _ s' => hn_self s' = hn_self s /\ hn_effects s' = hn_effects s)).
  { apply wp_call. by destruct (GetMonotonicTime (hn_world s)). }
  intros time s1 [E1 E2]. apply wp_bind, wp_reads. rewrite <- E1 in Hen, Hb.
  eapply wp_mono; [apply wp_if; intros _; [by apply busy_keepalive|by apply busy_start]|].
  intros ? s2 ->. by rewrite E2.
Qed.

(** The timers that make the peer send. *)
Definition sending_hook (hook : TimerHook) (r : PeerRuntime) : Prop :=
  match hook with
  | TimerHook_SendKeepalive | TimerHook_NewHandshake => True
  | TimerHook_PersistentKeepalive =>
      match ProtocolPeer r with Some peer => pr_persistent_keepalive_interval peer <> 0 | None => False end
  | _ => False
  end.

Lemma busy_hook event s : engaged (hn_self s) -> busy (hn_self s) ->
  in_state PeerRuntimeState_Active (hn_self s) = true -> sending_hook (te_hook event) (hn_self s) ->
  emits 6 (HandleTimerHook event) s.
Proof.
  intros Hen Hb Hactive Hhook. unfold HandleTimerHook. apply wp_bind, wp_reads. cbn [id].
  unfold sending_hook in Hhook. destruct (te_hook event); try done; rewrite Hactive; cbn [negb orb when].
  - by apply busy_expired.
  - by apply busy_start.
  - destruct (ProtocolPeer (hn_self s)) as [peer|]; [|done]. rewrite (proj2 (Z.eqb_neq _ _)) by done.
    by apply busy_expired.
Qed.

Lemma busy_timer_emits event s : engaged (hn_self s) -> busy (hn_self s) ->
  in_state PeerRuntimeState_Active (hn_self s) = true -> sending_hook (te_hook event) (hn_self s) ->
  ub_suspended (m_binding (hn_self s)) = false ->
  timer_current event (hn_self s) ->
  emits 7 (HandleProtocolTimerExpired event) s.
Proof.
  intros Hen Hb Hactive Hhook Hsusp (peer & Hpeer & Hact & Hh & Hi & Hg & Htok). unfold HandleProtocolTimerExpired.
  apply wp_bind, wp_reads. cbn [id]. rewrite Hact, Hh, bool_decide_true, Hi, Hg, !Z.eqb_refl, Hpeer by done. cbn [negb orb].
  rewrite Htok, Hsusp. cbn [negb andb].
  eapply wp_seq; [apply emits_add|]. intros _ s1 [E1 E2].
  assert (IsInTransportState (hn_self s) = true) as -> by (unfold IsInTransportState; by rewrite Hactive, orb_true_r).
  cbn [negb andb]. rewrite <- E1 in *. eapply wp_mono; [by apply busy_hook|]. intros _ s2 ->. rewrite E2. lia.
Qed.
(** C22. Two orders of events that end the process.  While an encrypted datagram is
    pending on an open socket, the completion of its send with an error other than
    a failed send, or, in the active state, the expiration of a keepalive or
    new-handshake timer, enters the error state with more effects than the budget
    of the event: [Handle] aborts, whatever else the runtime holds. *)
Theorem terminal_errors_abort (r : PeerRuntime) (w : World) : engaged r -> busy r ->
  (forall event,
     IsCurrentActivation (pi_activation_generation (ds_peer event)) r = true ->
     pd_generation (m_pending_datagram r) = ds_datagram_generation event ->
     ds_error event <> socket_error_none -> ds_error event <> socket_error_send_failed ->
     Handle (Event_PendingDatagramSent event) r w = None) /\
  (forall event,
     in_state PeerRuntimeState_Active r = true -> ub_suspended (m_binding r) = false ->
     timer_current event r -> sending_hook (te_hook event) r ->
     Handle (Event_ProtocolTimerExpired event) r w = None).
Proof.
  intros Hen Hb. split; intros event; intros.
  - apply (overrun_aborts _ _ _ 6); [by apply terminal_completion_emits|cbn; lia].
  - apply (overrun_aborts _ _ _ 7); [by apply busy_timer_emits|cbn; lia].
Qed.
End Aborts.

(** An active runtime that is sending a datagram, with its keepalive timer armed. *)
Definition example_token : TimerToken := mk_token TimerHook_SendKeepalive (mk_owner 0 1 0) 1.
Definition busy_runtime : PeerRuntime :=
  runtime_init
    <| m_binding := binding_init <| ub_socket := 3 |> |>
    <| m_lifecycle := lifecycle_init <| lc_state := PeerRuntimeState_Active |>
                        <| lc_activation_generation := 1 |> |>
    <| m_protocol := mk_protocol (device_init <| dv_has_peer := true |>) true |>
    <| m_controller := snd (Coordinator_Arm TimerHook_SendKeepalive (mk_owner 0 1 0) coordinator_init) |>
    <| m_pending_datagram := pending_init <| pd_generation := 1 |> <| pd_kind := PendingDatagramKind_TransportData |> |>.

Lemma terminal_errors_abort_witness :
  Handle (P := toy_primitives)
    (Event_PendingDatagramSent (mk_datagram_sent (mk_peer_identity 0 1) 1 0 socket_error_invalid_endpoint
                                  (mk_timer_facts 0 0) 0)) busy_runtime (sample_world 0 1 1) = None /\
  Handle (P := toy_primitives)
    (Event_ProtocolTimerExpired (mk_timer_expired (mk_peer_identity 0 1) TimerHook_SendKeepalive example_token
                                   (mk_timer_facts 0 0) 0)) busy_runtime (sample_world 0 1 1) = None.
Proof.
  assert (engaged busy_runtime) as He by (split; [reflexivity|discriminate]).
  assert (busy busy_runtime) as Hb by reflexivity.
  destruct (terminal_errors_abort (P := toy_primitives) busy_runtime (sample_world 0 1 1) He Hb) as [H1 H2].
  split.
  - apply H1; [reflexivity|reflexivity|discriminate|discriminate].
  - apply H2; [reflexivity|reflexivity| |exact I].
    eexists. split; [reflexivity|]. repeat split; vm_compute; reflexivity.
Defined.
