(* ===== verification/RuntimeStale.v ===== *)
(** * Stale events

    Events reach a peer asynchronously.  An event that names an earlier activation,
    path request, socket, datagram or timer than the current one leaves the runtime
    and the services as they are; the socket that a stale open event carries is
    closed. *)

From S2P Require Import Prelude Endian Messages PacketQueue Platform Session Base64 InnerPacket Timers.
From S2P Require Import Crypto Device Data Identity Admission Handshake Peer PeerController.
From S2P Require Import Abort RuntimeEvents PeerRuntime RuntimeSockets.
Local Open Scope Z_scope.

Definition current_for (identity : PeerIdentity) (r : PeerRuntime) : bool :=
  IsCurrentActivation (pi_activation_generation identity) r.
Definition current_path_for (identity : PeerIdentity) (path_generation : Z) (r : PeerRuntime) : bool :=
  IsCurrentPathRequest (pi_activation_generation identity) path_generation r.

(** The event is about something the runtime no longer has. *)
Definition stale (event : PeerEvent) (r : PeerRuntime) : Prop :=
  match event with
  | Event_ActivationRequested _ => False
  | Event_NetworkPathRequestStarted v => current_path_for (ps_peer v) (ps_path_generation v) r = false
  | Event_NetworkPathAvailabilityChanged v => current_path_for (pc_peer v) (pc_path_generation v) r = false
  | Event_EndpointResolved v => current_path_for (en_peer v) (en_path_generation v) r = false
  | Event_UdpBindOpened v =>
      current_path_for (bo_peer v) (bo_path_generation v) r = false \/
      bo_socket_generation v <> m_pending_socket_generation r \/ bo_socket_generation v = 0
  | Event_TransportFailure v =>
      current_for (tr_peer v) r = false \/
      Binding_Matches (tr_socket_generation v) (tr_socket v) (m_binding r) = false
  | Event_PendingDatagramSent v =>
      current_for (ds_peer v) r = false \/ IsPending (m_pending_datagram r) = false \/
      pd_generation (m_pending_datagram r) <> ds_datagram_generation v
  | Event_ProtocolTimerExpired v =>
      current_for (te_peer v) r = false \/
      forall peer, ProtocolPeer r = Some peer ->
        Coordinator_IsCurrent (te_token v) (TimerOwnerOf (te_peer v) (te_hook v) peer) (m_controller r) = false
  | _ => current_for (GetPeerIdentity event) r = false
  end.

Section Stale.
Context {P : Primitives}.

(** [m] does nothing from [s]. *)
Definition ignores {A} (m : Handler A) (s : Handling) : Prop := exists a, m s = Some (a, s).

Lemma ignores_self {A B} (f : PeerRuntime -> A) (k : A -> Handler B) s :
  ignores (k (f (hn_self s))) s -> ignores (self f ≫= k) s.
Proof. done. Qed.
Lemma ignores_guard {A} (b : bool) (a : A) (m : Handler A) s :
  b = true -> ignores (if b then mret a else m) s.
Proof. intros ->. by exists a. Qed.
Lemma ignores_when (b : bool) (m : Handler unit) s : b = false -> ignores (when b m) s.
Proof. intros ->. by exists tt. Qed.

Lemma path_not_current v path r :
  current_path_for v path r = false -> negb (IsCurrentPathRequest (pi_activation_generation v) path r) = true.
Proof. by unfold current_path_for; intros ->. Qed.

Ltac by_guard := apply ignores_self, ignores_guard; cbn [id];
  repeat match goal with H : _ = false |- _ => unfold current_for, current_path_for in H; rewrite H end;
  cbn [negb orb]; rewrite ?orb_true_r; try done.

Lemma stale_ignored event s : stale event (hn_self s) ->
  match event with Event_UdpBindOpened _ => False | _ => True end ->
  ignores (HandleEvent event) s.
Proof.
  destruct event as [v|v|v|v|v|v|v|v|v|v|v|v|v|v]; cbn [stale HandleEvent GetPeerIdentity]; intros H Hnot; try done.
  - by_guard.
  - by exists tt.
  - by_guard.
  - destruct H as [H|H]; by_guard.
  - by_guard.
  - by_guard.
  - by_guard.
  - destruct H as [H|[H|H] ]; [by_guard..|]. by_guard. rewrite (proj2 (Z.eqb_neq _ _)) by done. by rewrite !orb_true_r.
  - by_guard.
  - by_guard.
  - apply ignores_self. by apply ignores_when.
  - destruct (current_for (te_peer v) (hn_self s)) eqn:Hcurrent; [|by_guard].
    destruct H as [|H]; [done|]. unfold HandleProtocolTimerExpired. apply ignores_self. cbn [id].
    destruct (_ || _); [by exists tt|]. destruct (ProtocolPeer (hn_self s)) as [peer|]; [|by exists tt].
    rewrite (H peer eq_refl). by exists tt.
Qed.
Lemma stale_bind event r w : stale (Event_UdpBindOpened event) r ->
  HandleUdpBindOpened event (mk_handling r w [])
  = Some (tt, mk_handling r w (Effect_CloseUdpSocket (m_path_request_generation r) <$>
                                 opened_sockets (Event_UdpBindOpened event))).
Proof.
  intros H. unfold HandleUdpBindOpened, mbind, Run_bind, self, reads. cbn [id hn_self].
  replace (_ || _) with true.
  - unfold close_event_socket, when, mbind, Run_bind, self, reads. cbn [opened_sockets].
    by destruct (bo_socket event =? InvalidSocket).
  - symmetry. cbn [stale] in H. destruct H as [H|[H|H] ].
    + unfold current_path_for in H. rewrite H. cbn. by rewrite orb_true_r.
    + rewrite (proj2 (Z.eqb_neq _ _) H). cbn. by rewrite orb_true_r.
    + by rewrite H.
Qed.

(** C19. Stale events.  An event of an earlier activation, path request, socket,
    datagram or timer than the current one changes neither the runtime nor the
    services and does not abort; its only effect is to close the socket it
    carries, when it reports one that was opened. *)
Theorem stale_event_ignored (event : PeerEvent) (r : PeerRuntime) (w : World) : stale event r ->
  Handle event r w
  = Some (Effect_CloseUdpSocket (m_path_request_generation r) <$> opened_sockets event, r, w).
Proof.
  intros H. assert (HandleEvent event (mk_handling r w [])
    = Some (tt, mk_handling r w (Effect_CloseUdpSocket (m_path_request_generation r) <$> opened_sockets event))) as E.
  - destruct event as [v|v|v|v|v|v|v|v|v|v|v|v|v|v]; try by apply stale_bind.
    all: match goal with |- HandleEvent ?event _ = _ =>
           destruct (stale_ignored event (mk_handling r w []) H I) as [ [] E]; exact E end.
  - unfold Handle. rewrite E. cbn [mbind option_bind hn_effects hn_self hn_world].
    destruct event as [v|v|v|v|v|v|v|v|v|v|v|v|v|v]; cbn [opened_sockets]; try done.
    by destruct (bo_socket v =? InvalidSocket).
Qed.
End Stale.

(** The datagram completion of another activation, and a socket opened for it. *)
Lemma stale_event_ignored_witness :
  Handle (P := toy_primitives)
    (Event_PendingDatagramSent (mk_datagram_sent (mk_peer_identity 0 7) 1 0 socket_error_send_failed
                                  (mk_timer_facts 0 0) 0)) example_runtime example_world
    = Some ([], example_runtime, example_world) /\
  Handle (P := toy_primitives) (example_opened 4) example_runtime example_world
    = Some ([Effect_CloseUdpSocket 1 4], example_runtime, example_world).
Proof.
  split.
  - apply (stale_event_ignored (P := toy_primitives)
      (Event_PendingDatagramSent (mk_datagram_sent (mk_peer_identity 0 7) 1 0 socket_error_send_failed
                                    (mk_timer_facts 0 0) 0))). left. reflexivity.
  - apply (stale_event_ignored (P := toy_primitives) (example_opened 4)). right. left. discriminate.
Defined.
