(* ===== verification/Coordinator.v ===== *)
(** * The peer registry and the runtime coordinator

    Models the class [PeerRegistry] of [runtime/peer/lifecycle.cpp], the read-only
    views of [PeerRuntime] and [runtime/runtime_coordinator.cpp].  The coordinator
    holds a reference to the registry and nothing else, so its operations are those
    of the registry.  An operation that dispatches events can abort. *)

From S2P Require Import Prelude Endian Messages PacketQueue Platform Session Base64 InnerPacket Timers.
From S2P Require Import Crypto Device Data Identity Admission Handshake Peer PeerController.
From S2P Require Import Abort RuntimeEvents PeerRuntime.
Local Open Scope Z_scope.

(** ** Views of a peer ([outbound.cpp], [lifecycle.cpp], [udp_binding.cpp]) *)

Record SendSnapshot := mk_send_snapshot { ss_endpoint : endpoint; ss_socket : Z; ss_generation : Z }.
Definition SnapshotForSend (b : UdpBinding) : option SendSnapshot :=
  if ub_suspended b || negb (ub_has_endpoint b) || negb (Binding_IsOpen b) then None
  else Some (mk_send_snapshot (ub_endpoint b) (ub_socket b) (ub_generation b)).

Record PendingDatagramSnapshot := mk_datagram_snapshot {
  ps_bytes : bytes;
  ps_size : Z;
  ps_inner_packet_id : Z;
  ps_kind : PendingDatagramKind;
  ps_binding : SendSnapshot
}.
(** The bytes beyond the datagram's size are those of a fresh snapshot. *)
Definition Peer_SnapshotPendingDatagram (activation_generation datagram_generation : Z) (r : PeerRuntime)
    : option PendingDatagramSnapshot :=
  let d := m_pending_datagram r in
  if negb (IsCurrentActivation activation_generation r) || negb (IsPending d)
     || negb (pd_generation d =? datagram_generation) then None
  else
    binding ← SnapshotForSend (m_binding r);
    Some (mk_datagram_snapshot
            (write_at (zeros MaxEncryptedDatagramSize) 0 (take (Z.to_nat (pd_size d)) (pd_bytes d)))
            (pd_size d) (pd_inner_packet_id d) (pd_kind d) binding).

Definition Peer_HasPendingDatagram (activation_generation datagram_generation : Z) (r : PeerRuntime) : bool :=
  IsCurrentActivation activation_generation r && IsPending (m_pending_datagram r)
  && (pd_generation (m_pending_datagram r) =? datagram_generation).

(** The viewed packet. *)
Definition Peer_ViewDecryptedPacket (activation_generation packet_generation : Z) (r : PeerRuntime)
    : option bytes :=
  let d := m_decrypted_packet r in
  if negb (IsCurrentActivation activation_generation r) || (packet_generation =? 0)
     || negb (dp_generation d =? packet_generation) || (dp_size d =? 0)%nat then None
  else Some (take (dp_size d) (dp_bytes d)).

Record PeerProtocolSnapshot := mk_protocol_snapshot {
  px_current_keypair_index : Z;
  px_previous_keypair_index : Z;
  px_instantiated : bool;
  px_current_keypair_valid : bool;
  px_next_keypair_valid : bool;
  px_previous_keypair_valid : bool
}.
(** [peer != nullptr ? f(peer) : otherwise] *)
Definition from_peer {A} (r : PeerRuntime) (f : wg_peer -> A) (otherwise : A) : A :=
  match ProtocolPeer r with Some peer => f peer | None => otherwise end.
Definition ProtocolSnapshot (r : PeerRuntime) : PeerProtocolSnapshot :=
  mk_protocol_snapshot
    (from_peer r (fun p => kp_local_index (pr_current_keypair p)) 0)
    (from_peer r (fun p => kp_local_index (pr_previous_keypair p)) 0)
    (po_instantiated (m_protocol r))
    (from_peer r (fun p => keypair_IsValid (pr_current_keypair p)) false)
    (from_peer r (fun p => keypair_IsValid (pr_next_keypair p)) false)
    (from_peer r (fun p => keypair_IsValid (pr_previous_keypair p)) false).

(** The clock is read only when there is a peer. *)
Definition CanSendTransportNow (r : PeerRuntime) (w : World) : bool * World :=
  match ProtocolPeer r with
  | None => (false, w)
  | Some peer =>
      let '(now, w) := GetMonotonicTime w in
      (keypair_CanSendAt now (pr_current_keypair peer), w)
  end.

Definition IsTimerCurrent (token : TimerToken) (owner : TimerOwner) (r : PeerRuntime) : bool :=
  Coordinator_IsCurrent token owner (m_controller r).
Definition CurrentTimerOwner (hook : TimerHook) (r : PeerRuntime) : TimerOwner :=
  mk_owner (m_peer_index r) (lc_activation_generation (m_lifecycle r))
    (match ProtocolPeer r with
     | Some peer => if bool_decide (hook = TimerHook_RetransmitHandshake)
                    then rt_sequence_count (pr_handshake_retry peer) else 0
     | None => 0
     end).

(** [ClearStagedInnerPackets] with the number it returns. *)
Definition Peer_ClearStagedInnerPackets (r : PeerRuntime) : nat * PeerRuntime :=
  match ProtocolPeer r with
  | None => (0%nat, r)
  | Some peer =>
      let '(cleared, peer) := wg_peer_clear_staged_outbound_packets QueueDisposition_Cleared peer in
      (cleared, r <| m_protocol ::= fun p => p <| po_device ::= fun d => d <| dv_peer := peer |> |> |>)
  end.

(** ** The registry *)

Definition PeerSlots : nat := 8.

Record PeerRegistry := mk_registry {
  m_peers : list PeerRuntime;
  m_count : Z;
  m_active_peer_index : Z;
  m_auto_start_peer_index : Z
}.
#[export] Instance eta_registry : Eta PeerRegistry := fun r =>
  mk_registry (m_peers r) (m_count r) (m_active_peer_index r) (m_auto_start_peer_index r).
Definition registry_init : PeerRegistry := mk_registry (replicate PeerSlots runtime_init) 0 (-1) (-1).

(** [static_cast<std::int32_t>] *)
Definition i32 (x : Z) : Z := (x + 2 ^ 31) mod 2 ^ 32 - 2 ^ 31.

Definition IsValidPeerSelection (peer_index peer_count : Z) : bool :=
  (-1 <=? peer_index) && (peer_index <? i32 peer_count).
Definition IsValidSelection (peer_index : Z) (g : PeerRegistry) : bool :=
  IsValidPeerSelection peer_index (m_count g).

Definition PeerAt (peer_index : Z) (g : PeerRegistry) : option PeerRuntime :=
  if peer_index <? m_count g then m_peers g !! Z.to_nat peer_index else None.

Definition SetActivePeerIndex (peer_index : Z) (g : PeerRegistry) : bool * PeerRegistry :=
  if negb (IsValidSelection peer_index g) then (false, g)
  else (true, g <| m_active_peer_index := peer_index |>).
Definition SetAutoStartPeerIndex (peer_index : Z) (g : PeerRegistry) : bool * PeerRegistry :=
  if negb (IsValidSelection peer_index g) then (false, g)
  else (true, g <| m_auto_start_peer_index := peer_index |>).

Definition HasRuntimeErrors (g : PeerRegistry) : bool :=
  existsb (in_state PeerRuntimeState_Error) (take (Z.to_nat (m_count g)) (m_peers g)).

Definition Registry_ClearStagedInnerPackets (peer_index : Z) (g : PeerRegistry) : nat * PeerRegistry :=
  match PeerAt peer_index g with
  | None => (0%nat, g)
  | Some r =>
      let '(cleared, r) := Peer_ClearStagedInnerPackets r in
      (cleared, g <| m_peers ::= <[Z.to_nat peer_index := r]> |>)
  end.
(** The loop over the first [count] peers. *)
Fixpoint clear_staged_loop (count : nat) (peers : list PeerRuntime) : nat * list PeerRuntime :=
  match count, peers with
  | S count, r :: peers =>
      let '(cleared, r) := Peer_ClearStagedInnerPackets r in
      let '(rest, peers) := clear_staged_loop count peers in
      ((cleared + rest)%nat, r :: peers)
  | _, _ => (0%nat, peers)
  end.
Definition ClearAllStagedInnerPackets (g : PeerRegistry) : nat * PeerRegistry :=
  let '(cleared, peers) := clear_staged_loop (Z.to_nat (m_count g)) (m_peers g) in
  (cleared, g <| m_peers := peers |>).

(** The sockets released by [ClearConfiguration] of each peer become effects of a
    single batch; [None] is the abort on a full batch. *)
Fixpoint clear_configuration_loop (count : nat) (now : Z) (peers : list PeerRuntime) (effects : EffectBatch)
    : option (list PeerRuntime * EffectBatch) :=
  match count, peers with
  | S count, r :: peers =>
      let '(socket, r) := ClearConfiguration now r in
      effects ← (if socket =? InvalidSocket then Some effects
                 else TryAdd (Effect_CloseUdpSocket 0 socket) effects);
      '(peers, effects) ← clear_configuration_loop count now peers effects;
      Some (r :: peers, effects)
  | _, _ => Some (peers, effects)
  end.
Definition Registry_ClearConfiguration (now : Z) (g : PeerRegistry) : option (EffectBatch * PeerRegistry) :=
  '(peers, effects) ← clear_configuration_loop (Z.to_nat (m_count g)) now (m_peers g) [];
  Some (effects, mk_registry peers 0 (-1) (-1)).

Fixpoint configure_loop (index : Z) (entries : list (PeerConfigEntry * PeerConfigDerivedInfo)) (now : Z)
    (peers : list PeerRuntime) : option (list PeerRuntime) :=
  match entries, peers with
  | (config, derived) :: entries, r :: peers =>
      r ← Configure index config derived now r;
      peers ← configure_loop (index + 1) entries now peers;
      Some (r :: peers)
  | _, _ => Some peers
  end.
Definition Registry_Configure (configured : list PeerConfigEntry) (derived : list PeerConfigDerivedInfo)
    (auto_start_peer_index now : Z) (g : PeerRegistry) : option (bool * PeerRegistry) :=
  if (length (m_peers g) <? length configured)%nat || negb (length derived =? length configured)%nat
     || negb (IsValidPeerSelection auto_start_peer_index (u32 (Z.of_nat (length configured)))) then Some (false, g)
  else
    '(cleanup_effects, g) ← Registry_ClearConfiguration now g;
    if negb (length cleanup_effects =? 0)%nat then None
    else
      peers ← configure_loop 0 (zip configured derived) now (m_peers g);
      Some (true, mk_registry peers (u32 (Z.of_nat (length configured))) (m_active_peer_index g)
                    auto_start_peer_index).

Section Coordinator.
Context {P : Primitives}.

(** The effects, the registry and the services; [None] is an abort. *)
Definition Dispatch (event : PeerEvent) (g : PeerRegistry) (w : World)
    : option (EffectBatch * PeerRegistry * World) :=
  let index := pi_peer_index (GetPeerIdentity event) in
  match PeerAt index g with
  | None => Some ([], g, w)
  | Some r =>
      '(effects, r, w) ← Handle event r w;
      Some (effects, g <| m_peers ::= <[Z.to_nat index := r]> |>, w)
  end.

(** ** Identity checks of the coordinator *)

Definition IsActiveIdentity (identity : PeerIdentity) (g : PeerRegistry) : bool :=
  match PeerAt (pi_peer_index identity) g with
  | Some r => (m_active_peer_index g =? i32 (pi_peer_index identity))
              && IsCurrentActivation (pi_activation_generation identity) r
  | None => false
  end.
Definition on_active_peer (identity : PeerIdentity) (check : PeerRuntime -> bool) (g : PeerRegistry) : bool :=
  IsActiveIdentity identity g
  && match PeerAt (pi_peer_index identity) g with Some r => check r | None => false end.
Definition IsActivePathIdentity (identity : PeerIdentity) (path_generation : Z) : PeerRegistry -> bool :=
  on_active_peer identity (IsCurrentPathRequest (pi_activation_generation identity) path_generation).
Definition IsActiveTransportIdentity (identity : PeerIdentity) : PeerRegistry -> bool :=
  on_active_peer identity IsInTransportState.
Definition IsActiveEstablishedIdentity (identity : PeerIdentity) : PeerRegistry -> bool :=
  on_active_peer identity (in_state PeerRuntimeState_Active).

(** ** Snapshots of the active peer *)

(** The index of the active peer as it is looked up, and the peer. *)
Definition active_peer (g : PeerRegistry) : option (Z * PeerRuntime) :=
  if m_active_peer_index g <? 0 then None
  else
    r ← PeerAt (m_active_peer_index g) g;
    Some (m_active_peer_index g, r).

Record ReceiveRuntimeSnapshot := mk_receive_snapshot {
  rs_peer : PeerIdentity;
  rs_socket : Z;
  rs_socket_generation : Z
}.
Definition SnapshotReceiveRuntime (g : PeerRegistry) : option ReceiveRuntimeSnapshot :=
  '(index, r) ← active_peer g;
  if negb (IsInTransportState r) || negb (Binding_IsOpen (m_binding r)) then None
  else Some (mk_receive_snapshot (mk_peer_identity index (lc_activation_generation (m_lifecycle r)))
               (ub_socket (m_binding r)) (ub_generation (m_binding r))).

Record DebugPeerSnapshot := mk_debug_snapshot { db_peer : PeerIdentity; db_source_address : bytes }.
Definition SnapshotDebugPeer (g : PeerRegistry) (w : World) : option DebugPeerSnapshot * World :=
  match active_peer g with
  | None => (None, w)
  | Some (index, r) =>
      if negb (in_state PeerRuntimeState_Active r) || negb (Binding_IsOpen (m_binding r)) then (None, w)
      else
        let '(can_send, w) := CanSendTransportNow r w in
        if negb can_send then (None, w)
        else (Some (mk_debug_snapshot (mk_peer_identity index (lc_activation_generation (m_lifecycle r)))
                      (cf_address (m_config r))), w)
  end.

Record PeerPacketStateSnapshot := mk_packet_state {
  px_identity : PeerIdentity;
  px_state : PeerRuntimeState;
  px_staged_packet_count : nat;
  px_protocol_instantiated : bool;
  px_can_stage_packet : bool
}.
Definition SnapshotPacketState (g : PeerRegistry) : option PeerPacketStateSnapshot :=
  '(index, r) ← active_peer g;
  Some (mk_packet_state (mk_peer_identity index (lc_activation_generation (m_lifecycle r)))
          (lc_state (m_lifecycle r)) (StagedInnerPacketCount r) (po_instantiated (m_protocol r))
          (CanStageInnerPackets 1 r)).

Definition SnapshotPendingDatagram (identity : PeerIdentity) (datagram_generation : Z) (g : PeerRegistry)
    : option PendingDatagramSnapshot :=
  if negb (IsActiveIdentity identity g) then None
  else
    r ← PeerAt (pi_peer_index identity) g;
    Peer_SnapshotPendingDatagram (pi_activation_generation identity) datagram_generation r.
Definition HasPendingDatagram (identity : PeerIdentity) (datagram_generation : Z) : PeerRegistry -> bool :=
  on_active_peer identity (Peer_HasPendingDatagram (pi_activation_generation identity) datagram_generation).
Definition ViewDecryptedPacket (identity : PeerIdentity) (packet_generation : Z) (g : PeerRegistry)
    : option bytes :=
  if negb (IsActiveIdentity identity g) then None
  else
    r ← PeerAt (pi_peer_index identity) g;
    Peer_ViewDecryptedPacket (pi_activation_generation identity) packet_generation r.
Definition IsCurrentTimerEffect (effect : ArmProtocolTimerEffect) : PeerRegistry -> bool :=
  on_active_peer (at_peer effect)
    (fun r => IsTimerCurrent (at_token effect) (CurrentTimerOwner (at_hook effect) r) r).
End Coordinator.

(** ** Lookup after an update of one peer *)

Lemma PeerAt_update g i j r : 0 <= i -> 0 <= j -> is_Some (PeerAt i g) ->
  PeerAt j (g <| m_peers ::= <[Z.to_nat i := r]> |>) = if decide (i = j) then Some r else PeerAt j g.
Proof.
  unfold PeerAt. intros Hi Hj Hsome. cbn. destruct (Z.ltb_spec i (m_count g)); [|by destruct Hsome].
  apply lookup_lt_is_Some in Hsome. case_decide as E.
  - subst j. rewrite (proj2 (Z.ltb_lt _ _)) by done. by apply list_lookup_insert_eq.
  - destruct (j <? m_count g); [|done]. rewrite list_lookup_insert_ne by lia. done.
Qed.
