(* ===== verification/DataPlane.v ===== *)
(** * The packet data plane

    Models [runtime/packet_transport.hpp], [runtime/packet_channel.hpp] and
    [runtime/packet_data_plane.cpp].  The abstract class [PacketTransport] is a
    type class, with the laws its clients rely on in a second class; [PacketChannel]
    is the instance.  The theorems on the data plane hold for any lawful transport. *)

From S2P Require Import Prelude Endian Messages PacketQueue Platform Session Base64 InnerPacket Timers.
From S2P Require Import Crypto Device Data Identity Noise Admission Macs Handshake Agreement Exchange Peer.
From S2P Require Import PeerController Tunnel Abort RuntimeEvents PeerRuntime RuntimeBudget Coordinator.
Local Open Scope Z_scope.

(** ** Transports *)

Class PacketTransport (T : Type) := {
  ConsumerId : T -> Z;
  AcceptsDelivery : InnerIpVersion -> T -> bool;
  IsOwnedBy : Z -> T -> bool;
  Claim : Z -> T -> nat * T;
  Release : T -> nat * T;
  PushReceived : InnerPacketRecord -> T -> QueuePushResult * T;
  FrontReceived : T -> option InnerPacketRecord;
  PopReceived : QueueDisposition -> T -> option InnerPacketRecord * T;
  ReceivedSize : T -> nat;
  ReceivedCapacity : T -> nat;
  Statistics : T -> QueueStatistics
}.

(** A transport is a bounded queue with an owner. *)
Class PacketTransportLaws (T : Type) `{PacketTransport T} := {
  transport_ok : T -> Prop;
  held : T -> list InnerPacketRecord;
  owned_law t process : IsOwnedBy process t = negb (ConsumerId t =? 0) && (ConsumerId t =? process);
  size_law t : ReceivedSize t = length (held t);
  front_law t : transport_ok t -> FrontReceived t = head (held t);
  push_law t record : transport_ok t ->
    let '(result, t') := PushReceived record t in
    transport_ok t' /\ ConsumerId t' = ConsumerId t /\ ReceivedCapacity t' = ReceivedCapacity t /\
    (forall version, AcceptsDelivery version t' = AcceptsDelivery version t) /\
    if (length (held t) <? ReceivedCapacity t)%nat
    then result = QueuePushResult_Pushed /\ held t' = held t ++ [record]
    else result = QueuePushResult_Full /\ held t' = held t;
  pop_law t disposition : transport_ok t ->
    let '(popped, t') := PopReceived disposition t in
    transport_ok t' /\ ConsumerId t' = ConsumerId t /\ ReceivedCapacity t' = ReceivedCapacity t /\
    (forall version, AcceptsDelivery version t' = AcceptsDelivery version t) /\
    popped = head (held t) /\ held t' = tail (held t);
  claim_law t process : transport_ok t ->
    let '(discarded, t') := Claim process t in
    transport_ok t' /\ ConsumerId t' = process /\ ReceivedCapacity t' = ReceivedCapacity t /\
    (forall version, AcceptsDelivery version t' = AcceptsDelivery version t) /\
    if ConsumerId t =? process then discarded = 0%nat /\ held t' = held t
    else discarded = length (held t) /\ held t' = [];
  release_law t : transport_ok t ->
    let '(discarded, t') := Release t in
    transport_ok t' /\ ConsumerId t' = 0 /\ ReceivedCapacity t' = ReceivedCapacity t /\
    (forall version, AcceptsDelivery version t' = AcceptsDelivery version t) /\ discarded = length (held t) /\ held t' = []
}.

(** ** The packet channel *)

Definition ReceiveCapacity : nat := 8.
Record PacketChannel := mk_channel { m_received : InnerPacketQueue; m_owner_process_id : Z }.
#[export] Instance eta_channel : Eta PacketChannel := fun r => mk_channel (m_received r) (m_owner_process_id r).
Definition channel_init : PacketChannel := mk_channel (queue_init ReceiveCapacity) 0.

Definition ClearReceived (c : PacketChannel) : nat * PacketChannel :=
  let '(discarded, queue) := Queue_Clear ReceiveCapacity QueueDisposition_Cleared (m_received c) in
  (discarded, c <| m_received := queue |>).
Definition Channel_Claim (process_id : Z) (c : PacketChannel) : nat * PacketChannel :=
  if m_owner_process_id c =? process_id then (0%nat, c)
  else
    let '(discarded, c) := ClearReceived c in
    (discarded, c <| m_owner_process_id := process_id |>).
Definition Channel_Release (c : PacketChannel) : nat * PacketChannel :=
  let '(discarded, c) := ClearReceived c in
  (discarded, c <| m_owner_process_id := 0 |>).

#[export] Instance channel_transport : PacketTransport PacketChannel := {
  ConsumerId := m_owner_process_id;
  AcceptsDelivery version _ := bool_decide (version = InnerIpVersion_Ipv4);
  IsOwnedBy process_id c := negb (m_owner_process_id c =? 0) && (m_owner_process_id c =? process_id);
  Claim := Channel_Claim;
  Release := Channel_Release;
  PushReceived record c :=
    let '(result, queue) := Queue_Push ReceiveCapacity record (m_received c) in
    (result, c <| m_received := queue |>);
  FrontReceived c := Queue_Front (m_received c);
  PopReceived disposition c :=
    let '(popped, queue) := Queue_Pop ReceiveCapacity disposition (m_received c) in
    (popped, c <| m_received := queue |>);
  ReceivedSize c := Queue_Size (m_received c);
  ReceivedCapacity _ := ReceiveCapacity;
  Statistics c := q_statistics (m_received c)
}.

#[export] Instance channel_laws : PacketTransportLaws PacketChannel.
Proof.
  refine {| transport_ok := fun c => queue_wf ReceiveCapacity (m_received c);
            held := fun c => contents ReceiveCapacity (m_received c) |}.
  - done.
  - intros c. symmetry. apply contents_length.
  - intros c Hc. by apply Queue_Front_head.
  - intros c record Hc. cbn -[Nat.ltb ReceiveCapacity]. destruct (Queue_Push _ record (m_received c)) as [result q] eqn:EP.
    rewrite contents_length. destruct (Nat.ltb_spec (q_count (m_received c)) ReceiveCapacity) as [HL|HL].
    + destruct (push_contents _ _ _ _ _ Hc HL EP) as [E Hw].
      apply Queue_Push_room in EP as (-> & _); [|done]. by split_and!.
    + rewrite Queue_Push_full in EP by (destruct Hc; lia). injection EP as <- <-.
      split_and!; try done. by destruct Hc.
  - intros c disposition Hc. cbn. destruct (Queue_Pop _ disposition (m_received c)) as [popped q] eqn:EP.
    destruct (decide (q_count (m_received c) = 0%nat)) as [E|N].
    + unfold Queue_Pop in EP. rewrite E in EP. injection EP as <- <-.
      pose proof (contents_length ReceiveCapacity (m_received c)) as HL. rewrite E in HL.
      apply nil_length_inv in HL. split_and!; try done; cbn; by rewrite HL.
    + destruct (pop_contents _ _ _ _ _ Hc N EP) as (-> & E & Hw). by split_and!.
  - intros c process Hc. cbn. unfold Channel_Claim, ClearReceived.
    destruct (m_owner_process_id c =? process) eqn:E; [by apply Z.eqb_eq in E|].
    pose proof (clear_contents _ QueueDisposition_Cleared _ Hc) as H.
    destruct (Queue_Clear _ _ _) as [n q]. cbn in *. destruct H as (-> & H2 & H3). by split_and!.
  - intros c Hc. cbn -[Queue_Clear]. unfold Channel_Release, ClearReceived.
    pose proof (clear_contents _ QueueDisposition_Cleared _ Hc) as H.
    destruct (Queue_Clear _ _ _) as [n q]. cbn in *. destruct H as (-> & H2 & H3). by split_and!.
Defined.

(** ** The data plane *)

Inductive PacketSubmissionStatus :=
  | PacketSubmissionStatus_Queued
  | PacketSubmissionStatus_MalformedPacket
  | PacketSubmissionStatus_TunnelUnavailable
  | PacketSubmissionStatus_QueueFull
  | PacketSubmissionStatus_InternalError.
Record PacketSubmissionOutcome := mk_submission {
  so_status : PacketSubmissionStatus;
  so_validation : InnerIpValidationError;
  so_peer : PeerIdentity;
  so_packet_id : Z;
  so_packet_size : nat;
  so_queue_depth : nat;
  so_discarded_outbound : nat;
  so_discarded_inbound : nat;
  so_peer_state : PeerRuntimeState;
  so_has_peer : bool;
  so_ownership_transferred : bool
}.
#[export] Instance eta_submission : Eta PacketSubmissionOutcome := fun r =>
  mk_submission (so_status r) (so_validation r) (so_peer r) (so_packet_id r) (so_packet_size r)
    (so_queue_depth r) (so_discarded_outbound r) (so_discarded_inbound r) (so_peer_state r)
    (so_has_peer r) (so_ownership_transferred r).
Definition submission_init : PacketSubmissionOutcome :=
  mk_submission PacketSubmissionStatus_InternalError InnerIp_None (mk_peer_identity 0 0) 0 0 0 0 0
    PeerRuntimeState_Inactive false false.

Inductive PacketDeliveryStatus :=
  | PacketDeliveryStatus_Queued
  | PacketDeliveryStatus_NoConsumer
  | PacketDeliveryStatus_MalformedPacket
  | PacketDeliveryStatus_UnsupportedPacket
  | PacketDeliveryStatus_QueueFull
  | PacketDeliveryStatus_StalePeer.
Record PacketDeliveryOutcome := mk_delivery {
  de_status : PacketDeliveryStatus;
  de_validation : InnerIpValidationError;
  de_version : InnerIpVersion;
  de_packet_id : Z;
  de_packet_size : nat;
  de_queue_depth : nat;
  de_queue_capacity : nat
}.
#[export] Instance eta_delivery : Eta PacketDeliveryOutcome := fun r =>
  mk_delivery (de_status r) (de_validation r) (de_version r) (de_packet_id r) (de_packet_size r)
    (de_queue_depth r) (de_queue_capacity r).

Inductive PacketReceiveStatus :=
  | PacketReceiveStatus_Success
  | PacketReceiveStatus_QueueEmpty
  | PacketReceiveStatus_AccessDenied
  | PacketReceiveStatus_OutputBufferTooSmall
  | PacketReceiveStatus_StaleActivation.
Record PacketReceiveOutcome := mk_receive {
  re_status : PacketReceiveStatus;
  re_peer : PeerIdentity;
  re_packet_id : Z;
  re_packet_size : Z;
  re_queue_depth : nat
}.
#[export] Instance eta_receive : Eta PacketReceiveOutcome := fun r =>
  mk_receive (re_status r) (re_peer r) (re_packet_id r) (re_packet_size r) (re_queue_depth r).
Definition receive_init : PacketReceiveOutcome :=
  mk_receive PacketReceiveStatus_QueueEmpty (mk_peer_identity 0 0) 0 0 0.

Record PacketClearOutcome := mk_clear { cl_outbound_count : nat; cl_inbound_count : nat }.

(** The plane with the registry, the transport and the services it refers to. *)
Record Plane (T : Type) := mk_plane {
  pl_registry : PeerRegistry;
  pl_transport : T;
  pl_next_packet_id : Z;
  pl_world : World
}.
Arguments mk_plane {T}. Arguments pl_registry {T}. Arguments pl_transport {T}.
Arguments pl_next_packet_id {T}. Arguments pl_world {T}.
#[export] Instance eta_plane T : Eta (Plane T) := fun r =>
  mk_plane (pl_registry r) (pl_transport r) (pl_next_packet_id r) (pl_world r).

Section DataPlane.
Context {P : Primitives} {T : Type} `{Transport : PacketTransport T}.

(** On 64 bits. *)
Definition AllocatePacketId : Run (Plane T) Z := call (fun s =>
  let following := u64 (pl_next_packet_id s + 1) in
  (pl_next_packet_id s, s <| pl_next_packet_id := if following =? 0 then 1 else following |>)).

Definition dispatch (event : PeerEvent) : Run (Plane T) EffectBatch := fun s =>
  '(effects, g, w) ← Dispatch event (pl_registry s) (pl_world s);
  Some (effects, s <| pl_registry := g |> <| pl_world := w |>).
Definition snapshot : Run (Plane T) (option PeerPacketStateSnapshot) :=
  reads (fun s => SnapshotPacketState (pl_registry s)).
Definition on_transport {A} (f : T -> A * T) : Run (Plane T) A := call (fun s =>
  let '(a, t) := f (pl_transport s) in (a, s <| pl_transport := t |>)).
Definition on_registry {A} (f : PeerRegistry -> A * PeerRegistry) : Run (Plane T) A := call (fun s =>
  let '(a, g) := f (pl_registry s) in (a, s <| pl_registry := g |>)).

Definition accepts_submission (state : PeerRuntimeState) : bool :=
  bool_decide (state = PeerRuntimeState_ResolvingEndpoint) || bool_decide (state = PeerRuntimeState_Handshaking)
  || bool_decide (state = PeerRuntimeState_Active).

(** The depth of the queue after the event, while the peer is still the same. *)
Definition record_depth (outcome : PacketSubmissionOutcome) : Run (Plane T) PacketSubmissionOutcome :=
  after ← snapshot;
  mret (match after with
        | Some peer => if bool_decide (px_identity peer = so_peer outcome)
                       then outcome <| so_queue_depth := px_staged_packet_count peer |> else outcome
        | None => outcome
        end <| so_status := PacketSubmissionStatus_Queued |>).

(** Takes the transport over for another consumer, which discards the packets of
    the previous one; [None] is an early return. *)
Definition claim_transport (consumer_id : Z) (peer : PeerPacketStateSnapshot) (outcome : PacketSubmissionOutcome)
    : Run (Plane T) (PacketSubmissionOutcome * option PeerPacketStateSnapshot) :=
  t ← reads pl_transport;
  if IsOwnedBy consumer_id t then mret (outcome, Some peer)
  else if negb (px_protocol_instantiated peer) then mret (outcome, None)
  else
    outbound ← on_registry (Registry_ClearStagedInnerPackets (pi_peer_index (px_identity peer)));
    inbound ← on_transport (Claim consumer_id);
    let outcome := outcome <| so_discarded_outbound := outbound |> <| so_discarded_inbound := inbound |>
                     <| so_ownership_transferred := true |> in
    after ← snapshot;
    mret (outcome, after).

Definition SubmitValidatedPacket (packet : bytes) (consumer_id : Z) (timer_facts : TimerFacts)
    (occurred_at : Z) (validation : InnerIpValidationError) (claim : bool)
    : Run (Plane T) (PacketSubmissionOutcome * EffectBatch) :=
  let outcome := submission_init <| so_validation := validation |> <| so_packet_size := length packet |> in
  if negb (bool_decide (validation = InnerIp_None)) then
    mret (outcome <| so_status := PacketSubmissionStatus_MalformedPacket |>, [])
  else
    before ← snapshot;
    match before with
    | None => mret (outcome <| so_status := PacketSubmissionStatus_TunnelUnavailable |>, [])
    | Some peer =>
        let outcome := outcome <| so_has_peer := true |> <| so_peer := px_identity peer |>
                         <| so_peer_state := px_state peer |> in
        if negb (accepts_submission (px_state peer)) then
          mret (outcome <| so_status := PacketSubmissionStatus_TunnelUnavailable |>, [])
        else
          '(outcome, claimed) ← (if claim then claim_transport consumer_id peer outcome
                                 else mret (outcome, Some peer));
          match claimed with
          | None => mret (outcome, [])
          | Some peer =>
              if negb (px_can_stage_packet peer) then
                mret (outcome <| so_status := if px_protocol_instantiated peer
                                              then PacketSubmissionStatus_QueueFull
                                              else PacketSubmissionStatus_InternalError |>, [])
              else if negb (px_protocol_instantiated peer) then mret (outcome, [])
              else
                packet_id ← AllocatePacketId;
                let outcome := outcome <| so_packet_id := packet_id |> in
                effects ← dispatch (Event_InnerPacketStaged
                            (mk_packet_staged (so_peer outcome) packet packet_id timer_facts occurred_at));
                outcome ← record_depth outcome;
                mret (outcome, effects)
          end
    end.

Definition SubmitIpPacket (packet : bytes) (consumer_id : Z) (timer_facts : TimerFacts) (occurred_at : Z)
    : Run (Plane T) (PacketSubmissionOutcome * EffectBatch) :=
  SubmitValidatedPacket packet consumer_id timer_facts occurred_at (fst (ValidateInnerIpPacket packet)) true.
Definition SubmitIpv4Packet (packet : bytes) (consumer_id : Z) (timer_facts : TimerFacts) (occurred_at : Z)
    : Run (Plane T) (PacketSubmissionOutcome * EffectBatch) :=
  SubmitValidatedPacket packet consumer_id timer_facts occurred_at (ValidateInnerIpv4Packet packet) true.
Definition SubmitInternalIpPacket (packet : bytes) (timer_facts : TimerFacts) (occurred_at : Z)
    : Run (Plane T) (PacketSubmissionOutcome * EffectBatch) :=
  SubmitValidatedPacket packet 0 timer_facts occurred_at (fst (ValidateInnerIpPacket packet)) false.

(** The validation loop over a batch: the total size and the last validation. *)
Fixpoint validate_batch (packets : list bytes) (size : nat) : nat * InnerIpValidationError :=
  match packets with
  | [] => (size, InnerIp_None)
  | packet :: packets =>
      let size := (size + length packet)%nat in
      match fst (ValidateInnerIpPacket packet) with
      | InnerIp_None => validate_batch packets size
      | validation => (size, validation)
      end
  end.
(** One fresh identifier per packet. *)
Fixpoint allocate_ids (packets : list bytes) : Run (Plane T) (list Z) :=
  match packets with
  | [] => mret []
  | _ :: packets => id ← AllocatePacketId; ids ← allocate_ids packets; mret (id :: ids)
  end.

Definition SubmitInternalIpPacketBatch (packets : list bytes) (timer_facts : TimerFacts) (occurred_at : Z)
    : Run (Plane T) (PacketSubmissionOutcome * EffectBatch) :=
  if (length packets =? 0)%nat || (MaximumInnerPacketBatchSize <? length packets)%nat then
    mret (submission_init <| so_status := PacketSubmissionStatus_MalformedPacket |>, [])
  else
    let '(size, validation) := validate_batch packets 0 in
    let outcome := submission_init <| so_packet_size := size |> <| so_validation := validation |> in
    if negb (bool_decide (validation = InnerIp_None)) then
      mret (outcome <| so_status := PacketSubmissionStatus_MalformedPacket |>, [])
    else
      before ← snapshot;
      match before with
      | None => mret (outcome <| so_status := PacketSubmissionStatus_TunnelUnavailable |>, [])
      | Some peer =>
          let outcome := outcome <| so_has_peer := true |> <| so_peer := px_identity peer |>
                           <| so_peer_state := px_state peer |> in
          if negb (accepts_submission (px_state peer)) || negb (px_protocol_instantiated peer) then
            mret (outcome <| so_status := PacketSubmissionStatus_TunnelUnavailable |>, [])
          else if (PeerStagedPacketCapacity <? px_staged_packet_count peer + length packets)%nat then
            mret (outcome <| so_status := PacketSubmissionStatus_QueueFull |>, [])
          else
            ids ← allocate_ids packets;
            let outcome := outcome <| so_packet_id := default 0 (head ids) |> in
            effects ← dispatch (Event_InnerPacketBatchStaged
                        (mk_batch_staged (so_peer outcome)
                           (packets ++ replicate (MaximumInnerPacketBatchSize - length packets) [])
                           (ids ++ replicate (MaximumInnerPacketBatchSize - length packets) 0)
                           (length packets) timer_facts occurred_at));
            outcome ← record_depth outcome;
            mret (outcome, effects)
      end.

Definition DeliverDecryptedPacket (identity : PeerIdentity) (packet : bytes)
    : Run (Plane T) PacketDeliveryOutcome :=
  t ← reads pl_transport;
  active ← reads (fun s => IsActiveIdentity identity (pl_registry s));
  let outcome := mk_delivery PacketDeliveryStatus_StalePeer InnerIp_None InnerIpVersion_Unknown 0
                   (length packet) 0 (ReceivedCapacity t) in
  if negb active then mret outcome
  else if ConsumerId t =? 0 then mret (outcome <| de_status := PacketDeliveryStatus_NoConsumer |>)
  else
    let '(validation, version) := ValidateInnerIpPacket packet in
    let outcome := outcome <| de_validation := validation |> <| de_version := version |> in
    if negb (bool_decide (validation = InnerIp_None)) then
      mret (outcome <| de_status := PacketDeliveryStatus_MalformedPacket |>)
    else if negb (AcceptsDelivery version t) then
      mret (outcome <| de_status := PacketDeliveryStatus_UnsupportedPacket |>)
    else
      packet_id ← AllocatePacketId;
      let record := mk_record (write_at (zeros MaxInnerIpPacketSize) 0 packet) packet_id
                      (pi_activation_generation identity) (pi_peer_index identity)
                      (u16 (Z.of_nat (length packet))) in
      pushed ← on_transport (PushReceived record);
      depth ← reads (fun s => ReceivedSize (pl_transport s));
      mret (outcome <| de_packet_id := packet_id |> <| de_queue_depth := depth |>
              <| de_status := if bool_decide (pushed = QueuePushResult_Full)
                              then PacketDeliveryStatus_QueueFull else PacketDeliveryStatus_Queued |>).

(** The outcome and the buffer. *)
Definition ReceivePacket (buffer : bytes) (consumer_id : Z) : Run (Plane T) (PacketReceiveOutcome * bytes) :=
  t ← reads pl_transport;
  if negb (IsOwnedBy consumer_id t) then
    mret (receive_init <| re_status := PacketReceiveStatus_AccessDenied |>, buffer)
  else
    match FrontReceived t with
    | None => mret (receive_init, buffer)
    | Some front =>
        let identity := mk_peer_identity (rec_peer_index front) (rec_activation_generation front) in
        let outcome := receive_init <| re_packet_id := rec_packet_id front |>
                         <| re_packet_size := rec_size front |> <| re_peer := identity |> in
        active ← reads (fun s => IsActiveIdentity identity (pl_registry s));
        if negb active then
          _ ← on_transport (PopReceived QueueDisposition_Stale);
          depth ← reads (fun s => ReceivedSize (pl_transport s));
          mret (outcome <| re_status := PacketReceiveStatus_StaleActivation |> <| re_queue_depth := depth |>, buffer)
        else if Z.of_nat (length buffer) <? rec_size front then
          mret (outcome <| re_status := PacketReceiveStatus_OutputBufferTooSmall |>
                  <| re_queue_depth := ReceivedSize t |>, buffer)
        else
          let buffer := write_at buffer 0 (take (Z.to_nat (rec_size front)) (rec_bytes front)) in
          _ ← on_transport (PopReceived QueueDisposition_Delivered);
          depth ← reads (fun s => ReceivedSize (pl_transport s));
          mret (outcome <| re_status := PacketReceiveStatus_Success |> <| re_queue_depth := depth |>, buffer)
    end.

Definition Clear : Run (Plane T) PacketClearOutcome :=
  outbound ← on_registry ClearAllStagedInnerPackets;
  inbound ← on_transport Release;
  mret (mk_clear outbound inbound).
End DataPlane.
