(* ===== verification/Inbox.v ===== *)
(** * The inbox of a consumer

    The contract of the receiving side of [runtime/packet_data_plane.cpp]: an
    abstract inbox, the list of the packets that wait for the consumer, and the
    proof that the data plane over any lawful transport implements it. *)

From S2P Require Import Prelude PacketQueue InnerPacket Platform Timers RuntimeEvents PeerRuntime.
From S2P Require Import Crypto Abort Coordinator DataPlane.
Local Open Scope Z_scope.

(** ** The abstract inbox *)

Record Packet := mk_packet { pk_id : Z; pk_peer : PeerIdentity; pk_bytes : bytes }.
Record Inbox := mk_inbox {
  ib_consumer : Z;
  ib_waiting : list Packet;
  ib_next_id : Z;
  ib_peers : PeerRegistry
}.
#[export] Instance eta_inbox : Eta Inbox := fun r =>
  mk_inbox (ib_consumer r) (ib_waiting r) (ib_next_id r) (ib_peers r).

(** The operations, with the events of the peers in between as changes of the
    registry, and what an operation reports. *)
Inductive PlaneOp :=
  | Op_Deliver (peer : PeerIdentity) (packet : bytes)
  | Op_Receive (buffer : bytes) (consumer : Z)
  | Op_Claim (consumer : Z)
  | Op_Clear
  | Op_Peers (peers : PeerRegistry).
Inductive OpResult :=
  | Result_Delivery (status : PacketDeliveryStatus) (id : Z) (depth : nat)
  | Result_Receive (status : PacketReceiveStatus) (peer : PeerIdentity) (id : Z) (size depth : nat) (buffer : bytes)
  | Result_Discarded (count : nat).

Definition next_id (id : Z) : Z := if u64 (id + 1) =? 0 then 1 else u64 (id + 1).

Section Specification.
Context (capacity : nat) (accepted : InnerIpVersion -> bool).

(** Why a packet is turned away before it gets an identifier. *)
Inductive refused (i : Inbox) (peer : PeerIdentity) (packet : bytes) : PacketDeliveryStatus -> Prop :=
  | refused_stale : IsActiveIdentity peer (ib_peers i) = false ->
      refused i peer packet PacketDeliveryStatus_StalePeer
  | refused_no_consumer : IsActiveIdentity peer (ib_peers i) = true -> ib_consumer i = 0 ->
      refused i peer packet PacketDeliveryStatus_NoConsumer
  | refused_malformed : IsActiveIdentity peer (ib_peers i) = true -> ib_consumer i <> 0 ->
      fst (ValidateInnerIpPacket packet) <> InnerIp_None ->
      refused i peer packet PacketDeliveryStatus_MalformedPacket
  | refused_version version : IsActiveIdentity peer (ib_peers i) = true -> ib_consumer i <> 0 ->
      ValidateInnerIpPacket packet = (InnerIp_None, version) -> accepted version = false ->
      refused i peer packet PacketDeliveryStatus_UnsupportedPacket.
(** The packets that reach the queue. *)
Definition welcome (i : Inbox) (peer : PeerIdentity) (packet : bytes) : Prop :=
  IsActiveIdentity peer (ib_peers i) = true /\ ib_consumer i <> 0 /\
  exists version, ValidateInnerIpPacket packet = (InnerIp_None, version) /\ accepted version = true.
Definition owned (i : Inbox) (consumer : Z) : Prop := ib_consumer i <> 0 /\ ib_consumer i = consumer.

Inductive inbox_step (i : Inbox) : PlaneOp -> OpResult -> Inbox -> Prop :=
  | step_refused peer packet status : refused i peer packet status ->
      inbox_step i (Op_Deliver peer packet) (Result_Delivery status 0 0) i
  | step_full peer packet : welcome i peer packet -> (capacity <= length (ib_waiting i))%nat ->
      inbox_step i (Op_Deliver peer packet)
        (Result_Delivery PacketDeliveryStatus_QueueFull (ib_next_id i) (length (ib_waiting i)))
        (i <| ib_next_id ::= next_id |>)
  | step_queued peer packet : welcome i peer packet -> (length (ib_waiting i) < capacity)%nat ->
      inbox_step i (Op_Deliver peer packet)
        (Result_Delivery PacketDeliveryStatus_Queued (ib_next_id i) (S (length (ib_waiting i))))
        (i <| ib_next_id ::= next_id |>
           <| ib_waiting ::= fun l => l ++ [mk_packet (ib_next_id i) peer packet] |>)
  | step_denied buffer consumer : ~ owned i consumer ->
      inbox_step i (Op_Receive buffer consumer)
        (Result_Receive PacketReceiveStatus_AccessDenied (mk_peer_identity 0 0) 0 0 0 buffer) i
  | step_empty buffer consumer : owned i consumer -> ib_waiting i = [] ->
      inbox_step i (Op_Receive buffer consumer)
        (Result_Receive PacketReceiveStatus_QueueEmpty (mk_peer_identity 0 0) 0 0 0 buffer) i
  | step_stale buffer consumer p rest : owned i consumer -> ib_waiting i = p :: rest ->
      IsActiveIdentity (pk_peer p) (ib_peers i) = false ->
      inbox_step i (Op_Receive buffer consumer)
        (Result_Receive PacketReceiveStatus_StaleActivation (pk_peer p) (pk_id p) (length (pk_bytes p))
           (length rest) buffer)
        (i <| ib_waiting := rest |>)
  | step_small buffer consumer p rest : owned i consumer -> ib_waiting i = p :: rest ->
      IsActiveIdentity (pk_peer p) (ib_peers i) = true -> (length buffer < length (pk_bytes p))%nat ->
      inbox_step i (Op_Receive buffer consumer)
        (Result_Receive PacketReceiveStatus_OutputBufferTooSmall (pk_peer p) (pk_id p) (length (pk_bytes p))
           (S (length rest)) buffer) i
  | step_received buffer consumer p rest : owned i consumer -> ib_waiting i = p :: rest ->
      IsActiveIdentity (pk_peer p) (ib_peers i) = true -> (length (pk_bytes p) <= length buffer)%nat ->
      inbox_step i (Op_Receive buffer consumer)
        (Result_Receive PacketReceiveStatus_Success (pk_peer p) (pk_id p) (length (pk_bytes p)) (length rest)
           (pk_bytes p ++ drop (length (pk_bytes p)) buffer))
        (i <| ib_waiting := rest |>)
  | step_claimed_again consumer : ib_consumer i = consumer ->
      inbox_step i (Op_Claim consumer) (Result_Discarded 0) i
  | step_claimed consumer : ib_consumer i <> consumer ->
      inbox_step i (Op_Claim consumer) (Result_Discarded (length (ib_waiting i)))
        (i <| ib_consumer := consumer |> <| ib_waiting := [] |>)
  | step_cleared : inbox_step i Op_Clear (Result_Discarded (length (ib_waiting i)))
      (i <| ib_consumer := 0 |> <| ib_waiting := [] |>
         <| ib_peers ::= fun g => snd (ClearAllStagedInnerPackets g) |>)
  | step_peers peers : inbox_step i (Op_Peers peers) (Result_Discarded 0) (i <| ib_peers := peers |>).

Inductive inbox_steps : Inbox -> list PlaneOp -> list OpResult -> Inbox -> Prop :=
  | steps_nil i : inbox_steps i [] [] i
  | steps_cons i op result i' ops results i'' :
      inbox_step i op result i' -> inbox_steps i' ops results i'' ->
      inbox_steps i (op :: ops) (result :: results) i''.
End Specification.

(** ** The data plane implements it *)

Section Inbox.
Context {T : Type} `{Laws : PacketTransportLaws T}.

Definition run_op (op : PlaneOp) : Run (Plane T) OpResult :=
  match op with
  | Op_Deliver peer packet =>
      outcome ← DeliverDecryptedPacket peer packet;
      mret (Result_Delivery (de_status outcome) (de_packet_id outcome) (de_queue_depth outcome))
  | Op_Receive buffer consumer =>
      '(outcome, buffer) ← ReceivePacket buffer consumer;
      mret (Result_Receive (re_status outcome) (re_peer outcome) (re_packet_id outcome)
              (Z.to_nat (re_packet_size outcome)) (re_queue_depth outcome) buffer)
  | Op_Claim consumer => count ← on_transport (Claim consumer); mret (Result_Discarded count)
  | Op_Clear => outcome ← Clear; mret (Result_Discarded (cl_inbound_count outcome))
  | Op_Peers peers => _ ← change (fun s => s <| pl_registry := peers |>); mret (Result_Discarded 0)
  end.
Fixpoint run_plane (ops : list PlaneOp) : Run (Plane T) (list OpResult) :=
  match ops with
  | [] => mret []
  | op :: ops => result ← run_op op; results ← run_plane ops; mret (result :: results)
  end.

(** The record that holds a packet. *)
Definition record_of (p : Packet) : InnerPacketRecord :=
  mk_record (write_at (zeros MaxInnerIpPacketSize) 0 (pk_bytes p)) (pk_id p)
    (pi_activation_generation (pk_peer p)) (pi_peer_index (pk_peer p)) (Z.of_nat (length (pk_bytes p))).
Definition storable (p : Packet) : Prop := (length (pk_bytes p) <= MaxInnerIpPacketSize)%nat.

Record represents (capacity : nat) (accepted : InnerIpVersion -> bool) (s : Plane T) (i : Inbox) : Prop := {
  rp_ok : transport_ok (pl_transport s);
  rp_capacity : ReceivedCapacity (pl_transport s) = capacity;
  rp_accepted version : AcceptsDelivery version (pl_transport s) = accepted version;
  rp_consumer : ConsumerId (pl_transport s) = ib_consumer i;
  rp_waiting : held (pl_transport s) = record_of <$> ib_waiting i;
  rp_fits : Forall storable (ib_waiting i);
  rp_next : pl_next_packet_id s = ib_next_id i;
  rp_peers : pl_registry s = ib_peers i
}.

Lemma valid_fits packet version : ValidateInnerIpPacket packet = (InnerIp_None, version) ->
  (length packet <= MaxInnerIpPacketSize)%nat.
Proof.
  unfold ValidateInnerIpPacket, ValidateInnerIpv4Packet, ValidateInnerIpv6Packet.
  destruct (length packet =? 0)%nat; [done|].
  destruct (MaxInnerIpPacketSize <? length packet)%nat eqn:E; [|intros _; by apply Nat.ltb_ge].
  destruct (cast_version _); cbn [fst snd bool_decide]; try done;
    destruct (length packet <? _)%nat; done.
Qed.

Lemma record_bytes p : storable p -> take (Z.to_nat (rec_size (record_of p))) (rec_bytes (record_of p)) = pk_bytes p.
Proof.
  intros Hp. cbn [rec_size rec_bytes record_of]. rewrite Nat2Z.id. unfold write_at. rewrite take_0, app_nil_l.
  by rewrite take_app_length.
Qed.

Lemma record_peer p : mk_peer_identity (rec_peer_index (record_of p)) (rec_activation_generation (record_of p)) = pk_peer p.
Proof. by destruct p as [id [index generation] packet]. Qed.

Section Simulation.
Context (capacity : nat) (accepted : InnerIpVersion -> bool).

Abbreviation simulated op i := (fun result s' => exists i',
  inbox_step capacity accepted i op result i' /\ represents capacity accepted s' i').

Lemma deliver_simulated peer packet s i : represents capacity accepted s i ->
  wp False (run_op (Op_Deliver peer packet)) (simulated (Op_Deliver peer packet) i) s.
Proof.
  intros [Hok Hcap Hacc Hcons Hwait Hfits Hnext Hpeers]. cbn [run_op]. apply wp_bind. unfold DeliverDecryptedPacket.
  apply wp_bind, wp_reads, wp_bind, wp_reads. rewrite Hpeers, Hcons.
  assert (represents capacity accepted s i) as Hrep by done.
  destruct (IsActiveIdentity peer (ib_peers i)) eqn:Ha; cbn [negb];
    [|do 2 apply wp_ret; exists i; split; [by apply step_refused, refused_stale|done] ].
  destruct (Z.eqb_spec (ib_consumer i) 0) as [Hc|Hc];
    [do 2 apply wp_ret; exists i; split; [by apply step_refused, refused_no_consumer|done]|].
  destruct (ValidateInnerIpPacket packet) as [validation version] eqn:Ev.
  destruct (decide (validation = InnerIp_None)) as [->|Hv];
    [|rewrite bool_decide_false by done; do 2 apply wp_ret; exists i;
      split; [apply step_refused, refused_malformed; [done|done|by rewrite Ev]|done] ].
  rewrite bool_decide_true by done. cbn [negb]. rewrite Hacc.
  destruct (accepted version) eqn:Eacc; cbn [negb];
    [|do 2 apply wp_ret; exists i; split; [by eapply step_refused, refused_version|done] ].
  assert (welcome accepted i peer packet) as Hw by (split_and!; eauto).
  pose proof (valid_fits _ _ Ev) as Hsize.
  apply wp_bind, wp_call. cbn [fst snd]. rewrite Hnext.
  replace (u16 (Z.of_nat (length packet))) with (Z.of_nat (length packet))
    by (symmetry; apply wrap_id; unfold in_width, MaxInnerIpPacketSize, PacketQueue.MaxInnerIpPacketSize in *; lia).
  change (mk_record _ _ _ _ _) with (record_of (mk_packet (ib_next_id i) peer packet)).
  apply wp_bind, wp_call. change (pl_transport (s <| pl_next_packet_id := _ |>)) with (pl_transport s).
  pose proof (push_law (pl_transport s) (record_of (mk_packet (ib_next_id i) peer packet)) Hok) as Hpush.
  destruct (PushReceived _ (pl_transport s)) as [result t]. destruct Hpush as (Hok' & Hcons' & Hcap' & Hacc' & Hheld).
  cbn [fst snd]. apply wp_bind, wp_reads. cbn [pl_transport]. do 2 apply wp_ret. rewrite size_law.
  rewrite Hcap, Hwait, length_fmap in Hheld.
  destruct (Nat.ltb_spec (length (ib_waiting i)) capacity) as [HL|HL]; destruct Hheld as [-> Hheld].
  - rewrite bool_decide_false by done. eexists. split.
    + cbn -[held]. rewrite Hheld, length_app, length_fmap, Nat.add_1_r. by apply step_queued.
    + split; cbn -[held]; try (done || congruence).
      * rewrite Hheld, fmap_app. done.
      * apply Forall_app. split; [done|]. by apply Forall_singleton.
  - rewrite bool_decide_true by done. eexists. split.
    + cbn -[held]. rewrite Hheld, length_fmap. by apply step_full.
    + split; cbn -[held]; done || congruence.
Qed.

Lemma popped_represents disposition s i p rest : represents capacity accepted s i -> ib_waiting i = p :: rest ->
  represents capacity accepted (s <| pl_transport := snd (PopReceived disposition (pl_transport s)) |>)
    (i <| ib_waiting := rest |>).
Proof.
  intros [Hok Hcap Hacc Hcons Hwait Hfits Hnext Hpeers] E. pose proof (pop_law (pl_transport s) disposition Hok) as Hlaw.
  destruct (PopReceived _ _) as [popped t]. destruct Hlaw as (Hok' & Hcons' & Hcap' & Hacc' & _ & Hheld).
  rewrite E in Hfits. apply Forall_cons in Hfits as [_ Hfits].
  split; cbn -[held]; try congruence.
  - by rewrite Hheld, Hwait, E.
Qed.
Lemma waiting_size s i : represents capacity accepted s i -> ReceivedSize (pl_transport s) = length (ib_waiting i).
Proof. intros [? ? ? ? Hwait]. by rewrite size_law, Hwait, length_fmap. Qed.

Lemma receive_simulated buffer consumer s i : represents capacity accepted s i ->
  wp False (run_op (Op_Receive buffer consumer)) (simulated (Op_Receive buffer consumer) i) s.
Proof.
  intros Hrep. pose proof Hrep as [Hok Hcap Hacc Hcons Hwait Hfits Hnext Hpeers].
  cbn [run_op]. apply wp_bind. unfold ReceivePacket. apply wp_bind, wp_reads. rewrite owned_law, Hcons.
  destruct (decide (owned i consumer)) as [Ho|Ho].
  2:{ replace (negb _ && _) with false
        by (unfold owned in Ho; destruct (Z.eqb_spec (ib_consumer i) 0), (Z.eqb_spec (ib_consumer i) consumer);
            cbn; tauto).
      do 2 apply wp_ret. exists i. split; [by apply step_denied|done]. }
  assert (negb (ib_consumer i =? 0) && (ib_consumer i =? consumer) = true) as ->.
  { destruct Ho as [H1 <-]. rewrite Z.eqb_refl, andb_true_r. by apply negb_true_iff, Z.eqb_neq. }
  cbn [negb]. rewrite front_law, Hwait by done.
  destruct (ib_waiting i) as [|p rest] eqn:Ew; cbn [fmap list_fmap head].
  { do 2 apply wp_ret. exists i. split; [by apply step_empty|done]. }
  apply Forall_cons in Hfits as [Hp _]. apply wp_bind, wp_reads. rewrite record_peer, Hpeers.
  pose proof (fun d => popped_represents d s i p rest Hrep Ew) as Hpop.
  destruct (IsActiveIdentity (pk_peer p) (ib_peers i)) eqn:Ea; cbn [negb].
  2:{ apply wp_bind, wp_call. specialize (Hpop QueueDisposition_Stale).
      destruct (PopReceived _ (pl_transport s)) as [popped t]. cbn [fst snd] in Hpop |- *.
      apply wp_bind, wp_reads. rewrite (waiting_size _ _ Hpop). do 2 apply wp_ret. eexists. split; [|exact Hpop].
      cbn -[Z.to_nat]. rewrite Nat2Z.id. by apply step_stale. }
  change (rec_size (record_of p)) with (Z.of_nat (length (pk_bytes p))).
  destruct (Z.ltb_spec (Z.of_nat (length buffer)) (Z.of_nat (length (pk_bytes p)))).
  { do 2 apply wp_ret. exists i. split; [|done]. cbn -[Z.to_nat]. rewrite Nat2Z.id, (waiting_size _ _ Hrep), Ew.
    apply step_small; [done..|lia]. }
  change (Z.of_nat (length (pk_bytes p))) with (rec_size (record_of p)). rewrite record_bytes by done.
  apply wp_bind, wp_call. specialize (Hpop QueueDisposition_Delivered).
  destruct (PopReceived _ (pl_transport s)) as [popped t]. cbn [fst snd] in Hpop |- *.
  apply wp_bind, wp_reads. rewrite (waiting_size _ _ Hpop). do 2 apply wp_ret. eexists. split; [|exact Hpop].
  cbn -[Z.to_nat write_at]. rewrite Nat2Z.id. unfold write_at. rewrite take_0, app_nil_l, Nat.add_0_l.
  apply step_received; [done..|lia].
Qed.

Lemma claim_simulated consumer s i : represents capacity accepted s i ->
  wp False (run_op (Op_Claim consumer)) (simulated (Op_Claim consumer) i) s.
Proof.
  intros [Hok Hcap Hacc Hcons Hwait Hfits Hnext Hpeers]. cbn [run_op]. apply wp_bind, wp_call.
  pose proof (claim_law (pl_transport s) consumer Hok) as Hlaw. destruct (Claim _ _) as [discarded t]. cbn [fst snd].
  destruct Hlaw as (Hok' & Hcons' & Hcap' & Hacc' & Hlaw). rewrite Hcons in Hlaw.
  apply wp_ret. destruct (Z.eqb_spec (ib_consumer i) consumer) as [Hc|Hc]; destruct Hlaw as [-> Hheld].
  - exists i. split; [by apply step_claimed_again|]. split; cbn -[held]; congruence.
  - eexists. split; [rewrite Hwait, length_fmap; by apply step_claimed|].
    split; cbn -[held]; done || congruence.
Qed.
Lemma clear_simulated s i : represents capacity accepted s i ->
  wp False (run_op Op_Clear) (simulated Op_Clear i) s.
Proof.
  intros [Hok Hcap Hacc Hcons Hwait Hfits Hnext Hpeers]. cbn [run_op]. apply wp_bind. unfold Clear.
  apply wp_bind, wp_call. destruct (ClearAllStagedInnerPackets (pl_registry s)) as [n g] eqn:Eg. cbn [fst snd].
  apply wp_bind, wp_call. change (pl_transport (s <| pl_registry := g |>)) with (pl_transport s).
  pose proof (release_law (pl_transport s) Hok) as Hlaw.
  destruct (Release (pl_transport s)) as [discarded t]. cbn [fst snd].
  destruct Hlaw as (Hok' & Hcons' & Hcap' & Hacc' & -> & Hheld). do 2 apply wp_ret.
  eexists. split; [cbn -[held]; rewrite Hwait, length_fmap; apply step_cleared|].
  split; cbn -[held ClearAllStagedInnerPackets]; try (done || congruence). by rewrite <- Hpeers, Eg.
Qed.

Lemma op_simulated op s i : represents capacity accepted s i -> wp False (run_op op) (simulated op i) s.
Proof.
  intros Hrep. destruct op as [peer packet|buffer consumer|consumer| |peers].
  - by apply deliver_simulated.
  - by apply receive_simulated.
  - by apply claim_simulated.
  - by apply clear_simulated.
  - destruct Hrep. cbn [run_op]. apply wp_bind, wp_change, wp_ret.
    eexists. split; [apply step_peers|]. by split.
Qed.

(** C9. The inbox of the data plane.  Over any sequence of deliveries, receptions,
    take-overs and clears, with the peers changing in between, the data plane on any
    lawful transport reports exactly what the abstract inbox reports: packets are
    received by their consumer only, in the order of their delivery, unchanged, at
    most once, and only while the activation they came from is the active one; the
    rest of the receiver's buffer is untouched, and nothing aborts. *)
Theorem plane_refines_inbox (ops : list PlaneOp) (s : Plane T) (i : Inbox) :
  represents capacity accepted s i ->
  exists results s' i', run_plane ops s = Some (results, s') /\
    inbox_steps capacity accepted i ops results i' /\ represents capacity accepted s' i'.
Proof.
  revert s i. induction ops as [|op ops IH]; intros s i Hrep.
  - exists [], s, i. split_and!; [done|constructor|done].
  - destruct (wp_total _ _ _ (op_simulated op s i Hrep)) as (result & s1 & E & i1 & Hstep & Hrep1).
    destruct (IH s1 i1 Hrep1) as (results & s2 & i2 & E2 & Hsteps & Hrep2).
    exists (result :: results), s2, i2. split_and!; [|by econstructor|done].
    unfold mbind, Run_bind. cbn [run_plane]. unfold mbind, Run_bind. by rewrite E, E2.
Qed.
End Simulation.
End Inbox.

(** Process 5 claims an empty packet channel, a packet arrives for the active peer
    and is received; a packet of an earlier activation is refused. *)
Definition example_plane : Plane PacketChannel :=
  mk_plane
    (mk_registry [runtime_init <| m_lifecycle := lifecycle_init <| lc_activation_generation := 3 |> |> ] 1 0 (-1))
    channel_init 1 (sample_world 0 1 1).
Definition example_inbox : Inbox := mk_inbox 0 [] 1 (pl_registry example_plane).
Definition example_ops : list PlaneOp :=
  [Op_Claim 5; Op_Deliver (mk_peer_identity 0 3) sample_packet; Op_Deliver (mk_peer_identity 0 2) sample_packet;
   Op_Receive (zeros 24) 5].

Lemma plane_refines_inbox_witness : exists results s' i',
  run_plane example_ops example_plane = Some (results, s') /\
  results = [Result_Discarded 0; Result_Delivery PacketDeliveryStatus_Queued 1 1;
             Result_Delivery PacketDeliveryStatus_StalePeer 0 0;
             Result_Receive PacketReceiveStatus_Success (mk_peer_identity 0 3) 1 20 0 (sample_packet ++ zeros 4)] /\
  inbox_steps ReceiveCapacity (fun v => bool_decide (v = InnerIpVersion_Ipv4)) example_inbox example_ops results i'.
Proof.
  destruct (plane_refines_inbox ReceiveCapacity (fun v => bool_decide (v = InnerIpVersion_Ipv4))
    example_ops example_plane example_inbox) as (results & s' & i' & E & H & _).
  - split; try done. apply (queue_init_wf ReceiveCapacity). apply Nat.lt_0_succ.
  - exists results, s', i'. split; [exact E|]. split; [|exact H].
    assert (fst <$> run_plane example_ops example_plane
      = Some [Result_Discarded 0; Result_Delivery PacketDeliveryStatus_Queued 1 1;
              Result_Delivery PacketDeliveryStatus_StalePeer 0 0;
              Result_Receive PacketReceiveStatus_Success (mk_peer_identity 0 3) 1 20 0 (sample_packet ++ zeros 4)]) as F
      by (vm_compute; reflexivity).
    rewrite E in F. by injection F.
Defined.
