(* ===== verification/Submission.v ===== *)
(** * Submission of inner packets

    The sending side of [runtime/packet_data_plane.cpp] over a ready active peer:
    what every submission reports, and that no sequence of submissions aborts. *)

From S2P Require Import Prelude Endian Messages PacketQueue Platform Session Base64 InnerPacket Timers.
From S2P Require Import Crypto Device Data Identity Noise Admission Macs Handshake Agreement Exchange Peer.
From S2P Require Import PeerController Tunnel Abort RuntimeEvents PeerRuntime RuntimeBudget Coordinator DataPlane.
Local Open Scope Z_scope.

(** ** MTUs under which every inner packet fits a datagram *)

Definition mtu_fits (mtu : Z) : Prop := forall packet, (length packet <= MaxInnerIpPacketSize)%nat ->
  Data.fits (pd_bytes pending_init) packet (ResolveEffectiveInnerMtu mtu).

(** The bound as a function of the size of the packet. *)
Definition size_fits (mtu : Z) (size : nat) : bool :=
  bool_decide (Data.fits (pd_bytes pending_init) (zeros size) (ResolveEffectiveInnerMtu mtu)).
Lemma mtu_fits_sizes mtu : forallb (size_fits mtu) (seq 0 (S MaxInnerIpPacketSize)) = true -> mtu_fits mtu.
Proof.
  intros H packet Hp. rewrite forallb_forall in H.
  assert (size_fits mtu (length packet) = true) as Hs by (apply H, in_seq; lia).
  apply bool_decide_eq_true in Hs. unfold Data.fits, required_size, padded_payload in *.
  by rewrite !length_app, !length_zeros in *.
Qed.

(** The default MTU of 1420 is safe; with 1400 the largest packets do not fit. *)
Lemma default_mtu_fits : mtu_fits 0.
Proof. apply mtu_fits_sizes. vm_compute. reflexivity. Qed.
Lemma mtu_1400_overflows : ~ mtu_fits 1400.
Proof.
  intros H. specialize (H (zeros MaxInnerIpPacketSize)).
  assert (size_fits 1400 MaxInnerIpPacketSize = false) as F by (vm_compute; reflexivity).
  apply bool_decide_eq_false in F. apply F, H. by rewrite length_zeros.
Qed.

Section Submission.
Context {P : Primitives} {L : PrimitivesLaws P} {T : Type} `{Laws : PacketTransportLaws T}.
Context (own other psk : bytes) (Hown : bytes_of 32 own) (Hother : bytes_of 32 other).
Context (mtu : Z) (Hmtu : is_u64 mtu) (Hfits : mtu_fits mtu).

(** The peer at [a] is active and ready to handle packets. *)
Record plane_ready (s : Plane T) (a : Z) (r : PeerRuntime) : Prop := {
  sr_transport : transport_ok (pl_transport s);
  sr_index : 0 <= a;
  sr_active : m_active_peer_index (pl_registry s) = a;
  sr_peer : PeerAt a (pl_registry s) = Some r;
  sr_runtime : runtime_ready own other psk mtu r (pl_world s)
}.

(** The submission of a consumer, or of the daemon itself. *)
Record Submission := mk_submitted {
  su_packet : bytes;
  su_consumer : option Z;
  su_facts : TimerFacts;
  su_at : Z
}.
Definition run_submission (su : Submission) : Run (Plane T) (PacketSubmissionOutcome * EffectBatch) :=
  match su_consumer su with
  | Some consumer => SubmitIpPacket (su_packet su) consumer (su_facts su) (su_at su)
  | None => SubmitInternalIpPacket (su_packet su) (su_facts su) (su_at su)
  end.

(** A consumer that does not own the transport takes it over, which empties the
    staging queue. *)
Definition takes_over (su : Submission) (s : Plane T) : bool :=
  match su_consumer su with
  | Some consumer => negb (IsOwnedBy consumer (pl_transport s))
  | None => false
  end.
Definition expected_status (su : Submission) (r : PeerRuntime) (s : Plane T) : PacketSubmissionStatus :=
  if negb (bool_decide (fst (ValidateInnerIpPacket (su_packet su)) = InnerIp_None)) then
    PacketSubmissionStatus_MalformedPacket
  else if negb (accepts_submission (lc_state (m_lifecycle r))) then PacketSubmissionStatus_TunnelUnavailable
  else if negb (takes_over su s) && (PeerStagedPacketCapacity <=? StagedInnerPacketCount r)%nat then
    PacketSubmissionStatus_QueueFull
  else PacketSubmissionStatus_Queued.

Lemma ready_peer_of r w : runtime_ready own other psk mtu r w ->
  ProtocolPeer r = Some (the_peer (env_of (mk_handling r w []))).
Proof. intros Hr. by apply (ready_peer_here own other psk mtu (mk_handling r w [])). Qed.

Definition packet_state (a : Z) (r : PeerRuntime) : PeerPacketStateSnapshot :=
  mk_packet_state (mk_peer_identity a (lc_activation_generation (m_lifecycle r))) (lc_state (m_lifecycle r))
    (StagedInnerPacketCount r) true (StagedInnerPacketCount r <? PeerStagedPacketCapacity)%nat.
Lemma snapshot_ready s a r : plane_ready s a r -> SnapshotPacketState (pl_registry s) = Some (packet_state a r).
Proof.
  intros [_ Ha Hactive Hpeer Hr]. unfold SnapshotPacketState, active_peer, packet_state.
  rewrite Hactive, (proj2 (Z.ltb_ge _ _)) by done. rewrite Hpeer. cbn [mbind option_bind].
  rewrite (rd_instantiated _ _ _ _ _ Hr : po_instantiated (m_protocol r) = true).
  unfold CanStageInnerPackets, StagedInnerPacketCount. rewrite (ready_peer_of r (pl_world s)) by done.
  generalize (Queue_Size (pr_staged_outbound_packets (the_peer (env_of (mk_handling r (pl_world s) []))))).
  intros n. do 2 f_equal. destruct (Nat.leb_spec 1 (PeerStagedPacketCapacity - n));
    destruct (Nat.ltb_spec n PeerStagedPacketCapacity); lia || done.
Qed.

Abbreviation same_state r r' := (lc_state (m_lifecycle r') = lc_state (m_lifecycle r)).

Lemma update_ready s a r r' w : plane_ready s a r -> runtime_ready own other psk mtu r' w ->
  plane_ready (s <| pl_registry ::= (fun g => g <| m_peers ::= <[Z.to_nat a := r']> |>) |> <| pl_world := w |>) a r'.
Proof.
  intros [Ht Ha Hactive Hpeer _] Hr'. split; try done. cbn.
  rewrite PeerAt_update by (done || by rewrite Hpeer). by rewrite decide_True.
Qed.

Lemma dispatch_ready event s a r : plane_ready s a r -> outbound_event mtu event ->
  pi_peer_index (GetPeerIdentity event) = a ->
  wp False (dispatch event) (fun effects s' => (length effects <= GetEventEffectBudget event)%nat /\
    pl_transport s' = pl_transport s /\ exists r', plane_ready s' a r' /\ same_state r r') s.
Proof.
  intros Hs He Hindex. unfold wp, dispatch, Dispatch. rewrite Hindex, (sr_peer _ _ _ Hs).
  destruct (handle_ready own other psk Hown Hother mtu Hmtu event r (pl_world s) (sr_runtime _ _ _ Hs) He)
    as (effects & r' & w' & -> & Hl & Hr' & Es). cbn [mbind option_bind].
  split_and!; [done|done|]. exists r'. split; [by apply (update_ready s a r)|done].
Qed.

Lemma clear_ready r w : runtime_ready own other psk mtu r w ->
  runtime_ready own other psk mtu (snd (Peer_ClearStagedInnerPackets r)) w /\
  same_state r (snd (Peer_ClearStagedInnerPackets r)) /\
  StagedInnerPacketCount (snd (Peer_ClearStagedInnerPackets r)) = 0%nat.
Proof.
  intros Hr. pose proof (ready_peer_of r w Hr) as Hpeer. unfold Peer_ClearStagedInnerPackets. rewrite Hpeer.
  destruct Hr as [He Hi Hm]. unfold wg_peer_clear_staged_outbound_packets.
  pose proof (clear_contents _ QueueDisposition_Cleared _ (er_queue _ _ _ _ _ He)) as (_ & Hc & Hw). unfold staged in Hc, Hw.
  pose proof (contents_length PeerStagedPacketCapacity
    (snd (Queue_Clear PeerStagedPacketCapacity QueueDisposition_Cleared
      (pr_staged_outbound_packets (the_peer (env_of (mk_handling r w []))))))) as Hsize.
  pose proof (env_ready_queue own other psk mtu _ _ He Hw ltac:(rewrite Hc; constructor)) as Hready.
  destruct (Queue_Clear _ _ _) as [count queue]. cbn [fst snd] in *. split_and!; [by split|done|].
  rewrite Hc in Hsize. unfold StagedInnerPacketCount, ProtocolPeer, wg_device_first_peer. cbn.
  cbn in Hi. rewrite Hi. destruct (dv_has_peer _); [|done]. symmetry. exact Hsize.
Qed.

Lemma claim_ready consumer outcome s a r : plane_ready s a r ->
  wp False (claim_transport consumer (packet_state a r) outcome) (fun result s' =>
    so_peer (fst result) = so_peer outcome /\ ConsumerId (pl_transport s') = consumer /\
    exists r', snd result = Some (packet_state a r') /\ plane_ready s' a r' /\ same_state r r' /\
      StagedInnerPacketCount r' = if IsOwnedBy consumer (pl_transport s) then StagedInnerPacketCount r else 0%nat) s.
Proof.
  intros Hs. unfold claim_transport. apply wp_bind, wp_reads.
  destruct (IsOwnedBy consumer (pl_transport s)) eqn:Eo.
  { apply wp_ret. cbn [fst snd]. split; [done|]. split; [|by exists r].
    rewrite owned_law in Eo. by apply andb_true_iff in Eo as [_ E%Z.eqb_eq]. }
  cbn [negb px_protocol_instantiated packet_state]. apply wp_bind, wp_call.
  unfold Registry_ClearStagedInnerPackets. cbn [px_identity packet_state pi_peer_index].
  rewrite (sr_peer _ _ _ Hs). destruct (clear_ready r (pl_world s) (sr_runtime _ _ _ Hs)) as (Hr' & Es & Ec).
  destruct (Peer_ClearStagedInnerPackets r) as [outbound r']. cbn [fst snd] in *.
  pose proof (update_ready s a r r' (pl_world s) Hs Hr') as Hs1.
  pose proof (claim_law (pl_transport s) consumer (sr_transport _ _ _ Hs)) as Hlaw.
  apply wp_bind, wp_call. change (pl_transport (s <| pl_registry := _ |>)) with (pl_transport s).
  destruct (Claim consumer (pl_transport s)) as [inbound t]. destruct Hlaw as (Hok & Hconsumer & _). cbn [fst snd].
  apply wp_bind, wp_reads.
  match goal with |- wp _ _ _ ?s2 => assert (plane_ready s2 a r') as Hs2 by by destruct Hs1 end.
  rewrite (snapshot_ready _ _ _ Hs2). apply wp_ret. cbn [fst snd]. split_and!; [done|done|]. by exists r'.
Qed.

Lemma record_depth_total outcome (Q : PacketSubmissionOutcome -> Plane T -> Prop) s :
  (forall outcome', so_status outcome' = PacketSubmissionStatus_Queued -> Q outcome' s) ->
  wp False (record_depth outcome) Q s.
Proof. intros HQ. apply wp_bind, wp_reads, wp_ret, HQ. by destruct (SnapshotPacketState _). Qed.

(** The outcome of one submission. *)
Definition submitted (su : Submission) (s : Plane T) (a : Z) (r : PeerRuntime)
    (result : PacketSubmissionOutcome * EffectBatch) (s' : Plane T) : Prop :=
  so_status (fst result) = expected_status su r s /\ (length (snd result) <= 5)%nat /\
  (forall consumer, su_consumer su = Some consumer ->
     so_status (fst result) = PacketSubmissionStatus_Queued -> ConsumerId (pl_transport s') = consumer) /\
  exists r', plane_ready s' a r' /\ same_state r r'.

(** The rest of a submission, once the transport is claimed and there is a peer. *)
Lemma stage_submitted su outcome s a r : plane_ready s a r -> bytes_ok (su_packet su) ->
  pi_peer_index (so_peer outcome) = a ->
  wp False (packet_id ← AllocatePacketId;
            effects ← dispatch (Event_InnerPacketStaged
              (mk_packet_staged (so_peer outcome) (su_packet su) packet_id (su_facts su) (su_at su)));
            outcome ← record_depth (outcome <| so_packet_id := packet_id |>);
            mret (outcome, effects))
    (fun result s' => so_status (fst result) = PacketSubmissionStatus_Queued /\ (length (snd result) <= 5)%nat /\
       ConsumerId (pl_transport s') = ConsumerId (pl_transport s) /\
       exists r', plane_ready s' a r' /\ same_state r r') s.
Proof.
  intros Hs Hbytes Hpeer. apply wp_bind, wp_call. cbn [fst snd].
  match goal with |- wp _ _ _ ?s2 => assert (plane_ready s2 a r) as Hs2 by by destruct Hs end.
  eapply wp_seq; [apply (dispatch_ready _ _ _ _ Hs2)|].
  - cbn. intros Hp. apply andb_true_iff in Hp as [_ Hp%Nat.leb_le]. split; [done|]. by apply Hfits.
  - done.
  - intros effects s' (Hl & Et & Hr'). apply wp_bind, record_depth_total. intros outcome' Eo. apply wp_ret.
    cbn [fst snd]. split_and!; [done|exact Hl|by rewrite Et|done].
Qed.

Lemma validated_submitted su consumer (claim : bool) s a r : plane_ready s a r -> bytes_ok (su_packet su) ->
  su_consumer su = (if claim then Some consumer else None) ->
  wp False (SubmitValidatedPacket (su_packet su) consumer (su_facts su) (su_at su)
              (fst (ValidateInnerIpPacket (su_packet su))) claim) (submitted su s a r) s.
Proof.
  intros Hs Hbytes Hconsumer. unfold SubmitValidatedPacket. unfold submitted at 1, expected_status.
  destruct (bool_decide (fst (ValidateInnerIpPacket (su_packet su)) = InnerIp_None)); cbn [negb].
  2:{ apply wp_ret. split_and!; [done|cbn; lia|done|by exists r]. }
  apply wp_bind, wp_reads. rewrite (snapshot_ready _ _ _ Hs). cbn [px_state packet_state].
  destruct (accepts_submission _); cbn [negb].
  2:{ apply wp_ret. split_and!; [done|cbn; lia|done|by exists r]. }
  apply wp_bind.
  eapply wp_mono with (Q := fun (result : PacketSubmissionOutcome * option PeerPacketStateSnapshot) (s' : Plane T) =>
    pi_peer_index (so_peer (fst result)) = a /\
    (forall c, su_consumer su = Some c -> ConsumerId (pl_transport s') = c) /\
    exists r', snd result = Some (packet_state a r') /\ plane_ready s' a r' /\ same_state r r' /\
      StagedInnerPacketCount r' = if takes_over su s then 0%nat else StagedInnerPacketCount r).
  { destruct claim; unfold takes_over; rewrite Hconsumer.
    - eapply wp_mono; [by apply claim_ready|]. intros result s' (E1 & E2 & r' & E3 & Hs' & Es & Ec).
      split_and!; [by rewrite E1|by intros c [= <-]|]. exists r'. split_and!; try done. rewrite Ec. by destruct (IsOwnedBy _ _).
    - apply wp_ret. split_and!; [done|done|]. by exists r. }
  intros [outcome' claimed] s1 (Epeer & Hclaimed & r' & E & Hs1 & Es1 & Ec).
  cbn [fst snd] in Epeer, E. rewrite E. cbn [px_can_stage_packet packet_state].
  assert ((StagedInnerPacketCount r' <? PeerStagedPacketCapacity)%nat
    = negb (negb (takes_over su s) && (PeerStagedPacketCapacity <=? StagedInnerPacketCount r)%nat)) as Eroom.
  { rewrite Ec. destruct (takes_over su s); cbn [negb andb]; [by apply Nat.ltb_lt; unfold PeerStagedPacketCapacity; lia|].
    by rewrite Nat.leb_antisym, negb_involutive. }
  rewrite Eroom, negb_involutive. destruct (_ && _); cbn [negb px_protocol_instantiated packet_state].
  - apply wp_ret. split_and!; [done|cbn; lia|done|by exists r'].
  - eapply wp_mono; [by apply (stage_submitted su outcome' s1 a r')|].
    intros result s2 (E1 & E2 & E3 & r2 & Hs2 & Es2).
    split_and!; [done|done|intros c Hc _; rewrite E3; by apply Hclaimed|]. exists r2. split; [done|congruence].
Qed.

Lemma submission_ready su s a r : plane_ready s a r -> bytes_ok (su_packet su) ->
  wp False (run_submission su) (submitted su s a r) s.
Proof.
  intros Hs Hbytes. unfold run_submission. destruct (su_consumer su) eqn:E; by apply validated_submitted.
Qed.

Fixpoint run_submissions (submissions : list Submission) : Run (Plane T) (list PacketSubmissionStatus) :=
  match submissions with
  | [] => mret []
  | su :: submissions =>
      result ← run_submission su;
      statuses ← run_submissions submissions;
      mret (so_status (fst result) :: statuses)
  end.

(** C20. Submissions of inner packets.  While the active peer is ready and its MTU
    lets every inner packet fit a datagram, any sequence of submissions by consumers
    and by the daemon runs without aborting and leaves the peer ready in the same
    life-cycle state.  The next submission then reports a malformed packet exactly
    when the packet is invalid, an unavailable tunnel exactly when the peer does not
    take packets in its state, a full queue exactly when the submitter owns the
    transport already and no slot is free, and is queued otherwise; a consumer whose
    packet is queued owns the transport from then on. *)
Theorem submissions_never_abort (before : list Submission) (su : Submission) (s : Plane T) (a : Z) (r : PeerRuntime) :
  plane_ready s a r -> Forall (fun su => bytes_ok (su_packet su)) (before ++ [su]) ->
  exists statuses s1 r1, run_submissions before s = Some (statuses, s1) /\ plane_ready s1 a r1 /\ same_state r r1 /\
    exists outcome effects s2, run_submission su s1 = Some ((outcome, effects), s2) /\
      submitted su s1 a r1 (outcome, effects) s2.
Proof.
  intros Hs Hall. revert s r Hs. induction before as [|first before IH]; intros s r Hs.
  - apply Forall_cons in Hall as [Hb _]. exists [], s, r. split_and!; [done|done|done|].
    destruct (wp_total _ _ _ (submission_ready su s a r Hs Hb)) as ([outcome effects] & s2 & E & Hsub). eauto.
  - apply Forall_cons in Hall as [Hb Hall].
    destruct (wp_total _ _ _ (submission_ready first s a r Hs Hb)) as (result & s0 & E0 & _ & _ & _ & r0 & Hs0 & Es0).
    destruct (IH Hall s0 r0 Hs0) as (statuses & s1 & r1 & E1 & Hs1 & Es1 & Hlast).
    exists (so_status (fst result) :: statuses), s1, r1. split_and!; [|done|congruence|done].
    cbn [run_submissions]. unfold mbind, Run_bind. by rewrite E0, E1.
Qed.
End Submission.

(** A handshaking peer behind a packet channel; process 5 submits a packet, the
    daemon another one, and a third one is malformed. *)
Definition submission_plane : Plane PacketChannel :=
  mk_plane (mk_registry [ready_runtime] 1 0 (-1)) channel_init 1 ready_world.
Definition submission_of (packet : bytes) (consumer : option Z) : Submission :=
  mk_submitted packet consumer (mk_timer_facts 0 0) 0.

Lemma submissions_never_abort_witness :
  exists statuses s1 outcome effects s2,
    run_submissions (P := toy_primitives)
      [submission_of sample_packet (Some 5); submission_of sample_packet None] submission_plane
      = Some (statuses, s1) /\
    run_submission (P := toy_primitives) (submission_of [0; 1; 2] (Some 5)) s1 = Some ((outcome, effects), s2) /\
    so_status outcome = PacketSubmissionStatus_MalformedPacket.
Proof.
  destruct (submissions_never_abort (P := toy_primitives) (L := toy_laws) key_a key_b sample_psk
    ltac:(apply (bool_decide_unpack _); vm_compute; exact I) ltac:(apply (bool_decide_unpack _); vm_compute; exact I)
    0 ltac:(split; vm_compute; congruence) default_mtu_fits
    [submission_of sample_packet (Some 5); submission_of sample_packet None] (submission_of [0; 1; 2] (Some 5))
    submission_plane 0 ready_runtime)
    as (statuses & s1 & r1 & E1 & _ & _ & outcome & effects & s2 & E2 & Estatus & _).
  - split; [apply (queue_init_wf ReceiveCapacity); apply Nat.lt_0_succ|discriminate|reflexivity|reflexivity|].
    split; [split|reflexivity|reflexivity].
    + exact (@sample_ready toy_primitives 9 key_a key_b).
    + apply queue_init_wf. unfold PeerStagedPacketCapacity. lia.
    + constructor.
    + apply (bool_decide_unpack _). vm_compute. exact I.
  - rewrite !Forall_app, !Forall_cons. split; [|split; [apply (bool_decide_unpack _); vm_compute; exact I|constructor]].
    split; [exact sample_packet_bytes|]. split; [exact sample_packet_bytes|constructor].
  - exists statuses, s1, outcome, effects, s2. split; [exact E1|]. split; [exact E2|exact Estatus].
Defined.
