(* ===== verification/Daemon.v ===== *)
(** * Selecting the active peer

    Models [SetPeerInactive] and [SetActivePeer] of [runtime/daemon_runtime.cpp] on
    an initialised daemon, as far as the registry, the packet channel and the
    effect batch are concerned.  The flow plane, the userspace IP adapter and the
    debug probe are told about the change but add no effects. *)

From S2P Require Import Prelude Endian Messages PacketQueue Platform Session Base64 InnerPacket Timers.
From S2P Require Import Crypto Device Data Identity Admission Handshake Peer PeerController.
From S2P Require Import Abort RuntimeEvents PeerRuntime Coordinator DataPlane RuntimeAborts.
Local Open Scope Z_scope.

Section Daemon.
Context {P : Primitives}.

Abbreviation DaemonRuntime := (Plane PacketChannel).

Definition GetRuntimeNowNs : Run DaemonRuntime Z := call (fun s =>
  let '(now, w) := ktime_get_coarse_boottime_ns (pl_world s) in (now, s <| pl_world := w |>)).
(** [effects.Add] and [effects.Append] on a local batch. *)
Definition batch_add (effect : RuntimeEffect) (batch : EffectBatch) : Run DaemonRuntime EffectBatch := fun s =>
  batch ← TryAdd effect batch; Some (batch, s).
Definition batch_append (other batch : EffectBatch) : Run DaemonRuntime EffectBatch := fun s =>
  batch ← TryAppend other batch; Some (batch, s).

(** The first reading of the clock is the one passed to the flow plane. *)
Definition SetPeerInactive (peer_index : Z) : Run DaemonRuntime EffectBatch :=
  peer ← reads (fun s => PeerAt peer_index (pl_registry s));
  match peer with
  | None => abort
  | Some r =>
      let identity := mk_peer_identity (u32 peer_index) (lc_activation_generation (m_lifecycle r)) in
      _ ← GetRuntimeNowNs;
      _ ← Clear;
      now ← GetRuntimeNowNs;
      effects ← dispatch (Event_DeactivationRequested (mk_deactivation_requested identity now));
      batch_add Effect_CancelDebugProbeTimeout effects
  end.

(** [None] is the error for an invalid index; otherwise the effects to execute. *)
Definition SetActivePeer (peer_index : Z) : Run DaemonRuntime (option EffectBatch) :=
  g ← reads pl_registry;
  if negb (IsValidSelection peer_index g) then mret None
  else if peer_index =? m_active_peer_index g then mret (Some [])
  else
    effects ← (if (0 <=? m_active_peer_index g) && negb (m_active_peer_index g =? peer_index)
               then SetPeerInactive (m_active_peer_index g) else mret []);
    selected ← on_registry (SetActivePeerIndex peer_index);
    if negb selected then abort
    else if 0 <=? peer_index then
      now ← GetRuntimeNowNs;
      activation_effects ← dispatch (Event_ActivationRequested (mk_activation_requested (u32 peer_index) now));
      effects ← batch_append activation_effects effects;
      mret (Some effects)
    else mret (Some effects).

(** ** The effects of a deactivation and of an activation *)

Lemma add_total effect s : (length (hn_effects s) < EffectBatchCapacity)%nat ->
  wp False (Add effect) (fun _ s' => s' = s <| hn_effects ::= fun e => e ++ [effect] |>) s.
Proof. intros H. unfold wp, Add, TryAdd. rewrite (proj2 (Nat.eqb_neq _ _)) by lia. done. Qed.

(** A deactivation of a peer that is connected emits seven effects. *)
Definition connected (r : PeerRuntime) : Prop :=
  engaged r /\ m_path_request_generation r <> 0 /\ has_protocol_peer r = true.
Lemma deactivation_emits event s : connected (hn_self s) -> hn_effects s = [] ->
  IsCurrentActivation (pi_activation_generation (dq_peer event)) (hn_self s) = true ->
  wp False (HandleDeactivationRequested event) (fun _ s' =>
    length (hn_effects s') = 7%nat /\ in_state PeerRuntimeState_Inactive (hn_self s') = true) s.
Proof.
  intros ([Hopen _] & Hpath & Hpeer) He Hcurrent. unfold HandleDeactivationRequested. apply wp_bind, wp_reads.
  cbn [id]. rewrite Hcurrent, (proj2 (Z.eqb_neq _ _) Hpath), Hopen, Hpeer. cbn [negb when].
  eapply wp_seq; [apply add_total; rewrite He; unfold EffectBatchCapacity; cbn; lia|]. intros ? s1 ->.
  eapply (wp_seq _ _ _ (fun _ s' => length (hn_effects s') = 2%nat)).
  { unfold close_socket. apply wp_bind, wp_reads, wp_bind, wp_call. cbn.
    eapply wp_mono; [apply add_total; cbn; rewrite He; unfold EffectBatchCapacity; cbn; lia|]. intros ? s2 ->.
    cbn. by rewrite He. }
  intros ? s2 E2. eapply (wp_seq _ _ _ (fun _ s' => length (hn_effects s') = 7%nat)).
  - apply wp_each with (I := fun l s' => (length (hn_effects s') + length l)%nat = 7%nat); [by rewrite E2| |].
    + intros hook l s3 E3. unfold cancel_hook_now. apply wp_bind, wp_change, wp_bind, wp_call. cbn.
      destruct (Coordinator_Cancel _ _) as [token c]. cbn [fst snd]. cbn [length] in E3.
      eapply wp_mono; [apply add_total; unfold EffectBatchCapacity; cbn; lia|]. intros ? s4 ->. cbn.
      rewrite length_app. cbn. lia.
    + intros s3 E3. cbn in E3. lia.
  - intros ? s3 E3. by apply wp_change.
Qed.

(** An activation with a valid configuration emits one effect. *)
Lemma activation_emits event s : ValidateConfiguration (hn_self s) = PeerErrorCode_None -> hn_effects s = [] ->
  wp False (HandleActivationRequested event) (fun _ s' => length (hn_effects s') = 1%nat) s.
Proof.
  intros Hv He. unfold HandleActivationRequested. apply wp_bind, wp_reads. cbn [id]. rewrite Hv.
  apply wp_bind, wp_change, wp_bind, wp_change, wp_bind. unfold BeginActivation. apply wp_call.
  destruct (AllocateGeneration (m_next_activation_generation _)) as [generation next].
  apply wp_bind, wp_change, wp_bind, wp_reads.
  eapply wp_mono; [apply add_total; cbn; rewrite He; unfold EffectBatchCapacity; cbn; lia|].
  intros ? s' ->. cbn. by rewrite He.
Qed.

(** ** Clearing the staged packets keeps the rest of every peer *)

Definition cleared (r : PeerRuntime) : PeerRuntime := snd (Peer_ClearStagedInnerPackets r).
Lemma cleared_keeps r : m_binding (cleared r) = m_binding r /\ m_lifecycle (cleared r) = m_lifecycle r /\
  m_path_request_generation (cleared r) = m_path_request_generation r /\
  m_config (cleared r) = m_config r /\ m_derived (cleared r) = m_derived r /\
  has_protocol_peer (cleared r) = has_protocol_peer r.
Proof.
  unfold cleared, Peer_ClearStagedInnerPackets, has_protocol_peer, ProtocolPeer, wg_device_first_peer.
  destruct (po_instantiated (m_protocol r)) eqn:Ei; [|cbn [snd]; by rewrite Ei].
  destruct (dv_has_peer (po_device (m_protocol r))) eqn:Eh; [|cbn [snd]; by rewrite Ei, Eh].
  destruct (wg_peer_clear_staged_outbound_packets _ _) as [n p]. cbn. by rewrite ?Ei, ?Eh.
Qed.
Lemma clear_loop_lookup count peers i : (i < count)%nat ->
  snd (clear_staged_loop count peers) !! i = cleared <$> peers !! i.
Proof.
  revert peers i. induction count as [|count IH]; intros peers i Hi; [lia|].
  destruct peers as [|r peers]; [done|]. cbn [clear_staged_loop].
  unfold cleared at 1. destruct (Peer_ClearStagedInnerPackets r) as [n r'] eqn:Er.
  destruct i as [|i]; specialize (IH peers); destruct (clear_staged_loop count peers) as [m peers']; cbn.
  - by rewrite Er.
  - apply (IH i). lia.
Qed.
(** ** Leaving the active peer *)

Definition registry_ok (g : PeerRegistry) : Prop := 0 <= m_count g <= Z.of_nat PeerSlots.

Lemma PeerAt_clear_all g i : 0 <= i ->
  PeerAt i (snd (ClearAllStagedInnerPackets g)) = cleared <$> PeerAt i g.
Proof.
  intros Hi. unfold ClearAllStagedInnerPackets, PeerAt. pose proof (clear_loop_lookup (Z.to_nat (m_count g)) (m_peers g)) as H.
  destruct (clear_staged_loop _ _) as [n peers]. cbn in *. destruct (Z.ltb_spec i (m_count g)); [|done].
  apply H. lia.
Qed.
Lemma clear_all_keeps g : m_count (snd (ClearAllStagedInnerPackets g)) = m_count g /\
  m_active_peer_index (snd (ClearAllStagedInnerPackets g)) = m_active_peer_index g.
Proof. unfold ClearAllStagedInnerPackets. by destruct (clear_staged_loop _ _). Qed.

Lemma connected_cleared r : connected r -> connected (cleared r).
Proof.
  destruct (cleared_keeps r) as (E1 & E2 & E3 & _ & _ & E6).
  unfold connected, engaged. by rewrite E1, E2, E3, E6.
Qed.
Lemma valid_cleared r : ValidateConfiguration (cleared r) = ValidateConfiguration r.
Proof.
  destruct (cleared_keeps r) as (_ & _ & _ & E4 & E5 & _). unfold ValidateConfiguration. by rewrite E4, E5.
Qed.

Lemma wp_now (Q : Z -> DaemonRuntime -> Prop) s :
  (forall now w, Q now (s <| pl_world := w |>)) -> wp False GetRuntimeNowNs Q s.
Proof. intros H. apply wp_call. destruct (ktime_get_coarse_boottime_ns _) as [now w]. apply H. Qed.
Lemma wp_clear (Q : PacketClearOutcome -> DaemonRuntime -> Prop) s :
  (forall outcome s', pl_registry s' = snd (ClearAllStagedInnerPackets (pl_registry s)) -> Q outcome s') ->
  wp False Clear Q s.
Proof.
  intros H. unfold Clear, on_registry, on_transport. apply wp_bind, wp_call.
  destruct (ClearAllStagedInnerPackets (pl_registry s)) as [n g]. apply wp_bind, wp_call.
  destruct (Release _) as [m c]. apply wp_ret, H. done.
Qed.
(** Dispatching an event whose handler emits [n] effects, within its budget. *)
Lemma wp_dispatch event r n (QL : PeerRuntimeInfo -> Prop) (Q : EffectBatch -> DaemonRuntime -> Prop) s :
  PeerAt (pi_peer_index (GetPeerIdentity event)) (pl_registry s) = Some r ->
  (forall w, wp False (HandleEvent event) (fun _ h => length (hn_effects h) = n /\ QL (m_lifecycle (hn_self h)))
               (mk_handling r w [])) -> (n <= GetEventEffectBudget event)%nat ->
  (forall effects r' s', length effects = n -> QL (m_lifecycle r') ->
     pl_registry s' = (pl_registry s) <| m_peers ::= <[Z.to_nat (pi_peer_index (GetPeerIdentity event)) := r']> |> ->
     Q effects s') ->
  wp False (dispatch event) Q s.
Proof.
  intros Hr Hw Hn HQ. unfold wp, dispatch, Dispatch. rewrite Hr.
  destruct (handle_within event r (pl_world s) n QL (Hw _) Hn) as (effects & r' & w' & -> & El & Hs).
  cbn [mbind option_bind]. by apply (HQ effects r').
Qed.

Lemma valid_index a r g : registry_ok g -> 0 <= a -> PeerAt a g = Some r -> u32 a = a.
Proof.
  intros [Hl Hh] Ha Hr. unfold PeerAt in Hr. destruct (Z.ltb_spec a (m_count g)); [|done].
  apply wrap_id. change (Z.of_nat PeerSlots) with 8 in Hh. unfold in_width. lia.
Qed.

Lemma leave_active a r s : registry_ok (pl_registry s) -> 0 <= a ->
  PeerAt a (pl_registry s) = Some r -> connected r ->
  wp False (SetPeerInactive a) (fun effects s' =>
    length effects = 8%nat /\ m_count (pl_registry s') = m_count (pl_registry s) /\
    m_active_peer_index (pl_registry s') = m_active_peer_index (pl_registry s) /\
    (exists r', PeerAt a (pl_registry s') = Some r' /\ in_state PeerRuntimeState_Inactive r' = true) /\
    (forall b, 0 <= b -> b <> a -> PeerAt b (pl_registry s') = cleared <$> PeerAt b (pl_registry s))) s.
Proof.
  intros Hok Ha Hr Hc. unfold SetPeerInactive. apply wp_bind, wp_reads. rewrite Hr.
  rewrite (valid_index a r _ Hok Ha Hr).
  apply wp_bind, wp_now. intros _ w0. apply wp_bind, wp_clear. intros _ s1 E1.
  change (pl_registry (s <| pl_world := w0 |>)) with (pl_registry s) in E1.
  assert (PeerAt a (pl_registry s1) = Some (cleared r)) as Hr1 by by rewrite E1, PeerAt_clear_all, Hr.
  apply wp_bind, wp_now. intros now w1. apply wp_bind.
  apply (wp_dispatch _ (cleared r) 7 (fun l => bool_decide (lc_state l = PeerRuntimeState_Inactive) = true)).
  - exact Hr1.
  - intros w. cbn [HandleEvent]. apply deactivation_emits; [by apply connected_cleared|done|]. cbn [hn_self dq_peer].
    destruct (cleared_keeps r) as (_ & E2 & _). unfold IsCurrentActivation, IsCurrentGeneration.
    cbn [pi_activation_generation]. rewrite E2, Z.eqb_refl. destruct Hc as [ [_ Hg] _].
    by rewrite (proj2 (Z.eqb_neq _ _) Hg).
  - cbn. lia.
  - intros effects r' s2 El Hs E2. cbn [GetPeerIdentity dq_peer pi_peer_index] in E2.
    change (pl_registry (s1 <| pl_world := w1 |>)) with (pl_registry s1) in E2.
    unfold batch_add, wp, TryAdd. rewrite El. cbn [Nat.eqb EffectBatchCapacity mbind option_bind].
    pose proof (clear_all_keeps (pl_registry s)) as [K1 K2].
    split_and!.
    + rewrite length_app, El. done.
    + by rewrite E2, <- K1, <- E1.
    + by rewrite E2, <- K2, <- E1.
    + exists r'. rewrite E2, PeerAt_update by (done || by rewrite Hr1). by rewrite decide_True.
    + intros b Hb Hne. rewrite E2, PeerAt_update by (done || by rewrite Hr1). rewrite decide_False by done.
      by rewrite E1, PeerAt_clear_all.
Qed.
Lemma select_none g : registry_ok g -> IsValidSelection (-1) g = true.
Proof.
  intros [Hl Hh]. unfold IsValidSelection, IsValidPeerSelection, i32. change (Z.of_nat PeerSlots) with 8 in Hh.
  rewrite Z.mod_small by lia. apply andb_true_iff. split; [done|]. apply Z.ltb_lt. lia.
Qed.

(** C21. Selecting another peer.  While the active peer is connected (open socket,
    protocol peer, path request), selecting no peer ends in eight effects, which
    fill a batch, and leaves that peer inactive; selecting another peer whose
    configuration is valid needs a ninth effect, so [SetActivePeer] aborts. *)
Theorem switching_peers_aborts (s : DaemonRuntime) (a : Z) (r : PeerRuntime) :
  registry_ok (pl_registry s) -> m_active_peer_index (pl_registry s) = a -> 0 <= a ->
  PeerAt a (pl_registry s) = Some r -> connected r ->
  (exists effects s', SetActivePeer (-1) s = Some (Some effects, s') /\ length effects = 8%nat /\
     m_active_peer_index (pl_registry s') = -1 /\
     exists r', PeerAt a (pl_registry s') = Some r' /\ in_state PeerRuntimeState_Inactive r' = true) /\
  (forall b rb, 0 <= b -> b <> a -> IsValidSelection b (pl_registry s) = true ->
     PeerAt b (pl_registry s) = Some rb -> ValidateConfiguration rb = PeerErrorCode_None ->
     SetActivePeer b s = None).
Proof.
  intros Hok Hactive Ha Hr Hc. pose proof (leave_active a r s Hok Ha Hr Hc) as Hleave. split.
  - assert (wp False (SetActivePeer (-1)) (fun out s' => exists effects, out = Some effects /\ length effects = 8%nat /\
      m_active_peer_index (pl_registry s') = -1 /\
      exists r', PeerAt a (pl_registry s') = Some r' /\ in_state PeerRuntimeState_Inactive r' = true) s) as H.
    + apply wp_bind, wp_reads. rewrite select_none by done. cbn [negb].
      rewrite Hactive, (proj2 (Z.eqb_neq (-1) a)), (proj2 (Z.leb_le 0 a)), (proj2 (Z.eqb_neq a (-1))) by lia.
      cbn [andb negb]. eapply wp_seq; [exact Hleave|]. intros effects s1 (El & Ec & _ & Hr' & _).
      apply wp_bind, wp_call. unfold SetActivePeerIndex. rewrite select_none by (unfold registry_ok; by rewrite Ec).
      cbn [fst snd negb]. rewrite (proj2 (Z.leb_gt 0 (-1))) by lia. apply wp_ret. exists effects. by split_and!.
    + destruct (wp_total _ _ _ H) as (out & s' & E & effects & -> & El & Ha' & Hr'). by exists effects, s'.
  - intros b rb Hb Hne Hvalid Hrb Hconfig. apply wp_none. apply wp_bind, wp_reads. rewrite Hvalid. cbn [negb].
    rewrite Hactive, (proj2 (Z.eqb_neq b a)), (proj2 (Z.leb_le 0 a)), (proj2 (Z.eqb_neq a b)) by (done || lia).
    cbn [andb negb]. eapply wp_seq; [eapply wp_weaken; [|exact Hleave]; done|].
    intros effects s1 (El & Ec & _ & _ & Hothers). apply wp_bind, wp_call. unfold SetActivePeerIndex, IsValidSelection.
    rewrite Ec. fold (IsValidSelection b (pl_registry s)). rewrite Hvalid. cbn [negb fst snd].
    rewrite (proj2 (Z.leb_le 0 b)) by done. apply wp_bind. eapply wp_weaken; [|apply wp_now]; [done|].
    intros now w. apply wp_bind. eapply wp_weaken; [|apply (wp_dispatch _ (cleared rb) 1 (fun _ => True))]; [done| | |cbn; lia|].
    + cbn [GetPeerIdentity pi_peer_index ar_peer_index]. rewrite (valid_index b rb _ Hok Hb Hrb).
      change (PeerAt b (pl_registry s1) = Some (cleared rb)). by rewrite Hothers, Hrb.
    + intros w'. eapply wp_mono; [apply activation_emits; [cbn [hn_self]; by rewrite valid_cleared|done]|]. by split.
    + intros activation r' s2 Ea _ _. apply wp_bind. unfold wp, batch_append, TryAppend. by rewrite El, Ea.
Qed.
End Daemon.

(** Two configured peers, the first one connected. *)
Definition example_config : PeerConfigEntry :=
  mk_config_entry (zeros 32) (zeros 48) [49] (zeros 64) (zeros 128) ([66] ++ replicate 42 65 ++ [61]) (zeros 64)
    [49] 0 0 0 0 false.
Definition example_daemon : Plane PacketChannel :=
  mk_plane
    (mk_registry
       [busy_runtime <| m_path_request_generation := 1 |>;
        runtime_init <| m_config := example_config |>
          <| m_derived := mk_derived (zeros 64) key_init key_init false false true |> ] 2 0 (-1))
    channel_init 1 (sample_world 0 1 1).

Lemma switching_peers_aborts_witness : SetActivePeer (P := toy_primitives) 1 example_daemon = None.
Proof.
  destruct (switching_peers_aborts (P := toy_primitives) example_daemon 0 (busy_runtime <| m_path_request_generation := 1 |>))
    as [_ H].
  - split; vm_compute; discriminate.
  - reflexivity.
  - discriminate.
  - reflexivity.
  - split; [split; [reflexivity|discriminate]|]. split; [discriminate|reflexivity].
  - apply (H 1 (runtime_init <| m_config := example_config |>
      <| m_derived := mk_derived (zeros 64) key_init key_init false false true |>)); try discriminate; vm_compute; reflexivity.
Defined.
