(* ===== verification/FlowPolicy.v ===== *)
(** * The routing policy of the tunnel

    The part of [runtime/tunnel_flow_plane.cpp] that turns the AllowedIPs of the
    active peer into IPv4 routes: [ParseIpv4Cidr], [ParseAndNormalizePolicy],
    [RouteMatches] and [SelectRoute].  The fields of the plane that make up the
    policy are the record [Policy].  A text is read up to its terminator. *)

From stdpp Require Import sorting.
From S2P Require Import Prelude Endian Messages PacketQueue Platform Session Base64 InnerPacket Timers.
From S2P Require Import Crypto Device Data Identity Admission Handshake Peer PeerController RuntimeEvents.
Local Open Scope Z_scope.

(** ** Routes *)

Record NormalizedRoute := mk_route {
  nr_network : bytes;
  nr_prefix_length : Z;
  nr_route_identifier : Z
}.
#[export] Instance route_eq_dec : EqDecision NormalizedRoute.
Proof. solve_decision. Defined.
Definition route_init : NormalizedRoute := mk_route (zeros 4) 0 0.

Definition MaximumPolicyRoutes : nat := 16.
Definition DefaultEffectiveInnerMtu : Z := 1420.
Definition MinimumEffectiveInnerMtu : Z := 576.
Definition MaximumEffectiveInnerMtu : Z := 1500.
Definition IsValidEffectiveInnerMtu (mtu : Z) : bool :=
  (MinimumEffectiveInnerMtu <=? mtu) && (mtu <=? MaximumEffectiveInnerMtu).
Definition tunnel_ResolveEffectiveInnerMtu (configured_mtu : Z) : Z :=
  if configured_mtu =? 0 then DefaultEffectiveInnerMtu else configured_mtu.

(** ** The CIDR parser *)

(** [*cursor] *)
Definition char_at (text : bytes) : Z := default 0 (head text).
Definition is_digit (c : Z) : bool := (char "0" <=? c) && (c <=? char "9").

(** A decimal number of at most [limit], from its first digit on. *)
Fixpoint number_loop (limit value : Z) (text : bytes) : option (Z * bytes) :=
  match text with
  | c :: rest =>
      if is_digit c then
        let value := value * 10 + (c - char "0") in
        if limit <? value then None else number_loop limit value rest
      else Some (value, text)
  | [] => Some (value, text)
  end.
Definition read_number (limit : Z) (text : bytes) : option (Z * bytes) :=
  if is_digit (char_at text) then number_loop limit 0 text else None.

(** The loop over the [count] remaining bytes of the address. *)
Fixpoint address_loop (count : nat) (text address : bytes) : option (bytes * bytes) :=
  match count with
  | O => Some (address, text)
  | S count =>
      '(value, text) ← read_number 255 text;
      let address := address ++ [value] in
      if (count =? 0)%nat then Some (address, text)
      else if char_at text =? char "." then address_loop count (tail text) address
      else None
  end.

Definition ParseIpv4Cidr (text : bytes) : option (bytes * Z) :=
  '(address, text) ← address_loop 4 text [];
  if negb (char_at text =? char "/") then None
  else
    '(prefix, text) ← read_number 32 (tail text);
    if (length (trim_front text) =? 0)%nat then Some (address, prefix) else None.

(** ** Masks *)

Definition prefix_mask (prefix : Z) (byte : nat) : Z :=
  let bits_before := Z.of_nat byte * 8 in
  if bits_before + 8 <=? prefix then 255
  else if prefix <=? bits_before then 0
  else u8 (Z.shiftl 255 (8 - (prefix - bits_before))).
Definition mask_address (prefix : Z) (address : bytes) : bytes :=
  imap (fun byte b => Z.land b (prefix_mask prefix byte)) address.

Definition RouteMatches (route : NormalizedRoute) (address : bytes) : bool :=
  forallb (fun byte =>
      let mask := prefix_mask (nr_prefix_length route) byte in
      Z.land (byte_at (nr_network route) byte) mask =? Z.land (byte_at address byte) mask)
    (seq 0 (length (nr_network route))).

(** ** The policy *)

Record Policy := mk_policy {
  m_routes : list NormalizedRoute;
  m_route_count : nat;
  m_tunnel_source : bytes;
  m_policy_peer : PeerIdentity;
  m_effective_inner_mtu : Z;
  m_policy_available : bool;
  m_policy_leak_protection : bool
}.
#[export] Instance eta_policy : Eta Policy := fun r =>
  mk_policy (m_routes r) (m_route_count r) (m_tunnel_source r) (m_policy_peer r) (m_effective_inner_mtu r)
    (m_policy_available r) (m_policy_leak_protection r).
Definition policy_init : Policy :=
  mk_policy (replicate MaximumPolicyRoutes route_init) 0 (zeros 4) (mk_peer_identity 0 0)
    DefaultEffectiveInnerMtu false false.
#[export] Instance policy_eq_dec : EqDecision Policy.
Proof. solve_decision. Defined.

Record TunnelPolicyInput := mk_policy_input {
  ti_configuration : option PeerConfigEntry;
  ti_peer : PeerIdentity;
  ti_selected : bool
}.

Definition is_separator (c : Z) : bool := is_blank c || (c =? char ",").
Fixpoint skip_separators (text : bytes) : bytes :=
  match text with
  | c :: rest => if is_separator c then skip_separators rest else text
  | [] => []
  end.
(** The characters up to the next comma. *)
Fixpoint until_comma (text : bytes) : bytes :=
  match text with
  | c :: rest => if c =? char "," then [] else c :: until_comma rest
  | [] => []
  end.

(** The loop over the list of prefixes: whether it ran to the end, and the first
    [m_route_count] routes. *)
Fixpoint routes_loop (fuel : nat) (text : bytes) (route_identifier : Z) (routes : list NormalizedRoute)
    : bool * list NormalizedRoute :=
  match fuel with
  | O => (false, routes)
  | S fuel =>
      if (length text =? 0)%nat then (true, routes)
      else
        let start := skip_separators text in
        let item := until_comma start in
        if (length item =? 0)%nat || (32 <=? length item)%nat || (MaximumPolicyRoutes <=? length routes)%nat then
          (false, routes)
        else
          match ParseIpv4Cidr item with
          | None => (false, routes)
          | Some (address, prefix) =>
              routes_loop fuel (drop (length item) start) (route_identifier + 1)
                (routes ++ [mk_route (mask_address prefix address) prefix route_identifier])
          end
  end.

(** The order of the routes: longer prefixes first. *)
Fixpoint bytes_before (a b : bytes) : bool :=
  match a, b with
  | x :: a, y :: b => if x =? y then bytes_before a b else x <? y
  | [], _ :: _ => true
  | _, [] => false
  end.
Definition route_before (lhs rhs : NormalizedRoute) : bool :=
  if negb (nr_prefix_length lhs =? nr_prefix_length rhs) then nr_prefix_length rhs <? nr_prefix_length lhs
  else if negb (bool_decide (nr_network lhs = nr_network rhs)) then bytes_before (nr_network lhs) (nr_network rhs)
  else nr_route_identifier lhs <? nr_route_identifier rhs.
(** [std::sort] with [route_before]; identifiers differ, so the result is unique. *)
Fixpoint insert_route (route : NormalizedRoute) (routes : list NormalizedRoute) : list NormalizedRoute :=
  match routes with
  | first :: rest => if route_before route first then route :: routes else first :: insert_route route rest
  | [] => [route]
  end.
Definition sort_routes : list NormalizedRoute -> list NormalizedRoute := foldr insert_route [].

(** The array of routes with the given first entries. *)
Definition route_array (routes : list NormalizedRoute) : list NormalizedRoute :=
  routes ++ replicate (MaximumPolicyRoutes - length routes) route_init.

Definition ParseAndNormalizePolicy (input : TunnelPolicyInput) (p : Policy) : bool * Policy :=
  let p := p <| m_routes := route_array [] |> <| m_route_count := 0%nat |> <| m_tunnel_source := zeros 4 |>
             <| m_policy_peer := mk_peer_identity 0 0 |> in
  match ti_configuration input with
  | None => (false, p)
  | Some configuration =>
      if negb (ti_selected input) || (pi_activation_generation (ti_peer input) =? 0) then (false, p)
      else
        let mtu := tunnel_ResolveEffectiveInnerMtu (cf_mtu configuration) in
        if negb (IsValidEffectiveInnerMtu mtu) then (false, p)
        else
          match ParseIpv4Cidr (c_string (cf_address configuration)) with
          | None => (false, p)
          | Some (source, _) =>
              let text := c_string (cf_allowed_ips configuration) in
              let '(complete, routes) := routes_loop (S (length text)) text 1 [] in
              let p := p <| m_routes := route_array routes |> <| m_route_count := length routes |> in
              if negb complete || (length routes =? 0)%nat then (false, p)
              else
                (true, p <| m_routes := route_array (sort_routes routes) |> <| m_tunnel_source := source |>
                         <| m_policy_peer := ti_peer input |>
                         <| m_policy_leak_protection := cf_leak_protection configuration |>
                         <| m_effective_inner_mtu := mtu |>)
          end
  end.

Fixpoint find_route (routes : list NormalizedRoute) (address : bytes) : option NormalizedRoute :=
  match routes with
  | [] => None
  | route :: routes => if RouteMatches route address then Some route else find_route routes address
  end.
(** On the address of the remote endpoint. *)
Definition SelectRoute (address : bytes) (p : Policy) : option NormalizedRoute :=
  if negb (m_policy_available p) then None else find_route (take (m_route_count p) (m_routes p)) address.

(** ** What the parser returns *)

Lemma number_loop_bound limit value text result rest :
  number_loop limit value text = Some (result, rest) -> 0 <= value <= limit -> 0 <= result <= limit.
Proof.
  revert value. induction text as [|c text IH]; intros value; cbn [number_loop].
  - by intros [= <- _].
  - case_if; [|by intros [= <- _] ]. case_if; [done|]. intros E Hv. apply (IH _ E).
    unfold is_digit in *. bool_prop. change (char "0") with 48 in *. lia.
Qed.
Lemma read_number_bound limit text result rest :
  0 <= limit -> read_number limit text = Some (result, rest) -> 0 <= result <= limit.
Proof. unfold read_number. case_if; [|done]. intros ? E. eapply number_loop_bound; [exact E|lia]. Qed.

Lemma address_loop_bytes count text address result rest :
  address_loop count text address = Some (result, rest) -> bytes_ok address ->
  bytes_of (length address + count) result.
Proof.
  revert text address. induction count as [|count IH]; intros text address; cbn [address_loop].
  { intros [= <- _] Hb. split; [lia|done]. }
  destruct (read_number 255 text) as [ [value text']|] eqn:E; [|done]. cbn [mbind option_bind]. intros H Hb.
  apply read_number_bound in E; [|lia].
  assert (bytes_ok (address ++ [value])) as Hb'.
  { apply Forall_app. split; [done|]. apply Forall_singleton. unfold in_width. lia. }
  destruct (Nat.eqb_spec count 0) as [->|].
  - injection H as <- _. split; [rewrite length_app; cbn; lia|done].
  - destruct (char_at text' =? char "."); [|done]. apply IH in H; [|done].
    rewrite length_app in H. cbn in H. by replace (length address + S count)%nat with (length address + 1 + count)%nat by lia.
Qed.
Lemma ParseIpv4Cidr_ok text address prefix :
  ParseIpv4Cidr text = Some (address, prefix) -> bytes_of 4 address /\ 0 <= prefix <= 32.
Proof.
  unfold ParseIpv4Cidr. destruct (address_loop 4 text []) as [ [a rest]|] eqn:E1; [|done]. cbn [mbind option_bind].
  case_if; [done|]. destruct (read_number 32 (tail rest)) as [ [n rest']|] eqn:E2; [|done]. cbn [mbind option_bind].
  case_if; [|done]. intros [= <- <-]. split.
  - apply address_loop_bytes in E1; [done|constructor].
  - apply read_number_bound in E2; [done|lia].
Qed.

(** ** Masks and prefixes *)

(** The prefix of [network] of the given length covers [address]. *)
Definition covers (network : bytes) (prefix : Z) (address : bytes) : Prop :=
  forall i, Z.of_nat i < prefix -> bit_at network i = bit_at address i.

Lemma prefix_mask_bits prefix byte x y : is_byte x -> is_byte y ->
  Z.land x (prefix_mask prefix byte) = Z.land y (prefix_mask prefix byte) <->
  forall j, 0 <= j < 8 -> Z.of_nat byte * 8 + j < prefix -> Z.testbit x (7 - j) = Z.testbit y (7 - j).
Proof.
  intros Hx Hy. unfold prefix_mask. destruct (Z.leb_spec (Z.of_nat byte * 8 + 8) prefix).
  - rewrite !land_255. change 256 with (2 ^ 8). fold (wrap 8 x). fold (wrap 8 y). rewrite !wrap_id by done.
    rewrite byte_bits by done. split; intros H' j Hj; [intros _; by apply H'|apply H'; lia].
  - destruct (Z.leb_spec prefix (Z.of_nat byte * 8)).
    + rewrite !Z.land_0_r. split; [intros _ j Hj; lia|done].
    + rewrite mask_bits by lia. split; intros H' j Hj; [intros Hp|]; apply H'; lia.
Qed.

Lemma byte_at_mask prefix address byte : (byte < length address)%nat ->
  byte_at (mask_address prefix address) byte = Z.land (byte_at address byte) (prefix_mask prefix byte).
Proof.
  intros Hb. unfold byte_at, mask_address. rewrite list_lookup_imap.
  apply lookup_lt_is_Some in Hb as [b ->]. done.
Qed.

(** The route of an entry of the configuration. *)
Definition route_of (route_identifier : Z) (entry : bytes * Z) : NormalizedRoute :=
  mk_route (mask_address (snd entry) (fst entry)) (snd entry) route_identifier.

Lemma RouteMatches_covers id entry address :
  bytes_of 4 (fst entry) -> bytes_of 4 address -> snd entry <= 32 ->
  RouteMatches (route_of id entry) address = true <-> covers (fst entry) (snd entry) address.
Proof.
  destruct entry as [network prefix]. cbn [fst snd]. intros [Ln Hn] [La Ha] Hp.
  unfold RouteMatches. cbn [nr_network nr_prefix_length route_of]. cbn [fst snd].
  assert (length (mask_address prefix network) = 4%nat) as -> by (unfold mask_address; by rewrite length_imap).
  rewrite forallb_forall. split.
  - intros H i Hi. destruct (bit_split i) as (n & j & Hj & ->). rewrite !bit_at_split by done.
    specialize (H n ltac:(apply in_seq; lia)). cbv zeta in H. apply Z.eqb_eq in H.
    rewrite byte_at_mask, <- Z.land_assoc, Z.land_diag in H by lia.
    apply (proj1 (prefix_mask_bits _ _ _ _ (byte_at_ok network n Hn) (byte_at_ok address n Ha)) H); lia.
  - intros H n Hn'. apply in_seq in Hn'. apply Z.eqb_eq. rewrite byte_at_mask, <- Z.land_assoc, Z.land_diag by lia.
    apply (prefix_mask_bits _ _ _ _ (byte_at_ok network n Hn) (byte_at_ok address n Ha)). intros j Hj Hlt. specialize (H (8 * n + Z.to_nat j)%nat ltac:(lia)).
    rewrite !bit_at_split in H by lia. by rewrite Z2Nat.id in H by lia.
Qed.

(** ** The entries of a configuration *)

(** The pieces between commas, without leading blanks and empty pieces. *)
Definition nonempty (item : bytes) : bool := negb (length item =? 0)%nat.
Definition policy_items (text : bytes) : list bytes :=
  List.filter nonempty (trim_front <$> split_on (char ",") text).
Definition policy_entries (text : bytes) : option (list (bytes * Z)) := mapM ParseIpv4Cidr (policy_items text).

Lemma policy_items_separator c text : is_separator c = true -> policy_items (c :: text) = policy_items text.
Proof.
  unfold is_separator, policy_items. cbn [split_on]. intros [Hc|Hc]%orb_true_iff.
  - assert (c =? char "," = false) as ->.
    { apply Z.eqb_neq. intros ->. done. }
    destruct (split_on (char ",") text) as [|item items] eqn:E; [by destruct text; cbn in E; repeat case_match|].
    cbn [fmap list_fmap trim_front]. by rewrite Hc.
  - by rewrite Hc.
Qed.
Lemma policy_items_skip text : policy_items (skip_separators text) = policy_items text.
Proof.
  induction text as [|c text IH]; [done|]. cbn [skip_separators]. case_if; [|done].
  by rewrite IH, policy_items_separator.
Qed.
Lemma skip_separators_head text : match skip_separators text with c :: _ => is_separator c = false | [] => True end.
Proof. induction text as [|c text IH]; [done|]. cbn [skip_separators]. by case_if. Qed.

Lemma split_on_until text : split_on (char ",") text
  = until_comma text :: match drop (length (until_comma text)) text with
                        | [] => []
                        | _ :: rest => split_on (char ",") rest
                        end.
Proof.
  induction text as [|c text IH]; [done|]. cbn [split_on until_comma]. case_if; [done|]. rewrite IH. done.
Qed.
(** The first item of a text that does not begin with a separator. *)
Lemma policy_items_first text : nonempty (until_comma text) = true ->
  match text with c :: _ => is_separator c = false | [] => True end ->
  policy_items text = until_comma text :: policy_items (drop (length (until_comma text)) text).
Proof.
  intros Hne Hc. unfold policy_items at 1. rewrite split_on_until. cbn [fmap list_fmap List.filter].
  assert (trim_front (until_comma text) = until_comma text) as ->.
  { destruct text as [|c text]; [done|]. apply orb_false_iff in Hc as [Hb Hcomma]. cbn [until_comma].
    rewrite Hcomma. cbn [trim_front]. by rewrite Hb. }
  rewrite Hne. f_equal. destruct (drop (length (until_comma text)) text) as [|d rest] eqn:E; [done|].
  assert (is_separator d = true) as Hd; [|by rewrite policy_items_separator].
  clear Hne Hc. revert E. induction text as [|c text IH]; [done|]. cbn [until_comma].
  destruct (c =? char ",") eqn:Ec; [|exact IH]. intros [= <- <-]. unfold is_separator. by rewrite Ec, orb_true_r.
Qed.

Definition routes_from (id : Z) (entries : list (bytes * Z)) : list NormalizedRoute :=
  imap (fun i => route_of (id + Z.of_nat i)) entries.
Lemma routes_from_cons id entry entries :
  routes_from id (entry :: entries) = route_of id entry :: routes_from (id + 1) entries.
Proof.
  unfold routes_from. cbn [imap]. rewrite Z.add_0_r. f_equal. apply imap_ext. intros i x _. cbn. f_equal. lia.
Qed.

Lemma routes_loop_entries fuel text id acc routes :
  routes_loop fuel text id acc = (true, routes) ->
  exists entries, policy_entries text = Some entries /\ routes = acc ++ routes_from id entries /\
    (length routes <= Nat.max (length acc) MaximumPolicyRoutes)%nat.
Proof.
  revert text id acc. induction fuel as [|fuel IH]; intros text id acc; [done|]. cbn [routes_loop].
  destruct (Nat.eqb_spec (length text) 0) as [E0|E0].
  { destruct text; [|done]. intros [= <-]. exists []. split_and!; [done|by rewrite app_nil_r|lia]. }
  destruct (_ || _) eqn:Eg; [done|]. apply orb_false_iff in Eg as [ [Hne Hlen]%orb_false_iff Hroom].
  destruct (ParseIpv4Cidr (until_comma (skip_separators text))) as [ [address prefix]|] eqn:Ep; [|done].
  intros (entries & Ee & -> & Hl)%IH. exists ((address, prefix) :: entries).
  bool_prop. split_and!.
  - unfold policy_entries. rewrite <- policy_items_skip, policy_items_first.
    + cbn [mapM]. rewrite Ep. cbn [mbind option_bind]. fold (policy_entries (drop (length (until_comma (skip_separators text))) (skip_separators text))).
      by rewrite Ee.
    + unfold nonempty. by rewrite (proj2 (Nat.eqb_neq _ _)).
    + apply skip_separators_head.
  - rewrite <- app_assoc. f_equal. cbn [app]. by rewrite routes_from_cons.
  - rewrite !length_app in *. cbn [length] in *. unfold MaximumPolicyRoutes in *. lia.
Qed.

Lemma policy_entries_ok text entries : policy_entries text = Some entries ->
  Forall (fun entry => bytes_of 4 (fst entry) /\ 0 <= snd entry <= 32) entries.
Proof.
  unfold policy_entries. rewrite mapM_Some. intros H. apply Forall_forall. intros [address prefix] Hin.
  apply list_elem_of_lookup in Hin as [i Hi]. eapply Forall2_lookup_r in H as (item & _ & E); [|exact Hi].
  by apply ParseIpv4Cidr_ok in E.
Qed.

(** ** Sorted routes *)

Definition not_longer (lhs rhs : NormalizedRoute) : Prop := nr_prefix_length rhs <= nr_prefix_length lhs.

Lemma insert_route_perm route routes : insert_route route routes ≡ₚ route :: routes.
Proof.
  induction routes as [|first rest IH]; [done|]. cbn [insert_route]. case_if; [done|].
  rewrite IH. apply Permutation_swap.
Qed.
Lemma sort_routes_perm routes : sort_routes routes ≡ₚ routes.
Proof. induction routes as [|route routes IH]; [done|]. cbn. by rewrite insert_route_perm, IH. Qed.

Lemma route_before_longer lhs rhs : route_before lhs rhs = true -> not_longer lhs rhs.
Proof. unfold route_before, not_longer. case_if; bool_prop; [intros; bool_prop; lia|lia]. Qed.
Lemma route_after_longer lhs rhs : route_before lhs rhs = false -> not_longer rhs lhs.
Proof. unfold route_before, not_longer. case_if; bool_prop; [intros; bool_prop; lia|lia]. Qed.

Lemma insert_route_sorted route routes :
  StronglySorted not_longer routes -> StronglySorted not_longer (insert_route route routes).
Proof.
  induction 1 as [|first rest Hrest IH Hfirst]; cbn [insert_route]; [repeat constructor|].
  destruct (route_before route first) eqn:E.
  - apply route_before_longer in E. constructor; [by constructor|]. constructor; [done|].
    eapply Forall_impl; [exact Hfirst|]. unfold not_longer in *. cbn. intros; lia.
  - apply route_after_longer in E. constructor; [done|]. rewrite insert_route_perm. by constructor.
Qed.
Lemma sort_routes_sorted routes : StronglySorted not_longer (sort_routes routes).
Proof. induction routes as [|route routes IH]; [constructor|]. by apply insert_route_sorted. Qed.

Lemma find_route_first routes address : StronglySorted not_longer routes ->
  match find_route routes address with
  | Some route => route ∈ routes /\ RouteMatches route address = true /\
      forall other, other ∈ routes -> RouteMatches other address = true -> not_longer route other
  | None => forall other, other ∈ routes -> RouteMatches other address = false
  end.
Proof.
  induction 1 as [|first rest _ IH Hfirst]; cbn [find_route]; [by intros ? ?%elem_of_nil|].
  destruct (RouteMatches first address) eqn:E.
  - split_and!; [by left|done|]. intros other [->|Hin]%elem_of_cons _; [unfold not_longer; lia|].
    by rewrite Forall_forall in Hfirst; apply Hfirst.
  - destruct (find_route rest address) as [route|].
    + destruct IH as (Hin & Hm & Hall). split_and!; [by right|done|].
      intros other [->|Hother]%elem_of_cons Ho; [congruence|by apply Hall].
    + intros other [->|Hother]%elem_of_cons; [done|by apply IH].
Qed.

(** What a successful normalisation installs. *)
Lemma normalized input p p' : ParseAndNormalizePolicy input p = (true, p') ->
  exists configuration entries, ti_configuration input = Some configuration /\
    policy_entries (c_string (cf_allowed_ips configuration)) = Some entries /\
    take (m_route_count p') (m_routes p') = sort_routes (routes_from 1 entries) /\
    (m_route_count p' <= MaximumPolicyRoutes)%nat.
Proof.
  unfold ParseAndNormalizePolicy. destruct (ti_configuration input) as [configuration|]; [|done].
  case_if; [done|]. case_if; [done|]. destruct (ParseIpv4Cidr (c_string (cf_address configuration))) as [ [source n]|]; [|done].
  destruct (routes_loop _ _ _ _) as [complete routes] eqn:E. case_if; [done|]. intros [= <-].
  bool_prop. subst complete. apply routes_loop_entries in E as (entries & Ee & -> & Hl).
  exists configuration, entries. cbn [app length] in *. split_and!; [done|done| |].
  - cbn -[sort_routes route_array]. unfold route_array. rewrite take_app_le; [|by rewrite sort_routes_perm].
    rewrite take_ge; [done|by rewrite sort_routes_perm].
  - cbn. unfold MaximumPolicyRoutes in *. lia.
Qed.

Lemma routes_from_elem id entries route : route ∈ routes_from id entries ->
  exists i entry, entry ∈ entries /\ route = route_of i entry.
Proof.
  intros (i & Hi)%list_elem_of_lookup. unfold routes_from in Hi. rewrite list_lookup_imap in Hi.
  destruct (entries !! i) as [entry|] eqn:E; [|done]. injection Hi as <-. eexists _, entry. split; [|done].
  by eapply list_elem_of_lookup_2.
Qed.
Lemma routes_from_has id entries entry : entry ∈ entries -> exists i, route_of i entry ∈ routes_from id entries.
Proof.
  intros (i & Hi)%list_elem_of_lookup. exists (id + Z.of_nat i). apply list_elem_of_lookup. exists i.
  unfold routes_from. by rewrite list_lookup_imap, Hi.
Qed.

(** Route selection is longest-prefix match on the configuration.  Once a policy
    is installed, the route selected for an address is that of an entry of the
    AllowedIPs list which covers the address, and no entry that covers it has a
    longer prefix; no route is selected exactly when no entry covers the address. *)
Theorem selected_route_longest (input : TunnelPolicyInput) (p p' : Policy) (address : bytes) :
  ParseAndNormalizePolicy input p = (true, p') -> bytes_of 4 address ->
  exists configuration entries, ti_configuration input = Some configuration /\
    policy_entries (c_string (cf_allowed_ips configuration)) = Some entries /\
    match SelectRoute address (p' <| m_policy_available := true |>) with
    | Some route => exists network id, (network, nr_prefix_length route) ∈ entries /\
        route = route_of id (network, nr_prefix_length route) /\ covers network (nr_prefix_length route) address /\
        forall other length, (other, length) ∈ entries -> covers other length address ->
          length <= nr_prefix_length route
    | None => forall other length, (other, length) ∈ entries -> ~ covers other length address
    end.
Proof.
  intros H Ha. apply normalized in H as (configuration & entries & Ec & Ee & Er & _).
  exists configuration, entries. split; [done|]. split; [done|]. apply policy_entries_ok in Ee as Hok.
  rewrite Forall_forall in Hok. unfold SelectRoute. cbn. rewrite Er.
  assert (forall i entry, entry ∈ entries ->
    RouteMatches (route_of i entry) address = true <-> covers (fst entry) (snd entry) address) as Hm.
  { intros i entry [H4 Hp]%Hok. apply RouteMatches_covers; [done|done|lia]. }
  pose proof (find_route_first _ address (sort_routes_sorted (routes_from 1 entries))) as Hf.
  destruct (find_route _ address) as [route|].
  - destruct Hf as (Hin & Hmatch & Hall). rewrite sort_routes_perm in Hin.
    apply routes_from_elem in Hin as (i & [network prefix] & Hin & ->).
    exists network, i. cbn [nr_prefix_length route_of fst snd]. split_and!; [done|done|by apply (Hm i _ Hin) in Hmatch|].
    intros other len Hother Hcover. destruct (routes_from_has 1 _ _ Hother) as [j Hj].
    apply (Hm j (other, len) Hother) in Hcover. rewrite <- sort_routes_perm in Hj. by apply (Hall _ Hj).
  - intros other len Hother Hcover. destruct (routes_from_has 1 _ _ Hother) as [j Hj].
    apply (Hm j (other, len) Hother) in Hcover. rewrite <- sort_routes_perm in Hj. by rewrite Hf in Hcover.
Qed.

(** Two overlapping prefixes and the default route. *)
Definition policy_config : PeerConfigEntry :=
  mk_config_entry (zeros 32) (chars "10.1.0.2/24" ++ zeros 37) [49] (zeros 64) (zeros 128) (zeros 45) (zeros 64)
    (chars "0.0.0.0/0, 10.0.0.0/8,10.1.2.0/23 " ++ zeros 94) 0 0 0 0 true.
Definition policy_input : TunnelPolicyInput := mk_policy_input (Some policy_config) (mk_peer_identity 0 1) true.

Lemma selected_route_longest_witness : exists entries,
  policy_entries (c_string (cf_allowed_ips policy_config)) = Some entries /\
  SelectRoute [10; 1; 3; 9] ((snd (ParseAndNormalizePolicy policy_input policy_init)) <| m_policy_available := true |>)
    = Some (mk_route [10; 1; 2; 0] 23 3) /\
  forall other length, (other, length) ∈ entries -> covers other length [10; 1; 3; 9] -> length <= 23.
Proof.
  destruct (selected_route_longest policy_input policy_init (snd (ParseAndNormalizePolicy policy_input policy_init))
    [10; 1; 3; 9]) as (configuration & entries & Ec & Ee & H).
  - vm_compute. reflexivity.
  - apply (bool_decide_unpack _). vm_compute. exact I.
  - exists entries. injection Ec as <-. split; [exact Ee|].
    assert (SelectRoute [10; 1; 3; 9] ((snd (ParseAndNormalizePolicy policy_input policy_init)) <| m_policy_available := true |>)
      = Some (mk_route [10; 1; 2; 0] 23 3)) as E by (vm_compute; reflexivity).
    split; [exact E|]. rewrite E in H. destruct H as (network & id & _ & _ & _ & H). exact H.
Defined.
