(* ===== verification/FlowPlane.v ===== *)
(** * The tunnel flow plane: state and operations

    Models [wgnx/tunnel_protocol.hpp] and the class [TunnelFlowPlane] of
    [runtime/tunnel_flow_plane.hpp] and [runtime/tunnel_flow_plane.cpp], its routing
    policy apart (FlowPolicy.v): four clients own connected UDP flows; inbound
    datagrams wait in slabs, announced by records in the completion ring of their
    client; the address tuple of a closed flow is quarantined.  A pointer to a
    client or flow slot is its index.  The notifier of a client is the context it is
    called with; [m_notified] lists the calls made.  Logging is left out. *)

From S2P Require Import Prelude Endian Messages PacketQueue Platform Session Base64 InnerPacket Timers.
From S2P Require Import Crypto Device Data Identity Admission Handshake Peer PeerController RuntimeEvents.
From S2P Require Import FlowPolicy.
Local Open Scope Z_scope.

(** ** The protocol of the tunnel service *)

Definition MaximumClientContexts : nat := 4.
Definition MaximumFlowsPerClient : nat := 4.
Definition MaximumFlows : nat := MaximumClientContexts * MaximumFlowsPerClient.
Definition MaximumUdpPayloadStorageBytes : nat := MaxInnerIpPacketSize - 20 - 8.
Definition InboundPacketSlabCount : nat := 16.
Definition MaximumInboundDatagramsPerFlow : Z := 4.
Definition CompletionQueueCapacity : nat := 16.
Definition ReverseTupleQuarantineCapacity : nat := MaximumFlows.

Inductive ProtocolStatus :=
  | ProtocolStatus_Success
  | ProtocolStatus_MalformedInput
  | ProtocolStatus_UnsupportedOperation
  | ProtocolStatus_IncompatibleApiVersion
  | ProtocolStatus_RouteNotCovered
  | ProtocolStatus_PeerUnavailable
  | ProtocolStatus_TransportUnavailable
  | ProtocolStatus_FlowQuotaExhausted
  | ProtocolStatus_DatagramTooLarge
  | ProtocolStatus_QueueFull
  | ProtocolStatus_StaleHandle
  | ProtocolStatus_FlowClosed
  | ProtocolStatus_QueueEmpty
  | ProtocolStatus_OutputBufferTooSmall
  | ProtocolStatus_ReverseTupleExhausted
  | ProtocolStatus_TunnelBlockedByPolicy.
#[export] Instance ProtocolStatus_eq_dec : EqDecision ProtocolStatus.
Proof. solve_decision. Defined.
Inductive FlowState := FlowState_Open | FlowState_Suspended | FlowState_Closing | FlowState_Closed.
Inductive FlowTerminalReason :=
  | FlowTerminalReason_None
  | FlowTerminalReason_ClientClosed
  | FlowTerminalReason_PeerDeactivated
  | FlowTerminalReason_PeerActivationChanged
  | FlowTerminalReason_PolicyInvalidated
  | FlowTerminalReason_SysmoduleShutdown.
Inductive CompletionType :=
  | CompletionType_InboundDatagram
  | CompletionType_FlowStateChanged
  | CompletionType_PolicyChanged
  | CompletionType_Writable.
#[export] Instance CompletionType_eq_dec : EqDecision CompletionType.
Proof. solve_decision. Defined.

Record Ipv4Endpoint := mk_ipv4_endpoint { ie_address : bytes; ie_port : Z; ie_reserved : Z }.
Definition ipv4_endpoint_init : Ipv4Endpoint := mk_ipv4_endpoint (zeros 4) 0 0.
Record OpenConnectedUdpFlowRequest := mk_open_request { or_remote : Ipv4Endpoint; or_diagnostic_tag : Z }.
Record OpenConnectedUdpFlowResult := mk_open_result {
  ow_status : ProtocolStatus;
  ow_flow : Z;
  ow_peer_activation_generation : Z;
  ow_routing_policy_generation : Z
}.
#[export] Instance eta_open_result : Eta OpenConnectedUdpFlowResult := fun r =>
  mk_open_result (ow_status r) (ow_flow r) (ow_peer_activation_generation r) (ow_routing_policy_generation r).
Record DatagramDescriptor := mk_descriptor {
  dd_flow : Z;
  dd_payload_offset : Z;
  dd_payload_size : Z;
  dd_client_tag : Z
}.
Record CompletionRecord := mk_completion {
  cr_type : CompletionType;
  cr_status : ProtocolStatus;
  cr_flow : Z;
  cr_remote : Ipv4Endpoint;
  cr_payload_offset : Z;
  cr_payload_size : Z;
  cr_peer_activation_generation : Z;
  cr_routing_policy_generation : Z;
  cr_flow_state : FlowState;
  cr_terminal_reason : FlowTerminalReason
}.
#[export] Instance eta_completion : Eta CompletionRecord := fun r =>
  mk_completion (cr_type r) (cr_status r) (cr_flow r) (cr_remote r) (cr_payload_offset r) (cr_payload_size r)
    (cr_peer_activation_generation r) (cr_routing_policy_generation r) (cr_flow_state r) (cr_terminal_reason r).
Definition completion_init : CompletionRecord :=
  mk_completion CompletionType_InboundDatagram ProtocolStatus_Success 0 ipv4_endpoint_init 0 0 0 0
    FlowState_Open FlowTerminalReason_None.
Record FlowStateResult := mk_flow_state {
  fs_status : ProtocolStatus;
  fs_state : FlowState;
  fs_terminal_reason : FlowTerminalReason;
  fs_peer_activation_generation : Z;
  fs_routing_policy_generation : Z;
  fs_advertised_local : Ipv4Endpoint;
  fs_diagnostic_tag : Z
}.

(** ** The state of the plane *)

Record TunnelClientId := mk_client_id { tc_slot : Z; tc_generation : Z }.
Definition client_id_init : TunnelClientId := mk_client_id 255 0.
Definition client_IsValid (client : TunnelClientId) : bool :=
  (tc_slot client <? Z.of_nat MaximumClientContexts) && negb (tc_generation client =? 0).

Record TunnelTransportAvailability := mk_availability { protocol_available : bool; staging_available : bool }.

Definition InvalidSlabSlot : nat := 255.
Record InboundSlab := mk_slab { sl_bytes : bytes; sl_size : Z; sl_allocated : bool }.
#[export] Instance eta_slab : Eta InboundSlab := fun r => mk_slab (sl_bytes r) (sl_size r) (sl_allocated r).
Definition slab_init : InboundSlab := mk_slab (zeros MaximumUdpPayloadStorageBytes) 0 false.

Record CompletionEntry := mk_entry { en_record : CompletionRecord; en_slab : nat }.
#[export] Instance eta_entry : Eta CompletionEntry := fun r => mk_entry (en_record r) (en_slab r).
Definition entry_init : CompletionEntry := mk_entry completion_init InvalidSlabSlot.

Record FlowSlot := mk_flow {
  fl_allocated : bool;
  fl_closed : bool;
  fl_pending : bool;
  fl_client_slot : Z;
  fl_client_generation : Z;
  fl_allocation_generation : Z;
  fl_peer : PeerIdentity;
  fl_policy_generation : Z;
  fl_remote : Ipv4Endpoint;
  fl_tunnel_source : bytes;
  fl_virtual_source_port : Z;
  fl_inbound_occupancy : Z;
  fl_created_at : Z;
  fl_last_activity_at : Z;
  fl_diagnostic_tag : Z;
  fl_terminal_reason : FlowTerminalReason;
  fl_writable_waiter : bool;
  fl_send_attempts : Z;
  fl_send_admitted : Z;
  fl_send_queue_full : Z;
  fl_inbound_delivered : Z;
  fl_inbound_dropped : Z
}.
#[export] Instance eta_flow : Eta FlowSlot := fun r =>
  mk_flow (fl_allocated r) (fl_closed r) (fl_pending r) (fl_client_slot r) (fl_client_generation r)
    (fl_allocation_generation r) (fl_peer r) (fl_policy_generation r) (fl_remote r) (fl_tunnel_source r)
    (fl_virtual_source_port r) (fl_inbound_occupancy r) (fl_created_at r) (fl_last_activity_at r)
    (fl_diagnostic_tag r) (fl_terminal_reason r) (fl_writable_waiter r) (fl_send_attempts r)
    (fl_send_admitted r) (fl_send_queue_full r) (fl_inbound_delivered r) (fl_inbound_dropped r).
Definition flow_init : FlowSlot :=
  mk_flow false false false 255 0 0 (mk_peer_identity 0 0) 0 ipv4_endpoint_init (zeros 4) 0 0 0 0 0
    FlowTerminalReason_None false 0 0 0 0 0.

Record ClientSlot := mk_client {
  cs_allocated : bool;
  cs_generation : Z;
  cs_notifier : option Z;
  cs_completions : list CompletionEntry;
  cs_completion_head : nat;
  cs_completion_count : nat;
  cs_data_completion_count : nat
}.
#[export] Instance eta_client : Eta ClientSlot := fun r =>
  mk_client (cs_allocated r) (cs_generation r) (cs_notifier r) (cs_completions r) (cs_completion_head r)
    (cs_completion_count r) (cs_data_completion_count r).
Definition client_init : ClientSlot :=
  mk_client false 0 None (replicate CompletionQueueCapacity entry_init) 0 0 0.

Record ReverseTupleTombstone := mk_tombstone {
  ts_occupied : bool;
  ts_tunnel_destination : bytes;
  ts_tunnel_destination_port : Z;
  ts_remote : Ipv4Endpoint;
  ts_expires_at : Z
}.
Definition tombstone_init : ReverseTupleTombstone := mk_tombstone false (zeros 4) 0 ipv4_endpoint_init 0.

Record TunnelFlowPlane := mk_flow_plane {
  m_clients : list ClientSlot;
  m_flows : list FlowSlot;
  m_inbound_slabs : list InboundSlab;
  m_tombstones : list ReverseTupleTombstone;
  m_policy : Policy;
  m_policy_generation : Z;
  m_next_policy_generation : Z;
  m_next_client_generation : Z;
  m_next_flow_generation : Z;
  m_next_virtual_source_port : Z;
  m_notified : list Z
}.
#[export] Instance eta_flow_plane : Eta TunnelFlowPlane := fun r =>
  mk_flow_plane (m_clients r) (m_flows r) (m_inbound_slabs r) (m_tombstones r) (m_policy r)
    (m_policy_generation r) (m_next_policy_generation r) (m_next_client_generation r)
    (m_next_flow_generation r) (m_next_virtual_source_port r) (m_notified r).
Definition flow_plane_init : TunnelFlowPlane :=
  mk_flow_plane (replicate MaximumClientContexts client_init) (replicate MaximumFlows flow_init)
    (replicate InboundPacketSlabCount slab_init) (replicate ReverseTupleQuarantineCapacity tombstone_init)
    policy_init 1 2 1 1 49152 [].

Definition DataCompletionCapacity : nat := CompletionQueueCapacity - (1 + 2 * MaximumFlowsPerClient).
Definition ReverseTupleQuarantineNs : Z := 60 * 1000000000.

(** ** Helpers *)

Definition allocate_once (next : Z) : Z * Z :=
  let following := u32 (next + 1) in (next, if following =? 0 then 1 else following).
(** The recursive call finds a counter that is not zero. *)
Definition AllocateNonZero (next : Z) : Z * Z :=
  let '(value, next) := allocate_once next in
  if value =? 0 then allocate_once next else (value, next).

Definition EndpointEqual (lhs rhs : Ipv4Endpoint) : bool :=
  (ie_port lhs =? ie_port rhs) && bool_decide (ie_address lhs = ie_address rhs).
Definition IsZeroEndpoint (endpoint : Ipv4Endpoint) : bool :=
  (ie_port endpoint =? 0) && forallb (fun value => value =? 0) (ie_address endpoint).

(** [std::find_if], as an index. *)
Fixpoint find_index {A} (p : A -> bool) (l : list A) : option nat :=
  match l with
  | [] => None
  | a :: l => if p a then Some 0%nat else S <$> find_index p l
  end.
Definition count_if {A} (p : A -> bool) (l : list A) : nat := length (List.filter p l).
(** A loop over the flow slots. *)
Definition for_flows (body : nat -> TunnelFlowPlane -> TunnelFlowPlane) (t : TunnelFlowPlane) : TunnelFlowPlane :=
  foldl (fun t index => body index t) t (seq 0 MaximumFlows).

Definition flow_at (slot : nat) (t : TunnelFlowPlane) : FlowSlot := default flow_init (m_flows t !! slot).
Definition client_at (slot : nat) (t : TunnelFlowPlane) : ClientSlot := default client_init (m_clients t !! slot).
Definition slab_at (slot : nat) (t : TunnelFlowPlane) : InboundSlab :=
  default slab_init (m_inbound_slabs t !! slot).
Definition set_flow (slot : nat) (flow : FlowSlot) (t : TunnelFlowPlane) : TunnelFlowPlane :=
  t <| m_flows ::= <[slot := flow]> |>.
Definition set_client (slot : nat) (client : ClientSlot) (t : TunnelFlowPlane) : TunnelFlowPlane :=
  t <| m_clients ::= <[slot := client]> |>.

Definition client_of (flow : FlowSlot) : TunnelClientId :=
  mk_client_id (fl_client_slot flow) (fl_client_generation flow).

(** ** Clients, flows and handles *)

(** The index of the client's slot. *)
Definition FindClient (client : TunnelClientId) (t : TunnelFlowPlane) : option nat :=
  if negb (client_IsValid client) then None
  else
    let slot := Z.to_nat (tc_slot client) in
    if cs_allocated (client_at slot t) && (cs_generation (client_at slot t) =? tc_generation client)
    then Some slot else None.

Definition MakeFlowHandle (flow_slot : nat) (flow : FlowSlot) : Z :=
  let low := Z.lor (Z.shiftl (fl_client_slot flow) 4) (Z.of_nat flow_slot) in
  let middle := Z.shiftl (Z.land (fl_allocation_generation flow) 16777215) 8 in
  let high := Z.shiftl (Z.land (fl_client_generation flow) 4294967295) 32 in
  Z.lor (Z.lor high middle) low.

(** The flow slot, its generation, the client slot and its generation. *)
Definition DecodeFlowHandle (handle : Z) : option (nat * Z * Z * Z) :=
  if handle =? 0 then None
  else
    let encoded_slot := Z.land handle 15 in
    let client_slot := Z.land (Z.shiftr handle 4) 3 in
    if (Z.of_nat MaximumFlows <=? encoded_slot) || (Z.of_nat MaximumClientContexts <=? client_slot) then None
    else
      let generation := Z.land (Z.shiftr handle 8) 16777215 in
      let client_generation := u32 (Z.shiftr handle 32) in
      if negb (generation =? 0) && negb (client_generation =? 0)
      then Some (Z.to_nat encoded_slot, generation, client_slot, client_generation) else None.

Definition FindFlow (client : TunnelClientId) (handle : Z) (t : TunnelFlowPlane) : option nat :=
  match FindClient client t, DecodeFlowHandle handle with
  | Some _, Some (slot, generation, handle_client_slot, handle_client_generation) =>
      if negb (handle_client_slot =? tc_slot client) || negb (handle_client_generation =? tc_generation client)
      then None
      else
        let flow := flow_at slot t in
        if fl_allocated flow && (fl_allocation_generation flow =? generation)
           && (fl_client_slot flow =? tc_slot client) && (fl_client_generation flow =? tc_generation client)
        then Some slot else None
  | _, _ => None
  end.

(** ** Slabs *)

Definition AllocateInboundSlab (t : TunnelFlowPlane) : nat * TunnelFlowPlane :=
  match find_index (fun slab => negb (sl_allocated slab)) (m_inbound_slabs t) with
  | Some index => (index, t <| m_inbound_slabs ::= alter (fun s => s <| sl_allocated := true |>) index |>)
  | None => (InvalidSlabSlot, t)
  end.
(** [<[_ := _]>] does nothing out of range, as the bounds check of the code. *)
Definition ReleaseInboundSlab (slot : nat) (t : TunnelFlowPlane) : TunnelFlowPlane :=
  t <| m_inbound_slabs ::= <[slot := slab_init]> |>.

(** ** The completion ring *)

Definition CompletionAt (client : ClientSlot) (index : nat) : option CompletionEntry :=
  if (index <? cs_completion_count client)%nat
  then cs_completions client !! ((cs_completion_head client + index) mod length (cs_completions client))%nat
  else None.
(** The entries a loop over the ring visits. *)
Definition ring_entries (client : ClientSlot) : list CompletionEntry :=
  omap (CompletionAt client) (seq 0 (cs_completion_count client)).
Definition ring_insert (client : ClientSlot) : nat :=
  ((cs_completion_head client + cs_completion_count client) mod length (cs_completions client))%nat.

Definition RemoveCompletionFront (client : ClientSlot) : option (CompletionEntry * ClientSlot) :=
  if (cs_completion_count client =? 0)%nat then None
  else
    entry ← cs_completions client !! cs_completion_head client;
    Some (entry, client
      <| cs_data_completion_count ::= fun n =>
           if negb (en_slab entry =? InvalidSlabSlot)%nat && (0 <? n)%nat then (n - 1)%nat else n |>
      <| cs_completions ::= <[cs_completion_head client := entry_init]> |>
      <| cs_completion_head := ((cs_completion_head client + 1) mod length (cs_completions client))%nat |>
      <| cs_completion_count := (cs_completion_count client - 1)%nat |>).

Definition NotifyIfNeeded (client : ClientSlot) (was_empty : bool) (t : TunnelFlowPlane) : TunnelFlowPlane :=
  match cs_notifier client with
  | Some context => if was_empty then t <| m_notified ::= fun l => l ++ [context] |> else t
  | None => t
  end.

(** The loop over the ring that keeps all entries but the datagrams of a flow. *)
Fixpoint retain_loop (handle : Z) (entries retained : list CompletionEntry) (retained_data_count : nat)
    (t : TunnelFlowPlane) : list CompletionEntry * nat * TunnelFlowPlane :=
  match entries with
  | [] => (retained, retained_data_count, t)
  | entry :: entries =>
      if (cr_flow (en_record entry) =? handle) && negb (en_slab entry =? InvalidSlabSlot)%nat then
        retain_loop handle entries retained retained_data_count (ReleaseInboundSlab (en_slab entry) t)
      else
        retain_loop handle entries (retained ++ [entry])
          (if negb (en_slab entry =? InvalidSlabSlot)%nat then S retained_data_count else retained_data_count) t
  end.
Definition RemoveFlowCompletions (flow_slot client_slot : nat) (t : TunnelFlowPlane) : TunnelFlowPlane :=
  let client := client_at client_slot t in
  let '(retained, retained_data_count, t) :=
    retain_loop (MakeFlowHandle flow_slot (flow_at flow_slot t)) (ring_entries client) [] 0 t in
  set_client client_slot
    (client <| cs_completions := retained ++ replicate (CompletionQueueCapacity - length retained) entry_init |>
            <| cs_completion_head := 0%nat |> <| cs_completion_count := length retained |>
            <| cs_data_completion_count := retained_data_count |>) t.

(** The first control record of the same type and flow. *)
Definition coalesces (completion : CompletionRecord) (entry : CompletionEntry) : bool :=
  (en_slab entry =? InvalidSlabSlot)%nat && bool_decide (cr_type (en_record entry) = cr_type completion)
  && (cr_flow (en_record entry) =? cr_flow completion).
Definition EnqueueControlCompletion (client_id : TunnelClientId) (completion : CompletionRecord)
    (t : TunnelFlowPlane) : TunnelFlowPlane :=
  match FindClient client_id t with
  | None => t
  | Some slot =>
      let client := client_at slot t in
      match find_index (coalesces completion) (ring_entries client) with
      | Some index =>
          set_client slot (client <| cs_completions ::=
            alter (fun entry => entry <| en_record := completion |>)
              ((cs_completion_head client + index) mod length (cs_completions client))%nat |>) t
      | None =>
          if (CompletionQueueCapacity <=? cs_completion_count client)%nat then t
          else
            NotifyIfNeeded client (cs_completion_count client =? 0)%nat
              (set_client slot (client
                 <| cs_completions ::= <[ring_insert client := mk_entry completion InvalidSlabSlot]> |>
                 <| cs_completion_count ::= S |>) t)
      end
  end.

Definition EnqueueDataCompletion (flow_slot inbound_slab_slot : nat) (t : TunnelFlowPlane)
    : bool * TunnelFlowPlane :=
  let flow := flow_at flow_slot t in
  let refused :=
    (false, set_flow flow_slot (flow <| fl_inbound_occupancy ::= fun n => if 0 <? n then n - 1 else n |>)
              (ReleaseInboundSlab inbound_slab_slot t)) in
  match FindClient (client_of flow) t with
  | None => refused
  | Some slot =>
      let client := client_at slot t in
      if (DataCompletionCapacity <=? cs_data_completion_count client)%nat
         || (CompletionQueueCapacity <=? cs_completion_count client)%nat then refused
      else
        let record := mk_completion CompletionType_InboundDatagram ProtocolStatus_Success
                        (MakeFlowHandle flow_slot flow) (fl_remote flow) 0 (sl_size (slab_at inbound_slab_slot t))
                        (pi_activation_generation (fl_peer flow)) (fl_policy_generation flow)
                        FlowState_Open FlowTerminalReason_None in
        (true, NotifyIfNeeded client (cs_completion_count client =? 0)%nat
                 (set_client slot (client
                    <| cs_completions ::= <[ring_insert client := mk_entry record inbound_slab_slot]> |>
                    <| cs_completion_count ::= S |> <| cs_data_completion_count ::= S |>) t))
  end.

Definition EnqueuePolicyChanged (t : TunnelFlowPlane) : TunnelFlowPlane :=
  foldl (fun t index =>
      let client := client_at index t in
      if negb (cs_allocated client) then t
      else
        EnqueueControlCompletion (mk_client_id (Z.of_nat index) (cs_generation client))
          (completion_init <| cr_type := CompletionType_PolicyChanged |> <| cr_status := ProtocolStatus_Success |>
             <| cr_routing_policy_generation := m_policy_generation t |>) t)
    t (seq 0 MaximumClientContexts).

(** ** Quarantined tuples *)

Definition ClearExpiredTombstones (now : Z) (t : TunnelFlowPlane) : TunnelFlowPlane :=
  t <| m_tombstones ::= fmap (fun tombstone =>
    if ts_occupied tombstone && (ts_expires_at tombstone <=? now) then tombstone_init else tombstone) |>.
Definition live (flow : FlowSlot) : bool := fl_allocated flow && negb (fl_closed flow).
Definition HasTombstoneReservation (now : Z) (t : TunnelFlowPlane) : bool * TunnelFlowPlane :=
  let t := ClearExpiredTombstones now t in
  (count_if live (m_flows t) <? count_if (fun tombstone => negb (ts_occupied tombstone)) (m_tombstones t), t)%nat.

Definition flow_generation_once (next : Z) : Z * Z :=
  let generation := Z.land next 16777215 in
  let next := u32 (next + 1) in
  (generation, if Z.land next 16777215 =? 0 then u32 (next + 1) else next).
(** The recursive call finds a generation that is not zero. *)
Definition AllocateFlowGeneration (t : TunnelFlowPlane) : Z * TunnelFlowPlane :=
  let '(generation, next) := flow_generation_once (m_next_flow_generation t) in
  let '(generation, next) := if generation =? 0 then flow_generation_once next else (generation, next) in
  (generation, t <| m_next_flow_generation := next |>).

Definition IsTombstoned (tunnel_destination : bytes) (tunnel_destination_port : Z) (remote : Ipv4Endpoint)
    (now : Z) (t : TunnelFlowPlane) : bool :=
  existsb (fun tombstone =>
      ts_occupied tombstone && (now <? ts_expires_at tombstone)
      && bool_decide (ts_tunnel_destination tombstone = tunnel_destination)
      && (ts_tunnel_destination_port tombstone =? tunnel_destination_port)
      && EndpointEqual (ts_remote tombstone) remote) (m_tombstones t).

(** A live flow with the tuple of the tunnel source, [port] and [remote]. *)
Definition tuple_in_use (port : Z) (remote : Ipv4Endpoint) (t : TunnelFlowPlane) : bool :=
  existsb (fun flow =>
      live flow && (fl_virtual_source_port flow =? port)
      && bool_decide (fl_tunnel_source flow = m_tunnel_source (m_policy t))
      && EndpointEqual (fl_remote flow) remote) (m_flows t).
Definition next_port (port : Z) : Z :=
  let port := u16 (port + 1) in if port <? 49152 then 49152 else port.
Fixpoint tuple_loop (tries : nat) (remote : Ipv4Endpoint) (now : Z) (t : TunnelFlowPlane)
    : option Z * TunnelFlowPlane :=
  match tries with
  | O => (None, t)
  | S tries =>
      let port := m_next_virtual_source_port t in
      let t := t <| m_next_virtual_source_port := next_port port |> in
      if negb (tuple_in_use port remote t)
         && negb (IsTombstoned (m_tunnel_source (m_policy t)) port remote now t) then (Some port, t)
      else tuple_loop tries remote now t
  end.
Definition AllocateVirtualTuple (remote : Ipv4Endpoint) (now : Z) (t : TunnelFlowPlane)
    : option Z * TunnelFlowPlane :=
  tuple_loop (Z.to_nat 16384) remote now (ClearExpiredTombstones now t).

Definition QuarantineTuple (flow : FlowSlot) (now : Z) (t : TunnelFlowPlane) : TunnelFlowPlane :=
  if fl_virtual_source_port flow =? 0 then t
  else
    let t := ClearExpiredTombstones now t in
    match find_index (fun tombstone => negb (ts_occupied tombstone)) (m_tombstones t) with
    | None => t
    | Some slot =>
        t <| m_tombstones ::= <[slot := mk_tombstone true (fl_tunnel_source flow) (fl_virtual_source_port flow)
                                          (fl_remote flow) (now + ReverseTupleQuarantineNs)]> |>
    end.

(** ** Closing a flow *)

Definition CloseFlowSlot (flow_slot : nat) (reason : FlowTerminalReason) (now : Z) (notify : bool)
    (t : TunnelFlowPlane) : TunnelFlowPlane :=
  let flow := flow_at flow_slot t in
  if negb (fl_allocated flow) || fl_closed flow then t
  else if fl_pending flow then set_flow flow_slot flow_init t
  else
    let client := client_of flow in
    let t := match FindClient client t with
             | Some client_slot => RemoveFlowCompletions flow_slot client_slot t
             | None => t
             end in
    let t := QuarantineTuple flow now t in
    let t := set_flow flow_slot (flow <| fl_closed := true |> <| fl_terminal_reason := reason |>
                                  <| fl_inbound_occupancy := 0 |> <| fl_last_activity_at := now |>) t in
    if notify then
      EnqueueControlCompletion client
        (mk_completion CompletionType_FlowStateChanged ProtocolStatus_FlowClosed (MakeFlowHandle flow_slot flow)
           ipv4_endpoint_init 0 0 (pi_activation_generation (fl_peer flow)) (fl_policy_generation flow)
           FlowState_Closed reason) t
    else t.

Definition CloseFlow (client : TunnelClientId) (handle now : Z) (t : TunnelFlowPlane)
    : ProtocolStatus * TunnelFlowPlane :=
  match FindFlow client handle t with
  | None => (ProtocolStatus_StaleHandle, t)
  | Some slot =>
      (ProtocolStatus_Success,
       if negb (fl_closed (flow_at slot t)) then CloseFlowSlot slot FlowTerminalReason_ClientClosed now true t
       else t)
  end.

Definition InvalidatePeerActivation (peer : PeerIdentity) (reason : FlowTerminalReason) (now : Z)
    : TunnelFlowPlane -> TunnelFlowPlane :=
  for_flows (fun index t =>
    let flow := flow_at index t in
    if fl_allocated flow && negb (fl_closed flow) && negb (fl_pending flow) && bool_decide (fl_peer flow = peer)
    then CloseFlowSlot index reason now true t else t).

(** ** Clients *)

Definition CreateClient (notifier : option Z) (t : TunnelFlowPlane) : TunnelClientId * TunnelFlowPlane :=
  match find_index (fun client => negb (cs_allocated client)) (m_clients t) with
  | None => (client_id_init, t)
  | Some index =>
      let '(generation, next) := AllocateNonZero (m_next_client_generation t) in
      (mk_client_id (Z.of_nat index) generation,
       set_client index (client_init <| cs_allocated := true |> <| cs_generation := generation |>
                           <| cs_notifier := notifier |>) (t <| m_next_client_generation := next |>))
  end.

(** The loop that drains the ring; it runs once per record. *)
Fixpoint drain_loop (fuel client_slot : nat) (t : TunnelFlowPlane) : TunnelFlowPlane :=
  match fuel with
  | O => t
  | S fuel =>
      match RemoveCompletionFront (client_at client_slot t) with
      | None => t
      | Some (entry, client) =>
          drain_loop fuel client_slot (ReleaseInboundSlab (en_slab entry) (set_client client_slot client t))
      end
  end.
Definition DestroyClient (client : TunnelClientId) (now : Z) (t : TunnelFlowPlane) : TunnelFlowPlane :=
  match FindClient client t with
  | None => t
  | Some slot =>
      let t := for_flows (fun index t =>
                 let flow := flow_at index t in
                 if fl_allocated flow && (fl_client_slot flow =? tc_slot client)
                    && (fl_client_generation flow =? tc_generation client)
                 then CloseFlowSlot index FlowTerminalReason_ClientClosed now false t else t) t in
      set_client slot client_init (drain_loop (cs_completion_count (client_at slot t)) slot t)
  end.

Definition HasCompletions (client : TunnelClientId) (t : TunnelFlowPlane) : bool :=
  match FindClient client t with
  | Some slot => negb (cs_completion_count (client_at slot t) =? 0)%nat
  | None => false
  end.
(** The number of clients that were signalled. *)
Definition SignalAllClientCompletionEvents (t : TunnelFlowPlane) : Z * TunnelFlowPlane :=
  let contexts := omap (fun client => if cs_allocated client then cs_notifier client else None) (m_clients t) in
  (u32 (Z.of_nat (length contexts)), t <| m_notified ::= fun l => l ++ contexts |>).

(** ** The policy *)

Definition RefreshPolicy (input : TunnelPolicyInput) (now : Z) (t : TunnelFlowPlane) : TunnelFlowPlane :=
  let previous := m_policy t in
  let '(available, policy) := ParseAndNormalizePolicy input previous in
  let policy := policy <| m_policy_available := available |> in
  let policy :=
    if available then policy
    else policy <| m_route_count := 0%nat |> <| m_tunnel_source := zeros 4 |>
           <| m_policy_peer := mk_peer_identity 0 0 |> <| m_policy_leak_protection := false |>
           <| m_effective_inner_mtu := DefaultEffectiveInnerMtu |> in
  let t := t <| m_policy := policy |> in
  if bool_decide (previous = policy) then t
  else
    let '(generation, next) := AllocateNonZero (m_next_policy_generation t) in
    let t := t <| m_policy_generation := generation |> <| m_next_policy_generation := next |> in
    EnqueuePolicyChanged (for_flows (fun index t =>
      let flow := flow_at index t in
      if negb (fl_allocated flow) || fl_closed flow then t
      else if negb (m_policy_available (m_policy t)) || negb (bool_decide (fl_peer flow = m_policy_peer (m_policy t)))
              || match SelectRoute (ie_address (fl_remote flow)) (m_policy t) with None => true | Some _ => false end
      then CloseFlowSlot index FlowTerminalReason_PolicyInvalidated now true t
      else set_flow index (flow <| fl_policy_generation := m_policy_generation t |>) t) t).

Record RouteRecord := mk_route_record {
  rr_address_family : Z;
  rr_prefix_length : Z;
  rr_network_address : bytes;
  rr_route_identifier : Z
}.
Definition record_of_route (route : NormalizedRoute) : RouteRecord :=
  mk_route_record 4 (nr_prefix_length route) (take 4 (nr_network route) ++ zeros 12) (nr_route_identifier route).
(** The generation and the number of routes, and the records written to the span. *)
Definition CopyRoutingPolicy (out : list RouteRecord) (t : TunnelFlowPlane) : Z * nat * list RouteRecord :=
  let copy_count := Nat.min (length out) (m_route_count (m_policy t)) in
  (m_policy_generation t, m_route_count (m_policy t),
   (record_of_route <$> take copy_count (m_routes (m_policy t))) ++ drop copy_count out).

(** ** Opening a flow *)

Record TunnelFlowReservation := mk_reservation {
  rv_result : OpenConnectedUdpFlowResult;
  rv_local : Ipv4Endpoint;
  rv_remote : Ipv4Endpoint;
  rv_client : TunnelClientId;
  rv_peer : PeerIdentity;
  rv_adapter_token : Z
}.
#[export] Instance eta_reservation : Eta TunnelFlowReservation := fun r =>
  mk_reservation (rv_result r) (rv_local r) (rv_remote r) (rv_client r) (rv_peer r) (rv_adapter_token r).
Definition reservation_init : TunnelFlowReservation :=
  mk_reservation (mk_open_result ProtocolStatus_MalformedInput 0 0 0) ipv4_endpoint_init ipv4_endpoint_init
    client_id_init (mk_peer_identity 0 0) 0.
Definition IsReserved (reservation : TunnelFlowReservation) : bool :=
  bool_decide (ow_status (rv_result reservation) = ProtocolStatus_Success)
  && negb (rv_adapter_token reservation =? 0).

Definition owned_by (client : TunnelClientId) (flow : FlowSlot) : bool :=
  (fl_client_slot flow =? tc_slot client) && (fl_client_generation flow =? tc_generation client).

Definition ReserveConnectedUdpFlow (client : TunnelClientId) (request : OpenConnectedUdpFlowRequest) (now : Z)
    (availability : TunnelTransportAvailability) (t : TunnelFlowPlane)
    : TunnelFlowReservation * TunnelFlowPlane :=
  let policy := m_policy t in
  let remote := or_remote request in
  let reservation := reservation_init
    <| rv_result ::= fun r => r <| ow_routing_policy_generation := m_policy_generation t |> |> in
  let fails status t := (reservation <| rv_result ::= fun r => r <| ow_status := status |> |>, t) in
  if bool_decide (FindClient client t = None) || negb (ie_reserved remote =? 0) || (ie_port remote =? 0)
     || IsZeroEndpoint remote then (reservation, t)
  else if negb (m_policy_available policy) || (pi_activation_generation (m_policy_peer policy) =? 0) then
    fails ProtocolStatus_PeerUnavailable t
  else if bool_decide (SelectRoute (ie_address remote) policy = None) then fails ProtocolStatus_RouteNotCovered t
  else if negb (protocol_available availability) then
    fails (if m_policy_leak_protection policy then ProtocolStatus_TunnelBlockedByPolicy
           else ProtocolStatus_TransportUnavailable) t
  else if (MaximumFlowsPerClient <=? count_if (fun flow => live flow && owned_by client flow) (m_flows t))%nat then
    fails ProtocolStatus_FlowQuotaExhausted t
  else
    match find_index (fun flow => negb (fl_allocated flow) || fl_closed flow) (m_flows t) with
    | None => fails ProtocolStatus_FlowQuotaExhausted t
    | Some slot =>
        let '(reserved, t) := HasTombstoneReservation now t in
        if negb reserved then fails ProtocolStatus_ReverseTupleExhausted t
        else
          match AllocateVirtualTuple remote now t with
          | (None, t) => fails ProtocolStatus_ReverseTupleExhausted t
          | (Some source_port, t) =>
              let '(generation, t) := AllocateFlowGeneration t in
              let flow := mk_flow true false true (tc_slot client) (tc_generation client) generation
                (m_policy_peer policy) (m_policy_generation t) remote (m_tunnel_source policy) source_port 0
                now now (or_diagnostic_tag request) FlowTerminalReason_None false 0 0 0 0 0 in
              let handle := MakeFlowHandle slot flow in
              (mk_reservation
                 (mk_open_result ProtocolStatus_Success handle (pi_activation_generation (fl_peer flow))
                    (m_policy_generation t))
                 (mk_ipv4_endpoint (fl_tunnel_source flow) source_port 0) remote client (fl_peer flow) handle,
               set_flow slot flow t)
          end
    end.

Definition CommitFlowReservation (reservation : TunnelFlowReservation) (t : TunnelFlowPlane)
    : bool * TunnelFlowPlane :=
  if negb (IsReserved reservation) then (false, t)
  else
    match FindFlow (rv_client reservation) (ow_flow (rv_result reservation)) t with
    | None => (false, t)
    | Some slot =>
        let flow := flow_at slot t in
        if negb (fl_pending flow) || fl_closed flow || negb (bool_decide (fl_peer flow = rv_peer reservation))
           || negb (EndpointEqual (fl_remote flow) (rv_remote reservation))
           || negb (bool_decide (m_policy_peer (m_policy t) = rv_peer reservation))
           || negb (m_policy_generation t =? ow_routing_policy_generation (rv_result reservation))
        then (false, t)
        else (true, set_flow slot (flow <| fl_pending := false |>) t)
    end.
Definition CancelFlowReservation (reservation : TunnelFlowReservation) (t : TunnelFlowPlane) : TunnelFlowPlane :=
  if negb (IsReserved reservation) then t
  else
    match FindFlow (rv_client reservation) (ow_flow (rv_result reservation)) t with
    | Some slot => if fl_pending (flow_at slot t) then set_flow slot flow_init t else t
    | None => t
    end.

Definition OpenConnectedUdpFlow (client : TunnelClientId) (request : OpenConnectedUdpFlowRequest) (now : Z)
    (availability : TunnelTransportAvailability) (t : TunnelFlowPlane)
    : OpenConnectedUdpFlowResult * TunnelFlowPlane :=
  let '(reservation, t) := ReserveConnectedUdpFlow client request now availability t in
  if negb (IsReserved reservation) then (rv_result reservation, t)
  else
    let '(committed, t) := CommitFlowReservation reservation t in
    if negb committed then
      ((rv_result reservation) <| ow_status := ProtocolStatus_PeerUnavailable |> <| ow_flow := 0 |>,
       CancelFlowReservation reservation t)
    else (rv_result reservation, t).

(** The token, if the flow is open. *)
Definition GetFlowAdapterToken (client : TunnelClientId) (handle : Z) (t : TunnelFlowPlane) : option Z :=
  slot ← FindFlow client handle t;
  let flow := flow_at slot t in
  if fl_pending flow || fl_closed flow then None else Some handle.

(** The number of open flows of the client, and the tokens that fit the span. *)
Definition CopyClientAdapterTokens (client : TunnelClientId) (out : list Z) (t : TunnelFlowPlane) : Z * list Z :=
  match FindClient client t with
  | None => (0, out)
  | Some _ =>
      let tokens := omap (fun index =>
          let flow := flow_at index t in
          if negb (fl_allocated flow) || fl_pending flow || fl_closed flow || negb (owned_by client flow)
          then None else Some (MakeFlowHandle index flow)) (seq 0 MaximumFlows) in
      (Z.of_nat (length tokens), take (length out) tokens ++ drop (length tokens) out)
  end.

Definition GetFlowState (client : TunnelClientId) (handle : Z) (t : TunnelFlowPlane) : FlowStateResult :=
  match FindFlow client handle t with
  | None => mk_flow_state ProtocolStatus_StaleHandle FlowState_Closed FlowTerminalReason_None 0
              (m_policy_generation t) ipv4_endpoint_init 0
  | Some slot =>
      let flow := flow_at slot t in
      mk_flow_state (if fl_closed flow then ProtocolStatus_FlowClosed else ProtocolStatus_Success)
        (if fl_closed flow then FlowState_Closed else FlowState_Open) (fl_terminal_reason flow)
        (pi_activation_generation (fl_peer flow)) (fl_policy_generation flow)
        (mk_ipv4_endpoint (fl_tunnel_source flow) (fl_virtual_source_port flow) 0) (fl_diagnostic_tag flow)
  end.

(** ** Sending *)

Record PreparedTunnelDatagram := mk_prepared {
  pt_status : ProtocolStatus;
  pt_peer : PeerIdentity;
  pt_flow : Z;
  pt_adapter_token : Z
}.
Definition IsPrepared (datagram : PreparedTunnelDatagram) : bool :=
  bool_decide (pt_status datagram = ProtocolStatus_Success) && negb (pt_adapter_token datagram =? 0).

Definition PrepareSend (client : TunnelClientId) (descriptor : DatagramDescriptor) (payload : bytes)
    (availability : TunnelTransportAvailability) (now : Z) (t : TunnelFlowPlane)
    : PreparedTunnelDatagram * TunnelFlowPlane :=
  let outcome status := mk_prepared status (mk_peer_identity 0 0) (dd_flow descriptor) 0 in
  if negb (dd_payload_size descriptor =? Z.of_nat (length payload)) then (outcome ProtocolStatus_MalformedInput, t)
  else if (MaximumUdpPayloadStorageBytes <? length payload)%nat then (outcome ProtocolStatus_DatagramTooLarge, t)
  else
    match FindFlow client (dd_flow descriptor) t with
    | None => (outcome ProtocolStatus_StaleHandle, t)
    | Some slot =>
        let flow := flow_at slot t in
        if fl_closed flow || fl_pending flow then (outcome ProtocolStatus_FlowClosed, t)
        else
          let flow := flow <| fl_send_attempts ::= fun n => u64 (n + 1) |> in
          let t := set_flow slot flow t in
          if negb (m_policy_available (m_policy t)) || negb (bool_decide (fl_peer flow = m_policy_peer (m_policy t)))
          then (outcome ProtocolStatus_PeerUnavailable, t)
          else if negb (protocol_available availability) then (outcome ProtocolStatus_TransportUnavailable, t)
          else if negb (staging_available availability) then
            (outcome ProtocolStatus_QueueFull,
             set_flow slot (flow <| fl_writable_waiter := true |>
                                 <| fl_send_queue_full ::= fun n => u64 (n + 1) |>) t)
          else
            (mk_prepared ProtocolStatus_Success (fl_peer flow) (dd_flow descriptor) (dd_flow descriptor),
             set_flow slot (flow <| fl_last_activity_at := now |>
                                 <| fl_send_admitted ::= fun n => u64 (n + 1) |>) t)
    end.

(** The first allocated flow with the handle. *)
Definition flow_with_handle (handle : Z) (t : TunnelFlowPlane) : option nat :=
  find_index (fun index => fl_allocated (flow_at index t) && (MakeFlowHandle index (flow_at index t) =? handle))
    (seq 0 MaximumFlows).

Definition CompleteSend (datagram : PreparedTunnelDatagram) (completion_status : ProtocolStatus)
    (t : TunnelFlowPlane) : TunnelFlowPlane :=
  if negb (IsPrepared datagram) then t
  else
    match flow_with_handle (pt_flow datagram) t with
    | None => t
    | Some index =>
        let flow := flow_at index t in
        match completion_status with
        | ProtocolStatus_QueueFull =>
            set_flow index (flow <| fl_writable_waiter := true |>
                                 <| fl_send_queue_full ::= fun n => u64 (n + 1) |>) t
        | ProtocolStatus_Success => set_flow index (flow <| fl_writable_waiter := false |>) t
        | _ => t
        end
    end.

Definition NotifyOutboundCapacityAvailable (peer : PeerIdentity) : TunnelFlowPlane -> TunnelFlowPlane :=
  for_flows (fun index t =>
    let flow := flow_at index t in
    if negb (fl_allocated flow) || fl_closed flow || fl_pending flow || negb (bool_decide (fl_peer flow = peer))
       || negb (fl_writable_waiter flow) then t
    else
      let flow := flow <| fl_writable_waiter := false |> in
      EnqueueControlCompletion (client_of flow)
        (mk_completion CompletionType_Writable ProtocolStatus_Success (MakeFlowHandle index flow)
           ipv4_endpoint_init 0 0 (pi_activation_generation (fl_peer flow)) (fl_policy_generation flow)
           FlowState_Open FlowTerminalReason_None)
        (set_flow index flow t)).

(** ** Receiving *)

Inductive TunnelInboundDisposition :=
  | TunnelInbound_NotClaimed
  | TunnelInbound_Delivered
  | TunnelInbound_DroppedMalformed
  | TunnelInbound_DroppedUnknown
  | TunnelInbound_DroppedStale
  | TunnelInbound_DroppedQueueFull.
Record TunnelInboundOutcome := mk_inbound {
  in_disposition : TunnelInboundDisposition;
  in_payload_size : nat;
  in_client : TunnelClientId;
  in_flow : Z
}.

Definition DeliverInboundUdpDatagram (peer : PeerIdentity) (policy_generation adapter_token : Z)
    (remote : Ipv4Endpoint) (payload : bytes) (now : Z) (t : TunnelFlowPlane)
    : TunnelInboundOutcome * TunnelFlowPlane :=
  if (adapter_token =? 0) || (MaximumUdpPayloadStorageBytes <? length payload)%nat then
    (mk_inbound TunnelInbound_DroppedMalformed 0 client_id_init 0, t)
  else
    match flow_with_handle adapter_token t with
    | None => (mk_inbound TunnelInbound_DroppedUnknown 0 client_id_init 0, t)
    | Some index =>
        let flow := flow_at index t in
        let outcome disposition :=
          mk_inbound disposition (length payload) (client_of flow) (MakeFlowHandle index flow) in
        let count_drop t := set_flow index ((flow_at index t) <| fl_inbound_dropped ::= fun n => u64 (n + 1) |>) t in
        if fl_closed flow || fl_pending flow || bool_decide (FindClient (client_of flow) t = None)
           || negb (bool_decide (fl_peer flow = peer)) || negb (fl_policy_generation flow =? policy_generation)
           || negb (m_policy_generation t =? policy_generation)
           || negb (bool_decide (m_policy_peer (m_policy t) = peer)) || negb (EndpointEqual (fl_remote flow) remote)
        then (outcome TunnelInbound_DroppedStale, t)
        else if MaximumInboundDatagramsPerFlow <=? fl_inbound_occupancy flow then
          (outcome TunnelInbound_DroppedQueueFull, count_drop t)
        else
          let '(slab_slot, t) := AllocateInboundSlab t in
          if (slab_slot =? InvalidSlabSlot)%nat then (outcome TunnelInbound_DroppedQueueFull, count_drop t)
          else
            let t := t <| m_inbound_slabs ::= alter (fun slab =>
                             slab <| sl_size := u16 (Z.of_nat (length payload)) |>
                                  <| sl_bytes ::= fun b => write_at b 0 payload |>) slab_slot |> in
            let t := set_flow index (flow <| fl_inbound_occupancy ::= fun n => u16 (n + 1) |>
                                          <| fl_last_activity_at := now |>) t in
            let '(delivered, t) := EnqueueDataCompletion index slab_slot t in
            if delivered then
              (outcome TunnelInbound_Delivered,
               set_flow index ((flow_at index t) <| fl_inbound_delivered ::= fun n => u64 (n + 1) |>) t)
            else (outcome TunnelInbound_DroppedQueueFull, count_drop t)
    end.

(** The loop with room for [room] more records: the status, the records returned and
    the payload buffer. *)
Fixpoint receive_loop (room : nat) (client : TunnelClientId) (client_slot payload_offset : nat)
    (records : list CompletionRecord) (payload : bytes) (t : TunnelFlowPlane)
    : ProtocolStatus * list CompletionRecord * bytes * TunnelFlowPlane :=
  let finished := (if (length records =? 0)%nat then ProtocolStatus_QueueEmpty else ProtocolStatus_Success,
                   records, payload, t) in
  match room with
  | O => finished
  | S room =>
      match CompletionAt (client_at client_slot t) 0, RemoveCompletionFront (client_at client_slot t) with
      | Some entry, Some (delivered, drained) =>
          let is_data := negb (en_slab entry =? InvalidSlabSlot)%nat in
          let size := Z.to_nat (sl_size (slab_at (en_slab entry) t)) in
          if is_data && (length payload - payload_offset <? size)%nat then
            (if (length records =? 0)%nat then ProtocolStatus_OutputBufferTooSmall else ProtocolStatus_Success,
             records, payload, t)
          else
            let t := set_client client_slot drained t in
            if is_data then
              let payload := write_at payload payload_offset (take size (sl_bytes (slab_at (en_slab entry) t))) in
              let record := (en_record delivered) <| cr_payload_offset := u32 (Z.of_nat payload_offset) |>
                              <| cr_payload_size := Z.of_nat size |> in
              let t := ReleaseInboundSlab (en_slab delivered) t in
              let t := match FindFlow client (cr_flow record) t with
                       | Some slot => set_flow slot ((flow_at slot t) <| fl_inbound_occupancy ::= fun n =>
                                        if 0 <? n then n - 1 else n |>) t
                       | None => t
                       end in
              receive_loop room client client_slot (payload_offset + size) (records ++ [record]) payload t
            else receive_loop room client client_slot payload_offset (records ++ [en_record delivered]) payload t
      | _, _ => finished
      end
  end.
(** [room] is the size of the span of records. *)
Definition ReceiveCompletions (client : TunnelClientId) (room : nat) (payload : bytes) (t : TunnelFlowPlane)
    : ProtocolStatus * list CompletionRecord * bytes * TunnelFlowPlane :=
  match FindClient client t with
  | None => (ProtocolStatus_StaleHandle, [], payload, t)
  | Some slot =>
      if (room =? 0)%nat then (ProtocolStatus_OutputBufferTooSmall, [], payload, t)
      else receive_loop room client slot 0 [] payload t
  end.
