(* ===== verification/FlowTuples.v ===== *)
(** * The address tuples of the tunnel flows

    A flow owns the tuple of its tunnel source, virtual port and remote endpoint.
    No two live flows own the same tuple, and the tuple of a flow that was open is
    quarantined for sixty seconds after it is closed: the reservation of a tombstone
    for every live flow means that closing one never finds the table full. *)

From S2P Require Import Prelude Endian Messages PacketQueue Platform Session Base64 InnerPacket Timers.
From S2P Require Import Crypto Device Data Identity Admission Handshake Peer PeerController RuntimeEvents.
From S2P Require Import FlowPolicy FlowPlane.
Local Open Scope Z_scope.

(** ** Operations as a sequence *)

Inductive FlowOp :=
  | Op_CreateClient (notifier : option Z)
  | Op_DestroyClient (client : TunnelClientId)
  | Op_RefreshPolicy (input : TunnelPolicyInput)
  | Op_Reserve (client : TunnelClientId) (request : OpenConnectedUdpFlowRequest)
      (availability : TunnelTransportAvailability)
  | Op_Commit (reservation : TunnelFlowReservation)
  | Op_Cancel (reservation : TunnelFlowReservation)
  | Op_PrepareSend (client : TunnelClientId) (descriptor : DatagramDescriptor) (payload : bytes)
      (availability : TunnelTransportAvailability)
  | Op_CompleteSend (datagram : PreparedTunnelDatagram) (status : ProtocolStatus)
  | Op_NotifyCapacity (peer : PeerIdentity)
  | Op_SignalAll
  | Op_Receive (client : TunnelClientId) (room : nat) (payload : bytes)
  | Op_CloseFlow (client : TunnelClientId) (handle : Z)
  | Op_Deliver (peer : PeerIdentity) (policy_generation adapter_token : Z) (remote : Ipv4Endpoint)
      (payload : bytes)
  | Op_Invalidate (peer : PeerIdentity) (reason : FlowTerminalReason).

(** The state after one operation at time [now]. *)
Definition flow_step (now : Z) (op : FlowOp) (t : TunnelFlowPlane) : TunnelFlowPlane :=
  match op with
  | Op_CreateClient notifier => snd (CreateClient notifier t)
  | Op_DestroyClient client => DestroyClient client now t
  | Op_RefreshPolicy input => RefreshPolicy input now t
  | Op_Reserve client request availability => snd (ReserveConnectedUdpFlow client request now availability t)
  | Op_Commit reservation => snd (CommitFlowReservation reservation t)
  | Op_Cancel reservation => CancelFlowReservation reservation t
  | Op_PrepareSend client descriptor payload availability =>
      snd (PrepareSend client descriptor payload availability now t)
  | Op_CompleteSend datagram status => CompleteSend datagram status t
  | Op_NotifyCapacity peer => NotifyOutboundCapacityAvailable peer t
  | Op_SignalAll => snd (SignalAllClientCompletionEvents t)
  | Op_Receive client room payload => snd (ReceiveCompletions client room payload t)
  | Op_CloseFlow client handle => snd (CloseFlow client handle now t)
  | Op_Deliver peer policy_generation adapter_token remote payload =>
      snd (DeliverInboundUdpDatagram peer policy_generation adapter_token remote payload now t)
  | Op_Invalidate peer reason => InvalidatePeerActivation peer reason now t
  end.
Definition flow_run (ops : list (Z * FlowOp)) (t : TunnelFlowPlane) : TunnelFlowPlane :=
  foldl (fun t op => flow_step (fst op) (snd op) t) t ops.

(** ** Tuples *)

Definition FlowTuple : Type := bytes * Z * bytes * Z.
Definition tuple_of (flow : FlowSlot) : FlowTuple :=
  (fl_tunnel_source flow, fl_virtual_source_port flow, ie_address (fl_remote flow), ie_port (fl_remote flow)).
Definition tombstone_tuple (tombstone : ReverseTupleTombstone) : FlowTuple :=
  (ts_tunnel_destination tombstone, ts_tunnel_destination_port tombstone,
   ie_address (ts_remote tombstone), ie_port (ts_remote tombstone)).
(** A flow whose reservation is committed. *)
Definition is_open (flow : FlowSlot) : bool := live flow && negb (fl_pending flow).

Definition port_ok (port : Z) : Prop := 49152 <= port < 65536.
Definition free_tombstones (t : TunnelFlowPlane) : nat :=
  count_if (fun tombstone => negb (ts_occupied tombstone)) (m_tombstones t).

Record tuples_ok (t : TunnelFlowPlane) : Prop := {
  tu_unique i j f g : m_flows t !! i = Some f -> m_flows t !! j = Some g ->
    live f = true -> live g = true -> tuple_of f = tuple_of g -> i = j;
  tu_reserved : (count_if live (m_flows t) <= free_tombstones t)%nat;
  tu_ports f : f ∈ m_flows t -> live f = true -> port_ok (fl_virtual_source_port f);
  tu_next : port_ok (m_next_virtual_source_port t);
  tu_flows : length (m_flows t) = MaximumFlows
}.

(** While the quarantine of a tuple released at [released] lasts, there is a
    tombstone for it and no live flow has it. *)
Definition quarantined (now : Z) (t : TunnelFlowPlane) (tuple : FlowTuple) (released : Z) : Prop :=
  now < released + ReverseTupleQuarantineNs ->
  (exists tombstone, tombstone ∈ m_tombstones t /\ ts_occupied tombstone = true /\
     tombstone_tuple tombstone = tuple /\ ts_expires_at tombstone = released + ReverseTupleQuarantineNs) /\
  forall f, f ∈ m_flows t -> live f = true -> tuple_of f <> tuple.

(** What every operation at time [now] does to the tuples. *)
Definition evolves (now : Z) (t t' : TunnelFlowPlane) : Prop :=
  tuples_ok t ->
  tuples_ok t' /\
  (forall tuple released, quarantined now t tuple released -> quarantined now t' tuple released) /\
  (forall i f, m_flows t !! i = Some f -> is_open f = true ->
     (exists f', m_flows t' !! i = Some f' /\ is_open f' = true /\ tuple_of f' = tuple_of f) \/
     quarantined now t' (tuple_of f) now).

Lemma evolves_given now t t' : (tuples_ok t -> evolves now t t') -> evolves now t t'.
Proof. intros H Hok. by apply H. Qed.

#[export] Instance evolves_preorder now : PreOrder (evolves now).
Proof.
  split.
  - intros t Hok. split_and!; [done|done|]. intros i f Hi Ho. left. by exists f.
  - intros t1 t2 t3 H12 H23 Hok1. destruct (H12 Hok1) as (Hok2 & Hq12 & Ho12).
    destruct (H23 Hok2) as (Hok3 & Hq23 & Ho23). split_and!; [done|by auto|].
    intros i f Hi Ho. destruct (Ho12 i f Hi Ho) as [(f' & Hi' & Ho' & E)|Hq]; [|by auto].
    destruct (Ho23 i f' Hi' Ho') as [(f'' & Hi'' & Ho'' & E')|Hq]; rewrite E in *; [|by auto].
    left. exists f''. split_and!; [done|done|congruence].
Qed.

(** ** Counting *)

Abbreviation one b := (if (b : bool) then 1%nat else 0%nat).
Lemma count_if_cons {A} (p : A -> bool) a l : count_if p (a :: l) = (one (p a) + count_if p l)%nat.
Proof. unfold count_if. cbn [List.filter]. by destruct (p a). Qed.
Lemma count_if_insert {A} (p : A -> bool) i x y l : l !! i = Some x ->
  (count_if p (<[i := y]> l) + one (p x) = count_if p l + one (p y))%nat.
Proof.
  revert i. induction l as [|a l IH]; intros [|i]; cbn [lookup list_lookup]; try done.
  - intros [= ->]. change (<[0%nat:=y]> (x :: l)) with (y :: l). rewrite !count_if_cons. lia.
  - intros H. change (<[S i:=y]> (a :: l)) with (a :: <[i:=y]> l). rewrite !count_if_cons. specialize (IH i H). lia.
Qed.
Lemma count_if_fmap_le {A} (p : A -> bool) (f : A -> A) l : (forall x, p x = true -> p (f x) = true) ->
  (count_if p l <= count_if p (f <$> l))%nat.
Proof.
  intros H. induction l as [|a l IH]; [done|]. cbn [fmap list_fmap]. rewrite !count_if_cons.
  specialize (H a). destruct (p a); [rewrite H by done|destruct (p (f a))]; lia.
Qed.
Lemma count_if_all {A} (p : A -> bool) l : (count_if p l = 0%nat) <-> forall x, x ∈ l -> p x = false.
Proof.
  induction l as [|a l IH].
  - split; [by intros _ x ?%elem_of_nil|done].
  - rewrite count_if_cons. split.
    + intros H x [->|Hx]%elem_of_cons; [by destruct (p a)|]. apply IH; [lia|done].
    + intros H. rewrite (H a) by left. cbn. apply IH. intros x Hx. apply H. by right.
Qed.
Lemma find_index_some {A} (p : A -> bool) l i : find_index p l = Some i ->
  exists x, l !! i = Some x /\ p x = true /\ forall j y, (j < i)%nat -> l !! j = Some y -> p y = false.
Proof.
  revert i. induction l as [|a l IH]; intros i; [done|]. cbn [find_index]. destruct (p a) eqn:E.
  - intros [= <-]. exists a. split_and!; [done|done|intros j y Hj; lia].
  - destruct (find_index p l) as [k|]; [|done]. intros [= <-]. destruct (IH k eq_refl) as (x & Hx & Hp & Hall).
    exists x. split_and!; [done|done|]. intros [|j] y Hj Hy; [by injection Hy as <-|].
    apply (Hall j); [lia|done].
Qed.
Lemma find_index_none {A} (p : A -> bool) l : find_index p l = None -> forall x, x ∈ l -> p x = false.
Proof.
  induction l as [|a l IH]; [by intros _ x ?%elem_of_nil|]. cbn [find_index]. destruct (p a) eqn:E; [done|].
  destruct (find_index p l); [done|]. intros _ x [->|Hx]%elem_of_cons; [done|by apply IH].
Qed.

(** ** What leaves the tuples alone *)

Definition frame (t : TunnelFlowPlane) := (m_flows t, m_tombstones t, m_next_virtual_source_port t).

Lemma frame_evolves now t t' : frame t' = frame t -> evolves now t t'.
Proof.
  intros [= Ef Et En] [H1 H2 H3 H4 H5]. split_and!.
  - split; unfold free_tombstones in *; rewrite ?Ef, ?Et, ?En; auto.
  - intros tuple released Hq Hlt. destruct (Hq Hlt) as [Ht Hf]. by rewrite Ef, Et.
  - intros i f Hi Ho. left. exists f. by rewrite Ef.
Qed.

Lemma frame_notify client was_empty t : frame (NotifyIfNeeded client was_empty t) = frame t.
Proof. unfold NotifyIfNeeded. by destruct (cs_notifier client), was_empty. Qed.
Lemma frame_control client completion t : frame (EnqueueControlCompletion client completion t) = frame t.
Proof.
  unfold EnqueueControlCompletion. destruct (FindClient client t); [|done].
  destruct (find_index _ _); [done|]. case_if; [done|]. by rewrite frame_notify.
Qed.
Lemma frame_set_client slot client t : frame (set_client slot client t) = frame t.
Proof. done. Qed.
Lemma frame_retain handle entries retained n t : frame (snd (retain_loop handle entries retained n t)) = frame t.
Proof.
  revert retained n t. induction entries as [|entry entries IH]; intros; [done|]. cbn [retain_loop].
  case_if; by rewrite IH.
Qed.
Lemma frame_remove slot client t : frame (RemoveFlowCompletions slot client t) = frame t.
Proof.
  unfold RemoveFlowCompletions. pose proof (frame_retain (MakeFlowHandle slot (flow_at slot t))
    (ring_entries (client_at client t)) [] 0 t) as E.
  destruct (retain_loop _ _ _ _ _) as [ [retained n] t']. exact E.
Qed.
Lemma frame_drain fuel slot t : frame (drain_loop fuel slot t) = frame t.
Proof.
  revert t. induction fuel as [|fuel IH]; intros t; [done|]. cbn [drain_loop].
  destruct (RemoveCompletionFront _) as [ [entry client]|]; [|done]. by rewrite IH.
Qed.
Lemma frame_slab t : frame (snd (AllocateInboundSlab t)) = frame t.
Proof. unfold AllocateInboundSlab. by destruct (find_index _ _). Qed.

Lemma frame_foldl {A} (f : TunnelFlowPlane -> A -> TunnelFlowPlane) l t :
  (forall t a, frame (f t a) = frame t) -> frame (foldl f t l) = frame t.
Proof. intros H. revert t. induction l as [|a l IH]; intros t; [done|]. cbn. by rewrite IH. Qed.
Lemma frame_policy_changed t : frame (EnqueuePolicyChanged t) = frame t.
Proof. apply frame_foldl. intros s index. cbv zeta. case_if; [done|]. apply frame_control. Qed.

(** Loops over the flow slots. *)
Lemma for_flows_evolves now body t :
  (forall index t, (index < MaximumFlows)%nat -> evolves now t (body index t)) -> evolves now t (for_flows body t).
Proof.
  intros H. unfold for_flows. assert (forall l s, Forall (fun i => i < MaximumFlows)%nat l ->
    evolves now s (foldl (fun t index => body index t) s l)) as Hl.
  { induction l as [|i l IH]; intros s Hall; [reflexivity|]. apply Forall_cons in Hall as [Hi Hall]. cbn.
    etransitivity; [by apply H|by apply IH]. }
  apply Hl, Forall_forall. intros i Hi%elem_of_seq. lia.
Qed.

(** ** Changing one flow *)

Lemma flow_at_some slot t f : m_flows t !! slot = Some f -> flow_at slot t = f.
Proof. unfold flow_at. by intros ->. Qed.
Lemma set_flow_lookup slot f t i g : m_flows (set_flow slot f t) !! i = Some g ->
  (i = slot /\ g = f) \/ (i <> slot /\ m_flows t !! i = Some g).
Proof.
  cbn. destruct (decide (i = slot)) as [->|Hne].
  - intros H. left. split; [done|]. apply lookup_lt_Some in H as Hl. rewrite length_insert in Hl.
    rewrite list_lookup_insert_eq in H by done. congruence.
  - rewrite list_lookup_insert_ne by done. by right.
Qed.
Lemma elem_flows t f : f ∈ m_flows t <-> exists i, m_flows t !! i = Some f.
Proof. apply list_elem_of_lookup. Qed.

(** The new flow is live only if the old one was, with the same tuple, and open if
    the old one was. *)
Lemma set_flow_evolves now slot f' t :
  (live f' = true -> live (flow_at slot t) = true /\ tuple_of f' = tuple_of (flow_at slot t)) ->
  (is_open (flow_at slot t) = true -> is_open f' = true) ->
  evolves now t (set_flow slot f' t).
Proof.
  intros Hlive Hopen. destruct (m_flows t !! slot) as [f|] eqn:Ef.
  2:{ apply frame_evolves. unfold frame. cbn. f_equal. f_equal. apply list_insert_ge.
      by apply lookup_ge_None. }
  rewrite (flow_at_some _ _ _ Ef) in *. intros [H1 H2 H3 H4 H5].
  assert (forall i g, m_flows (set_flow slot f' t) !! i = Some g -> live g = true ->
    exists g0, m_flows t !! i = Some g0 /\ live g0 = true /\ tuple_of g = tuple_of g0) as Hback.
  { intros i g Hg Hl. apply set_flow_lookup in Hg as [ [-> ->]|[Hne Hg] ]; [|by exists g].
    exists f. destruct (Hlive Hl). done. }
  split_and!.
  - split; [| | |exact H4|cbn; by rewrite length_insert].
    + intros i j g h Hg Hh Lg Lh E. destruct (Hback _ _ Hg Lg) as (g0 & Hg0 & Lg0 & Eg).
      destruct (Hback _ _ Hh Lh) as (h0 & Hh0 & Lh0 & Eh). eapply (H1 i j g0 h0); congruence.
    + pose proof (count_if_insert live slot f f' _ Ef) as E. unfold free_tombstones in *.
      change (m_flows (set_flow slot f' t)) with (<[slot:=f']> (m_flows t)).
      change (m_tombstones (set_flow slot f' t)) with (m_tombstones t).
      destruct (live f') eqn:El; [destruct (Hlive eq_refl) as [El' _]; rewrite El' in E|destruct (live f)]; lia.
    + intros g Hg Lg. apply elem_flows in Hg as [i Hg]. destruct (Hback _ _ Hg Lg) as (g0 & Hg0 & Lg0 & Eg).
      injection Eg as _ -> _ _. apply (H3 g0); [|done]. apply elem_flows. eauto.
  - intros tuple released Hq Hlt. destruct (Hq Hlt) as [Ht Hf]. split; [done|].
    intros g Hg Lg. apply elem_flows in Hg as [i Hg]. destruct (Hback _ _ Hg Lg) as (g0 & Hg0 & Lg0 & ->).
    apply Hf; [|done]. apply elem_flows. eauto.
  - intros i g Hg Ho. left. destruct (decide (i = slot)) as [->|Hne].
    + rewrite Ef in Hg. injection Hg as <-. specialize (Hopen Ho). exists f'. split_and!; [|done|].
      * cbn. apply list_lookup_insert_eq. by eapply lookup_lt_Some.
      * apply Hlive. by apply andb_true_iff in Hopen as [? _].
    + exists g. split_and!; [|done|done]. cbn. by rewrite list_lookup_insert_ne.
Qed.

(** ** Tombstones *)

Lemma clear_evolves now t : evolves now t (ClearExpiredTombstones now t).
Proof.
  intros [H1 H2 H3 H4 H5]. split_and!.
  - split; try done. unfold free_tombstones in *. cbn. etransitivity; [exact H2|].
    apply count_if_fmap_le. intros x Hx. by destruct (_ && _).
  - intros tuple released Hq Hlt. destruct (Hq Hlt) as [(b & Hb & Ho & Et & Ee) Hf]. split; [|done].
    exists b. split_and!; try done. cbn. apply list_elem_of_fmap. exists b. split; [|done].
    rewrite Ho, Ee, (proj2 (Z.leb_gt _ _)) by done. done.
  - intros i f Hi Ho. left. by exists f.
Qed.

Lemma quarantine_room t : tuples_ok t -> (exists i f, m_flows t !! i = Some f /\ live f = true) ->
  exists slot b, find_index (fun tombstone => negb (ts_occupied tombstone)) (m_tombstones t) = Some slot /\
    m_tombstones t !! slot = Some b /\ ts_occupied b = false.
Proof.
  intros [_ H2 _ _ _] (i & f & Hi & Hl).
  destruct (find_index _ (m_tombstones t)) as [slot|] eqn:E.
  - apply find_index_some in E as (b & Hb & Ho & _). exists slot, b. by apply negb_true_iff in Ho.
  - exfalso. pose proof (proj2 (count_if_all _ _) (find_index_none _ _ E)) as E0. unfold free_tombstones in H2.
    rewrite E0 in H2. assert (count_if live (m_flows t) = 0%nat) as E1 by lia.
    rewrite count_if_all in E1. rewrite (E1 f) in Hl; [done|]. by eapply list_elem_of_lookup_2.
Qed.

Lemma close_evolves now slot f f' t : m_flows t !! slot = Some f -> live f = true -> live f' = false ->
  evolves now t (set_flow slot f' (QuarantineTuple f now t)).
Proof.
  intros Ef Hl Hl'. set (s := ClearExpiredTombstones now t). intros Hok0.
  destruct (clear_evolves now t Hok0) as (Hok & Hq0 & _). fold s in Hok, Hq0.
  assert (m_flows s = m_flows t) as Es by done.
  destruct (quarantine_room s Hok) as (k & b & Ek & Hb & Hfree); [exists slot, f; by rewrite Es|].
  assert ((fl_virtual_source_port f =? 0) = false) as Hport.
  { pose proof (tu_ports _ Hok0 f) as [? _]; [by eapply list_elem_of_lookup_2|done|]. apply Z.eqb_neq. lia. }
  unfold QuarantineTuple. rewrite Hport. cbv zeta. fold s. rewrite Ek.
  set (tomb := mk_tombstone true _ _ _ _). destruct Hok as [H1 H2 H3 H4 H5].
  assert (forall i g, m_flows (set_flow slot f' (s <| m_tombstones ::= <[k:=tomb]> |>)) !! i = Some g ->
    live g = true -> i <> slot /\ m_flows t !! i = Some g) as Hback.
  { intros i g Hg Lg. apply set_flow_lookup in Hg as [ [-> ->]|[Hne Hg] ]; [congruence|done]. }
  assert (k < length (m_tombstones s))%nat as Hk by by eapply lookup_lt_Some.
  assert (forall c, c ∈ m_tombstones s -> ts_occupied c = true -> c ∈ <[k:=tomb]> (m_tombstones s)) as Hkeep.
  { intros c (j & Hj)%list_elem_of_lookup Hc. apply list_elem_of_lookup. exists j.
    rewrite list_lookup_insert_ne; [done|]. intros ->. congruence. }
  assert (quarantined now (set_flow slot f' (s <| m_tombstones ::= <[k:=tomb]> |>)) (tuple_of f) now) as Hmine.
  { intros _. split.
    - exists tomb. split_and!; try done. cbn. apply list_elem_of_lookup. exists k. by apply list_lookup_insert_eq.
    - intros g Hg Lg E. apply elem_flows in Hg as [i Hg]. destruct (Hback i g Hg Lg) as [Hne Hg'].
      apply Hne. eapply (H1 i slot g f); done. }
  split_and!.
  - split.
    + intros i j g h Hg Hh Lg Lh E. destruct (Hback _ _ Hg Lg), (Hback _ _ Hh Lh). by eapply (H1 i j g h).
    + unfold free_tombstones in *.
      pose proof (count_if_insert live slot f f' (m_flows t) Ef) as E1.
      pose proof (count_if_insert (fun c => negb (ts_occupied c)) k b tomb (m_tombstones s) Hb) as E2.
      cbv beta in E2. rewrite Hl, Hl' in E1. rewrite Hfree in E2. unfold tomb at 2 in E2. cbn [negb ts_occupied] in E2.
      rewrite Es in H2. change (m_flows (set_flow slot f' (s <| m_tombstones ::= <[k:=tomb]> |>)))
        with (<[slot:=f']> (m_flows t)).
      change (m_tombstones (set_flow slot f' (s <| m_tombstones ::= <[k:=tomb]> |>)))
        with (<[k:=tomb]> (m_tombstones s)). lia.
    + intros g Hg Lg. apply elem_flows in Hg as [i Hg]. destruct (Hback _ _ Hg Lg) as [_ Hg'].
      apply (H3 g); [|done]. rewrite Es. by eapply list_elem_of_lookup_2.
    + exact H4.
    + cbn. by rewrite length_insert.
  - intros tuple released Hq Hlt. destruct (Hq0 _ _ Hq Hlt) as [(c & Hc & Ho & Et & Ee) Hf]. split.
    + exists c. split_and!; try done. by apply Hkeep.
    + intros g Hg Lg. apply elem_flows in Hg as [i Hg]. destruct (Hback _ _ Hg Lg) as [_ Hg'].
      apply Hf; [|done]. rewrite Es. by eapply list_elem_of_lookup_2.
  - intros i g Hg Ho. destruct (decide (i = slot)) as [->|Hne].
    + right. rewrite Ef in Hg. by injection Hg as <-.
    + left. exists g. split_and!; [|done|done]. cbn. by rewrite list_lookup_insert_ne.
Qed.

(** ** Opening a flow *)

Lemma ports_evolve now t t' : m_flows t' = m_flows t -> m_tombstones t' = m_tombstones t ->
  (port_ok (m_next_virtual_source_port t) -> port_ok (m_next_virtual_source_port t')) -> evolves now t t'.
Proof.
  intros Ef Et Hn [H1 H2 H3 H4 H5]. split_and!.
  - split; unfold free_tombstones in *; rewrite ?Ef, ?Et; auto.
  - intros tuple released Hq Hlt. destruct (Hq Hlt) as [Ht Hf]. by rewrite Ef, Et.
  - intros i f Hi Ho. left. exists f. by rewrite Ef.
Qed.

Lemma open_evolves now slot f f' t : m_flows t !! slot = Some f -> live f = false -> live f' = true ->
  port_ok (fl_virtual_source_port f') ->
  (forall g, g ∈ m_flows t -> live g = true -> tuple_of g <> tuple_of f') ->
  (forall b, b ∈ m_tombstones t -> ts_occupied b = true -> tombstone_tuple b = tuple_of f' -> ts_expires_at b <= now) ->
  (count_if live (m_flows t) < free_tombstones t)%nat ->
  evolves now t (set_flow slot f' t).
Proof.
  intros Ef Hl Hl' Hport Hfresh Hstale Hroom [H1 H2 H3 H4 H5].
  assert (forall i g, m_flows t !! i = Some g -> live g = true -> i <> slot) as Hne by (intros i g Hg Lg ->; congruence).
  split_and!.
  - split; [| | |exact H4|cbn; by rewrite length_insert].
    + intros i j g h Hg Hh Lg Lh E.
      apply set_flow_lookup in Hg as [ [-> ->]|[Hi Hg] ]; apply set_flow_lookup in Hh as [ [-> ->]|[Hj Hh] ].
      * done.
      * exfalso. eapply Hfresh; [by eapply list_elem_of_lookup_2|done|done].
      * exfalso. eapply Hfresh; [by eapply list_elem_of_lookup_2|done|done].
      * by eapply (H1 i j g h).
    + pose proof (count_if_insert live slot f f' _ Ef) as E. rewrite Hl, Hl' in E. unfold free_tombstones in *.
      change (m_flows (set_flow slot f' t)) with (<[slot:=f']> (m_flows t)).
      change (m_tombstones (set_flow slot f' t)) with (m_tombstones t). lia.
    + intros g Hg Lg. apply elem_flows in Hg as [i Hg]. apply set_flow_lookup in Hg as [ [_ ->]|[_ Hg] ]; [done|].
      apply (H3 g); [|done]. by eapply list_elem_of_lookup_2.
  - intros tuple released Hq Hlt. destruct (Hq Hlt) as [(b & Hb & Ho & Et & Ee) Hf]. split; [by exists b|].
    intros g Hg Lg. apply elem_flows in Hg as [i Hg]. apply set_flow_lookup in Hg as [ [_ ->]|[_ Hg] ].
    + intros E. rewrite <- E in Et. specialize (Hstale b Hb Ho Et). lia.
    + apply Hf; [|done]. by eapply list_elem_of_lookup_2.
  - intros i g Hg Ho. left. exists g. split_and!; [|done|done]. cbn. rewrite list_lookup_insert_ne; [done|].
    apply andb_true_iff in Ho as [Lg _]. intros <-. by apply (Hne slot g).
Qed.

Lemma next_port_ok port : port_ok port -> port_ok (next_port port).
Proof.
  unfold port_ok, next_port, u16. intros H. case_if; bool_prop; [lia|].
  pose proof (Z.mod_pos_bound (port + 1) (2 ^ 16)). lia.
Qed.

(** What [AllocateVirtualTuple] leaves alone, and the tuple it finds. *)
Definition tuple_found (remote : Ipv4Endpoint) (now : Z) (t : TunnelFlowPlane) (out : option Z * TunnelFlowPlane) : Prop :=
  m_flows (snd out) = m_flows t /\ m_tombstones (snd out) = m_tombstones t /\ m_policy (snd out) = m_policy t /\
  (port_ok (m_next_virtual_source_port t) ->
   port_ok (m_next_virtual_source_port (snd out)) /\ forall port, fst out = Some port -> port_ok port) /\
  forall port, fst out = Some port ->
    tuple_in_use port remote t = false /\ IsTombstoned (m_tunnel_source (m_policy t)) port remote now t = false.

Lemma tuple_loop_found tries remote now t : tuple_found remote now t (tuple_loop tries remote now t).
Proof.
  revert t. induction tries as [|tries IH]; intros t; [by split_and!|]. cbn [tuple_loop]. cbv zeta.
  set (t1 := t <| m_next_virtual_source_port := _ |>). destruct (_ && _) eqn:Hfree.
  - apply andb_true_iff in Hfree as [Hu Ht]. apply negb_true_iff in Hu, Ht. split_and!; try done.
    + intros Hp. split; [by apply next_port_ok|]. by intros port [= <-].
    + intros port [= <-]. exact (conj Hu Ht).
  - destruct (IH t1) as (Hf & Ht & Hp & Hn & Hs). split_and!; try done.
    intros Hok. apply Hn. by apply next_port_ok.
Qed.

Lemma allocate_found remote now t :
  tuple_found remote now (ClearExpiredTombstones now t) (AllocateVirtualTuple remote now t).
Proof. unfold AllocateVirtualTuple. generalize (Z.to_nat 16384). intros tries. apply tuple_loop_found. Qed.

Lemma endpoint_equal_spec a b : EndpointEqual a b = true <-> ie_port a = ie_port b /\ ie_address a = ie_address b.
Proof. unfold EndpointEqual. rewrite andb_true_iff, Z.eqb_eq, bool_decide_eq_true. done. Qed.
Lemma existsb_none {A} (p : A -> bool) l x : existsb p l = false -> x ∈ l -> p x = false.
Proof.
  intros H Hx. destruct (p x) eqn:E; [|done]. rewrite <- H. symmetry. apply existsb_exists. exists x.
  by rewrite <- list_elem_of_In.
Qed.
Lemma tuple_in_use_none port remote t f : tuple_in_use port remote t = false -> f ∈ m_flows t -> live f = true ->
  tuple_of f <> (m_tunnel_source (m_policy t), port, ie_address remote, ie_port remote).
Proof.
  intros H Hf Hl [= Es Ep Ea Er]. apply (existsb_none _ _ f) in H; [|done]. cbv beta in H.
  rewrite Hl, Ep, Z.eqb_refl, bool_decide_eq_true_2, (proj2 (endpoint_equal_spec _ _)) in H; done.
Qed.
Lemma tombstoned_none source port remote now t b : IsTombstoned source port remote now t = false ->
  b ∈ m_tombstones t -> ts_occupied b = true -> tombstone_tuple b = (source, port, ie_address remote, ie_port remote) ->
  ts_expires_at b <= now.
Proof.
  intros H Hb Ho [= Es Ep Ea Er]. apply (existsb_none _ _ b) in H; [|done]. cbv beta in H.
  rewrite Ho, Ep, Z.eqb_refl, bool_decide_eq_true_2, (proj2 (endpoint_equal_spec _ _)) in H by done.
  cbn in H. rewrite !andb_true_r in H. by apply Z.ltb_ge in H.
Qed.
Lemma frame_generation t : frame (snd (AllocateFlowGeneration t)) = frame t.
Proof.
  unfold AllocateFlowGeneration. destruct (flow_generation_once _) as [generation next]. case_if; [|done].
  by destruct (flow_generation_once next).
Qed.
Lemma room_clear now t :
  count_if live (m_flows (ClearExpiredTombstones now t)) = count_if live (m_flows t) /\
  (free_tombstones t <= free_tombstones (ClearExpiredTombstones now t))%nat.
Proof. split; [done|]. apply count_if_fmap_le. intros x Hx. by destruct (_ && _). Qed.

Lemma free_slot_at t slot : find_index (fun flow => negb (fl_allocated flow) || fl_closed flow) (m_flows t) = Some slot ->
  exists f, m_flows t !! slot = Some f /\ live f = false.
Proof.
  intros (f & Hf & Hp & _)%find_index_some. exists f. split; [done|]. unfold live.
  by destruct (fl_allocated f), (fl_closed f).
Qed.

(** The part of [ReserveConnectedUdpFlow] that changes the state, for any flow with
    the tuple that was found. *)
Lemma allocate_open_evolves now remote slot f flow t t' port :
  m_flows t !! slot = Some f -> live f = false ->
  (count_if live (m_flows t) < free_tombstones t)%nat ->
  tuple_found remote now (ClearExpiredTombstones now t) (Some port, t') ->
  live flow = true ->
  tuple_of flow = (m_tunnel_source (m_policy t), port, ie_address remote, ie_port remote) ->
  evolves now t (set_flow slot flow (snd (AllocateFlowGeneration t'))).
Proof.
  intros Ef Hl Hroom Ha Hlive Htuple. apply evolves_given. intros Hok.
  destruct Ha as (Hf & Ht & Hp & Hn & Hs). cbn [fst snd] in *.
  destruct (Hs port eq_refl) as [Hu Htomb]. destruct (room_clear now t) as [_ Hfree].
  destruct (Hn (tu_next _ Hok)) as [_ Hport].
  etransitivity; [apply clear_evolves|]. etransitivity; [by apply ports_evolve, Hn|].
  pose proof (frame_generation t') as E. set (t1 := snd (AllocateFlowGeneration t')) in *. clearbody t1.
  etransitivity; [apply (frame_evolves now t' t1); exact E|]. injection E as Ef1 Et1 En1.
  apply (open_evolves now slot f); rewrite ?Ef1, ?Hf; try done.
  - injection Htuple as _ -> _ _. by apply Hport.
  - intros g Hg Lg. rewrite Htuple. by apply (tuple_in_use_none port remote (ClearExpiredTombstones now t)).
  - intros b Hb Ho Eb. rewrite Et1, Ht in Hb. eapply (tombstoned_none _ port remote now _ b Htomb Hb Ho). rewrite Eb.
    exact Htuple.
  - unfold free_tombstones in *. rewrite Et1, Ht. change (m_flows (ClearExpiredTombstones now t)) with (m_flows t). lia.
Qed.

Lemma reserve_evolves client request now availability t :
  evolves now t (snd (ReserveConnectedUdpFlow client request now availability t)).
Proof.
  unfold ReserveConnectedUdpFlow. cbv zeta. repeat (case_if; [reflexivity|]).
  destruct (find_index _ (m_flows t)) as [slot|] eqn:Es; [|reflexivity].
  apply free_slot_at in Es as (f & Ef & Hl). unfold HasTombstoneReservation. cbv zeta.
  etransitivity; [apply (clear_evolves now t)|]. set (t1 := ClearExpiredTombstones now t).
  destruct (count_if live (m_flows t1) <? _)%nat eqn:Hroom; [|reflexivity]. cbn [negb]. apply Nat.ltb_lt in Hroom.
  pose proof (allocate_found (or_remote request) now t1) as Ha.
  destruct (AllocateVirtualTuple _ now t1) as [ [port|] t2].
  2:{ etransitivity; [apply clear_evolves|]. destruct Ha as (Hf & Ht & _ & Hn & _). by apply ports_evolve, Hn. }
  pose proof (allocate_open_evolves now (or_remote request) slot f) as H.
  destruct (AllocateFlowGeneration t2) as [generation t3] eqn:Eg. cbn [snd].
  pose proof (H (mk_flow true false true (tc_slot client) (tc_generation client) generation
    (m_policy_peer (m_policy t)) (m_policy_generation t3) (or_remote request) (m_tunnel_source (m_policy t)) port 0
    now now (or_diagnostic_tag request) FlowTerminalReason_None false 0 0 0 0 0) t1 t2 port) as H'.
  rewrite Eg in H'. by apply H'.
Qed.

(** ** The operations *)

(** A write to a flow that keeps what the tuples depend on. *)
Definition same_tuple (f' f : FlowSlot) : Prop :=
  live f' = live f /\ fl_pending f' = fl_pending f /\ tuple_of f' = tuple_of f.
Lemma set_flow_same now slot f' t : same_tuple f' (flow_at slot t) -> evolves now t (set_flow slot f' t).
Proof. intros (Hl & Hp & Ht). apply set_flow_evolves; unfold is_open; rewrite ?Hl, ?Hp; auto. Qed.
Lemma set_flow_twice slot f g t : set_flow slot f (set_flow slot g t) = set_flow slot f t.
Proof.
  unfold set_flow. destruct t. cbn. unfold upd. cbn. f_equal. apply list_insert_insert_eq.
Qed.
(** The state is unchanged, or one flow is written. *)
Ltac same_or_flow :=
  cbn [snd]; rewrite ?set_flow_twice;
  lazymatch goal with
  | |- evolves _ ?t ?t => reflexivity
  | |- evolves _ ?t (set_flow ?slot _ _) => apply set_flow_same; unfold same_tuple;
      generalize (flow_at slot t); lazy -[u64 Z.add]; intros; split_and!; reflexivity
  end.

Lemma flow_at_frame slot t t' : frame t' = frame t -> flow_at slot t' = flow_at slot t.
Proof. unfold flow_at. by intros [= -> _ _]. Qed.
Lemma clear_flow_evolves now slot t : fl_pending (flow_at slot t) = true -> evolves now t (set_flow slot flow_init t).
Proof. intros Hp. apply set_flow_evolves; [done|]. unfold is_open. rewrite Hp. by destruct (live _). Qed.

Lemma close_slot_evolves now slot reason notify t : evolves now t (CloseFlowSlot slot reason now notify t).
Proof.
  unfold CloseFlowSlot. cbv zeta. destruct (negb _ || _) eqn:Hl; [reflexivity|].
  destruct (fl_pending _) eqn:Hp; [by apply clear_flow_evolves|].
  set (f := flow_at slot t) in *. assert (m_flows t !! slot = Some f) as Ef.
  { unfold f, flow_at in *. destruct (m_flows t !! slot); [done|]. by cbn in Hl. }
  set (t1 := match FindClient (client_of f) t with Some _ => _ | None => _ end).
  assert (frame t1 = frame t) as E1 by (unfold t1; destruct (FindClient _ _); [apply frame_remove|done]).
  assert (evolves now t (set_flow slot (f <| fl_closed := true |> <| fl_terminal_reason := reason |>
    <| fl_inbound_occupancy := 0 |> <| fl_last_activity_at := now |>) (QuarantineTuple f now t1))) as Hclose.
  { etransitivity; [by apply frame_evolves|]. apply close_evolves.
    - injection E1 as -> _ _. done.
    - apply orb_false_iff in Hl as [Ha Hc]. apply negb_false_iff in Ha. unfold live. by rewrite Ha, Hc.
    - unfold live. cbn. apply andb_false_r. }
  destruct notify; [|exact Hclose]. etransitivity; [exact Hclose|]. apply frame_evolves, frame_control.
Qed.

Lemma refresh_evolves input now t : evolves now t (RefreshPolicy input now t).
Proof.
  unfold RefreshPolicy. cbv zeta. destruct (ParseAndNormalizePolicy _ _) as [available policy].
  case_if; [by apply frame_evolves|]. destruct (AllocateNonZero _) as [generation next].
  etransitivity; [|apply frame_evolves, frame_policy_changed]. etransitivity; [|apply for_flows_evolves].
  - by apply frame_evolves.
  - intros index s Hi. cbv beta zeta. case_if; [reflexivity|]. case_if; [apply close_slot_evolves|].
    same_or_flow.
Qed.
Lemma destroy_evolves client now t : evolves now t (DestroyClient client now t).
Proof.
  unfold DestroyClient. destruct (FindClient client t) as [slot|]; [|reflexivity]. cbv zeta.
  set (t1 := for_flows _ t). transitivity t1; [|apply frame_evolves; rewrite frame_set_client; apply frame_drain].
  apply for_flows_evolves. intros index s Hi. cbv beta zeta. case_if; [apply close_slot_evolves|reflexivity].
Qed.
Lemma invalidate_evolves peer reason now t : evolves now t (InvalidatePeerActivation peer reason now t).
Proof.
  apply for_flows_evolves. intros index s Hi. cbv beta zeta. case_if; [apply close_slot_evolves|reflexivity].
Qed.
Lemma notify_capacity_evolves peer now t : evolves now t (NotifyOutboundCapacityAvailable peer t).
Proof.
  apply for_flows_evolves. intros index s Hi. cbv beta zeta. case_if; [reflexivity|].
  etransitivity; [|apply frame_evolves, frame_control]. same_or_flow.
Qed.
Lemma commit_evolves reservation now t : evolves now t (snd (CommitFlowReservation reservation t)).
Proof.
  unfold CommitFlowReservation. case_if; [reflexivity|]. destruct (FindFlow _ _ _) as [slot|]; [|reflexivity].
  cbv zeta. case_if; [reflexivity|]. cbn [snd]. apply set_flow_evolves; [done|].
  unfold is_open. intros [Hl _]%andb_true_iff. by apply andb_true_iff.
Qed.
Lemma cancel_evolves reservation now t : evolves now t (CancelFlowReservation reservation t).
Proof.
  unfold CancelFlowReservation. case_if; [reflexivity|]. destruct (FindFlow _ _ _) as [slot|]; [|reflexivity].
  destruct (fl_pending _) eqn:Hp; [by apply clear_flow_evolves|reflexivity].
Qed.
Lemma prepare_evolves client descriptor payload availability now t :
  evolves now t (snd (PrepareSend client descriptor payload availability now t)).
Proof.
  unfold PrepareSend. cbv zeta. repeat (case_if; [reflexivity|]).
  destruct (FindFlow _ _ _) as [slot|]; [|reflexivity].
  repeat (case_if; [same_or_flow|]). same_or_flow.
Qed.
Lemma complete_send_evolves datagram status now t : evolves now t (CompleteSend datagram status t).
Proof.
  unfold CompleteSend. case_if; [reflexivity|]. destruct (flow_with_handle _ _) as [slot|]; [|reflexivity].
  cbv zeta. destruct status; same_or_flow.
Qed.

Lemma frame_release slab t : frame (ReleaseInboundSlab slab t) = frame t.
Proof. done. Qed.
Lemma create_evolves notifier now t : evolves now t (snd (CreateClient notifier t)).
Proof.
  unfold CreateClient. destruct (find_index _ _) as [index|]; [|reflexivity].
  destruct (AllocateNonZero _) as [generation next]. by apply frame_evolves.
Qed.

Lemma receive_loop_evolves room client slot offset records payload now t :
  evolves now t (snd (receive_loop room client slot offset records payload t)).
Proof.
  revert offset records payload t. induction room as [|room IH]; intros offset records payload t; [reflexivity|].
  cbn [receive_loop]. cbv zeta. destruct (CompletionAt _ 0) as [entry|]; [|reflexivity].
  destruct (RemoveCompletionFront _) as [ [delivered drained]|]; [|reflexivity].
  case_if; [reflexivity|]. case_if.
  - etransitivity; [|apply IH]. set (t1 := ReleaseInboundSlab _ _). transitivity t1; [by apply frame_evolves|].
    destruct (FindFlow _ _ t1) as [flow_slot|]; [|reflexivity]. same_or_flow.
  - etransitivity; [|apply IH]. by apply frame_evolves.
Qed.
Lemma receive_evolves client room payload now t :
  evolves now t (snd (ReceiveCompletions client room payload t)).
Proof.
  unfold ReceiveCompletions. destruct (FindClient client t) as [slot|]; [|reflexivity].
  case_if; [reflexivity|apply receive_loop_evolves].
Qed.

Lemma enqueue_data_evolves slot slab now t : evolves now t (snd (EnqueueDataCompletion slot slab t)).
Proof.
  unfold EnqueueDataCompletion. cbv zeta.
  assert (forall s, frame s = frame t -> forall f, same_tuple f (flow_at slot t) -> evolves now t (set_flow slot f s)) as Hset.
  { intros s E f Hf. etransitivity; [by apply frame_evolves|]. apply set_flow_same. by rewrite (flow_at_frame slot t s). }
  assert (forall s b, frame s = frame t -> evolves now t (set_flow slot ((flow_at slot t) <| fl_inbound_occupancy ::= b |>) s))
    as Hocc.
  { intros s b E. apply Hset; [done|]. unfold same_tuple. generalize (flow_at slot t). by intros []. }
  destruct (FindClient _ _) as [client|]; [|by apply Hocc]. case_if; [by apply Hocc|]. cbn [snd].
  apply frame_evolves. rewrite frame_notify. done.
Qed.
Lemma deliver_evolves peer generation token remote payload now t :
  evolves now t (snd (DeliverInboundUdpDatagram peer generation token remote payload now t)).
Proof.
  unfold DeliverInboundUdpDatagram. case_if; [reflexivity|].
  destruct (flow_with_handle _ _) as [index|]; [|reflexivity]. cbv zeta.
  case_if; [reflexivity|]. case_if; [same_or_flow|].
  pose proof (frame_slab t) as Eslab. destruct (AllocateInboundSlab t) as [slab t1]. cbn [snd] in Eslab.
  case_if; cbn [snd].
  - transitivity t1; [by apply frame_evolves|]. same_or_flow.
  - set (t2 := t1 <| m_inbound_slabs ::= _ |>). assert (frame t2 = frame t) as E2 by exact Eslab. clearbody t2.
    set (t3 := set_flow index _ t2). transitivity t3.
    { transitivity t2; [by apply frame_evolves|]. unfold t3. rewrite <- (flow_at_frame index t t2 E2). same_or_flow. }
    clearbody t3. pose proof (enqueue_data_evolves index slab now t3) as Hdata.
    destruct (EnqueueDataCompletion index slab t3) as [ [|] t4]; cbn [snd] in *.
    + transitivity t4; [done|]. same_or_flow.
    + transitivity t4; [done|]. same_or_flow.
Qed.

Lemma step_evolves now op t : evolves now t (flow_step now op t).
Proof.
  destruct op; cbn [flow_step].
  - apply create_evolves.
  - apply destroy_evolves.
  - apply refresh_evolves.
  - apply reserve_evolves.
  - apply commit_evolves.
  - apply cancel_evolves.
  - apply prepare_evolves.
  - apply complete_send_evolves.
  - apply notify_capacity_evolves.
  - by apply frame_evolves.
  - apply receive_evolves.
  - unfold CloseFlow. destruct (FindFlow _ _ _); [|reflexivity]. cbn [snd]. case_if; [apply close_slot_evolves|reflexivity].
  - apply deliver_evolves.
  - apply invalidate_evolves.
Qed.

(** ** Traces *)

(** The times of the operations do not go back. *)
Fixpoint times_from (now : Z) (ops : list (Z * FlowOp)) : Prop :=
  match ops with
  | [] => True
  | (time, _) :: ops => now <= time /\ times_from time ops
  end.
Definition last_time (now : Z) (ops : list (Z * FlowOp)) : Z := foldl (fun _ op => fst op) now ops.

Lemma init_tuples_ok : tuples_ok flow_plane_init.
Proof.
  assert (forall f, f ∈ m_flows flow_plane_init -> live f = false) as Hdead.
  { intros f Hf. apply elem_of_replicate_inv in Hf. by subst f. }
  split; try done.
  - intros i j f g Hf _ Lf. apply list_elem_of_lookup_2, Hdead in Hf. congruence.
  - replace (count_if live (m_flows flow_plane_init)) with 0%nat by (symmetry; by apply count_if_all). lia.
  - intros f Hf Lf. rewrite (Hdead f Hf) in Lf. done.
Qed.
Lemma run_ok ops t : tuples_ok t -> tuples_ok (flow_run ops t).
Proof.
  revert t. induction ops as [|[now op] ops IH]; intros t Hok; [done|]. cbn. apply IH. by apply (step_evolves now op).
Qed.
Lemma quarantine_later now now' t tuple released : now <= now' -> quarantined now t tuple released ->
  quarantined now' t tuple released.
Proof. intros Hle Hq Hlt. apply Hq. lia. Qed.
Lemma run_quarantine ops now t tuple released : tuples_ok t -> times_from now ops -> quarantined now t tuple released ->
  quarantined (last_time now ops) (flow_run ops t) tuple released.
Proof.
  revert now t. induction ops as [|[time op] ops IH]; intros now t Hok Htimes Hq; [done|].
  destruct Htimes as [Hle Htimes]. cbn.
  destruct (step_evolves time op t Hok) as (Hok' & Hkeep & _). apply IH; [done|done|].
  by apply Hkeep, (quarantine_later now).
Qed.


(** A client opens a flow, closes it, and opens another to the same endpoint. *)
Definition example_client : TunnelClientId := mk_client_id 0 1.
Definition example_remote : Ipv4Endpoint := mk_ipv4_endpoint [10; 1; 2; 3] 9 0.
Definition example_open : list (Z * FlowOp) :=
  [(0, Op_RefreshPolicy policy_input); (1, Op_CreateClient None);
   (2, Op_Reserve example_client (mk_open_request example_remote 7) (mk_availability true true))].
Definition example_reservation : TunnelFlowReservation :=
  fst (ReserveConnectedUdpFlow example_client (mk_open_request example_remote 7) 2 (mk_availability true true)
    (flow_run (take 2 example_open) flow_plane_init)).
Definition example_before : list (Z * FlowOp) := example_open ++ [(3, Op_Commit example_reservation)].
Definition example_after : list (Z * FlowOp) :=
  [(5, Op_Reserve example_client (mk_open_request example_remote 7) (mk_availability true true))].
Definition example_close : FlowOp := Op_CloseFlow example_client (rv_adapter_token example_reservation).
Definition live_tuples (t : TunnelFlowPlane) : list FlowTuple := tuple_of <$> List.filter live (m_flows t).

