(* ===== verification/FlowRings.v ===== *)
(** * The completion rings and inbound slabs of the tunnel flows

    An inbound datagram waits in a slab that exactly one record in the completion
    ring of its client refers to.  The ring refines a queue; the counts that the
    plane keeps (completions and datagrams of a client, datagrams of a flow) are
    those of the queue. *)

From S2P Require Import Prelude Endian Messages PacketQueue Platform Session Base64 InnerPacket Timers.
From S2P Require Import Crypto Device Data Identity Admission Handshake Peer PeerController RuntimeEvents.
From S2P Require Import FlowPolicy FlowPlane FlowTuples.
From Stdlib Require Import ZifyNat.
Local Open Scope Z_scope.

Ltac Zify.zify_post_hook ::= Z.div_mod_to_equations.
#[local] Arguments Nat.modulo : simpl never.
#[local] Arguments CompletionQueueCapacity : simpl never.
#[local] Arguments ReleaseInboundSlab : simpl never.
#[local] Arguments slab_init : simpl never.

(** ** The ring as a queue *)

Definition is_data (entry : CompletionEntry) : bool := negb (en_slab entry =? InvalidSlabSlot)%nat.
Definition ring_slabs (client : ClientSlot) : list nat := en_slab <$> List.filter is_data (ring_entries client).

Record ring_shape (client : ClientSlot) : Prop := {
  rs_length : length (cs_completions client) = CompletionQueueCapacity;
  rs_head : (cs_completion_head client < CompletionQueueCapacity)%nat;
  rs_count : (cs_completion_count client <= CompletionQueueCapacity)%nat
}.
(** The records that announce a datagram are those with a slab. *)
Definition is_datagram (record : CompletionRecord) : bool :=
  bool_decide (cr_type record = CompletionType_InboundDatagram).
Record ring_ok (client : ClientSlot) : Prop := {
  rk_shape : ring_shape client;
  rk_data : cs_data_completion_count client = length (ring_slabs client);
  rk_bound : (cs_data_completion_count client <= DataCompletionCapacity)%nat;
  rk_idle : cs_allocated client = false -> cs_completion_count client = 0%nat;
  rk_types e : e ∈ ring_entries client -> is_datagram (en_record e) = is_data e
}.

Definition entry_at (client : ClientSlot) (k : nat) : CompletionEntry :=
  default entry_init (cs_completions client !! ((cs_completion_head client + k) mod CompletionQueueCapacity)%nat).

Lemma omap_all {A B} (f : A -> option B) (g : A -> B) (l : list A) : (forall x, x ∈ l -> f x = Some (g x)) -> omap f l = g <$> l.
Proof.
  induction l as [|x l IH]; intros H; [done|]. cbn. rewrite (H x) by left. rewrite IH; [done|].
  intros y Hy. apply H. by right.
Qed.
Lemma entries_at client : ring_shape client -> ring_entries client = entry_at client <$> seq 0 (cs_completion_count client).
Proof.
  intros [Hl Hh Hc]. apply omap_all. intros k Hk%elem_of_seq. unfold CompletionAt, entry_at.
  rewrite (proj2 (Nat.ltb_lt _ _)), Hl by lia.
  assert ((cs_completion_head client + k) mod CompletionQueueCapacity < length (cs_completions client))%nat as Hlt
    by (rewrite Hl; apply Nat.mod_upper_bound; done).
  apply lookup_lt_is_Some_2 in Hlt as [e ->]. done.
Qed.
Lemma length_entries client : ring_shape client -> length (ring_entries client) = cs_completion_count client.
Proof. intros H. by rewrite entries_at, length_fmap, length_seq. Qed.

(** Two ring positions are the same slot only if they are the same position. *)
Lemma position_ne h j k : (j < CompletionQueueCapacity)%nat -> (k < CompletionQueueCapacity)%nat -> j <> k ->
  ((h + j) mod CompletionQueueCapacity <> (h + k) mod CompletionQueueCapacity)%nat.
Proof. unfold CompletionQueueCapacity. lia. Qed.

Definition ring_push (entry : CompletionEntry) (client : ClientSlot) : ClientSlot :=
  client <| cs_completions ::= <[ring_insert client := entry]> |> <| cs_completion_count ::= S |>.

Lemma push_entries entry client : ring_shape client -> (cs_completion_count client < CompletionQueueCapacity)%nat ->
  ring_shape (ring_push entry client) /\ ring_entries (ring_push entry client) = ring_entries client ++ [entry].
Proof.
  intros Hs Hroom. pose proof Hs as [Hl Hh Hc].
  assert (ring_shape (ring_push entry client)) as Hs' by (split; cbn; rewrite ?length_insert; lia || done).
  split; [done|]. rewrite !entries_at by done. change (cs_completion_count (ring_push entry client))
    with (S (cs_completion_count client)). rewrite seq_S, fmap_app. f_equal.
  - apply list_fmap_ext. intros _ k Hk%list_elem_of_lookup_2%elem_of_seq. unfold entry_at. cbn.
    unfold ring_insert. rewrite Hl, list_lookup_insert_ne; [done|]. apply position_ne; lia.
  - cbn. unfold entry_at. cbn. unfold ring_insert. rewrite Hl, list_lookup_insert_eq; [done|].
    rewrite Hl. by apply Nat.mod_upper_bound.
Qed.

Lemma front_entries client : ring_shape client ->
  match RemoveCompletionFront client with
  | None => ring_entries client = []
  | Some (entry, client') => ring_shape client' /\ ring_entries client = entry :: ring_entries client'
  end.
Proof.
  intros Hs. pose proof Hs as [Hl Hh Hc]. unfold RemoveCompletionFront. destruct (_ =? 0)%nat eqn:E0; bool_prop.
  { apply nil_length_inv. by rewrite length_entries. }
  destruct (cs_completions client !! cs_completion_head client) as [entry|] eqn:Ee.
  2:{ apply lookup_ge_None in Ee. lia. }
  cbn [mbind option_bind]. set (client' := client <| cs_data_completion_count ::= _ |> <| cs_completions ::= _ |>
    <| cs_completion_head := _ |> <| cs_completion_count := _ |>).
  assert (ring_shape client') as Hs'.
  { split; cbn; rewrite ?length_insert, ?Hl; try lia; done. }
  split; [done|]. rewrite !entries_at by done.
  change (cs_completion_count client') with (cs_completion_count client - 1)%nat.
  destruct (cs_completion_count client) as [|n]; [done|]. cbn [seq fmap list_fmap]. f_equal.
  - unfold entry_at. by rewrite Nat.add_0_r, Nat.mod_small, Ee by done.
  - rewrite Nat.sub_succ, Nat.sub_0_r, <- (fmap_S_seq 0), <- list_fmap_compose. apply list_fmap_ext.
    intros _ k Hk%list_elem_of_lookup_2%elem_of_seq. unfold entry_at, compose. cbn. rewrite Hl.
    assert (((cs_completion_head client + 1) mod CompletionQueueCapacity + k) mod CompletionQueueCapacity
      = (cs_completion_head client + S k) mod CompletionQueueCapacity)%nat as -> by (unfold CompletionQueueCapacity; lia).
    rewrite list_lookup_insert_ne; [done|].
    rewrite <- (Nat.mod_small (cs_completion_head client) CompletionQueueCapacity) at 1 by done.
    rewrite <- (Nat.add_0_r (cs_completion_head client)) at 1. apply position_ne; unfold CompletionQueueCapacity in *; lia.
Qed.

(** ** The datagrams of a ring *)

Definition ring_data (client : ClientSlot) : list CompletionEntry := List.filter is_data (ring_entries client).
Lemma ring_slabs_data client : ring_slabs client = en_slab <$> ring_data client.
Proof. done. Qed.
Lemma elem_filter {A} (p : A -> bool) l x : x ∈ List.filter p l <-> p x = true /\ x ∈ l.
Proof. rewrite !list_elem_of_In, List.filter_In. intuition. Qed.
Lemma filter_app {A} (p : A -> bool) l k : List.filter p (l ++ k) = List.filter p l ++ List.filter p k.
Proof. apply List.filter_app. Qed.

(** What the accounts of the plane depend on. *)
Definition client_view (client : ClientSlot) : bool * Z * list CompletionEntry :=
  (cs_allocated client, cs_generation client, ring_data client).

Lemma ring_ok_intro client : ring_shape client -> cs_data_completion_count client = length (ring_data client) ->
  (length (ring_data client) <= DataCompletionCapacity)%nat ->
  (cs_allocated client = false -> cs_completion_count client = 0%nat) ->
  (forall e, e ∈ ring_entries client -> is_datagram (en_record e) = is_data e) -> ring_ok client.
Proof. intros Hs Hd Hb Hi Ht. split; rewrite ?ring_slabs_data, ?length_fmap; lia || done. Qed.
Lemma ring_ok_data client : ring_ok client ->
  cs_data_completion_count client = length (ring_data client) /\ (length (ring_data client) <= DataCompletionCapacity)%nat.
Proof. intros [_ Hd Hb _ _]. rewrite ring_slabs_data, length_fmap in Hd. lia. Qed.

(** Adding a control record. *)
Lemma push_control completion client : ring_ok client -> cs_allocated client = true ->
  (cs_completion_count client < CompletionQueueCapacity)%nat -> is_datagram completion = false ->
  let client' := ring_push (mk_entry completion InvalidSlabSlot) client in
  ring_ok client' /\ client_view client' = client_view client.
Proof.
  intros Hok Ha Hroom Htype client'. destruct (push_entries (mk_entry completion InvalidSlabSlot) client) as [Hs He];
    [apply Hok|done|]. fold client' in Hs, He.
  assert (ring_data client' = ring_data client) as Hd.
  { unfold ring_data. rewrite He, filter_app. cbn. by rewrite app_nil_r. }
  destruct (ring_ok_data _ Hok) as [Hc Hb]. split.
  - apply ring_ok_intro; rewrite ?Hd; try done; [cbn; congruence|].
    intros e. rewrite He, elem_of_app, list_elem_of_singleton. intros [He' | ->]; [by apply (rk_types _ Hok)|exact Htype].
  - unfold client_view. by rewrite Hd.
Qed.

(** Adding a datagram. *)
Lemma push_data record slab client : ring_ok client -> cs_allocated client = true ->
  (cs_completion_count client < CompletionQueueCapacity)%nat ->
  (cs_data_completion_count client < DataCompletionCapacity)%nat -> slab <> InvalidSlabSlot ->
  is_datagram record = true ->
  let client' := (ring_push (mk_entry record slab) client) <| cs_data_completion_count ::= S |> in
  ring_ok client' /\ client_view client' = (cs_allocated client, cs_generation client, ring_data client ++ [mk_entry record slab]).
Proof.
  intros Hok Ha Hroom Hdata Hslab Htype client'. destruct (push_entries (mk_entry record slab) client) as [Hs He];
    [apply Hok|done|].
  assert (ring_data client' = ring_data client ++ [mk_entry record slab]) as Hd.
  { change (ring_data client') with (ring_data (ring_push (mk_entry record slab) client)). unfold ring_data.
    rewrite He, filter_app. f_equal. cbn [List.filter]. unfold is_data. cbn [en_slab].
    by rewrite (proj2 (Nat.eqb_neq _ _) Hslab). }
  destruct (ring_ok_data _ Hok) as [Hc Hb]. split.
  - apply ring_ok_intro; rewrite ?Hd, ?length_app; cbn [length].
    + split; apply Hs.
    + cbn. lia.
    + lia.
    + cbn. congruence.
    + intros e. change (ring_entries client') with (ring_entries (ring_push (mk_entry record slab) client)).
      rewrite He, elem_of_app, list_elem_of_singleton. intros [He' | ->]; [by apply (rk_types _ Hok)|].
      cbn [en_record]. rewrite Htype. symmetry. by apply negb_true_iff, Nat.eqb_neq.
  - unfold client_view. by rewrite Hd.
Qed.

(** Replacing a control record. *)
Lemma replace_control completion index client : ring_ok client -> is_datagram completion = false ->
  find_index (coalesces completion) (ring_entries client) = Some index ->
  let client' := client <| cs_completions ::= alter (fun entry => entry <| en_record := completion |>)
    ((cs_completion_head client + index) mod length (cs_completions client))%nat |> in
  ring_ok client' /\ client_view client' = client_view client.
Proof.
  intros Hok Htype (e & He & Hco & _)%find_index_some client'. pose proof Hok as [Hs _ _ _ _]. pose proof Hs as [Hl Hh Hc].
  assert (ring_shape client') as Hs' by (split; cbn; rewrite ?length_alter; done).
  assert (index < cs_completion_count client)%nat as Hi.
  { rewrite <- length_entries by done. by eapply lookup_lt_Some. }
  assert (ring_entries client' = alter (fun entry => entry <| en_record := completion |>) index (ring_entries client)) as Hent.
  { apply list_eq. intros k. rewrite !entries_at by done. change (cs_completion_count client') with (cs_completion_count client).
    destruct (decide (k < cs_completion_count client)%nat) as [Hk|Hk].
    - rewrite list_lookup_fmap, lookup_seq_lt by done. cbn [fmap option_fmap option_map].
      destruct (decide (k = index)) as [->|Hne].
      + rewrite list_lookup_alter_eq, list_lookup_fmap, lookup_seq_lt by done. cbn [fmap option_fmap option_map]. f_equal.
        unfold entry_at. cbn. rewrite Hl, list_lookup_alter_eq.
        destruct (cs_completions client !! _) eqn:E; [done|]. apply lookup_ge_None in E. exfalso.
        pose proof (Nat.mod_upper_bound (cs_completion_head client + index) CompletionQueueCapacity). lia.
      + rewrite list_lookup_alter_ne, list_lookup_fmap, lookup_seq_lt by done. cbn [fmap option_fmap option_map]. f_equal.
        unfold entry_at. cbn. rewrite Hl, list_lookup_alter_ne; [done|]. apply position_ne; lia || done.
    - rewrite !(proj2 (lookup_ge_None _ _)); rewrite ?length_alter, ?length_fmap, ?length_seq; lia || done. }
  assert (en_slab e = InvalidSlabSlot) as Hctl.
  { unfold coalesces in Hco. bool_prop. done. }
  assert (ring_data client' = ring_data client) as Hd.
  { unfold ring_data. rewrite Hent. clear -He Hctl. revert index He.
    induction (ring_entries client) as [|a l IH]; intros [|index] He; [done..| |].
    - injection He as ->. change (alter ?f 0%nat (e :: l)) with (f e :: l). cbn [List.filter].
      change (is_data (e <| en_record := completion |>)) with (is_data e). unfold is_data. by rewrite Hctl.
    - change (alter ?f (S index) (a :: l)) with (a :: alter f index l). cbn [List.filter]. by rewrite (IH index He). }
  destruct (ring_ok_data _ Hok) as [Hcnt Hb]. split.
  - apply ring_ok_intro; rewrite ?Hd; try done; [apply Hok|].
    intros x (k & Hk)%list_elem_of_lookup. rewrite Hent in Hk. destruct (decide (k = index)) as [->|Hne].
    + rewrite list_lookup_alter_eq, He in Hk. injection Hk as <-. change (is_datagram completion = is_data e).
      rewrite Htype. symmetry. by apply negb_false_iff, Nat.eqb_eq.
    + rewrite list_lookup_alter_ne in Hk by done.
      apply (rk_types _ Hok). by eapply list_elem_of_lookup_2.
  - unfold client_view. by rewrite Hd.
Qed.

(** Taking the first record. *)
Lemma front_ok client entry client' : ring_ok client -> RemoveCompletionFront client = Some (entry, client') ->
  ring_ok client' /\
  cs_allocated client' = cs_allocated client /\ cs_generation client' = cs_generation client /\
  cs_completion_count client = S (cs_completion_count client') /\
  CompletionAt client 0 = Some entry /\
  ring_data client = (if is_data entry then [entry] else []) ++ ring_data client'.
Proof.
  intros Hok E. pose proof (front_entries client (rk_shape _ Hok)) as H. rewrite E in H. destruct H as [Hs He].
  assert (ring_data client = (if is_data entry then [entry] else []) ++ ring_data client') as Hd.
  { unfold ring_data. rewrite He. cbn [List.filter]. by destruct (is_data entry). }
  destruct (ring_ok_data _ Hok) as [Hc Hb]. unfold RemoveCompletionFront in E.
  destruct (_ =? 0)%nat eqn:E0; [done|]. bool_prop.
  destruct (cs_completions client !! cs_completion_head client) as [first|] eqn:Ef; [|done].
  cbn [mbind option_bind] in E. injection E as -> Ec.
  assert (cs_data_completion_count client' =
    if is_data entry && (0 <? cs_data_completion_count client)%nat then (cs_data_completion_count client - 1)%nat
    else cs_data_completion_count client) as Edata by (rewrite <- Ec; reflexivity).
  assert (cs_completion_count client' = cs_completion_count client - 1)%nat as Ecount by (rewrite <- Ec; reflexivity).
  assert (cs_allocated client' = cs_allocated client) as Ealloc by (rewrite <- Ec; reflexivity).
  split_and!; [|done|by rewrite <- Ec|lia| |done].
  - apply ring_ok_intro; [done| | | |].
    + rewrite Hd, length_app in Hc. rewrite Edata. destruct (is_data entry); cbn [andb length] in *; [|done].
      destruct (0 <? _)%nat eqn:E1; bool_prop; lia.
    + rewrite Hd, length_app in Hb. lia.
    + intros Ha. rewrite Ealloc in Ha. apply (rk_idle _ Hok) in Ha. lia.
    + intros x Hx. apply (rk_types _ Hok). rewrite He. by right.
  - unfold CompletionAt. rewrite (proj2 (Nat.ltb_lt _ _)) by lia.
    rewrite Nat.add_0_r, Nat.mod_small; [done|]. rewrite (rs_length _ (rk_shape _ Hok)). apply Hok.
Qed.

(** ** Removing the datagrams of a flow *)

Definition of_flow (handle : Z) (entry : CompletionEntry) : bool := cr_flow (en_record entry) =? handle.
Definition release_all (entries : list CompletionEntry) (t : TunnelFlowPlane) : TunnelFlowPlane :=
  foldl (fun t entry => ReleaseInboundSlab (en_slab entry) t) t entries.

Lemma retain_loop_spec handle entries retained n t :
  retain_loop handle entries retained n t =
    let kept := List.filter (fun e => negb (of_flow handle e && is_data e)) entries in
    (retained ++ kept, (n + length (List.filter is_data kept))%nat,
     release_all (List.filter (of_flow handle) (List.filter is_data entries)) t).
Proof.
  revert retained n t. induction entries as [|e entries IH]; intros retained n t.
  { cbn. by rewrite app_nil_r, Nat.add_0_r. }
  cbn [retain_loop List.filter]. fold (is_data e) (of_flow handle e).
  destruct (is_data e) eqn:Hd; destruct (of_flow handle e) eqn:Hf; cbn [andb negb List.filter];
    rewrite ?Hd, ?Hf, IH; cbv zeta; rewrite <- ?app_assoc; cbn [length app]; rewrite ?Nat.add_succ_r; done.
Qed.

Lemma rebuilt_entries retained client : (length retained <= CompletionQueueCapacity)%nat ->
  let client' := client <| cs_completions := retained ++ replicate (CompletionQueueCapacity - length retained) entry_init |>
    <| cs_completion_head := 0%nat |> <| cs_completion_count := length retained |> in
  ring_shape client' /\ ring_entries client' = retained.
Proof.
  intros Hl client'. assert (ring_shape client') as Hs.
  { split; cbn; rewrite ?length_app, ?length_replicate; [lia|unfold CompletionQueueCapacity; lia|lia]. }
  split; [done|]. rewrite entries_at by done. apply list_eq. intros k.
  change (cs_completion_count client') with (length retained). destruct (decide (k < length retained)%nat) as [Hk|Hk].
  - rewrite list_lookup_fmap, lookup_seq_lt by done. cbn [fmap option_fmap option_map]. unfold entry_at. cbn.
    rewrite Nat.mod_small by lia. rewrite lookup_app_l by done.
    by destruct (lookup_lt_is_Some_2 retained k Hk) as [e ->].
  - rewrite !(proj2 (lookup_ge_None _ _)); rewrite ?length_fmap, ?length_seq; lia || done.
Qed.

Lemma filter_comm {A} (p q : A -> bool) l : List.filter p (List.filter q l) = List.filter q (List.filter p l).
Proof.
  induction l as [|a l IH]; [done|]. cbn [List.filter].
  destruct (p a) eqn:Hp, (q a) eqn:Hq; cbn [List.filter]; rewrite ?Hp, ?Hq, ?IH; done.
Qed.
Lemma filter_data_kept handle entries :
  List.filter is_data (List.filter (fun e => negb (of_flow handle e && is_data e)) entries) =
  List.filter (fun e => negb (of_flow handle e)) (List.filter is_data entries).
Proof.
  induction entries as [|e entries IH]; [done|]. cbn [List.filter].
  destruct (is_data e) eqn:Hd, (of_flow handle e) eqn:Hf; cbn [andb negb List.filter]; rewrite ?Hd, ?Hf; cbn; rewrite ?IH; done.
Qed.
Lemma filter_length_le {A} (p : A -> bool) l : (length (List.filter p l) <= length l)%nat.
Proof. induction l as [|a l IH]; [done|]. cbn. destruct (p a); cbn; lia. Qed.

(** What [RemoveFlowCompletions] leaves of a ring. *)
Lemma remove_flow_spec flow_slot client_slot t : ring_ok (client_at client_slot t) ->
  exists client', let handle := MakeFlowHandle flow_slot (flow_at flow_slot t) in
    let client := client_at client_slot t in
    RemoveFlowCompletions flow_slot client_slot t =
      set_client client_slot client' (release_all (List.filter (of_flow handle) (ring_data client)) t) /\
    ring_ok client' /\
    client_view client' = (cs_allocated client, cs_generation client,
                           List.filter (fun e => negb (of_flow handle e)) (ring_data client)).
Proof.
  intros Hok. unfold RemoveFlowCompletions. cbv zeta. set (client := client_at client_slot t) in *.
  set (handle := MakeFlowHandle flow_slot (flow_at flow_slot t)).
  rewrite retain_loop_spec. cbv zeta. cbn [app]. rewrite Nat.add_0_l.
  set (kept := List.filter _ (ring_entries client)). eexists. split; [reflexivity|].
  assert (length kept <= cs_completion_count client)%nat as Hkept.
  { rewrite <- (length_entries _ (rk_shape _ Hok)). apply filter_length_le. }
  destruct (rebuilt_entries kept client) as [Hs He]; [pose proof (rs_count _ (rk_shape _ Hok)); lia|].
  set (client' := client <| cs_completions := _ |> <| cs_completion_head := _ |> <| cs_completion_count := _ |>) in Hs, He.
  assert (List.filter is_data kept = List.filter (fun e => negb (of_flow handle e)) (ring_data client)) as Hdata
    by apply filter_data_kept.
  set (client'' := _ <| cs_data_completion_count := _ |>).
  assert (ring_data client'' = List.filter (fun e => negb (of_flow handle e)) (ring_data client)) as Hd.
  { rewrite <- Hdata, <- He. reflexivity. }
  split; [|unfold client_view; by rewrite Hd]. apply ring_ok_intro.
  - destruct Hs as [H1 H2 H3]. split; [exact H1|exact H2|exact H3].
  - rewrite Hd. cbn. by rewrite Hdata.
  - rewrite Hd. etransitivity; [apply filter_length_le|]. apply (ring_ok_data _ Hok).
  - cbn. intros Ha. apply (rk_idle _ Hok) in Ha. lia.
  - intros e. change (ring_entries client'') with (ring_entries client'). rewrite He. intros [_ Hin]%elem_filter.
    by apply (rk_types _ Hok).
Qed.

(** ** Handles *)

(** The fields of a flow that its handle encodes, as the plane assigns them. *)
Record handle_ok (f : FlowSlot) : Prop := {
  hk_slot : 0 <= fl_client_slot f < Z.of_nat MaximumClientContexts;
  hk_client : 0 < fl_client_generation f < 2 ^ 32;
  hk_generation : 0 < fl_allocation_generation f < 2 ^ 24
}.

Lemma handle_sum i f : (i < MaximumFlows)%nat -> handle_ok f ->
  MakeFlowHandle i f =
    fl_client_generation f * 2 ^ 32 + fl_allocation_generation f * 2 ^ 8 + fl_client_slot f * 2 ^ 4 + Z.of_nat i.
Proof.
  intros Hi [H1 H2 H3]. unfold MakeFlowHandle. cbv zeta. change (Z.of_nat MaximumClientContexts) with 4 in H1.
  assert (Z.of_nat i < 16) as Hi' by (change MaximumFlows with 16%nat in Hi; lia).
  change 16777215 with (2 ^ 24 - 1). change 4294967295 with (2 ^ 32 - 1). rewrite !land_mask, !Z.mod_small by lia.
  rewrite (Z.lor_comm (Z.shiftl (fl_client_slot f) 4)), (lor_shiftl (Z.of_nat i)) by (unfold in_width; lia).
  rewrite <- Z.lor_assoc, (Z.lor_comm (Z.shiftl _ 32)), (Z.lor_comm (Z.shiftl _ 8)).
  rewrite (lor_shiftl _ (fl_allocation_generation f)) by (unfold in_width; lia).
  rewrite lor_shiftl by (unfold in_width; lia). lia.
Qed.

(** A handle decodes to what it was made from. *)
Lemma decode_handle i f : (i < MaximumFlows)%nat -> handle_ok f ->
  DecodeFlowHandle (MakeFlowHandle i f) =
    Some (i, fl_allocation_generation f, fl_client_slot f, fl_client_generation f).
Proof.
  intros Hi Hok. rewrite handle_sum by done. destruct Hok as [H1 H2 H3]. unfold DecodeFlowHandle.
  change (Z.of_nat MaximumClientContexts) with 4 in *. change (Z.of_nat MaximumFlows) with 16.
  assert (Z.of_nat i < 16) as Hi' by (change MaximumFlows with 16%nat in Hi; lia).
  set (h := _ + Z.of_nat i). assert (h <> 0) as Hh by (unfold h; lia).
  rewrite (proj2 (Z.eqb_neq _ _) Hh). cbv zeta.
  change 15 with (2 ^ 4 - 1). change 3 with (2 ^ 2 - 1). change 16777215 with (2 ^ 24 - 1).
  unfold u32. rewrite !land_mask, !shiftr_div by lia.
  change (2 ^ 4) with 16. change (2 ^ 2) with 4. change (2 ^ 8) with 256. change (2 ^ 24) with 16777216 in *.
  change (2 ^ 32) with 4294967296 in *.
  assert (h mod 16 = Z.of_nat i) as -> by (unfold h; lia).
  assert (h / 16 mod 4 = fl_client_slot f) as -> by (unfold h; lia).
  assert (h / 256 mod 16777216 = fl_allocation_generation f) as -> by (unfold h; lia).
  assert (h / 4294967296 mod 4294967296 = fl_client_generation f) as -> by (unfold h; lia).
  rewrite !(proj2 (Z.leb_gt _ _)), !(proj2 (Z.eqb_neq _ _)), Nat2Z.id by lia. done.
Qed.

(** Flows in different slots have different handles. *)
Lemma handle_slot i j f g : (i < MaximumFlows)%nat -> (j < MaximumFlows)%nat -> handle_ok f -> handle_ok g ->
  MakeFlowHandle i f = MakeFlowHandle j g -> i = j.
Proof.
  intros Hi Hj Hf Hg E. apply (f_equal DecodeFlowHandle) in E. rewrite !decode_handle in E by done. congruence.
Qed.

(** ** Who owns the slabs *)

Definition slab_used (t : TunnelFlowPlane) (s : nat) : bool := sl_allocated (slab_at s t).
Definition allocated (t : TunnelFlowPlane) : list nat := List.filter (slab_used t) (seq 0 InboundPacketSlabCount).
(** The slabs that the queued datagrams of the clients refer to. *)
Definition owned (t : TunnelFlowPlane) : list nat := concat (ring_slabs <$> m_clients t).

Lemma elem_allocated t s : s ∈ allocated t <-> (s < InboundPacketSlabCount)%nat /\ slab_used t s = true.
Proof. unfold allocated. rewrite list_elem_of_In, List.filter_In, <- list_elem_of_In, elem_of_seq. intuition lia. Qed.
Lemma allocated_NoDup t : NoDup (allocated t).
Proof. apply NoDup_ListNoDup, List.NoDup_filter, NoDup_ListNoDup, NoDup_seq. Qed.

Lemma allocated_slabs t t' : m_inbound_slabs t' = m_inbound_slabs t -> allocated t' = allocated t.
Proof. intros E. unfold allocated, slab_used, slab_at. by rewrite E. Qed.

(** Two states whose slabs differ in [s] only. *)
Lemma allocated_grow t t' s : (s < InboundPacketSlabCount)%nat -> slab_used t s = false -> slab_used t' s = true ->
  (forall k, k <> s -> slab_used t' k = slab_used t k) -> allocated t' ≡ₚ s :: allocated t.
Proof.
  intros Hs Hf Ht Hk. apply NoDup_Permutation; [apply allocated_NoDup| |].
  - apply NoDup_cons. split; [|apply allocated_NoDup]. rewrite elem_allocated. intros [_ E]. congruence.
  - intros k. rewrite elem_of_cons, !elem_allocated. destruct (decide (k = s)) as [->|Hne].
    + split; [by left|by intros _].
    + rewrite Hk by done. split; [by right|by intros [|] ].
Qed.
Lemma slab_used_release t s k : k <> s -> slab_used (ReleaseInboundSlab s t) k = slab_used t k.
Proof. intros Hne. unfold slab_used, slab_at, ReleaseInboundSlab. cbn. by rewrite list_lookup_insert_ne. Qed.
Lemma slab_used_released t s : slab_used (ReleaseInboundSlab s t) s = false.
Proof.
  unfold slab_used, slab_at, ReleaseInboundSlab. cbn. destruct (decide (s < length (m_inbound_slabs t))%nat).
  - by rewrite list_lookup_insert_eq.
  - rewrite list_insert_ge, (lookup_ge_None_2 (m_inbound_slabs t) s) by lia. done.
Qed.
Lemma release_allocated t s : s ∈ allocated t -> allocated t ≡ₚ s :: allocated (ReleaseInboundSlab s t).
Proof.
  intros [Hs Hu]%elem_allocated. apply allocated_grow; [done|apply slab_used_released|done|].
  intros k Hk. symmetry. by apply slab_used_release.
Qed.

Lemma concat_insert {A B} (f : A -> list B) i a a' (l : list A) : l !! i = Some a ->
  concat (f <$> <[i:=a']> l) ++ f a ≡ₚ concat (f <$> l) ++ f a'.
Proof.
  revert i. induction l as [|b l IH]; intros [|i] Hi; [done..| |].
  - injection Hi as ->. change (<[0%nat:=a']> (a :: l)) with (a' :: l). cbn. solve_Permutation.
  - change (<[S i:=a']> (b :: l)) with (b :: <[i:=a']> l). cbn. rewrite <- !app_assoc. by rewrite IH.
Qed.
Lemma client_at_lookup slot t : (slot < length (m_clients t))%nat -> m_clients t !! slot = Some (client_at slot t).
Proof. intros H. unfold client_at. by destruct (lookup_lt_is_Some_2 _ _ H) as [c ->]. Qed.
Lemma owned_set slot client t : (slot < length (m_clients t))%nat ->
  owned (set_client slot client t) ++ ring_slabs (client_at slot t) ≡ₚ owned t ++ ring_slabs client.
Proof. intros H. apply concat_insert. by apply client_at_lookup. Qed.

(** Releasing the slabs of some entries. *)
Lemma release_all_spec entries t rest : allocated t ≡ₚ (en_slab <$> entries) ++ rest ->
  allocated (release_all entries t) ≡ₚ rest.
Proof.
  revert t. induction entries as [|e entries IH]; intros t H; [done|].
  change (release_all (e :: entries) t) with (release_all entries (ReleaseInboundSlab (en_slab e) t)). apply IH.
  cbn [fmap list_fmap app] in H. apply (Permutation_cons_inv (a := en_slab e)). rewrite <- H. symmetry. apply release_allocated.
  rewrite H. by left.
Qed.
Lemma release_all_frame entries t :
  m_clients (release_all entries t) = m_clients t /\ m_flows (release_all entries t) = m_flows t /\
  length (m_inbound_slabs (release_all entries t)) = length (m_inbound_slabs t) /\
  m_next_client_generation (release_all entries t) = m_next_client_generation t.
Proof.
  revert t. induction entries as [|e entries IH]; intros t; [done|].
  change (release_all (e :: entries) t) with (release_all entries (ReleaseInboundSlab (en_slab e) t)).
  destruct (IH (ReleaseInboundSlab (en_slab e) t)) as (-> & -> & -> & ->). split_and!; try done.
  cbn. apply length_insert.
Qed.

(** ** The accounts of the plane *)

Definition slot_of (f : FlowSlot) : nat := Z.to_nat (fl_client_slot f).
(** The datagrams queued for the flow in slot [i]. *)
Definition queued (i : nat) (f : FlowSlot) (t : TunnelFlowPlane) : list CompletionEntry :=
  List.filter (of_flow (MakeFlowHandle i f)) (ring_data (client_at (slot_of f) t)).

Record accounts (t : TunnelFlowPlane) : Prop := {
  ac_clients : length (m_clients t) = MaximumClientContexts;
  ac_flows : length (m_flows t) = MaximumFlows;
  ac_slabs : length (m_inbound_slabs t) = InboundPacketSlabCount;
  ac_rings c : c ∈ m_clients t -> ring_ok c;
  ac_balance : owned t ≡ₚ allocated t;
  ac_owner f : f ∈ m_flows t -> live f = true -> handle_ok f /\ FindClient (client_of f) t = Some (slot_of f);
  ac_data c e : e ∈ ring_data (client_at c t) ->
    exists i f, m_flows t !! i = Some f /\ is_open f = true /\ slot_of f = c /\
      cr_flow (en_record e) = MakeFlowHandle i f;
  ac_occupancy i f : m_flows t !! i = Some f -> live f = true ->
    fl_inbound_occupancy f = Z.of_nat (length (queued i f t)) /\ fl_inbound_occupancy f <= MaximumInboundDatagramsPerFlow;
  ac_next_client : 0 <= m_next_client_generation t < 2 ^ 32
}.

(** What the accounts depend on. *)
Definition account_view (t : TunnelFlowPlane) :=
  (client_view <$> m_clients t, m_flows t, m_inbound_slabs t, m_next_client_generation t).

Lemma view_at c t t' : client_view <$> m_clients t' = client_view <$> m_clients t ->
  client_view (client_at c t') = client_view (client_at c t).
Proof.
  intros E. unfold client_at. apply (f_equal (.!! c)) in E. rewrite !list_lookup_fmap in E.
  destruct (m_clients t' !! c), (m_clients t !! c); cbn in *; congruence.
Qed.
Lemma find_client_view client t t' : client_view <$> m_clients t' = client_view <$> m_clients t ->
  FindClient client t' = FindClient client t.
Proof.
  intros E. unfold FindClient. case_if; [done|]. cbv zeta.
  pose proof (view_at (Z.to_nat (tc_slot client)) t t' E) as [= -> -> _]. done.
Qed.
Lemma owned_view t t' : client_view <$> m_clients t' = client_view <$> m_clients t -> owned t' = owned t.
Proof.
  intros E. unfold owned. f_equal.
  assert (forall l : list ClientSlot, ring_slabs <$> l = (fun v => en_slab <$> snd v) <$> (client_view <$> l)) as Hs.
  { intros l. rewrite <- list_fmap_compose. done. }
  by rewrite !Hs, E.
Qed.
Lemma queued_view i f t t' : client_view <$> m_clients t' = client_view <$> m_clients t -> queued i f t' = queued i f t.
Proof. intros E. unfold queued. by pose proof (view_at (slot_of f) t t' E) as [= _ _ ->]. Qed.

Lemma accounts_view t t' : account_view t' = account_view t -> (forall c, c ∈ m_clients t' -> ring_ok c) ->
  accounts t -> accounts t'.
Proof.
  intros [= Ec Ef Es En] Hr [H1 H2 H3 H4 H5 H6 H7 H8 H9]. split; rewrite ?Ef, ?Es, ?En; try done.
  - apply (f_equal length) in Ec. rewrite !length_fmap in Ec. congruence.
  - rewrite (owned_view t t' Ec). unfold allocated, slab_used, slab_at in *. rewrite Es. exact H5.
  - intros f Hf Hl. rewrite (find_client_view _ t t' Ec). by apply H6.
  - intros c e. pose proof (view_at c t t' Ec) as [= _ _ ->]. apply H7.
  - intros i f Hf Hl. rewrite (queued_view i f t t' Ec). by apply H8.
Qed.

(** ** Operations on control records *)

Lemma client_ok c t : accounts t -> (c < MaximumClientContexts)%nat -> ring_ok (client_at c t).
Proof.
  intros H Hc. apply (ac_rings _ H). eapply list_elem_of_lookup_2, client_at_lookup. by rewrite (ac_clients _ H).
Qed.
Lemma find_client_spec client t c : 0 <= tc_slot client -> FindClient client t = Some c ->
  c = Z.to_nat (tc_slot client) /\ (c < MaximumClientContexts)%nat /\ Z.of_nat c = tc_slot client /\
  cs_allocated (client_at c t) = true /\ cs_generation (client_at c t) = tc_generation client /\
  tc_generation client <> 0.
Proof.
  intros H0. unfold FindClient, client_IsValid. destruct (negb _) eqn:Hv; [done|]. cbv zeta.
  destruct (cs_allocated _ && _) eqn:Ha; [|done]. intros [= <-]. bool_prop.
  change (Z.of_nat MaximumClientContexts) with 4 in *. change MaximumClientContexts with 4%nat.
  split_and!; try done; lia.
Qed.
Lemma find_client_range client t c : FindClient client t = Some c ->
  (c < MaximumClientContexts)%nat /\ cs_allocated (client_at c t) = true.
Proof.
  unfold FindClient, client_IsValid. destruct (negb _) eqn:Hv; [done|]. cbv zeta.
  destruct (cs_allocated _ && _) eqn:Ha; [|done]. intros [= <-]. bool_prop.
  change (Z.of_nat MaximumClientContexts) with 4 in *. change MaximumClientContexts with 4%nat. split; [lia|done].
Qed.

Lemma view_set_client c client t : client_view client = client_view (client_at c t) ->
  account_view (set_client c client t) = account_view t.
Proof.
  intros Hv. unfold account_view. cbn. do 3 f_equal. rewrite list_fmap_insert. apply list_insert_id'.
  intros Hlt. rewrite list_lookup_fmap, client_at_lookup by (by rewrite length_fmap in Hlt). cbn. by rewrite Hv.
Qed.
Lemma rings_set_client c client t : accounts t -> ring_ok client ->
  forall d, d ∈ m_clients (set_client c client t) -> ring_ok d.
Proof.
  intros H Hr d (j & Hj)%list_elem_of_lookup. cbn in Hj.
  apply list_lookup_insert_Some in Hj as [(-> & -> & _)|[_ Hj] ]; [done|].
  apply (ac_rings _ H). by eapply list_elem_of_lookup_2.
Qed.
Lemma set_client_view c client t : accounts t -> ring_ok client ->
  client_view client = client_view (client_at c t) -> accounts (set_client c client t).
Proof.
  intros H Hr Hv. apply (accounts_view t); [by apply view_set_client|by apply rings_set_client|done].
Qed.
Lemma view_notify client was_empty t : account_view (NotifyIfNeeded client was_empty t) = account_view t.
Proof. unfold NotifyIfNeeded. by destruct (cs_notifier client), was_empty. Qed.
Lemma clients_notify client was_empty t : m_clients (NotifyIfNeeded client was_empty t) = m_clients t.
Proof. unfold NotifyIfNeeded. by destruct (cs_notifier client), was_empty. Qed.
Lemma notify_accounts client was_empty t : accounts t -> accounts (NotifyIfNeeded client was_empty t).
Proof. intros H. apply (accounts_view t); [apply view_notify|rewrite clients_notify; apply H|done]. Qed.

(** A control record changes nothing that the accounts depend on. *)
Lemma control_spec client completion t : is_datagram completion = false -> accounts t ->
  accounts (EnqueueControlCompletion client completion t) /\
  account_view (EnqueueControlCompletion client completion t) = account_view t.
Proof.
  intros Htype H. unfold EnqueueControlCompletion. destruct (FindClient client t) as [c|] eqn:Ec; [|done].
  apply find_client_range in Ec as [Hc Ha]. pose proof (client_ok c t H Hc) as Hok. cbv zeta.
  destruct (find_index _ _) as [index|] eqn:Ei.
  - destruct (replace_control completion index _ Hok Htype Ei).
    split; [by apply set_client_view|by apply view_set_client].
  - case_if; [done|]. bool_prop. rewrite view_notify.
    destruct (push_control completion _ Hok Ha) as [H1 H2]; [done|done|].
    split; [by apply notify_accounts, set_client_view|by apply view_set_client].
Qed.
Lemma control_accounts client completion t : is_datagram completion = false -> accounts t ->
  accounts (EnqueueControlCompletion client completion t).
Proof. intros Htype H. by apply control_spec. Qed.
Lemma policy_changed_spec t : accounts t ->
  accounts (EnqueuePolicyChanged t) /\ account_view (EnqueuePolicyChanged t) = account_view t.
Proof.
  unfold EnqueuePolicyChanged. generalize (seq 0 MaximumClientContexts). intros l. revert t.
  induction l as [|i l IH]; intros t H; [done|]. cbn [foldl]. cbv zeta. case_if; [by apply IH|].
  set (record := completion_init <| cr_type := _ |> <| cr_status := _ |> <| cr_routing_policy_generation := _ |>).
  destruct (control_spec (mk_client_id (Z.of_nat i) (cs_generation (client_at i t))) record t) as [H1 E1]; [done|done|].
  destruct (IH _ H1) as [H2 E2]. split; [exact H2|]. by rewrite E2.
Qed.
Lemma policy_changed_accounts t : accounts t -> accounts (EnqueuePolicyChanged t).
Proof. intros H. by apply policy_changed_spec. Qed.

(** ** Operations that write a flow *)

(** The written flow has the same handle and number of datagrams, and is open if the
    old one was; or it is not live and the old one was not open. *)
Lemma set_flow_accounts i f' t : accounts t ->
  let f := flow_at i t in
  (live f' = true -> live f = true /\ client_of f' = client_of f /\
     fl_allocation_generation f' = fl_allocation_generation f /\ fl_inbound_occupancy f' = fl_inbound_occupancy f) ->
  (is_open f = true -> is_open f' = true) -> accounts (set_flow i f' t).
Proof.
  intros H f Hlive Hopen. destruct (m_flows t !! i) as [f0|] eqn:Ef.
  2:{ apply (accounts_view t); [|apply H|done]. unfold account_view. cbn. f_equal. f_equal. f_equal.
      apply list_insert_ge. by apply lookup_ge_None. }
  assert (f = f0) as <- by (unfold f, flow_at; by rewrite Ef).
  assert (forall g, live g = true -> client_of g = client_of f -> fl_allocation_generation g = fl_allocation_generation f ->
    handle_ok f -> handle_ok g) as Hhandle.
  { intros g _ [= E1 E2] E3 [K1 K2 K3]. split; congruence. }
  assert (forall g, client_of g = client_of f -> fl_allocation_generation g = fl_allocation_generation f ->
    MakeFlowHandle i g = MakeFlowHandle i f /\ slot_of g = slot_of f) as Hsame.
  { intros g [= E1 E2] E3. unfold MakeFlowHandle, slot_of. by rewrite E1, E2, E3. }
  pose proof H as [H1 H2 H3 H4 H5 H6 H7 H8 H9]. split; try done.
  - cbn. by rewrite length_insert.
  - intros g Hg Lg. apply elem_flows in Hg as [j Hg]. apply set_flow_lookup in Hg as [ [-> ->]|[_ Hg] ].
    + destruct (Hlive Lg) as (Lf & E1 & E2 & _). destruct (H6 f) as [K1 K2]; [by eapply list_elem_of_lookup_2|done|].
      split; [by apply Hhandle|]. change (FindClient (client_of f') t = Some (slot_of f')). rewrite E1.
      by rewrite (proj2 (Hsame f' E1 E2)).
    + apply H6; [|done]. by eapply list_elem_of_lookup_2.
  - intros c e He. destruct (H7 c e He) as (j & g & Hg & Og & Sg & Eg). destruct (decide (j = i)) as [->|Hne].
    + rewrite Ef in Hg. injection Hg as <-. specialize (Hopen Og). exists i, f'.
      destruct Hlive as (Lf & E1 & E2 & _); [by apply andb_true_iff in Hopen as [? _]|].
      destruct (Hsame f' E1 E2) as [K1 K2]. split_and!; try congruence; try done.
      cbn. apply list_lookup_insert_eq. by eapply lookup_lt_Some.
    + exists j, g. split_and!; try done. cbn. by rewrite list_lookup_insert_ne.
  - intros j g Hg Lg. apply set_flow_lookup in Hg as [ [-> ->]|[_ Hg] ].
    + destruct (Hlive Lg) as (Lf & E1 & E2 & E3). destruct (Hsame f' E1 E2) as [K1 K2].
      change (queued i f' (set_flow i f' t)) with (queued i f' t). unfold queued. rewrite K1, K2, E3. by apply H8.
    + by apply (H8 j g).
Qed.

(** ** Changing the datagrams of one flow *)

Abbreviation others h := (List.filter (fun e => negb (of_flow h e))).

Lemma filter_split h l : (en_slab <$> l) ≡ₚ (en_slab <$> List.filter (of_flow h) l) ++ (en_slab <$> others h l).
Proof.
  induction l as [|e l IH]; [done|]. cbn [List.filter fmap list_fmap]. destruct (of_flow h e); cbn; rewrite IH; solve_Permutation.
Qed.
Lemma filter_others h k l : h <> k -> List.filter (of_flow k) (others h l) = List.filter (of_flow k) l.
Proof.
  intros Hne. induction l as [|e l IH]; [done|]. cbn [List.filter]. unfold of_flow at 2.
  destruct (cr_flow (en_record e) =? h) eqn:E; cbn [negb List.filter]; rewrite IH; [|done].
  unfold of_flow at 2. rewrite (proj2 (Z.eqb_neq _ _)); [done|]. bool_prop. congruence.
Qed.
Lemma find_client_same client t t' :
  (forall c, cs_allocated (client_at c t') = cs_allocated (client_at c t)) ->
  (forall c, cs_generation (client_at c t') = cs_generation (client_at c t)) -> FindClient client t' = FindClient client t.
Proof. intros Ha Hg. unfold FindClient. by rewrite Ha, Hg. Qed.
Lemma client_at_insert c client t t' d : m_clients t' = <[c:=client]> (m_clients t) -> (c < length (m_clients t))%nat ->
  client_at d t' = if decide (d = c) then client else client_at d t.
Proof.
  intros E Hc. unfold client_at. rewrite E. destruct (decide (d = c)) as [->|Hne].
  - by rewrite list_lookup_insert_eq.
  - by rewrite list_lookup_insert_ne.
Qed.
Lemma owned_insert c client t t' : m_clients t' = <[c:=client]> (m_clients t) -> (c < length (m_clients t))%nat ->
  owned t' ++ ring_slabs (client_at c t) ≡ₚ owned t ++ ring_slabs client.
Proof. intros E Hc. unfold owned at 1. rewrite E. apply owned_set; done. Qed.
Lemma open_live f : is_open f = true -> live f = true.
Proof. by intros [? _]%andb_true_iff. Qed.

(** The flow in slot [i] is open, and its client's ring changes from [D] to that of
    [client'], but only in the datagrams of the flow. *)
Lemma accounts_flow t t' i f f' client' :
  accounts t -> m_flows t !! i = Some f -> is_open f = true ->
  let c := slot_of f in let h := MakeFlowHandle i f in let D := ring_data (client_at c t) in
  m_clients t' = <[c:=client']> (m_clients t) -> m_flows t' = <[i:=f']> (m_flows t) ->
  length (m_inbound_slabs t') = InboundPacketSlabCount -> m_next_client_generation t' = m_next_client_generation t ->
  ring_ok client' -> cs_allocated client' = cs_allocated (client_at c t) ->
  cs_generation client' = cs_generation (client_at c t) ->
  allocated t' ++ (en_slab <$> D) ≡ₚ allocated t ++ ring_slabs client' ->
  others h (ring_data client') = others h D ->
  (live f' = false /\ List.filter (of_flow h) (ring_data client') = []) \/
  (is_open f' = true /\ client_of f' = client_of f /\ fl_allocation_generation f' = fl_allocation_generation f /\
   fl_inbound_occupancy f' = Z.of_nat (length (List.filter (of_flow h) (ring_data client'))) /\
   fl_inbound_occupancy f' <= MaximumInboundDatagramsPerFlow) ->
  accounts t'.
Proof.
  intros H Ef Of c h D Ec Efl Hs Hn Hr Ha Hg Hbal Hoth Hf'. pose proof H as [H1 H2 H3 H4 H5 H6 H7 H8 H9].
  destruct (H6 f) as [Hh Hfind]; [by eapply list_elem_of_lookup_2|by apply open_live|]. fold c in Hfind.
  assert (c < length (m_clients t))%nat as Hc by (rewrite H1; by eapply find_client_range).
  pose proof (fun d => client_at_insert c client' t t' d Ec Hc) as Hat.
  assert (forall client, FindClient client t' = FindClient client t) as Hfc.
  { intros client. apply find_client_same; intros d; rewrite Hat; by destruct (decide (d = c)) as [->|]. }
  assert (forall j g, m_flows t' !! j = Some g -> (j = i /\ g = f') \/ (j <> i /\ m_flows t !! j = Some g)) as Hlook.
  { intros j g. rewrite Efl. apply (set_flow_lookup i f' t). }
  assert (forall j g, j <> i -> m_flows t !! j = Some g -> live g = true -> MakeFlowHandle j g <> h) as Hdist.
  { intros j g Hne Hj Lg E. apply Hne, (handle_slot j i g f); [| | |exact Hh|exact E].
    - rewrite <- H2. by eapply lookup_lt_Some.
    - rewrite <- H2. by eapply lookup_lt_Some.
    - apply H6; [|done]. by eapply list_elem_of_lookup_2. }
  split; rewrite ?Hn; try done.
  - by rewrite Ec, length_insert.
  - by rewrite Efl, length_insert.
  - intros d. rewrite Ec. intros (j & [(_ & -> & _)|[_ Hj] ]%list_lookup_insert_Some)%list_elem_of_lookup; [done|].
    apply H4. by eapply list_elem_of_lookup_2.
  - apply (Permutation_app_inv_r (en_slab <$> D)). rewrite Hbal, <- H5. apply (owned_insert c client' t t' Ec Hc).
  - intros g [j Hj]%list_elem_of_lookup Lg. rewrite Hfc. destruct (Hlook j g Hj) as [ [-> ->]|[Hne Hj'] ].
    + destruct Hf' as [ [E _]|(_ & E1 & E2 & _) ]; [congruence|]. injection E1 as E3 E4.
      unfold client_of, slot_of. rewrite E3, E4. split; [|exact Hfind]. destruct Hh. split; congruence.
    + apply H6; [|done]. by eapply list_elem_of_lookup_2.
  - intros d e. rewrite Hat. destruct (decide (d = c)) as [->|Hd]; intros He.
    + destruct (of_flow h e) eqn:Eh.
      * destruct Hf' as [ [_ E]|(O' & [= E3 E4] & E2 & _) ].
        { exfalso. assert (e ∈ List.filter (of_flow h) (ring_data client')) as Hin by by apply elem_filter.
          rewrite E in Hin. by apply elem_of_nil in Hin. }
        exists i, f'. split_and!; [|done|by unfold slot_of; rewrite E3|].
        { rewrite Efl. apply list_lookup_insert_eq. by eapply lookup_lt_Some. }
        apply Z.eqb_eq in Eh. rewrite Eh. unfold h, MakeFlowHandle. by rewrite E3, E4, E2.
      * assert (e ∈ others h D) as Hin by (rewrite <- Hoth; apply elem_filter; by rewrite Eh).
        apply elem_filter in Hin as [_ Hin]. destruct (H7 c e Hin) as (j & g & Hj & Og & Sg & Eg).
        exists j, g. split_and!; try done. rewrite Efl, list_lookup_insert_ne; [done|]. intros ->.
        rewrite Ef in Hj. injection Hj as <-. unfold of_flow in Eh. apply Z.eqb_neq in Eh. done.
    + destruct (H7 d e He) as (j & g & Hj & Og & Sg & Eg). exists j, g. split_and!; try done.
      rewrite Efl, list_lookup_insert_ne; [done|]. intros ->. rewrite Ef in Hj. injection Hj as <-. done.
  - intros j g Hj Lg. unfold queued. rewrite Hat. destruct (Hlook j g Hj) as [ [-> ->]|[Hne Hj'] ].
    + destruct Hf' as [ [E _]|(_ & E1 & E2 & E3 & E4) ]; [congruence|]. injection E1 as E5 E6.
      rewrite decide_True by (unfold slot_of; by rewrite E5).
      assert (MakeFlowHandle i f' = h) as -> by (unfold h, MakeFlowHandle; by rewrite E5, E6, E2). done.
    + destruct (H8 j g Hj' Lg) as [E Hlim]. split; [|done]. rewrite E. unfold queued.
      destruct (decide (slot_of g = c)) as [Es|Hs']; [|done]. rewrite Es. fold D.
      rewrite <- (filter_others h _ (ring_data client')), Hoth, (filter_others h); [done| |];
        by apply not_eq_sym, Hdist.
Qed.

(** ** Closing *)

(** Equal in all that the accounts depend on. *)
Definition account_fields (t : TunnelFlowPlane) := (m_clients t, m_flows t, m_inbound_slabs t, m_next_client_generation t).
Lemma accounts_fields t t' : account_fields t' = account_fields t -> accounts t -> accounts t'.
Proof.
  intros [= Ec Ef Es En] H. apply (accounts_view t); [|rewrite Ec; apply H|done]. unfold account_view. by rewrite Ec, Ef, Es, En.
Qed.
Lemma quarantine_fields f now t : account_fields (QuarantineTuple f now t) = account_fields t.
Proof. unfold QuarantineTuple. case_if; [done|]. cbv zeta. by destruct (find_index _ _). Qed.

Lemma flow_live_at i t : is_open (flow_at i t) = true \/ live (flow_at i t) = true -> m_flows t !! i = Some (flow_at i t).
Proof. unfold flow_at. destruct (m_flows t !! i); [done|]. by intros [|]. Qed.
Lemma none_left h l : List.filter (of_flow h) (others h l) = [].
Proof.
  induction l as [|e l IH]; [done|]. cbn [List.filter]. destruct (of_flow h e) eqn:E; cbn [negb List.filter]; [done|].
  by rewrite E.
Qed.
Lemma others_others h l : others h (others h l) = others h l.
Proof.
  induction l as [|e l IH]; [done|]. cbn [List.filter]. destruct (of_flow h e) eqn:E; cbn [negb List.filter]; [done|].
  by rewrite E, IH.
Qed.

Lemma remove_close_accounts i f f' t : accounts t -> m_flows t !! i = Some f -> is_open f = true -> live f' = false ->
  accounts (set_flow i f' (RemoveFlowCompletions i (slot_of f) t)).
Proof.
  intros H Ef Of Hl'. set (c := slot_of f).
  destruct (ac_owner _ H f) as [Hh Hfind]; [by eapply list_elem_of_lookup_2|by apply open_live|]. fold c in Hfind.
  apply find_client_range in Hfind as [Hc Ha]. pose proof (client_ok c t H Hc) as Hok.
  destruct (remove_flow_spec i c t Hok) as (client' & E & Hr & Hv). cbv zeta in E, Hv.
  rewrite (flow_at_some i t f Ef) in E, Hv. set (h := MakeFlowHandle i f) in *. set (D := ring_data (client_at c t)) in *.
  rewrite E. clear E. injection Hv as Ea Eg Ed.
  destruct (release_all_frame (List.filter (of_flow h) D) t) as (Rc & Rf & Rs & Rn).
  set (t1 := release_all (List.filter (of_flow h) D) t) in *.
  apply (accounts_flow t _ i f f' client' H Ef Of); try done.
  - cbn. by rewrite Rc.
  - cbn. by rewrite Rf.
  - change (length (m_inbound_slabs t1) = InboundPacketSlabCount). rewrite Rs. apply H.
  - rewrite (allocated_slabs t1) by done. fold c D. rewrite ring_slabs_data, Ed, (filter_split h D), app_assoc. apply Permutation_app_tail.
    assert (allocated t ≡ₚ (en_slab <$> List.filter (of_flow h) D) ++ allocated t1) as ->; [|apply Permutation_app_comm].
    assert (exists rest, allocated t ≡ₚ (en_slab <$> List.filter (of_flow h) D) ++ rest) as [rest Hrest].
    { exists ((en_slab <$> others h D) ++ owned (set_client c client_init t)).
      assert (c < length (m_clients t))%nat as Hlen by by rewrite (ac_clients _ H).
      pose proof (owned_set c client_init t Hlen) as P. change (ring_slabs client_init) with (@nil nat) in P.
      rewrite app_nil_r in P. rewrite <- (ac_balance _ H), <- P, ring_slabs_data. fold D.
      rewrite (filter_split h D). solve_Permutation. }
    rewrite Hrest at 1. apply Permutation_app_head. symmetry. by apply release_all_spec.
  - by rewrite Ed, others_others.
  - left. split; [done|]. by rewrite Ed, none_left.
Qed.

Lemma clear_flow_accounts i t : fl_pending (flow_at i t) = true -> accounts t -> accounts (set_flow i flow_init t).
Proof. intros Hp H. apply set_flow_accounts; [done|done|]. unfold is_open. rewrite Hp. by rewrite andb_false_r. Qed.

Lemma close_slot_accounts i reason now notify t : accounts t -> accounts (CloseFlowSlot i reason now notify t).
Proof.
  intros H. unfold CloseFlowSlot. cbv zeta. destruct (negb _ || _) eqn:Hl; [done|].
  destruct (fl_pending _) eqn:Hp; [by apply clear_flow_accounts|]. set (f := flow_at i t) in *.
  assert (is_open f = true) as Of.
  { unfold is_open, live. rewrite Hp. apply orb_false_iff in Hl as [Ha ->]. apply negb_false_iff in Ha. by rewrite Ha. }
  assert (m_flows t !! i = Some f) as Ef by (apply flow_live_at; by left).
  destruct (ac_owner _ H f) as [_ ->]; [by eapply list_elem_of_lookup_2|by apply open_live|].
  set (f' := f <| fl_closed := true |> <| fl_terminal_reason := reason |> <| fl_inbound_occupancy := 0 |>
                <| fl_last_activity_at := now |>).
  assert (accounts (set_flow i f' (QuarantineTuple f now (RemoveFlowCompletions i (slot_of f) t)))) as Hclosed.
  { apply (accounts_fields (set_flow i f' (RemoveFlowCompletions i (slot_of f) t))).
    - pose proof (quarantine_fields f now (RemoveFlowCompletions i (slot_of f) t)) as [= E1 E2 E3 E4].
      unfold account_fields. cbn. by rewrite E1, E2, E3, E4.
    - apply remove_close_accounts; try done. unfold live. apply andb_false_r. }
  destruct notify; [by apply control_accounts|done].
Qed.

(** Loops over the flow slots. *)
Lemma for_flows_accounts body t : (forall index t, accounts t -> accounts (body index t)) -> accounts t ->
  accounts (for_flows body t).
Proof.
  intros H. unfold for_flows. generalize (seq 0 MaximumFlows). intros l. revert t.
  induction l as [|i l IH]; intros t Hok; [done|]. cbn [foldl]. by apply IH, H.
Qed.

(** ** Opening *)

Lemma open_accounts i f f' t : accounts t -> m_flows t !! i = Some f -> live f = false ->
  handle_ok f' -> FindClient (client_of f') t = Some (slot_of f') -> fl_inbound_occupancy f' = 0 ->
  accounts (set_flow i f' t).
Proof.
  intros H Ef Hl Hh Hfind Hocc. pose proof H as [H1 H2 H3 H4 H5 H6 H7 H8 H9]. split; try done.
  - cbn. by rewrite length_insert.
  - intros g [j Hj]%elem_flows Lg. apply set_flow_lookup in Hj as [ [-> ->]|[_ Hj] ]; [done|].
    apply H6; [|done]. by eapply list_elem_of_lookup_2.
  - intros c e He. destruct (H7 c e He) as (j & g & Hg & Og & Sg & Eg). exists j, g. split_and!; try done.
    cbn. rewrite list_lookup_insert_ne; [done|]. intros <-. rewrite Ef in Hg. injection Hg as <-.
    apply open_live in Og. congruence.
  - intros j g Hj Lg. apply set_flow_lookup in Hj as [ [-> ->]|[_ Hj] ]; [|by apply (H8 j g)].
    change (queued i f' (set_flow i f' t)) with (queued i f' t). rewrite Hocc.
    assert (queued i f' t = []) as ->; [|done]. unfold queued.
    destruct (List.filter _ _) as [|e l] eqn:E; [done|]. exfalso.
    assert (e ∈ e :: l) as He by left. rewrite <- E in He. apply elem_filter in He as [Hof He].
    destruct (H7 _ e He) as (j & g & Hg & Og & Sg & Eg). apply Z.eqb_eq in Hof. rewrite Eg in Hof.
    assert (j = i) as ->.
    { apply (handle_slot j i g f'); [rewrite <- H2; by eapply lookup_lt_Some|rewrite <- H2; by eapply lookup_lt_Some| |done|done].
      apply H6; [by eapply list_elem_of_lookup_2|by apply open_live]. }
    rewrite Ef in Hg. injection Hg as <-. apply open_live in Og. congruence.
Qed.

(** ** Clients *)

Lemma set_idle_client c client t : accounts t -> ring_ok client -> ring_data client = [] ->
  ring_data (client_at c t) = [] -> (c < MaximumClientContexts)%nat ->
  (forall f, f ∈ m_flows t -> live f = true -> slot_of f <> c) -> accounts (set_client c client t).
Proof.
  intros H Hr Hd Hd0 Hc Hfree. pose proof H as [H1 H2 H3 H4 H5 H6 H7 H8 H9].
  assert (c < length (m_clients t))%nat as Hlen by by rewrite H1.
  pose proof (fun d => client_at_insert c client t (set_client c client t) d eq_refl Hlen) as Hat.
  split; try done.
  - cbn. by rewrite length_insert.
  - intros d (j & Hj)%list_elem_of_lookup. cbn in Hj. apply list_lookup_insert_Some in Hj as [(-> & -> & _)|[_ Hj] ]; [done|].
    apply H4. by eapply list_elem_of_lookup_2.
  - pose proof (owned_set c client t Hlen) as P. rewrite !ring_slabs_data, Hd, Hd0, !app_nil_r in P.
    rewrite (allocated_slabs t) by done. by rewrite P.
  - intros f Hf Lf. destruct (H6 f Hf Lf) as [Hh Hfind]. split; [done|]. rewrite <- Hfind. unfold FindClient.
    rewrite Hat, decide_False; [done|]. by apply Hfree.
  - intros d e. rewrite Hat. destruct (decide (d = c)) as [->|]; [|apply H7]. rewrite Hd. by intros ?%elem_of_nil.
  - intros i f Hf Lf. unfold queued. rewrite Hat, decide_False; [by apply H8|].
    apply Hfree; [|done]. by eapply list_elem_of_lookup_2.
Qed.

Lemma allocate_non_zero next : 0 <= next < 2 ^ 32 ->
  0 < fst (AllocateNonZero next) < 2 ^ 32 /\ 0 <= snd (AllocateNonZero next) < 2 ^ 32.
Proof.
  intros H. unfold AllocateNonZero, allocate_once, u32. cbv zeta.
  pose proof (Z.mod_pos_bound (next + 1) (2 ^ 32)) as Hm.
  destruct (next =? 0) eqn:E0; bool_prop.
  - subst next. vm_compute. intuition discriminate.
  - destruct (_ =? 0); cbn [fst snd]; lia.
Qed.
Lemma empty_shape client : cs_completions client = replicate CompletionQueueCapacity entry_init ->
  cs_completion_head client = 0%nat -> cs_completion_count client = 0%nat -> ring_shape client.
Proof. intros E1 E2 E3. split; rewrite ?E1, ?E2, ?E3; [by rewrite length_replicate|unfold CompletionQueueCapacity; lia|lia]. Qed.
Lemma ring_ok_new generation notifier :
  let client := client_init <| cs_allocated := true |> <| cs_generation := generation |> <| cs_notifier := notifier |> in
  ring_ok client /\ ring_data client = [].
Proof. split; [|done]. apply ring_ok_intro; [by apply empty_shape|done|apply Nat.le_0_l|done|by intros e ?%elem_of_nil]. Qed.
Lemma ring_ok_init : ring_ok client_init.
Proof. apply ring_ok_intro; [by apply empty_shape|done|apply Nat.le_0_l|done|by intros e ?%elem_of_nil]. Qed.
Lemma idle_data client : ring_ok client -> cs_allocated client = false -> ring_data client = [].
Proof. intros Hok Ha. unfold ring_data, ring_entries. by rewrite (rk_idle _ Hok Ha). Qed.

Lemma create_accounts notifier t : accounts t -> accounts (snd (CreateClient notifier t)).
Proof.
  intros H. unfold CreateClient. destruct (find_index _ _) as [c|] eqn:Ei; [|done].
  apply find_index_some in Ei as (client & Hc & Ha & _). apply negb_true_iff in Ha.
  pose proof (allocate_non_zero _ (ac_next_client _ H)) as [_ Hn].
  destruct (AllocateNonZero _) as [generation next]. cbn [snd fst] in *.
  assert (c < length (m_clients t))%nat as Hlen by by eapply lookup_lt_Some.
  rewrite client_at_lookup in Hc by done. injection Hc as Hc.
  pose proof H as [H1 H2 H3 H4 H5 H6 H7 H8 H9].
  destruct (ring_ok_new generation notifier) as [Hr Hd]. rewrite H1 in Hlen. apply set_idle_client; try done.
  - change (client_at c (t <| m_next_client_generation := next |>)) with (client_at c t). rewrite Hc.
    apply idle_data; [|done]. rewrite <- Hc. by apply client_ok.
  - intros f Hf Lf Es. destruct (H6 f Hf Lf) as [_ Hfind%find_client_range]. rewrite Es, Hc in Hfind.
    destruct Hfind. congruence.
Qed.

(** Draining a ring without datagrams. *)
Lemma release_invalid t : accounts t -> ReleaseInboundSlab InvalidSlabSlot t = t.
Proof.
  intros H. unfold ReleaseInboundSlab. destruct t as [a b slabs d e g h k l m n]. cbn. unfold upd. cbn. f_equal.
  apply list_insert_ge. pose proof (ac_slabs _ H) as E. cbn in E. rewrite E. unfold InboundPacketSlabCount, InvalidSlabSlot. lia.
Qed.
Lemma set_client_twice c x y t : set_client c x (set_client c y t) = set_client c x t.
Proof. unfold set_client. destruct t. cbn. unfold upd. cbn. f_equal. apply list_insert_insert_eq. Qed.
Lemma set_client_same c t : set_client c (client_at c t) t = t.
Proof.
  unfold set_client, client_at. destruct t. cbn. unfold upd. cbn. f_equal. apply list_insert_id'.
  intros [x Hx]%lookup_lt_is_Some. by rewrite Hx.
Qed.
Lemma drain_idle fuel c t : accounts t -> (c < MaximumClientContexts)%nat -> ring_data (client_at c t) = [] ->
  exists client, drain_loop fuel c t = set_client c client t.
Proof.
  revert t. induction fuel as [|fuel IH]; intros t H Hc Hd; [exists (client_at c t); by rewrite set_client_same|].
  cbn [drain_loop]. destruct (RemoveCompletionFront (client_at c t)) as [ [entry client]|] eqn:E;
    [|exists (client_at c t); by rewrite set_client_same].
  pose proof (client_ok c t H Hc) as Hok. destruct (front_ok _ _ _ Hok E) as (Hr & Ha & Hg & _ & _ & Hdata).
  rewrite Hd in Hdata. symmetry in Hdata. apply app_nil in Hdata as [He Hnil].
  destruct (is_data entry) eqn:Hctl; [done|]. unfold is_data in Hctl. bool_prop. rewrite Hctl.
  assert (accounts (set_client c client t)) as H'.
  { apply set_client_view; [done|done|]. unfold client_view. by rewrite Ha, Hg, Hnil, Hd. }
  rewrite release_invalid by done. destruct (IH (set_client c client t) H' Hc) as [client' E'].
  - rewrite (client_at_insert c client t (set_client c client t) c eq_refl); [|by rewrite (ac_clients _ H)].
    by rewrite decide_True.
  - exists client'. by rewrite E', set_client_twice.
Qed.

(** After the loop of [DestroyClient] the client has no flows. *)
Lemma close_slot_others i reason now notify t j : j <> i ->
  m_flows (CloseFlowSlot i reason now notify t) !! j = m_flows t !! j.
Proof.
  intros Hne. unfold CloseFlowSlot. cbv zeta. destruct (negb _ || _); [done|].
  destruct (fl_pending _); [cbn; by rewrite list_lookup_insert_ne|].
  set (t1 := match FindClient _ t with Some _ => _ | None => _ end).
  assert (m_flows t1 = m_flows t) as E1.
  { unfold t1. destruct (FindClient _ t); [|done]. by pose proof (frame_remove i n t) as [= -> _ _]. }
  assert (m_flows (QuarantineTuple (flow_at i t) now t1) = m_flows t) as E2.
  { by pose proof (quarantine_fields (flow_at i t) now t1) as [= _ -> _ _]. }
  set (t2 := set_flow i _ _). assert (m_flows t2 !! j = m_flows t !! j) as E3.
  { unfold t2. cbn. by rewrite list_lookup_insert_ne, E2. }
  destruct notify; [|done]. pose proof (frame_control (client_of (flow_at i t))
    (mk_completion CompletionType_FlowStateChanged ProtocolStatus_FlowClosed (MakeFlowHandle i (flow_at i t))
       ipv4_endpoint_init 0 0 (pi_activation_generation (fl_peer (flow_at i t))) (fl_policy_generation (flow_at i t))
       FlowState_Closed reason) t2) as [= -> _ _]. done.
Qed.
Lemma close_slot_closed i reason now notify t f :
  m_flows (CloseFlowSlot i reason now notify t) !! i = Some f -> live f = false.
Proof.
  unfold CloseFlowSlot. cbv zeta. destruct (negb _ || _) eqn:Hl.
  { intros Hf. unfold flow_at in Hl. rewrite Hf in Hl. unfold live. cbn in Hl. by destruct (fl_allocated f), (fl_closed f). }
  destruct (fl_pending _).
  { intros Hf. by apply set_flow_lookup in Hf as [ [_ ->]|[? _] ]. }
  set (t1 := QuarantineTuple _ _ _). set (f' := (flow_at i t) <| fl_closed := true |> <| fl_terminal_reason := _ |>
    <| fl_inbound_occupancy := _ |> <| fl_last_activity_at := _ |>).
  assert (m_flows (set_flow i f' t1) !! i = Some f -> live f = false) as Hset.
  { intros Hf. apply set_flow_lookup in Hf as [ [_ ->]|[? _] ]; [|done]. apply andb_false_r. }
  destruct notify; [|exact Hset]. pose proof (frame_control (client_of (flow_at i t))
    (mk_completion CompletionType_FlowStateChanged ProtocolStatus_FlowClosed (MakeFlowHandle i (flow_at i t))
       ipv4_endpoint_init 0 0 (pi_activation_generation (fl_peer (flow_at i t))) (fl_policy_generation (flow_at i t))
       FlowState_Closed reason) (set_flow i f' t1)) as [= -> _ _]. exact Hset.
Qed.

Definition destroy_body (client : TunnelClientId) (now : Z) (index : nat) (t : TunnelFlowPlane) : TunnelFlowPlane :=
  let flow := flow_at index t in
  if fl_allocated flow && (fl_client_slot flow =? tc_slot client) && (fl_client_generation flow =? tc_generation client)
  then CloseFlowSlot index FlowTerminalReason_ClientClosed now false t else t.

Lemma destroy_loop_closes client now l t j f : NoDup l ->
  m_flows (foldl (fun t i => destroy_body client now i t) t l) !! j = Some f ->
  (j ∈ l -> live f = true -> client_of f <> client) /\ (j ∉ l -> m_flows t !! j = Some f).
Proof.
  revert t. induction l as [|i l IH]; intros t Hnd Hf; [split; [by intros ?%elem_of_nil|done]|].
  apply NoDup_cons in Hnd as [Hi Hnd]. cbn [foldl] in Hf. destruct (IH _ Hnd Hf) as [H1 H2]. split.
  - intros [->|Hj]%elem_of_cons; [|by apply H1]. intros Lf <-. specialize (H2 Hi). unfold destroy_body in H2.
    cbv zeta in H2. destruct (_ && _) eqn:E in H2.
    + apply close_slot_closed in H2. congruence.
    + rewrite (flow_at_some _ _ _ H2) in E. cbn in E. rewrite !Z.eqb_refl, !andb_true_r in E.
      unfold live in Lf. by rewrite E in Lf.
  - intros Hj. rewrite not_elem_of_cons in Hj. destruct Hj as [Hne Hj]. rewrite <- (H2 Hj). unfold destroy_body. cbv zeta.
    symmetry. case_if; [by apply close_slot_others|done].
Qed.

Lemma for_flows_eq body t : for_flows body t = foldl (fun t i => body i t) t (seq 0 MaximumFlows).
Proof. done. Qed.
Lemma destroy_closes client now t f : f ∈ m_flows (for_flows (destroy_body client now) t) ->
  length (m_flows (for_flows (destroy_body client now) t)) = MaximumFlows -> live f = true -> client_of f <> client.
Proof.
  intros [j Hj]%elem_flows Hlen. apply lookup_lt_Some in Hj as Hlt. rewrite for_flows_eq in Hj.
  destruct (destroy_loop_closes client now (seq 0 MaximumFlows) t j f (NoDup_seq _ _) Hj) as [H1 _].
  apply H1, elem_of_seq. lia.
Qed.

(** The clients, without their rings. *)
Definition client_ids (t : TunnelFlowPlane) : list (bool * Z) := (fun c => (cs_allocated c, cs_generation c)) <$> m_clients t.
Lemma ids_set c client t : cs_allocated client = cs_allocated (client_at c t) ->
  cs_generation client = cs_generation (client_at c t) -> client_ids (set_client c client t) = client_ids t.
Proof.
  intros Ha Hg. unfold client_ids. cbn. rewrite list_fmap_insert. apply list_insert_id'. intros Hlt.
  rewrite list_lookup_fmap, client_at_lookup by (by rewrite length_fmap in Hlt). cbn. by rewrite Ha, Hg.
Qed.
Lemma ids_find client t t' : client_ids t' = client_ids t -> FindClient client t' = FindClient client t.
Proof.
  intros E. assert (forall c : nat, cs_allocated (client_at c t') = cs_allocated (client_at c t) /\ cs_generation (client_at c t') = cs_generation (client_at c t)) as Hc.
  { intros c. apply (f_equal (.!! c)) in E. unfold client_ids in E. rewrite !list_lookup_fmap in E. unfold client_at.
    destruct (m_clients t' !! c), (m_clients t !! c); cbn in *; simplify_eq; done. }
  apply find_client_same; apply Hc.
Qed.
Lemma ids_notify client was_empty t : client_ids (NotifyIfNeeded client was_empty t) = client_ids t.
Proof. unfold NotifyIfNeeded. by destruct (cs_notifier client), was_empty. Qed.
Lemma ids_control client completion t : client_ids (EnqueueControlCompletion client completion t) = client_ids t.
Proof.
  unfold EnqueueControlCompletion. destruct (FindClient client t) as [c|]; [|done]. cbv zeta.
  destruct (find_index _ _); [by apply ids_set|]. case_if; [done|].
  rewrite ids_notify. by apply ids_set.
Qed.
Lemma ids_remove i c t : client_ids (RemoveFlowCompletions i c t) = client_ids t.
Proof.
  unfold RemoveFlowCompletions. cbv zeta. rewrite retain_loop_spec. cbv zeta. set (l := List.filter (of_flow _) _).
  destruct (release_all_frame l t) as (E & _ & _ & _). rewrite ids_set.
  - unfold client_ids. by rewrite E.
  - unfold client_at. by rewrite E.
  - unfold client_at. by rewrite E.
Qed.
Lemma ids_close i reason now notify t : client_ids (CloseFlowSlot i reason now notify t) = client_ids t.
Proof.
  unfold CloseFlowSlot. cbv zeta. destruct (negb _ || _); [done|]. destruct (fl_pending _); [done|].
  set (t1 := match FindClient _ t with Some _ => _ | None => _ end).
  assert (client_ids t1 = client_ids t) as E1 by (unfold t1; destruct (FindClient _ t); [apply ids_remove|done]).
  assert (client_ids (QuarantineTuple (flow_at i t) now t1) = client_ids t) as E2.
  { rewrite <- E1. unfold client_ids. by pose proof (quarantine_fields (flow_at i t) now t1) as [= -> _ _ _]. }
  destruct notify; [rewrite ids_control|]; exact E2.
Qed.
Lemma ids_for_flows body t : (forall i t, client_ids (body i t) = client_ids t) -> client_ids (for_flows body t) = client_ids t.
Proof.
  intros H. unfold for_flows. generalize (seq 0 MaximumFlows). intros l. revert t.
  induction l as [|i l IH]; intros t; [done|]. cbn [foldl]. by rewrite IH, H.
Qed.
Lemma ids_destroy_loop client now t : client_ids (for_flows (destroy_body client now) t) = client_ids t.
Proof. apply ids_for_flows. intros i s. unfold destroy_body. cbv zeta. case_if; [apply ids_close|done]. Qed.

(** Two handles of one client slot. *)
Lemma find_client_inj client client' t c : 0 <= tc_slot client -> 0 <= tc_slot client' ->
  FindClient client t = Some c -> FindClient client' t = Some c -> client = client'.
Proof.
  intros H0 H0' (E1 & _ & E2 & _ & E3 & _)%find_client_spec (F1 & _ & F2 & _ & F3 & _)%find_client_spec; [|done..].
  destruct client, client'. cbn in *. congruence.
Qed.

(** After the loop the client has no datagrams and no live flows. *)
Lemma destroyed_slots client now t c : 0 <= tc_slot client -> FindClient client t = Some c ->
  let t1 := for_flows (destroy_body client now) t in
  accounts t1 -> forall f, f ∈ m_flows t1 -> live f = true -> slot_of f <> c.
Proof.
  intros H0 Ec t1 H1 f Hf Lf Es. apply (destroy_closes client now t f Hf (ac_flows _ H1) Lf).
  assert (FindClient client t1 = Some c) as Ec1 by (rewrite <- Ec; apply ids_find, ids_destroy_loop).
  destruct (ac_owner _ H1 f Hf Lf) as [ [K1 K2 K3] Hfind]. rewrite Es in Hfind.
  apply (find_client_inj _ _ t1 c); [cbn; lia|done|done|done].
Qed.
Lemma destroyed_idle client now t c : 0 <= tc_slot client -> accounts t -> FindClient client t = Some c ->
  let t1 := for_flows (destroy_body client now) t in accounts t1 -> ring_data (client_at c t1) = [].
Proof.
  intros H0 H Ec t1 H1. destruct (ring_data (client_at c t1)) as [|e l] eqn:E; [done|]. exfalso.
  destruct (ac_data _ H1 c e) as (j & f & Hj & Of & Sf & _); [rewrite E; by left|].
  apply (destroyed_slots client now t c H0 Ec H1 f); [by eapply list_elem_of_lookup_2|by apply open_live|done].
Qed.

Lemma destroy_spec client now t c : 0 <= tc_slot client -> accounts t -> FindClient client t = Some c ->
  exists t1, t1 = for_flows (destroy_body client now) t /\ accounts t1 /\ ring_data (client_at c t1) = [] /\
    DestroyClient client now t = set_client c client_init t1.
Proof.
  intros H0 H Ec. pose proof (find_client_range _ _ _ Ec) as [Hc _].
  assert (accounts (for_flows (destroy_body client now) t)) as H1.
  { apply for_flows_accounts; [|done]. intros i s Hs. unfold destroy_body. cbv zeta. case_if; [by apply close_slot_accounts|done]. }
  pose proof (destroyed_idle client now t c H0 H Ec H1) as Hd. cbv zeta in Hd.
  assert (DestroyClient client now t = set_client c client_init
    (drain_loop (cs_completion_count (client_at c (for_flows (destroy_body client now) t))) c
       (for_flows (destroy_body client now) t))) as E by (unfold DestroyClient; rewrite Ec; reflexivity).
  remember (for_flows (destroy_body client now) t) as t1 eqn:Et. exists t1. split_and!; [done|done|done|].
  rewrite E. destruct (drain_idle (cs_completion_count (client_at c t1)) c t1 H1 Hc Hd) as [x ->]. apply set_client_twice.
Qed.
Lemma destroy_accounts client now t : 0 <= tc_slot client -> accounts t -> accounts (DestroyClient client now t).
Proof.
  intros H0 H. destruct (FindClient client t) as [c|] eqn:Ec; [|unfold DestroyClient; by rewrite Ec].
  pose proof (find_client_range _ _ _ Ec) as [Hc _].
  destruct (destroy_spec client now t c H0 H Ec) as (t1 & Et & H1 & Hd & ->).
  apply set_idle_client; [done|apply ring_ok_init|done|done|done|].
  pose proof (destroyed_slots client now t c H0 Ec) as Hs. cbv zeta in Hs. rewrite <- Et in Hs. by apply Hs.
Qed.

(** ** Reserving a flow *)

(** The arguments are values of their C++ types. *)
Definition client_typed (client : TunnelClientId) : Prop :=
  0 <= tc_slot client < 256 /\ 0 <= tc_generation client < 2 ^ 32.

Lemma tuple_loop_fields tries remote now t : account_fields (snd (tuple_loop tries remote now t)) = account_fields t.
Proof.
  revert t. induction tries as [|tries IH]; intros t; [done|]. cbn [tuple_loop]. cbv zeta.
  case_if; [done|]. by rewrite IH.
Qed.
Lemma allocate_tuple_fields remote now t : account_fields (snd (AllocateVirtualTuple remote now t)) = account_fields t.
Proof. unfold AllocateVirtualTuple. generalize (Z.to_nat 16384). intros tries. by rewrite tuple_loop_fields. Qed.

Lemma u32_low z : u32 z mod 2 ^ 24 = z mod 2 ^ 24.
Proof. unfold u32. change (2 ^ 32) with 4294967296. change (2 ^ 24) with 16777216. lia. Qed.
Lemma generation_range t :
  0 < fst (AllocateFlowGeneration t) < 2 ^ 24 /\ account_fields (snd (AllocateFlowGeneration t)) = account_fields t.
Proof.
  unfold AllocateFlowGeneration, flow_generation_once. cbv zeta. change 16777215 with (2 ^ 24 - 1).
  rewrite !land_mask by lia. set (n := m_next_flow_generation t).
  pose proof (Z.mod_pos_bound n (2 ^ 24)) as Hn. destruct (n mod 2 ^ 24 =? 0) eqn:E0.
  - cbv zeta. cbn [fst snd]. split; [|done]. case_if; bool_prop.
    + rewrite u32_low, Z.add_mod, Heqb by lia. change (1 mod 2 ^ 24) with 1. cbn. lia.
    + pose proof (Z.mod_pos_bound (u32 (n + 1)) (2 ^ 24)). lia.
  - cbn [fst snd]. split; [|done]. bool_prop. lia.
Qed.

Lemma find_client_fields client t t' : account_fields t' = account_fields t -> FindClient client t' = FindClient client t.
Proof. intros [= E _ _ _]. apply ids_find. unfold client_ids. by rewrite E. Qed.

Lemma reserve_accounts client request now availability t : client_typed client -> accounts t ->
  accounts (snd (ReserveConnectedUdpFlow client request now availability t)).
Proof.
  intros Hty H. unfold ReserveConnectedUdpFlow. cbv zeta. case_if; [done|].
  assert (exists c, FindClient client t = Some c) as [c Hc].
  { repeat (apply orb_false_iff in Heqb as [Heqb _]). destruct (FindClient client t) as [c|]; [by exists c|done]. }
  clear Heqb. repeat (case_if; [done|]).
  destruct (find_index _ (m_flows t)) as [slot|] eqn:Es; [|done].
  apply free_slot_at in Es as (f & Ef & Hl). unfold HasTombstoneReservation. cbv zeta.
  set (t1 := ClearExpiredTombstones now t). assert (account_fields t1 = account_fields t) as E1 by done. clearbody t1.
  case_if; [by apply (accounts_fields t)|].
  pose proof (allocate_tuple_fields (or_remote request) now t1) as E2.
  destruct (AllocateVirtualTuple _ now t1) as [ [port|] t2]; cbn [snd] in E2; rewrite E1 in E2; [|by apply (accounts_fields t)].
  destruct (generation_range t2) as [Hgen E3]. destruct (AllocateFlowGeneration t2) as [generation t3].
  cbn [fst snd] in *. rewrite E2 in E3. assert (accounts t3) as H3 by by apply (accounts_fields t).
  destruct Hty as [Hslot Hcg]. destruct (find_client_spec client t c) as (Ecs & Hcm & Hcs & _ & _ & Hne); [lia|done|].
  apply (open_accounts slot f); try done.
  - by injection E3 as _ -> _ _.
  - split; cbn; [unfold MaximumClientContexts in *; lia|lia|lia].
  - rewrite (find_client_fields _ t t3 E3). rewrite Ecs in Hc. destruct client. exact Hc.
Qed.

(** ** Inbound datagrams *)

(** The slab that is taken, and the state with [slab] in it. *)
Definition with_slab (s : nat) (slab : InboundSlab) (t : TunnelFlowPlane) : TunnelFlowPlane :=
  t <| m_inbound_slabs ::= <[s := slab]> |>.
Lemma allocate_slab_spec t : length (m_inbound_slabs t) = InboundPacketSlabCount ->
  let '(s, t1) := AllocateInboundSlab t in
  (s = InvalidSlabSlot /\ t1 = t) \/
  ((s < InboundPacketSlabCount)%nat /\ slab_used t s = false /\ t1 = with_slab s ((slab_at s t) <| sl_allocated := true |>) t).
Proof.
  intros Hlen. unfold AllocateInboundSlab. destruct (find_index _ _) as [s|] eqn:E; [|by left]. right.
  apply find_index_some in E as (slab & Hs & Hu & _). apply negb_true_iff in Hu. split_and!.
  - rewrite <- Hlen. by eapply lookup_lt_Some.
  - unfold slab_used, slab_at. by rewrite Hs.
  - unfold with_slab, slab_at. destruct t. cbn in *. unfold upd. cbn. f_equal. rewrite Hs. cbn.
    apply list_eq. intros k. destruct (decide (k = s)) as [->|Hne].
    + rewrite list_lookup_alter_eq, Hs, list_lookup_insert_eq; [done|]. by eapply lookup_lt_Some.
    + by rewrite list_lookup_alter_ne, list_lookup_insert_ne.
Qed.
Lemma with_slab_used s slab t : (s < length (m_inbound_slabs t))%nat -> sl_allocated slab = true ->
  slab_used (with_slab s slab t) s = true /\ forall k, k <> s -> slab_used (with_slab s slab t) k = slab_used t k.
Proof.
  intros Hs Ha. unfold slab_used, slab_at, with_slab. cbn. split.
  - by rewrite list_lookup_insert_eq.
  - intros k Hk. by rewrite list_lookup_insert_ne.
Qed.
Lemma with_slab_allocated s slab t : length (m_inbound_slabs t) = InboundPacketSlabCount ->
  (s < InboundPacketSlabCount)%nat -> slab_used t s = false -> sl_allocated slab = true ->
  allocated (with_slab s slab t) ≡ₚ s :: allocated t.
Proof.
  intros Hlen Hs Hu Ha. destruct (with_slab_used s slab t) as [H1 H2]; [by rewrite Hlen|done|]. by apply allocated_grow.
Qed.

Lemma release_slabs s t : length (m_inbound_slabs (ReleaseInboundSlab s t)) = length (m_inbound_slabs t).
Proof. apply length_insert. Qed.

(** Only the slabs change, and the same ones are in use. *)
Lemma accounts_slabs t t' : accounts t -> m_clients t' = m_clients t -> m_flows t' = m_flows t ->
  m_next_client_generation t' = m_next_client_generation t -> length (m_inbound_slabs t') = InboundPacketSlabCount ->
  allocated t' ≡ₚ allocated t -> accounts t'.
Proof.
  intros [H1 H2 H3 H4 H5 H6 H7 H8 H9] Ec Ef En Hlen Hbal.
  assert (client_view <$> m_clients t' = client_view <$> m_clients t) as Ev by by rewrite Ec.
  split; rewrite ?Ec, ?Ef, ?En; try done.
  - rewrite (owned_view t t' Ev). by rewrite Hbal.
  - intros f Hf Lf. rewrite (find_client_view _ t t' Ev). by apply H6.
  - intros c e. pose proof (view_at c t t' Ev) as [= _ _ ->]. apply H7.
  - intros i f Hf Lf. rewrite (queued_view i f t t' Ev). by apply H8.
Qed.

Lemma flow_at_set i f t : (i < length (m_flows t))%nat -> flow_at i (set_flow i f t) = f.
Proof. intros H. unfold flow_at. cbn. by rewrite list_lookup_insert_eq. Qed.

(** What is appended when a datagram is accepted. *)
Definition inbound_record (i : nat) (f : FlowSlot) (size : Z) : CompletionRecord :=
  mk_completion CompletionType_InboundDatagram ProtocolStatus_Success (MakeFlowHandle i f) (fl_remote f) 0 size
    (pi_activation_generation (fl_peer f)) (fl_policy_generation f) FlowState_Open FlowTerminalReason_None.

Lemma enqueue_accounts i s f f1 slab t : accounts t -> m_flows t !! i = Some f -> is_open f = true ->
  is_open f1 = true -> client_of f1 = client_of f -> fl_allocation_generation f1 = fl_allocation_generation f ->
  fl_inbound_occupancy f < MaximumInboundDatagramsPerFlow ->
  fl_inbound_occupancy f1 = fl_inbound_occupancy f + 1 ->
  (s < InboundPacketSlabCount)%nat -> slab_used t s = false -> sl_allocated slab = true ->
  let t3 := set_flow i f1 (with_slab s slab t) in
  accounts (snd (EnqueueDataCompletion i s t3)).
Proof.
  intros H Ef Of Of1 Ecl Egen Hlim Hocc Hs Hu Hslab t3.
  assert (i < length (m_flows t))%nat as Hi by by eapply lookup_lt_Some.
  destruct (ac_owner _ H f) as [Hh Hfind]; [by eapply list_elem_of_lookup_2|by apply open_live|].
  destruct (ac_occupancy _ H i f Ef (open_live _ Of)) as [Hq _].
  assert (slot_of f1 = slot_of f) as Hslot by (injection Ecl as E _; unfold slot_of; by rewrite E).
  assert (MakeFlowHandle i f1 = MakeFlowHandle i f) as Hhandle.
  { injection Ecl as E1 E2. unfold MakeFlowHandle. by rewrite E1, E2, Egen. }
  assert (0 <= fl_inbound_occupancy f) as Hpos by lia.
  unfold EnqueueDataCompletion. cbv zeta.
  assert (flow_at i t3 = f1) as E3 by by apply flow_at_set. rewrite E3, Ecl.
  change (FindClient (client_of f) t3) with (FindClient (client_of f) t). rewrite Hfind.
  change (client_at (slot_of f) t3) with (client_at (slot_of f) t). set (c := slot_of f) in *.
  pose proof (find_client_range _ _ _ Hfind) as [Hc Ha]. pose proof (client_ok c t H Hc) as Hok.
  pose proof (with_slab_allocated s slab t (ac_slabs _ H) Hs Hu Hslab) as Hgrow.
  destruct (_ || _) eqn:Hfull; cbn [snd].
  - set (f2 := f1 <| fl_inbound_occupancy ::= _ |>).
    assert (accounts (ReleaseInboundSlab s (with_slab s slab t))) as Hrel.
    { apply (accounts_slabs t); try done.
      - rewrite release_slabs. cbn. rewrite length_insert. apply H.
      - apply (Permutation_cons_inv (a := s)). rewrite <- Hgrow. symmetry. apply release_allocated.
        rewrite Hgrow. by left. }
    apply (accounts_fields (set_flow i f2 (ReleaseInboundSlab s (with_slab s slab t)))).
    { unfold account_fields. cbn. do 2 f_equal. f_equal. apply list_insert_insert_eq. }
    apply set_flow_accounts; [done| |].
    + change (flow_at i (ReleaseInboundSlab s (with_slab s slab t))) with (flow_at i t). rewrite (flow_at_some _ _ _ Ef).
      intros _. split_and!; [by apply open_live|exact Ecl|exact Egen|]. cbn. rewrite Hocc, (proj2 (Z.ltb_lt _ _)) by lia. lia.
    + intros _. exact Of1.
  - apply orb_false_iff in Hfull as [Hd Hf]. apply Nat.leb_gt in Hd, Hf. apply notify_accounts.
    destruct (push_data (inbound_record i f1 (sl_size (slab_at s t3))) s (client_at c t) Hok Ha Hf Hd) as [Hr Hv].
    { unfold InvalidSlabSlot, InboundPacketSlabCount in *. lia. }
    { done. }
    set (client' := (ring_push _ _) <| cs_data_completion_count ::= S |>) in Hr, Hv.
    injection Hv as Ed. set (e := mk_entry (inbound_record i f1 (sl_size (slab_at s t3))) s) in Ed.
    assert (of_flow (MakeFlowHandle i f) e = true) as He by (apply Z.eqb_eq; exact Hhandle).
    apply (accounts_flow t (set_client c client' t3) i f f1 client' H Ef Of); fold c; try done.
    + cbn. rewrite length_insert. apply H.
    + rewrite (allocated_slabs (with_slab s slab t)) by done. rewrite Hgrow, ring_slabs_data, Ed, fmap_app, app_assoc.
      apply Permutation_cons_append.
    + rewrite Ed, filter_app. cbn [List.filter]. rewrite He. cbn [negb]. by rewrite app_nil_r.
    + right. split_and!; [done|exact Ecl|exact Egen| |lia].
      rewrite Ed, filter_app, length_app. cbn [List.filter]. rewrite He. cbn [length].
      change (ring_data (client_at c t)) with (ring_data (client_at (slot_of f) t)).
      fold (queued i f t). lia.
Qed.

(** A write to an open flow of counters that the accounts ignore. *)
Lemma count_accounts i f' t : accounts t ->
  live f' = live (flow_at i t) -> fl_pending f' = fl_pending (flow_at i t) -> client_of f' = client_of (flow_at i t) ->
  fl_allocation_generation f' = fl_allocation_generation (flow_at i t) ->
  fl_inbound_occupancy f' = fl_inbound_occupancy (flow_at i t) -> accounts (set_flow i f' t).
Proof.
  intros H Hl Hp Hc Hg Ho. apply set_flow_accounts; [done| |].
  - by rewrite Hl.
  - unfold is_open. by rewrite Hl, Hp.
Qed.
Ltac count_accounts :=
  lazymatch goal with
  | |- accounts (set_flow ?slot _ ?t) =>
      repeat match goal with f := flow_at slot t |- _ => subst f end;
      apply count_accounts; [assumption|..];
      solve [generalize (flow_at slot t); lazy -[u64 Z.add]; intros; reflexivity]
  end.

Lemma flow_with_handle_some h t i : flow_with_handle h t = Some i ->
  (i < MaximumFlows)%nat /\ fl_allocated (flow_at i t) = true /\ MakeFlowHandle i (flow_at i t) = h.
Proof.
  unfold flow_with_handle. intros (j & Hj & Hp & _)%find_index_some.
  destruct (decide (i < MaximumFlows)%nat) as [Hi|Hi].
  - rewrite lookup_seq_lt in Hj by done. injection Hj as <-. apply andb_true_iff in Hp as [Ha E]. by apply Z.eqb_eq in E.
  - rewrite (proj2 (lookup_ge_None _ _)) in Hj; [done|]. rewrite length_seq. lia.
Qed.
Lemma flow_at_lookup i t : (i < length (m_flows t))%nat -> m_flows t !! i = Some (flow_at i t).
Proof. intros H. unfold flow_at. by destruct (lookup_lt_is_Some_2 _ _ H) as [f ->]. Qed.
Lemma is_open_intro f : fl_allocated f = true -> fl_closed f = false -> fl_pending f = false -> is_open f = true.
Proof. intros H1 H2 H3. unfold is_open, live. by rewrite H1, H2, H3. Qed.

Lemma deliver_accounts peer generation token remote payload now t : accounts t ->
  accounts (snd (DeliverInboundUdpDatagram peer generation token remote payload now t)).
Proof.
  intros H. unfold DeliverInboundUdpDatagram. case_if; [done|].
  destruct (flow_with_handle _ _) as [i|] eqn:Ei; [|done]. cbv zeta.
  apply flow_with_handle_some in Ei as (Hi & Halloc & _). rewrite <- (ac_flows _ H) in Hi.
  pose proof (flow_at_lookup i t Hi) as Ef. set (f := flow_at i t) in *.
  destruct (fl_closed f) eqn:Hclosed; [done|]. destruct (fl_pending f) eqn:Hpend; [done|]. cbn [orb].
  case_if; [done|]. pose proof (is_open_intro f Halloc Hclosed Hpend) as Of.
  case_if; [cbn [snd]; count_accounts|]. bool_prop.
  pose proof (allocate_slab_spec t (ac_slabs _ H)) as Hslab. destruct (AllocateInboundSlab t) as [s t1].
  destruct Hslab as [ [-> ->]|(Hs & Hu & ->)]; [rewrite Nat.eqb_refl; cbn [snd]; count_accounts|].
  rewrite (proj2 (Nat.eqb_neq _ _)) by (unfold InvalidSlabSlot, InboundPacketSlabCount in *; lia).
  set (slab := _ <| sl_allocated := true |>). set (t2 := _ <| m_inbound_slabs ::= alter _ s |>).
  set (slab' := slab <| sl_size := u16 (Z.of_nat (length payload)) |> <| sl_bytes ::= fun b => write_at b 0 payload |>).
  assert (t2 = with_slab s slab' t) as ->.
  { unfold t2, with_slab. destruct t. cbn. unfold upd. cbn. f_equal. apply list_eq. intros k.
    assert (s < length m_inbound_slabs)%nat as Hlt by (pose proof (ac_slabs _ H) as E; cbn in E; by rewrite E).
    destruct (decide (k = s)) as [->|Hne].
    - by rewrite list_lookup_alter_eq, !list_lookup_insert_eq.
    - by rewrite list_lookup_alter_ne, !list_lookup_insert_ne. }
  set (f1 := f <| fl_inbound_occupancy ::= _ |> <| fl_last_activity_at := now |>).
  destruct (ac_occupancy _ H i f Ef (open_live _ Of)) as [Hq _].
  assert (accounts (snd (EnqueueDataCompletion i s (set_flow i f1 (with_slab s slab' t))))) as Henq.
  { apply (enqueue_accounts i s f f1 slab' t H Ef Of); try done. cbn. unfold u16. apply Z.mod_small.
    unfold MaximumInboundDatagramsPerFlow in *. lia. }
  destruct (EnqueueDataCompletion i s _) as [ [|] t4]; cbn [snd] in *; count_accounts.
Qed.

(** ** Receiving *)

Lemma find_flow_handle client t c i f : 0 <= tc_slot client -> accounts t -> FindClient client t = Some c ->
  m_flows t !! i = Some f -> live f = true -> slot_of f = c -> FindFlow client (MakeFlowHandle i f) t = Some i.
Proof.
  intros H0 H Hc Ef Lf Es. destruct (ac_owner _ H f) as [Hh Hfind]; [by eapply list_elem_of_lookup_2|done|].
  rewrite Es in Hfind. assert (client_of f = client) as Ecl.
  { apply (find_client_inj _ _ t c); [cbn; destruct Hh; lia|done|done|done]. }
  unfold FindFlow. rewrite Hc, decode_handle; [|rewrite <- (ac_flows _ H); by eapply lookup_lt_Some|done].
  rewrite (flow_at_some _ _ _ Ef), <- Ecl. cbn [tc_slot tc_generation client_of]. rewrite !Z.eqb_refl. cbn [negb orb].
  unfold live in Lf. apply andb_true_iff in Lf as [-> _]. done.
Qed.

(** Taking a datagram out of the ring of its client. *)
Lemma take_accounts client c i f e drained t : 0 <= tc_slot client -> accounts t -> FindClient client t = Some c ->
  RemoveCompletionFront (client_at c t) = Some (e, drained) -> is_data e = true ->
  m_flows t !! i = Some f -> is_open f = true -> slot_of f = c -> cr_flow (en_record e) = MakeFlowHandle i f ->
  accounts (set_flow i (f <| fl_inbound_occupancy ::= fun n => if 0 <? n then n - 1 else n |>)
    (ReleaseInboundSlab (en_slab e) (set_client c drained t))).
Proof.
  intros H0 H Hc Efront Hdata Ef Of Es Ee. pose proof (find_client_range _ _ _ Hc) as [Hcm Ha].
  destruct (front_ok _ _ _ (client_ok c t H Hcm) Efront) as (Hr & Ea & Eg & _ & _ & Ed). rewrite Hdata in Ed. cbn [app] in Ed.
  assert (of_flow (MakeFlowHandle i f) e = true) as He by (by apply Z.eqb_eq).
  destruct (ac_occupancy _ H i f Ef (open_live _ Of)) as [Hq Hlim]. unfold queued in Hq. rewrite Es, Ed in Hq.
  cbn [List.filter] in Hq. rewrite He in Hq. cbn [length] in Hq.
  set (f' := f <| fl_inbound_occupancy ::= _ |>).
  apply (accounts_flow t _ i f f' drained H Ef Of); rewrite ?Es; try done.
  - etransitivity; [exact (release_slabs (en_slab e) t)|apply H].
  - rewrite (allocated_slabs (ReleaseInboundSlab (en_slab e) t)) by done.
    assert (en_slab e ∈ allocated t) as Hin.
    { rewrite <- (ac_balance _ H). pose proof (owned_set c client_init t) as P. rewrite (ac_clients _ H) in P.
      specialize (P Hcm). change (ring_slabs client_init) with (@nil nat) in P. rewrite app_nil_r in P. rewrite <- P.
      rewrite ring_slabs_data, Ed. apply elem_of_app. right. by left. }
    rewrite (release_allocated t (en_slab e) Hin), Ed, ring_slabs_data. cbn [fmap list_fmap app]. by rewrite Permutation_middle.
  - rewrite Ed. cbn [List.filter]. by rewrite He.
  - right. split_and!; [exact Of|done|done| |].
    + cbn. rewrite Hq. rewrite (proj2 (Z.ltb_lt _ _)) by lia. lia.
    + cbn. case_if; lia.
Qed.

(** Taking a control record. *)
Lemma take_control_accounts c e drained t : accounts t -> (c < MaximumClientContexts)%nat ->
  RemoveCompletionFront (client_at c t) = Some (e, drained) -> is_data e = false -> accounts (set_client c drained t).
Proof.
  intros H Hc Efront Hdata. destruct (front_ok _ _ _ (client_ok c t H Hc) Efront) as (Hr & Ea & Eg & _ & _ & Ed).
  rewrite Hdata in Ed. apply set_client_view; [done|done|]. unfold client_view. by rewrite Ea, Eg, Ed.
Qed.

Lemma receive_loop_accounts room client c offset records payload t : 0 <= tc_slot client -> accounts t ->
  FindClient client t = Some c -> accounts (snd (receive_loop room client c offset records payload t)).
Proof.
  intros H0. revert offset records payload t. induction room as [|room IH]; intros offset records payload t H Hc; [done|].
  cbn [receive_loop]. cbv zeta. pose proof (find_client_range _ _ _ Hc) as [Hcm _].
  destruct (CompletionAt _ 0) as [entry|] eqn:Eat; [|done].
  destruct (RemoveCompletionFront _) as [ [e drained]|] eqn:Efront; [|done].
  destruct (front_ok _ _ _ (client_ok c t H Hcm) Efront) as (_ & Ea & Eg & _ & Eat' & Ed).
  rewrite Eat in Eat'. injection Eat' as ->.
  assert (forall s, client_ids s = client_ids (set_client c drained t) -> FindClient client s = Some c) as Hids.
  { intros s E. rewrite <- Hc. apply ids_find. rewrite E. by apply ids_set. }
  case_if; [done|]. fold (is_data e) in *. destruct (is_data e) eqn:Hdata.
  - destruct (ac_data _ H c e) as (i & f & Ef & Of & Es & Ee); [rewrite Ed; by left|].
    cbn [cr_flow]. set (t1 := ReleaseInboundSlab _ _).
    change (cr_flow ((en_record e) <| cr_payload_offset := _ |> <| cr_payload_size := _ |>)) with (cr_flow (en_record e)).
    assert (FindFlow client (cr_flow (en_record e)) t1 = FindFlow client (cr_flow (en_record e)) t) as Eff.
    { unfold FindFlow. rewrite (Hids t1 eq_refl), Hc. done. }
    rewrite Eff, Ee, (find_flow_handle client t c i f H0 H Hc Ef (open_live _ Of) Es).
    change (flow_at i t1) with (flow_at i t). rewrite (flow_at_some _ _ _ Ef).
    apply IH; [by apply (take_accounts client c i f e drained t)|by apply Hids].
  - apply IH; [by eapply take_control_accounts|by apply Hids].
Qed.

(** ** Every operation *)

Lemma refresh_accounts input now t : accounts t -> accounts (RefreshPolicy input now t).
Proof.
  intros H. unfold RefreshPolicy. cbv zeta. destruct (ParseAndNormalizePolicy _ _) as [available policy].
  case_if; [by apply (accounts_fields t)|]. destruct (AllocateNonZero _) as [generation next].
  apply policy_changed_accounts, for_flows_accounts; [|by apply (accounts_fields t)].
  intros i s Hs. cbv zeta. case_if; [done|]. case_if; [by apply close_slot_accounts|]. count_accounts.
Qed.
Lemma commit_accounts reservation t : accounts t -> accounts (snd (CommitFlowReservation reservation t)).
Proof.
  intros H. unfold CommitFlowReservation. case_if; [done|]. destruct (FindFlow _ _ _) as [i|]; [|done].
  cbv zeta. case_if; [done|]. cbn [snd]. apply set_flow_accounts; [done|done|].
  unfold is_open. intros [Hl _]%andb_true_iff. by apply andb_true_iff.
Qed.
Lemma cancel_accounts reservation t : accounts t -> accounts (CancelFlowReservation reservation t).
Proof.
  intros H. unfold CancelFlowReservation. case_if; [done|]. destruct (FindFlow _ _ _) as [i|]; [|done].
  destruct (fl_pending _) eqn:Hp; [by apply clear_flow_accounts|done].
Qed.
Lemma prepare_accounts client descriptor payload availability now t : accounts t ->
  accounts (snd (PrepareSend client descriptor payload availability now t)).
Proof.
  intros H. unfold PrepareSend. cbv zeta. repeat (case_if; [done|]). destruct (FindFlow _ _ _) as [i|]; [|done].
  repeat (case_if; [cbn [snd]; rewrite ?set_flow_twice; first [done | count_accounts]|]).
  cbn [snd]. rewrite set_flow_twice. count_accounts.
Qed.
Lemma complete_send_accounts datagram status t : accounts t -> accounts (CompleteSend datagram status t).
Proof.
  intros H. unfold CompleteSend. case_if; [done|]. destruct (flow_with_handle _ _) as [i|]; [|done].
  cbv zeta. destruct status; first [done | count_accounts].
Qed.
Lemma notify_capacity_accounts peer t : accounts t -> accounts (NotifyOutboundCapacityAvailable peer t).
Proof.
  apply for_flows_accounts. intros i s Hs. cbv zeta. case_if; [done|]. apply control_accounts; [done|]. count_accounts.
Qed.
Lemma invalidate_accounts peer reason now t : accounts t -> accounts (InvalidatePeerActivation peer reason now t).
Proof. apply for_flows_accounts. intros i s Hs. cbv zeta. case_if; [by apply close_slot_accounts|done]. Qed.

Definition op_typed (op : FlowOp) : Prop :=
  match op with
  | Op_DestroyClient client | Op_Reserve client _ _ | Op_PrepareSend client _ _ _ | Op_Receive client _ _
  | Op_CloseFlow client _ => client_typed client
  | _ => True
  end.

Lemma step_accounts now op t : op_typed op -> accounts t -> accounts (flow_step now op t).
Proof.
  intros Hty H. destruct op; cbn [flow_step op_typed] in *.
  - by apply create_accounts.
  - apply destroy_accounts; [apply Hty|done].
  - by apply refresh_accounts.
  - by apply reserve_accounts.
  - by apply commit_accounts.
  - by apply cancel_accounts.
  - by apply prepare_accounts.
  - by apply complete_send_accounts.
  - by apply notify_capacity_accounts.
  - by apply (accounts_fields t).
  - unfold ReceiveCompletions. destruct (FindClient client t) as [c|] eqn:Ec; [|done]. case_if; [done|].
    apply receive_loop_accounts; [apply Hty|done|done].
  - unfold CloseFlow. destruct (FindFlow _ _ _); [|done]. cbn [snd]. case_if; [by apply close_slot_accounts|done].
  - by apply deliver_accounts.
  - by apply invalidate_accounts.
Qed.

Lemma init_accounts : accounts flow_plane_init.
Proof.
  assert (forall f, f ∈ m_flows flow_plane_init -> live f = false) as Hdead.
  { intros f Hf. apply elem_of_replicate_inv in Hf. by subst f. }
  assert (forall c, client_at c flow_plane_init = client_init) as Hat.
  { intros c. unfold client_at. destruct (m_clients flow_plane_init !! c) eqn:E; [|done].
    apply list_elem_of_lookup_2, elem_of_replicate_inv in E. by subst. }
  split; try done.
  - intros c Hc. apply elem_of_replicate_inv in Hc. subst c. apply ring_ok_init.
  - intros f Hf Lf. rewrite (Hdead f Hf) in Lf. done.
  - intros c e. rewrite Hat. by intros ?%elem_of_nil.
  - intros i f Hf Lf. apply list_elem_of_lookup_2, Hdead in Hf. congruence.
Qed.
Lemma run_accounts ops t : Forall (fun op => op_typed (snd op)) ops -> accounts t -> accounts (flow_run ops t).
Proof.
  intros Hty. revert t. induction Hty as [|[now op] ops Hop Hty IH]; intros t H; [done|].
  cbn. apply IH. by apply step_accounts.
Qed.

(** C12. After any sequence of operations on the flow plane the inbound slabs are
    accounted for: the slabs in use are exactly those that the records queued for
    the clients refer to, each of them once, so none leaks and none is shared; the
    ring of a client holds at most sixteen records, seven of them datagrams, and its
    counts are right; and the occupancy of a live flow is the number of datagrams
    queued for it, at most four. *)
Theorem inbound_slabs_accounted ops :
  Forall (fun op => op_typed (snd op)) ops ->
  let t := flow_run ops flow_plane_init in
  owned t ≡ₚ allocated t /\ NoDup (owned t) /\
  (forall client, client ∈ m_clients t ->
     cs_completion_count client = length (ring_entries client) /\
     cs_data_completion_count client = length (ring_slabs client) /\
     (cs_completion_count client <= CompletionQueueCapacity)%nat /\
     (cs_data_completion_count client <= DataCompletionCapacity)%nat) /\
  (forall i flow, m_flows t !! i = Some flow -> live flow = true ->
     fl_inbound_occupancy flow = Z.of_nat (length (queued i flow t)) /\
     fl_inbound_occupancy flow <= MaximumInboundDatagramsPerFlow).
Proof.
  intros Hty t. pose proof (run_accounts ops flow_plane_init Hty init_accounts) as H. fold t in H. split_and!.
  - apply H.
  - rewrite (ac_balance _ H). apply allocated_NoDup.
  - intros client Hc. destruct (ac_rings _ H client Hc) as [Hs Hd Hb _ _]. split_and!; [|done|apply Hs|done].
    by rewrite length_entries.
  - apply H.
Qed.

(** The flow opened by [example_before] gets two datagrams; the first one is taken. *)
Definition example_traffic : list (Z * FlowOp) := example_before ++
  [(4, Op_Deliver (mk_peer_identity 0 1) 2 (rv_adapter_token example_reservation) example_remote [1; 2; 3]);
   (5, Op_Deliver (mk_peer_identity 0 1) 2 (rv_adapter_token example_reservation) example_remote [4; 5]);
   (6, Op_Receive example_client 2 (zeros 4))].

Lemma inbound_slabs_accounted_witness :
  allocated (flow_run example_traffic flow_plane_init) = [1%nat] /\
  owned (flow_run example_traffic flow_plane_init) ≡ₚ allocated (flow_run example_traffic flow_plane_init) /\
  fl_inbound_occupancy (flow_at 0 (flow_run example_traffic flow_plane_init)) = 1.
Proof.
  destruct (inbound_slabs_accounted example_traffic) as (H & _).
  - repeat constructor; done.
  - split; [vm_compute; reflexivity|]. split; [exact H|vm_compute; reflexivity].
Defined.

(** ** A full ring

    The ring keeps nine records free of datagrams: four flows with two records each
    and one change of the policy.  The record that a flow is closed stays until it
    is received, and the handle of the next flow is a new one, so a client that
    opens and closes sixteen flows before it receives leaves no room: the change of
    the policy that follows is not recorded for it. *)

Definition churn_once (t : TunnelFlowPlane) (time : Z) : TunnelFlowPlane :=
  let '(opened, t) := OpenConnectedUdpFlow example_client (mk_open_request example_remote 0) time
                        (mk_availability true true) t in
  snd (CloseFlow example_client (ow_flow opened) time t).
Definition churned : TunnelFlowPlane :=
  foldl churn_once (flow_run (take 2 example_open) flow_plane_init)
    ((fun n => Z.of_nat n * ReverseTupleQuarantineNs) <$> seq 1 16).
Definition policy_withdrawn : TunnelFlowPlane :=
  RefreshPolicy (mk_policy_input None (mk_peer_identity 0 0) false) (17 * ReverseTupleQuarantineNs) churned.

Lemma policy_change_lost :
  m_policy_generation policy_withdrawn <> m_policy_generation churned /\
  FindClient example_client policy_withdrawn = Some 0%nat /\
  (fun entry => cr_type (en_record entry)) <$> ring_entries (client_at 0 policy_withdrawn)
    = replicate 16 CompletionType_FlowStateChanged.
Proof. split_and!; vm_compute; congruence. Qed.
