(* ===== verification/FlowInbox.v ===== *)
(** * The inbound datagrams of the tunnel flows as inboxes

    Each client has an abstract inbox, the list of the datagrams queued for its
    flows.  The plane refines it: an accepted datagram is appended, a client
    receives a prefix unchanged and in order, and nothing else touches an inbox but
    the closing of a flow, which removes the datagrams of that flow. *)

From S2P Require Import Prelude Endian Messages PacketQueue Platform Session Base64 InnerPacket Timers.
From S2P Require Import Crypto Device Data Identity Admission Handshake Peer PeerController RuntimeEvents.
From S2P Require Import FlowPolicy FlowPlane FlowTuples FlowRings.
Local Open Scope Z_scope.

#[local] Arguments ReleaseInboundSlab : simpl never.
#[local] Arguments slab_init : simpl never.

(** ** The inboxes *)

(** The handle of the flow and the payload. *)
Definition Datagram : Type := Z * bytes.
Definition payload_of (slab : InboundSlab) : bytes := take (Z.to_nat (sl_size slab)) (sl_bytes slab).
Definition stored (t : TunnelFlowPlane) (entry : CompletionEntry) : Datagram :=
  (cr_flow (en_record entry), payload_of (slab_at (en_slab entry) t)).
Definition inbox (t : TunnelFlowPlane) (c : nat) : list Datagram := stored t <$> ring_data (client_at c t).
Definition handle_open (t : TunnelFlowPlane) (handle : Z) : bool :=
  existsb (fun i => is_open (flow_at i t) && (MakeFlowHandle i (flow_at i t) =? handle)) (seq 0 MaximumFlows).
(** The datagrams that the records returned to a client describe. *)
Definition received (records : list CompletionRecord) (buffer : bytes) : list Datagram :=
  omap (fun record =>
    if is_datagram record
    then Some (cr_flow record, take (Z.to_nat (cr_payload_size record)) (drop (Z.to_nat (cr_payload_offset record)) buffer))
    else None) records.

(** ** What leaves the remaining datagrams alone *)

Lemma handle_open_spec t h : length (m_flows t) = MaximumFlows ->
  handle_open t h = true <-> exists i f, m_flows t !! i = Some f /\ is_open f = true /\ MakeFlowHandle i f = h.
Proof.
  intros Hlen. unfold handle_open. rewrite existsb_exists. setoid_rewrite <- list_elem_of_In. split.
  - intros (i & Hi%elem_of_seq & H). apply andb_true_iff in H as [Ho E]. apply Z.eqb_eq in E.
    exists i, (flow_at i t). split_and!; [|done|done]. apply flow_at_lookup. lia.
  - intros (i & f & Ef & Of & E). exists i. rewrite (flow_at_some _ _ _ Ef). split.
    + apply elem_of_seq. split; [lia|]. rewrite <- Hlen. by eapply lookup_lt_Some.
    + rewrite Of, E. by rewrite Z.eqb_refl.
Qed.
Lemma queued_open t c e : accounts t -> e ∈ ring_data (client_at c t) -> handle_open t (cr_flow (en_record e)) = true.
Proof.
  intros H He. apply handle_open_spec; [apply H|]. destruct (ac_data _ H c e He) as (i & f & Ef & Of & _ & E).
  by exists i, f.
Qed.

Definition slabs_reset (t t' : TunnelFlowPlane) : Prop :=
  forall s, slab_at s t' = slab_at s t \/ slab_at s t' = slab_init.
Definition still_open (t : TunnelFlowPlane) (entry : CompletionEntry) : bool := handle_open t (cr_flow (en_record entry)).

(** Datagrams are only removed, namely those of flows that are no longer open. *)
Record drops (t t' : TunnelFlowPlane) : Prop := {
  dr_accounts : accounts t';
  dr_slabs : slabs_reset t t';
  dr_open h : handle_open t' h = true -> handle_open t h = true;
  dr_data c : ring_data (client_at c t') = List.filter (still_open t') (ring_data (client_at c t))
}.

Lemma filter_all {A} (p : A -> bool) l : (forall x, x ∈ l -> p x = true) -> List.filter p l = l.
Proof.
  induction l as [|a l IH]; intros H; [done|]. cbn. rewrite (H a) by left. f_equal. apply IH. intros x Hx. apply H. by right.
Qed.
Lemma filter_filter {A} (p q : A -> bool) l : (forall x, p x = true -> q x = true) ->
  List.filter p (List.filter q l) = List.filter p l.
Proof.
  intros H. induction l as [|a l IH]; [done|]. cbn. destruct (q a) eqn:Eq; cbn.
  - by rewrite IH.
  - rewrite IH. destruct (p a) eqn:Ep; [|done]. apply H in Ep. congruence.
Qed.
Lemma filter_fmap {A B} (f : A -> B) (p : B -> bool) (l : list A) :
  List.filter p (f <$> l) = f <$> List.filter (fun a => p (f a)) l.
Proof. induction l as [|a l IH]; [done|]. cbn. destruct (p (f a)); cbn; by rewrite IH. Qed.

Lemma drops_refl t : accounts t -> drops t t.
Proof.
  intros H. split; [done|by left|done|]. intros c. symmetry. apply filter_all. intros e He. by apply (queued_open t c).
Qed.
Lemma drops_trans t1 t2 t3 : drops t1 t2 -> drops t2 t3 -> drops t1 t3.
Proof.
  intros [A1 S1 O1 D1] [A2 S2 O2 D2]. split; [done| |by auto|].
  - intros s. destruct (S2 s) as [-> | ->]; [apply S1|by right].
  - intros c. rewrite D2, D1. apply filter_filter. intros e. apply O2.
Qed.

(** A slab that is still referred to holds what it held. *)
Lemma queued_allocated t c e : accounts t -> e ∈ ring_data (client_at c t) -> en_slab e ∈ allocated t.
Proof.
  intros H He. rewrite <- (ac_balance _ H). unfold owned. apply list_elem_of_In, List.in_concat.
  exists (ring_slabs (client_at c t)). split.
  - apply list_elem_of_In. apply list_elem_of_fmap. exists (client_at c t). split; [done|].
    unfold client_at in *. destruct (m_clients t !! c) as [cl|] eqn:Ec; [by eapply list_elem_of_lookup_2|].
    by apply elem_of_nil in He.
  - apply list_elem_of_In. apply list_elem_of_fmap. by exists e.
Qed.
Lemma kept_slab t t' c e : accounts t' -> slabs_reset t t' -> e ∈ ring_data (client_at c t') ->
  slab_at (en_slab e) t' = slab_at (en_slab e) t.
Proof.
  intros H Hs He. destruct (Hs (en_slab e)) as [E|E]; [done|]. exfalso.
  apply queued_allocated, elem_allocated in He as [_ Hu]; [|done]. unfold slab_used in Hu. by rewrite E in Hu.
Qed.

Lemma drops_inbox t t' c : drops t t' ->
  inbox t' c = List.filter (fun d => handle_open t' (fst d)) (inbox t c).
Proof.
  intros [A S O D]. unfold inbox. rewrite filter_fmap. cbn [stored fst]. rewrite D. apply list_fmap_ext.
  intros _ e He%list_elem_of_lookup_2. unfold stored. f_equal. f_equal. apply (kept_slab t t' c); [done|done|].
  by rewrite D.
Qed.

(** The same datagrams and slabs. *)
Lemma drops_same t t' : accounts t' -> m_inbound_slabs t' = m_inbound_slabs t ->
  (forall c, ring_data (client_at c t') = ring_data (client_at c t)) ->
  (forall h, handle_open t' h = true -> handle_open t h = true) -> drops t t'.
Proof.
  intros H Es Ed Ho. split; [done| |done|].
  - intros s. left. unfold slab_at. by rewrite Es.
  - intros c. rewrite <- Ed. symmetry. apply filter_all. intros e He. by apply (queued_open t' c).
Qed.

(** ** The operations that do not move datagrams *)

Lemma view_drops t t' : account_view t' = account_view t -> accounts t' -> drops t t'.
Proof.
  intros E H. pose proof E as [= Ec Ef Es En]. apply drops_same; [done|done| |].
  - intros c. by pose proof (view_at c t t' Ec) as [= _ _ ->].
  - intros h. unfold handle_open, flow_at. by rewrite Ef.
Qed.
Lemma fields_drops t t' : account_fields t' = account_fields t -> accounts t -> drops t t'.
Proof.
  intros E H. apply view_drops; [|by apply (accounts_fields t)]. injection E as Ec Ef Es En. unfold account_view.
  by rewrite Ec, Ef, Es, En.
Qed.
Lemma control_drops client completion t : is_datagram completion = false -> accounts t ->
  drops t (EnqueueControlCompletion client completion t).
Proof. intros Ht H. apply view_drops; by apply control_spec. Qed.
Lemma policy_changed_drops t : accounts t -> drops t (EnqueuePolicyChanged t).
Proof. intros H. apply view_drops; by apply policy_changed_spec. Qed.

(** The written flow is open only if the old one was, with the same handle. *)
Lemma set_flow_drops i f' t : accounts t -> accounts (set_flow i f' t) ->
  (is_open f' = true -> is_open (flow_at i t) = true /\ MakeFlowHandle i f' = MakeFlowHandle i (flow_at i t)) ->
  drops t (set_flow i f' t).
Proof.
  intros H H' Hopen. apply drops_same; [done|done|done|]. intros h.
  rewrite (handle_open_spec (set_flow i f' t)) by apply H'. rewrite (handle_open_spec t) by apply H.
  intros (j & g & Hj & Og & Eg). apply set_flow_lookup in Hj as [ [-> ->]|[_ Hj] ]; [|by exists j, g].
  destruct (Hopen Og) as [O E]. exists i, (flow_at i t). split_and!; [apply flow_live_at; by left|done|congruence].
Qed.
Ltac set_flow_drops :=
  lazymatch goal with
  | |- drops ?t (set_flow ?slot _ ?t) =>
      repeat match goal with f := flow_at slot t |- _ => subst f end;
      apply set_flow_drops; [assumption|count_accounts|];
      generalize (flow_at slot t); lazy -[u64 Z.add Z.lor Z.land Z.shiftl]; intros; split; [assumption|reflexivity]
  end.

Lemma clear_flow_drops i t : accounts t -> fl_pending (flow_at i t) = true -> drops t (set_flow i flow_init t).
Proof. intros H Hp. apply set_flow_drops; [done|by apply clear_flow_accounts|done]. Qed.

Lemma for_flows_drops body t : (forall i t, accounts t -> drops t (body i t)) -> accounts t -> drops t (for_flows body t).
Proof.
  intros Hbody. rewrite for_flows_eq. generalize (seq 0 MaximumFlows). intros l. revert t.
  induction l as [|i l IH]; intros t H; [by apply drops_refl|]. cbn [foldl].
  pose proof (Hbody i t H) as D. apply (drops_trans t (body i t)); [done|]. apply IH, D.
Qed.

(** ** Closing a flow *)

Lemma slabs_reset_trans t1 t2 t3 : slabs_reset t1 t2 -> slabs_reset t2 t3 -> slabs_reset t1 t3.
Proof. intros H12 H23 s. destruct (H23 s) as [-> | ->]; [apply H12|by right]. Qed.
Lemma release_at s k t : slab_at s (ReleaseInboundSlab k t) = slab_at s t \/ slab_at s (ReleaseInboundSlab k t) = slab_init.
Proof.
  unfold ReleaseInboundSlab, slab_at. cbn. destruct (decide (s = k)) as [->|Hne].
  - right. destruct (decide (k < length (m_inbound_slabs t))%nat).
    + by rewrite list_lookup_insert_eq.
    + by rewrite list_insert_ge, (lookup_ge_None_2 (m_inbound_slabs t) k) by lia.
  - left. by rewrite list_lookup_insert_ne.
Qed.
Lemma release_all_reset entries t : slabs_reset t (release_all entries t).
Proof.
  revert t. induction entries as [|e entries IH]; intros t; [by left|].
  change (release_all (e :: entries) t) with (release_all entries (ReleaseInboundSlab (en_slab e) t)).
  eapply slabs_reset_trans; [|apply IH]. intros s. apply release_at.
Qed.

Lemma remove_close_drops i f f' t : accounts t -> m_flows t !! i = Some f -> is_open f = true -> live f' = false ->
  drops t (set_flow i f' (RemoveFlowCompletions i (slot_of f) t)).
Proof.
  intros H Ef Of Hl'. pose proof (remove_close_accounts i f f' t H Ef Of Hl') as H'.
  destruct (ac_owner _ H f) as [Hh Hfind]; [by eapply list_elem_of_lookup_2|by apply open_live|].
  apply find_client_range in Hfind as [Hc _]. set (c := slot_of f) in *.
  destruct (remove_flow_spec i c t (client_ok c t H Hc)) as (client' & E & _ & Hv). cbv zeta in E, Hv.
  rewrite (flow_at_some i t f Ef) in E, Hv. injection Hv as _ _ Ed. rewrite E in *. clear E.
  set (h := MakeFlowHandle i f) in *. set (D := ring_data (client_at c t)) in *.
  destruct (release_all_frame (List.filter (of_flow h) D) t) as (Rc & Rf & _ & _).
  set (t1 := release_all (List.filter (of_flow h) D) t) in *. set (t2 := set_flow i f' (set_client c client' t1)) in *.
  assert (c < length (m_clients t))%nat as Hlen by by rewrite (ac_clients _ H).
  assert (forall d, client_at d t2 = if decide (d = c) then client' else client_at d t) as Hat.
  { intros d. apply client_at_insert; [|done]. unfold t2. cbn. by rewrite Rc. }
  assert (forall j g, m_flows t2 !! j = Some g -> is_open g = true -> j <> i /\ m_flows t !! j = Some g) as Hfl.
  { intros j g Hg Og. unfold t2 in Hg. apply set_flow_lookup in Hg as [ [-> ->]|[Hne Hg] ].
    - apply open_live in Og. congruence.
    - split; [done|]. by rewrite <- Rf. }
  assert (handle_open t2 h = false) as Hclosed.
  { apply not_true_iff_false. rewrite handle_open_spec by apply H'. intros (j & g & Hg & Og & Eg).
    destruct (Hfl j g Hg Og) as [Hne Hg']. apply Hne, (handle_slot j i g f); [| | |done|done].
    - rewrite <- (ac_flows _ H). by eapply lookup_lt_Some.
    - rewrite <- (ac_flows _ H). by eapply lookup_lt_Some.
    - apply (ac_owner _ H); [by eapply list_elem_of_lookup_2|by apply open_live]. }
  assert (forall d, ring_data (client_at d t2) = if decide (d = c) then others h D else ring_data (client_at d t)) as Hdata.
  { intros d. rewrite Hat. by destruct (decide (d = c)). }
  split; [exact H'| | |].
  - intros s. apply (release_all_reset _ t s).
  - intros k. rewrite (handle_open_spec t2), (handle_open_spec t) by (apply H' || apply H).
    intros (j & g & Hg & Og & Eg). destruct (Hfl j g Hg Og) as [_ Hg']. by exists j, g.
  - intros d. rewrite Hdata. destruct (decide (d = c)) as [->|Hd].
    + fold D. apply List.filter_ext_in. intros e He%list_elem_of_In. unfold still_open, of_flow.
      destruct (cr_flow (en_record e) =? h) eqn:Eh; bool_prop; [by rewrite Eh|]. symmetry.
      apply (queued_open t2 c); [done|]. rewrite Hdata, decide_True by done. apply elem_filter. split; [|done].
      unfold of_flow. by rewrite (proj2 (Z.eqb_neq _ _) Eh).
    + symmetry. apply filter_all. intros e He. apply (queued_open t2 d); [done|]. by rewrite Hdata, decide_False.
Qed.

Lemma close_slot_drops i reason now notify t : accounts t -> drops t (CloseFlowSlot i reason now notify t).
Proof.
  intros H. unfold CloseFlowSlot. cbv zeta. destruct (negb _ || _) eqn:Hl; [by apply drops_refl|].
  destruct (fl_pending _) eqn:Hp; [by apply clear_flow_drops|]. set (f := flow_at i t) in *.
  assert (is_open f = true) as Of.
  { unfold is_open, live. rewrite Hp. apply orb_false_iff in Hl as [Ha ->]. apply negb_false_iff in Ha. by rewrite Ha. }
  assert (m_flows t !! i = Some f) as Ef by (apply flow_live_at; by left).
  destruct (ac_owner _ H f) as [_ ->]; [by eapply list_elem_of_lookup_2|by apply open_live|].
  set (f' := f <| fl_closed := true |> <| fl_terminal_reason := reason |> <| fl_inbound_occupancy := 0 |>
                <| fl_last_activity_at := now |>).
  assert (drops t (set_flow i f' (RemoveFlowCompletions i (slot_of f) t))) as D1.
  { apply remove_close_drops; try done. apply andb_false_r. }
  assert (drops t (set_flow i f' (QuarantineTuple f now (RemoveFlowCompletions i (slot_of f) t)))) as D2.
  { eapply drops_trans; [exact D1|]. apply fields_drops; [|apply D1].
    pose proof (quarantine_fields f now (RemoveFlowCompletions i (slot_of f) t)) as [= E1 E2 E3 E4].
    unfold account_fields. cbn. by rewrite E1, E2, E3, E4. }
  destruct notify; [|exact D2]. eapply drops_trans; [exact D2|]. apply control_drops; [done|apply D2].
Qed.

(** ** The other operations *)

Lemma refresh_drops input now t : accounts t -> drops t (RefreshPolicy input now t).
Proof.
  intros H. unfold RefreshPolicy. cbv zeta. destruct (ParseAndNormalizePolicy _ _) as [available policy].
  case_if; [by apply fields_drops|]. destruct (AllocateNonZero _) as [generation next].
  set (t1 := _ <| m_next_policy_generation := next |>).
  assert (drops t t1) as D1 by (apply fields_drops; [reflexivity|done]).
  eapply drops_trans; [exact D1|]. set (t2 := for_flows _ t1). assert (drops t1 t2) as D2.
  { apply for_flows_drops; [|apply D1]. intros i s Hs. cbv zeta. case_if; [by apply drops_refl|].
    case_if; [by apply close_slot_drops|set_flow_drops]. }
  eapply drops_trans; [exact D2|]. apply policy_changed_drops, D2.
Qed.
Lemma create_drops notifier t : accounts t -> drops t (snd (CreateClient notifier t)).
Proof.
  intros H. pose proof (create_accounts notifier t H) as H'. unfold CreateClient in *.
  destruct (find_index _ _) as [c|] eqn:Ei; [|by apply drops_refl].
  apply find_index_some in Ei as (client & Hc & Ha & _). apply negb_true_iff in Ha.
  destruct (AllocateNonZero _) as [generation next]. cbn [snd] in *. apply drops_same; [done|done| |done].
  intros d. set (client' := client_init <| cs_allocated := true |> <| cs_generation := generation |> <| cs_notifier := notifier |>).
  rewrite (client_at_insert c client' t) by (done || by eapply lookup_lt_Some).
  destruct (decide (d = c)) as [->|]; [|done].
  assert (client_at c t = client) as -> by (unfold client_at; by rewrite Hc).
  symmetry. apply idle_data; [|done]. apply (ac_rings _ H). by eapply list_elem_of_lookup_2.
Qed.
Lemma destroy_drops client now t : 0 <= tc_slot client -> accounts t -> drops t (DestroyClient client now t).
Proof.
  intros H0 H. pose proof (destroy_accounts client now t H0 H) as H'.
  destruct (FindClient client t) as [c|] eqn:Ec; [|unfold DestroyClient; rewrite Ec; by apply drops_refl].
  pose proof (find_client_range _ _ _ Ec) as [Hc _].
  destruct (destroy_spec client now t c H0 H Ec) as (t1 & Et & H1 & Hd & E). rewrite E in *.
  assert (drops t t1) as D1.
  { rewrite Et. apply for_flows_drops; [|done]. intros i s Hs. unfold destroy_body. cbv zeta.
    case_if; [by apply close_slot_drops|by apply drops_refl]. }
  clear Et E. eapply drops_trans; [exact D1|]. apply drops_same; [done|done| |done].
  intros d. rewrite (client_at_insert c client_init t1) by (done || by rewrite (ac_clients _ H1)).
  destruct (decide (d = c)) as [->|]; [|done]. by rewrite Hd.
Qed.
Lemma reserve_drops client request now availability t : client_typed client -> accounts t ->
  drops t (snd (ReserveConnectedUdpFlow client request now availability t)).
Proof.
  intros Hty H. pose proof (reserve_accounts client request now availability t Hty H) as H'.
  unfold ReserveConnectedUdpFlow in *. cbv zeta in *. repeat (case_if; [by apply drops_refl|]).
  destruct (find_index _ (m_flows t)) as [slot|] eqn:Es; [|by apply drops_refl].
  apply free_slot_at in Es as (f & Ef & Hl). unfold HasTombstoneReservation in *. cbv zeta in *.
  set (t1 := ClearExpiredTombstones now t) in *. assert (account_fields t1 = account_fields t) as E1 by done. clearbody t1.
  case_if; [by apply fields_drops|].
  pose proof (allocate_tuple_fields (or_remote request) now t1) as E2.
  destruct (AllocateVirtualTuple _ now t1) as [ [port|] t2]; cbn [snd] in E2; rewrite E1 in E2; [|by apply fields_drops].
  destruct (generation_range t2) as [_ E3]. destruct (AllocateFlowGeneration t2) as [generation t3].
  cbn [fst snd] in *. rewrite E2 in E3. assert (drops t t3) as D3 by by apply fields_drops.
  eapply drops_trans; [exact D3|]. apply set_flow_drops; [apply D3|exact H'|done].
Qed.
Lemma cancel_drops reservation t : accounts t -> drops t (CancelFlowReservation reservation t).
Proof.
  intros H. unfold CancelFlowReservation. case_if; [by apply drops_refl|].
  destruct (FindFlow _ _ _) as [i|]; [|by apply drops_refl].
  destruct (fl_pending _) eqn:Hp; [by apply clear_flow_drops|by apply drops_refl].
Qed.
Lemma prepare_drops client descriptor payload availability now t : accounts t ->
  drops t (snd (PrepareSend client descriptor payload availability now t)).
Proof.
  intros H. unfold PrepareSend. cbv zeta. repeat (case_if; [by apply drops_refl|]).
  destruct (FindFlow _ _ _) as [i|]; [|by apply drops_refl].
  repeat (case_if; [cbn [snd]; rewrite ?set_flow_twice; first [by apply drops_refl | set_flow_drops]|]).
  cbn [snd]. rewrite set_flow_twice. set_flow_drops.
Qed.
Lemma complete_send_drops datagram status t : accounts t -> drops t (CompleteSend datagram status t).
Proof.
  intros H. unfold CompleteSend. case_if; [by apply drops_refl|].
  destruct (flow_with_handle _ _) as [i|]; [|by apply drops_refl].
  cbv zeta. destruct status; first [by apply drops_refl | set_flow_drops].
Qed.
Lemma notify_capacity_drops peer t : accounts t -> drops t (NotifyOutboundCapacityAvailable peer t).
Proof.
  apply for_flows_drops. intros i s Hs. cbv zeta. case_if; [by apply drops_refl|].
  set (s1 := set_flow i _ s). assert (drops s s1) as D by (unfold s1; set_flow_drops).
  eapply drops_trans; [exact D|]. apply control_drops; [done|apply D].
Qed.
Lemma invalidate_drops peer reason now t : accounts t -> drops t (InvalidatePeerActivation peer reason now t).
Proof. apply for_flows_drops. intros i s Hs. cbv zeta. case_if; [by apply close_slot_drops|by apply drops_refl]. Qed.
Lemma close_drops client handle now t : accounts t -> drops t (snd (CloseFlow client handle now t)).
Proof.
  intros H. unfold CloseFlow. destruct (FindFlow _ _ _); [|by apply drops_refl]. cbn [snd].
  case_if; [by apply close_slot_drops|by apply drops_refl].
Qed.

(** Committing opens a flow, which has no datagrams yet. *)
Lemma commit_inbox reservation t c : inbox (snd (CommitFlowReservation reservation t)) c = inbox t c.
Proof.
  unfold CommitFlowReservation. case_if; [done|]. destruct (FindFlow _ _ _) as [i|]; [|done].
  cbv zeta. case_if; [done|]. reflexivity.
Qed.
Lemma commit_slabs reservation t :
  m_inbound_slabs (snd (CommitFlowReservation reservation t)) = m_inbound_slabs t.
Proof.
  unfold CommitFlowReservation. case_if; [done|]. destruct (FindFlow _ _ _) as [i|]; [|done].
  cbv zeta. case_if; [done|]. reflexivity.
Qed.

(** ** Delivering a datagram *)

Lemma drops_slabs t t' : accounts t' -> slabs_reset t t' ->
  (forall c, ring_data (client_at c t') = ring_data (client_at c t)) ->
  (forall h, handle_open t' h = true -> handle_open t h = true) -> drops t t'.
Proof.
  intros H Hs Ed Ho. split; [done|done|done|]. intros c. rewrite <- Ed. symmetry. apply filter_all.
  intros e He. by apply (queued_open t' c).
Qed.
Lemma opens_insert i f g t t' : accounts t -> accounts t' -> m_flows t !! i = Some f -> is_open f = true ->
  m_flows t' = <[i:=g]> (m_flows t) -> MakeFlowHandle i g = MakeFlowHandle i f ->
  forall h, handle_open t' h = true -> handle_open t h = true.
Proof.
  intros H H' Ef Of E Eh h. rewrite (handle_open_spec t'), (handle_open_spec t) by (apply H' || apply H).
  intros (j & k & Hj & Ok & Ek). rewrite E in Hj. apply (set_flow_lookup i g t) in Hj as [ [-> ->]|[_ Hj] ].
  - exists i, f. split_and!; [done|done|congruence].
  - by exists j, k.
Qed.

(** Both outcomes of [EnqueueDataCompletion]. *)
Lemma enqueue_spec i s f1 slab t c : accounts t -> FindClient (client_of f1) t = Some c -> (i < length (m_flows t))%nat ->
  (s < InboundPacketSlabCount)%nat ->
  let t3 := set_flow i f1 (with_slab s slab t) in
  let '(delivered, t4) := EnqueueDataCompletion i s t3 in
  if delivered then
    m_flows t4 = m_flows t3 /\ m_inbound_slabs t4 = m_inbound_slabs t3 /\
    forall d, ring_data (client_at d t4) = ring_data (client_at d t) ++
      (if decide (d = c) then [mk_entry (inbound_record i f1 (sl_size slab)) s] else [])
  else
    m_flows t4 = <[i := f1 <| fl_inbound_occupancy ::= fun n => if 0 <? n then n - 1 else n |>]> (m_flows t) /\
    m_inbound_slabs t4 = m_inbound_slabs (ReleaseInboundSlab s t) /\ m_clients t4 = m_clients t.
Proof.
  intros H Hc Hi Hs t3. unfold EnqueueDataCompletion. cbv zeta.
  assert (flow_at i t3 = f1) as -> by by apply flow_at_set.
  change (FindClient (client_of f1) t3) with (FindClient (client_of f1) t). rewrite Hc.
  change (client_at c t3) with (client_at c t). pose proof (find_client_range _ _ _ Hc) as [Hcm Ha].
  assert (slab_at s t3 = slab) as ->.
  { unfold slab_at, t3, with_slab. cbn. by rewrite list_lookup_insert_eq by by rewrite (ac_slabs _ H). }
  destruct (_ || _) eqn:Hfull.
  - split_and!; [apply list_insert_insert_eq|apply list_insert_insert_eq|done].
  - apply orb_false_iff in Hfull as [Hd Hf]. apply Nat.leb_gt in Hd, Hf.
    destruct (push_data (inbound_record i f1 (sl_size slab)) s (client_at c t) (client_ok c t H Hcm) Ha Hf Hd) as [_ Hv];
      [unfold InvalidSlabSlot, InboundPacketSlabCount in *; lia|done|].
    set (client' := (ring_push _ _) <| cs_data_completion_count ::= S |>) in Hv. injection Hv as Ed.
    set (t4 := NotifyIfNeeded _ _ _). assert (account_view t4 = account_view (set_client c client' t3)) as Ev by apply view_notify.
    pose proof Ev as [= Ec Ef Es En]. split_and!; [done|done|]. intros d.
    pose proof (view_at d (set_client c client' t3) t4 Ec) as [= _ _ ->].
    rewrite (client_at_insert c client' t3 (set_client c client' t3) d eq_refl); [|change (m_clients t3) with (m_clients t); by rewrite (ac_clients _ H)].
    destruct (decide (d = c)) as [->|]; [exact Ed|]. by rewrite app_nil_r.
Qed.

(** A slab stores at least as many bytes as its size says. *)
Definition slab_full (slab : InboundSlab) : Prop := (Z.to_nat (sl_size slab) <= length (sl_bytes slab))%nat.
Definition slabs_full (t : TunnelFlowPlane) : Prop := forall s, slab_full (slab_at s t).
Lemma reset_full t t' : slabs_reset t t' -> slabs_full t -> slabs_full t'.
Proof.
  intros Hs Hf s. destruct (Hs s) as [-> | ->]; [apply Hf|]. unfold slab_full. cbn [sl_size slab_init]. apply Nat.le_0_l.
Qed.

Definition delivered_slab (slab : InboundSlab) (payload : bytes) : InboundSlab :=
  slab <| sl_allocated := true |> <| sl_size := u16 (Z.of_nat (length payload)) |>
       <| sl_bytes ::= fun b => write_at b 0 payload |>.
Lemma delivered_payload slab payload : (length payload <= MaximumUdpPayloadStorageBytes)%nat ->
  payload_of (delivered_slab slab payload) = payload /\ slab_full (delivered_slab slab payload).
Proof.
  intros Hlen. unfold payload_of, slab_full.
  change (sl_size (delivered_slab slab payload)) with (u16 (Z.of_nat (length payload))).
  change (sl_bytes (delivered_slab slab payload)) with (write_at (sl_bytes slab) 0 payload).
  assert (u16 (Z.of_nat (length payload)) = Z.of_nat (length payload)) as ->.
  { unfold u16. apply Z.mod_small. change MaximumUdpPayloadStorageBytes with (Z.to_nat 1472) in Hlen. lia. }
  rewrite Nat2Z.id. unfold write_at. rewrite take_0, app_nil_l. split; [by rewrite take_app_length|rewrite length_app; lia].
Qed.

(** An accepted datagram is appended to the inbox of the client of its flow, which
    is open. *)
Record appended (t t' : TunnelFlowPlane) (out : TunnelInboundOutcome) (token : Z) (payload : bytes) : Prop := {
  ap_full : slabs_full t -> slabs_full t';
  ap_open : handle_open t token = true;
  ap_flow : in_flow out = token;
  ap_inbox c : inbox t' c = inbox t c ++
    (if decide (c = Z.to_nat (tc_slot (in_client out))) then [(token, payload)] else [])
}.
(** The two ends of [DeliverInboundUdpDatagram]. *)
Lemma deliver_dropped i s t t4 f1 g : accounts t -> m_flows t !! i = Some (flow_at i t) -> is_open (flow_at i t) = true ->
  m_flows t4 = <[i := f1]> (m_flows t) -> m_inbound_slabs t4 = m_inbound_slabs (ReleaseInboundSlab s t) ->
  m_clients t4 = m_clients t -> MakeFlowHandle i g = MakeFlowHandle i (flow_at i t) ->
  accounts (set_flow i g t4) -> drops t (set_flow i g t4).
Proof.
  intros H Ef Of Efl Esl Ecl Eh H'. apply drops_slabs; [done| | |].
  - intros k. change (slab_at k (set_flow i g t4)) with (slab_at k t4).
    assert (slab_at k t4 = slab_at k (ReleaseInboundSlab s t)) as -> by (unfold slab_at; by rewrite Esl). apply release_at.
  - intros c. change (client_at c (set_flow i g t4)) with (client_at c t4). unfold client_at. by rewrite Ecl.
  - apply (opens_insert i (flow_at i t) g); [done|done|done|done| |done]. cbn. rewrite Efl. apply list_insert_insert_eq.
Qed.
Lemma deliver_appended i s t t4 f1 g client payload : accounts t -> m_flows t !! i = Some (flow_at i t) ->
  is_open (flow_at i t) = true -> slab_used t s = false -> (s < InboundPacketSlabCount)%nat ->
  (length payload <= MaximumUdpPayloadStorageBytes)%nat ->
  let slab := delivered_slab (slab_at s t) payload in
  m_inbound_slabs t4 = <[s := slab]> (m_inbound_slabs t) ->
  MakeFlowHandle i f1 = MakeFlowHandle i (flow_at i t) ->
  (forall d, ring_data (client_at d t4) = ring_data (client_at d t) ++
    (if decide (d = slot_of (flow_at i t)) then [mk_entry (inbound_record i f1 (sl_size slab)) s] else [])) ->
  Z.to_nat (tc_slot client) = slot_of (flow_at i t) ->
  appended t (set_flow i g t4) (mk_inbound TunnelInbound_Delivered (length payload) client (MakeFlowHandle i (flow_at i t)))
    (MakeFlowHandle i (flow_at i t)) payload.
Proof.
  intros H Ef Of Hu Hs Hlen slab Esl Eh Edata Ecl. destruct (delivered_payload (slab_at s t) payload Hlen) as [Hp Hf].
  fold slab in Hp, Hf.
  assert (forall k, slab_at k t4 = if decide (k = s) then slab else slab_at k t) as Hat.
  { intros k. unfold slab_at at 1. rewrite Esl. destruct (decide (k = s)) as [->|Hne].
    - by rewrite list_lookup_insert_eq by by rewrite (ac_slabs _ H).
    - by rewrite list_lookup_insert_ne. }
  split; [| |done|].
  - intros Hfull k. change (slab_at k (set_flow i g t4)) with (slab_at k t4). rewrite Hat.
    destruct (decide (k = s)); [exact Hf|apply Hfull].
  - apply handle_open_spec; [apply H|]. by exists i, (flow_at i t).
  - intros d. cbn [in_client]. rewrite Ecl. unfold inbox.
    change (client_at d (set_flow i g t4)) with (client_at d t4). rewrite Edata, fmap_app. f_equal.
    + apply list_fmap_ext. intros _ e He%list_elem_of_lookup_2. unfold stored. f_equal. f_equal.
      change (slab_at (en_slab e) (set_flow i g t4)) with (slab_at (en_slab e) t4). rewrite Hat, decide_False; [done|].
      intros Es. apply queued_allocated, elem_allocated in He as [_ He]; [congruence|done].
    + destruct (decide (d = _)); [|done]. cbn [fmap list_fmap]. unfold stored. cbn [en_record en_slab].
      change (slab_at s (set_flow i g t4)) with (slab_at s t4). rewrite Hat, decide_True, Hp by done.
      cbn [cr_flow inbound_record]. by rewrite Eh.
Qed.

Lemma deliver_refines peer generation token remote payload now t : accounts t ->
  let out := fst (DeliverInboundUdpDatagram peer generation token remote payload now t) in
  let t' := snd (DeliverInboundUdpDatagram peer generation token remote payload now t) in
  match in_disposition out with
  | TunnelInbound_Delivered => appended t t' out token payload
  | _ => drops t t'
  end.
Proof.
  intros H. pose proof (deliver_accounts peer generation token remote payload now t H) as H'. cbv zeta.
  unfold DeliverInboundUdpDatagram in *. case_if; [by apply drops_refl|]. apply orb_false_iff in Heqb as [_ Hlen].
  destruct (flow_with_handle _ _) as [i|] eqn:Ei; [|by apply drops_refl]. cbv zeta in *.
  apply flow_with_handle_some in Ei as (Hi & Halloc & Etok). rewrite <- (ac_flows _ H) in Hi.
  pose proof (flow_at_lookup i t Hi) as Ef.
  destruct (fl_closed (flow_at i t)) eqn:Hclosed; [by apply drops_refl|].
  destruct (fl_pending (flow_at i t)) eqn:Hpend; [by apply drops_refl|]. cbn [orb] in *.
  case_if; [by apply drops_refl|]. pose proof (is_open_intro _ Halloc Hclosed Hpend) as Of.
  case_if; [cbn [fst snd in_disposition]; set_flow_drops|]. bool_prop.
  pose proof (allocate_slab_spec t (ac_slabs _ H)) as Hslab. destruct (AllocateInboundSlab t) as [s t1].
  destruct Hslab as [ [-> ->]|(Hs & Hu & ->)].
  { rewrite Nat.eqb_refl. cbn [fst snd in_disposition]. set_flow_drops. }
  rewrite (proj2 (Nat.eqb_neq _ _)) in * by (unfold InvalidSlabSlot, InboundPacketSlabCount in *; lia).
  set (t2 := _ <| m_inbound_slabs ::= alter _ s |>) in *.
  assert (t2 = with_slab s (delivered_slab (slab_at s t) payload) t) as E2.
  { unfold t2, with_slab. destruct t. cbn. unfold upd. cbn. f_equal. apply list_eq. intros k.
    assert (s < length m_inbound_slabs)%nat as Hlt by (pose proof (ac_slabs _ H) as E; cbn in E; by rewrite E).
    destruct (decide (k = s)) as [->|Hne].
    - by rewrite list_lookup_alter_eq, !list_lookup_insert_eq.
    - by rewrite list_lookup_alter_ne, !list_lookup_insert_ne. }
  rewrite E2 in *. clear t2 E2. set (f1 := (flow_at i t) <| fl_inbound_occupancy ::= _ |> <| fl_last_activity_at := now |>) in *.
  destruct (ac_owner _ H (flow_at i t)) as [Hh Hfind]; [by eapply list_elem_of_lookup_2|by apply open_live|].
  pose proof (enqueue_spec i s f1 (delivered_slab (slab_at s t) payload) t _ H Hfind Hi Hs) as Henq. cbv zeta in Henq.
  destruct (delivered_payload (slab_at s t) payload Hlen) as [Hpayload Hfull].
  destruct (EnqueueDataCompletion i s _) as [ [|] t4]; cbn [fst snd in_disposition in_flow in_client] in *.
  - destruct Henq as (Efl & Esl & Edata). rewrite <- Etok. by apply (deliver_appended i s t t4 f1).
  - destruct Henq as (Efl & Esl & Ecl). apply (deliver_dropped i s t t4 _ _ H Ef Of Efl Esl Ecl); [|done].
    unfold flow_at at 1. rewrite Efl, list_lookup_insert_eq by done. reflexivity.
Qed.

(** ** Receiving *)

Lemma received_app records news buffer : received (records ++ news) buffer = received records buffer ++ received news buffer.
Proof. unfold received. apply omap_app. Qed.

(** What a client gets: new records, whose datagrams were the first of its inbox. *)
Record taken (t t' : TunnelFlowPlane) (c offset : nat) (payload payload' : bytes) (news : list CompletionRecord) : Prop := {
  tk_length : length payload' = length payload;
  tk_before : take offset payload' = take offset payload;
  tk_inbox : inbox t c = received news payload' ++ inbox t' c;
  tk_others d : d <> c -> inbox t' d = inbox t d;
  tk_slabs : slabs_reset t t'
}.
Lemma taken_nothing t c offset payload : taken t t c offset payload payload [].
Proof. split; try done. by left. Qed.

Lemma front_type client e drained : ring_ok client -> RemoveCompletionFront client = Some (e, drained) ->
  is_datagram (en_record e) = is_data e.
Proof.
  intros Hok E. pose proof (front_entries client (rk_shape _ Hok)) as H. rewrite E in H. destruct H as [_ He].
  apply (rk_types _ Hok). rewrite He. by left.
Qed.
Lemma inbox_kept t t' d : accounts t' -> slabs_reset t t' -> inbox t' d = stored t <$> ring_data (client_at d t').
Proof.
  intros H Hs. unfold inbox. apply list_fmap_ext. intros _ e He%list_elem_of_lookup_2. unfold stored. f_equal. f_equal.
  by apply (kept_slab t t' d).
Qed.

Lemma taken_control t c e drained offset payload payload' news t' : accounts t -> (c < MaximumClientContexts)%nat ->
  RemoveCompletionFront (client_at c t) = Some (e, drained) -> is_data e = false ->
  taken (set_client c drained t) t' c offset payload payload' news ->
  taken t t' c offset payload payload' (en_record e :: news).
Proof.
  intros H Hc Efront Hdata [T1 T2 T3 T4 T5]. pose proof (client_ok c t H Hc) as Hok.
  destruct (front_ok _ _ _ Hok Efront) as (_ & _ & _ & _ & _ & Ed). rewrite Hdata in Ed. cbn [app] in Ed.
  assert (forall d, inbox (set_client c drained t) d = inbox t d) as Einbox.
  { intros d. unfold inbox. rewrite (client_at_insert c drained t (set_client c drained t) d eq_refl); [|by rewrite (ac_clients _ H)].
    destruct (decide (d = c)) as [->|]; [by rewrite Ed|done]. }
  split; [done|done| | |exact T5].
  - rewrite <- Einbox, T3. unfold received. cbn [omap list_omap].
    by rewrite (front_type _ _ _ Hok Efront), Hdata.
  - intros d Hd. by rewrite T4, Einbox.
Qed.

Lemma taken_data t t1 c e drained offset payload payload' news t' : accounts t -> (c < MaximumClientContexts)%nat ->
  RemoveCompletionFront (client_at c t) = Some (e, drained) -> is_data e = true ->
  accounts t1 -> slabs_reset t t1 ->
  (forall d, ring_data (client_at d t1) = if decide (d = c) then ring_data drained else ring_data (client_at d t)) ->
  slab_full (slab_at (en_slab e) t) -> Z.of_nat (length payload) < 2 ^ 32 ->
  let size := Z.to_nat (sl_size (slab_at (en_slab e) t)) in
  (offset + size <= length payload)%nat ->
  taken t1 t' c (offset + size) (write_at payload offset (payload_of (slab_at (en_slab e) t))) payload' news ->
  taken t t' c offset payload payload'
    ((en_record e) <| cr_payload_offset := u32 (Z.of_nat offset) |> <| cr_payload_size := Z.of_nat size |> :: news).
Proof.
  intros H Hc Efront Hdata H1 Hs1 Hd1 Hfull Hlt size Hroom [T1 T2 T3 T4 T5]. pose proof (client_ok c t H Hc) as Hok.
  destruct (front_ok _ _ _ Hok Efront) as (_ & _ & _ & _ & _ & Ed). rewrite Hdata in Ed. cbn [app] in Ed.
  set (data := payload_of (slab_at (en_slab e) t)) in *.
  assert (length data = size) as Hdl by (unfold data, payload_of; rewrite length_take; unfold slab_full in Hfull; lia).
  assert (length (write_at payload offset data) = length payload) as Hwl by (apply length_write_at; lia).
  assert (take (offset + size) (write_at payload offset data) = take offset payload ++ data) as Hwt.
  { unfold write_at. rewrite app_assoc, take_app_le by (rewrite length_app, length_take; lia).
    apply take_ge. rewrite length_app, length_take. lia. }
  rewrite Hwl in T1. rewrite Hwt in T2.
  assert (inbox t c = (cr_flow (en_record e), data) :: inbox t1 c) as Ehead.
  { rewrite (inbox_kept t t1) by done. rewrite Hd1, decide_True by done. unfold inbox. by rewrite Ed. }
  split; [done| | | |].
  - assert (take offset payload' = take offset (take (offset + size) payload')) as -> by (rewrite take_take; f_equal; lia).
    rewrite T2, take_app_le by (rewrite length_take; lia). rewrite take_take. f_equal. lia.
  - rewrite Ehead, T3. unfold received at 2. cbn [omap list_omap].
    change (is_datagram (_ <| cr_payload_size := _ |>)) with (is_datagram (en_record e)).
    rewrite (front_type _ _ _ Hok Efront), Hdata. cbn [app]. f_equal. f_equal.
    change (cr_payload_size _) with (Z.of_nat size) at 1.
    change (cr_payload_offset ((en_record e) <| cr_payload_offset := u32 (Z.of_nat offset) |> <| cr_payload_size := Z.of_nat size |>))
      with (u32 (Z.of_nat offset)).
    unfold u32. rewrite Z.mod_small, !Nat2Z.id by lia. rewrite take_drop_commute, T2.
    rewrite drop_app_le by (rewrite length_take; lia). rewrite drop_ge by (rewrite length_take; lia). done.
  - intros d Hd. rewrite T4 by done. rewrite (inbox_kept t t1) by done. by rewrite Hd1, decide_False.
  - eapply slabs_reset_trans; eassumption.
Qed.

Lemma receive_loop_refines room client c offset records payload t : 0 <= tc_slot client -> accounts t -> slabs_full t ->
  FindClient client t = Some c -> (offset <= length payload)%nat -> Z.of_nat (length payload) < 2 ^ 32 ->
  let '(status, records', payload', t') := receive_loop room client c offset records payload t in
  exists news, records' = records ++ news /\ taken t t' c offset payload payload' news.
Proof.
  intros H0. revert offset records payload t.
  induction room as [|room IH]; intros offset records payload t H Hfull Hc Hoff Hlt.
  { exists []. rewrite app_nil_r. split; [done|apply taken_nothing]. }
  assert (exists news, records = records ++ news /\ taken t t c offset payload payload news)
    as Hstop by (exists []; rewrite app_nil_r; split; [done|apply taken_nothing]).
  cbn [receive_loop]. cbv zeta. pose proof (find_client_range _ _ _ Hc) as [Hcm _].
  pose proof (client_ok c t H Hcm) as Hok.
  destruct (CompletionAt _ 0) as [entry|] eqn:Eat; [|exact Hstop].
  destruct (RemoveCompletionFront _) as [ [e drained]|] eqn:Efront; [|exact Hstop].
  destruct (front_ok _ _ _ Hok Efront) as (_ & Ea & Eg & _ & Eat' & Ed).
  rewrite Eat in Eat'. injection Eat' as ->.
  assert (forall s, client_ids s = client_ids (set_client c drained t) -> FindClient client s = Some c) as Hids.
  { intros s E. rewrite <- Hc. apply ids_find. rewrite E. by apply ids_set. }
  fold (is_data e). destruct (is_data e) eqn:Hdata; cbn [andb].
  - case_if; [exact Hstop|]. apply Nat.ltb_ge in Heqb.
    destruct (ac_data _ H c e) as (i & f & Ef & Of & Es & Ee); [rewrite Ed; by left|].
    set (t1 := ReleaseInboundSlab (en_slab e) (set_client c drained t)).
    change (cr_flow ((en_record e) <| cr_payload_offset := _ |> <| cr_payload_size := _ |>)) with (cr_flow (en_record e)).
    assert (FindFlow client (cr_flow (en_record e)) t1 = Some i) as ->.
    { rewrite <- (find_flow_handle client t c i f H0 H Hc Ef (open_live _ Of) Es), <- Ee. unfold FindFlow.
      by rewrite (Hids t1 eq_refl), Hc. }
    change (flow_at i t1) with (flow_at i t). rewrite (flow_at_some _ _ _ Ef).
    pose proof (take_accounts client c i f e drained t H0 H Hc Efront Hdata Ef Of Es Ee) as H2. fold t1 in H2.
    set (t2 := set_flow i _ t1) in *.
    assert (slabs_reset t t2) as Hreset by (intros s; apply (release_at s (en_slab e) t)).
    set (size := Z.to_nat (sl_size (slab_at (en_slab e) t))) in *.
    change (take size (sl_bytes (slab_at (en_slab e) (set_client c drained t)))) with (payload_of (slab_at (en_slab e) t)).
    set (payload1 := write_at payload offset _).
    assert (length (payload_of (slab_at (en_slab e) t)) = size) as Hsize.
    { unfold payload_of. rewrite length_take. pose proof (Hfull (en_slab e)) as Hf. unfold slab_full in Hf. lia. }
    assert (length payload1 = length payload) as Hlen1 by (apply length_write_at; rewrite Hsize; lia).
    specialize (IH (offset + size)%nat (records ++ [(en_record e) <| cr_payload_offset := u32 (Z.of_nat offset) |>
      <| cr_payload_size := Z.of_nat size |>]) payload1 t2 H2 (reset_full _ _ Hreset Hfull) (Hids t2 eq_refl)).
    rewrite Hlen1 in IH. specialize (IH ltac:(lia) Hlt).
    destruct (receive_loop room client c _ _ payload1 t2) as [ [ [status records'] payload'] t'].
    destruct IH as (news & -> & Htaken). eexists (_ :: news). rewrite <- app_assoc. split; [reflexivity|].
    apply (taken_data t t2 c e drained); try done; [|lia].
    intros d. rewrite (client_at_insert c drained t t2 d eq_refl) by (by rewrite (ac_clients _ H)).
    by destruct (decide (d = c)).
  - specialize (IH offset (records ++ [en_record e]) payload (set_client c drained t)
      (take_control_accounts c e drained t H Hcm Efront Hdata) Hfull (Hids _ eq_refl) Hoff Hlt).
    destruct (receive_loop room client c _ _ payload _) as [ [ [status records'] payload'] t'].
    destruct IH as (news & -> & Htaken). exists (en_record e :: news). rewrite <- app_assoc. split; [done|].
    by apply (taken_control t c e drained).
Qed.

(** ** The inboxes of a plane *)

Definition buffer_typed (op : FlowOp) : Prop :=
  match op with Op_Receive _ _ payload => Z.of_nat (length payload) < 2 ^ 32 | _ => True end.

Lemma receive_refines client room payload t : client_typed client -> Z.of_nat (length payload) < 2 ^ 32 ->
  accounts t -> slabs_full t ->
  let '(status, records, payload', t') := ReceiveCompletions client room payload t in
  slabs_full t' /\
  match FindClient client t with
  | None => records = [] /\ forall d, inbox t' d = inbox t d
  | Some c => inbox t c = received records payload' ++ inbox t' c /\ forall d, d <> c -> inbox t' d = inbox t d
  end.
Proof.
  intros Hty Hlt H Hfull. unfold ReceiveCompletions. destruct (FindClient client t) as [c|] eqn:Hc; [|done].
  case_if; [by rewrite app_nil_l|].
  pose proof (receive_loop_refines room client c 0 [] payload t (proj1 (proj1 Hty)) H Hfull Hc (Nat.le_0_l _) Hlt) as Hloop.
  destruct (receive_loop room client c 0 [] payload t) as [ [ [status records] payload'] t'].
  destruct Hloop as (news & -> & [T1 T2 T3 T4 T5]). split; [by apply (reset_full t)|done].
Qed.

(** A datagram, accepted or not, closes no flow. *)
Definition flow_key (f : FlowSlot) : bool * TunnelClientId * Z := (is_open f, client_of f, fl_allocation_generation f).
Lemma handle_open_keys t t' h : flow_key <$> m_flows t' = flow_key <$> m_flows t -> handle_open t' h = handle_open t h.
Proof.
  intros E. unfold handle_open. assert (forall i, flow_key (flow_at i t') = flow_key (flow_at i t)) as Hk.
  { intros i. unfold flow_at. apply (f_equal (.!! i)) in E. rewrite !list_lookup_fmap in E.
    destruct (m_flows t' !! i), (m_flows t !! i); cbn in *; congruence. }
  generalize (seq 0 MaximumFlows). intros l. induction l as [|i l IH]; [done|]. cbn [existsb]. rewrite IH. f_equal.
  pose proof (Hk i) as [= Eo E1 E2 E3]. unfold MakeFlowHandle. by rewrite Eo, E1, E2, E3.
Qed.
Lemma keys_set i f' t : flow_key f' = flow_key (flow_at i t) -> flow_key <$> m_flows (set_flow i f' t) = flow_key <$> m_flows t.
Proof.
  intros E. cbn. rewrite list_fmap_insert. apply list_insert_id'. rewrite length_fmap. intros Hlt.
  rewrite list_lookup_fmap, (flow_at_lookup i t Hlt). cbn. by rewrite E.
Qed.
Lemma keys_enqueue i s t : flow_key <$> m_flows (snd (EnqueueDataCompletion i s t)) = flow_key <$> m_flows t.
Proof.
  unfold EnqueueDataCompletion. cbv zeta. set (refused := (false, _)).
  assert (flow_key <$> m_flows (snd refused) = flow_key <$> m_flows t) as Hr by by apply (keys_set i _ (ReleaseInboundSlab s t)).
  destruct (FindClient _ t) as [c|]; [|exact Hr]. case_if; [exact Hr|]. cbn [snd].
  unfold NotifyIfNeeded. by destruct (cs_notifier (client_at c t)), (cs_completion_count (client_at c t) =? 0)%nat.
Qed.
Lemma keys_deliver peer generation token remote payload now t :
  flow_key <$> m_flows (snd (DeliverInboundUdpDatagram peer generation token remote payload now t)) = flow_key <$> m_flows t.
Proof.
  unfold DeliverInboundUdpDatagram. case_if; [done|]. destruct (flow_with_handle _ _) as [i|]; [|done]. cbv zeta.
  case_if; [done|]. case_if; [by apply keys_set|].
  assert (m_flows (snd (AllocateInboundSlab t)) = m_flows t) as E1 by by pose proof (frame_slab t) as [= -> _ _].
  destruct (AllocateInboundSlab t) as [s t1]. cbn [snd] in E1.
  case_if; cbn [snd]; [rewrite keys_set by done; by rewrite E1|].
  set (t3 := set_flow i _ _). assert (flow_key <$> m_flows t3 = flow_key <$> m_flows t) as E3.
  { unfold t3. rewrite keys_set; [cbn; by rewrite E1|].
    unfold flow_at. cbn. by rewrite E1. }
  pose proof (keys_enqueue i s t3) as E4. rewrite E3 in E4.
  destruct (EnqueueDataCompletion i s t3) as [ [|] t4]; cbn [snd] in *; by rewrite keys_set.
Qed.

Definition fully_typed (op : FlowOp) : Prop := op_typed op /\ buffer_typed op.
Lemma drops_full t t' : slabs_full t -> drops t t' -> slabs_full t'.
Proof. intros Hf Hd. by apply (reset_full t), Hf; apply Hd. Qed.
Lemma step_full now op t : fully_typed op -> accounts t -> slabs_full t -> slabs_full (flow_step now op t).
Proof.
  intros [Hty Hbuf] H Hfull. destruct op; cbn [flow_step op_typed buffer_typed] in *.
  - by apply (drops_full t), create_drops.
  - apply (drops_full t), destroy_drops; [done|apply Hty|done].
  - by apply (drops_full t), refresh_drops.
  - by apply (drops_full t), reserve_drops.
  - intros s. unfold slab_at. rewrite commit_slabs. apply Hfull.
  - by apply (drops_full t), cancel_drops.
  - by apply (drops_full t), prepare_drops.
  - by apply (drops_full t), complete_send_drops.
  - by apply (drops_full t), notify_capacity_drops.
  - exact Hfull.
  - pose proof (receive_refines client room payload t Hty Hbuf H Hfull) as Hr.
    destruct (ReceiveCompletions client room payload t) as [ [ [status records] payload'] t']. by destruct Hr.
  - by apply (drops_full t), close_drops.
  - pose proof (deliver_refines peer policy_generation adapter_token remote payload now t H) as Hd. cbv zeta in Hd.
    destruct (in_disposition _); [by apply (drops_full t)|by apply Hd|by apply (drops_full t)..].
  - by apply (drops_full t), invalidate_drops.
Qed.
Lemma run_full ops t : Forall (fun op => fully_typed (snd op)) ops -> accounts t -> slabs_full t ->
  accounts (flow_run ops t) /\ slabs_full (flow_run ops t).
Proof.
  intros Hty. revert t. induction Hty as [|[now op] ops Hop Hty IH]; intros t H Hf; [done|].
  cbn. apply IH; [by apply step_accounts, H; apply Hop|by apply step_full].
Qed.
Lemma init_full : slabs_full flow_plane_init.
Proof.
  intros s. unfold slab_at. destruct (m_inbound_slabs flow_plane_init !! s) as [slab|] eqn:E;
    [apply list_elem_of_lookup_2, elem_of_replicate_inv in E; subst slab|]; apply Nat.le_0_l.
Qed.
Lemma inbox_all_open t c : accounts t -> List.filter (fun d => handle_open t (fst d)) (inbox t c) = inbox t c.
Proof.
  intros H. apply filter_all. intros d (e & -> & He)%list_elem_of_fmap. by apply (queued_open t c).
Qed.

(** ** The refinement *)

(** What an operation does to the inboxes [before] of the clients. *)
Definition inbox_refines (now : Z) (op : FlowOp) (t t' : TunnelFlowPlane) : Prop :=
  match op with
  | Op_Deliver peer policy_generation token remote payload =>
      let out := fst (DeliverInboundUdpDatagram peer policy_generation token remote payload now t) in
      forall c, inbox t' c = inbox t c ++
        match in_disposition out with
        | TunnelInbound_Delivered => if decide (c = Z.to_nat (tc_slot (in_client out))) then [(token, payload)] else []
        | _ => []
        end
  | Op_Receive client room buffer =>
      let '(_, records, buffer', _) := ReceiveCompletions client room buffer t in
      forall c, inbox t c = (if decide (FindClient client t = Some c) then received records buffer' else []) ++ inbox t' c
  | _ => forall c, inbox t' c = List.filter (fun datagram => handle_open t' (fst datagram)) (inbox t c)
  end.

Lemma deliver_inbox_refines now peer generation token remote payload t : accounts t ->
  inbox_refines now (Op_Deliver peer generation token remote payload) t
    (snd (DeliverInboundUdpDatagram peer generation token remote payload now t)).
Proof.
  intros H. cbn [inbox_refines]. cbv zeta. intros c.
  pose proof (deliver_refines peer generation token remote payload now t H) as Hd. cbv zeta in Hd.
  assert (drops t (snd (DeliverInboundUdpDatagram peer generation token remote payload now t)) ->
    inbox (snd (DeliverInboundUdpDatagram peer generation token remote payload now t)) c = inbox t c ++ []) as Hsame.
  { intros D. rewrite app_nil_r, (drops_inbox _ _ c D). rewrite <- (inbox_all_open t c H) at 2.
    apply List.filter_ext. intros d. apply handle_open_keys, keys_deliver. }
  destruct (in_disposition _); [by apply Hsame|apply Hd|by apply Hsame..].
Qed.
Lemma receive_inbox_refines now client room buffer t : client_typed client -> Z.of_nat (length buffer) < 2 ^ 32 ->
  accounts t -> slabs_full t ->
  inbox_refines now (Op_Receive client room buffer) t (snd (ReceiveCompletions client room buffer t)).
Proof.
  intros Hty Hlt H Hfull. pose proof (receive_refines client room buffer t Hty Hlt H Hfull) as Hr.
  cbn [inbox_refines]. destruct (ReceiveCompletions client room buffer t) as [ [ [status records] buffer'] t']. cbn [snd].
  destruct Hr as [_ Hr]. intros c. destruct (FindClient client t) as [c0|].
  - destruct Hr as [Hc Ho]. destruct (decide _) as [E|E].
    + injection E as <-. exact Hc.
    + rewrite app_nil_l. symmetry. apply Ho. congruence.
  - destruct Hr as [_ Ho]. destruct (decide _) as [E|E]; [done|]. by rewrite app_nil_l.
Qed.

(** C10. The plane refines one inbox per client, whatever operations came before: a
    datagram that is reported as delivered is appended to the inbox of its client;
    the datagram records a client receives describe, in order and byte for byte in
    the buffer it passed, the first datagrams of its inbox, which are taken out of
    it; and every other operation only removes the datagrams of flows that are not
    open any more.  So a datagram of a flow that stays open is received exactly
    once, unchanged, after those delivered before it. *)
Theorem flow_plane_refines_inboxes before now op :
  Forall (fun op => fully_typed (snd op)) before -> fully_typed op ->
  let t := flow_run before flow_plane_init in
  inbox_refines now op t (flow_step now op t).
Proof.
  intros Hbefore Hop t. destruct (run_full before flow_plane_init Hbefore init_accounts init_full) as [H Hfull].
  fold t in H, Hfull. destruct Hop as [Hty Hbuf].
  destruct op; cbn [flow_step op_typed buffer_typed] in *;
    try (apply receive_inbox_refines || apply deliver_inbox_refines; done); intros c.
  - by apply drops_inbox, create_drops.
  - apply drops_inbox, destroy_drops; [apply Hty|done].
  - by apply drops_inbox, refresh_drops.
  - by apply drops_inbox, reserve_drops.
  - rewrite <- (commit_inbox reservation t c). symmetry. by apply inbox_all_open, commit_accounts.
  - by apply drops_inbox, cancel_drops.
  - by apply drops_inbox, prepare_drops.
  - by apply drops_inbox, complete_send_drops.
  - by apply drops_inbox, notify_capacity_drops.
  - apply drops_inbox. by apply fields_drops.
  - by apply drops_inbox, close_drops.
  - by apply drops_inbox, invalidate_drops.
Qed.

(** Two datagrams wait and the client takes both. *)
Definition example_waiting : TunnelFlowPlane := flow_run (take 6 example_traffic) flow_plane_init.
Definition example_receive : FlowOp := Op_Receive example_client 4 (zeros 8).

Lemma flow_plane_refines_inboxes_witness :
  inbox_refines 7 example_receive example_waiting (flow_step 7 example_receive example_waiting) /\
  inbox example_waiting 0%nat =
    [(rv_adapter_token example_reservation, [1; 2; 3]); (rv_adapter_token example_reservation, [4; 5])] /\
  inbox (flow_step 7 example_receive example_waiting) 0%nat = [].
Proof.
  split; [|split; vm_compute; reflexivity].
  apply (flow_plane_refines_inboxes (take 6 example_traffic) 7 example_receive); repeat constructor; done.
Defined.
