(* ===== verification/ConfigText.v ===== *)
(** * The text of a connection configuration

    Models [config_text_validation.cpp] and the part of [config_loader.cpp] that
    reads a configuration text: the layout of its sections, the fields, and the
    handler that is called for each entry.  The INI parser itself is a library: the
    class [IniParser] gives the entries of a text in order and whether a line is
    malformed.  Error messages, which are only logged, are left out, except for the
    result of the layout check. *)

From S2P Require Import Prelude Endian Messages PacketQueue Platform Session Base64 InnerPacket Timers.
From S2P Require Import Crypto Device Data Identity Admission Handshake Peer PeerController RuntimeEvents FlowPolicy.
From Stdlib Require Import Btauto.
Local Open Scope Z_scope.

(** ** The layout *)

Inductive ConfigLayoutError :=
  | ConfigLayout_None
  | ConfigLayout_MissingSectionTerminator
  | ConfigLayout_MultipleInterfaceSections
  | ConfigLayout_MultiplePeerSections
  | ConfigLayout_MissingInterfaceSection
  | ConfigLayout_MissingPeerSection.
#[export] Instance layout_error_eq_dec : EqDecision ConfigLayoutError.
Proof. solve_decision. Defined.
Record ConfigLayoutValidation := mk_layout { ly_error : ConfigLayoutError; ly_line : nat }.
Definition layout_IsValid (validation : ConfigLayoutValidation) : bool :=
  bool_decide (ly_error validation = ConfigLayout_None).

Definition newline : Z := 10.
Definition is_trimmed (c : Z) : bool := (c =? char " ") || (c =? 9) || (c =? 13).
Definition TrimConfigWhitespace (value : bytes) : bytes := drop_while_end is_trimmed (drop_while is_trimmed value).

(** [text.find(c)], as the text before the character and the text after it. *)
Fixpoint split_at (c : Z) (text : bytes) : option (bytes * bytes) :=
  match text with
  | [] => None
  | d :: rest => if d =? c then Some ([], rest) else prod_map (cons d) id <$> split_at c rest
  end.

(** What a line says: nothing, an unterminated header, or the name of a section. *)
Inductive LineKind := Line_Other | Line_Unterminated | Line_Section (name : bytes).
Definition line_kind (line : bytes) : LineKind :=
  match TrimConfigWhitespace line with
  | c :: rest =>
      if c =? char "[" then
        match split_at (char "]") rest with
        | None => Line_Unterminated
        | Some (name, _) => Line_Section (TrimConfigWhitespace name)
        end
      else Line_Other
  | [] => Line_Other
  end.

(** The loop over the lines, with the counts of the sections seen before; [fuel] is
    at least the number of lines. *)
Fixpoint layout_loop (fuel : nat) (interface_sections peer_sections line_number : nat) (remaining : bytes)
    : ConfigLayoutValidation :=
  match fuel with
  | O => mk_layout ConfigLayout_None 0
  | S fuel =>
      let '(line, next) := match split_at newline remaining with
                           | Some (line, rest) => (line, Some rest)
                           | None => (remaining, None)
                           end in
      let line_number := S line_number in
      let continue_with interface_sections peer_sections :=
        match next with
        | Some remaining => layout_loop fuel interface_sections peer_sections line_number remaining
        | None =>
            if (interface_sections =? 0)%nat then mk_layout ConfigLayout_MissingInterfaceSection 0
            else if (peer_sections =? 0)%nat then mk_layout ConfigLayout_MissingPeerSection 0
            else mk_layout ConfigLayout_None 0
        end in
      match line_kind line with
      | Line_Other => continue_with interface_sections peer_sections
      | Line_Unterminated => mk_layout ConfigLayout_MissingSectionTerminator line_number
      | Line_Section name =>
          if bool_decide (name = chars "Interface") then
            if (1 <? S interface_sections)%nat then mk_layout ConfigLayout_MultipleInterfaceSections line_number
            else continue_with (S interface_sections) peer_sections
          else if bool_decide (name = chars "Peer") then
            if (1 <? S peer_sections)%nat then mk_layout ConfigLayout_MultiplePeerSections line_number
            else continue_with interface_sections (S peer_sections)
          else continue_with interface_sections peer_sections
      end
  end.
Definition ValidateConnectionConfigLayout (text : bytes) : ConfigLayoutValidation :=
  layout_loop (S (length text)) 0 0 0 text.

(** ** The fields *)

(** [CopyField(dst, value)] *)
Definition CopyField (dst value : bytes) : option bytes :=
  if (length dst <=? length value)%nat then None else Some (write_at dst 0 (value ++ [0])).

(** [std::strtoul(value, &end, 10)]: the number, the text from [end] on, whether a
    number was found and whether it is out of range. *)
Definition is_space (c : Z) : bool := (c =? char " ") || ((9 <=? c) && (c <=? 13)).
Fixpoint digits_loop (value : Z) (text : bytes) : Z * bytes :=
  match text with
  | c :: rest => if is_digit c then digits_loop (value * 10 + (c - char "0")) rest else (value, text)
  | [] => (value, [])
  end.
Definition strtoul (text : bytes) : Z * bytes * bool * bool :=
  let after := drop_while is_space text in
  let negative := char_at after =? char "-" in
  let after := if negative || (char_at after =? char "+") then tail after else after in
  if negb (is_digit (char_at after)) then (0, text, false, false)
  else
    let '(value, rest) := digits_loop 0 after in
    if 2 ^ 64 <=? value then (2 ^ 64 - 1, rest, true, true)
    else (if negative then u64 (- value) else value, rest, true, false).

Definition ParseUnsignedField (value : bytes) : option Z :=
  if bool_decide (value = []) then None
  else
    let '(parsed, rest, found, range_error) := strtoul value in
    if range_error || negb found || negb (bool_decide (rest = [])) || (65535 <? parsed) then None
    else Some (u16 parsed).

Definition ParseBooleanField (value : bytes) : option bool :=
  if bool_decide (value = chars "true") then Some true
  else if bool_decide (value = chars "false") then Some false
  else None.

(** ** The handler *)

Definition PeerConfigField_PrivateKey : Z := Z.shiftl 1 0.
Definition PeerConfigField_ListenPort : Z := Z.shiftl 1 1.
Definition PeerConfigField_Dns : Z := Z.shiftl 1 2.
Definition PeerConfigField_Mtu : Z := Z.shiftl 1 3.
Definition PeerConfigField_PublicKey : Z := Z.shiftl 1 4.
Definition PeerConfigField_PresharedKey : Z := Z.shiftl 1 5.
Definition PeerConfigField_AllowedIps : Z := Z.shiftl 1 6.
Definition PeerConfigField_PersistentKeepalive : Z := Z.shiftl 1 7.
Definition PeerConfigField_LeakProtection : Z := Z.shiftl 1 8.

#[export] Instance eta_config_entry : Eta PeerConfigEntry := fun r =>
  mk_config_entry (cf_name r) (cf_address r) (cf_endpoint r) (cf_private_key r) (cf_dns r) (cf_public_key r)
    (cf_preshared_key r) (cf_allowed_ips r) (cf_listen_port r) (cf_persistent_keepalive r) (cf_mtu r)
    (cf_field_flags r) (cf_leak_protection r).
Definition config_entry_init : PeerConfigEntry :=
  mk_config_entry (zeros 32) (zeros 48) (zeros 256) (zeros 64) (zeros 128) (zeros 64) (zeros 64) (zeros 256)
    0 0 0 0 false.
Definition set_flag (flag : Z) (entry : PeerConfigEntry) : PeerConfigEntry :=
  entry <| cf_field_flags ::= fun flags => Z.lor flags flag |>.

(** An entry of the text, its strings without their terminators. *)
Record IniEntry := mk_ini { in_section : bytes; in_name : bytes; in_value : bytes }.

Record ConnectionParseContext := mk_context {
  cx_out : PeerConfigEntry;
  saw_private_key : bool;
  saw_address : bool;
  saw_listen_port : bool;
  saw_dns : bool;
  saw_mtu : bool;
  saw_public_key : bool;
  saw_preshared_key : bool;
  saw_allowed_ips : bool;
  saw_endpoint : bool;
  saw_persistent_keepalive : bool;
  saw_leak_protection : bool
}.
#[export] Instance eta_context : Eta ConnectionParseContext := fun r =>
  mk_context (cx_out r) (saw_private_key r) (saw_address r) (saw_listen_port r) (saw_dns r) (saw_mtu r)
    (saw_public_key r) (saw_preshared_key r) (saw_allowed_ips r) (saw_endpoint r) (saw_persistent_keepalive r)
    (saw_leak_protection r).
Definition context_init : ConnectionParseContext :=
  mk_context config_entry_init false false false false false false false false false false false.

(** [None] is the result 0. *)
Definition HandleConnectionConfig (ctx : ConnectionParseContext) (entry : IniEntry) : option ConnectionParseContext :=
  let name := in_name entry in
  let value := in_value entry in
  let out := cx_out ctx in
  if bool_decide (in_section entry = chars "Interface") then
    if bool_decide (name = chars "PrivateKey") then
      if saw_private_key ctx then None
      else
        field ← CopyField (cf_private_key out) value;
        Some (ctx <| cx_out := set_flag PeerConfigField_PrivateKey (out <| cf_private_key := field |>) |>
                  <| saw_private_key := true |>)
    else if bool_decide (name = chars "Address") then
      if saw_address ctx then None
      else
        field ← CopyField (cf_address out) value;
        Some (ctx <| cx_out := out <| cf_address := field |> |> <| saw_address := true |>)
    else if bool_decide (name = chars "ListenPort") then
      if saw_listen_port ctx then None
      else
        port ← ParseUnsignedField value;
        Some (ctx <| cx_out := set_flag PeerConfigField_ListenPort (out <| cf_listen_port := port |>) |>
                  <| saw_listen_port := true |>)
    else if bool_decide (name = chars "DNS") then
      if saw_dns ctx then None
      else
        field ← CopyField (cf_dns out) value;
        Some (ctx <| cx_out := set_flag PeerConfigField_Dns (out <| cf_dns := field |>) |> <| saw_dns := true |>)
    else if bool_decide (name = chars "MTU") then
      if saw_mtu ctx then None
      else
        mtu ← ParseUnsignedField value;
        if negb (IsValidEffectiveInnerMtu mtu) then None
        else Some (ctx <| cx_out := set_flag PeerConfigField_Mtu (out <| cf_mtu := mtu |>) |> <| saw_mtu := true |>)
    else if bool_decide (name = chars "LeakProtection") then
      if saw_leak_protection ctx then None
      else
        flag ← ParseBooleanField value;
        Some (ctx <| cx_out := set_flag PeerConfigField_LeakProtection (out <| cf_leak_protection := flag |>) |>
                  <| saw_leak_protection := true |>)
    else Some ctx
  else if bool_decide (in_section entry = chars "Peer") then
    if bool_decide (name = chars "PublicKey") then
      if saw_public_key ctx then None
      else
        field ← CopyField (cf_public_key out) value;
        Some (ctx <| cx_out := set_flag PeerConfigField_PublicKey (out <| cf_public_key := field |>) |>
                  <| saw_public_key := true |>)
    else if bool_decide (name = chars "PresharedKey") then
      if saw_preshared_key ctx then None
      else
        field ← CopyField (cf_preshared_key out) value;
        Some (ctx <| cx_out := set_flag PeerConfigField_PresharedKey (out <| cf_preshared_key := field |>) |>
                  <| saw_preshared_key := true |>)
    else if bool_decide (name = chars "AllowedIPs") then
      if saw_allowed_ips ctx then None
      else
        field ← CopyField (cf_allowed_ips out) value;
        Some (ctx <| cx_out := set_flag PeerConfigField_AllowedIps (out <| cf_allowed_ips := field |>) |>
                  <| saw_allowed_ips := true |>)
    else if bool_decide (name = chars "Endpoint") then
      if saw_endpoint ctx then None
      else
        field ← CopyField (cf_endpoint out) value;
        Some (ctx <| cx_out := out <| cf_endpoint := field |> |> <| saw_endpoint := true |>)
    else if bool_decide (name = chars "PersistentKeepalive") then
      if saw_persistent_keepalive ctx then None
      else
        interval ← ParseUnsignedField value;
        Some (ctx <| cx_out := set_flag PeerConfigField_PersistentKeepalive (out <| cf_persistent_keepalive := interval |>) |>
                  <| saw_persistent_keepalive := true |>)
    else Some ctx
  else Some ctx.

(** [ams::util::ini::ParseString] calls the handler for the entries in order; its
    result is zero if no line is malformed and no call returned zero.  After a call
    that returned zero the context is not used any more. *)
Class IniParser := {
  ini_entries : bytes -> list IniEntry;
  ini_malformed : bytes -> bool
}.
Fixpoint handle_entries (ctx : ConnectionParseContext) (entries : list IniEntry) : option ConnectionParseContext :=
  match entries with
  | [] => Some ctx
  | entry :: entries => ctx ← HandleConnectionConfig ctx entry; handle_entries ctx entries
  end.
Definition ParseString {Ini : IniParser} (text : bytes) (ctx : ConnectionParseContext) : option ConnectionParseContext :=
  if ini_malformed text then None else handle_entries ctx (ini_entries text).

(** ** The layout check, by lines *)

Fixpoint lines_of (text : bytes) : list bytes :=
  match text with
  | [] => [[]]
  | c :: rest =>
      if c =? newline then [] :: lines_of rest
      else match lines_of rest with line :: lines => (c :: line) :: lines | [] => [[c]] end
  end.
Definition is_section (name : string) (kind : LineKind) : bool :=
  match kind with Line_Section section => bool_decide (section = chars name) | _ => false end.
Definition sections (name : string) (lines : list bytes) : nat :=
  length (List.filter (fun line => is_section name (line_kind line)) lines).
Definition unterminated (line : bytes) : bool :=
  match line_kind line with Line_Unterminated => true | _ => false end.

Lemma lines_split text : lines_of text =
  match split_at newline text with
  | Some (line, rest) => line :: lines_of rest
  | None => [text]
  end.
Proof.
  induction text as [|c text IH]; [done|]. cbn [lines_of split_at]. destruct (c =? newline); [done|].
  rewrite IH. by destruct (split_at newline text) as [ [line rest]|].
Qed.
Lemma split_shorter c text line rest : split_at c text = Some (line, rest) -> (length rest < length text)%nat.
Proof.
  revert line. induction text as [|d text IH]; intros line; [done|]. cbn [split_at]. destruct (d =? c).
  - intros [= _ ->]. cbn. lia.
  - destruct (split_at c text) as [ [l r]|] eqn:E; [|done]. intros [= _ ->]. cbn. specialize (IH l eq_refl). lia.
Qed.
Lemma sections_cons name line lines :
  sections name (line :: lines) = ((if is_section name (line_kind line) then 1 else 0) + sections name lines)%nat.
Proof. unfold sections. cbn [List.filter]. by destruct (is_section name (line_kind line)). Qed.
Lemma interface_not_peer : chars "Interface" <> chars "Peer".
Proof. by vm_compute. Qed.

(** One line, with its rest [next] and what follows it. *)
Definition layout_next (fuel line_number : nat) (next : option bytes) (i p : nat) : ConfigLayoutValidation :=
  match next with
  | Some remaining => layout_loop fuel i p (S line_number) remaining
  | None => if (i =? 0)%nat then mk_layout ConfigLayout_MissingInterfaceSection 0
            else if (p =? 0)%nat then mk_layout ConfigLayout_MissingPeerSection 0
            else mk_layout ConfigLayout_None 0
  end.
Definition next_line (text : bytes) : bytes * option bytes :=
  match split_at newline text with Some (line, rest) => (line, Some rest) | None => (text, None) end.
Lemma layout_loop_step fuel i p n text :
  layout_loop (S fuel) i p n text =
    let continue_with := layout_next fuel n (snd (next_line text)) in
    match line_kind (fst (next_line text)) with
    | Line_Other => continue_with i p
    | Line_Unterminated => mk_layout ConfigLayout_MissingSectionTerminator (S n)
    | Line_Section name =>
        if bool_decide (name = chars "Interface") then
          if (1 <? S i)%nat then mk_layout ConfigLayout_MultipleInterfaceSections (S n) else continue_with (S i) p
        else if bool_decide (name = chars "Peer") then
          if (1 <? S p)%nat then mk_layout ConfigLayout_MultiplePeerSections (S n) else continue_with i (S p)
        else continue_with i p
    end.
Proof. cbn [layout_loop]. unfold next_line. by destruct (split_at newline text) as [ [line rest]|]. Qed.

(** The loop accepts the rest of the text if no header in it is unterminated and
    the sections add up to one each. *)
Lemma layout_loop_exact fuel interface_sections peer_sections line_number text :
  (length text < fuel)%nat -> (interface_sections <= 1)%nat -> (peer_sections <= 1)%nat ->
  layout_IsValid (layout_loop fuel interface_sections peer_sections line_number text) = true <->
  Forall (fun line => unterminated line = false) (lines_of text) /\
  (interface_sections + sections "Interface" (lines_of text) = 1)%nat /\
  (peer_sections + sections "Peer" (lines_of text) = 1)%nat.
Proof.
  revert interface_sections peer_sections line_number text.
  induction fuel as [|fuel IH]; intros i p n text Hfuel Hi Hp; [lia|]. rewrite layout_loop_step. cbv zeta.
  set (next := next_line text). set (continue_with := layout_next fuel n (snd next)).
  assert (exists rest, lines_of text = fst next :: rest /\ forall i p, (i <= 1)%nat -> (p <= 1)%nat ->
    layout_IsValid (continue_with i p) = true <->
    Forall (fun line => unterminated line = false) rest /\ (i + sections "Interface" rest = 1)%nat /\
    (p + sections "Peer" rest = 1)%nat) as (rest & Elines & Hcont).
  { rewrite lines_split. unfold continue_with, next, next_line, layout_next. destruct (split_at newline text) as [ [line rest]|] eqn:Es; cbn [fst snd].
    - exists (lines_of rest). split; [done|]. intros i' p' Hi' Hp'. apply split_shorter in Es. apply IH; lia.
    - exists []. split; [done|]. intros i' p' Hi' Hp'. unfold layout_IsValid, sections. cbn [List.filter length].
      destruct i' as [|[|] ], p' as [|[|] ]; try lia; cbn [Nat.eqb]; rewrite bool_decide_eq_true; cbn [ly_error];
        intuition (try done; try lia). }
  clearbody continue_with. destruct next as [line remaining]. cbn [fst snd] in *. rewrite Elines, Forall_cons, !sections_cons.
  unfold unterminated at 1, is_section. destruct (line_kind line) as [| |name].
  - rewrite (Hcont i p) by done. intuition lia.
  - split; [done|]. by intros [ [? _] _].
  - destruct (bool_decide (name = chars "Interface")) eqn:Ei.
    + assert (bool_decide (name = chars "Peer") = false) as ->.
      { apply bool_decide_eq_false. apply bool_decide_eq_true in Ei as ->. apply interface_not_peer. }
      destruct (1 <? S i)%nat eqn:Eb; bool_prop.
      * split; [done|]. intros (_ & ? & _). lia.
      * rewrite (Hcont (S i) p) by lia. intuition lia.
    + destruct (bool_decide (name = chars "Peer")) eqn:Ep.
      * destruct (1 <? S p)%nat eqn:Eb; bool_prop.
        -- split; [done|]. intros (_ & _ & ?). lia.
        -- rewrite (Hcont i (S p)) by lia. intuition lia.
      * rewrite (Hcont i p) by done. intuition lia.
Qed.

(** A configuration text is accepted exactly if every section header in its lines
    has its bracket and there is one [Interface] and one [Peer] section. *)
Lemma layout_accepted text :
  layout_IsValid (ValidateConnectionConfigLayout text) = true <->
  Forall (fun line => unterminated line = false) (lines_of text) /\
  sections "Interface" (lines_of text) = 1%nat /\ sections "Peer" (lines_of text) = 1%nat.
Proof. unfold ValidateConnectionConfigLayout. rewrite layout_loop_exact by lia. done. Qed.

(** ** Numbers *)

(** The number that decimal digits write. *)
Definition decimal (digits : bytes) : Z := foldl (fun value c => value * 10 + (c - char "0")) 0 digits.

Lemma digits_loop_spec value digits rest : Forall (fun c => is_digit c = true) digits -> is_digit (char_at rest) = false ->
  digits_loop value (digits ++ rest) = (foldl (fun value c => value * 10 + (c - char "0")) value digits, rest).
Proof.
  intros Hd Hr. revert value. induction Hd as [|c digits Hc Hd IH]; intros value; cbn [app digits_loop foldl].
  - destruct rest as [|c rest]; [done|]. cbn [digits_loop]. unfold char_at in Hr. cbn in Hr. by rewrite Hr.
  - rewrite Hc. apply IH.
Qed.
Lemma digits_split text : exists digits rest, text = digits ++ rest /\ Forall (fun c => is_digit c = true) digits /\
  is_digit (char_at rest) = false.
Proof.
  induction text as [|c text (digits & rest & -> & Hd & Hr)]; [by exists [], []|].
  destruct (is_digit c) eqn:E.
  - exists (c :: digits), rest. split; [done|]. split; [by constructor|done].
  - exists [], (c :: digits ++ rest). split; [done|]. split; [constructor|]. exact E.
Qed.
Lemma spaces_split text : exists spaces rest, text = spaces ++ rest /\ Forall (fun c => is_space c = true) spaces /\
  is_space (char_at rest) = false /\ drop_while is_space text = rest.
Proof.
  destruct (drop_while_split is_space text) as (front & E & Hf & Hn). exists front, (drop_while is_space text).
  split; [done|]. split; [done|]. split; [|done]. by destruct (drop_while is_space text).
Qed.
Lemma digit_plain c : is_digit c = true -> is_space c = false /\ (c =? char "-") = false /\ (c =? char "+") = false.
Proof.
  unfold is_digit, is_space. change (char "0") with 48. change (char "9") with 57. change (char " ") with 32.
  change (char "-") with 45. change (char "+") with 43. intros H. bool_prop. rewrite orb_false_iff, andb_false_iff.
  repeat split; try (apply Z.eqb_neq; lia). right. apply Z.leb_gt. lia.
Qed.

(** The sign that [strtoul] accepts. *)
Inductive Sign := Sign_None | Sign_Plus | Sign_Minus.
Definition sign_text (sign : Sign) : bytes :=
  match sign with Sign_None => [] | Sign_Plus => chars "+" | Sign_Minus => chars "-" end.
Definition signed (sign : Sign) (value : Z) : Z := match sign with Sign_Minus => u64 (- value) | _ => value end.

Lemma strtoul_spec spaces sign digits :
  Forall (fun c => is_space c = true) spaces -> Forall (fun c => is_digit c = true) digits -> digits <> [] ->
  strtoul (spaces ++ sign_text sign ++ digits) =
    if 2 ^ 64 <=? decimal digits then (2 ^ 64 - 1, [], true, true) else (signed sign (decimal digits), [], true, false).
Proof.
  intros Hs Hd Hne. unfold strtoul. destruct digits as [|d digits]; [done|].
  assert (is_digit d = true) as Hd1 by by inversion Hd. destruct (digit_plain d Hd1) as (P1 & P2 & P3).
  rewrite drop_while_app; [|done|by destruct sign; [exact P1|..] ].
  pose proof (digits_loop_spec 0 (d :: digits) [] Hd eq_refl) as E. rewrite app_nil_r in E. fold (decimal (d :: digits)) in E.
  destruct sign; cbn [sign_text app].
  - change (char_at (d :: digits)) with d. rewrite P2, P3. cbn [orb]. change (char_at (d :: digits)) with d. rewrite Hd1. cbn [negb]. by rewrite E.
  - change (chars "+" ++ d :: digits) with (char "+" :: d :: digits).
    change (char_at (char "+" :: d :: digits)) with (char "+").
    change (char "+" =? char "-") with false. change (char "+" =? char "+") with true. cbn [orb tail].
    change (char_at (d :: digits)) with d. rewrite Hd1. cbn [negb]. by rewrite E.
  - change (chars "-" ++ d :: digits) with (char "-" :: d :: digits).
    change (char_at (char "-" :: d :: digits)) with (char "-").
    change (char "-" =? char "-") with true. cbn [orb tail].
    change (char_at (d :: digits)) with d. rewrite Hd1. cbn [negb]. by rewrite E.
Qed.
(** When [strtoul] reads all of a text, the text is of this form. *)
Lemma strtoul_whole text value range_error : strtoul text = (value, [], true, range_error) ->
  exists spaces sign digits, text = spaces ++ sign_text sign ++ digits /\
    Forall (fun c => is_space c = true) spaces /\ Forall (fun c => is_digit c = true) digits /\ digits <> [].
Proof.
  unfold strtoul. destruct (spaces_split text) as (spaces & rest & -> & Hs & Hr & ->).
  set (negative := char_at rest =? char "-"). set (plus := char_at rest =? char "+").
  set (after := if negative || plus then tail rest else rest).
  assert (exists sign, rest = sign_text sign ++ after) as [sign Esign].
  { unfold after, negative, plus. destruct rest as [|c rest]; [by exists Sign_None|].
    change (char_at (c :: rest)) with c. destruct (c =? char "-") eqn:E1; [apply Z.eqb_eq in E1 as ->; by exists Sign_Minus|].
    destruct (c =? char "+") eqn:E2; [apply Z.eqb_eq in E2 as ->; by exists Sign_Plus|]. by exists Sign_None. }
  destruct (is_digit (char_at after)) eqn:Hdig; cbn [negb]; [|done].
  destruct (digits_split after) as (digits & end_ & E & Hd & Hend). rewrite E in *.
  rewrite digits_loop_spec by done. intros Hres.
  assert (end_ = []) as -> by (destruct (2 ^ 64 <=? _); congruence). rewrite app_nil_r in *.
  exists spaces, sign, digits. rewrite Esign. split_and!; try done. by intros ->.
Qed.
Lemma decimal_nonneg digits : Forall (fun c => is_digit c = true) digits -> 0 <= decimal digits.
Proof.
  intros Hd. unfold decimal. assert (forall value, 0 <= value ->
    0 <= foldl (fun value c => value * 10 + (c - char "0")) value digits) as H; [|by apply H].
  induction Hd as [|c digits Hc Hd IH]; intros value Hv; [done|]. cbn [foldl]. apply IH.
  unfold is_digit in Hc. bool_prop. change (char "0") with 48 in *. lia.
Qed.
Lemma signed_nonneg sign value : 0 <= value -> 0 <= signed sign value.
Proof. intros H. destruct sign; cbn [signed]; [done..|]. unfold u64. apply Z.mod_pos_bound. lia. Qed.

(** The numbers of a configuration: a text is read as [n] exactly if it is, after
    leading white space, an optional sign and decimal digits of a value below 2^64,
    and [n], that value or, after a minus sign, its negation modulo 2^64, is at most
    65535; nothing may follow the digits. *)
Theorem parse_unsigned_exact value n :
  ParseUnsignedField value = Some n <->
  exists spaces sign digits, value = spaces ++ sign_text sign ++ digits /\
    Forall (fun c => is_space c = true) spaces /\ Forall (fun c => is_digit c = true) digits /\ digits <> [] /\
    decimal digits < 2 ^ 64 /\ n = signed sign (decimal digits) /\ n <= 65535.
Proof.
  unfold ParseUnsignedField. split.
  - destruct (bool_decide _) eqn:Hne; [done|].
    destruct (strtoul value) as [ [ [parsed rest] found] range_error] eqn:E. destruct (_ || _) eqn:Hbad; [done|].
    intros [= <-]. bool_prop. subst range_error rest found.
    destruct (strtoul_whole value parsed false E) as (spaces & sign & digits & -> & Hs & Hd & Hnil).
    rewrite strtoul_spec in E by done. exists spaces, sign, digits.
    destruct (2 ^ 64 <=? decimal digits) eqn:Hbig; [done|]. injection E as Ep. apply Z.leb_gt in Hbig.
    pose proof (signed_nonneg sign _ (decimal_nonneg digits Hd)) as Hpos. rewrite Ep in Hpos.
    assert (u16 parsed = parsed) as -> by (unfold u16; apply Z.mod_small; lia). by split_and!.
  - intros (spaces & sign & digits & -> & Hs & Hd & Hnil & Hbig & -> & Hn).
    rewrite bool_decide_eq_false_2; [|intros E; apply app_nil in E as [_ E]; by apply app_nil in E as [_ E] ].
    rewrite strtoul_spec, (proj2 (Z.leb_gt _ _)) by done. cbn [orb negb].
    rewrite bool_decide_eq_true_2, (proj2 (Z.ltb_ge _ _)) by done. cbn [orb negb]. f_equal. unfold u16.
    apply Z.mod_small. pose proof (signed_nonneg sign _ (decimal_nonneg digits Hd)). lia.
Qed.

(** So some negative numbers are read as small ones. *)
Lemma negative_number_accepted : ParseUnsignedField (chars "-18446744073709551615") = Some 1.
Proof. by vm_compute. Qed.

(** ** What a parsed configuration holds *)

Definition matches (section name : string) (entry : IniEntry) : bool :=
  bool_decide (in_section entry = chars section) && bool_decide (in_name entry = chars name).
(** The values that the text gives a name. *)
Definition values (section name : string) (entries : list IniEntry) : list bytes :=
  in_value <$> List.filter (matches section name) entries.

(** An entry is given at most once, [saw] says whether, and its value was read into
    [field]; [default] is there when it was not given. *)
Definition field_of {A} (section name : string) (read : bytes -> option A) (default field : A) (saw : bool)
    (entries : list IniEntry) : Prop :=
  (saw = false /\ values section name entries = [] /\ field = default) \/
  (saw = true /\ exists value, values section name entries = [value] /\ read value = Some field).
Definition flag_if (saw : bool) (flag : Z) : Z := if saw then flag else 0.

Record fields_read (entries : list IniEntry) (ctx : ConnectionParseContext) : Prop := {
  fr_private_key : field_of "Interface" "PrivateKey" (CopyField (zeros 64)) (zeros 64) (cf_private_key (cx_out ctx))
    (saw_private_key ctx) entries;
  fr_address : field_of "Interface" "Address" (CopyField (zeros 48)) (zeros 48) (cf_address (cx_out ctx))
    (saw_address ctx) entries;
  fr_listen_port : field_of "Interface" "ListenPort" ParseUnsignedField 0 (cf_listen_port (cx_out ctx))
    (saw_listen_port ctx) entries;
  fr_dns : field_of "Interface" "DNS" (CopyField (zeros 128)) (zeros 128) (cf_dns (cx_out ctx)) (saw_dns ctx) entries;
  fr_mtu : field_of "Interface" "MTU"
    (fun value => mtu ← ParseUnsignedField value; if IsValidEffectiveInnerMtu mtu then Some mtu else None) 0
    (cf_mtu (cx_out ctx)) (saw_mtu ctx) entries;
  fr_leak_protection : field_of "Interface" "LeakProtection" ParseBooleanField false (cf_leak_protection (cx_out ctx))
    (saw_leak_protection ctx) entries;
  fr_public_key : field_of "Peer" "PublicKey" (CopyField (zeros 64)) (zeros 64) (cf_public_key (cx_out ctx))
    (saw_public_key ctx) entries;
  fr_preshared_key : field_of "Peer" "PresharedKey" (CopyField (zeros 64)) (zeros 64) (cf_preshared_key (cx_out ctx))
    (saw_preshared_key ctx) entries;
  fr_allowed_ips : field_of "Peer" "AllowedIPs" (CopyField (zeros 256)) (zeros 256) (cf_allowed_ips (cx_out ctx))
    (saw_allowed_ips ctx) entries;
  fr_endpoint : field_of "Peer" "Endpoint" (CopyField (zeros 256)) (zeros 256) (cf_endpoint (cx_out ctx))
    (saw_endpoint ctx) entries;
  fr_persistent_keepalive : field_of "Peer" "PersistentKeepalive" ParseUnsignedField 0
    (cf_persistent_keepalive (cx_out ctx)) (saw_persistent_keepalive ctx) entries;
  fr_name : cf_name (cx_out ctx) = zeros 32;
  fr_flags : cf_field_flags (cx_out ctx) =
    Z.lor (flag_if (saw_private_key ctx) PeerConfigField_PrivateKey)
   (Z.lor (flag_if (saw_listen_port ctx) PeerConfigField_ListenPort)
   (Z.lor (flag_if (saw_dns ctx) PeerConfigField_Dns)
   (Z.lor (flag_if (saw_mtu ctx) PeerConfigField_Mtu)
   (Z.lor (flag_if (saw_public_key ctx) PeerConfigField_PublicKey)
   (Z.lor (flag_if (saw_preshared_key ctx) PeerConfigField_PresharedKey)
   (Z.lor (flag_if (saw_allowed_ips ctx) PeerConfigField_AllowedIps)
   (Z.lor (flag_if (saw_persistent_keepalive ctx) PeerConfigField_PersistentKeepalive)
          (flag_if (saw_leak_protection ctx) PeerConfigField_LeakProtection))))))))
}.

Lemma values_snoc section name entries entry :
  values section name (entries ++ [entry]) =
    values section name entries ++ (if matches section name entry then [in_value entry] else []).
Proof. unfold values. rewrite List.filter_app, fmap_app. cbn. by destruct (matches section name entry). Qed.
Lemma field_kept {A} section name (read : bytes -> option A) default field saw entries entry :
  matches section name entry = false -> field_of section name read default field saw entries ->
  field_of section name read default field saw (entries ++ [entry]).
Proof. unfold field_of. intros Hm. by rewrite values_snoc, Hm, app_nil_r. Qed.
Lemma field_given {A} section name (read : bytes -> option A) default field field' entries entry :
  matches section name entry = true -> field_of section name read default field false entries ->
  read (in_value entry) = Some field' ->
  field_of section name read default field' true (entries ++ [entry]).
Proof.
  unfold field_of. intros Hm [(_ & Hv & _)|[? _] ] Hr; [|done]. right. split; [done|].
  exists (in_value entry). by rewrite values_snoc, Hm, Hv.
Qed.
Lemma field_default {A} section name (read : bytes -> option A) default field entries :
  field_of section name read default field false entries -> field = default.
Proof. by intros [(_ & _ & ?)|[? _] ]. Qed.

#[local] Arguments zeros : simpl never.

(** The name of the entry is known: it matches one field, or none. *)
Ltac solve_match :=
  unfold matches;
  repeat match goal with
  | H : bool_decide (in_section ?e = _) = true |- _ => apply bool_decide_eq_true in H; rewrite H
  | H : bool_decide (in_name ?e = _) = true |- _ => apply bool_decide_eq_true in H; rewrite H
  | H : in_section ?e = _ |- context [in_section ?e] => rewrite H
  | H : in_name ?e = _ |- context [in_name ?e] => rewrite H
  | H : bool_decide ?P = false |- context [bool_decide ?P] => rewrite H
  end;
  rewrite ?andb_false_r; vm_compute; reflexivity.
Ltac solve_flags :=
  apply Z.bits_inj; intros i; rewrite ?Z.lor_spec; cbn [flag_if]; rewrite ?Z.bits_0, ?orb_false_l, ?orb_false_r;
  repeat match goal with |- context [Z.testbit ?a i] => generalize (Z.testbit a i); intros end; btauto.
Ltac solve_read :=
  match goal with
  | F : field_of _ _ (CopyField _) _ ?f false _, E : CopyField ?f _ = Some _ |- CopyField _ _ = Some _ =>
      rewrite (field_default _ _ _ _ _ _ F) in E; exact E
  | E : ParseUnsignedField _ = Some _, V : negb (IsValidEffectiveInnerMtu _) = false |- _ =>
      rewrite E; cbn [mbind option_bind]; apply negb_false_iff in V; rewrite V; reflexivity
  | |- _ => assumption
  end.
(** One branch of the handler that succeeds. *)
Ltac handled H :=
  intros [= <-]; destruct H as [F1 F2 F3 F4 F5 F6 F7 F8 F9 F10 F11 Fname Fflags];
  repeat match goal with E : ?saw = false, F : context [?saw] |- _ => progress rewrite E in F end;
  split; unfold set_flag; cbn -[Z.lor flag_if IsValidEffectiveInnerMtu];
  first
    [ assumption
    | apply field_kept; [solve_match|assumption]
    | eapply field_given; [solve_match|eassumption|solve_read]
    | rewrite Fflags; solve_flags ].

(** The next condition or field of the handler. *)
Ltac handler_case :=
  match goal with
  | |- None = Some _ -> _ => intros; discriminate
  | |- (_ ← ?read; _) = Some _ -> _ => destruct read eqn:?; cbn [mbind option_bind]
  | |- (if ?condition then _ else _) = Some _ -> _ => destruct condition eqn:?
  end.

Lemma handle_entry_fields entries ctx entry ctx' : fields_read entries ctx ->
  HandleConnectionConfig ctx entry = Some ctx' -> fields_read (entries ++ [entry]) ctx'.
Proof. intros H. unfold HandleConnectionConfig. cbv zeta. repeat handler_case. all: handled H. Qed.
Lemma handle_entries_fields processed entries ctx ctx' : fields_read processed ctx ->
  handle_entries ctx entries = Some ctx' -> fields_read (processed ++ entries) ctx'.
Proof.
  revert processed ctx. induction entries as [|entry entries IH]; intros processed ctx H; cbn [handle_entries].
  - intros [= <-]. by rewrite app_nil_r.
  - destruct (HandleConnectionConfig ctx entry) as [next|] eqn:E; [|done]. cbn [mbind option_bind].
    rewrite (cons_middle entry processed entries), (app_assoc processed [entry] entries). apply IH. by eapply handle_entry_fields.
Qed.
Lemma fields_read_nil : fields_read [] context_init.
Proof. split; try (left; done); done. Qed.

(** Conversely the handler accepts every entry of a text whose fields can be read. *)
Lemma field_next {A} section name (read : bytes -> option A) default field saw field' saw' processed entry entries :
  field_of section name read default field saw processed ->
  field_of section name read default field' saw' (processed ++ entry :: entries) ->
  matches section name entry = true -> saw = false /\ field = default /\ is_Some (read (in_value entry)).
Proof.
  unfold field_of. rewrite cons_middle, app_assoc. intros H1 H2 Hm.
  assert (values section name ((processed ++ [entry]) ++ entries) =
    values section name processed ++ in_value entry :: values section name entries) as E.
  { unfold values at 1. rewrite List.filter_app, fmap_app. fold (values section name (processed ++ [entry])).
    fold (values section name entries). rewrite values_snoc, Hm. by rewrite <- app_assoc. }
  rewrite E in H2. destruct H2 as [(_ & H2 & _)|(_ & value & H2 & Hr)]; [by apply app_nil in H2 as [_ ?]|].
  destruct (values section name processed) as [|v l]; cbn in H2.
  - injection H2 as <- _. destruct H1 as [(-> & _ & ->)|(_ & v & [=] & _)]. by split_and!.
  - injection H2 as _ H2. by apply app_nil in H2 as [_ ?].
Qed.
Lemma field_unique {A} section name (read : bytes -> option A) default field saw field' saw' entries :
  field_of section name read default field saw entries -> field_of section name read default field' saw' entries ->
  saw = saw' /\ field = field'.
Proof.
  unfold field_of. intros [(-> & E & ->)|(-> & v & E & Hr)] [(-> & E' & ->)|(-> & v' & E' & Hr')]; try done;
    rewrite E in E'; try done. injection E' as <-. rewrite Hr in Hr'. by injection Hr' as <-.
Qed.
Lemma fields_unique entries ctx ctx' : fields_read entries ctx -> fields_read entries ctx' -> ctx = ctx'.
Proof.
  intros [A1 A2 A3 A4 A5 A6 A7 A8 A9 A10 A11 An Af] [B1 B2 B3 B4 B5 B6 B7 B8 B9 B10 B11 Bn Bf].
  repeat match goal with
  | A : field_of ?s ?n _ _ _ _ _, B : field_of ?s ?n _ _ _ _ _ |- _ =>
      destruct (field_unique _ _ _ _ _ _ _ _ _ A B); clear A B
  end.
  destruct ctx as [ [] ], ctx' as [ [] ]; cbn in *. congruence.
Qed.

(** A step of the handler that fails contradicts that the entry's field can be read. *)
Ltac handler_refuses :=
  match goal with
  | |- Some _ = None -> _ => intros; discriminate
  | |- (_ ← ?read; _) = None -> _ => destruct read eqn:?; cbn [mbind option_bind]
  | |- (if ?condition then _ else _) = None -> _ => destruct condition eqn:?
  end.
Ltac refuted :=
  intros _;
  match goal with
  | F : matches ?s ?n _ = true -> _ /\ _ /\ _ |- False =>
      destruct F as (Hsaw & Hfield & value & Hvalue); [solve [solve_match]|];
      rewrite ?Hfield in *; repeat (cbn [mbind option_bind] in *; first [congruence|
        match goal with
        | E : ParseUnsignedField _ = _ |- _ => rewrite E in *
        | E : negb (IsValidEffectiveInnerMtu _) = true |- _ => apply negb_true_iff in E; rewrite E in *
        end])
  end.
Lemma handler_accepts processed entry entries ctx ctx' :
  fields_read processed ctx -> fields_read (processed ++ entry :: entries) ctx' ->
  HandleConnectionConfig ctx entry <> None.
Proof.
  intros [A1 A2 A3 A4 A5 A6 A7 A8 A9 A10 A11 _ _] [B1 B2 B3 B4 B5 B6 B7 B8 B9 B10 B11 _ _].
  repeat match goal with
  | A : field_of ?s ?n _ _ _ _ processed, B : field_of ?s ?n _ _ _ _ (processed ++ _) |- _ =>
      pose proof (field_next _ _ _ _ _ _ _ _ _ _ _ A B); clear A B
  end.
  unfold HandleConnectionConfig. cbv zeta. change (?x <> None) with (x = None -> False).
  repeat handler_refuses. all: refuted.
Qed.
Lemma handle_entries_complete processed entries ctx ctx' :
  fields_read processed ctx -> fields_read (processed ++ entries) ctx' -> handle_entries ctx entries = Some ctx'.
Proof.
  revert processed ctx. induction entries as [|entry entries IH]; intros processed ctx H H'; cbn [handle_entries].
  - rewrite app_nil_r in H'. f_equal. by eapply fields_unique.
  - pose proof (handler_accepts _ _ _ _ _ H H') as Hsome.
    destruct (HandleConnectionConfig ctx entry) as [next|] eqn:E; [|done]. cbn [mbind option_bind].
    rewrite cons_middle, app_assoc in H'. eapply IH; [|exact H']. by eapply handle_entry_fields.
Qed.

Lemma ParseString_fields {Ini : IniParser} text ctx :
  ParseString text context_init = Some ctx <-> ini_malformed text = false /\ fields_read (ini_entries text) ctx.
Proof.
  unfold ParseString. destruct (ini_malformed text); [split; [done|by intros [? _] ]|]. split.
  - intros H. split; [done|]. exact (handle_entries_fields [] (ini_entries text) context_init ctx fields_read_nil H).
  - intros [_ H]. exact (handle_entries_complete [] (ini_entries text) context_init ctx fields_read_nil H).
Qed.

(** C23. A configuration text is parsed exactly if no line of it is malformed, it gives
    every name at most once, and each value can be read as its field: a text of less
    than the size of the field, a number, an MTU from 576 to 1500, a truth value.  The
    result holds those values, the defaults for the other fields, and the flags of
    the fields that were given. *)
Theorem parsed_configuration_exact {Ini : IniParser} text ctx :
  ParseString text context_init = Some ctx <-> ini_malformed text = false /\ fields_read (ini_entries text) ctx.
Proof. apply ParseString_fields. Qed.
