(* ===== verification/ConfigLoader.v ===== *)
(** * Loading the configuration

    Models [fs_runtime.cpp], the part of [config_loader.cpp] that works on files,
    and [runtime/peer_configuration.cpp].  The file system library is a class: each
    call gives its result and, where it changes the file system, the file system
    afterwards.  Texts are C strings without their terminators, and the log is left
    out.  A function whose [bool] result is [false] is [None] in the monad [M], one
    that returns a failed [Result] is [inl] in the monad [Fs]. *)

From S2P Require Import Prelude Endian Messages PacketQueue Platform Session Base64 InnerPacket Timers.
From S2P Require Import Crypto Device Data Identity Admission Handshake Peer PeerController RuntimeEvents FlowPolicy.
From S2P Require Import Abort PeerRuntime Coordinator ConfigText.
From Stdlib Require Import Sorted.
From stdpp Require Import gmap.
Local Open Scope Z_scope.

(** ** The file system *)

(** The results that the code tells apart; each stands for all that its [Includes]
    accepts. *)
Inductive FsError :=
  | ResultPathNotFound
  | ResultPathAlreadyExists
  | ResultMountNameAlreadyExists
  | ResultInvalidSize
  | ResultInvalidPathFormat
  | ResultTooLongPath
  | ResultTooLargeSize
  | ResultOther (value : Z).
#[export] Instance fs_error_eq_dec : EqDecision FsError.
Proof. solve_decision. Defined.
Inductive OpenMode := OpenMode_Read | OpenMode_ReadWrite.

Record DirectoryEntry := mk_directory_entry { de_name : bytes; de_is_directory : bool }.

(** [ReadDirectory] gives the entries that the successive reads of a directory
    yield, and the error that ends them, if one does. *)
Class Filesystem := {
  FileSystem : Type;
  FileHandle : Type;
  DirectoryHandle : Type;
  MountNameLengthMax : nat;
  EntryNameLengthMax : nat;
  MountSdCard : bytes -> FileSystem -> option FsError * FileSystem;
  OpenDirectory : bytes -> FileSystem -> FsError + DirectoryHandle;
  ReadDirectory : DirectoryHandle -> FileSystem -> list DirectoryEntry * option FsError;
  OpenFile : bytes -> OpenMode -> FileSystem -> FsError + FileHandle;
  GetFileSize : FileHandle -> FileSystem -> FsError + Z;
  ReadFile : FileHandle -> Z -> nat -> FileSystem -> FsError + bytes;
  CreateFile : bytes -> Z -> FileSystem -> option FsError * FileSystem;
  SetFileSize : FileHandle -> Z -> FileSystem -> option FsError * FileSystem;
  WriteFile : FileHandle -> Z -> bytes -> FileSystem -> option FsError * FileSystem;
  FlushFile : FileHandle -> FileSystem -> option FsError * FileSystem;
  DeleteFile : bytes -> FileSystem -> option FsError * FileSystem;
  CreateDirectory : bytes -> FileSystem -> option FsError * FileSystem
}.

Section Loader.
Context {P : Primitives} {Ini : IniParser} {Files : Filesystem}.

(** [g_fs_core_ready], [g_fs_ready] and the files. *)
Record FsWorld := mk_fs {
  g_fs_core_ready : bool;
  g_fs_ready : bool;
  fs_files : FileSystem
}.
#[export] Instance eta_fs : Eta FsWorld := fun r => mk_fs (g_fs_core_ready r) (g_fs_ready r) (fs_files r).

Definition Fs (A : Type) : Type := FsWorld -> (FsError + A) * FsWorld.
#[export] Instance Fs_ret : MRet Fs := fun _ a w => (inr a, w).
(** [R_TRY] *)
#[export] Instance Fs_bind : MBind Fs := fun _ _ k m w =>
  match m w with
  | (inr a, w) => k a w
  | (inl error, w) => (inl error, w)
  end.
Definition throw {A} (error : FsError) : Fs A := fun w => (inl error, w).
(** [R_UNLESS] *)
Definition R_UNLESS (condition : bool) (error : FsError) : Fs unit := if condition then mret tt else throw error.
(** A call that reads the files, and one that changes them. *)
Definition fs_read {A} (call : FileSystem -> FsError + A) : Fs A := fun w => (call (fs_files w), w).
Definition fs_change (call : FileSystem -> option FsError * FileSystem) : Fs unit := fun w =>
  let '(error, files) := call (fs_files w) in
  (match error with Some error => inl error | None => inr tt end, w <| fs_files := files |>).
(** [R_TRY_CATCH] with an empty [R_CATCH] of one error. *)
Definition catching (caught : FsError) (m : Fs unit) : Fs unit := fun w =>
  match m w with
  | (inl error, w) => (if bool_decide (error = caught) then inr tt else inl error, w)
  | result => result
  end.

(** ** [fs_runtime.cpp] *)

Definition SdMountName : bytes := chars "sdmc".

Definition EnsureReady : Fs unit := fun w =>
  if g_fs_ready w then (inr tt, w)
  else
    let w := w <| g_fs_core_ready := true |> in
    let '(mount_rc, files) := MountSdCard SdMountName (fs_files w) in
    let w := w <| fs_files := files |> in
    match mount_rc with
    | Some error => if bool_decide (error = ResultMountNameAlreadyExists) then (inr tt, w <| g_fs_ready := true |>)
                    else (inl error, w)
    | None => (inr tt, w <| g_fs_ready := true |>)
    end.

(** A formatted text that fits in a buffer of [capacity] characters. *)
Definition fits_buffer (capacity : nat) (written : bytes) : bool :=
  (0 <? length written)%nat && (length written <? capacity)%nat.
Definition ResolveSdPath (capacity : nat) (path : bytes) : Fs bytes :=
  _ ← R_UNLESS (negb (capacity =? 0)%nat) ResultInvalidSize;
  _ ← R_UNLESS (negb (length path =? 0)%nat) ResultInvalidPathFormat;
  _ ← EnsureReady;
  if bool_decide (char ":" ∈ path) then
    _ ← R_UNLESS (fits_buffer capacity path) ResultTooLongPath;
    mret path
  else
    _ ← R_UNLESS (char_at path =? char "/") ResultInvalidPathFormat;
    let written := SdMountName ++ chars ":" ++ path in
    _ ← R_UNLESS (fits_buffer capacity written) ResultTooLongPath;
    mret written.
Definition MaxResolvedPathBytes : nat := MountNameLengthMax + EntryNameLengthMax + 4.

(** Reads a file into a buffer of [capacity] characters: the text that is written to
    the buffer before the terminator. *)
Definition ReadTextFile (path : bytes) (capacity : nat) : Fs bytes :=
  _ ← R_UNLESS (negb (capacity =? 0)%nat) ResultInvalidSize;
  resolved_path ← ResolveSdPath MaxResolvedPathBytes path;
  file ← fs_read (OpenFile resolved_path OpenMode_Read);
  file_size ← fs_read (GetFileSize file);
  _ ← R_UNLESS (0 <=? file_size) ResultInvalidSize;
  let read_size := Z.to_nat file_size in
  _ ← R_UNLESS (read_size <? capacity)%nat ResultTooLargeSize;
  if (0 <? read_size)%nat then fs_read (ReadFile file 0 read_size) else mret [].

Definition WriteTextFile (path src : bytes) : Fs unit :=
  resolved_path ← ResolveSdPath MaxResolvedPathBytes path;
  _ ← catching ResultPathAlreadyExists (fs_change (CreateFile resolved_path 0));
  file ← fs_read (OpenFile resolved_path OpenMode_ReadWrite);
  _ ← fs_change (SetFileSize file (Z.of_nat (length src)));
  if negb (length src =? 0)%nat then fs_change (WriteFile file 0 src) else fs_change (FlushFile file).
Definition DeleteFileIfExists (path : bytes) : Fs unit :=
  resolved_path ← ResolveSdPath MaxResolvedPathBytes path;
  catching ResultPathNotFound (fs_change (DeleteFile resolved_path)).
Definition EnsureDirectoryExists (path : bytes) : Fs unit :=
  resolved_path ← ResolveSdPath MaxResolvedPathBytes path;
  catching ResultPathAlreadyExists (fs_change (CreateDirectory resolved_path)).

(** ** [config_loader.cpp] *)

Definition ConfigPath : bytes := chars "/config/wireguard-nx".
Definition AutoStartPath : bytes := chars "/config/wireguard-nx/autostart".
Definition MaxConfigBytes : nat := 16 * 1024.
Definition MaxAutoStartBytes : nat := PeerNameCapacity.
Definition MaxConfigFiles : nat := PeerSlots.

Record ConfigFileCandidate := mk_candidate { cd_file_name : bytes; cd_peer_name : bytes }.

Definition HasConfSuffix (name : bytes) : bool :=
  (5 <? length name)%nat && bool_decide (drop (length name - 5) name = chars ".conf").
Definition ExtractPeerName (out_name_size : nat) (file_name : bytes) : option bytes :=
  if (length file_name <=? 5)%nat then None
  else
    let stem_length := (length file_name - 5)%nat in
    if (stem_length =? 0)%nat || (out_name_size <=? stem_length)%nat then None
    else Some (take stem_length file_name).
Definition BuildConfigPath (out_path_size : nat) (file_name : bytes) : option bytes :=
  let written := ConfigPath ++ chars "/" ++ file_name in
  if fits_buffer out_path_size written then Some written else None.

(** A failed [Result] after which the function returns [false]. *)
Definition attempt {A} (m : Fs A) : M FsWorld A := fun w =>
  match m w with
  | (inr a, w) => (Some a, w)
  | (inl _, w) => (None, w)
  end.

(** The context of the parser after a successful parse must hold these fields. *)
Definition required_fields (ctx : ConnectionParseContext) : bool :=
  saw_address ctx && saw_private_key ctx && saw_public_key ctx && saw_allowed_ips ctx && saw_endpoint ctx.
Definition LoadConnectionFile (candidate : ConfigFileCandidate) : M FsWorld PeerConfigEntry :=
  config_path ← try_opt (BuildConfigPath MaxResolvedPathBytes (cd_file_name candidate));
  _ ← attempt (ResolveSdPath MaxResolvedPathBytes config_path);
  g_config_buffer ← attempt (ReadTextFile config_path (MaxConfigBytes + 1));
  let text := c_string g_config_buffer in
  _ ← require (layout_IsValid (ValidateConnectionConfigLayout text));
  ctx ← try_opt (ParseString text context_init);
  _ ← require (required_fields ctx);
  mret ((cx_out ctx) <| cf_name := print_name (cd_peer_name candidate) |>).

(** The loop that reads the directory. *)
Fixpoint candidate_loop (entries : list DirectoryEntry) (g_candidates : list ConfigFileCandidate)
    : list ConfigFileCandidate :=
  match entries with
  | [] => g_candidates
  | entry :: entries =>
      if de_is_directory entry then candidate_loop entries g_candidates
      else if negb (HasConfSuffix (de_name entry)) then candidate_loop entries g_candidates
      else if (MaxConfigFiles <=? length g_candidates)%nat then candidate_loop entries g_candidates
      else
        let file_name := take EntryNameLengthMax (de_name entry) in
        match ExtractPeerName PeerNameCapacity file_name with
        | None => candidate_loop entries g_candidates
        | Some peer_name => candidate_loop entries (g_candidates ++ [mk_candidate file_name peer_name])
        end
  end.

(** [std::strcmp(a, b) < 0] *)
Fixpoint strcmp_less (a b : bytes) : bool :=
  match a, b with
  | _, [] => false
  | [], _ :: _ => true
  | x :: a, y :: b => if x =? y then strcmp_less a b else x <? y
  end.
(** The exchange of two candidates, and the two loops. *)
Definition exchange (i : nat) (g_candidates : list ConfigFileCandidate) (j : nat) : list ConfigFileCandidate :=
  match g_candidates !! i, g_candidates !! j with
  | Some tmp, Some other =>
      if strcmp_less (cd_file_name other) (cd_file_name tmp) then <[j := tmp]> (<[i := other]> g_candidates)
      else g_candidates
  | _, _ => g_candidates
  end.
Definition sort_candidates (g_candidates : list ConfigFileCandidate) : list ConfigFileCandidate :=
  let candidate_count := length g_candidates in
  foldl (fun g_candidates i => foldl (exchange i) g_candidates (seq (S i) (candidate_count - S i)))
    g_candidates (seq 0 candidate_count).

(** The loop that loads the candidates. *)
Fixpoint load_loop (g_candidates : list ConfigFileCandidate) (peers : list PeerConfigEntry) : M FsWorld (list PeerConfigEntry) :=
  match g_candidates with
  | [] => mret peers
  | candidate :: g_candidates => fun w =>
      match LoadConnectionFile candidate w with
      | (None, w) => load_loop g_candidates peers w
      | (Some entry, w) => load_loop g_candidates (peers ++ [entry]) w
      end
  end.

(** The peers of the set, as many as [peer_count]. *)
Definition LoadPeerConfig : M FsWorld (list PeerConfigEntry) :=
  _ ← attempt EnsureReady;
  config_dir_path ← attempt (ResolveSdPath MaxResolvedPathBytes ConfigPath);
  dir ← gets (fun w => OpenDirectory config_dir_path (fs_files w));
  match dir with
  | inl open_rc => if bool_decide (open_rc = ResultPathNotFound) then mret [] else try_opt None
  | inr dir =>
      reads ← gets (fun w => ReadDirectory dir (fs_files w));
      let '(entries, read_rc) := reads in
      _ ← require (bool_decide (read_rc = None));
      load_loop (sort_candidates (candidate_loop entries [])) []
  end.

Definition is_name_space (c : Z) : bool := (c =? char " ") || (c =? 9).
Definition is_name_end (c : Z) : bool := (c =? 10) || (c =? 13) || is_name_space c.
Definition LoadAutoStartPeerName (out_name_size : nat) : M FsWorld bytes :=
  _ ← require (negb (out_name_size =? 0)%nat);
  buffer ← attempt (ReadTextFile AutoStartPath (MaxAutoStartBytes + 1));
  let trimmed := drop_while is_name_space (drop_while_end is_name_end buffer) in
  _ ← require (negb (length trimmed =? 0)%nat);
  _ ← require (length trimmed <? out_name_size)%nat;
  mret trimmed.
(** [None] is the null pointer. *)
Definition StoreAutoStartPeerName (name : option bytes) : Fs unit :=
  _ ← EnsureDirectoryExists (chars "/config");
  _ ← EnsureDirectoryExists ConfigPath;
  match name with
  | None | Some [] => DeleteFileIfExists AutoStartPath
  | Some name =>
      _ ← R_UNLESS (length name <? PeerNameCapacity)%nat ResultTooLongPath;
      WriteTextFile AutoStartPath name
  end.

(** ** [peer_configuration.cpp] *)

Definition ClearEncodedSecrets (entry : PeerConfigEntry) : PeerConfigEntry :=
  entry <| cf_private_key := zeros 64 |> <| cf_preshared_key := zeros 64 |>.
(** The derived values, and the entry afterwards. *)
Definition DeriveSecrets (entry : PeerConfigEntry) : PeerConfigDerivedInfo * PeerConfigEntry :=
  let private_key := noise_parse_private_key (c_string (cf_private_key entry)) in
  let has_preshared_text := negb (char_at (cf_preshared_key entry) =? 0) in
  let preshared_key := if has_preshared_text then noise_parse_preshared_key (c_string (cf_preshared_key entry)) else None in
  let private_key_valid := bool_decide (is_Some private_key) in
  let preshared_key_valid := negb has_preshared_text || bool_decide (is_Some preshared_key) in
  let local_private_key := default key_init private_key in
  let '(has_derived, derived_public_key) :=
    if private_key_valid then noise_derive_public_key_text (zeros 64) local_private_key else (false, zeros 64) in
  (mk_derived derived_public_key local_private_key (default key_init preshared_key) has_derived
     (has_preshared_text && preshared_key_valid) (private_key_valid && preshared_key_valid),
   ClearEncodedSecrets entry).

Record LoadedPeerConfiguration := mk_loaded {
  ld_peers : list PeerConfigEntry;
  ld_derived : list PeerConfigDerivedInfo;
  ld_auto_start_peer_index : Z
}.
#[export] Instance eta_loaded : Eta LoadedPeerConfiguration := fun r =>
  mk_loaded (ld_peers r) (ld_derived r) (ld_auto_start_peer_index r).
(** [std::strncmp(a, b, size) == 0] *)
Definition strncmp_equal (a b : bytes) (size : nat) : bool :=
  bool_decide (take size (c_string a) = take size (c_string b)).
Definition derive_peer (auto_start_name : option bytes) (out : LoadedPeerConfiguration) (parsed : PeerConfigEntry)
    : LoadedPeerConfiguration :=
  let '(derived, entry) := DeriveSecrets parsed in
  let index := length (ld_peers out) in
  let out := out <| ld_peers ::= fun peers => peers ++ [entry] |> <| ld_derived ::= fun all => all ++ [derived] |> in
  match auto_start_name with
  | Some name => if strncmp_equal (cf_name entry) name PeerNameCapacity
                 then out <| ld_auto_start_peer_index := Z.of_nat index |> else out
  | None => out
  end.
Definition Load : M FsWorld LoadedPeerConfiguration := fun w =>
  let '(auto_start_name, w) := LoadAutoStartPeerName PeerNameCapacity w in
  match LoadPeerConfig w with
  | (None, w) => (None, w)
  | (Some parsed, w) => (Some (foldl (derive_peer auto_start_name) (mk_loaded [] [] (-1)) parsed), w)
  end.

(** ** The order of the candidates *)

(** [a] does not come after [b]. *)
Definition name_le (a b : bytes) : Prop := strcmp_less b a = false.
Lemma strcmp_less_trans a b c : strcmp_less a b = true -> strcmp_less b c = true -> strcmp_less a c = true.
Proof.
  revert b c. induction a as [|x a IH]; intros [|y b] [|z c]; cbn [strcmp_less]; try done.
  destruct (Z.eqb_spec x y), (Z.eqb_spec y z), (Z.eqb_spec x z); subst; rewrite ?Z.ltb_lt; try lia; eauto.
Qed.
Lemma strcmp_total a b : strcmp_less a b = false -> strcmp_less b a = false -> a = b.
Proof.
  revert b. induction a as [|x a IH]; intros [|y b]; cbn [strcmp_less]; try done.
  rewrite (Z.eqb_sym y x). destruct (Z.eqb_spec x y) as [<-|]; [|rewrite !Z.ltb_ge; lia].
  intros H1 H2. f_equal. by apply IH.
Qed.
Lemma strcmp_less_irrefl a : strcmp_less a a = false.
Proof. induction a as [|x a IH]; cbn; [done|]. by rewrite Z.eqb_refl. Qed.
Lemma name_le_refl a : name_le a a.
Proof. apply strcmp_less_irrefl. Qed.
Lemma less_le a b : strcmp_less a b = true -> name_le a b.
Proof.
  intros H. unfold name_le. destruct (strcmp_less b a) eqn:E; [|done].
  pose proof (strcmp_less_trans _ _ _ H E) as H2. by rewrite strcmp_less_irrefl in H2.
Qed.
Lemma name_le_trans a b c : name_le a b -> name_le b c -> name_le a c.
Proof.
  unfold name_le. intros H1 H2. destruct (strcmp_less c a) eqn:E; [|done].
  destruct (strcmp_less a b) eqn:E1.
  - by rewrite (strcmp_less_trans _ _ _ E E1) in H2.
  - by rewrite (strcmp_total _ _ E1 H1), H2 in E.
Qed.

Definition candidate_le (a b : ConfigFileCandidate) : Prop := name_le (cd_file_name a) (cd_file_name b).
(** What the inner loop leaves in place of [x :: rest]. *)
Fixpoint pass (x : ConfigFileCandidate) (rest : list ConfigFileCandidate) : ConfigFileCandidate * list ConfigFileCandidate :=
  match rest with
  | [] => (x, [])
  | y :: rest =>
      if strcmp_less (cd_file_name y) (cd_file_name x) then prod_map id (cons x) (pass y rest)
      else prod_map id (cons y) (pass x rest)
  end.
Lemma exchange_at before x between y after :
  exchange (length before) (before ++ x :: between ++ y :: after) (S (length before) + length between) =
    if strcmp_less (cd_file_name y) (cd_file_name x) then before ++ y :: between ++ x :: after
    else before ++ x :: between ++ y :: after.
Proof.
  unfold exchange. rewrite list_lookup_middle by done.
  replace (S (length before) + length between)%nat with (length (before ++ x :: between)) by (rewrite length_app; cbn; lia).
  replace (before ++ x :: between ++ y :: after) with ((before ++ x :: between) ++ y :: after) by by rewrite <- app_assoc.
  rewrite list_lookup_middle by done. destruct (strcmp_less _ _); [|done].
  rewrite <- app_assoc. cbn [app]. rewrite insert_app_r_alt, Nat.sub_diag by done. cbn [insert list_insert].
  replace (before ++ y :: between ++ y :: after) with ((before ++ y :: between) ++ y :: after) by by rewrite <- app_assoc.
  replace (length (before ++ x :: between)) with (length (before ++ y :: between)) by by rewrite !length_app.
  rewrite insert_app_r_alt, Nat.sub_diag by done. cbn [insert list_insert]. by rewrite <- app_assoc.
Qed.
Lemma inner_loop before x between rest :
  foldl (exchange (length before)) (before ++ x :: between ++ rest) (seq (S (length before) + length between) (length rest)) =
    before ++ fst (pass x rest) :: between ++ snd (pass x rest).
Proof.
  revert x between. induction rest as [|y rest IH]; intros x between; [done|].
  cbn [length seq foldl pass]. rewrite exchange_at.
  assert (forall x z, foldl (exchange (length before)) (before ++ x :: between ++ z :: rest)
      (seq (S (S (length before) + length between)) (length rest)) =
    before ++ fst (pass x rest) :: between ++ z :: snd (pass x rest)) as H.
  { intros x' z. specialize (IH x' (between ++ [z])). rewrite length_app, <- !app_assoc in IH. cbn [app length] in IH.
    rewrite <- IH. f_equal. f_equal. lia. }
  destruct (strcmp_less _ _); rewrite H; by destruct (pass _ rest).
Qed.
Lemma pass_spec x rest : fst (pass x rest) :: snd (pass x rest) ≡ₚ x :: rest /\
  candidate_le (fst (pass x rest)) x /\ Forall (candidate_le (fst (pass x rest))) (snd (pass x rest)).
Proof.
  revert x. induction rest as [|y rest IH]; intros x; cbn [pass].
  { split; [done|]. split; [apply name_le_refl|constructor]. }
  destruct (strcmp_less _ _) eqn:E.
  - destruct (IH y) as (Hp & Hle & Hall). destruct (pass y rest) as [m zs]. cbn in *.
    assert (candidate_le m x) by (eapply name_le_trans; [exact Hle|by apply less_le]).
    split; [|split; [done|by constructor] ]. by rewrite (Permutation_swap x m zs), Hp.
  - destruct (IH x) as (Hp & Hle & Hall). destruct (pass x rest) as [m zs]. cbn in *.
    split; [by rewrite (Permutation_swap y m zs), Hp, Permutation_swap|]. split; [done|].
    constructor; [|done]. eapply name_le_trans; [exact Hle|exact E].
Qed.
Lemma outer_loop before rest : exists sorted,
  foldl (fun l i => foldl (exchange i) l (seq (S i) (length (before ++ rest) - S i))) (before ++ rest)
    (seq (length before) (length rest)) = before ++ sorted /\
  sorted ≡ₚ rest /\ StronglySorted candidate_le sorted.
Proof.
  remember (length rest) as n eqn:En. revert before rest En. induction n as [|n IH]; intros before rest En.
  - destruct rest; [|done]. exists []. split; [done|]. split; [done|constructor].
  - destruct rest as [|x rest]; [done|]. injection En as En. cbn [seq foldl].
    replace (length (before ++ x :: rest) - S (length before))%nat with (length rest) by (rewrite length_app; cbn; lia).
    pose proof (inner_loop before x [] rest) as Hin. cbn [app length] in Hin. rewrite Nat.add_0_r in Hin. rewrite Hin.
    destruct (pass_spec x rest) as (Hp & _ & Hall). destruct (pass x rest) as [m zs]. cbn [fst snd] in *.
    assert (length zs = length rest) as El by (apply Permutation_length in Hp; cbn in Hp; lia).
    destruct (IH (before ++ [m]) zs) as (sorted & E & Hs & Hsort); [lia|].
    rewrite !length_app, <- !app_assoc in E. cbn [app length] in E. rewrite Nat.add_1_r in E.
    exists (m :: sorted). split.
    + rewrite <- E. by replace (length (before ++ x :: rest)) with (S (length before) + length zs)%nat
        by (rewrite length_app; cbn; lia).
    + split; [by rewrite Hs|]. constructor; [done|]. by rewrite Hs.
Qed.
Lemma sort_candidates_sorts l : sort_candidates l ≡ₚ l /\ StronglySorted candidate_le (sort_candidates l).
Proof. destruct (outer_loop [] l) as (sorted & E & ? & ?). change (sort_candidates l = sorted) in E. by rewrite E. Qed.

(** The candidate that a directory entry is, if it is one. *)
Definition candidate_of (entry : DirectoryEntry) : option ConfigFileCandidate :=
  if de_is_directory entry || negb (HasConfSuffix (de_name entry)) then None
  else mk_candidate (take EntryNameLengthMax (de_name entry)) <$>
       ExtractPeerName PeerNameCapacity (take EntryNameLengthMax (de_name entry)).
(** The loop over the directory keeps the first eight candidates. *)
Lemma candidate_loop_spec entries candidates : (length candidates <= MaxConfigFiles)%nat ->
  candidate_loop entries candidates = take MaxConfigFiles (candidates ++ omap candidate_of entries).
Proof.
  revert candidates. induction entries as [|entry entries IH]; intros candidates Hlen; cbn [candidate_loop omap list_omap].
  { rewrite app_nil_r, take_ge by done. done. }
  change (list_omap _ _ candidate_of entries) with (omap candidate_of entries). unfold candidate_of at 1.
  destruct (de_is_directory entry); cbn [orb]; [by apply IH|].
  destruct (negb (HasConfSuffix _)); [by apply IH|]. destruct (Nat.leb_spec MaxConfigFiles (length candidates)).
  - rewrite IH by done. rewrite !take_app_le by lia. done.
  - destruct (ExtractPeerName _ _) as [name|]; cbn [fmap option_fmap option_map]; [|by apply IH].
    rewrite IH by (rewrite length_app; cbn; lia). by rewrite <- app_assoc.
Qed.

(** ** The file system runtime once the card is mounted *)

Definition mounted (w : FsWorld) : Prop := g_fs_ready w = true.

(** The card is mounted once. *)
Lemma EnsureReady_mounted w : mounted w -> EnsureReady w = (inr tt, w).
Proof. unfold mounted, EnsureReady. by intros ->. Qed.
Lemma EnsureReady_mounts w w' : EnsureReady w = (inr tt, w') -> mounted w'.
Proof.
  unfold EnsureReady, mounted. destruct (g_fs_ready w) eqn:E; [by intros [= <-]|].
  destruct (MountSdCard _ _) as [ [error|] files]; [|by intros [= <-] ].
  destruct (bool_decide _); [by intros [= <-]|done].
Qed.

Lemma bind_fs {A B} (m : Fs A) (k : A -> Fs B) w :
  (m ≫= k) w = match m w with (inr a, w) => k a w | (inl error, w) => (inl error, w) end.
Proof. done. Qed.
Lemma bind_unless {A} condition error (k : unit -> Fs A) w :
  (R_UNLESS condition error ≫= k) w = if condition then k tt w else (inl error, w).
Proof. by destruct condition. Qed.

(** A computation that leaves a mounted file system as it was. *)
Definition reading {A} (m : Fs A) : Prop := forall w, mounted w -> snd (m w) = w.
Lemma reading_ret {A} (a : A) : reading (mret a).
Proof. by intros w Hw. Qed.
Lemma reading_unless condition error : reading (R_UNLESS condition error).
Proof. intros w Hw. by destruct condition. Qed.
Lemma reading_read {A} (call : FileSystem -> FsError + A) : reading (fs_read call).
Proof. by intros w Hw. Qed.
Lemma reading_bind {A B} (m : Fs A) (k : A -> Fs B) : reading m -> (forall a, reading (k a)) -> reading (m ≫= k).
Proof.
  intros Hm Hk w Hw. specialize (Hm w Hw). unfold mbind, Fs_bind.
  destruct (m w) as [ [error|a] w1]; cbn in Hm; subst w1; [done|by apply Hk].
Qed.
Lemma reading_EnsureReady : reading EnsureReady.
Proof. intros w Hw. by rewrite EnsureReady_mounted. Qed.
#[local] Hint Resolve reading_ret reading_unless reading_read reading_bind reading_EnsureReady : reading.
Ltac reads_only :=
  repeat (intros; first
    [ match goal with |- reading (if ?b then _ else _) => destruct b end
    | apply reading_bind | progress auto with reading ]).

Lemma reading_ResolveSdPath capacity path : reading (ResolveSdPath capacity path).
Proof. unfold ResolveSdPath. reads_only. Qed.
#[local] Hint Resolve reading_ResolveSdPath : reading.
Lemma reading_ReadTextFile path capacity : reading (ReadTextFile path capacity).
Proof. unfold ReadTextFile. reads_only. Qed.

Lemma bind_attempt {A B} (m : Fs A) (k : A -> M FsWorld B) w : reading m -> mounted w ->
  (attempt m ≫= k) w = match fst (m w) with inr a => k a w | inl _ => (None, w) end.
Proof.
  intros Hm Hw. unfold attempt, mbind, M_bind. specialize (Hm w Hw).
  destruct (m w) as [ [error|a] w1]; cbn in *; by subst w1.
Qed.

(** ** One file *)

(** The text that a connection file holds, as far as it can be read. *)
Definition file_text (files : FsWorld) (file_name : bytes) : option bytes :=
  config_path ← BuildConfigPath MaxResolvedPathBytes file_name;
  match fst (ReadTextFile config_path (MaxConfigBytes + 1) files) with
  | inr buffer => Some (c_string buffer)
  | inl _ => None
  end.

(** The entry that a text configures: its layout is valid, no line is malformed, the
    five required fields are there, and each field holds what its value reads as. *)
Record configures (text : bytes) (peer_name : bytes) (entry : PeerConfigEntry) : Prop := {
  co_layout : layout_IsValid (ValidateConnectionConfigLayout text) = true;
  co_malformed : ini_malformed text = false;
  co_fields : exists ctx, fields_read (ini_entries text) ctx /\ required_fields ctx = true /\
    entry = (cx_out ctx) <| cf_name := print_name peer_name |>
}.

Lemma ReadTextFile_resolves path capacity buffer w : mounted w ->
  fst (ReadTextFile path capacity w) = inr buffer ->
  exists resolved_path, fst (ResolveSdPath MaxResolvedPathBytes path w) = inr resolved_path.
Proof.
  intros Hw. unfold ReadTextFile. rewrite bind_unless. destruct (negb (capacity =? 0)%nat); [|done]. rewrite bind_fs.
  destruct (ResolveSdPath _ _ w) as [ [error|resolved_path] w1]; [done|]. intros _. by exists resolved_path.
Qed.

(** Loading a file from a mounted card changes nothing; it gives the entry that the
    file's text configures. *)
Lemma LoadConnectionFile_mounted candidate w : mounted w ->
  snd (LoadConnectionFile candidate w) = w /\
  forall entry, fst (LoadConnectionFile candidate w) = Some entry <-> exists text,
    file_text w (cd_file_name candidate) = Some text /\ configures text (cd_peer_name candidate) entry.
Proof.
  intros Hw. unfold LoadConnectionFile, file_text. rewrite bind_try_opt.
  destruct (BuildConfigPath _ _) as [path|]; [|split; [done|]; intros entry; split; [done|by intros (? & ? & ?)] ].
  cbn [mbind option_bind]. rewrite bind_attempt by (done || apply reading_ResolveSdPath).
  destruct (fst (ResolveSdPath _ _ w)) as [error|resolved] eqn:Eres.
  { split; [done|]. intros entry. split; [done|]. intros (text & E & _).
    destruct (fst (ReadTextFile _ _ w)) as [|buffer] eqn:Er; [done|].
    destruct (ReadTextFile_resolves _ _ _ _ Hw Er) as [? E']. by rewrite Eres in E'. }
  rewrite bind_attempt by (done || apply reading_ReadTextFile).
  destruct (fst (ReadTextFile _ _ w)) as [|buffer]; [split; [done|]; intros entry; split; [done|by intros (? & ? & ?)]|].
  assert (forall entry, (exists text, Some (c_string buffer) = Some text /\ configures text (cd_peer_name candidate) entry) <->
    configures (c_string buffer) (cd_peer_name candidate) entry) as Hone.
  { intros entry. split; [by intros (text & [= <-] & ?)|by exists (c_string buffer)]. }
  rewrite bind_require. destruct (layout_IsValid _) eqn:El.
  2: { split; [done|]. intros entry. rewrite Hone. split; [done|]. intros [E _ _]. by rewrite El in E. }
  rewrite bind_try_opt. destruct (ParseString _ _) as [ctx|] eqn:Ep.
  2: { split; [done|]. intros entry. rewrite Hone. split; [done|]. intros [_ Em (ctx & Hf & _)].
       pose proof (proj2 (ParseString_fields _ _) (conj Em Hf)) as Ep'. by rewrite Ep in Ep'. }
  rewrite bind_require. destruct (required_fields ctx) eqn:Er; (split; [done|]); intros entry; rewrite Hone.
  - apply ParseString_fields in Ep as [Em Hf]. split.
    + intros [= <-]. split; [done|done|]. by exists ctx.
    + intros [_ _ (ctx' & Hf' & _ & ->)]. by rewrite (fields_unique _ _ _ Hf' Hf).
  - split; [done|]. intros [_ Em (ctx' & Hf' & Er' & _)].
    apply ParseString_fields in Ep as [_ Hf]. by rewrite (fields_unique _ _ _ Hf' Hf), Er in Er'.
Qed.

(** ** All of them *)

Definition loaded (w : FsWorld) (candidate : ConfigFileCandidate) : option PeerConfigEntry :=
  fst (LoadConnectionFile candidate w).
Lemma load_loop_mounted candidates peers w : mounted w ->
  load_loop candidates peers w = (Some (peers ++ omap (loaded w) candidates), w).
Proof.
  intros Hw. revert peers. induction candidates as [|c candidates IH]; intros peers; cbn [load_loop omap list_omap].
  { by rewrite app_nil_r. }
  change (list_omap _ _ (loaded w) candidates) with (omap (loaded w) candidates). unfold loaded at 1.
  destruct (LoadConnectionFile_mounted c w Hw) as [Ew _].
  destruct (LoadConnectionFile c w) as [ [entry|] w1]; cbn [fst snd] in *; subst w1; rewrite IH; [by rewrite <- app_assoc|done].
Qed.

(** The place of an absolute path on the card. *)
Definition on_card (path : bytes) : bytes := SdMountName ++ chars ":" ++ path.
Lemma ResolveSdPath_card capacity path w resolved_path : mounted w -> char ":" ∉ path ->
  fst (ResolveSdPath capacity path w) = inr resolved_path -> resolved_path = on_card path.
Proof.
  intros Hw Hp. unfold ResolveSdPath. rewrite bind_unless. destruct (negb (capacity =? 0)%nat); [|done].
  rewrite bind_unless. destruct (negb (length path =? 0)%nat); [|done].
  rewrite bind_fs, EnsureReady_mounted, (bool_decide_eq_false_2 _ Hp), bind_unless by done.
  destruct (char_at path =? _); [|done]. rewrite bind_unless. destruct (fits_buffer _ _); [|done]. by intros [= <-].
Qed.

Lemma no_colon : char ":" ∉ ConfigPath.
Proof. apply (bool_decide_eq_false_1 (char ":" ∈ ConfigPath)). by vm_compute. Qed.
Lemma bind_EnsureReady {A} (k : unit -> M FsWorld A) w :
  (attempt EnsureReady ≫= k) w = match EnsureReady w with (inr _, w') => k tt w' | (inl _, w') => (None, w') end.
Proof. unfold attempt, mbind, M_bind. by destruct (EnsureReady w) as [ [?|[] ] w']. Qed.

(** The result on a mounted card, which the loading leaves as it is. *)
Lemma LoadPeerConfig_mounted w : mounted w ->
  LoadPeerConfig w =
    (match fst (ResolveSdPath MaxResolvedPathBytes ConfigPath w) with
     | inl _ => None
     | inr _ =>
         match OpenDirectory (on_card ConfigPath) (fs_files w) with
         | inl error => if bool_decide (error = ResultPathNotFound) then Some [] else None
         | inr directory =>
             match ReadDirectory directory (fs_files w) with
             | (entries, None) => Some (omap (loaded w) (sort_candidates (candidate_loop entries [])))
             | (_, Some _) => None
             end
         end
     end, w).
Proof.
  intros Hw. unfold LoadPeerConfig. rewrite bind_EnsureReady, EnsureReady_mounted by done.
  rewrite bind_attempt by (done || apply reading_ResolveSdPath).
  destruct (fst (ResolveSdPath _ _ w)) as [error|path] eqn:Ep; [done|].
  apply ResolveSdPath_card in Ep as ->; [|done|apply no_colon]. rewrite bind_gets.
  destruct (OpenDirectory _ _) as [error|directory]; [by destruct (bool_decide _)|].
  rewrite bind_gets. destruct (ReadDirectory directory (fs_files w)) as [entries [error|] ]; rewrite bind_require; [done|].
  by rewrite bool_decide_eq_true_2, load_loop_mounted by done.
Qed.
Lemma LoadPeerConfig_mounts w :
  LoadPeerConfig w = match EnsureReady w with (inr _, w') => LoadPeerConfig w' | (inl _, w') => (None, w') end.
Proof.
  unfold LoadPeerConfig at 1. rewrite bind_EnsureReady. destruct (EnsureReady w) as [ [error|[] ] w1] eqn:E; [done|].
  unfold LoadPeerConfig. by rewrite (bind_EnsureReady _ w1), (EnsureReady_mounted w1) by by eapply EnsureReady_mounts.
Qed.
Lemma omap_length {A B} (f : A -> option B) l : (length (omap f l) <= length l)%nat.
Proof. induction l as [|a l IH]; [done|]. cbn. destruct (f a); cbn; apply le_n_S || apply le_S; exact IH. Qed.
Lemma LoadPeerConfig_count w peers w' : LoadPeerConfig w = (Some peers, w') -> (length peers <= MaxConfigFiles)%nat.
Proof.
  rewrite LoadPeerConfig_mounts. destruct (EnsureReady w) as [ [error|[] ] w1] eqn:Em; [done|].
  rewrite LoadPeerConfig_mounted by by eapply EnsureReady_mounts. destruct (fst _); [done|].
  destruct (OpenDirectory _ _) as [error|directory]; [destruct (bool_decide _); [by intros [= <- _]; cbn; lia|done]|].
  destruct (ReadDirectory _ _) as [entries [error|] ]; [done|]. intros [= <- _].
  etransitivity; [apply omap_length|]. destruct (sort_candidates_sorts (candidate_loop entries [])) as [Hp _]. rewrite (Permutation_length Hp).
  rewrite candidate_loop_spec by (cbn; lia). rewrite length_take. lia.
Qed.

(** Why no peers are loaded. *)
Inductive load_failure (w w' : FsWorld) : Prop :=
  | failure_mount error : EnsureReady w = (inl error, w') -> load_failure w w'
  | failure_path error : fst (ResolveSdPath MaxResolvedPathBytes ConfigPath w') = inl error -> load_failure w w'
  | failure_open error : OpenDirectory (on_card ConfigPath) (fs_files w') = inl error -> error <> ResultPathNotFound ->
      load_failure w w'
  | failure_read directory entries error : OpenDirectory (on_card ConfigPath) (fs_files w') = inr directory ->
      ReadDirectory directory (fs_files w') = (entries, Some error) -> load_failure w w'.

(** C24. Loading the peers.  If the card is mounted and the configuration directory can
    be read (or does not exist: no peers), the peers are those of its first eight
    candidates, in the order of their file names, whose files configure one; a
    candidate is a file called [<name>.conf] with a name of 1 to 31 characters.  A file
    that does not configure a peer is skipped and does not make the loading fail. *)
Theorem loaded_peers_exact w :
  match LoadPeerConfig w with
  | (None, w') => load_failure w w'
  | (Some peers, w') =>
      mounted w' /\
      ((OpenDirectory (on_card ConfigPath) (fs_files w') = inl ResultPathNotFound /\ peers = []) \/
       exists directory entries sorted,
         OpenDirectory (on_card ConfigPath) (fs_files w') = inr directory /\
         ReadDirectory directory (fs_files w') = (entries, None) /\
         sorted ≡ₚ take MaxConfigFiles (omap candidate_of entries) /\ StronglySorted candidate_le sorted /\
         peers = omap (loaded w') sorted) /\
      forall candidate peer, loaded w' candidate = Some peer <-> exists text,
        file_text w' (cd_file_name candidate) = Some text /\ configures text (cd_peer_name candidate) peer
  end.
Proof.
  rewrite LoadPeerConfig_mounts. destruct (EnsureReady w) as [ [error|[] ] w1] eqn:Em; [by eapply failure_mount|].
  pose proof (EnsureReady_mounts _ _ Em) as Hw. rewrite LoadPeerConfig_mounted by done.
  assert (forall candidate peer, loaded w1 candidate = Some peer <-> exists text,
        file_text w1 (cd_file_name candidate) = Some text /\ configures text (cd_peer_name candidate) peer) as Hl.
  { intros candidate. by destruct (LoadConnectionFile_mounted candidate w1 Hw). }
  destruct (fst (ResolveSdPath _ _ w1)) as [error|path] eqn:Ep; [by eapply failure_path|].
  destruct (OpenDirectory _ _) as [error|directory] eqn:Eo.
  - destruct (bool_decide (error = ResultPathNotFound)) eqn:Ee; bool_prop; [|by eapply failure_open].
    subst error. split; [done|]. split; [by left|exact Hl].
  - destruct (ReadDirectory directory (fs_files w1)) as [entries [error|] ] eqn:Er; [by eapply failure_read|].
    split; [done|]. split; [|exact Hl]. right. exists directory, entries, (sort_candidates (candidate_loop entries [])).
    destruct (sort_candidates_sorts (candidate_loop entries [])) as [Hp Hs].
    rewrite candidate_loop_spec in Hp |- * by (cbn; lia). by rewrite candidate_loop_spec in Hs by (cbn; lia).
Qed.

(** ** The name of the peer that is started *)

(** Where an absolute path of the code is, if the buffer holds it. *)
Definition resolve (path : bytes) : FsError + bytes :=
  if negb (MaxResolvedPathBytes =? 0)%nat then
    if fits_buffer MaxResolvedPathBytes (on_card path) then inr (on_card path) else inl ResultTooLongPath
  else inl ResultInvalidSize.
Lemma ResolveSdPath_mounted path w : mounted w -> char ":" ∉ path -> char_at path = char "/" ->
  ResolveSdPath MaxResolvedPathBytes path w = (resolve path, w).
Proof.
  intros Hw Hp Hc. unfold ResolveSdPath, resolve. rewrite bind_unless. destruct (negb (MaxResolvedPathBytes =? 0)%nat); [|done].
  rewrite bind_unless. destruct path as [|c path]; [done|]. cbn [length Nat.eqb negb].
  rewrite bind_fs, EnsureReady_mounted, (bool_decide_eq_false_2 _ Hp), bind_unless, Hc, Z.eqb_refl by done.
  rewrite bind_unless. by destruct (fits_buffer _ _).
Qed.
Lemma no_colon_autostart : char ":" ∉ AutoStartPath.
Proof. apply (bool_decide_eq_false_1 (char ":" ∈ AutoStartPath)). by vm_compute. Qed.
Definition ResolveAutoStart w (Hw : mounted w) := ResolveSdPath_mounted AutoStartPath w Hw no_colon_autostart eq_refl.

(** The store of a name, on a card that is mounted when the directories are there. *)
Lemma ResolveSdPath_mounts capacity path w resolved_path w' :
  ResolveSdPath capacity path w = (inr resolved_path, w') -> mounted w'.
Proof.
  unfold ResolveSdPath. rewrite bind_unless. destruct (negb (capacity =? 0)%nat); [|done].
  rewrite bind_unless. destruct (negb (length path =? 0)%nat); [|done]. rewrite bind_fs.
  destruct (EnsureReady w) as [ [error|[] ] w1] eqn:Em; [done|]. apply EnsureReady_mounts in Em.
  destruct (bool_decide _); rewrite !bind_unless.
  - destruct (fits_buffer _ _); [|done]. by intros [= _ <-].
  - destruct (char_at path =? _); [|done]. destruct (fits_buffer _ _); [|done]. by intros [= _ <-].
Qed.
Lemma fs_change_mounted call w : mounted w -> mounted (snd (fs_change call w)).
Proof. unfold fs_change. by destruct (call (fs_files w)) as [error files]. Qed.
Lemma catching_snd caught m w : snd (catching caught m w) = snd (m w).
Proof. unfold catching. by destruct (m w) as [ [error|[] ] w1]. Qed.
Lemma EnsureDirectoryExists_mounts path w w' : EnsureDirectoryExists path w = (inr tt, w') -> mounted w'.
Proof.
  unfold EnsureDirectoryExists. rewrite bind_fs. destruct (ResolveSdPath _ _ _) as [ [error|resolved] w1] eqn:E; [done|].
  apply ResolveSdPath_mounts in E. intros H. apply (f_equal snd) in H. rewrite catching_snd in H. cbn in H. subst w'.
  by apply fs_change_mounted.
Qed.

(** What the library promises about files: [content] is the text of the file at a
    path, [file_path] the path that a handle was opened with. *)
Class FilesystemLaws := {
  content : FileSystem -> bytes -> option bytes;
  file_path : FileHandle -> bytes;
  open_path path mode files file : OpenFile path mode files = inr file -> file_path file = path;
  open_missing path mode files : content files path = None -> exists error, OpenFile path mode files = inl error;
  open_present path mode files text : content files path = Some text -> exists file, OpenFile path mode files = inr file;
  size_content file files text : content files (file_path file) = Some text ->
    GetFileSize file files = inr (Z.of_nat (length text));
  read_content file files text : content files (file_path file) = Some text ->
    ReadFile file 0 (length text) files = inr text;
  resize_content file files size files' : SetFileSize file size files = (None, files') ->
    exists text, content files' (file_path file) = Some text /\ Z.of_nat (length text) = size;
  write_content file files text offset src files' : content files (file_path file) = Some text ->
    WriteFile file offset src files = (None, files') ->
    content files' (file_path file) = Some (write_at text (Z.to_nat offset) src);
  delete_content path files error files' : DeleteFile path files = (error, files') ->
    error = None \/ error = Some ResultPathNotFound -> content files' path = None
}.
Context {Laws : FilesystemLaws}.

Lemma WriteTextFile_content path src w w' : mounted w -> char ":" ∉ path -> char_at path = char "/" -> src <> [] ->
  WriteTextFile path src w = (inr tt, w') ->
  mounted w' /\ resolve path = inr (on_card path) /\ content (fs_files w') (on_card path) = Some src.
Proof.
  intros Hw Hp Hc Hsrc. unfold WriteTextFile. rewrite bind_fs, ResolveSdPath_mounted by done.
  unfold resolve. destruct (negb _); [|done]. destruct (fits_buffer _ _); [|done]. rewrite bind_fs.
  destruct (catching _ _ w) as [ [error|[] ] w1] eqn:Ec; [done|].
  assert (mounted w1) as Hw1.
  { apply (f_equal snd) in Ec. rewrite catching_snd in Ec. cbn in Ec. subst w1. by apply fs_change_mounted. }
  clear Ec. rewrite bind_fs. unfold fs_read at 1. destruct (OpenFile _ _ (fs_files w1)) as [error|file] eqn:Eo; [done|].
  apply open_path in Eo. rewrite bind_fs. unfold fs_change at 1.
  destruct (SetFileSize _ _ (fs_files w1)) as [ [error|] files2] eqn:Es; [done|].
  apply resize_content in Es as (text & Et & El). rewrite Eo in Et.
  destruct src as [|c src]; [done|]. cbn [length Nat.eqb negb].
  unfold fs_change. cbn [fs_files]. destruct (WriteFile _ _ _ _) as [ [error|] files3] eqn:Ew; [done|].
  intros [= <-]. split; [exact Hw1|]. split; [done|]. change (content files3 (on_card path) = Some (c :: src)).
  rewrite <- Eo in Et |- *. rewrite (write_content _ _ _ _ _ _ Et Ew). f_equal. unfold write_at. cbn [Z.to_nat take].
  rewrite drop_ge by (cbn [length] in *; lia). by rewrite app_nil_r.
Qed.

Lemma read_autostart w text : mounted w -> resolve AutoStartPath = inr (on_card AutoStartPath) ->
  content (fs_files w) (on_card AutoStartPath) = Some text -> (length text <= MaxAutoStartBytes)%nat ->
  ReadTextFile AutoStartPath (MaxAutoStartBytes + 1) w = (inr text, w).
Proof.
  intros Hw Er Et Hl. unfold ReadTextFile. rewrite bind_unless. cbn [negb Nat.eqb MaxAutoStartBytes PeerNameCapacity Nat.add].
  rewrite bind_fs, ResolveAutoStart, Er by done. rewrite bind_fs. unfold fs_read at 1.
  destruct (open_present _ OpenMode_Read _ _ Et) as [file Eo]. rewrite Eo. apply open_path in Eo. rewrite <- Eo in Et.
  rewrite bind_fs. unfold fs_read at 1. rewrite (size_content _ _ _ Et). rewrite bind_unless.
  rewrite (proj2 (Z.leb_le _ _)) by lia. cbv zeta. rewrite bind_unless, Nat2Z.id.
  rewrite (proj2 (Nat.ltb_lt _ _)) by (unfold MaxAutoStartBytes, PeerNameCapacity in *; lia).
  destruct (Nat.ltb_spec 0 (length text)).
  - unfold fs_read. by rewrite (read_content _ _ _ Et).
  - by destruct text; [|cbn in *; lia].
Qed.

Lemma DeleteFileIfExists_content path w w' : mounted w -> char ":" ∉ path -> char_at path = char "/" ->
  DeleteFileIfExists path w = (inr tt, w') ->
  mounted w' /\ resolve path = inr (on_card path) /\ content (fs_files w') (on_card path) = None.
Proof.
  intros Hw Hp Hc. unfold DeleteFileIfExists. rewrite bind_fs, ResolveSdPath_mounted by done.
  unfold resolve. destruct (negb _); [|done]. destruct (fits_buffer _ _); [|done].
  unfold catching, fs_change. destruct (DeleteFile _ _) as [error files] eqn:Ed. pose proof (delete_content _ _ _ _ Ed) as Hd.
  destruct error as [error|].
  - destruct (bool_decide (error = ResultPathNotFound)) eqn:Ee; [|done]. apply bool_decide_eq_true in Ee as ->.
    intros [= <-]. split; [exact Hw|]. split; [done|]. apply Hd. by right.
  - intros [= <-]. split; [exact Hw|]. split; [done|]. apply Hd. by left.
Qed.
Lemma read_no_autostart w : mounted w -> resolve AutoStartPath = inr (on_card AutoStartPath) ->
  content (fs_files w) (on_card AutoStartPath) = None ->
  exists error, ReadTextFile AutoStartPath (MaxAutoStartBytes + 1) w = (inl error, w).
Proof.
  intros Hw Er Et. unfold ReadTextFile. rewrite bind_unless. cbn [negb Nat.eqb MaxAutoStartBytes PeerNameCapacity Nat.add].
  rewrite bind_fs, ResolveAutoStart, Er by done. rewrite bind_fs. unfold fs_read at 1.
  destruct (open_missing _ OpenMode_Read _ Et) as [error ->]. by exists error.
Qed.

(** The name without the blanks at its ends. *)
Definition trimmed_name (name : bytes) : bytes := drop_while is_name_space (drop_while_end is_name_end name).
Lemma trimmed_name_length name : (length (trimmed_name name) <= length name)%nat.
Proof. unfold trimmed_name. etransitivity; [apply drop_while_length|apply drop_while_end_length]. Qed.
(** A name that neither begins nor ends with a blank. *)
Definition plain_name (name : bytes) : Prop :=
  is_name_space (char_at name) = false /\ is_name_end (char_at (reverse name)) = false.
Lemma plain_name_trimmed name : plain_name name -> trimmed_name name = name.
Proof.
  intros [Hf He]. unfold trimmed_name, drop_while_end.
  rewrite (drop_while_same is_name_end) by by destruct (reverse name).
  rewrite reverse_involutive, drop_while_same; [done|]. by destruct name.
Qed.

Lemma stored_name name w w' : StoreAutoStartPeerName name w = (inr tt, w') ->
  mounted w' /\ resolve AutoStartPath = inr (on_card AutoStartPath) /\
  content (fs_files w') (on_card AutoStartPath) = match name with Some (_ :: _) => name | _ => None end /\
  (length (default [] name) < PeerNameCapacity)%nat.
Proof.
  unfold StoreAutoStartPeerName. rewrite bind_fs. destruct (EnsureDirectoryExists _ w) as [ [error|[] ] w1]; [done|].
  rewrite bind_fs. destruct (EnsureDirectoryExists _ w1) as [ [error|[] ] w2] eqn:E2; [done|].
  apply EnsureDirectoryExists_mounts in E2.
  assert (DeleteFileIfExists AutoStartPath w2 = (inr tt, w') -> mounted w' /\
    resolve AutoStartPath = inr (on_card AutoStartPath) /\ content (fs_files w') (on_card AutoStartPath) = None) as Hdelete.
  { by apply DeleteFileIfExists_content, eq_refl; [|apply no_colon_autostart]. }
  destruct name as [ [|c name]|]; cbn [default].
  - intros H. destruct (Hdelete H) as (? & ? & ?). split_and!; [done..|]. unfold PeerNameCapacity. cbn. lia.
  - rewrite bind_unless. destruct (Nat.ltb_spec (length (c :: name)) PeerNameCapacity); [|done]. intros H1.
    destruct (WriteTextFile_content AutoStartPath (c :: name) w2 w' E2 no_colon_autostart eq_refl ltac:(done) H1) as (? & ? & ?). by split_and!.
  - intros H. destruct (Hdelete H) as (? & ? & ?). split_and!; [done..|]. unfold PeerNameCapacity. cbn. lia.
Qed.

(** The name of the peer to start survives a restart: after a store that succeeded,
    loading gives the stored name without the blanks at its ends, and no name if none
    (or an empty or blank one) was stored. *)
Theorem autostart_roundtrip name w w' : StoreAutoStartPeerName name w = (inr tt, w') ->
  LoadAutoStartPeerName PeerNameCapacity w' =
    (name ← name; if bool_decide (trimmed_name name = []) then None else Some (trimmed_name name), w') /\
  (forall text, name = Some text -> plain_name text -> text <> [] ->
     fst (LoadAutoStartPeerName PeerNameCapacity w') = name).
Proof.
  intros Hs. destruct (stored_name _ _ _ Hs) as (Hw & Er & Et & Hl).
  assert (LoadAutoStartPeerName PeerNameCapacity w' =
    (name ← name; if bool_decide (trimmed_name name = []) then None else Some (trimmed_name name), w')) as E.
  { unfold LoadAutoStartPeerName. rewrite bind_require. cbn [PeerNameCapacity Nat.eqb negb].
    rewrite bind_attempt by (done || apply reading_ReadTextFile).
    destruct name as [ [|c name]|]; cbn [mbind option_bind default] in *.
    1, 3: destruct (read_no_autostart w' Hw Er Et) as [error ->]; done.
    change (length (c :: name) < PeerNameCapacity)%nat in Hl.
    rewrite (read_autostart w' (c :: name)) by (done || unfold MaxAutoStartBytes; lia). cbn [fst]. fold (trimmed_name (c :: name)).
    rewrite bind_require. pose proof (trimmed_name_length (c :: name)) as Htl.
    destruct (trimmed_name (c :: name)) as [|d text]; [done|].
    change (negb (length (d :: text) =? 0)%nat) with true. cbv iota. rewrite bind_require.
    by rewrite (proj2 (Nat.ltb_lt (length (d :: text)) PeerNameCapacity)) by lia. }
  split; [exact E|]. intros text -> Hp Hne. rewrite E. cbn [fst mbind option_bind]. rewrite plain_name_trimmed by done.
  by rewrite bool_decide_eq_false_2.
Qed.

(** ** The loaded configuration *)

(** The index of the last peer that has the name, or -1. *)
Definition auto_start_index (auto_start_name : option bytes) (parsed : list PeerConfigEntry) (index : Z) : Prop :=
  let named i := exists name entry, auto_start_name = Some name /\ parsed !! i = Some entry /\
    strncmp_equal (cf_name entry) name PeerNameCapacity = true in
  (index = -1 /\ forall i, ~ named i) \/ (exists i : nat, index = Z.of_nat i /\ named i /\ forall j, named j -> (j <= i)%nat).

Lemma auto_start_index_snoc name parsed entry index : auto_start_index name parsed index ->
  auto_start_index name (parsed ++ [entry])
    match name with
    | Some text => if strncmp_equal (cf_name entry) text PeerNameCapacity then Z.of_nat (length parsed) else index
    | None => index
    end.
Proof.
  assert (forall i e, (parsed ++ [entry]) !! i = Some e <-> parsed !! i = Some e \/ (i = length parsed /\ e = entry)) as Hlook.
  { intros i e. rewrite lookup_app_Some, list_lookup_singleton_Some. split; [intros [?|[? [? ->] ] ]; [by left|right; split; [lia|done] ]|].
    intros [?|[-> ->] ]; [by left|right; split; [done|split; [lia|done] ] ]. }
  unfold auto_start_index. intros H. destruct name as [text|].
  2: { destruct H as [ [-> _]|(i & _ & (? & ? & [=] & _) & _)]. left. split; [done|]. by intros i (? & ? & [=] & _). }
  destruct (strncmp_equal (cf_name entry) text PeerNameCapacity) eqn:E.
  - right. exists (length parsed). split; [done|]. split; [exists text, entry; split; [done|]; split; [apply Hlook; by right|done] |].
    intros j (name & e & _ & Hj & _). apply Hlook in Hj as [Hj|[-> _] ]; [|done]. apply lookup_lt_Some in Hj. lia.
  - destruct H as [ [-> Hnone]|(i & -> & (name & e & Hname & Hi & He) & Hmax)].
    + left. split; [done|]. intros i (name & e & [= <-] & Hi & He). apply Hlook in Hi as [Hi|[-> ->] ]; [|congruence].
      apply (Hnone i). by exists text, e.
    + right. exists i. split; [done|]. split; [exists name, e; split; [done|]; split; [apply Hlook; by left|done] |].
      intros j (name' & e' & [= <-] & Hj & He'). apply Hlook in Hj as [Hj|[-> ->] ]; [|congruence]. apply Hmax. by exists text, e'.
Qed.
Lemma derive_peers name parsed :
  let out := foldl (derive_peer name) (mk_loaded [] [] (-1)) parsed in
  ld_peers out = ClearEncodedSecrets <$> parsed /\ ld_derived out = (fun entry => fst (DeriveSecrets entry)) <$> parsed /\
  auto_start_index name parsed (ld_auto_start_peer_index out).
Proof.
  induction parsed as [|entry parsed IH] using rev_ind; cbv zeta in *.
  { split; [done|]. split; [done|]. left. split; [done|]. by intros i (? & ? & _ & ? & _). }
  rewrite foldl_app. cbn [foldl]. destruct IH as (Ep & Ed & Hindex). set (out := foldl _ _ _) in *. clearbody out.
  assert (snd (DeriveSecrets entry) = ClearEncodedSecrets entry) as Esnd.
  { unfold DeriveSecrets. cbv zeta. by destruct (if bool_decide _ then _ else _) as [has_derived text]. }
  unfold derive_peer. destruct (DeriveSecrets entry) as [derived cleared] eqn:E. cbn in Esnd. subst cleared.
  pose proof (auto_start_index_snoc name parsed entry _ Hindex) as Hnext. rewrite !fmap_app. cbn [fmap list_fmap]. rewrite E.
  cbn [fst]. rewrite <- Ep, <- Ed. assert (length (ld_peers out) = length parsed) as El by by rewrite Ep, length_fmap.
  rewrite <- El in Hnext. change (cf_name (ClearEncodedSecrets entry)) with (cf_name entry).
  destruct name as [text|]; [destruct (strncmp_equal _ _ _)|]; by split_and!.
Qed.

(** What the derived values of an entry say. *)
Record derives (entry : PeerConfigEntry) (derived : PeerConfigDerivedInfo) : Prop := {
  dv_valid : de_secrets_valid derived = true ->
    noise_parse_private_key (c_string (cf_private_key entry)) = Some (de_local_private_key derived) /\
    (c_string (cf_preshared_key entry) = [] \/
     noise_parse_preshared_key (c_string (cf_preshared_key entry)) = Some (de_preshared_key derived));
  dv_invalid : de_secrets_valid derived = false ->
    noise_parse_private_key (c_string (cf_private_key entry)) = None \/
    (c_string (cf_preshared_key entry) <> [] /\ noise_parse_preshared_key (c_string (cf_preshared_key entry)) = None);
  dv_preshared : de_has_preshared_key derived = true <->
    is_Some (noise_parse_preshared_key (c_string (cf_preshared_key entry)));
  dv_public : de_has_derived_public_key derived = true -> exists private_key,
    noise_parse_private_key (c_string (cf_private_key entry)) = Some private_key /\
    noise_derive_public_key_text (zeros 64) private_key = (true, de_derived_public_key derived)
}.
Lemma c_string_empty text : (char_at text =? 0) = true <-> c_string text = [].
Proof. destruct text as [|c text]; [done|]. unfold char_at. cbn. by destruct (c =? 0). Qed.
Lemma DeriveSecrets_derives entry : derives entry (fst (DeriveSecrets entry)).
Proof.
  pose proof (c_string_empty (cf_preshared_key entry)) as He. unfold DeriveSecrets. cbv zeta.
  assert (c_string (cf_preshared_key entry) = [] ->
    noise_parse_preshared_key (c_string (cf_preshared_key entry)) = None) as Hpsk by by intros ->.
  destruct (char_at (cf_preshared_key entry) =? 0); cbn [negb].
  - assert (c_string (cf_preshared_key entry) = []) as Enil by by apply He. rewrite Enil in *.
    destruct (noise_parse_private_key _) as [key|] eqn:Ek; cbn [bool_decide].
    + rewrite bool_decide_eq_true_2 by done. cbn [default from_option id]. cbv iota.
      destruct (noise_derive_public_key_text (zeros 64) key) as [has text] eqn:Et.
      split; cbn; rewrite ?Ek, ?Enil; [intros _; split; [done|by left]|done|split; [done|by intros [? ?] ]|].
      intros ->. by exists key.
    + rewrite bool_decide_eq_false_2 by by intros [? ?].
      split; cbn; rewrite ?Ek, ?Enil; [done|by left|split; [done|by intros [? ?] ]|done].
  - assert (c_string (cf_preshared_key entry) <> []) as Hne by by intros E; apply He in E.
    destruct (noise_parse_preshared_key _) as [psk|] eqn:Es, (noise_parse_private_key _) as [key|] eqn:Ek;
      rewrite ?(bool_decide_eq_true_2 (is_Some (Some _))), ?(bool_decide_eq_false_2 (is_Some None)) by (done || by intros [? ?]);
      cbn [default from_option id]; cbv iota; try destruct (noise_derive_public_key_text (zeros 64) key) as [has text] eqn:Et;
      split; cbn; rewrite ?Es, ?Ek; (done || eauto || naive_solver).
Qed.

(** C25. The configuration that the daemon starts with: the peers of [LoadPeerConfig] in
    their order without the texts of their secret keys, and for each the values derived
    from its keys, which are valid exactly if the private key and, where there is one,
    the preshared key can be read; the peer to start is the last with the loaded name. *)
Theorem loaded_configuration w :
  let '(name, w1) := LoadAutoStartPeerName PeerNameCapacity w in
  match LoadPeerConfig w1, Load w with
  | (None, w2), (out, w') => out = None /\ w' = w2
  | (Some parsed, w2), (None, w') => False
  | (Some parsed, w2), (Some out, w') => w' = w2 /\
      ld_peers out = ClearEncodedSecrets <$> parsed /\ Forall2 derives parsed (ld_derived out) /\
      Forall (fun peer => cf_private_key peer = zeros 64 /\ cf_preshared_key peer = zeros 64) (ld_peers out) /\
      auto_start_index name parsed (ld_auto_start_peer_index out)
  end.
Proof.
  unfold Load. destruct (LoadAutoStartPeerName _ w) as [name w1]. destruct (LoadPeerConfig w1) as [ [parsed|] w2]; [|done].
  destruct (derive_peers name parsed) as (Ep & Ed & Hi). split; [done|]. split; [exact Ep|]. split; [|split; [|exact Hi] ].
  - rewrite Ed. apply Forall2_fmap_r, Forall_Forall2_diag, Forall_forall. intros entry _. apply DeriveSecrets_derives.
  - rewrite Ep. apply Forall_fmap, Forall_forall. by intros entry _.
Qed.

End Loader.

(** ** A file system in memory *)

(** A card with these directory entries, and its files by their paths. *)
Definition memory_files (entries : list DirectoryEntry) : Filesystem := {|
  FileSystem := gmap bytes bytes;
  FileHandle := bytes;
  DirectoryHandle := unit;
  MountNameLengthMax := 15;
  EntryNameLengthMax := 768;
  MountSdCard _ files := (None, files);
  OpenDirectory _ _ := inr tt;
  ReadDirectory _ _ := (entries, None);
  OpenFile path _ files := match files !! path with Some _ => inr path | None => inl ResultPathNotFound end;
  GetFileSize file files :=
    match files !! file with Some text => inr (Z.of_nat (length text)) | None => inl (ResultOther 0) end;
  ReadFile file offset size files :=
    match files !! file with Some text => inr (subspan text (Z.to_nat offset) size) | None => inl (ResultOther 0) end;
  CreateFile path size files :=
    match files !! path with
    | Some _ => (Some ResultPathAlreadyExists, files)
    | None => (None, <[path := zeros (Z.to_nat size)]> files)
    end;
  SetFileSize file size files :=
    if size <? 0 then (Some ResultInvalidSize, files)
    else (None, <[file := resize (Z.to_nat size) 0 (default [] (files !! file))]> files);
  WriteFile file offset src files := (None, alter (fun text => write_at text (Z.to_nat offset) src) file files);
  FlushFile _ files := (None, files);
  DeleteFile path files :=
    match files !! path with Some _ => (None, delete path files) | None => (Some ResultPathNotFound, files) end;
  CreateDirectory _ files := (None, files)
|}.
Program Definition memory_laws entries : @FilesystemLaws (memory_files entries) := {|
  content := fun files path => files !! path;
  file_path := fun file => file
|}.
Next Obligation. cbn. intros entries path mode files file H. destruct (files !! path); congruence. Qed.
Next Obligation. cbn. intros entries path mode files ->. by exists ResultPathNotFound. Qed.
Next Obligation. cbn. intros entries path mode files text ->. by exists path. Qed.
Next Obligation. cbn. by intros entries file files text ->. Qed.
Next Obligation. cbn. intros entries file files text ->. unfold subspan. cbn. by rewrite firstn_all. Qed.
Next Obligation.
  cbn. intros entries file files size files'. destruct (Z.ltb_spec size 0); [done|]. intros [= <-].
  eexists. rewrite lookup_insert_eq, length_resize. split; [done|lia].
Qed.
Next Obligation. cbn. intros entries file files text offset src files' H [= <-]. by rewrite lookup_alter_eq, H. Qed.
Next Obligation.
  cbn. intros entries path files error files'. destruct (files !! path) eqn:E; intros [= <- <-] H; [apply lookup_delete_eq|done].
Qed.

Definition memory (files : gmap bytes bytes) : @FsWorld (memory_files []) := @mk_fs (memory_files []) false false files.
Lemma autostart_roundtrip_witness : exists w',
  @StoreAutoStartPeerName (memory_files []) (Some (chars "home")) (memory ∅) = (inr tt, w') /\
  fst (@LoadAutoStartPeerName (memory_files []) PeerNameCapacity w') = Some (chars "home").
Proof.
  assert (R : fst (@StoreAutoStartPeerName (memory_files []) (Some (chars "home")) (memory ∅)) = inr tt)
    by (vm_compute; reflexivity).
  destruct (@StoreAutoStartPeerName (memory_files []) (Some (chars "home")) (memory ∅)) as [result w'] eqn:E.
  exists w'. cbn [fst] in R. subst result. split; [reflexivity|].
  apply (proj2 (@autostart_roundtrip (memory_files []) (memory_laws []) _ _ _ E) (chars "home")); [reflexivity| |discriminate].
  split; reflexivity.
Defined.

(** A peer whose name ends with a blank, from a file [home .conf], is not found again. *)
Lemma blank_name_lost :
  (let '(result, w') := @StoreAutoStartPeerName (memory_files []) (Some (chars "home ")) (memory ∅) in
   (result, fst (@LoadAutoStartPeerName (memory_files []) PeerNameCapacity w'))) = (inr tt, Some (chars "home")) /\
  strncmp_equal (print_name (chars "home ")) (chars "home") PeerNameCapacity = false.
Proof. split; vm_compute; reflexivity. Qed.

(** ** An example *)

(** A parser for sections and lines [name=value]. *)
Fixpoint simple_entries (section : bytes) (lines : list bytes) : list IniEntry :=
  match lines with
  | [] => []
  | line :: lines =>
      match line_kind line with
      | Line_Section name => simple_entries name lines
      | _ => match split_at (char "=") line with
             | Some (name, value) => mk_ini section name value :: simple_entries section lines
             | None => simple_entries section lines
             end
      end
  end.
Definition simple_ini : IniParser := Build_IniParser (fun text => simple_entries [] (lines_of text)) (fun _ => false).
Definition text_of (lines : list string) : bytes := concat (map (fun line => chars line ++ [newline]) lines).
Definition home_text : bytes := text_of ["[Interface]"; "PrivateKey=k"; "Address=10.0.0.2/32"; "MTU=1400"; "[Peer]";
  "PublicKey=p"; "AllowedIPs=0.0.0.0/0"; "Endpoint=198.51.100.1:51820"; "PersistentKeepalive=25"]%string.
Definition example_files : gmap bytes bytes := list_to_map
  [(on_card (ConfigPath ++ chars "/work.conf"), home_text); (on_card (ConfigPath ++ chars "/home.conf"), home_text);
   (on_card (ConfigPath ++ chars "/broken.conf"), text_of ["[Interface]"; "MTU=9000"; "[Peer]"]%string)].
Definition example_entries : list DirectoryEntry :=
  [mk_directory_entry (chars "work.conf") false; mk_directory_entry (chars "old.conf") true;
   mk_directory_entry (chars "notes.txt") false; mk_directory_entry (chars "home.conf") false;
   mk_directory_entry (chars "broken.conf") false].
(** Two of the three files configure a peer; they are in the order of their names. *)
Example two_peers_loaded :
  option_map (map (fun peer => (c_string (cf_name peer), cf_mtu peer, cf_persistent_keepalive peer)))
    (fst (@LoadPeerConfig simple_ini (memory_files example_entries)
            (@mk_fs (memory_files example_entries) false false example_files))) =
  Some [(chars "home", 1400, 25); (chars "work", 1400, 25)].
Proof. by vm_compute. Qed.
