(* ===== verification/Startup.v ===== *)
(** * Starting the daemon and choosing the peer to start

    Models [InitializeStateLocked], [EnsureInitialized] and [SetAutoStartPeer] of
    [runtime/daemon_runtime.cpp] with [runtime/autostart_persistence.hpp].
    [SetAutoStartPeer] runs on several threads: [set_step] is one step of one of them,
    between two points where it takes or gives back a lock, and a run is a sequence
    of steps of any threads. *)

From S2P Require Import Prelude Endian Messages PacketQueue Platform Session Base64 InnerPacket Timers.
From S2P Require Import Crypto Device Data Identity Admission Handshake Peer PeerController RuntimeEvents.
From S2P Require Import Abort PeerRuntime Coordinator ConfigText ConfigLoader.
Local Open Scope Z_scope.

Section Startup.
Context {P : Primitives} {Ini : IniParser} {Files : Filesystem}.

(** ** The first use *)

(** [m_state.initialized], the peers, and the file system. *)
Record DaemonStartup := mk_startup {
  st_initialized : bool;
  st_registry : PeerRegistry;
  st_files : FsWorld
}.
(** [None] is an abort. *)
Definition InitializeStateLocked (config : LoadedPeerConfiguration) (now : Z) (g : PeerRegistry) : option PeerRegistry :=
  if negb (length (ld_peers config) =? 0)%nat then
    '(assigned, g) ← Registry_Configure (ld_peers config) (ld_derived config) (ld_auto_start_peer_index config) now g;
    if assigned : bool then Some g else None
  else
    '(cleanup_effects, g) ← Registry_ClearConfiguration now g;
    if (length cleanup_effects =? 0)%nat then Some g else None.
Definition EnsureInitialized (now : Z) (s : DaemonStartup) : option DaemonStartup :=
  if st_initialized s then Some s
  else
    let '(config, files) := Load (st_files s) in
    let config := default (mk_loaded [] [] (-1)) config in
    g ← InitializeStateLocked config now (st_registry s);
    Some (mk_startup true g files).

(** ** Requests to start a peer *)

Record AutoStartPersistenceRequest := mk_request {
  rq_generation : Z;
  rq_peer_index : Z;
  rq_peer_name : bytes
}.
Record AutoStartPersistenceState := mk_persistence {
  m_next_generation : Z;
  m_current_generation : Z
}.
Definition persistence_init : AutoStartPersistenceState := mk_persistence 1 0.
(** [peer_name] is [None] where the pointer is null. *)
Definition AutoStart_Begin (peer_index : Z) (peer_name : option bytes) (a : AutoStartPersistenceState)
    : AutoStartPersistenceRequest * AutoStartPersistenceState :=
  let '(generation, next) := AllocateGeneration (m_next_generation a) in
  let name := match peer_name with Some name => print_name (c_string name) | None => zeros PeerNameCapacity end in
  (mk_request generation peer_index name, mk_persistence next generation).
Definition AutoStart_IsCurrent (request : AutoStartPersistenceRequest) (a : AutoStartPersistenceState) : bool :=
  rq_generation request =? m_current_generation a.

Definition Configuration (peer_index : Z) (g : PeerRegistry) : option PeerConfigEntry := m_config <$> PeerAt peer_index g.
Definition CaptureAutoStartPersistenceRequestLocked (peer_index : Z) (g : PeerRegistry) (a : AutoStartPersistenceState)
    : option (AutoStartPersistenceRequest * AutoStartPersistenceState) :=
  if negb (IsValidSelection peer_index g) then None
  else if 0 <=? peer_index then
    configuration ← Configuration peer_index g;
    Some (AutoStart_Begin peer_index (Some (cf_name configuration)) a)
  else Some (AutoStart_Begin peer_index None a).
Definition IsCurrentAutoStartPersistenceRequestLocked (request : AutoStartPersistenceRequest) (g : PeerRegistry)
    (a : AutoStartPersistenceState) : bool :=
  if negb (AutoStart_IsCurrent request a) || negb (IsValidSelection (rq_peer_index request) g) then false
  else if rq_peer_index request <? 0 then true
  else match Configuration (rq_peer_index request) g with
       | Some configuration => strncmp_equal (cf_name configuration) (rq_peer_name request) PeerNameCapacity
       | None => false
       end.

(** ** The threads *)

Inductive SetOutcome :=
  | Set_Rejected
  | Set_StaleBefore
  | Set_Failed (error : FsError)
  | Set_StaleAfter
  | Set_Aborted
  | Set_Done.
(** Where a call of [SetAutoStartPeer] is: at its start, with its request, with
    [m_auto_start_persistence_mutex], after the first check, after the store, at its end. *)
Inductive Phase :=
  | Ph_Start (peer_index : Z)
  | Ph_Captured (request : AutoStartPersistenceRequest)
  | Ph_Locked (request : AutoStartPersistenceRequest)
  | Ph_Current (request : AutoStartPersistenceRequest)
  | Ph_Stored (request : AutoStartPersistenceRequest)
  | Ph_End (request : option AutoStartPersistenceRequest) (outcome : SetOutcome).

Record AutoStart := mk_autostart {
  au_registry : PeerRegistry;
  au_persistence : AutoStartPersistenceState;
  au_files : FsWorld;
  au_holder : option nat;
  au_threads : list Phase
}.
#[export] Instance eta_autostart : Eta AutoStart := fun r =>
  mk_autostart (au_registry r) (au_persistence r) (au_files r) (au_holder r) (au_threads r).
Definition to_phase (i : nat) (phase : Phase) (s : AutoStart) : AutoStart := s <| au_threads ::= <[i := phase]> |>.
(** The end of the call, which gives the lock back. *)
Definition ends (i : nat) (request : AutoStartPersistenceRequest) (outcome : SetOutcome) (s : AutoStart) : AutoStart :=
  (to_phase i (Ph_End (Some request) outcome) s) <| au_holder := None |>.
Definition requested_name (request : AutoStartPersistenceRequest) : option bytes :=
  if 0 <=? rq_peer_index request then Some (c_string (rq_peer_name request)) else None.

(** [None]: the thread waits for the lock, or has ended. *)
Definition set_step (i : nat) (s : AutoStart) : option AutoStart :=
  phase ← au_threads s !! i;
  match phase with
  | Ph_Start peer_index =>
      match CaptureAutoStartPersistenceRequestLocked peer_index (au_registry s) (au_persistence s) with
      | None => Some (to_phase i (Ph_End None Set_Rejected) s)
      | Some (request, a) => Some ((to_phase i (Ph_Captured request) s) <| au_persistence := a |>)
      end
  | Ph_Captured request =>
      match au_holder s with
      | Some _ => None
      | None => Some ((to_phase i (Ph_Locked request) s) <| au_holder := Some i |>)
      end
  | Ph_Locked request =>
      Some (if IsCurrentAutoStartPersistenceRequestLocked request (au_registry s) (au_persistence s)
            then to_phase i (Ph_Current request) s else ends i request Set_StaleBefore s)
  | Ph_Current request =>
      let '(store_rc, files) := StoreAutoStartPeerName (requested_name request) (au_files s) in
      let s := s <| au_files := files |> in
      Some (match store_rc with
            | inl error => ends i request (Set_Failed error) s
            | inr _ => to_phase i (Ph_Stored request) s
            end)
  | Ph_Stored request =>
      Some (if negb (IsCurrentAutoStartPersistenceRequestLocked request (au_registry s) (au_persistence s))
            then ends i request Set_StaleAfter s
            else
              let '(assigned, g) := SetAutoStartPeerIndex (rq_peer_index request) (au_registry s) in
              ends i request (if assigned : bool then Set_Done else Set_Aborted) (s <| au_registry := g |>))
  | Ph_End _ _ => None
  end.
(** A thread that cannot run is passed over. *)
Definition run (schedule : list nat) (s : AutoStart) : AutoStart :=
  foldl (fun s i => default s (set_step i s)) s schedule.

(** ** The first use configures the peers *)

Definition loaded_shape (out : LoadedPeerConfiguration) : Prop :=
  (length (ld_peers out) <= PeerSlots)%nat /\ length (ld_derived out) = length (ld_peers out) /\
  -1 <= ld_auto_start_peer_index out < Z.of_nat (length (ld_peers out)).
Lemma Load_shape w : loaded_shape (default (mk_loaded [] [] (-1)) (fst (Load w))).
Proof.
  unfold Load. destruct (LoadAutoStartPeerName _ w) as [name w1].
  destruct (LoadPeerConfig w1) as [ [parsed|] w2] eqn:E;
    [|unfold loaded_shape; cbn; unfold PeerSlots; lia]. apply LoadPeerConfig_count in E.
  destruct (derive_peers name parsed) as (Ep & Ed & Hi). unfold loaded_shape. cbn [fst default from_option id].
  rewrite Ep, Ed, !length_fmap. split; [done|]. split; [done|].
  destruct Hi as [ [-> _]|(i & -> & (? & ? & _ & Hi & _) & _)]; [lia|]. apply lookup_lt_Some in Hi. lia.
Qed.
Lemma Configure_closed index config derived now r : Binding_IsOpen (m_binding r) = false ->
  exists r', Configure index config derived now r = Some r' /\ m_config r' = config /\ m_derived r' = derived /\
    in_state PeerRuntimeState_Inactive r' = true.
Proof. unfold Configure. intros ->. eexists. by split. Qed.
Lemma configure_loop_closed index entries now peers : (length entries <= length peers)%nat ->
  Forall (fun r => Binding_IsOpen (m_binding r) = false) peers ->
  exists peers', configure_loop index entries now peers = Some peers' /\
    forall i config derived, entries !! i = Some (config, derived) -> exists r, peers' !! i = Some r /\
      m_config r = config /\ m_derived r = derived /\ in_state PeerRuntimeState_Inactive r = true.
Proof.
  revert index peers. induction entries as [|[config derived] entries IH]; intros index peers Hl Hp.
  { by exists peers. }
  destruct peers as [|r peers]; [cbn in Hl; lia|]. apply Forall_cons in Hp as [Hr Hp]. cbn [configure_loop].
  destruct (Configure_closed index config derived now r Hr) as (r' & -> & Hc). cbn [mbind option_bind].
  destruct (IH (index + 1) peers ltac:(cbn in Hl; lia) Hp) as (peers' & -> & Hall). cbn [mbind option_bind].
  exists (r' :: peers'). split; [done|]. intros [|i] c d; cbn [lookup list_lookup]; [|by apply Hall].
  intros [= <- <-]. by exists r'.
Qed.

(** C26. The first use of the daemon never aborts, whatever the card holds, and the later
    ones change nothing: the registry holds the loaded peers in their order, each with
    its configuration and derived values and inactive, none of them is active, and the
    peer to start is the loaded one. *)
Theorem startup_configures now w :
  exists s, EnsureInitialized now (mk_startup false registry_init w) = Some s /\
    (forall later, EnsureInitialized later s = Some s) /\
    let config := default (mk_loaded [] [] (-1)) (fst (Load w)) in
    m_count (st_registry s) = Z.of_nat (length (ld_peers config)) /\
    m_active_peer_index (st_registry s) = -1 /\
    m_auto_start_peer_index (st_registry s) = ld_auto_start_peer_index config /\
    forall i peer derived, ld_peers config !! i = Some peer -> ld_derived config !! i = Some derived ->
      exists r, PeerAt (Z.of_nat i) (st_registry s) = Some r /\ m_config r = peer /\ m_derived r = derived /\
        in_state PeerRuntimeState_Inactive r = true.
Proof.
  pose proof (Load_shape w) as (Hl & Hd & Hi). unfold EnsureInitialized. cbn [st_initialized st_files st_registry].
  destruct (Load w) as [config files]. cbn [fst] in *. set (config' := default _ config) in *. clearbody config'.
  assert (forall g, InitializeStateLocked config' now registry_init = Some g ->
    exists s, (g ← InitializeStateLocked config' now registry_init; Some (mk_startup true g files)) = Some s /\
      (forall later, EnsureInitialized later s = Some s) /\ st_registry s = g) as Hs.
  { intros g ->. by exists (mk_startup true g files). }
  unfold InitializeStateLocked in *. destruct (ld_peers config') as [|peer peers] eqn:Ep; cbn [length Nat.eqb negb] in *.
  - destruct (Hs _ eq_refl) as (s & E & Hlater & Hg). exists s. split; [exact E|]. split; [exact Hlater|].
    rewrite Hg. split_and!; [done|done| |done]. cbn. lia.
  - pose proof (configure_loop_closed 0 (zip (peer :: peers) (ld_derived config')) now (m_peers registry_init)) as Hloop.
    destruct Hloop as (peers' & Eloop & Hall).
    { rewrite length_zip_with, Hd. change (length (m_peers registry_init)) with PeerSlots. cbn [length]. lia. }
    { by apply Forall_replicate. }
    assert (Z.of_nat (length (peer :: peers)) < 2 ^ 31) as Hsmall by (unfold PeerSlots in Hl; cbn in *; lia).
    assert (u32 (Z.of_nat (length (peer :: peers))) = Z.of_nat (length (peer :: peers))) as Eu.
    { unfold u32. apply Z.mod_small. lia. }
    assert (Registry_Configure (peer :: peers) (ld_derived config') (ld_auto_start_peer_index config') now registry_init =
      Some (true, mk_registry peers' (Z.of_nat (length (peer :: peers))) (-1) (ld_auto_start_peer_index config'))) as Econf.
    { unfold Registry_Configure. rewrite Eu.
      change (length (m_peers registry_init)) with PeerSlots.
      rewrite (proj2 (Nat.ltb_ge PeerSlots (length (peer :: peers)))) by done.
      cbn [length] in Hd. rewrite (proj2 (Nat.eqb_eq (length (ld_derived config')) (length (peer :: peers))) Hd). cbn [negb orb].
      unfold IsValidPeerSelection, i32. rewrite Z.mod_small by lia.
      rewrite (proj2 (Z.leb_le _ _)), (proj2 (Z.ltb_lt _ _)) by (cbn [length] in *; lia). cbn [andb negb].
      cbn [Registry_ClearConfiguration]. change (Registry_ClearConfiguration now registry_init) with
        (Some ([] : EffectBatch, mk_registry (m_peers registry_init) 0 (-1) (-1))). cbn [mbind option_bind length Nat.eqb negb m_peers m_active_peer_index].
      by rewrite Eloop. }
    rewrite Econf in Hs |- *. cbn [mbind option_bind] in *. destruct (Hs _ eq_refl) as (s & E & Hlater & Hg).
    exists s. split; [exact E|]. split; [exact Hlater|]. rewrite Hg. split_and!; [done..|].
    intros i peer' derived Hp' Hd'. assert (zip (peer :: peers) (ld_derived config') !! i = Some (peer', derived)) as Hz.
    { by rewrite lookup_zip_with, Hp', Hd'. }
    destruct (Hall _ _ _ Hz) as (r & Hr & Hc). exists r. split; [|exact Hc].
    unfold PeerAt. cbn [m_count m_peers]. apply lookup_lt_Some in Hp'. rewrite (proj2 (Z.ltb_lt _ _)) by lia. by rewrite Nat2Z.id.
Qed.

(** ** The last request wins *)

Context {Laws : FilesystemLaws}.

Definition request_of (phase : Phase) : option AutoStartPersistenceRequest :=
  match phase with
  | Ph_Captured request | Ph_Locked request | Ph_Current request | Ph_Stored request => Some request
  | Ph_End request _ => request
  | Ph_Start _ => None
  end.
Definition has_lock (phase : Phase) : bool :=
  match phase with Ph_Locked _ | Ph_Current _ | Ph_Stored _ => true | _ => false end.
(** The thread has passed the first check. *)
Definition has_checked (phase : Phase) : bool :=
  match phase with Ph_Current _ | Ph_Stored _ => true | _ => false end.
Definition started (phase : Phase) : bool := match phase with Ph_Start _ => false | _ => true end.

(** The file holds the name of a request (no file for no peer, or an empty name). *)
Definition file_holds (request : AutoStartPersistenceRequest) (s : AutoStart) : Prop :=
  content (fs_files (au_files s)) (on_card AutoStartPath) =
    match requested_name request with Some (c :: name) => Some (c :: name) | _ => None end.
(** A request is for a peer that the registry has, with the name that it has. *)
Definition matches_registry (request : AutoStartPersistenceRequest) (g : PeerRegistry) : Prop :=
  IsValidSelection (rq_peer_index request) g = true /\
  (0 <= rq_peer_index request -> exists r, PeerAt (rq_peer_index request) g = Some r /\
    strncmp_equal (cf_name (m_config r)) (rq_peer_name request) PeerNameCapacity = true).
Definition current (request : AutoStartPersistenceRequest) (s : AutoStart) : Prop :=
  rq_generation request = m_current_generation (au_persistence s).

(** The peers' names fit in their arrays, as loaded ones do. *)
Definition names_end (g : PeerRegistry) : Prop :=
  forall i r, PeerAt i g = Some r -> (length (c_string (cf_name (m_config r))) < PeerNameCapacity)%nat.
Definition started_count (threads : list Phase) : nat := length (List.filter started threads).

Record requests_ok (s : AutoStart) : Prop := {
  ok_names : names_end (au_registry s);
  ok_few : Z.of_nat (length (au_threads s)) < 2 ^ 32 - 1;
  ok_next : 1 <= m_next_generation (au_persistence s) <= 1 + Z.of_nat (started_count (au_threads s));
  ok_current : m_current_generation (au_persistence s) = m_next_generation (au_persistence s) - 1;
  ok_requests i phase request : au_threads s !! i = Some phase -> request_of phase = Some request ->
    rq_generation request < m_next_generation (au_persistence s) /\ matches_registry request (au_registry s);
  ok_distinct i j phase phase' request request' : au_threads s !! i = Some phase -> au_threads s !! j = Some phase' ->
    request_of phase = Some request -> request_of phase' = Some request' ->
    rq_generation request = rq_generation request' -> i = j;
  ok_holder i phase : au_threads s !! i = Some phase -> (has_lock phase = true <-> au_holder s = Some i);
  ok_holder_thread i : au_holder s = Some i -> is_Some (au_threads s !! i);
  ok_stored i request : au_threads s !! i = Some (Ph_Stored request) -> file_holds request s;
  ok_done i request : au_threads s !! i = Some (Ph_End (Some request) Set_Done) -> current request s ->
    m_auto_start_peer_index (au_registry s) = rq_peer_index request /\ file_holds request s /\
    forall j phase, au_threads s !! j = Some phase -> has_checked phase = false;
  ok_stale i request outcome : au_threads s !! i = Some (Ph_End (Some request) outcome) ->
    outcome = Set_StaleBefore \/ outcome = Set_StaleAfter -> ~ current request s;
  ok_abort i request outcome : au_threads s !! i = Some (Ph_End request outcome) ->
    outcome <> Set_Aborted /\ (outcome = Set_Rejected -> request = None)
}.

(** *** The state that a step sees *)

Lemma threads_to_phase i phase s j phase' : au_threads (to_phase i phase s) !! j = Some phase' ->
  (i = j /\ phase' = phase) \/ (i <> j /\ au_threads s !! j = Some phase').
Proof.
  change (au_threads (to_phase i phase s)) with (<[i := phase]> (au_threads s)). intros H.
  apply list_lookup_insert_Some in H as [(-> & -> & _)|[? ?] ]; [by left|by right].
Qed.
Lemma started_insert i phase threads : started phase = true -> is_Some (threads !! i) ->
  (started_count threads <= started_count (<[i := phase]> threads))%nat.
Proof.
  intros Hs [old Ho]. unfold started_count. revert i Ho. induction threads as [|p threads IH]; intros [|i] Ho; [done..| |];
    [change (<[0%nat := phase]> (p :: threads)) with (phase :: threads)
    |change (<[S i := phase]> (p :: threads)) with (p :: <[i := phase]> threads)]; cbn [List.filter].
  - rewrite Hs. destruct (started p); cbn; lia.
  - specialize (IH i Ho). destruct (started p); cbn; lia.
Qed.
Lemma started_insert_new i phase peer_index threads : started phase = true -> threads !! i = Some (Ph_Start peer_index) ->
  started_count (<[i := phase]> threads) = S (started_count threads).
Proof.
  intros Hs Ho. unfold started_count. revert i Ho. induction threads as [|p threads IH]; intros [|i] Ho; [done..| |];
    [change (<[0%nat := phase]> (p :: threads)) with (phase :: threads)
    |change (<[S i := phase]> (p :: threads)) with (p :: <[i := phase]> threads)]; cbn [List.filter].
  - injection Ho as ->. by rewrite Hs.
  - specialize (IH i Ho). destruct (started p); cbn; lia.
Qed.
Lemma started_count_le threads : (started_count threads <= length threads)%nat.
Proof. unfold started_count. apply List.filter_length_le. Qed.

Lemma c_string_le text : (length (c_string text) <= length text)%nat.
Proof. induction text as [|c text IH]; cbn; [done|]. destruct (c =? 0); cbn; lia. Qed.
Lemma c_string_nonzero text : Forall (fun c => c <> 0) (c_string text).
Proof. induction text as [|c text IH]; cbn; [constructor|]. destruct (Z.eqb_spec c 0); by constructor. Qed.
Lemma c_string_zeros text n : Forall (fun c => c <> 0) text -> (0 < n)%nat -> c_string (text ++ zeros n) = text.
Proof.
  intros Ht Hn. induction Ht as [|c text Hc Ht IH]; cbn [app c_string].
  - destruct n; [lia|]. done.
  - rewrite (proj2 (Z.eqb_neq _ _) Hc). by rewrite IH.
Qed.
(** A name that fits in its array is captured in full. *)
Lemma captured_name name : (length (c_string name) < PeerNameCapacity)%nat ->
  c_string (print_name (c_string name)) = c_string name.
Proof.
  intros Hl. unfold print_name. rewrite take_ge by lia. cbv zeta. apply c_string_zeros; [apply c_string_nonzero|]. lia.
Qed.

Lemma IsCurrent_matches request s : matches_registry request (au_registry s) ->
  IsCurrentAutoStartPersistenceRequestLocked request (au_registry s) (au_persistence s) =
    (rq_generation request =? m_current_generation (au_persistence s)).
Proof.
  intros [Hv Hp]. unfold IsCurrentAutoStartPersistenceRequestLocked, AutoStart_IsCurrent. rewrite Hv.
  destruct (rq_generation request =? _); cbn [negb orb]; [|done]. destruct (Z.ltb_spec (rq_peer_index request) 0); [done|].
  destruct (Hp ltac:(lia)) as (r & Hr & Hn). unfold Configuration. by rewrite Hr.
Qed.

(** *** One step *)

(** No other thread has set the current request. *)
Definition none_done_but (i : nat) (s : AutoStart) : Prop := forall j request,
  j <> i -> au_threads s !! j = Some (Ph_End (Some request) Set_Done) -> ~ current request s.

Lemma matches_same_peers request g g' : m_peers g' = m_peers g -> m_count g' = m_count g ->
  matches_registry request g -> matches_registry request g'.
Proof. unfold matches_registry, IsValidSelection, PeerAt. by intros -> ->. Qed.

(** A step in which a thread keeps its request. *)
Lemma move_ok i old new request s s' : requests_ok s -> au_threads s !! i = Some old ->
  request_of old = Some request -> request_of new = Some request ->
  au_threads s' = <[i := new]> (au_threads s) -> au_persistence s' = au_persistence s ->
  m_peers (au_registry s') = m_peers (au_registry s) -> m_count (au_registry s') = m_count (au_registry s) ->
  (has_lock new = true <-> au_holder s' = Some i) ->
  (forall j, j <> i -> (au_holder s = Some j <-> au_holder s' = Some j)) ->
  (au_files s' = au_files s \/ (has_checked old = true /\ has_lock old = true)) ->
  (m_auto_start_peer_index (au_registry s') = m_auto_start_peer_index (au_registry s) \/ current request s) ->
  (forall stored, new = Ph_Stored stored -> file_holds stored s') ->
  (forall finished, new = Ph_End (Some finished) Set_Done -> has_lock old = true /\ file_holds finished s' /\
     m_auto_start_peer_index (au_registry s') = rq_peer_index finished) ->
  (has_checked new = true -> has_checked old = true \/ current request s) ->
  (forall outcome, new = Ph_End (Some request) outcome ->
     (outcome = Set_StaleBefore \/ outcome = Set_StaleAfter -> ~ current request s) /\ outcome <> Set_Aborted /\ outcome <> Set_Rejected) ->
  requests_ok s'.
Proof.
  intros [Hnames Hfew Hnext Hcur Hreq Hdist Hhold Hholdt Hstored Hdone Hstale Habort] Hi Hold Hnew Et Ea Ep Ec
    Hlock Hothers Hfiles Hindex Hstored' Hdone' Hchecked Hend.
  assert (forall j phase, au_threads s' !! j = Some phase -> (i = j /\ phase = new) \/ (i <> j /\ au_threads s !! j = Some phase)) as Hat.
  { intros j phase H. rewrite Et in H. apply list_lookup_insert_Some in H as [(-> & -> & _)|[? ?] ]; [by left|by right]. }
  assert (forall j phase, i <> j -> has_lock old = true -> au_threads s !! j = Some phase -> has_lock phase = false) as Hexcl.
  { intros j phase Hne Ho Hj. destruct (has_lock phase) eqn:E; [|done]. apply (Hhold _ _ Hj) in E. apply (Hhold _ _ Hi) in Ho. congruence. }
  assert (forall phase, has_checked phase = true -> has_lock phase = true) as Hcl by by intros [].
  assert (forall j r, i <> j -> au_threads s !! j = Some (Ph_End (Some r) Set_Done) -> current r s -> current request s -> False) as Hone.
  { intros j r Hne Hj H1 H2. apply Hne. eapply (Hdist i j); [exact Hi|exact Hj|exact Hold|done|]. unfold current in *. congruence. }
  assert (forall r, current r s' <-> current r s) as Hcurrent by (intros r; unfold current; by rewrite Ea).
  split; rewrite ?Ea, ?Et, ?length_insert.
  - intros j r. unfold PeerAt. rewrite Ep, Ec. apply Hnames.
  - done.
  - pose proof (started_insert i new (au_threads s)) as Hc. split; [lia|]. etransitivity; [apply Hnext|].
    enough (started_count (au_threads s) <= started_count (<[i := new]> (au_threads s)))%nat by lia.
    apply Hc; [by destruct new|by exists old].
  - done.
  - intros j phase r Hj Hr. rewrite <- Et in Hj. destruct (Hat _ _ Hj) as [ [<- ->]|[_ Hj'] ].
    + rewrite Hnew in Hr. injection Hr as <-. destruct (Hreq _ _ _ Hi Hold) as [? ?]. split; [done|by eapply matches_same_peers].
    + destruct (Hreq _ _ _ Hj' Hr) as [? ?]. split; [done|by eapply matches_same_peers].
  - intros j k p p' r r' Hj Hk Hr Hr' E. rewrite <- Et in Hj, Hk.
    assert (forall j p r, au_threads s' !! j = Some p -> request_of p = Some r ->
      exists p, au_threads s !! j = Some p /\ request_of p = Some r) as Hback.
    { intros j' p0 r0 H H0. destruct (Hat _ _ H) as [ [<- ->]|[_ H'] ]; [|by exists p0]. exists old. split; congruence. }
    destruct (Hback _ _ _ Hj Hr) as (q & Hq & Hqr), (Hback _ _ _ Hk Hr') as (q' & Hq' & Hqr'). by eapply Hdist.
  - intros j phase Hj. rewrite <- Et in Hj. destruct (Hat _ _ Hj) as [ [<- ->]|[Hne Hj'] ]; [exact Hlock|].
    rewrite (Hhold _ _ Hj'). by apply Hothers.
  - intros j Hj. apply lookup_lt_is_Some. rewrite length_insert. apply lookup_lt_is_Some. destruct (decide (i = j)) as [<-|Hne]; [by exists old|].
    apply Hholdt, Hothers; done.
  - intros j r Hj. rewrite <- Et in Hj. destruct (Hat _ _ Hj) as [ [<- E]|[Hne Hj'] ]; [by apply Hstored'|].
    destruct Hfiles as [Ef|[_ Hl] ]; [unfold file_holds; rewrite Ef; by eapply Hstored|].
    by pose proof (Hexcl _ _ Hne Hl Hj') as [=].
  - intros j r Hj Hc. rewrite <- Et in Hj. rewrite Hcurrent in Hc.
    destruct (Hat _ _ Hj) as [ [<- E]|[Hne Hj'] ].
    + destruct (Hdone' _ (eq_sym E)) as (Hl & Hf & Hx). split; [exact Hx|]. split; [exact Hf|].
      intros k phase Hk. rewrite <- Et in Hk. destruct (Hat _ _ Hk) as [ [<- ->]|[Hnk Hk'] ]; [by rewrite <- E|].
      destruct (has_checked phase) eqn:Eck; [|done]. apply Hcl in Eck. by rewrite (Hexcl _ _ Hnk Hl Hk') in Eck.
    + destruct (Hdone _ _ Hj' Hc) as (Hx & Hf & Hu). split; [|split].
      * destruct Hindex as [->|Hcr]; [done|]. by destruct (Hone j r).
      * destruct Hfiles as [Ef|[Hck _] ]; [unfold file_holds in *; by rewrite Ef|]. by rewrite (Hu _ _ Hi) in Hck.
      * intros k phase Hk. rewrite <- Et in Hk. destruct (Hat _ _ Hk) as [ [<- ->]|[_ Hk'] ]; [|by eapply Hu].
        destruct (has_checked new) eqn:En; [|done]. destruct (Hchecked eq_refl) as [Hck|Hcr]; [by rewrite (Hu _ _ Hi) in Hck|].
        by destruct (Hone j r).
  - intros j r outcome Hj Ho. rewrite <- Et in Hj. rewrite Hcurrent. destruct (Hat _ _ Hj) as [ [<- E]|[_ Hj'] ]; [|by eapply Hstale].
    rewrite <- E in Hnew. cbn in Hnew. injection Hnew as ->. by apply (Hend outcome).
  - intros j r outcome Hj. rewrite <- Et in Hj. destruct (Hat _ _ Hj) as [ [<- E]|[_ Hj'] ]; [|by eapply Habort].
    rewrite <- E in Hnew. cbn in Hnew. subst r. destruct (Hend outcome (eq_sym E)) as (_ & ? & ?). done.
Qed.

Lemma capture_matches peer_index g a request a' : names_end g ->
  CaptureAutoStartPersistenceRequestLocked peer_index g a = Some (request, a') ->
  (rq_generation request, m_next_generation a') = AllocateGeneration (m_next_generation a) /\
  m_current_generation a' = rq_generation request /\ matches_registry request g /\ rq_peer_index request = peer_index.
Proof.
  intros Hnames. unfold CaptureAutoStartPersistenceRequestLocked, AutoStart_Begin.
  destruct (IsValidSelection peer_index g) eqn:Ev; [|done]. cbn [negb].
  destruct (AllocateGeneration _) as [generation next]. destruct (Z.leb_spec 0 peer_index) as [Hp|Hp].
  - unfold Configuration. destruct (PeerAt peer_index g) as [r|] eqn:Er; [|done]. cbn [fmap option_fmap option_map mbind option_bind].
    intros [= <- <-]. cbn [rq_generation rq_peer_index m_next_generation m_current_generation].
    split; [done|]. split; [done|]. split; [|done]. split; [done|]. intros _. exists r. split; [done|]. cbn [rq_peer_name].
    unfold strncmp_equal. rewrite (captured_name (cf_name (m_config r))) by by eapply Hnames. by rewrite bool_decide_eq_true_2.
  - intros [= <- <-]. cbn. split; [done|]. split; [done|]. split; [|done]. split; [done|]. cbn. lia.
Qed.

(** A call that is rejected, and one that captures its request. *)
Lemma start_ok i peer_index new a s : requests_ok s -> au_threads s !! i = Some (Ph_Start peer_index) ->
  (new = Ph_End None Set_Rejected /\ a = au_persistence s) \/
  (exists request, new = Ph_Captured request /\
     CaptureAutoStartPersistenceRequestLocked peer_index (au_registry s) (au_persistence s) = Some (request, a)) ->
  requests_ok ((to_phase i new s) <| au_persistence := a |>).
Proof.
  intros [Hnames Hfew Hnext Hcur Hreq Hdist Hhold Hholdt Hstored Hdone Hstale Habort] Hi Hnew.
  set (s' := (to_phase i new s) <| au_persistence := a |>).
  assert (au_threads s' = <[i := new]> (au_threads s)) as Et by done.
  assert (forall j phase, au_threads s' !! j = Some phase -> (i = j /\ phase = new) \/ (i <> j /\ au_threads s !! j = Some phase)) as Hat.
  { intros j phase H. by apply threads_to_phase in H. }
  assert (started new = true) as Hs by by destruct Hnew as [ [-> _]|(r & -> & _)].
  assert (has_lock new = false) as Hl by by destruct Hnew as [ [-> _]|(r & -> & _)].
  pose proof (started_insert_new i new peer_index _ Hs Hi) as Hcount.
  pose proof (started_count_le (<[i := new]> (au_threads s))) as Hle. rewrite length_insert in Hle.
  assert (m_current_generation a = m_next_generation a - 1 /\ m_next_generation (au_persistence s) <= m_next_generation a /\
    m_next_generation a <= 1 + Z.of_nat (started_count (<[i := new]> (au_threads s))) /\
    forall request, request_of new = Some request -> rq_generation request = m_next_generation (au_persistence s) /\
      rq_generation request < m_next_generation a /\ matches_registry request (au_registry s)) as (Ga & Gb & Gc & Gr).
  { destruct Hnew as [ [-> ->]|(request & -> & E)]; [split; [done|]; split; [done|]; split; [lia|done]|].
    apply capture_matches in E as (Eg & Ecur & Hm & _); [|done]. unfold AllocateGeneration in Eg.
    unfold u32 in Eg. rewrite Z.mod_small in Eg by lia. rewrite (proj2 (Z.eqb_neq _ _)) in Eg by lia. injection Eg as E1 E2.
    split; [lia|]. split; [lia|]. split; [lia|]. intros r [= <-]. split; [done|]. split; [lia|done]. }
  (* A request that is current afterwards was so before: then the call was rejected. *)
  assert (forall j phase request, i <> j -> au_threads s !! j = Some phase -> request_of phase = Some request ->
    current request s' -> current request s) as Hback.
  { intros j phase request Hne Hj Hr Hc. destruct (Hreq _ _ _ Hj Hr) as [Hlt _]. unfold current in *. change (au_persistence s') with a in Hc.
    destruct Hnew as [ [_ ->]|(r & -> & _)]; [done|]. destruct (Gr r eq_refl) as (? & ? & _). lia. }
  split; change (au_persistence s') with a; change (au_registry s') with (au_registry s);
    change (au_holder s') with (au_holder s); rewrite ?Et, ?length_insert.
  - done.
  - done.
  - lia.
  - done.
  - intros j phase r Hj Hr. destruct (Hat _ _ Hj) as [ [<- ->]|[_ Hj'] ]; [by destruct (Gr _ Hr) as (? & ? & ?)|].
    destruct (Hreq _ _ _ Hj' Hr) as [? ?]. split; [lia|done].
  - intros j k p p' r r' Hj Hk Hr Hr' E. destruct (Hat _ _ Hj) as [ [<- ->]|[Hne Hj'] ], (Hat _ _ Hk) as [ [<- ->]|[Hne' Hk'] ].
    + done.
    + destruct (Gr _ Hr) as (? & ? & _), (Hreq _ _ _ Hk' Hr'). lia.
    + destruct (Gr _ Hr') as (? & ? & _), (Hreq _ _ _ Hj' Hr). lia.
    + by eapply Hdist.
  - intros j phase Hj. destruct (Hat _ _ Hj) as [ [<- ->]|[Hne Hj'] ]; [|by apply Hhold].
    rewrite Hl. pose proof (Hhold _ _ Hi) as Hn. cbn in Hn. by rewrite Hn.
  - intros j Hj. apply lookup_lt_is_Some. rewrite length_insert. by apply lookup_lt_is_Some, Hholdt.
  - intros j r Hj. destruct (Hat _ _ Hj) as [ [<- E]|[Hne Hj'] ]; [by rewrite <- E in Hl|]. by apply Hstored in Hj'.
  - intros j r Hj Hc. destruct (Hat _ _ Hj) as [ [<- E]|[Hne Hj'] ]; [by destruct Hnew as [ [-> _]|(? & -> & _)]|].
    destruct (Hdone _ _ Hj' (Hback _ _ _ Hne Hj' eq_refl Hc)) as (Hx & Hf & Hu). split; [exact Hx|]. split; [exact Hf|].
    intros k phase Hk. destruct (Hat _ _ Hk) as [ [<- ->]|[_ Hk'] ]; [by destruct new|by eapply Hu].
  - intros j r outcome Hj Ho Hc. destruct (Hat _ _ Hj) as [ [<- E]|[Hne Hj'] ]; [by destruct Hnew as [ [-> _]|(? & -> & _)]|].
    by apply (Hstale _ _ _ Hj' Ho), (Hback _ _ _ Hne Hj').
  - intros j r outcome Hj. destruct (Hat _ _ Hj) as [ [<- E]|[_ Hj'] ]; [|by eapply Habort].
    destruct Hnew as [ [-> _]|(? & -> & _)]; [by injection E as -> ->|done].
Qed.

(** The obligations of [move_ok] that follow from the phases and the lock. *)
Ltac moved Hh :=
  try solve
    [ done | by left | by intros; discriminate | by intros _; left
    | cbn; rewrite ?Hh; split; congruence
    | intros j Hj; cbn; rewrite ?Hh; split; congruence
    | intros outcome [= <-]; split; [by intros [?|?]|done]
    | intros outcome [= <-]; split; [by intros _|done] ].
Lemma file_holds_files request s s' : au_files s' = au_files s -> file_holds request s -> file_holds request s'.
Proof. unfold file_holds. by intros ->. Qed.
Lemma set_step_ok i s s' : requests_ok s -> set_step i s = Some s' -> requests_ok s'.
Proof.
  intros Hok. unfold set_step. destruct (au_threads s !! i) as [phase|] eqn:Hi; [|done]. cbn [mbind option_bind].
  assert (forall request, request_of phase = Some request -> matches_registry request (au_registry s)) as Hm.
  { intros request Hr. by apply (ok_requests s Hok i phase). }
  assert (has_lock phase = true -> au_holder s = Some i) as Hh by apply (ok_holder s Hok i phase Hi).
  destruct phase as [peer_index|request|request|request|request|request outcome]; cbn [has_lock] in Hh.
  - destruct (CaptureAutoStartPersistenceRequestLocked _ _ _) as [ [request a]|] eqn:E; intros [= <-].
    + eapply start_ok; [done..|]. right. by exists request.
    + pose proof (start_ok i peer_index (Ph_End None Set_Rejected) (au_persistence s) s Hok Hi (or_introl (conj eq_refl eq_refl))) as H.
      by destruct s.
  - destruct (au_holder s) as [h|] eqn:Hnone; [done|]. intros [= <-].
    apply (move_ok i _ (Ph_Locked request) request s _ Hok Hi); moved Hnone.
  - specialize (Hh eq_refl). rewrite IsCurrent_matches by by apply Hm.
    destruct (Z.eqb_spec (rq_generation request) (m_current_generation (au_persistence s))) as [Ec|Ec]; intros [= <-].
    + apply (move_ok i _ (Ph_Current request) request s _ Hok Hi); moved Hh. intros _. by right.
    + apply (move_ok i _ (Ph_End (Some request) Set_StaleBefore) request s _ Hok Hi); moved Hh.
  - specialize (Hh eq_refl). destruct (StoreAutoStartPeerName _ _) as [store_rc files] eqn:Es.
    destruct store_rc as [error|[] ]; intros [= <-].
    + apply (move_ok i _ (Ph_End (Some request) (Set_Failed error)) request s _ Hok Hi); moved Hh. by right.
    + apply (move_ok i _ (Ph_Stored request) request s _ Hok Hi); moved Hh; [by right|].
      intros stored [= <-]. apply stored_name in Es as (_ & _ & Et & _). unfold file_holds. etransitivity; [exact Et|].
      by destruct (requested_name request) as [ [|c name]|].
  - specialize (Hh eq_refl). rewrite IsCurrent_matches by by apply Hm.
    destruct (Z.eqb_spec (rq_generation request) (m_current_generation (au_persistence s))) as [Ec|Ec]; cbn [negb].
    + unfold SetAutoStartPeerIndex. destruct (Hm request eq_refl) as [-> _]. cbn [negb]. intros [= <-].
      apply (move_ok i _ (Ph_End (Some request) Set_Done) request s _ Hok Hi); moved Hh; [by right|].
      intros finished [= <-]. split; [done|]. split; [|done].
      eapply file_holds_files; [|by apply (ok_stored s Hok i)]. done.
    + intros [= <-]. apply (move_ok i _ (Ph_End (Some request) Set_StaleAfter) request s _ Hok Hi); moved Hh.
  - done.
Qed.
Lemma set_run_ok schedule s : requests_ok s -> requests_ok (run schedule s).
Proof.
  revert s. induction schedule as [|i schedule IH]; intros s Hok; [done|]. cbn [run foldl]. apply IH.
  destruct (set_step i s) as [s'|] eqn:E; [by eapply set_step_ok|done].
Qed.

(** No thread has begun. *)
Definition at_start (s : AutoStart) : Prop :=
  au_persistence s = persistence_init /\ au_holder s = None /\
  Forall (fun phase => exists peer_index, phase = Ph_Start peer_index) (au_threads s).
Lemma at_start_ok s : at_start s -> names_end (au_registry s) -> Z.of_nat (length (au_threads s)) < 2 ^ 32 - 1 -> requests_ok s.
Proof.
  intros (Ea & Eh & Ht) Hnames Hfew. rewrite Forall_lookup in Ht.
  assert (forall i phase, au_threads s !! i = Some phase -> exists p, phase = Ph_Start p) as Hall by exact Ht.
  split; rewrite ?Ea, ?Eh; try done; try lia.
  - cbn. lia.
  - intros i phase request Hi Hr. by destruct (Hall _ _ Hi) as [p ->].
  - intros i j phase phase' request request' Hi _ Hr. by destruct (Hall _ _ Hi) as [p ->].
  - intros i phase Hi. by destruct (Hall _ _ Hi) as [p ->].
  - intros i request Hi. by destruct (Hall _ _ Hi).
  - intros i request Hi. by destruct (Hall _ _ Hi).
  - intros i request outcome Hi. by destruct (Hall _ _ Hi).
  - intros i request outcome Hi. by destruct (Hall _ _ Hi).
Qed.
(** *** The end of a run *)

Definition has_ended (phase : Phase) : bool := match phase with Ph_End _ _ => true | _ => false end.
(** Some thread can go on until all have ended. *)
Lemma progress s : requests_ok s ->
  Forall (fun phase => has_ended phase = true) (au_threads s) \/ exists i, is_Some (set_step i s).
Proof.
  intros Hok. assert (forall i phase, au_threads s !! i = Some phase ->
    has_ended phase = true \/ has_lock phase = true \/ (au_holder s = None -> is_Some (set_step i s))) as Hcase.
  { intros i phase Hi. unfold set_step. rewrite Hi. cbn [mbind option_bind].
    destruct phase; [|right; right; intros ->; by eexists|by right; left..|by left].
    right; right. intros _. destruct (CaptureAutoStartPersistenceRequestLocked _ _ _) as [ [? ?]|]; by eexists. }
  destruct (au_holder s) as [h|] eqn:Eh.
  - destruct (ok_holder_thread s Hok h Eh) as [phase Hi]. right. exists h.
    assert (has_lock phase = true) as Hl by by apply (ok_holder s Hok h phase Hi). unfold set_step. rewrite Hi. cbn [mbind option_bind].
    destruct phase as [| |request|request|request|]; [done..| | | |done]; [by eexists| |by eexists].
    destruct (StoreAutoStartPeerName _ _). by eexists.
  - destruct (decide (Forall (fun phase => has_ended phase = true) (au_threads s))) as [H|H]; [by left|right].
    apply not_Forall_Exists in H; [|apply _]. apply Exists_exists in H as (phase & Hin & Hn).
    apply list_elem_of_lookup in Hin as [i Hi]. destruct (Hcase _ _ Hi) as [?|[Hl|Hg] ]; [done| |].
    + apply (ok_holder s Hok i phase Hi) in Hl. congruence.
    + exists i. by apply Hg.
Qed.

(** How many steps a call still has. *)
Definition stage (phase : Phase) : nat :=
  match phase with
  | Ph_Start _ => 5 | Ph_Captured _ => 4 | Ph_Locked _ => 3 | Ph_Current _ => 2 | Ph_Stored _ => 1 | Ph_End _ _ => 0
  end.
Definition steps_left (s : AutoStart) : nat := sum_list (stage <$> au_threads s).
Lemma sum_insert i old new threads : threads !! i = Some old -> (stage new < stage old)%nat ->
  (sum_list (stage <$> <[i := new]> threads) < sum_list (stage <$> threads))%nat.
Proof.
  intros Hi Hlt. rewrite list_fmap_insert. revert i Hi. induction threads as [|p threads IH]; intros [|i] Hi; [done..| |].
  - injection Hi as ->. cbn. lia.
  - specialize (IH i Hi). change (<[S i := stage new]> (stage <$> p :: threads)) with (stage p :: <[i := stage new]> (stage <$> threads)).
    cbn. lia.
Qed.
Lemma set_step_less i s s' : set_step i s = Some s' -> (steps_left s' < steps_left s)%nat.
Proof.
  unfold set_step, steps_left. destruct (au_threads s !! i) as [phase|] eqn:Hi; [|done]. cbn [mbind option_bind].
  assert (forall new t, (stage new < stage phase)%nat -> au_threads t = <[i := new]> (au_threads s) ->
    (sum_list (stage <$> au_threads t) < sum_list (stage <$> au_threads s))%nat) as Hstep.
  { intros new t Hn ->. by eapply sum_insert. }
  destruct phase as [peer_index|request|request|request|request|request outcome]; cbn [stage] in Hstep.
  - destruct (CaptureAutoStartPersistenceRequestLocked _ _ _) as [ [request a]|]; intros [= <-]; eapply Hstep; [|done| |done]; cbn; lia.
  - destruct (au_holder s); [done|]. intros [= <-]. eapply Hstep; [|done]. cbn. lia.
  - destruct (IsCurrentAutoStartPersistenceRequestLocked _ _ _); intros [= <-]; eapply Hstep; [|done| |done]; cbn; lia.
  - destruct (StoreAutoStartPeerName _ _) as [ [error|[] ] files]; intros [= <-]; eapply Hstep; [|done| |done]; cbn; lia.
  - destruct (negb _); [intros [= <-]; eapply Hstep; [|done]; cbn; lia|].
    destruct (SetAutoStartPeerIndex _ _) as [ [|] g]; intros [= <-]; eapply Hstep; [|done| |done]; cbn; lia.
  - done.
Qed.
Lemma run_to_end s : requests_ok s -> exists rest, Forall (fun phase => has_ended phase = true) (au_threads (run rest s)).
Proof.
  remember (steps_left s) as n eqn:En. revert s En. induction (lt_wf n) as [n _ IH]. intros s -> Hok.
  destruct (progress s Hok) as [H|(i & s' & Hs)]; [by exists []|].
  destruct (IH (steps_left s') (set_step_less _ _ _ Hs) s' eq_refl (set_step_ok _ _ _ Hok Hs)) as [rest Hrest].
  exists (i :: rest). cbn [run foldl]. by rewrite Hs.
Qed.

(** C27. Calls of [SetAutoStartPeer] on any number of threads, whose steps come in any
    order, on a daemon whose peers have names that fit their arrays: at most one call is
    between its checks at a time; the call of the last request to be captured, once it
    has ended, was not found stale and did not abort, and, unless the card failed, the
    daemon's peer to start and the name in the file are the ones it asked for; and every
    run can be continued until all calls have ended. *)
Theorem last_autostart_request_wins s schedule : at_start s -> names_end (au_registry s) ->
  Z.of_nat (length (au_threads s)) < 2 ^ 32 - 1 ->
  (forall i j phase phase', au_threads (run schedule s) !! i = Some phase -> au_threads (run schedule s) !! j = Some phase' ->
     has_lock phase = true -> has_lock phase' = true -> i = j) /\
  (forall i request outcome, au_threads (run schedule s) !! i = Some (Ph_End (Some request) outcome) ->
     current request (run schedule s) ->
     match outcome with
     | Set_Done => m_auto_start_peer_index (au_registry (run schedule s)) = rq_peer_index request /\
                   file_holds request (run schedule s)
     | Set_Failed _ => True
     | Set_Rejected | Set_StaleBefore | Set_StaleAfter | Set_Aborted => False
     end) /\
  exists rest, Forall (fun phase => has_ended phase = true) (au_threads (run (schedule ++ rest) s)).
Proof.
  intros Hs Hnames Hfew. pose proof (set_run_ok schedule s (at_start_ok s Hs Hnames Hfew)) as Hok. split; [|split].
  - intros i j phase phase' Hi Hj Hl Hl'. apply (ok_holder _ Hok _ _ Hi) in Hl. apply (ok_holder _ Hok _ _ Hj) in Hl'. congruence.
  - intros i request outcome Hi Hc. destruct outcome; [|  |done| | |].
    + by destruct (ok_abort _ Hok _ _ _ Hi) as [_ H]; specialize (H eq_refl).
    + apply (ok_stale _ Hok _ _ _ Hi); [by left|done].
    + apply (ok_stale _ Hok _ _ _ Hi); [by right|done].
    + by apply (ok_abort _ Hok _ _ _ Hi).
    + by destruct (ok_done _ Hok _ _ Hi Hc) as (? & ? & _).
  - destruct (run_to_end _ Hok) as [rest Hrest]. exists rest. unfold run in *. by rewrite foldl_app.
Qed.
End Startup.

(** Two calls: the second captures its request after the first has stored its name. *)
Definition named_peer (name : string) : PeerRuntime :=
  runtime_init <| m_config := (m_config runtime_init) <| cf_name := print_name (chars name) |> |>.
Definition two_peers : PeerRegistry := mk_registry [named_peer "home"; named_peer "work"] 2 (-1) (-1).
Definition two_calls : @AutoStart (memory_files []) :=
  @mk_autostart (memory_files []) two_peers persistence_init (memory ∅) None [Ph_Start 0; Ph_Start 1].
Definition overtaking : list nat := [0; 0; 0; 0; 1; 0; 1; 1; 1; 1]%nat.

Lemma two_peers_end : names_end two_peers.
Proof.
  intros i r. unfold PeerAt. destruct (i <? m_count two_peers); [|done].
  destruct (Z.to_nat i) as [|[|k] ]; intros [= <-]; vm_compute; lia.
Qed.
Lemma last_autostart_request_wins_witness : exists request,
  au_threads (run overtaking two_calls) !! 1%nat = Some (Ph_End (Some request) Set_Done) /\
  au_threads (run overtaking two_calls) !! 0%nat <> Some (Ph_End (Some request) Set_Done) /\
  m_auto_start_peer_index (au_registry (run overtaking two_calls)) = 1 /\
  @content _ (memory_laws []) (fs_files (au_files (run overtaking two_calls))) (on_card AutoStartPath) = Some (chars "work").
Proof.
  assert (Hrun : au_threads (run overtaking two_calls) =
    [Ph_End (Some (mk_request 1 0 (print_name (chars "home")))) Set_StaleAfter;
     Ph_End (Some (mk_request 2 1 (print_name (chars "work")))) Set_Done]) by (vm_compute; reflexivity).
  pose proof (proj2 (@last_autostart_request_wins (memory_files []) (memory_laws []) two_calls overtaking
    ltac:(split; [reflexivity|]; split; [reflexivity|]; repeat (constructor; [eexists; reflexivity|]); constructor)
    two_peers_end ltac:(reflexivity))) as [H _].
  specialize (H 1%nat (mk_request 2 1 (print_name (chars "work"))) Set_Done).
  assert (Hlook : au_threads (run overtaking two_calls) !! 1%nat =
    Some (Ph_End (Some (mk_request 2 1 (print_name (chars "work")))) Set_Done)) by (rewrite Hrun; reflexivity).
  specialize (H Hlook ltac:(vm_compute; reflexivity)). destruct H as [Hindex Hfile].
  exists (mk_request 2 1 (print_name (chars "work"))). split; [exact Hlook|]. split; [rewrite Hrun; discriminate|].
  split; [exact Hindex|]. unfold file_holds in Hfile. etransitivity; [exact Hfile|]. vm_compute; reflexivity.
Defined.
