(* ===== verification/AddrInfo.v ===== *)
(** * The resolver's address lists

    Models [platform/resolver_serialization.cpp], which writes the hints for the
    resolver service and reads the list of addresses it answers with.  A read gives
    [None] where the function returns [false]; the endpoint it then leaves is not used. *)

From S2P Require Import Prelude Endian Messages PacketQueue Platform Session Timers Device RuntimeEvents.
From Stdlib Require Import Btauto.
Local Open Scope Z_scope.

Definition AddrInfoWireHeaderSize : nat := 24.
Definition AddrInfoWireMagic : Z := 0xBEEFCAFE.
Definition SockaddrInetWireSize : nat := 16.
Definition SockaddrInet6WireSize : nat := 28.
Definition AddrInfoListTerminatorWireSize : nat := 4.
Definition HorizonAddrInfoHintsWireSize : nat := AddrInfoWireHeaderSize + 4 + 1 + AddrInfoListTerminatorWireSize.
Definition HorizonAfInet : Z := 2.
Definition HorizonAfInet6 : Z := 28.

Definition ReadBe32 (input : bytes) (offset : nat) : option Z :=
  if (length input <? offset)%nat || (length input - offset <? 4)%nat then None
  else Some (Z.lor (Z.lor (Z.lor (Z.shiftl (byte_at input offset) 24) (Z.shiftl (byte_at input (offset + 1)) 16))
                          (Z.shiftl (byte_at input (offset + 2)) 8)) (byte_at input (offset + 3))).
(** [WriteBe32(output, offset, value)]: the buffer afterwards. *)
Definition WriteBe32 (offset : nat) (value : Z) (output : bytes) : option bytes :=
  if (length output <? offset)%nat || (length output - offset <? 4)%nat then None
  else Some (write_at output offset (StoreBe32 value)).
Definition ReadLe16 (input : bytes) (offset : nat) : option Z :=
  if (length input <? offset)%nat || (length input - offset <? 2)%nat then None
  else Some (u16 (Z.lor (byte_at input offset) (Z.shiftl (byte_at input (offset + 1)) 8))).

Definition ParseSockaddr (address : bytes) (header_family : Z) : option endpoint :=
  if (length address <? 2)%nat || negb (byte_at address 1 =? header_family) then None
  else
    port ← ReadLe16 address 2;
    if header_family =? HorizonAfInet then
      if (length address <? SockaddrInetWireSize)%nat then None
      else Some (mk_endpoint address_family_inet port (write_at (zeros 16) 0 (reverse (subspan address 4 4))))
    else if header_family =? HorizonAfInet6 then
      if (length address <? SockaddrInet6WireSize)%nat then None
      else Some (mk_endpoint address_family_inet6 port (write_at (zeros 16) 0 (subspan address 8 16)))
    else None.

Definition serialize_horizon_addrinfo_hints (flags family socket_type protocol : Z) : option bytes :=
  let output := zeros HorizonAddrInfoHintsWireSize in
  output ← WriteBe32 0 AddrInfoWireMagic output;
  output ← WriteBe32 4 (u32 flags) output;
  output ← WriteBe32 8 (u32 family) output;
  output ← WriteBe32 12 (u32 socket_type) output;
  output ← WriteBe32 16 (u32 protocol) output;
  output ← WriteBe32 20 0 output;
  WriteBe32 (length output - AddrInfoListTerminatorWireSize) 0 output.

(** [std::find(input.begin() + from, input.end(), 0)] as an offset from [from]. *)
Fixpoint find_zero (input : bytes) : option nat :=
  match input with
  | [] => None
  | c :: rest => if c =? 0 then Some 0%nat else S <$> find_zero rest
  end.

(** The loop from [cursor], with the endpoint selected so far; every turn advances the
    cursor, so [fuel] above the length of the rest is enough. *)
Fixpoint records_loop (fuel : nat) (input : bytes) (cursor : nat) (selected : option endpoint) : option endpoint :=
  match fuel with
  | O => None
  | S fuel =>
      if negb (cursor <? length input)%nat then selected
      else if (length input - cursor =? AddrInfoListTerminatorWireSize)%nat then
        terminator ← ReadBe32 input cursor;
        if negb (terminator =? 0) then None else selected
      else if (length input - cursor <? AddrInfoWireHeaderSize)%nat then None
      else
        magic ← ReadBe32 input cursor;
        family ← ReadBe32 input (cursor + 8);
        address_length ← ReadBe32 input (cursor + 20);
        if negb (magic =? AddrInfoWireMagic) then None
        else
          let address_length := if address_length =? 0 then 4 else address_length in
          if Z.of_nat (length input - cursor - AddrInfoWireHeaderSize) <? address_length then None
          else
            let address_offset := (cursor + AddrInfoWireHeaderSize)%nat in
            let name_offset := (address_offset + Z.to_nat address_length)%nat in
            terminator ← find_zero (drop name_offset input);
            let next := S (name_offset + terminator) in
            let parsed := ParseSockaddr (subspan input address_offset (Z.to_nat address_length)) family in
            let selected := match selected with Some endpoint => Some endpoint | None => parsed end in
            records_loop fuel input next selected
  end.
Definition parse_horizon_addrinfo_result (input : bytes) : option endpoint :=
  records_loop (S (length input)) input 0 None.

(** ** Lists of records *)

Record AddrInfo := mk_addrinfo {
  ai_flags : bytes;
  ai_family : Z;
  ai_socktype : bytes;
  ai_protocol : bytes;
  ai_addrlen : Z;
  ai_addr : bytes;
  ai_canonname : bytes
}.
(** The length field is zero for an absent address, which takes four bytes. *)
Record addrinfo_ok (r : AddrInfo) : Prop := {
  ao_flags : bytes_of 4 (ai_flags r);
  ao_family : is_u32 (ai_family r);
  ao_socktype : bytes_of 4 (ai_socktype r);
  ao_protocol : bytes_of 4 (ai_protocol r);
  ao_addr : bytes_ok (ai_addr r);
  ao_addrlen : is_u32 (ai_addrlen r) /\
    (ai_addrlen r = 0 /\ length (ai_addr r) = 4%nat \/ ai_addrlen r <> 0 /\ Z.of_nat (length (ai_addr r)) = ai_addrlen r);
  ao_name : bytes_ok (ai_canonname r) /\ Forall (fun c => c <> 0) (ai_canonname r)
}.
Definition encode_addrinfo (r : AddrInfo) : bytes :=
  StoreBe32 AddrInfoWireMagic ++ ai_flags r ++ StoreBe32 (ai_family r) ++ ai_socktype r ++ ai_protocol r ++
  StoreBe32 (ai_addrlen r) ++ ai_addr r ++ ai_canonname r ++ [0].
Definition encode_list (records : list AddrInfo) : bytes := concat (map encode_addrinfo records).
(** The first endpoint of a list that can be used. *)
Definition usable (r : AddrInfo) : option endpoint := ParseSockaddr (ai_addr r) (ai_family r).
Fixpoint first_usable (records : list AddrInfo) : option endpoint :=
  match records with
  | [] => None
  | r :: records => match usable r with Some endpoint => Some endpoint | None => first_usable records end
  end.

(** ** Big-endian words *)

Definition LoadBe32 (data : bytes) : Z :=
  Z.lor (Z.lor (Z.lor (Z.shiftl (byte_at data 0) 24) (Z.shiftl (byte_at data 1) 16)) (Z.shiftl (byte_at data 2) 8))
        (byte_at data 3).
Lemma LoadBe32_reverse a b c d : LoadBe32 [a; b; c; d] = LoadLe32 [d; c; b; a].
Proof.
  unfold LoadBe32, LoadLe32, byte_at. cbn. apply Z.bits_inj. intros i. rewrite !Z.lor_spec. btauto.
Qed.
Lemma four_bytes data : bytes_of 4 data -> exists a b c d, data = [a; b; c; d].
Proof. intros [Hl _]. destruct data as [|a [|b [|c [|d [|e data] ] ] ] ]; try done. by exists a, b, c, d. Qed.
Lemma bytes_reverse l : bytes_ok l -> bytes_ok (reverse l).
Proof. unfold bytes_ok. by rewrite Forall_reverse. Qed.
Lemma LoadBe32_StoreBe32 v : is_u32 v -> LoadBe32 (StoreBe32 v) = v.
Proof. intros Hv. unfold StoreBe32. rewrite LoadBe32_reverse. exact (LoadLe32_StoreLe32 v [] Hv). Qed.
Lemma StoreBe32_LoadBe32 data : bytes_of 4 data -> StoreBe32 (LoadBe32 data) = data /\ is_u32 (LoadBe32 data).
Proof.
  intros Hd. destruct (four_bytes data Hd) as (a & b & c & d & ->). destruct Hd as [_ Hok].
  assert (bytes_ok [d; c; b; a]) as Hr by exact (bytes_reverse [a; b; c; d] Hok). rewrite LoadBe32_reverse. split.
  - change (StoreBe32 (LoadLe32 [d; c; b; a])) with (reverse (StoreLe32 (LoadLe32 [d; c; b; a]))).
    rewrite StoreLe32_LoadLe32 by (done || cbn; lia). done.
  - by apply LoadLe32_width.
Qed.
Lemma ReadBe32_within input offset : (offset + 4 <= length input)%nat ->
  ReadBe32 input offset = Some (LoadBe32 (subspan input offset 4)).
Proof.
  intros H. unfold ReadBe32. rewrite (proj2 (Nat.ltb_ge _ _)), (proj2 (Nat.ltb_ge _ _)) by lia. cbn [orb]. f_equal.
  unfold LoadBe32, subspan. rewrite !byte_at_take, !byte_at_drop by lia. by rewrite Nat.add_0_r.
Qed.
Lemma find_zero_spec input k : find_zero input = Some k <->
  exists before after, input = before ++ 0 :: after /\ length before = k /\ Forall (fun c => c <> 0) before.
Proof.
  revert k. induction input as [|c input IH]; intros k; cbn [find_zero].
  - split; [done|]. by intros ([|? ?] & after & ? & _).
  - destruct (Z.eqb_spec c 0) as [->|Hc].
    + split; [intros [= <-]; by exists [], input|]. intros ([|d before] & after & E & <- & Hb); [done|].
      injection E as <- _. by apply Forall_cons in Hb as [? _].
    + rewrite fmap_Some. split.
      * intros (k' & E & ->). apply IH in E as (before & after & -> & <- & Hb). exists (c :: before), after.
        split; [done|]. split; [done|]. by constructor.
      * intros ([|d before] & after & E & <- & Hb); [by injection E as ? _|].
        injection E as <- ->. exists (length before). split; [|done].
        apply IH. exists before, after. split; [done|]. split; [done|]. by apply Forall_cons in Hb as [_ ?].
Qed.

(** ** One record *)

(** The record that a text begins with, and its length. *)
Definition decode_addrinfo (rest : bytes) : option (AddrInfo * nat) :=
  let part i := subspan rest (4 * i) 4 in
  if (length rest <? AddrInfoWireHeaderSize)%nat || negb (LoadBe32 (part 0%nat) =? AddrInfoWireMagic) then None
  else
    let addrlen := LoadBe32 (part 5%nat) in
    let address_length := if addrlen =? 0 then 4 else addrlen in
    if Z.of_nat (length rest - AddrInfoWireHeaderSize) <? address_length then None
    else
      let name_offset := (AddrInfoWireHeaderSize + Z.to_nat address_length)%nat in
      k ← find_zero (drop name_offset rest);
      Some (mk_addrinfo (part 1%nat) (LoadBe32 (part 2%nat)) (part 3%nat) (part 4%nat) addrlen
              (subspan rest AddrInfoWireHeaderSize (Z.to_nat address_length)) (subspan rest name_offset k),
            S (name_offset + k)).

Lemma magic_u32 : is_u32 AddrInfoWireMagic.
Proof. unfold AddrInfoWireMagic, in_width. lia. Qed.
(** A record that is decoded is the one that the text begins with. *)
Lemma decode_sound rest r n : bytes_ok rest -> decode_addrinfo rest = Some (r, n) ->
  addrinfo_ok r /\ exists rest', rest = encode_addrinfo r ++ rest' /\ n = length (encode_addrinfo r).
Proof.
  intros Hok. unfold decode_addrinfo. destruct (Nat.ltb_spec (length rest) AddrInfoWireHeaderSize) as [|Hl]; [done|].
  unfold AddrInfoWireHeaderSize in Hl.
  assert (forall i, (i <= 5)%nat -> bytes_of 4 (subspan rest (4 * i) 4)) as Hpart.
  { intros i Hi. apply bytes_of_subspan; [done|lia]. }
  assert (rest = subspan rest 0 4 ++ subspan rest 4 4 ++ subspan rest 8 4 ++ subspan rest 12 4 ++ subspan rest 16 4 ++
    subspan rest 20 4 ++ drop 24 rest) as Erest.
  { unfold subspan. do 24 (destruct rest as [|? rest]; [cbn in Hl; lia|]). done. }
  cbn [orb]. destruct (negb _) eqn:Em; [done|]. apply negb_false_iff, Z.eqb_eq in Em. cbn [Nat.mul Nat.add] in *.
  set (addrlen := LoadBe32 (subspan rest 20 4)) in *.
  destruct (StoreBe32_LoadBe32 _ (Hpart 5%nat ltac:(lia))) as [Elen Hlen]. fold addrlen in Elen, Hlen.
  destruct (StoreBe32_LoadBe32 _ (Hpart 2%nat ltac:(lia))) as [Efam Hfam].
  destruct (StoreBe32_LoadBe32 _ (Hpart 0%nat ltac:(lia))) as [Emag _]. cbn [Nat.mul Nat.add] in *. rewrite Em in Emag.
  set (address_length := if addrlen =? 0 then 4 else addrlen).
  assert (0 < address_length) as Hpos by (unfold address_length, in_width in *; destruct (Z.eqb_spec addrlen 0); lia).
  destruct (Z.ltb_spec (Z.of_nat (length rest - AddrInfoWireHeaderSize)) address_length) as [|Hroom]; [done|].
  unfold AddrInfoWireHeaderSize in *. destruct (find_zero _) as [k|] eqn:Ez; [|done]. cbn [mbind option_bind]. intros [= <- <-].
  apply find_zero_spec in Ez as (name & after & Ename & <- & Hname).
  assert (length (subspan rest 24 (Z.to_nat address_length)) = Z.to_nat address_length) as Eaddr by (rewrite length_subspan; lia).
  assert (subspan rest (24 + Z.to_nat address_length) (length name) = name) as En.
  { unfold subspan. rewrite Ename, take_app_length. done. }
  assert (drop 24 rest = subspan rest 24 (Z.to_nat address_length) ++ name ++ 0 :: after) as Ebody.
  { rewrite <- Ename. unfold subspan. by rewrite <- drop_drop, take_drop. }
  assert (bytes_ok (drop 24 rest)) as Hbody by by apply Forall_drop. rewrite Ebody in Hbody.
  apply bytes_ok_app in Hbody as [Haddr Hbody]. apply bytes_ok_app in Hbody as [Hnameok _].
  change (subspan rest _ (length name)) with (subspan rest (24 + Z.to_nat address_length) (length name)). rewrite En. split.
  - split; cbn [ai_flags ai_family ai_socktype ai_protocol ai_addr ai_addrlen ai_canonname].
    + exact (Hpart 1%nat ltac:(lia)).
    + exact Hfam.
    + exact (Hpart 3%nat ltac:(lia)).
    + exact (Hpart 4%nat ltac:(lia)).
    + done.
    + split; [done|]. rewrite Eaddr. unfold address_length in *. destruct (Z.eqb_spec addrlen 0); [left; split; [done|lia]|right; split; [done|lia] ].
    + done.
  - exists after. unfold encode_addrinfo. cbn [ai_flags ai_family ai_socktype ai_protocol ai_addr ai_addrlen ai_canonname].
    change (StoreBe32 addrlen = subspan rest 20 4) in Elen. rewrite Elen, Efam, Emag. split.
    + rewrite Erest at 1. rewrite Ebody. by rewrite <- !app_assoc.
    + assert (forall o, (o + 4 <= 24)%nat -> length (subspan rest o 4) = 4%nat) as Hfour.
      { intros o Ho. rewrite length_subspan. lia. }
      rewrite !length_app, Eaddr, !Hfour by lia. cbn [length]. lia.
Qed.
(** A record at the front of a text is decoded. *)
Lemma decode_encode r rest : addrinfo_ok r -> decode_addrinfo (encode_addrinfo r ++ rest) = Some (r, length (encode_addrinfo r)).
Proof.
  intros [Hfl Hfam Hso Hpr Haddr [Hlen Hal] [Hn Hnz] ]. destruct r as [flags family socktype protocol addrlen addr name].
  cbn [ai_flags ai_family ai_socktype ai_protocol ai_addr ai_addrlen ai_canonname] in *.
  destruct (four_bytes _ Hfl) as (f0 & f1 & f2 & f3 & ->), (four_bytes _ Hso) as (s0 & s1 & s2 & s3 & ->),
    (four_bytes _ Hpr) as (p0 & p1 & p2 & p3 & ->).
  pose proof (LoadBe32_StoreBe32 _ Hfam) as Efam. pose proof (LoadBe32_StoreBe32 _ Hlen) as Elen.
  destruct (four_bytes _ (StoreBe32_bytes family)) as (a0 & a1 & a2 & a3 & Ea).
  destruct (four_bytes _ (StoreBe32_bytes addrlen)) as (l0 & l1 & l2 & l3 & El).
  pose proof (LoadBe32_StoreBe32 _ magic_u32) as Emag.
  destruct (four_bytes _ (StoreBe32_bytes AddrInfoWireMagic)) as (m0 & m1 & m2 & m3 & Em).
  unfold encode_addrinfo. cbn [ai_flags ai_family ai_socktype ai_protocol ai_addr ai_addrlen ai_canonname].
  rewrite Ea in *. rewrite El in *. rewrite Em in *. set (body := addr ++ name ++ [0]).
  cbn [app]. unfold decode_addrinfo, AddrInfoWireHeaderSize. cbv zeta. cbn [Nat.mul Nat.add].
  repeat match goal with |- context [subspan (m0 :: ?t) ?o 4] =>
    let part := eval cbv [subspan firstn skipn] in (subspan (m0 :: t) o 4) in change (subspan (m0 :: t) o 4) with part end.
  rewrite Emag, Elen, Efam, Z.eqb_refl. cbn [negb orb].
  match goal with |- context [(?n <? 24)%nat] => rewrite (proj2 (Nat.ltb_ge n 24)) by (cbn [length]; lia) end. cbn [orb].
  set (address_length := if addrlen =? 0 then 4 else addrlen).
  assert (Z.of_nat (length addr) = address_length) as Eal by (unfold address_length; destruct (Z.eqb_spec addrlen 0); lia).
  assert (Z.to_nat address_length = length addr) as -> by lia.
  destruct (Z.ltb_spec (Z.of_nat (length (m0 :: m1 :: m2 :: m3 :: f0 :: f1 :: f2 :: f3 :: a0 :: a1 :: a2 :: a3 :: s0 :: s1 :: s2 :: s3 :: p0 :: p1 :: p2 :: p3 :: l0 :: l1 :: l2 :: l3 :: body ++ rest) - 24)) address_length) as [Hlt|_].
  { exfalso. cbn [length Nat.sub] in Hlt. unfold body in Hlt. rewrite !length_app in Hlt. lia. }
  unfold subspan. cbn [drop Nat.add]. unfold body. rewrite <- !app_assoc, drop_app_length, drop_0, take_app_length.
  assert (find_zero (name ++ [0] ++ rest) = Some (length name)) as ->.
  { apply find_zero_spec. by exists name, rest. }
  cbn [mbind option_bind]. rewrite take_app_length. repeat f_equal. cbn [length]. rewrite !length_app. cbn. lia.
Qed.

Lemma records_step fuel input cursor selected : (cursor < length input)%nat ->
  (length input - cursor <> AddrInfoListTerminatorWireSize)%nat ->
  records_loop (S fuel) input cursor selected =
    match decode_addrinfo (drop cursor input) with
    | Some (r, n) => records_loop fuel input (cursor + n) (match selected with Some e => Some e | None => usable r end)
    | None => None
    end.
Proof.
  intros Hc Hn. cbn [records_loop]. rewrite (proj2 (Nat.ltb_lt _ _) Hc), (proj2 (Nat.eqb_neq _ _) Hn). cbn [negb].
  unfold decode_addrinfo. rewrite length_drop. destruct (Nat.ltb_spec (length input - cursor) AddrInfoWireHeaderSize) as [|Hl]; [done|].
  unfold AddrInfoWireHeaderSize in Hl. rewrite !ReadBe32_within by lia. cbn [mbind option_bind orb].
  assert (forall o n, subspan (drop cursor input) o n = subspan input (cursor + o) n) as Hs.
  { intros o n. unfold subspan. by rewrite drop_drop. }
  rewrite !Hs. cbn [Nat.mul Nat.add]. rewrite Nat.add_0_r.
  destruct (negb _); [done|]. set (address_length := if _ =? 0 then 4 else _).
  destruct (Z.ltb_spec (Z.of_nat (length input - cursor - AddrInfoWireHeaderSize)) address_length); [done|].
  rewrite drop_drop, Nat.add_assoc. destruct (find_zero _) as [k|]; [|done]. cbn [mbind option_bind].
  unfold usable. cbn [ai_addr ai_family].
  by replace (S (cursor + AddrInfoWireHeaderSize + Z.to_nat address_length + k)) with
    (cursor + S (AddrInfoWireHeaderSize + Z.to_nat address_length + k))%nat by lia.
Qed.

(** ** A whole list *)

Lemma encode_addrinfo_length r : addrinfo_ok r -> (25 <= length (encode_addrinfo r))%nat.
Proof.
  intros [ [Hfl _] _ [Hso _] [Hpr _] _ [_ Hal] _]. unfold encode_addrinfo. rewrite !length_app, Hfl, Hso, Hpr.
  assert (forall v, length (StoreBe32 v) = 4%nat) as Hw by done. rewrite !Hw. cbn [length]. lia.
Qed.
Lemma terminator_exact l : bytes_ok l -> length l = 4%nat -> (LoadBe32 l =? 0) = true <-> l = zeros 4.
Proof.
  intros Hok Hl. split; [|by intros ->]. intros H. apply Z.eqb_eq in H.
  destruct (StoreBe32_LoadBe32 l (conj Hl Hok)) as [E _]. rewrite H in E. by rewrite <- E.
Qed.
Lemma records_loop_exact fuel input cursor selected result : bytes_ok input -> (cursor <= length input)%nat ->
  (length input - cursor < fuel)%nat ->
  records_loop fuel input cursor selected = Some result <->
  exists records terminator, Forall addrinfo_ok records /\ (terminator = [] \/ terminator = zeros 4) /\
    drop cursor input = encode_list records ++ terminator /\
    match selected with Some endpoint => Some endpoint | None => first_usable records end = Some result.
Proof.
  intros Hok. revert cursor selected. induction fuel as [|fuel IH]; intros cursor selected Hc Hfuel; [lia|].
  assert (bytes_ok (drop cursor input)) as Hrest by by apply Forall_drop.
  assert (length (drop cursor input) = (length input - cursor)%nat) as Elen by apply length_drop.
  (* What is left is not a list that begins with a record. *)
  assert (forall records terminator, (length input - cursor <= 4)%nat -> Forall addrinfo_ok records ->
    drop cursor input = encode_list records ++ terminator -> records = [] /\ drop cursor input = terminator) as Hshort.
  { intros [|r records] terminator Hl Hr E; [done|]. apply Forall_cons in Hr as [Hr _].
    pose proof (encode_addrinfo_length r Hr). apply (f_equal length) in E. rewrite Elen in E. cbn [encode_list map concat] in E.
    rewrite !length_app in E. lia. }
  destruct (Nat.ltb_spec cursor (length input)) as [Hlt|Hge].
  2: { cbn [records_loop]. rewrite (proj2 (Nat.ltb_ge _ _) Hge). cbn [negb]. rewrite drop_ge in Hshort |- * by done. split.
    - intros E. exists [], []. split; [constructor|]. split; [by left|]. split; [done|]. by destruct selected.
    - intros (records & terminator & Hr & _ & E & Hs). destruct (Hshort records terminator ltac:(lia) Hr E) as [-> _].
      by destruct selected. }
  destruct (decide (length input - cursor = AddrInfoListTerminatorWireSize)%nat) as [Ht|Ht].
  { cbn [records_loop]. rewrite (proj2 (Nat.ltb_lt _ _) Hlt), (proj2 (Nat.eqb_eq _ _) Ht). cbn [negb].
    unfold AddrInfoListTerminatorWireSize in Ht. rewrite ReadBe32_within by lia. cbn [mbind option_bind].
    assert (subspan input cursor 4 = drop cursor input) as -> by (unfold subspan; rewrite take_ge; [done|lia]).
    pose proof (terminator_exact _ Hrest ltac:(lia)) as Hterm. split.
    - destruct (LoadBe32 _ =? 0); [|done]. cbn [negb]. intros E. exists [], (zeros 4). split; [constructor|]. split; [by right|].
      split; [by apply Hterm|]. by destruct selected.
    - intros (records & terminator & Hr & Hz & E & Hs). destruct (Hshort records terminator ltac:(lia) Hr E) as [-> E'].
      destruct Hz as [-> | ->]; [by rewrite E' in Elen; cbn in Elen; lia|]. rewrite (proj2 Hterm E'). cbn [negb]. by destruct selected. }
  rewrite records_step by done. destruct (decode_addrinfo (drop cursor input)) as [ [r n]|] eqn:Ed.
  - destruct (decode_sound _ _ _ Hrest Ed) as (Hr & rest' & Erest & ->). pose proof (encode_addrinfo_length r Hr) as Hn.
    assert (length (drop cursor input) = length (encode_addrinfo r) + length rest')%nat as Elen' by (rewrite Erest; apply length_app).
    rewrite IH by lia. assert (drop (cursor + length (encode_addrinfo r)) input = rest') as ->.
    { by rewrite <- drop_drop, Erest, drop_app_length. }
    split.
    + intros (records & terminator & Hrs & Hz & -> & Hs). exists (r :: records), terminator. split; [by constructor|]. split; [done|].
      split; [by rewrite Erest; cbn [encode_list map concat]; rewrite <- app_assoc|]. cbn [first_usable].
      by destruct selected; [|destruct (usable r)].
    + intros ([|r' records] & terminator & Hrs & Hz & E & Hs).
      { exfalso. cbn in E. apply (f_equal length) in E. rewrite Elen in E. unfold AddrInfoListTerminatorWireSize in Ht.
        destruct Hz as [-> | ->]; cbn in E; lia. }
      apply Forall_cons in Hrs as [Hr' Hrs]. cbn [encode_list map concat] in E. rewrite <- app_assoc in E.
      pose proof (decode_encode r' (encode_list records ++ terminator) Hr') as Ed'.
      unfold encode_list in Ed'. rewrite <- E, Ed in Ed'. injection Ed' as <- _.
      exists records, terminator. split; [done|]. split; [done|]. split.
      * rewrite Erest in E. by apply app_inv_head in E.
      * cbn [first_usable] in Hs. by destruct selected; [|destruct (usable r)].
  - split; [done|]. intros ([|r' records] & terminator & Hrs & Hz & E & Hs).
    + exfalso. cbn in E. apply (f_equal length) in E. rewrite Elen in E. unfold AddrInfoListTerminatorWireSize in Ht.
      destruct Hz as [-> | ->]; cbn in E; lia.
    + apply Forall_cons in Hrs as [Hr' Hrs]. cbn [encode_list map concat] in E. rewrite <- app_assoc in E.
      pose proof (decode_encode r' (encode_list records ++ terminator) Hr') as Ed'.
      unfold encode_list in Ed'. by rewrite <- E, Ed in Ed'.
Qed.

(** The endpoint that an address of a record gives: an IPv4 one with its port in little
    endian and its bytes in reverse, or an IPv6 one with its bytes in order. *)
Inductive sockaddr (family : Z) (address : bytes) : endpoint -> Prop :=
  | sockaddr_inet len low high a b c d rest : family = HorizonAfInet ->
      address = [len; family; low; high; a; b; c; d] ++ rest -> (8 <= length rest)%nat ->
      sockaddr family address (mk_endpoint address_family_inet (low + 256 * high) ([d; c; b; a] ++ zeros 12))
  | sockaddr_inet6 len low high flow ip rest : family = HorizonAfInet6 ->
      address = [len; family; low; high] ++ flow ++ ip ++ rest -> length flow = 4%nat -> length ip = 16%nat ->
      (4 <= length rest)%nat ->
      sockaddr family address (mk_endpoint address_family_inet6 (low + 256 * high) ip).
Lemma ReadLe16_within input a b rest : input = a :: b :: rest -> is_byte a -> is_byte b ->
  ReadLe16 input 0 = Some (a + 256 * b).
Proof.
  intros -> Ha Hb. unfold ReadLe16. cbn [length Nat.sub Nat.ltb Nat.leb orb]. f_equal. change (byte_at (a :: b :: rest) 0) with a.
  change (byte_at (a :: b :: rest) (0 + 1)) with b. unfold in_width in *. rewrite lor_shiftl by (unfold in_width; lia). rewrite wrap_id by (unfold in_width; lia). lia.
Qed.
Lemma ReadLe16_at address a b c d rest : address = a :: b :: c :: d :: rest -> bytes_ok address ->
  ReadLe16 address 2 = Some (c + 256 * d).
Proof.
  intros -> Hok. unfold bytes_ok in Hok. rewrite !Forall_cons in Hok. destruct Hok as (_ & _ & Hc & Hd & _).
  exact (ReadLe16_within _ c d rest eq_refl Hc Hd).
Qed.
Lemma ParseSockaddr_exact address family endpoint : bytes_ok address ->
  ParseSockaddr address family = Some endpoint <-> sockaddr family address endpoint.
Proof.
  intros Hok. unfold ParseSockaddr. split.
  - destruct address as [|len [|fam address] ]; [done..|].
    change (length (len :: fam :: address) <? 2)%nat with false. change (byte_at (len :: fam :: address) 1) with fam. cbn [orb].
    destruct (Z.eqb_spec fam family) as [->|]; [|done]. cbn [negb].
    destruct address as [|low [|high address] ]; [done..|]. rewrite (ReadLe16_at _ len family low high address eq_refl Hok). cbn [mbind option_bind].
    destruct (Z.eqb_spec family HorizonAfInet) as [Ef|Ef].
    + destruct (Nat.ltb_spec (length (len :: family :: low :: high :: address)) SockaddrInetWireSize) as [|Hl]; [done|].
      unfold SockaddrInetWireSize in Hl. cbn [length] in Hl.
      destruct address as [|a [|b [|c [|d rest] ] ] ]; cbn [length] in Hl; try lia. intros [= <-].
      apply (sockaddr_inet _ _ len low high a b c d rest); [done|done|lia].
    + destruct (Z.eqb_spec family HorizonAfInet6) as [Ef6|]; [|done].
      destruct (Nat.ltb_spec (length (len :: family :: low :: high :: address)) SockaddrInet6WireSize) as [|Hl]; [done|].
      unfold SockaddrInet6WireSize in Hl. cbn [length] in Hl. intros [= <-].
      assert (write_at (zeros 16) 0 (subspan (len :: family :: low :: high :: address) 8 16) = subspan address 4 16) as ->.
      { unfold write_at. change (subspan (len :: family :: low :: high :: address) 8 16) with (subspan address 4 16).
        rewrite drop_ge; [by rewrite app_nil_r|]. rewrite length_subspan. cbn [length zeros replicate]. lia. }
      apply (sockaddr_inet6 _ _ len low high (take 4 address) _ (drop 20 address)); [done| | | |].
      * cbn [app]. do 4 f_equal. unfold subspan. rewrite <- (take_drop 4 address) at 1. f_equal.
        change 20%nat with (4 + 16)%nat. by rewrite <- drop_drop, take_drop.
      * rewrite length_take. lia.
      * rewrite length_subspan. lia.
      * rewrite length_drop. lia.
  - intros [len low high a b c d rest -> -> Hl|len low high flow ip rest -> -> Hf Hi Hl].
    + change (length ([len; HorizonAfInet; low; high; a; b; c; d] ++ rest) <? 2)%nat with false.
      change (byte_at ([len; HorizonAfInet; low; high; a; b; c; d] ++ rest) 1 =? HorizonAfInet) with true. cbn [orb negb].
      rewrite (ReadLe16_at ([len; HorizonAfInet; low; high; a; b; c; d] ++ rest) len HorizonAfInet low high ([a; b; c; d] ++ rest) eq_refl Hok). cbn [mbind option_bind].
      change (HorizonAfInet =? HorizonAfInet) with true. cbv iota.
      by rewrite (proj2 (Nat.ltb_ge _ _)) by (rewrite length_app; cbn; unfold SockaddrInetWireSize; lia).
    + change (length ([len; HorizonAfInet6; low; high] ++ flow ++ ip ++ rest) <? 2)%nat with false.
      change (byte_at ([len; HorizonAfInet6; low; high] ++ flow ++ ip ++ rest) 1 =? HorizonAfInet6) with true. cbn [orb negb].
      rewrite (ReadLe16_at ([len; HorizonAfInet6; low; high] ++ flow ++ ip ++ rest) len HorizonAfInet6 low high (flow ++ ip ++ rest) eq_refl Hok). cbn [mbind option_bind].
      change (HorizonAfInet6 =? HorizonAfInet) with false. change (HorizonAfInet6 =? HorizonAfInet6) with true. cbv iota.
      rewrite (proj2 (Nat.ltb_ge _ _)) by (rewrite !length_app; cbn; unfold SockaddrInet6WireSize; lia). f_equal. f_equal.
      assert (subspan ([len; HorizonAfInet6; low; high] ++ flow ++ ip ++ rest) 8 16 = ip) as ->.
      { unfold subspan. change (drop 8 ([len; HorizonAfInet6; low; high] ++ flow ++ ip ++ rest)) with (drop 4 (flow ++ ip ++ rest)).
        by rewrite drop_app_length', take_app_length' by done. }
      unfold write_at. cbn [take app Nat.add]. rewrite drop_ge; [by rewrite app_nil_r|]. cbn [length zeros replicate]. lia.
Qed.

Lemma first_usable_exact records endpoint : Forall addrinfo_ok records ->
  first_usable records = Some endpoint <->
  exists before r after, records = before ++ r :: after /\ sockaddr (ai_family r) (ai_addr r) endpoint /\
    Forall (fun r => forall e, ~ sockaddr (ai_family r) (ai_addr r) e) before.
Proof.
  induction 1 as [|r records Hr _ IH]; cbn [first_usable].
  { split; [done|]. by intros ([|? ?] & ? & ? & ? & _). }
  pose proof (fun e => ParseSockaddr_exact (ai_addr r) (ai_family r) e (ao_addr r Hr)) as Hex. fold (usable r) in Hex.
  destruct (usable r) as [e|] eqn:Eu.
  - split.
    + intros [= ->]. exists [], r, records. split; [done|]. split; [by apply Hex|constructor].
    + intros ([|r' before] & r0 & after & E & Hs & Hb); injection E as <- E.
      * by apply Hex in Hs.
      * apply Forall_cons in Hb as [Hn _]. destruct (Hn e). by apply Hex.
  - rewrite IH. split.
    + intros (before & r0 & after & -> & Hs & Hb). exists (r :: before), r0, after. split; [done|]. split; [done|].
      constructor; [|done]. intros e He. by apply Hex in He.
    + intros ([|r' before] & r0 & after & E & Hs & Hb); injection E as <- E.
      * by apply Hex in Hs.
      * exists before, r0, after. split; [done|]. split; [done|]. by apply Forall_cons in Hb as [_ ?].
Qed.

(** C28. What the resolver may answer: the parser accepts an answer exactly if it is a
    sequence of records, each with the header, an address of the given length and a
    name that ends with a zero, with nothing or four zero bytes after the last record,
    and one of the records has an address that can be used; the result is the endpoint
    of the first such record.  One malformed record makes the whole answer invalid. *)
Theorem addrinfo_list_exact input endpoint : bytes_ok input ->
  parse_horizon_addrinfo_result input = Some endpoint <->
  exists before r after terminator,
    input = encode_list (before ++ r :: after) ++ terminator /\ (terminator = [] \/ terminator = zeros 4) /\
    Forall addrinfo_ok (before ++ r :: after) /\ sockaddr (ai_family r) (ai_addr r) endpoint /\
    Forall (fun r => forall e, ~ sockaddr (ai_family r) (ai_addr r) e) before.
Proof.
  intros Hok. unfold parse_horizon_addrinfo_result. rewrite records_loop_exact by (done || lia). split.
  - intros (records & terminator & Hr & Hz & E & Hf). rewrite drop_0 in E.
    apply first_usable_exact in Hf as (before & r & after & -> & Hs & Hb); [|done]. by exists before, r, after, terminator.
  - intros (before & r & after & terminator & E & Hz & Hr & Hs & Hb). exists (before ++ r :: after), terminator.
    split; [done|]. split; [done|]. split; [by rewrite drop_0|]. apply first_usable_exact; [done|]. by exists before, r, after.
Qed.

(** The hints are a list of one record without an address. *)
Definition hints_record (flags family socket_type protocol : Z) : AddrInfo :=
  mk_addrinfo (StoreBe32 (u32 flags)) (u32 family) (StoreBe32 (u32 socket_type)) (StoreBe32 (u32 protocol)) 0 (zeros 4) [].
Lemma hints_encoded flags family socket_type protocol :
  serialize_horizon_addrinfo_hints flags family socket_type protocol =
    Some (encode_list [hints_record flags family socket_type protocol] ++ zeros 4).
Proof. done. Qed.

(** An answer with an IPv6 record that is too short before an IPv4 record. *)
Definition example_answer : bytes :=
  encode_list [mk_addrinfo (zeros 4) HorizonAfInet6 (zeros 4) (zeros 4) 4 [0; 28; 0; 0] (chars "x");
               mk_addrinfo (zeros 4) HorizonAfInet (zeros 4) (zeros 4) 16 ([0; 2; 0x6c; 0xca; 1; 100; 51; 198] ++ zeros 8) (chars "host")]
  ++ zeros 4.
Lemma addrinfo_list_exact_witness : bytes_ok example_answer /\
  exists before r after terminator, example_answer = encode_list (before ++ r :: after) ++ terminator /\
    (terminator = [] \/ terminator = zeros 4) /\ Forall addrinfo_ok (before ++ r :: after) /\
    sockaddr (ai_family r) (ai_addr r) (mk_endpoint address_family_inet 51820 ([198; 51; 100; 1] ++ zeros 12)) /\
    Forall (fun r => forall e, ~ sockaddr (ai_family r) (ai_addr r) e) before.
Proof.
  assert (Hok : bytes_ok example_answer) by (apply (bool_decide_unpack _); vm_compute; exact I).
  split; [exact Hok|]. apply (proj1 (addrinfo_list_exact example_answer _ Hok)). vm_compute; reflexivity.
Defined.
