(* ===== verification/Endpoint.v ===== *)
(** * Endpoints

    Models [platform/endpoint_parser.cpp], [resolve_endpoint] of
    [platform/horizon/endpoint_resolution.cpp] and [endpoint_to_string] of
    [platform/horizon/udp.cpp].  The library's conversions between addresses and their
    texts are the class [AddressText]; the answer of the resolver service is an
    argument.  Texts are C strings without their terminators. *)

From S2P Require Import Prelude Endian Messages PacketQueue Platform Session Base64 InnerPacket Timers.
From S2P Require Import Crypto Device Data Identity Admission Handshake Peer PeerController RuntimeEvents FlowPolicy.
From S2P Require Import ConfigText AddrInfo.
Local Open Scope Z_scope.

(** ** The parser *)

Definition EndpointTextCapacity : nat := 256.
Definition ServiceTextCapacity : nat := 6.

Definition IsAsciiSpace (ch : Z) : bool := (ch =? char " ") || (ch =? 9) || (ch =? 13) || (ch =? 10).
Definition TrimView (value : bytes) : bytes := drop_while_end IsAsciiSpace (drop_while IsAsciiSpace value).
Definition CopyView (dst_size : nat) (value : bytes) : option bytes :=
  if (dst_size =? 0)%nat || (length value =? 0)%nat || (dst_size <=? length value)%nat then None else Some value.

(** [endpoint.find(ch)] *)
Fixpoint find_position (ch : Z) (text : bytes) : option nat :=
  match text with
  | [] => None
  | c :: rest => if c =? ch then Some 0%nat else S <$> find_position ch rest
  end.
(** The loop that looks for the last one: [i] counts down. *)
Fixpoint rfind_loop (ch : Z) (text : bytes) (i : nat) : option nat :=
  match i with
  | O => None
  | S i => if byte_at text i =? ch then Some i else rfind_loop ch text i
  end.

Definition ParseEndpointText (configured_endpoint : bytes) : option (bytes * bytes) :=
  let endpoint := TrimView configured_endpoint in
  if (length endpoint =? 0)%nat then None
  else if char_at endpoint =? char "[" then
    closing ← find_position (char "]") endpoint;
    if (closing =? 1)%nat || (length endpoint <=? closing + 1)%nat || negb (byte_at endpoint (closing + 1) =? char ":")
    then None
    else
      host ← CopyView EndpointTextCapacity (TrimView (subspan endpoint 1 (closing - 1)));
      service ← CopyView ServiceTextCapacity (TrimView (drop (closing + 2) endpoint));
      Some (host, service)
  else
    separator ← rfind_loop (char ":") endpoint (length endpoint);
    if (separator =? 0)%nat || (length endpoint <=? separator + 1)%nat
       || bool_decide (is_Some (find_position (char ":") (take separator endpoint))) then None
    else
      host ← CopyView EndpointTextCapacity (TrimView (take separator endpoint));
      service ← CopyView ServiceTextCapacity (TrimView (drop (separator + 1) endpoint));
      Some (host, service).

Definition ParseEndpointPort (service : bytes) : bool :=
  if (length service =? 0)%nat then false
  else
    let '(value, rest, found, range_error) := strtoul service in
    negb range_error && found && bool_decide (rest = []) && (0 <? value) && (value <=? 65535).

(** ** Texts of endpoints *)

(** [inet_pton], [inet_ntop], which fails with a null pointer, and the constants of the
    socket library. *)
Class AddressText := {
  AF_UNSPEC : Z;
  SOCK_DGRAM : Z;
  IPPROTO_UDP : Z;
  AI_NUMERICSERV : Z;
  inet_pton4 : bytes -> option bytes;
  inet_pton6 : bytes -> option bytes;
  inet_ntop4 : bytes -> option bytes;
  inet_ntop6 : bytes -> option bytes
}.

(** [%u] of a value of at most twenty digits. *)
Fixpoint digits_of (fuel : nat) (value : Z) (text : bytes) : bytes :=
  match fuel with
  | O => text
  | S fuel =>
      let text := (char "0" + value mod 10) :: text in
      if value <? 10 then text else digits_of fuel (value / 10) text
  end.
Definition print_decimal (value : Z) : bytes := digits_of 20 value [].

Section Endpoint.
Context {Texts : AddressText}.

(** The text, as much of it as fits before the terminator. *)
Definition endpoint_to_string (out_size : nat) (endpoint : endpoint) : option bytes :=
  if (out_size =? 0)%nat then None
  else
    match ep_family endpoint with
    | address_family_inet =>
        host ← inet_ntop4 (take 4 (ep_address endpoint));
        Some (take (out_size - 1) (host ++ chars ":" ++ print_decimal (ep_port endpoint)))
    | address_family_inet6 =>
        host ← inet_ntop6 (ep_address endpoint);
        Some (take (out_size - 1) (chars "[" ++ host ++ chars "]:" ++ print_decimal (ep_port endpoint)))
    | address_family_unspecified => None
    end.

(** ** Resolution *)

Definition ResolvedTextCapacity : nat := 64.
Definition resolution_error (stage : PeerErrorStage) (code : PeerErrorCode) (resolved : endpoint) : endpoint_resolution_result :=
  mk_resolution false stage code resolved (zeros ResolvedTextCapacity).
(** [StoreResolvedText(out)] on a result with a zeroed text, then [success] or the error. *)
Definition StoreResolvedText (resolved : endpoint) : endpoint_resolution_result :=
  match endpoint_to_string ResolvedTextCapacity resolved with
  | Some text => mk_resolution true PeerErrorStage_None PeerErrorCode_None resolved
                   (text ++ zeros (ResolvedTextCapacity - length text))
  | None => resolution_error PeerErrorStage_ResolveEndpoint PeerErrorCode_EndpointResolutionFailed resolved
  end.

Definition IsNumericHost (host : bytes) : bool :=
  if (length host =? 0)%nat then false
  else bool_decide (is_Some (inet_pton4 host)) || bool_decide (is_Some (inet_pton6 host)).
Definition ResolveNumericEndpoint (host service : bytes) : endpoint_resolution_result :=
  let port := let '(value, _, _, _) := strtoul service in u16 value in
  match inet_pton4 host with
  | Some addr4 => StoreResolvedText (mk_endpoint address_family_inet port (write_at (zeros 16) 0 addr4))
  | None =>
      match inet_pton6 host with
      | Some addr6 => StoreResolvedText (mk_endpoint address_family_inet6 port (write_at (zeros 16) 0 addr6))
      | None => resolution_error PeerErrorStage_ResolveEndpoint PeerErrorCode_EndpointResolutionFailed endpoint_init
      end
  end.

(** What the service answers: whether the request failed, its return value, the size
    it gives and its buffer. *)
Record AddrInfoReply := mk_reply { rp_failed : bool; rp_ret : Z; rp_size : Z; rp_buffer : bytes }.

(** [runtime_ready] is [EnsureUdpRuntimeInitialized], [request] the call of the service
    with the host, the service and the hints. *)
Definition resolve_endpoint (runtime_ready : bool) (request : bytes -> bytes -> bytes -> AddrInfoReply)
    (configured_endpoint : bytes) : endpoint_resolution_result :=
  let failed := resolution_error PeerErrorStage_ResolveEndpoint PeerErrorCode_EndpointResolutionFailed endpoint_init in
  let malformed := resolution_error PeerErrorStage_ResolveEndpoint PeerErrorCode_EndpointMalformed endpoint_init in
  match ParseEndpointText configured_endpoint with
  | None => malformed
  | Some (host, service) =>
      if negb (ParseEndpointPort service) then malformed
      else if IsNumericHost host then ResolveNumericEndpoint host service
      else if negb runtime_ready then
        resolution_error PeerErrorStage_Transport PeerErrorCode_TransportInitFailed endpoint_init
      else
        match serialize_horizon_addrinfo_hints AI_NUMERICSERV AF_UNSPEC SOCK_DGRAM IPPROTO_UDP with
        | None => failed
        | Some hints =>
            let reply := request host service hints in
            if rp_failed reply || negb (rp_ret reply =? 0) then failed
            else if (rp_size reply =? 0) || (Z.of_nat (length (rp_buffer reply)) <? rp_size reply) then failed
            else
              match parse_horizon_addrinfo_result (take (Z.to_nat (rp_size reply)) (rp_buffer reply)) with
              | None => failed
              | Some resolved => StoreResolvedText resolved
              end
        end
  end.

(** ** What the parser accepts *)

Lemma find_char_spec ch text k : find_position ch text = Some k <->
  exists before after, text = before ++ ch :: after /\ length before = k /\ ch ∉ before.
Proof.
  revert k. induction text as [|c text IH]; intros k; cbn [find_position].
  - split; [done|]. by intros ([|? ?] & after & ? & _).
  - destruct (Z.eqb_spec c ch) as [->|Hc].
    + split; [intros [= <-]; exists [], text; split; [done|]; split; [done|]; apply not_elem_of_nil|].
      intros ([|d before] & after & E & <- & Hb); [done|]. injection E as <- _. destruct Hb. left.
    + rewrite fmap_Some. split.
      * intros (k' & E & ->). apply IH in E as (before & after & -> & <- & Hb). exists (c :: before), after.
        split; [done|]. split; [done|]. by rewrite not_elem_of_cons.
      * intros ([|d before] & after & E & <- & Hb); [by injection E as ? _|].
        injection E as <- ->. exists (length before). split; [|done].
        apply IH. exists before, after. split; [done|]. split; [done|]. by apply not_elem_of_cons in Hb as [_ ?].
Qed.
Lemma find_char_none ch text : find_position ch text = None <-> ch ∉ text.
Proof.
  induction text as [|c text IH]; cbn [find_position]; [split; [intros _; apply not_elem_of_nil|done]|].
  rewrite not_elem_of_cons. destruct (Z.eqb_spec c ch) as [->|Hc]; [by split; [|intros [? _] ]|].
  rewrite fmap_None, IH. naive_solver.
Qed.
Lemma rfind_loop_spec ch text i k : (i <= length text)%nat -> rfind_loop ch text i = Some k <->
  exists before after, take i text = before ++ ch :: after /\ length before = k /\ ch ∉ after.
Proof.
  revert k. induction i as [|i IH]; intros k Hi; cbn [rfind_loop].
  { split; [done|]. rewrite take_0. by intros ([|? ?] & ? & ? & _). }
  destruct (lookup_lt_is_Some_2 text i ltac:(lia)) as [c Hc]. rewrite (take_S_r text i c Hc).
  assert (byte_at text i = c) as -> by (unfold byte_at; by rewrite Hc). destruct (Z.eqb_spec c ch) as [->|Hne].
  - split.
    + intros [= <-]. exists (take i text), []. split; [done|]. split; [rewrite length_take; lia|apply not_elem_of_nil].
    + intros (before & after & E & <- & Ha). destruct after as [|a after _] using rev_ind.
      * apply app_inj_tail in E as [<- _]. rewrite length_take. f_equal. lia.
      * rewrite app_comm_cons, app_assoc in E. apply app_inj_tail in E as [_ <-]. destruct Ha. apply elem_of_app. right. left.
  - rewrite IH by lia. split; intros (before & after & E & El & Ha).
    + exists before, (after ++ [c]). rewrite E, <- app_assoc. split; [done|]. split; [done|].
      rewrite elem_of_app. intros [?|Hin]; [done|]. by apply list_elem_of_singleton in Hin.
    + destruct after as [|a after _] using rev_ind.
      * apply app_inj_tail in E as [_ <-]. done.
      * rewrite app_comm_cons, app_assoc in E. apply app_inj_tail in E as [E <-]. exists before, after.
        split; [done|]. split; [done|]. intros Hin. apply Ha, elem_of_app. by left.
Qed.

(** A part of the text between blanks that fits in its array. *)
Definition part_of (capacity : nat) (text part : bytes) : Prop :=
  part = TrimView text /\ (0 < length part < capacity)%nat.
Lemma CopyView_part capacity text part : CopyView capacity (TrimView text) = Some part <-> part_of capacity text part.
Proof.
  unfold CopyView, part_of. destruct (Nat.eqb_spec capacity 0), (Nat.eqb_spec (length (TrimView text)) 0),
    (Nat.leb_spec capacity (length (TrimView text))); cbn [orb]; split; try done; try (intros [-> ?]; lia); [|by intros [-> _] ].
  intros [= <-]. split; [done|lia].
Qed.

Lemma ParseEndpointText_exact text host service :
  ParseEndpointText text = Some (host, service) <->
  exists h s, part_of EndpointTextCapacity h host /\ part_of ServiceTextCapacity s service /\
    (TrimView text = h ++ chars ":" ++ s /\ char ":" ∉ h /\ char ":" ∉ s /\ char_at h <> char "[" \/
     TrimView text = chars "[" ++ h ++ chars "]:" ++ s /\ char "]" ∉ h).
Proof.
  unfold ParseEndpointText. generalize (TrimView text). intros endpoint. clear text.
  assert (forall capacity text part, part_of capacity text part -> text <> []) as Hne.
  { intros capacity part_text part [-> H] ->. cbn in H. lia. }
  destruct (Nat.eqb_spec (length endpoint) 0) as [El|El].
  { split; [done|]. apply length_zero_iff_nil in El as ->.
    intros (h & s & Hh & _ & [ [E _]|[E _] ]); [|done]. by apply Hne in Hh; destruct h. }
  destruct (Z.eqb_spec (char_at endpoint) (char "[")) as [Ef|Ef].
  - (* In brackets. *)
    destruct endpoint as [|c endpoint]; [done|]. change (char_at (c :: endpoint)) with c in Ef. subst c. split.
    + destruct (find_position (char "]") (char "[" :: endpoint)) as [closing|] eqn:Ec; [|done]. cbn [mbind option_bind].
      apply find_char_spec in Ec as ([|c h] & after & E & <- & Hh); [done|]. injection E as <- ->.
      destruct (_ || _) eqn:Hbad; [done|]. apply orb_false_iff in Hbad as [Hbad Hcolon]. apply orb_false_iff in Hbad as [_ Hlen].
      apply Nat.leb_gt in Hlen. apply negb_false_iff, Z.eqb_eq in Hcolon. cbn [length] in Hlen. rewrite length_app in Hlen. cbn [length] in Hlen.
      replace (byte_at (char "[" :: h ++ char "]" :: after) (length (char "[" :: h) + 1)) with (byte_at after 0) in Hcolon.
      2: { unfold byte_at. change (char "[" :: h ++ char "]" :: after) with ((char "[" :: h) ++ char "]" :: after).
           rewrite lookup_app_r by lia. by replace (length (char "[" :: h) + 1 - length (char "[" :: h))%nat with 1%nat by lia. }
      destruct after as [|d s]; [cbn in Hlen; lia|]. change (byte_at (d :: s) 0) with d in Hcolon. subst d.
      assert (subspan (char "[" :: h ++ char "]" :: char ":" :: s) 1 (length (char "[" :: h) - 1) = h) as ->.
      { unfold subspan. cbn [drop length Nat.sub]. rewrite Nat.sub_0_r, drop_0. apply take_app_length. }
      assert (drop (length (char "[" :: h) + 2) (char "[" :: h ++ char "]" :: char ":" :: s) = s) as ->.
      { cbn [length Nat.add drop]. by rewrite (cons_middle _ h), app_assoc, (cons_middle _ (h ++ _)), app_assoc, drop_app_length' by (rewrite !length_app; cbn; lia). }
      destruct (CopyView EndpointTextCapacity (TrimView h)) as [host'|] eqn:Eh; [|done]. cbn [mbind option_bind].
      destruct (CopyView ServiceTextCapacity (TrimView s)) as [service'|] eqn:Es; [|done]. cbn [mbind option_bind]. intros [= <- <-].
      exists h, s. split; [by apply CopyView_part|]. split; [by apply CopyView_part|]. right. split; [done|].
      intros Hin. apply Hh. by right.
    + intros (h & s & Hh & Hs & [ (E & _ & _ & Hb)|[E Hb] ]).
      { destruct h as [|c h]; [by apply Hne in Hh|]. by injection E as <- _. }
      assert (endpoint = h ++ chars "]:" ++ s) as -> by by injection E.
      assert (find_position (char "]") (char "[" :: h ++ chars "]:" ++ s) = Some (S (length h))) as ->.
      { apply find_char_spec. exists (char "[" :: h), (char ":" :: s). split; [done|]. split; [done|].
        intros Hin. apply elem_of_cons in Hin as [Hin|Hin]; done. }
      cbn [mbind option_bind]. assert (byte_at (char "[" :: h ++ chars "]:" ++ s) (S (length h) + 1) = char ":") as ->.
      { unfold byte_at. change (char "[" :: h ++ chars "]:" ++ s) with ((char "[" :: h) ++ chars "]:" ++ s).
        rewrite lookup_app_r by (cbn; lia). by replace (S (length h) + 1 - length (char "[" :: h))%nat with 1%nat by (cbn; lia). }
      assert (h <> [] /\ s <> []) as [Hh0 Hs0] by (split; by eapply Hne).
      rewrite (proj2 (Nat.eqb_neq _ _)) by (destruct h; cbn; [done|lia]).
      rewrite (proj2 (Nat.leb_gt _ _)) by (destruct s; [done|]; cbn [length]; rewrite !length_app; cbn; lia). cbn [orb negb Z.eqb].
      assert (subspan (char "[" :: h ++ chars "]:" ++ s) 1 (S (length h) - 1) = h) as ->.
      { unfold subspan. cbn [drop length Nat.sub]. rewrite Nat.sub_0_r, drop_0. apply take_app_length. }
      assert (drop (S (length h) + 2) (char "[" :: h ++ chars "]:" ++ s) = s) as ->.
      { cbn [Nat.add drop]. by rewrite app_assoc, drop_app_length' by (rewrite !length_app; cbn; lia). }
      apply CopyView_part in Hh as ->. cbn [mbind option_bind]. by apply CopyView_part in Hs as ->.
  - (* Not in brackets. *)
    assert (forall h s, char ":" ∉ s -> endpoint = h ++ char ":" :: s ->
      rfind_loop (char ":") endpoint (length endpoint) = Some (length h) /\ take (length h) endpoint = h /\
      drop (length h + 1) endpoint = s) as Hsep.
    { intros h s Hs ->. split; [|split].
      - apply rfind_loop_spec; [done|]. exists h, s. by rewrite firstn_all.
      - apply take_app_length.
      - by rewrite cons_middle, app_assoc, drop_app_length' by (rewrite length_app; cbn; lia). }
    split.
    + destruct (rfind_loop (char ":") endpoint (length endpoint)) as [k|] eqn:Ek; [|done]. cbn [mbind option_bind].
      apply rfind_loop_spec in Ek as (h & s & E & <- & Hs); [|done]. rewrite firstn_all in E.
      destruct (Hsep h s Hs E) as (_ & Et & Ed). rewrite Et, Ed.
      destruct (find_position (char ":") h) eqn:Efind.
      { rewrite (bool_decide_eq_true_2 (is_Some _)) by by eexists. by rewrite !orb_true_r. }
      apply find_char_none in Efind. destruct (_ || _); [done|].
      destruct (CopyView EndpointTextCapacity (TrimView h)) as [host'|] eqn:Eh; [|done]. cbn [mbind option_bind].
      destruct (CopyView ServiceTextCapacity (TrimView s)) as [service'|] eqn:Es; [|done]. cbn [mbind option_bind]. intros [= <- <-].
      exists h, s. split; [by apply CopyView_part|]. split; [by apply CopyView_part|]. left. split; [done|]. split; [done|]. split; [done|].
      apply CopyView_part, Hne in Eh. rewrite E in Ef. by destruct h.
    + intros (h & s & Hh & Hs & [ (E & Hc & Hcs & Hb)|[-> _] ]); [|done].
      destruct (Hsep h s Hcs E) as (-> & Et & Ed). cbn [mbind option_bind]. rewrite Et, Ed.
      assert (h <> [] /\ s <> []) as [Hh0 Hs0] by (split; by eapply Hne).
      rewrite (proj2 (Nat.eqb_neq _ _)) by (destruct h; cbn; [done|lia]).
      rewrite (proj2 (Nat.leb_gt _ _)) by (rewrite E, !length_app; destruct s; [done|]; cbn; lia).
      apply find_char_none in Hc as ->. rewrite (bool_decide_eq_false_2 (is_Some None)) by by intros [? ?]. cbn [orb].
      apply CopyView_part in Hh as ->. cbn [mbind option_bind]. by apply CopyView_part in Hs as ->.
Qed.

(** The endpoints of a configuration: a text is accepted exactly if, without the
    blanks around it, it is [host:service] with one colon and not in brackets, or
    [[host]:service] with no bracket in the host; host and service are the parts
    without the blanks around them, which must not be empty and fit in their arrays
    of 256 and 6 characters. *)
Theorem endpoint_text_exact text host service :
  ParseEndpointText text = Some (host, service) <->
  exists h s, part_of EndpointTextCapacity h host /\ part_of ServiceTextCapacity s service /\
    (TrimView text = h ++ chars ":" ++ s /\ char ":" ∉ h /\ char ":" ∉ s /\ char_at h <> char "[" \/
     TrimView text = chars "[" ++ h ++ chars "]:" ++ s /\ char "]" ∉ h).
Proof. apply ParseEndpointText_exact. Qed.

(** ** Numbers in decimal *)

Lemma digits_of_digits fuel value text : 0 <= value -> Forall (fun c => is_digit c = true) text ->
  Forall (fun c => is_digit c = true) (digits_of fuel value text).
Proof.
  revert value text. induction fuel as [|fuel IH]; intros value text Hv Ht; cbn [digits_of]; [done|].
  assert (is_digit (char "0" + value mod 10) = true) as Hd.
  { unfold is_digit. change (char "0") with 48. change (char "9") with 57. pose proof (Z.mod_pos_bound value 10 ltac:(lia)).
    apply andb_true_iff. split; apply Z.leb_le; lia. }
  case_if; [by constructor|]. apply IH; [by apply Z.div_pos|by constructor].
Qed.
Lemma digits_of_value fuel value text : 0 <= value < 10 ^ Z.of_nat (S fuel) ->
  foldl (fun v c => v * 10 + (c - char "0")) 0 (digits_of (S fuel) value text) =
  foldl (fun v c => v * 10 + (c - char "0")) value text.
Proof.
  revert value text. induction fuel as [|fuel IH]; intros value text Hv; cbn [digits_of].
  - change (10 ^ Z.of_nat 1) with 10 in Hv. rewrite (proj2 (Z.ltb_lt _ _)) by lia. cbn [foldl]. f_equal.
    rewrite Z.mod_small by lia. lia.
  - destruct (Z.ltb_spec value 10).
    + cbn [foldl]. f_equal. rewrite Z.mod_small by lia. lia.
    + change (if value / 10 <? 10 then _ else _) with (digits_of (S fuel) (value / 10) ((char "0" + value mod 10) :: text)).
      rewrite IH.
      * cbn [foldl]. f_equal. pose proof (Z.div_mod value 10 ltac:(lia)). lia.
      * rewrite Nat2Z.inj_succ, Z.pow_succ_r in Hv by lia. split; [by apply Z.div_pos; lia|]. apply Z.div_lt_upper_bound; lia.
Qed.
Lemma digits_of_length fuel value text k : (0 < k)%nat -> 0 <= value < 10 ^ Z.of_nat k ->
  (length (digits_of fuel value text) <= k + length text)%nat.
Proof.
  revert value text k. induction fuel as [|fuel IH]; intros value text k Hk Hv; cbn [digits_of]; [lia|].
  destruct (Z.ltb_spec value 10); [cbn; lia|]. destruct k as [|[|k] ]; [lia|change (10 ^ Z.of_nat 1) with 10 in Hv; lia|].
  etransitivity; [apply (IH _ _ (S k)); [lia|]|cbn; lia].
  rewrite Nat2Z.inj_succ, Z.pow_succ_r in Hv by lia. split; [by apply Z.div_pos; lia|]. apply Z.div_lt_upper_bound; lia.
Qed.
Lemma digits_of_nonempty fuel value text : digits_of (S fuel) value text <> [].
Proof.
  revert value text. induction fuel as [|fuel IH]; intros value text; cbn [digits_of]; [by case_if|]. case_if; [done|]. apply IH.
Qed.
(** A port is printed as one to five digits, which [strtoul] reads back. *)
Lemma print_port port : 0 <= port <= 65535 ->
  Forall (fun c => is_digit c = true) (print_decimal port) /\ (0 < length (print_decimal port) <= 5)%nat /\
  strtoul (print_decimal port) = (port, [], true, false).
Proof.
  intros Hp. unfold print_decimal.
  assert (Forall (fun c => is_digit c = true) (digits_of 20 port [])) as Hd by (apply digits_of_digits; [lia|constructor]).
  pose proof (digits_of_nonempty 19 port []) as Hne. split; [done|]. split.
  - split; [by destruct (digits_of 20 port []); [|cbn; lia]|]. apply (digits_of_length 20 port [] 5); [lia|].
    change (10 ^ Z.of_nat 5) with 100000. lia.
  - pose proof (strtoul_spec [] Sign_None (digits_of 20 port []) ltac:(constructor) Hd Hne) as E. cbn [app sign_text signed] in E.
    assert (decimal (digits_of 20 port []) = port) as Edec.
    { unfold decimal. rewrite digits_of_value; [done|]. change (10 ^ Z.of_nat 20) with 100000000000000000000. lia. }
    rewrite Edec, (proj2 (Z.leb_gt _ _)) in E by lia. exact E.
Qed.

(** ** An endpoint's text resolves to the endpoint *)

Definition is_hex (c : Z) : bool := is_digit c || ((char "a" <=? c) && (c <=? char "f")).
(** What the library promises of the texts of addresses. *)
Class AddressTextLaws := {
  ntop4_text address : bytes_of 4 address -> exists text, inet_ntop4 address = Some text /\
    inet_pton4 text = Some address /\ (0 < length text <= 15)%nat /\
    Forall (fun c => is_digit c || (c =? char ".") = true) text;
  ntop6_text address : bytes_of 16 address -> exists text, inet_ntop6 address = Some text /\
    inet_pton6 text = Some address /\ inet_pton4 text = None /\ (0 < length text <= 45)%nat /\
    Forall (fun c => is_hex c || (c =? char ".") || (c =? char ":") = true) text
}.
Context {TextLaws : AddressTextLaws}.

Lemma TrimView_plain text : Forall (fun c => IsAsciiSpace c = false) text -> TrimView text = text.
Proof.
  intros H. unfold TrimView, drop_while_end. rewrite (drop_while_same IsAsciiSpace text) by by destruct H.
  rewrite drop_while_same; [apply reverse_involutive|]. apply Forall_reverse in H. by destruct H.
Qed.
(** Facts about characters, by going through the 256 of them. *)
Lemma address_character c : is_hex c || (c =? char ".") || (c =? char ":") = true ->
  IsAsciiSpace c = false /\ c <> char "]" /\ c <> char "[" .
Proof.
  unfold is_hex, is_digit, IsAsciiSpace. change (char "0") with 48. change (char "9") with 57. change (char "a") with 97.
  change (char "f") with 102. change (char ".") with 46. change (char ":") with 58. change (char " ") with 32.
  change (char "]") with 93. change (char "[") with 91. intros H. bool_prop.
  rewrite !orb_false_iff, !Z.eqb_neq. lia.
Qed.
Lemma digit_is_hex c : is_digit c = true -> is_hex c || (c =? char ".") || (c =? char ":") = true.
Proof. unfold is_hex. by intros ->. Qed.
Lemma address_text_plain text : Forall (fun c => is_hex c || (c =? char ".") || (c =? char ":") = true) text ->
  Forall (fun c => IsAsciiSpace c = false) text /\ char "]" ∉ text /\ char_at text <> char "[".
Proof.
  intros H. split; [|split].
  - eapply Forall_impl; [exact H|]. intros c Hc. by apply address_character.
  - intros Hin. rewrite Forall_forall in H. apply H, address_character in Hin. tauto.
  - destruct H as [|c text Hc _]; [done|]. by apply address_character.
Qed.
Lemma port_text_plain port : 0 <= port <= 65535 -> Forall (fun c => is_hex c || (c =? char ".") || (c =? char ":") = true) (print_decimal port).
Proof. intros Hp. destruct (print_port port Hp) as (Hd & _ & _). eapply Forall_impl; [exact Hd|]. apply digit_is_hex. Qed.
Lemma port_no_colon port : 0 <= port <= 65535 -> char ":" ∉ print_decimal port.
Proof.
  intros Hp Hin. destruct (print_port port Hp) as (Hd & _ & _). rewrite Forall_forall in Hd. apply Hd in Hin. by vm_compute in Hin.
Qed.
Lemma port_part port : 0 <= port <= 65535 -> part_of ServiceTextCapacity (print_decimal port) (print_decimal port).
Proof.
  intros Hp. destruct (print_port port Hp) as (_ & Hl & _). split; [|unfold ServiceTextCapacity; lia].
  symmetry. apply TrimView_plain. by apply address_text_plain, port_text_plain.
Qed.
Lemma port_valid port : 1 <= port <= 65535 -> ParseEndpointPort (print_decimal port) = true.
Proof.
  intros Hp. destruct (print_port port ltac:(lia)) as (_ & Hl & E). unfold ParseEndpointPort.
  rewrite (proj2 (Nat.eqb_neq _ _)), E by lia. cbn [negb andb]. rewrite bool_decide_eq_true_2 by done.
  rewrite (proj2 (Z.ltb_lt _ _)), (proj2 (Z.leb_le _ _)) by lia. done.
Qed.

(** The endpoints that have a text. *)
Definition endpoint_ok (endpoint : endpoint) : Prop :=
  1 <= ep_port endpoint <= 65535 /\
  match ep_family endpoint with
  | address_family_inet => exists address, bytes_of 4 address /\ ep_address endpoint = address ++ zeros 12
  | address_family_inet6 => bytes_of 16 (ep_address endpoint)
  | address_family_unspecified => False
  end.

Lemma text_of_inet address port : bytes_of 4 address -> 1 <= port <= 65535 -> exists host,
  endpoint_to_string ResolvedTextCapacity (mk_endpoint address_family_inet port (address ++ zeros 12)) =
    Some (host ++ chars ":" ++ print_decimal port) /\
  inet_pton4 host = Some address /\ ParseEndpointText (host ++ chars ":" ++ print_decimal port) = Some (host, print_decimal port).
Proof.
  intros Ha Hp. destruct (ntop4_text address Ha) as (host & En & Ep & Hl & Hc). destruct (print_port port ltac:(lia)) as (_ & Hpl & _).
  assert (Forall (fun c => is_hex c || (c =? char ".") || (c =? char ":") = true) host) as Hch.
  { eapply Forall_impl; [exact Hc|]. intros c H. unfold is_hex. by apply orb_true_iff in H as [-> | ->]; rewrite ?orb_true_r. }
  assert (char ":" ∉ host) as Hcolon.
  { intros Hin. rewrite Forall_forall in Hc. apply Hc in Hin. by vm_compute in Hin. }
  destruct (address_text_plain _ Hch) as (Hpl1 & _ & Hf). exists host. split; [|split; [done|] ].
  - unfold endpoint_to_string. cbn [ep_family ep_address ep_port ResolvedTextCapacity Nat.eqb].
    rewrite take_app_length' by (symmetry; apply Ha). rewrite En. cbn [mbind option_bind]. f_equal. apply take_ge.
    rewrite !length_app. change (length (chars ":")) with 1%nat. unfold ResolvedTextCapacity. lia.
  - apply ParseEndpointText_exact. exists host, (print_decimal port). split; [|split; [apply port_part; lia|left] ].
    + split; [by rewrite TrimView_plain|unfold EndpointTextCapacity; lia].
    + split; [|split; [done|split; [apply port_no_colon; lia|done] ] ]. apply TrimView_plain.
      rewrite !Forall_app. split; [done|]. split; [by repeat constructor|]. apply address_text_plain, port_text_plain. lia.
Qed.
Lemma text_of_inet6 address port : bytes_of 16 address -> 1 <= port <= 65535 -> exists host,
  endpoint_to_string ResolvedTextCapacity (mk_endpoint address_family_inet6 port address) =
    Some (chars "[" ++ host ++ chars "]:" ++ print_decimal port) /\
  inet_pton4 host = None /\ inet_pton6 host = Some address /\
  ParseEndpointText (chars "[" ++ host ++ chars "]:" ++ print_decimal port) = Some (host, print_decimal port).
Proof.
  intros Ha Hp. destruct (ntop6_text address Ha) as (host & En & Ep & Ep4 & Hl & Hc). destruct (print_port port ltac:(lia)) as (_ & Hpl & _).
  destruct (address_text_plain _ Hc) as (Hpl1 & Hbracket & _). exists host. split; [|split; [done|split; [done|] ] ].
  - unfold endpoint_to_string. cbn [ep_family ep_address ep_port ResolvedTextCapacity Nat.eqb]. rewrite En. cbn [mbind option_bind].
    f_equal. apply take_ge. rewrite !length_app. change (length (chars "[")) with 1%nat.
    change (length (chars "]:")) with 2%nat. unfold ResolvedTextCapacity. lia.
  - apply ParseEndpointText_exact. exists host, (print_decimal port). split; [|split; [apply port_part; lia|right] ].
    + split; [by rewrite TrimView_plain|unfold EndpointTextCapacity; lia].
    + split; [|done]. apply TrimView_plain. rewrite !Forall_app. split; [by repeat constructor|]. split; [done|].
      split; [by repeat constructor|]. apply address_text_plain, port_text_plain. lia.
Qed.

(** C29. The text of an endpoint with an address and a port is a configuration of it: to
    resolve the text, without asking the service, succeeds with the same endpoint and
    the same text. *)
Theorem endpoint_text_roundtrip endpoint : endpoint_ok endpoint ->
  exists text, endpoint_to_string ResolvedTextCapacity endpoint = Some text /\
    forall runtime_ready request, resolve_endpoint runtime_ready request text =
      mk_resolution true PeerErrorStage_None PeerErrorCode_None endpoint (text ++ zeros (ResolvedTextCapacity - length text)).
Proof.
  destruct endpoint as [family port address]. intros [Hp Ha]. cbn [ep_port ep_family ep_address] in *.
  assert (forall host text resolved, endpoint_to_string ResolvedTextCapacity resolved = Some text ->
    ParseEndpointText text = Some (host, print_decimal port) -> IsNumericHost host = true ->
    ResolveNumericEndpoint host (print_decimal port) = StoreResolvedText resolved ->
    forall runtime_ready request, resolve_endpoint runtime_ready request text =
      mk_resolution true PeerErrorStage_None PeerErrorCode_None resolved (text ++ zeros (ResolvedTextCapacity - length text))) as Hres.
  { intros host text resolved Et Epa En Er ready request. unfold resolve_endpoint. rewrite Epa, port_valid, En, Er by done.
    unfold StoreResolvedText. by rewrite Et. }
  destruct (print_port port ltac:(lia)) as (_ & _ & Estr).
  assert (u16 port = port) as Eport by (apply wrap_id; unfold in_width; lia).
  destruct family; [done| |].
  - destruct Ha as (a & Ha & ->). destruct (text_of_inet a port Ha Hp) as (host & Et & E4 & Epa).
    eexists. split; [exact Et|]. apply (Hres host); [done|done| |].
    + unfold IsNumericHost. rewrite E4. rewrite (bool_decide_eq_true_2 (is_Some (Some _))) by done.
      destruct (Nat.eqb_spec (length host) 0) as [El|]; [|done]. apply ParseEndpointText_exact in Epa as (h & s & [_ H] & _). lia.
    + unfold ResolveNumericEndpoint. rewrite E4, Estr, Eport. unfold write_at. cbn [take app Nat.add]. do 2 f_equal.
      destruct Ha as [-> _]. done.
  - destruct (text_of_inet6 address port Ha Hp) as (host & Et & E4 & E6 & Epa).
    eexists. split; [exact Et|]. apply (Hres host); [done|done| |].
    + unfold IsNumericHost. rewrite E4, E6. rewrite (bool_decide_eq_true_2 (is_Some (Some _))) by done. rewrite orb_true_r.
      destruct (Nat.eqb_spec (length host) 0) as [El|]; [|done]. apply ParseEndpointText_exact in Epa as (h & s & [_ H] & _). lia.
    + unfold ResolveNumericEndpoint. rewrite E4, E6, Estr, Eport. unfold write_at. cbn [take app Nat.add]. do 2 f_equal.
      destruct Ha as [-> _]. cbn. by rewrite app_nil_r.
Qed.
End Endpoint.

(** ** Texts of addresses *)

(** Three decimal digits for each byte of an IPv4 address, two hexadecimal ones for
    each byte of an IPv6 address. *)
Definition three_digits (b : Z) : bytes := [48 + b / 100; 48 + b / 10 mod 10; 48 + b mod 10].
Definition hex_character (n : Z) : Z := if n <? 10 then 48 + n else 87 + n.
Definition hex_value (c : Z) : Z := if c <? 97 then c - 48 else c - 87.
Fixpoint read_threes (text : bytes) : bytes :=
  match text with a :: b :: c :: rest => (a - 48) * 100 + (b - 48) * 10 + (c - 48) :: read_threes rest | _ => [] end.
Fixpoint read_pairs (text : bytes) : bytes :=
  match text with a :: b :: rest => hex_value a * 16 + hex_value b :: read_pairs rest | _ => [] end.
Definition fixed_texts : AddressText := {|
  AF_UNSPEC := 0;
  SOCK_DGRAM := 2;
  IPPROTO_UDP := 17;
  AI_NUMERICSERV := 8;
  inet_pton4 text := if (length text =? 12)%nat then Some (read_threes text) else None;
  inet_pton6 text := if (length text =? 32)%nat then Some (read_pairs text) else None;
  inet_ntop4 address := Some (concat (map three_digits address));
  inet_ntop6 address := Some (concat (map (fun b => [hex_character (b / 16); hex_character (b mod 16)]) address))
|}.
Lemma read_threes_digits address : bytes_ok address ->
  read_threes (concat (map three_digits address)) = address /\
  Forall (fun c => is_digit c || (c =? char ".") = true) (concat (map three_digits address)) /\
  length (concat (map three_digits address)) = (3 * length address)%nat.
Proof.
  induction 1 as [|b address Hb _ (Er & Hd & El)]; [by split_and!|]. unfold in_width in Hb. cbn [map concat three_digits app read_threes].
  rewrite Er. split; [|split].
  - f_equal. Z.div_mod_to_equations. lia.
  - repeat constructor; [..|exact Hd]; unfold is_digit; change (char "0") with 48; change (char "9") with 57;
      apply orb_true_iff; left; apply andb_true_iff; rewrite !Z.leb_le; Z.div_mod_to_equations; lia.
  - cbn [length]. rewrite El. lia.
Qed.
Lemma hex_digit_ok n : 0 <= n < 16 -> hex_value (hex_character n) = n /\ is_hex (hex_character n) = true.
Proof.
  intros Hn. unfold hex_value, hex_character, is_hex, is_digit. change (char "0") with 48. change (char "9") with 57.
  change (char "a") with 97. change (char "f") with 102. destruct (Z.ltb_spec n 10).
  - rewrite (proj2 (Z.ltb_lt (48 + n) 97)) by lia. split; [lia|]. apply orb_true_iff. left. apply andb_true_iff. rewrite !Z.leb_le. lia.
  - rewrite (proj2 (Z.ltb_ge (87 + n) 97)) by lia. split; [lia|]. apply orb_true_iff. right. apply andb_true_iff. rewrite !Z.leb_le. lia.
Qed.
Lemma read_pairs_digits address : bytes_ok address ->
  let text := concat (map (fun b => [hex_character (b / 16); hex_character (b mod 16)]) address) in
  read_pairs text = address /\ Forall (fun c => is_hex c || (c =? char ".") || (c =? char ":") = true) text /\
  length text = (2 * length address)%nat.
Proof.
  cbv zeta. induction 1 as [|b address Hb _ (Er & Hd & El)]; [by split_and!|]. unfold in_width in Hb. cbn [map concat app read_pairs].
  destruct (hex_digit_ok (b / 16)) as [E1 H1]; [Z.div_mod_to_equations; lia|].
  destruct (hex_digit_ok (b mod 16)) as [E2 H2]; [Z.div_mod_to_equations; lia|].
  rewrite Er, E1, E2. split; [|split].
  - f_equal. Z.div_mod_to_equations. lia.
  - constructor; [by rewrite H1|]. constructor; [by rewrite H2|exact Hd].
  - cbn [length]. rewrite El. lia.
Qed.
Definition fixed_texts_laws : @AddressTextLaws fixed_texts.
Proof.
  split.
  - intros address [Hl Hok]. destruct (read_threes_digits address Hok) as (Er & Hd & El). eexists. split; [reflexivity|].
    cbn [inet_pton4 fixed_texts]. rewrite El, Hl. cbn [Nat.mul Nat.add Nat.eqb]. rewrite Er. split; [done|]. split; [lia|done].
  - intros address [Hl Hok]. destruct (read_pairs_digits address Hok) as (Er & Hd & El). eexists. split; [reflexivity|].
    cbn [inet_pton4 inet_pton6 fixed_texts]. rewrite El, Hl. cbn [Nat.mul Nat.add Nat.eqb]. rewrite Er. split; [done|]. split; [done|]. split; [lia|done].
Qed.

Definition example_endpoint : endpoint := mk_endpoint address_family_inet 51820 ([198; 51; 100; 1] ++ zeros 12).
Lemma endpoint_text_roundtrip_witness : exists text,
  @endpoint_to_string fixed_texts ResolvedTextCapacity example_endpoint = Some text /\
  rr_resolved (@resolve_endpoint fixed_texts false (fun _ _ _ => mk_reply true 0 0 []) text) = example_endpoint /\
  rr_success (@resolve_endpoint fixed_texts false (fun _ _ _ => mk_reply true 0 0 []) text) = true.
Proof.
  assert (Hok : endpoint_ok example_endpoint).
  { split; [cbn; lia|]. exists [198; 51; 100; 1]. split; [|reflexivity]. split; [reflexivity|].
    apply (bool_decide_unpack _); vm_compute; exact I. }
  destruct (@endpoint_text_roundtrip fixed_texts fixed_texts_laws example_endpoint Hok) as (text & E & H).
  exists text. split; [exact E|]. rewrite H. split; reflexivity.
Defined.
Example endpoint_texts :
  (ParseEndpointText (chars "  vpn.example.org:51820 "), ParseEndpointText (chars "[2001:db8::1]:51820"),
   ParseEndpointText (chars "2001:db8::1:51820"), ParseEndpointText (chars "host:"), ParseEndpointText (chars "host:518200")) =
  (Some (chars "vpn.example.org", chars "51820"), Some (chars "2001:db8::1", chars "51820"), None, None, None).
Proof. by vm_compute. Qed.
