(* ===== verification/WorkQueue.v ===== *)
(** * The work queues

    Models the ordered work queues of [platform/horizon/work.cpp]: one queue with its
    thread, and the works that are put on it.  A step of the thread is one of its two
    sections under the lock: it takes the first work, or it ends the run of a work.
    The condition variable is left out: the thread can go on exactly when the queue has
    a work or is stopping, and every change that makes this so wakes it. *)

From S2P Require Import Prelude.
Local Open Scope Z_scope.

(** ** The queue *)

Inductive queue_work_result :=
  | queue_work_queued
  | queue_work_rerun_queued
  | queue_work_already_pending
  | queue_work_capacity_exhausted
  | queue_work_unavailable.
Definition classify_queue_work_request (available already_pending running : bool) (pending capacity : nat) : queue_work_result :=
  if negb available || (capacity =? 0)%nat then queue_work_unavailable
  else if already_pending then queue_work_already_pending
  else if (capacity <=? pending)%nat then queue_work_capacity_exhausted
  else if running then queue_work_rerun_queued else queue_work_queued.

Record workqueue_statistics := mk_wq_statistics {
  ws_capacity : nat;
  ws_pending : nat;
  ws_high_watermark : nat;
  ws_requests : Z;
  ws_enqueued : Z;
  ws_rerun_queued : Z;
  ws_coalesced : Z;
  ws_rejected_capacity : Z;
  ws_rejected_unavailable : Z;
  ws_completed : Z
}.
#[export] Instance eta_wq_statistics : Eta workqueue_statistics := fun r =>
  mk_wq_statistics (ws_capacity r) (ws_pending r) (ws_high_watermark r) (ws_requests r) (ws_enqueued r) (ws_rerun_queued r)
    (ws_coalesced r) (ws_rejected_capacity r) (ws_rejected_unavailable r) (ws_completed r).
Definition increment (n : Z) : Z := u64 (n + 1).

(** A work; [wk_owner] is the queue that it was put on. *)
Record WorkInternal := mk_work { wk_owner : option nat; wk_queued : bool; wk_running : bool; wk_rerun : bool }.
#[export] Instance eta_work : Eta WorkInternal := fun r => mk_work (wk_owner r) (wk_queued r) (wk_running r) (wk_rerun r).
Definition work_init : WorkInternal := mk_work None false false false.

Inductive WorkerThread := Worker_Waiting | Worker_Running (work : nat) | Worker_Ended.
#[export] Instance worker_thread_eq_dec : EqDecision WorkerThread.
Proof. solve_decision. Defined.

(** The linked list from [head] to [tail] is a list of works; [wq_works] is the works by
    their addresses. *)
Record workqueue_struct := mk_workqueue {
  wq_id : nat;
  wq_list : list nat;
  wq_pending_count : nat;
  wq_pending_capacity : nat;
  wq_active_count : nat;
  wq_statistics : workqueue_statistics;
  wq_stopping : bool;
  wq_thread : WorkerThread;
  wq_works : nat -> WorkInternal
}.
#[export] Instance eta_workqueue : Eta workqueue_struct := fun r =>
  mk_workqueue (wq_id r) (wq_list r) (wq_pending_count r) (wq_pending_capacity r) (wq_active_count r) (wq_statistics r)
    (wq_stopping r) (wq_thread r) (wq_works r).
Definition workqueue_init (id capacity : nat) : workqueue_struct :=
  mk_workqueue id [] 0 capacity 0 (mk_wq_statistics capacity 0 0 0 0 0 0 0 0 0) false Worker_Waiting (fun _ => work_init).

Definition on_work (work : nat) (f : WorkInternal -> WorkInternal) (wq : workqueue_struct) : workqueue_struct :=
  wq <| wq_works ::= fun works other => if decide (other = work) then f (works other) else works other |>.
Definition work_at (work : nat) (wq : workqueue_struct) : WorkInternal := wq_works wq work.
(** [statistics.pending = pending_count], and the watermark. *)
Definition record_pending (wq : workqueue_struct) : workqueue_struct :=
  wq <| wq_statistics ::= fun s => s <| ws_pending := wq_pending_count wq |> |>.
Definition record_watermark (wq : workqueue_struct) : workqueue_struct :=
  wq <| wq_statistics ::= fun s => s <| ws_high_watermark ::= Nat.max (wq_pending_count wq) |> |>.

Definition EnqueueWorkLocked (work : nat) (reserve_capacity : bool) (wq : workqueue_struct) : workqueue_struct :=
  let wq := wq <| wq_list ::= fun l => l ++ [work] |> in
  let wq := on_work work (fun k => (k <| wk_queued := true |>) <| wk_owner := Some (wq_id wq) |>) wq in
  let wq := if reserve_capacity then wq <| wq_pending_count ::= S |> else wq in
  record_watermark (record_pending wq).
Definition DequeueWorkLocked (wq : workqueue_struct) : option (nat * workqueue_struct) :=
  match wq_list wq with
  | [] => None
  | work :: rest =>
      let wq := wq <| wq_list := rest |> in
      let wq := on_work work (fun k => (k <| wk_queued := false |>) <| wk_running := true |>) wq in
      let wq := record_pending (wq <| wq_pending_count ::= Nat.pred |>) in
      Some (work, wq <| wq_active_count ::= S |>)
  end.

Definition record_request (wq : workqueue_struct) : workqueue_struct :=
  wq <| wq_statistics ::= fun s => s <| ws_requests ::= increment |> |>.
Definition queue_work (work : nat) (wq : workqueue_struct) : queue_work_result * workqueue_struct :=
  let impl := work_at work wq in
  let wq := record_request wq in
  let result := classify_queue_work_request
    (negb (wq_stopping wq) && (bool_decide (wk_owner impl = None) || bool_decide (wk_owner impl = Some (wq_id wq))))
    (wk_queued impl || wk_rerun impl) (wk_running impl) (wq_pending_count wq) (wq_pending_capacity wq) in
  (result,
   match result with
   | queue_work_queued =>
       (EnqueueWorkLocked work true wq) <| wq_statistics ::= fun s => s <| ws_enqueued ::= increment |> |>
   | queue_work_rerun_queued =>
       let wq := on_work work (fun k => k <| wk_rerun := true |>) wq in
       let wq := wq <| wq_pending_count ::= S |> in
       record_watermark (record_pending (wq <| wq_statistics ::= fun s => s <| ws_rerun_queued ::= increment |> |>))
   | queue_work_already_pending => wq <| wq_statistics ::= fun s => s <| ws_coalesced ::= increment |> |>
   | queue_work_capacity_exhausted => wq <| wq_statistics ::= fun s => s <| ws_rejected_capacity ::= increment |> |>
   | queue_work_unavailable => wq <| wq_statistics ::= fun s => s <| ws_rejected_unavailable ::= increment |> |>
   end).

(** The section of [WorkqueueThreadMain] after the work's function has returned. *)
Definition end_run (work : nat) (wq : workqueue_struct) : workqueue_struct :=
  let wq := on_work work (fun k => k <| wk_running := false |>) wq in
  let wq := (wq <| wq_active_count ::= Nat.pred |>) <| wq_statistics ::= fun s => s <| ws_completed ::= increment |> |> in
  wq <| wq_thread := Worker_Waiting |>.
Definition finish_work (work : nat) (wq : workqueue_struct) : workqueue_struct :=
  let wq := end_run work wq in
  if wk_rerun (work_at work wq) && negb (wq_stopping wq)
  then EnqueueWorkLocked work false (on_work work (fun k => k <| wk_rerun := false |>) wq)
  else wq.
(** One section of [WorkqueueThreadMain]; [None] while it waits. *)
Definition WorkqueueThreadMain (wq : workqueue_struct) : option workqueue_struct :=
  match wq_thread wq with
  | Worker_Ended => None
  | Worker_Running work => Some (finish_work work wq)
  | Worker_Waiting =>
      match DequeueWorkLocked wq with
      | None => if wq_stopping wq then Some (wq <| wq_thread := Worker_Ended |>) else None
      | Some (work, wq) => Some (wq <| wq_thread := Worker_Running work |>)
      end
  end.
(** The section of [destroy_workqueue] that stops the thread. *)
Definition stop_workqueue (wq : workqueue_struct) : workqueue_struct := wq <| wq_stopping := true |>.
(** [flush_workqueue] returns. *)
Definition flushed (wq : workqueue_struct) : bool :=
  bool_decide (wq_list wq = []) && (wq_active_count wq =? 0)%nat.

(** ** Steps *)

Inductive QueueStep := Step_Queue (work : nat) | Step_Thread | Step_Stop.
Definition wq_step (step : QueueStep) (wq : workqueue_struct) : workqueue_struct :=
  match step with
  | Step_Queue work => snd (queue_work work wq)
  | Step_Thread => default wq (WorkqueueThreadMain wq)
  | Step_Stop => stop_workqueue wq
  end.
Definition wq_run (steps : list QueueStep) (wq : workqueue_struct) : workqueue_struct :=
  foldl (fun wq step => wq_step step wq) wq steps.

(** The number of steps in which the thread goes on, and whether one of them takes a
    work. *)
Fixpoint thread_steps (steps : list QueueStep) (wq : workqueue_struct) : nat :=
  match steps with
  | [] => 0
  | step :: steps =>
      let goes_on := match step with Step_Thread => bool_decide (is_Some (WorkqueueThreadMain wq)) | _ => false end in
      ((if goes_on then 1 else 0) + thread_steps steps (wq_step step wq))%nat
  end.
Definition takes (work : nat) (wq : workqueue_struct) : bool :=
  bool_decide (wq_thread wq = Worker_Waiting) && bool_decide (head (wq_list wq) = Some work).
Fixpoint is_taken (work : nat) (steps : list QueueStep) (wq : workqueue_struct) : bool :=
  match steps with
  | [] => false
  | step :: steps =>
      match step with Step_Thread => takes work wq | _ => false end || is_taken work steps (wq_step step wq)
  end.

(** ** The invariant *)

Definition is_running (work : nat) (wq : workqueue_struct) : Prop := wq_thread wq = Worker_Running work.
Record queue_ok (wq : workqueue_struct) : Prop := {
  ok_nodup : NoDup (wq_list wq);
  ok_queued work : wk_queued (work_at work wq) = true <-> work ∈ wq_list wq;
  ok_running work : wk_running (work_at work wq) = true <-> is_running work wq;
  ok_one work : is_running work wq -> work ∉ wq_list wq;
  ok_rerun work : wk_rerun (work_at work wq) = true -> (is_running work wq \/ wq_stopping wq = true) /\ work ∉ wq_list wq;
  ok_count : exists rerun : option nat, (forall work, wk_rerun (work_at work wq) = true <-> rerun = Some work) /\
    wq_pending_count wq = (length (wq_list wq) + match rerun with Some _ => 1 | None => 0 end)%nat;
  ok_capacity : (wq_pending_count wq <= wq_pending_capacity wq)%nat;
  ok_active : wq_active_count wq = match wq_thread wq with Worker_Running _ => 1%nat | _ => 0%nat end;
  ok_ended : wq_thread wq = Worker_Ended -> wq_stopping wq = true;
  ok_statistics : ws_capacity (wq_statistics wq) = wq_pending_capacity wq /\
    ws_pending (wq_statistics wq) = wq_pending_count wq /\ (ws_pending (wq_statistics wq) <= ws_high_watermark (wq_statistics wq) <= wq_pending_capacity wq)%nat
}.

Lemma work_at_on_work work f wq other :
  work_at other (on_work work f wq) = if decide (other = work) then f (work_at other wq) else work_at other wq.
Proof. done. Qed.
Lemma classify_cases work wq : queue_ok wq ->
  match fst (queue_work work wq) with
  | queue_work_queued => work ∉ wq_list wq /\ ~ is_running work wq /\ wk_rerun (work_at work wq) = false /\
      wq_stopping wq = false /\ (wq_pending_count wq < wq_pending_capacity wq)%nat
  | queue_work_rerun_queued => work ∉ wq_list wq /\ is_running work wq /\ wk_rerun (work_at work wq) = false /\
      wq_stopping wq = false /\ (wq_pending_count wq < wq_pending_capacity wq)%nat
  | queue_work_already_pending => work ∈ wq_list wq \/ wk_rerun (work_at work wq) = true
  | _ => True
  end.
Proof.
  intros Hok. pose proof (ok_queued wq Hok work) as Hq. pose proof (ok_running wq Hok work) as Hr.
  unfold queue_work, classify_queue_work_request. cbn [fst].
  change (wq_stopping (record_request wq)) with (wq_stopping wq).
  change (wq_pending_count (record_request wq)) with (wq_pending_count wq).
  change (wq_pending_capacity (record_request wq)) with (wq_pending_capacity wq).
  destruct (wq_stopping wq); cbn [negb andb orb]; [done|]. destruct (_ || _) eqn:Eu; [done|].
  destruct (wk_queued (work_at work wq)) eqn:Eq; cbn [orb].
  { left. by apply Hq. }
  assert (work ∉ wq_list wq) as Hnot by by intros Hin; apply Hq in Hin.
  destruct (wk_rerun (work_at work wq)) eqn:Ere; [by right|].
  destruct (Nat.leb_spec (wq_pending_capacity wq) (wq_pending_count wq)); [done|].
  destruct (wk_running (work_at work wq)) eqn:Erun; (split; [done|]); (split; [|done]).
  - by apply Hr.
  - intros Hin. by apply Hr in Hin.
Qed.

(** A change of the statistics alone. *)
Lemma ok_statistics_only wq f : queue_ok wq -> ws_capacity (f (wq_statistics wq)) = ws_capacity (wq_statistics wq) ->
  ws_pending (f (wq_statistics wq)) = ws_pending (wq_statistics wq) ->
  ws_high_watermark (f (wq_statistics wq)) = ws_high_watermark (wq_statistics wq) ->
  queue_ok (wq <| wq_statistics ::= f |>).
Proof.
  intros [H1 H2 H3 H4 H5 H6 H7 H8 H0 H9] E1 E2 E3. split; try done.
  change (wq_statistics (wq <| wq_statistics ::= f |>)) with (f (wq_statistics wq)). by rewrite E1, E2, E3.
Qed.
Lemma count_snoc {A} (l : list A) x : length (l ++ [x]) = S (length l).
Proof. rewrite length_app. cbn. lia. Qed.
Lemma queue_work_ok work wq : queue_ok wq -> queue_ok (snd (queue_work work wq)).
Proof.
  intros Hok. pose proof (classify_cases work wq Hok) as Hcases. unfold queue_work in *. cbn [fst snd] in *.
  set (wq' := record_request wq) in *. assert (queue_ok wq') as Hok' by by apply ok_statistics_only.
  assert (wq_list wq' = wq_list wq /\ wq_thread wq' = wq_thread wq /\ wq_works wq' = wq_works wq /\ wq_stopping wq' = wq_stopping wq /\
    wq_pending_count wq' = wq_pending_count wq /\ wq_pending_capacity wq' = wq_pending_capacity wq) as (El & Et & Ew & Es & Ep & Ec) by done.
  clearbody wq'. destruct (classify_queue_work_request _ _ _ _ _); try by apply ok_statistics_only.
  - destruct Hcases as (Hnot & Hrun & Hre & Hstop & Hroom). apply ok_statistics_only; [|done..].
    unfold is_running, work_at in *. rewrite <- El, <- Et, <- Ew, <- Es, <- Ep, <- Ec in *. clear dependent wq.
    destruct Hok' as [H1 H2 H3 H4 H5 (o & Ho & H6) H7 H8 H0 (H9 & H10 & H11)].
    destruct wq' as [id l pc cap ac st sp th ws]. unfold is_running, work_at in *. cbn in *.
    split; unfold is_running, work_at; cbn.
    + apply NoDup_app. split; [done|]. split; [|apply NoDup_singleton]. intros x Hx Hin. apply list_elem_of_singleton in Hin. by subst.
    + intros x. rewrite elem_of_app, list_elem_of_singleton. case_decide; [subst; cbn; tauto|]. rewrite H2. naive_solver.
    + intros x. case_decide; [subst; cbn|]; apply H3.
    + intros x Hx. rewrite elem_of_app, list_elem_of_singleton. intros [?| ->]; [by apply (H4 x)|done].
    + intros x Hx. rewrite elem_of_app, list_elem_of_singleton. case_decide; [subst; cbn in Hx; congruence|].
      destruct (H5 x Hx) as [? ?]. naive_solver.
    + exists o. split; [|rewrite count_snoc; lia]. intros x. case_decide; [subst; cbn|]; apply Ho.
    + lia.
    + done.
    + done.
    + cbn. lia.
  - destruct Hcases as (Hnot & Hrun & Hre & Hstop & Hroom).
    unfold is_running, work_at in *. rewrite <- El, <- Et, <- Ew, <- Es, <- Ep, <- Ec in *. clear dependent wq.
    destruct Hok' as [H1 H2 H3 H4 H5 (o & Ho & H6) H7 H8 H0 (H9 & H10 & H11)].
    destruct wq' as [id l pc cap ac st sp th ws]. unfold is_running, work_at in *. cbn in *. subst th sp.
    assert (o = None) as ->.
    { destruct o as [v|]; [|done]. assert (v = work) as ->; [|by rewrite (proj2 (Ho work) eq_refl) in Hre].
      destruct (H5 v (proj2 (Ho v) eq_refl)) as [ [E|?] _]; [by injection E|done]. }
    split; unfold is_running, work_at; cbn; try done.
    + intros x. case_decide; [subst; cbn|]; apply H2.
    + intros x. case_decide; [subst; cbn|]; apply H3.
    + intros x Hx. case_decide; [subst; cbn in Hx; split; [by left|done]|by apply H5].
    + exists (Some work). split; [|lia]. intros x. case_decide; [subst; done|]. split; [|congruence]. intros Hx. by apply Ho in Hx.
    + lia.
Qed.
Lemma end_run_rerun work wq : wk_rerun (work_at work (end_run work wq)) = wk_rerun (work_at work wq).
Proof. change (work_at work (end_run work wq)) with (if decide (work = work) then (work_at work wq) <| wk_running := false |> else work_at work wq). by rewrite decide_True. Qed.
Lemma thread_ok wq wq' : queue_ok wq -> WorkqueueThreadMain wq = Some wq' -> queue_ok wq'.
Proof.
  intros [H1 H2 H3 H4 H5 (o & Ho & H6) H7 H8 H0 (H9 & H10 & H11)]. unfold WorkqueueThreadMain.
  destruct wq as [id l pc cap ac st sp th ws]. unfold is_running, work_at in *. cbn [wq_thread wq_list wq_works wq_pending_count
    wq_pending_capacity wq_active_count wq_statistics wq_stopping] in *.
  destruct th as [|work|]; [|intros [= <-]|done].
  - unfold DequeueWorkLocked. cbn [wq_list]. destruct l as [|work l].
    + destruct sp eqn:Esp; [|done]. cbn [wq_stopping]. intros [= <-]. split; unfold is_running, work_at; cbn; try done.
      * intros x. rewrite H3. by split.
      * intros x Hx. destruct (H5 x Hx) as [ [?|?] ?]; [done|]. split; [by right|done].
      * by exists o.
    + intros [= <-]. apply NoDup_cons in H1 as [Hnot H1]. split; unfold is_running, work_at; cbn in *.
      * done.
      * intros x. case_decide as Ex; [subst; cbn; split; [done|by intros ?]|]. rewrite H2, elem_of_cons. naive_solver.
      * intros x. case_decide as Ex; [subst; cbn; done|]. split; [intros Hx; by apply H3 in Hx|]. intros [= ->]. done.
      * by intros x [= ->].
      * intros x. case_decide as Ex; [subst; cbn|]; intros Hx; destruct (H5 _ Hx) as [Hor Hn]; rewrite elem_of_cons in Hn; [naive_solver|].
        split; [destruct Hor as [?|?]; [done|by right]|naive_solver].
      * exists o. split; [|lia]. intros x. case_decide; [subst; cbn|]; apply Ho.
      * lia.
      * by rewrite H8.
      * done.
      * cbn. lia.
  - assert (wk_running (ws work) = true) as Hrun by by apply H3. pose proof (H4 work eq_refl) as Hnot.
    assert (forall x, wk_running (ws x) = true -> x = work) as Hone by (intros x Hx; apply H3 in Hx; by injection Hx).
    unfold finish_work. cbv zeta. rewrite end_run_rerun. change (wq_stopping (end_run _ _)) with sp. unfold work_at. cbn [wq_works].
    destruct (wk_rerun (ws work)) eqn:Ere; [destruct sp|]; cbn [negb andb]; unfold end_run; cbv zeta.
    + split; unfold is_running, work_at; cbn; try done.
      * intros x. case_decide; [subst; cbn|]; apply H2.
      * intros x. case_decide as Ex; [subst; cbn; split; done|]. split; [|done]. intros Hx. by apply Hone in Hx.
      * intros x. case_decide; [subst; cbn|]; intros Hx; destruct (H5 _ Hx) as [_ ?]; (split; [by right|done]).
      * exists o. split; [|done]. intros x. case_decide; [subst; cbn|]; apply Ho.
      * by rewrite H8.
    + assert (o = Some work) as -> by by apply Ho. split; unfold is_running, work_at; cbn.
      * apply NoDup_app. split; [done|]. split; [|apply NoDup_singleton]. intros x Hx Hin. apply list_elem_of_singleton in Hin. by subst.
      * intros x. rewrite elem_of_app, list_elem_of_singleton. case_decide; [subst; cbn; tauto|]. rewrite H2. naive_solver.
      * intros x. repeat case_decide; subst; cbn; split; try done. intros Hx. by apply Hone in Hx.
      * done.
      * intros x. repeat case_decide as Ex; subst; cbn; try done. intros Hx. assert (Some work = Some x) as [= ->] by by apply Ho. done.
      * exists None. split; [|rewrite count_snoc; lia]. intros x. repeat case_decide as Ex; subst; cbn; try done.
        split; [|done]. intros Hx. apply Ho in Hx. congruence.
      * done.
      * by rewrite H8.
      * done.
      * cbn. lia.
    + split; unfold is_running, work_at; cbn; try done.
      * intros x. case_decide; [subst; cbn|]; apply H2.
      * intros x. case_decide as Ex; [subst; cbn; split; done|]. split; [|done]. intros Hx. by apply Hone in Hx.
      * intros x. case_decide as Ex; [subst; cbn|]; intros Hx; [congruence|]. destruct (H5 _ Hx) as [ [E|?] ?]; [by injection E as ->|].
        split; [by right|done].
      * exists o. split; [|done]. intros x. case_decide; [subst; cbn|]; apply Ho.
      * by rewrite H8.
Qed.
Lemma stop_ok wq : queue_ok wq -> queue_ok (stop_workqueue wq).
Proof.
  intros [H1 H2 H3 H4 H5 H6 H7 H8 H0 H9]. split; try done. intros work Hw. destruct (H5 work Hw) as [_ ?]. split; [by right|done].
Qed.
Lemma wq_step_ok step wq : queue_ok wq -> queue_ok (wq_step step wq).
Proof.
  intros Hok. destruct step as [work| |]; cbn [wq_step]; [by apply queue_work_ok| |by apply stop_ok].
  destruct (WorkqueueThreadMain wq) as [wq'|] eqn:E; [by eapply thread_ok|done].
Qed.
Lemma wq_run_ok steps wq : queue_ok wq -> queue_ok (wq_run steps wq).
Proof. revert wq. induction steps as [|step steps IH]; intros wq Hok; [done|]. by apply IH, wq_step_ok. Qed.
Lemma workqueue_init_ok id capacity : queue_ok (workqueue_init id capacity).
Proof.
  split; unfold is_running, work_at; cbn; [constructor|intros work; split|intros work; split|..]; try done; try lia.
  - by intros ?%elem_of_nil.
  - by exists None.
Qed.

(** When [flush_workqueue] returns, no work of the queue is waiting, running, or to run
    again (a work that asked to run again while the queue stopped never does). *)
Lemma flushed_idle wq work : queue_ok wq -> flushed wq = true ->
  wk_queued (work_at work wq) = false /\ wk_running (work_at work wq) = false /\
  (wq_stopping wq = false -> wk_rerun (work_at work wq) = false).
Proof.
  intros Hok [Hl%bool_decide_eq_true Hact%Nat.eqb_eq]%andb_prop.
  assert (~ is_running work wq) as Hrun.
  { intros Hr. pose proof (ok_active wq Hok) as E. unfold is_running in Hr. rewrite Hr in E. lia. }
  split; [|split].
  - apply not_true_iff_false. intros Hq%(ok_queued wq Hok). rewrite Hl in Hq. by apply elem_of_nil in Hq.
  - apply not_true_iff_false. by intros Hr%(ok_running wq Hok).
  - intros Hs. apply not_true_iff_false. intros Hre%(ok_rerun wq Hok). rewrite Hs in Hre. naive_solver.
Qed.

(** ** Progress *)

(** [work] is taken within [n] more steps of the thread, unless the queue is stopped. *)
Definition due (work n : nat) (wq : workqueue_struct) : Prop :=
  (exists before after, wq_list wq = before ++ work :: after /\
     ((if bool_decide (wq_thread wq = Worker_Waiting) then 0 else 1) + 2 * length before + 1 <= n)%nat) \/
  is_running work wq /\ wk_rerun (work_at work wq) = true /\ (2 * wq_pending_capacity wq <= n)%nat.

Lemma ok_room wq : queue_ok wq -> (length (wq_list wq) <= wq_pending_capacity wq)%nat.
Proof. intros Hok. destruct (ok_count wq Hok) as (o & _ & E). pose proof (ok_capacity wq Hok). lia. Qed.
Lemma ok_rerun_room work wq : queue_ok wq -> wk_rerun (work_at work wq) = true -> (S (length (wq_list wq)) <= wq_pending_capacity wq)%nat.
Proof.
  intros Hok Hre. destruct (ok_count wq Hok) as (o & Ho & E). apply Ho in Hre as ->. pose proof (ok_capacity wq Hok). lia.
Qed.
Lemma due_positive work n wq : queue_ok wq -> due work n wq -> (0 < n)%nat.
Proof.
  intros Hok [(before & after & _ & Hn)|(_ & Hre & Hn)]; [lia|]. pose proof (ok_rerun_room work wq Hok Hre). lia.
Qed.

(** What a request leaves in place: the works before, the thread, and the reruns. *)
Lemma queue_work_frame other wq : let wq' := snd (queue_work other wq) in
  (exists added, wq_list wq' = wq_list wq ++ added) /\ wq_thread wq' = wq_thread wq /\ wq_stopping wq' = wq_stopping wq /\
  wq_pending_capacity wq' = wq_pending_capacity wq /\
  (forall work, wk_rerun (work_at work wq) = true -> wk_rerun (work_at work wq') = true).
Proof.
  cbv zeta. unfold queue_work. cbn [snd]. destruct (classify_queue_work_request _ _ _ _ _);
    (split; [try (exists []; by rewrite app_nil_r); by exists [other]|]); repeat (split; [done|]); intros work Hre; try done.
  - change (wk_rerun ((fun k => (k <| wk_queued := true |>) <| wk_owner := Some (wq_id wq) |>) (work_at work wq)) = true) in Hre.
    cbn. by case_decide.
  - cbn. by case_decide.
Qed.
Lemma finish_work_frame other wq : wq_stopping wq = false ->
  wq_list (finish_work other wq) = wq_list wq ++ (if wk_rerun (work_at other wq) then [other] else []) /\
  wq_thread (finish_work other wq) = Worker_Waiting /\ wq_stopping (finish_work other wq) = false /\
  wq_pending_capacity (finish_work other wq) = wq_pending_capacity wq.
Proof.
  intros Hstop. unfold finish_work. cbv zeta. rewrite end_run_rerun. change (wq_stopping (end_run _ _)) with (wq_stopping wq).
  rewrite Hstop. destruct (wk_rerun (work_at other wq)); cbn [negb andb]; [done|]. by rewrite app_nil_r.
Qed.

Lemma thread_frame wq : wq_stopping (default wq (WorkqueueThreadMain wq)) = wq_stopping wq /\
  wq_pending_capacity (default wq (WorkqueueThreadMain wq)) = wq_pending_capacity wq.
Proof.
  unfold WorkqueueThreadMain. destruct (wq_thread wq) as [|other|]; [| |done].
  - unfold DequeueWorkLocked. destruct (wq_list wq); [|done]. by destruct (wq_stopping wq) eqn:E; cbn [default from_option id].
  - cbn [default from_option id]. unfold finish_work. cbv zeta. by destruct (_ && _).
Qed.
(** A request delays nothing that is due; a step of the thread brings it nearer. *)
Lemma due_queue_work other work n wq : due work n wq -> due work n (snd (queue_work other wq)).
Proof.
  destruct (queue_work_frame other wq) as ((added & El) & Et & _ & Ec & Hre). unfold due, is_running. rewrite El, Et, Ec.
  intros [(before & after & -> & Hn)|(Hrun & Hw & Hn)]; [left|right; by auto].
  exists before, (after ++ added). by rewrite <- app_assoc.
Qed.
Lemma due_thread work n wq : queue_ok wq -> wq_stopping wq = false -> takes work wq = false -> due work n wq ->
  exists wq', WorkqueueThreadMain wq = Some wq' /\ wq_stopping wq' = false /\ due work (n - 1) wq'.
Proof.
  intros Hok Hstop Htake Hdue. unfold WorkqueueThreadMain, due, is_running in *. destruct (wq_thread wq) as [|other|] eqn:Et.
  - destruct Hdue as [(before & after & El & Hn)|(? & _)]; [|done]. unfold takes, DequeueWorkLocked in *. rewrite Et, El in *.
    rewrite bool_decide_true in Htake, Hn by done. destruct before as [|first before]; cbn [app head] in *.
    { by rewrite bool_decide_true in Htake. }
    eexists. split; [done|]. split; [done|]. left. exists before, after. split; [done|].
    rewrite bool_decide_false by done. cbn in *. lia.
  - destruct (finish_work_frame other wq Hstop) as (El & Et' & Es & Ec). eexists. split; [done|]. split; [done|]. left.
    rewrite El, Et', bool_decide_true by done. destruct Hdue as [(before & after & -> & Hn)|([= ->] & Hre & Hn)].
    + eexists before, _. rewrite <- app_assoc. split; [done|]. rewrite bool_decide_false in Hn by done. cbn in *. lia.
    + rewrite Hre. exists (wq_list wq), []. split; [done|]. pose proof (ok_rerun_room work wq Hok Hre). cbn. lia.
  - by rewrite (ok_ended wq Hok Et) in Hstop.
Qed.
Lemma due_is_taken work steps : forall n wq, queue_ok wq -> wq_stopping wq = false -> due work n wq ->
  Forall (fun step => step <> Step_Stop) steps -> (n <= thread_steps steps wq)%nat -> is_taken work steps wq = true.
Proof.
  induction steps as [|step steps IH]; intros n wq Hok Hstop Hdue Hno Hn; cbn [thread_steps is_taken] in *.
  { pose proof (due_positive work n wq Hok Hdue). lia. }
  apply Forall_cons in Hno as [Hstep Hno]. pose proof (wq_step_ok step wq Hok) as Hok'.
  destruct step as [other| |]; [| |done]; cbn [wq_step] in *.
  - apply (IH n); [done|by rewrite (proj1 (proj2 (proj2 (queue_work_frame other wq))))|by apply due_queue_work|done|exact Hn].
  - destruct (takes work wq) eqn:Et; [done|]. destruct (due_thread work n wq Hok Hstop Et Hdue) as (wq' & E & Hs & Hd).
    rewrite E in *. cbn [default from_option id orb] in *. apply (IH (n - 1)%nat); [done..|].
    rewrite bool_decide_true in Hn by done. lia.
Qed.

Definition was_accepted (result : queue_work_result) : bool :=
  match result with queue_work_queued | queue_work_rerun_queued | queue_work_already_pending => true | _ => false end.
Lemma queue_work_marks work wq :
  match fst (queue_work work wq) with
  | queue_work_queued => wk_queued (work_at work (snd (queue_work work wq))) = true
  | queue_work_rerun_queued => wk_rerun (work_at work (snd (queue_work work wq))) = true
  | _ => wq_list (snd (queue_work work wq)) = wq_list wq
  end.
Proof.
  unfold queue_work. cbn [fst snd]. destruct (classify_queue_work_request _ _ _ _ _); try done; cbn; by rewrite decide_True.
Qed.
Lemma accepted_due work wq : queue_ok wq -> wq_stopping wq = false -> was_accepted (fst (queue_work work wq)) = true ->
  due work (2 * wq_pending_capacity wq) (snd (queue_work work wq)).
Proof.
  intros Hok Hstop Hacc. pose proof (classify_cases work wq Hok) as Hcases. pose proof (queue_work_ok work wq Hok) as Hok'.
  pose proof (queue_work_marks work wq) as Hmarks. destruct (queue_work_frame work wq) as ((added & El) & Et & Es & Ec & Hre).
  assert (work ∈ wq_list (snd (queue_work work wq)) -> due work (2 * wq_pending_capacity wq) (snd (queue_work work wq))) as Hin.
  { intros (before & after & E)%list_elem_of_split. left. exists before, after. split; [done|].
    pose proof (ok_room _ Hok') as Hroom. rewrite Ec, E, length_app in Hroom. cbn in Hroom. case_bool_decide; lia. }
  assert (wk_rerun (work_at work (snd (queue_work work wq))) = true -> due work (2 * wq_pending_capacity wq) (snd (queue_work work wq))) as Hrerun.
  { intros Hw. destruct (ok_rerun _ Hok' work Hw) as [ [Hrun|?] _]; [|congruence]. right. by rewrite Ec. }
  destruct (fst (queue_work work wq)); try done.
  - by apply Hin, (ok_queued _ Hok').
  - by apply Hrerun.
  - destruct Hcases as [Hl|Hr]; [apply Hin; by rewrite Hmarks|by apply Hrerun, Hre].
Qed.

Lemma wq_run_frame steps : forall wq, Forall (fun step => step <> Step_Stop) steps ->
  wq_stopping (wq_run steps wq) = wq_stopping wq /\ wq_pending_capacity (wq_run steps wq) = wq_pending_capacity wq.
Proof.
  induction steps as [|step steps IH]; intros wq Hno; [done|]. apply Forall_cons in Hno as [Hstep Hno].
  destruct (IH (wq_step step wq) Hno) as [Es Ec]. cbn [wq_run foldl] in *. fold (wq_run steps (wq_step step wq)).
  rewrite Es, Ec. destruct step as [other| |]; [|by apply thread_frame|done].
  destruct (queue_work_frame other wq) as (_ & _ & ? & ? & _). done.
Qed.

(** ** A queue with room for all its works *)

(** The request for [work] is still to be served. *)
Definition requested (work : nat) (wq : workqueue_struct) : Prop := work ∈ wq_list wq \/ wk_rerun (work_at work wq) = true.
Record queue_roomy (works : nat) (wq : workqueue_struct) : Prop := {
  qr_ok : queue_ok wq;
  qr_stopping : wq_stopping wq = false;
  qr_capacity : wq_pending_capacity wq = works;
  qr_works work : requested work wq -> (work < works)%nat;
  qr_owner work : wk_owner (work_at work wq) = None \/ wk_owner (work_at work wq) = Some (wq_id wq)
}.
Lemma roomy_init id works : queue_roomy works (workqueue_init id works).
Proof. split; [apply workqueue_init_ok|done|done| |by left]. intros work [?%elem_of_nil|?]; done. Qed.

Lemma nodup_bound (l : list nat) n : NoDup l -> (forall x, x ∈ l -> (x < n)%nat) -> (length l <= n)%nat.
Proof.
  intros Hl Hn. rewrite <- (length_seq n 0). apply submseteq_length, NoDup_submseteq; [done|].
  intros x Hx%Hn. apply elem_of_seq. lia.
Qed.
(** Another work finds room. *)
Lemma roomy_room works work wq : queue_roomy works wq -> (work < works)%nat -> ~ requested work wq ->
  (wq_pending_count wq < wq_pending_capacity wq)%nat.
Proof.
  intros [Hok Hs Hc Hw _] Hlt Hnot. destruct (ok_count wq Hok) as (rerun & Hre & ->). rewrite Hc.
  assert (NoDup (match rerun with Some r => work :: r :: wq_list wq | None => work :: wq_list wq end) /\
    forall x, x ∈ (match rerun with Some r => work :: r :: wq_list wq | None => work :: wq_list wq end) -> (x < works)%nat) as [Hnd Hb].
  { destruct rerun as [r|].
    - assert (wk_rerun (work_at r wq) = true) as Er by by apply Hre. destruct (ok_rerun wq Hok r Er) as [_ Hr]. split.
      + constructor; [|constructor; [done|by apply ok_nodup] ]. rewrite elem_of_cons. intros [->|?]; apply Hnot; [by right|by left].
      + intros x [->|[->|?]%elem_of_cons]%elem_of_cons; [done|apply Hw; by right|apply Hw; by left].
    - split; [constructor; [intros ?; apply Hnot; by left|by apply ok_nodup]|].
      intros x [->|?]%elem_of_cons; [done|apply Hw; by left]. }
  pose proof (nodup_bound _ works Hnd Hb). destruct rerun; cbn in *; lia.
Qed.
Lemma requested_decide work wq : queue_ok wq -> wk_queued (work_at work wq) || wk_rerun (work_at work wq) = true <-> requested work wq.
Proof. intros Hok. unfold requested. rewrite orb_true_iff. by rewrite (ok_queued wq Hok work). Qed.
(** A request is never rejected, and asks for nothing else. *)
Lemma roomy_queue_work works work wq : queue_roomy works wq -> (work < works)%nat ->
  was_accepted (fst (queue_work work wq)) = true /\ queue_roomy works (snd (queue_work work wq)) /\
  wq_thread (snd (queue_work work wq)) = wq_thread wq /\
  (forall other, requested other (snd (queue_work work wq)) <-> other = work \/ requested other wq) /\
  (wq_pending_count (snd (queue_work work wq)) <= S (wq_pending_count wq))%nat.
Proof.
  intros Hr Hlt. pose proof Hr as [Hok Hs Hc Hw Ho]. pose proof (queue_work_ok work wq Hok) as Hok'.
  destruct (queue_work_frame work wq) as (_ & Et & Es & Ec & _).
  assert (was_accepted (fst (queue_work work wq)) = true /\
    (forall other, requested other (snd (queue_work work wq)) <-> other = work \/ requested other wq) /\
    (forall other, wk_owner (work_at other (snd (queue_work work wq))) = None \/
       wk_owner (work_at other (snd (queue_work work wq))) = Some (wq_id (snd (queue_work work wq)))) /\
    (wq_pending_count (snd (queue_work work wq)) <= S (wq_pending_count wq))%nat) as (Hacc & Hreq & Hown & Hcount).
  { pose proof (requested_decide work wq Hok) as Hdec. unfold queue_work. cbn [fst snd]. set (wq1 := record_request wq).
    assert (negb (wq_stopping wq1) && (bool_decide (wk_owner (work_at work wq) = None) || bool_decide (wk_owner (work_at work wq) = Some (wq_id wq1))) = true) as ->.
    { change (wq_stopping wq1) with (wq_stopping wq). change (wq_id wq1) with (wq_id wq). rewrite Hs.
      cbn [negb andb]. apply orb_true_iff. destruct (Ho work) as [-> | ->]; [left|right]; by rewrite bool_decide_true. }
    unfold classify_queue_work_request. change (wq_pending_capacity wq1) with (wq_pending_capacity wq).
    change (wq_pending_count wq1) with (wq_pending_count wq). cbn [negb orb].
    rewrite (proj2 (Nat.eqb_neq (wq_pending_capacity wq) 0)) by lia.
    destruct (wk_queued (work_at work wq) || wk_rerun (work_at work wq)).
    { split; [done|]. split; [|split; [exact Ho|cbn; lia] ]. intros other. change (requested other wq <-> other = work \/ requested other wq).
      split; [by right|]. intros [->|?]; [by apply Hdec|done]. }
    pose proof (roomy_room works work wq Hr Hlt) as Hroom. destruct (Nat.leb_spec (wq_pending_capacity wq) (wq_pending_count wq)).
    { exfalso. assert (~ requested work wq) as Hn by by intros ?%Hdec. specialize (Hroom Hn). lia. }
    unfold requested. subst wq1. destruct wq as [id l pc cap ac st sp th ws]. cbn in *. unfold work_at in *. cbn in *.
    destruct (wk_running (ws work)); (split; [done|]); (split; [|split; [|exact (le_n (S pc))] ]); intros other; cbn; unfold work_at; cbn.
    - destruct (decide (other = work)) as [->|]; [split; [by left|by right]|tauto].
    - destruct (decide (other = work)) as [->|]; by apply Ho.
    - rewrite elem_of_app, list_elem_of_singleton. destruct (decide (other = work)) as [->|]; [split; intros _; [by left|left; by right]|tauto].
    - destruct (decide (other = work)) as [->|]; [by right|by apply Ho]. }
  split; [done|]. split; [|done]. split; try done; [by rewrite Es|by rewrite Ec|].
  intros other [->|?]%Hreq; [done|by apply Hw].
Qed.
(** The thread takes a work, which was requested; it ends a run; it waits only if nothing
    is requested. *)
Lemma roomy_thread works wq : queue_roomy works wq -> match wq_thread wq, WorkqueueThreadMain wq with
  | Worker_Waiting, None => forall work, ~ requested work wq
  | Worker_Waiting, Some wq' => exists work, wq_thread wq' = Worker_Running work /\ (work < works)%nat /\ queue_roomy works wq' /\
      wq_pending_count wq = S (wq_pending_count wq') /\ (forall other, requested other wq -> other = work \/ requested other wq')
  | Worker_Running _, Some wq' => wq_thread wq' = Worker_Waiting /\ queue_roomy works wq' /\ wq_pending_count wq' = wq_pending_count wq /\
      (forall other, requested other wq -> requested other wq')
  | _, _ => False
  end.
Proof.
  intros [Hok Hs Hc Hw Ho]. destruct (WorkqueueThreadMain wq) as [wq'|] eqn:E.
  - pose proof (thread_ok wq wq' Hok E) as Hok'. destruct (thread_frame wq) as [Es Ec]. rewrite E in Es, Ec. cbn [default from_option id] in Es, Ec.
    destruct (ok_count wq Hok) as (rerun & _ & Hcount). unfold WorkqueueThreadMain in E. destruct (wq_thread wq) as [|work|] eqn:Et.
    + unfold DequeueWorkLocked in E. destruct (wq_list wq) as [|work l] eqn:El; [by rewrite Hs in E|]. injection E as <-. exists work.
      assert (forall other, requested other wq -> other = work \/ other ∈ l \/ wk_rerun (work_at other wq) = true) as Hreq.
      { unfold requested. rewrite El. intros other. rewrite elem_of_cons. tauto. }
      assert ((work < works)%nat) as Hlt by (apply Hw; left; rewrite El; by left).
      destruct wq as [id l0 pc cap ac st sp th ws]. unfold requested, work_at in *. cbn in *. subst. split; [done|]. split; [done|].
      split; [|split; [lia|] ].
      * split; try done; unfold requested, work_at; cbn; intros other.
        -- destruct (decide (other = work)) as [->|]; [by intros _|]. intros [?|?]; apply Hw; [left; by right|by right].
        -- destruct (decide (other = work)) as [->|]; apply Ho.
      * intros other Hx. specialize (Hreq other Hx). destruct (decide (other = work)) as [->|]; [by left|tauto].
    + injection E as <-. unfold finish_work in *. cbv zeta in *. rewrite end_run_rerun in *. change (wq_stopping (end_run work wq)) with (wq_stopping wq) in *.
      rewrite Hs in *. destruct wq as [id l0 pc cap ac st sp th ws]. unfold requested, work_at in *. cbn in *. subst.
      destruct (wk_rerun (ws work)) eqn:Ere; cbn [andb negb] in *; cbn; (split; [done|]); (split; [|split; [done|] ]).
      * split; try done; unfold requested, work_at; cbn; intros other.
        -- rewrite elem_of_app, list_elem_of_singleton. destruct (decide (other = work)) as [->|]; [intros _; apply Hw; by right|].
           intros [ [?|?]|?]; [apply Hw; by left|done|apply Hw; by right].
        -- destruct (decide (other = work)) as [->|]; [by right|apply Ho].
      * intros other. unfold work_at. cbn. rewrite elem_of_app, list_elem_of_singleton.
        destruct (decide (other = work)) as [->|]; [intros _; left; by right|tauto].
      * split; try done; unfold requested, work_at; cbn; intros other.
        -- destruct (decide (other = work)) as [->|]; apply Hw.
        -- destruct (decide (other = work)) as [->|]; apply Ho.
      * intros other. unfold work_at. cbn. destruct (decide (other = work)) as [->|]; auto.
    + done.
  - unfold WorkqueueThreadMain in E. destruct (wq_thread wq) eqn:Et; [|done|].
    + unfold DequeueWorkLocked in E. destruct (wq_list wq) eqn:El; [|done]. intros work [Hx|Hx]; [rewrite El in Hx; by apply elem_of_nil in Hx|].
      destruct (ok_rerun wq Hok work Hx) as [ [Hr|?] _]; [unfold is_running in Hr; congruence|congruence].
    + by pose proof (ok_ended wq Hok Et); congruence.
Qed.

(** ** Properties *)

(** C30. A request that the queue accepts, as a new entry, as a rerun of the work that is
    running, or as one with a request that is pending already, is served: whatever was
    asked of the queue before, and whatever other requests come between, the thread takes
    the work again after the request, at the latest in its next step after [2 * capacity - 1] others, as
    long as the queue is not stopped; and the number of pending requests stays within the
    capacity. *)
Theorem accepted_work_runs (id capacity work : nat) (earlier later : list QueueStep)
  (wq := wq_run earlier (workqueue_init id capacity))
  (Hstop : Forall (fun step => step <> Step_Stop) (earlier ++ later))
  (Haccepted : was_accepted (fst (queue_work work wq)) = true)
  (Hsteps : (2 * capacity <= thread_steps later (snd (queue_work work wq)))%nat) :
  is_taken work later (snd (queue_work work wq)) = true /\
  (wq_pending_count (wq_run later (snd (queue_work work wq))) <= capacity)%nat.
Proof.
  apply Forall_app in Hstop as [Hearlier Hlater].
  assert (queue_ok wq) as Hok by apply wq_run_ok, workqueue_init_ok. destruct (wq_run_frame earlier (workqueue_init id capacity) Hearlier) as [Hs Hc].
  pose proof (queue_work_ok work wq Hok) as Hok'. destruct (queue_work_frame work wq) as (_ & _ & Es & Ec & _).
  assert (wq_pending_capacity (snd (queue_work work wq)) = capacity) as Ecap by (rewrite Ec; exact Hc).
  destruct (wq_run_frame later (snd (queue_work work wq)) Hlater) as [_ Hc']. split.
  - apply (due_is_taken work later (2 * capacity)); [done|by rewrite Es| |done|done].
    replace capacity with (wq_pending_capacity wq) by exact Hc. by apply accepted_due.
  - rewrite <- Ecap, <- Hc'. by apply ok_capacity, wq_run_ok.
Qed.

Lemma accepted_work_runs_witness :
  let earlier := [Step_Queue 5; Step_Queue 7; Step_Thread] in
  let wq := wq_run earlier (workqueue_init 0 2) in
  let later := [Step_Thread; Step_Queue 7; Step_Thread; Step_Thread; Step_Thread] in
  fst (queue_work 5 wq) = queue_work_rerun_queued /\
  is_taken 5 later (snd (queue_work 5 wq)) = true /\
  (wq_pending_count (wq_run later (snd (queue_work 5 wq))) <= 2)%nat.
Proof.
  split; [vm_compute; reflexivity|].
  apply (accepted_work_runs 0 2 5 [Step_Queue 5; Step_Queue 7; Step_Thread] [Step_Thread; Step_Queue 7; Step_Thread; Step_Thread; Step_Thread]);
    [repeat constructor; discriminate|vm_compute; reflexivity|vm_compute; repeat constructor].
Defined.
