(* ===== verification/DebugProbe.v ===== *)
(** * Debug probes

    Models [debug_probe.cpp], which builds the ICMP echo request of a probe and checks the
    reply, and [runtime/debug_probe_runner.cpp], which runs one probe at a time. *)

From S2P Require Import Prelude Endian Messages PacketQueue Platform Session Base64 InnerPacket Timers.
From S2P Require Import Crypto Device Data Identity Admission Handshake Peer PeerController RuntimeEvents FlowPolicy.
From S2P Require Import ConfigText AddrInfo Endpoint.
Local Open Scope Z_scope.

(** ** Bytes and checksums *)

Definition DebugProbeIpv4HeaderSize : nat := 20.
Definition DebugProbeIcmpHeaderSize : nat := 8.
Definition DebugProbeIcmpPayloadSize : nat := 16.
Definition DebugProbePacketSize : nat := DebugProbeIpv4HeaderSize + DebugProbeIcmpHeaderSize + DebugProbeIcmpPayloadSize.

Definition DebugTunnelPeerIpv4 : bytes := [10; 13; 13; 1].
Definition DebugPublicDnsIpv4 : bytes := [1; 1; 1; 1].

Definition StoreBigEndian16 (value : Z) : bytes := [u8 (Z.land (Z.shiftr value 8) 255); u8 (Z.land value 255)].
Definition StoreBigEndian32 (value : Z) : bytes :=
  [u8 (Z.land (Z.shiftr value 24) 255); u8 (Z.land (Z.shiftr value 16) 255); u8 (Z.land (Z.shiftr value 8) 255);
   u8 (Z.land value 255)].
(** The four bytes from [offset] on as one word. *)
Definition LoadBigEndian32 (data : bytes) (offset : nat) : Z :=
  Z.lor (Z.lor (Z.lor (Z.shiftl (byte_at data offset) 24) (Z.shiftl (byte_at data (offset + 1)) 16))
               (Z.shiftl (byte_at data (offset + 2)) 8)) (byte_at data (offset + 3)).

(** Its loops are those of [HasValidInternetChecksum]; [u32] of the complement has the
    sixteen low bits that are kept. *)
Definition ComputeInternetChecksum (data : bytes) : Z :=
  u16 (Z.land (u32 (Z.lnot (fold_carries 3 (checksum_loop (S (length data)) data 0 0)))) 65535).

(** ** Actions and states *)

(** [static_cast<DebugTriggerAction>(value)]: a value without a name is kept. *)
Inductive DebugTriggerAction :=
  | DebugTriggerAction_None
  | DebugTriggerAction_PingTunnelPeer
  | DebugTriggerAction_PingPublicDns
  | DebugTriggerAction_Unnamed (value : Z).
#[export] Instance debug_action_eq_dec : EqDecision DebugTriggerAction.
Proof. solve_decision. Defined.
Definition cast_action (value : Z) : DebugTriggerAction :=
  if value =? 0 then DebugTriggerAction_None
  else if value =? 1 then DebugTriggerAction_PingTunnelPeer
  else if value =? 2 then DebugTriggerAction_PingPublicDns
  else DebugTriggerAction_Unnamed value.
Definition action_value (action : DebugTriggerAction) : Z :=
  match action with
  | DebugTriggerAction_None => 0
  | DebugTriggerAction_PingTunnelPeer => 1
  | DebugTriggerAction_PingPublicDns => 2
  | DebugTriggerAction_Unnamed value => value
  end.
Definition IsSupportedDebugTriggerAction (action : DebugTriggerAction) : bool :=
  match action with
  | DebugTriggerAction_PingTunnelPeer | DebugTriggerAction_PingPublicDns => true
  | _ => false
  end.
Definition CopyDebugTargetIpv4 (action : DebugTriggerAction) : bytes :=
  match action with
  | DebugTriggerAction_PingTunnelPeer => DebugTunnelPeerIpv4
  | DebugTriggerAction_PingPublicDns => DebugPublicDnsIpv4
  | _ => zeros 4
  end.

Inductive DebugProbeStatus :=
  | DebugProbeStatus_None
  | DebugProbeStatus_Queued
  | DebugProbeStatus_Sent
  | DebugProbeStatus_ReplyValidated
  | DebugProbeStatus_ReplyRejected
  | DebugProbeStatus_TimedOut
  | DebugProbeStatus_StaleActivation
  | DebugProbeStatus_InvalidState
  | DebugProbeStatus_BuildFailed
  | DebugProbeStatus_SendFailed.
#[export] Instance debug_status_eq_dec : EqDecision DebugProbeStatus.
Proof. solve_decision. Defined.
Definition CanTransitionDebugProbeStatus (from to : DebugProbeStatus) : bool :=
  match to with
  | DebugProbeStatus_None => true
  | DebugProbeStatus_Queued =>
      match from with
      | DebugProbeStatus_None | DebugProbeStatus_ReplyValidated | DebugProbeStatus_ReplyRejected | DebugProbeStatus_TimedOut
      | DebugProbeStatus_StaleActivation | DebugProbeStatus_InvalidState | DebugProbeStatus_BuildFailed
      | DebugProbeStatus_SendFailed => true
      | DebugProbeStatus_Queued | DebugProbeStatus_Sent => false
      end
  | DebugProbeStatus_Sent | DebugProbeStatus_BuildFailed | DebugProbeStatus_SendFailed | DebugProbeStatus_StaleActivation
  | DebugProbeStatus_InvalidState => bool_decide (from = DebugProbeStatus_Queued)
  | DebugProbeStatus_ReplyValidated | DebugProbeStatus_ReplyRejected | DebugProbeStatus_TimedOut =>
      bool_decide (from = DebugProbeStatus_Sent)
  end.

Inductive DebugProbeReplyValidation :=
  | ReplyValidation_NotDebugReply
  | ReplyValidation_InvalidIpv4
  | ReplyValidation_InvalidIcmp
  | ReplyValidation_InvalidAction
  | ReplyValidation_ActivationMismatch
  | ReplyValidation_PeerMismatch
  | ReplyValidation_DestinationMismatch
  | ReplyValidation_SourceMismatch
  | ReplyValidation_Valid.
#[export] Instance reply_validation_eq_dec : EqDecision DebugProbeReplyValidation.
Proof. solve_decision. Defined.

Record DebugProbeReplyInfo := mk_reply_info {
  ri_action : DebugTriggerAction;
  ri_activation_generation : Z;
  ri_peer_index : Z;
  ri_sequence : Z;
  ri_source_ipv4 : bytes;
  ri_destination_ipv4 : bytes
}.
Definition reply_info_init : DebugProbeReplyInfo := mk_reply_info DebugTriggerAction_None 0 0 0 (zeros 4) (zeros 4).

Section DebugProbe.
Context {Texts : AddressText}.

(** ** The packets *)

(** The copy in a buffer of 48 characters, as the C string before a slash. *)
Definition ParseIpv4InterfaceAddress (address_text : bytes) : option bytes :=
  if (length address_text =? 0)%nat then None
  else
    let address_copy := c_string (take 47 address_text) in
    inet_pton4 (match find_position (char "/") address_copy with
                | Some slash => take slash address_copy
                | None => address_copy
                end).

(** The packet written to the front of a span of [payload_size] bytes; [None] is the
    size 0. *)
Definition BuildDebugIcmpEchoRequest (payload_size : nat) (source_address_text : bytes) (action : DebugTriggerAction)
    (activation_generation peer_index random_seed : Z) : option bytes :=
  if (payload_size <? DebugProbePacketSize)%nat || negb (IsSupportedDebugTriggerAction action) then None
  else
    source_ipv4 ← ParseIpv4InterfaceAddress source_address_text;
    let destination_ipv4 := CopyDebugTargetIpv4 action in
    let payload := zeros DebugProbePacketSize in
    let payload := write_at payload 0 [69] in
    let payload := write_at payload 1 [0] in
    let payload := write_at payload 2 (StoreBigEndian16 (Z.of_nat DebugProbePacketSize)) in
    let payload := write_at payload 4 (StoreBigEndian16 (u16 (Z.land random_seed 65535))) in
    let payload := write_at payload 6 (StoreBigEndian16 16384) in
    let payload := write_at payload 8 [64] in
    let payload := write_at payload 9 [1] in
    let payload := write_at payload 12 source_ipv4 in
    let payload := write_at payload 16 destination_ipv4 in
    let payload := write_at payload 10 (StoreBigEndian16 (ComputeInternetChecksum (take DebugProbeIpv4HeaderSize payload))) in
    let icmp := DebugProbeIpv4HeaderSize in
    let payload := write_at payload icmp [8] in
    let payload := write_at payload (icmp + 1) [0] in
    let payload := write_at payload (icmp + 4) (StoreBigEndian16 (u16 (Z.land (Z.shiftr random_seed 16) 65535))) in
    let payload := write_at payload (icmp + 6) (StoreBigEndian16 (u16 (Z.land activation_generation 65535))) in
    let icmp_payload := (icmp + DebugProbeIcmpHeaderSize)%nat in
    let payload := write_at payload icmp_payload (chars "WGNX") in
    let payload := write_at payload (icmp_payload + 4) (StoreBigEndian32 (action_value action)) in
    let payload := write_at payload (icmp_payload + 8) (StoreBigEndian32 activation_generation) in
    let payload := write_at payload (icmp_payload + 12) (StoreBigEndian32 (u32 peer_index)) in
    let payload := write_at payload (icmp + 2)
      (StoreBigEndian16 (ComputeInternetChecksum (subspan payload icmp (DebugProbeIcmpHeaderSize + DebugProbeIcmpPayloadSize)))) in
    Some payload.

Definition ValidateDebugIcmpEchoReply (payload local_address_text : bytes) (expected_peer_index expected_activation_generation : Z)
    : DebugProbeReplyValidation * DebugProbeReplyInfo :=
  let fail validation := (validation, reply_info_init) in
  if (length payload <? DebugProbeIpv4HeaderSize + DebugProbeIcmpHeaderSize)%nat then fail ReplyValidation_NotDebugReply
  else
    let version := Z.shiftr (byte_at payload 0) 4 in
    let ihl := (Z.to_nat (Z.land (byte_at payload 0) 15) * 4)%nat in
    if negb (version =? 4) then fail ReplyValidation_NotDebugReply
    else if (ihl <? DebugProbeIpv4HeaderSize)%nat || (length payload <? ihl)%nat
            || negb (ComputeInternetChecksum (take ihl payload) =? 0) then fail ReplyValidation_InvalidIpv4
    else
      let total_length := Z.to_nat (LoadBigEndian16 payload 2) in
      if (total_length <? ihl + DebugProbeIcmpHeaderSize)%nat || (length payload <? total_length)%nat
      then fail ReplyValidation_InvalidIpv4
      else if negb (byte_at payload 9 =? 1) then fail ReplyValidation_NotDebugReply
      else
        let icmp_size := (total_length - ihl)%nat in
        let icmp := subspan payload ihl icmp_size in
        if (icmp_size <? DebugProbeIcmpHeaderSize + DebugProbeIcmpPayloadSize)%nat
           || negb (ComputeInternetChecksum icmp =? 0) then fail ReplyValidation_InvalidIcmp
        else if negb (byte_at icmp 0 =? 0) || negb (byte_at icmp 1 =? 0) then fail ReplyValidation_NotDebugReply
        else
          let icmp_payload := drop DebugProbeIcmpHeaderSize icmp in
          if negb (bool_decide (take 4 icmp_payload = chars "WGNX")) then fail ReplyValidation_NotDebugReply
          else
            let action := cast_action (LoadBigEndian32 icmp_payload 4) in
            if negb (IsSupportedDebugTriggerAction action) then fail ReplyValidation_InvalidAction
            else
              let activation_generation := LoadBigEndian32 icmp_payload 8 in
              if negb (activation_generation =? expected_activation_generation) then fail ReplyValidation_ActivationMismatch
              else
                let peer_index := LoadBigEndian32 icmp_payload 12 in
                if negb (peer_index =? expected_peer_index) then fail ReplyValidation_PeerMismatch
                else
                  match ParseIpv4InterfaceAddress local_address_text with
                  | None => fail ReplyValidation_DestinationMismatch
                  | Some expected_destination =>
                      if negb (bool_decide (subspan payload 16 4 = expected_destination))
                      then fail ReplyValidation_DestinationMismatch
                      else if negb (bool_decide (subspan payload 12 4 = CopyDebugTargetIpv4 action))
                      then fail ReplyValidation_SourceMismatch
                      else (ReplyValidation_Valid,
                            mk_reply_info action activation_generation peer_index (LoadBigEndian16 icmp 6)
                              (subspan payload 12 4) (subspan payload 16 4))
                  end.

(** ** The runner *)

Definition DebugSourceCapacity : nat := 48.
Record DebugProbeRequest := mk_probe_request {
  dq_peer : PeerIdentity;
  dq_action : DebugTriggerAction;
  dq_source_address : bytes
}.
Record DebugProbeReplyOutcome := mk_outcome {
  oc_consumed : bool;
  oc_validation : DebugProbeReplyValidation;
  oc_info : DebugProbeReplyInfo
}.
Inductive DebugProbeQueueResult :=
  | DebugProbeQueueResult_Queued
  | DebugProbeQueueResult_Busy
  | DebugProbeQueueResult_UnsupportedAction
  | DebugProbeQueueResult_InvalidSource
  | DebugProbeQueueResult_InvalidTransition.
#[export] Instance probe_queue_result_eq_dec : EqDecision DebugProbeQueueResult.
Proof. solve_decision. Defined.

Record DebugProbeRunner := mk_runner {
  dr_peer : PeerIdentity;
  dr_action : DebugTriggerAction;
  dr_status : DebugProbeStatus;
  dr_source_address : bytes;
  dr_state_changed_ns : Z;
  dr_request_pending : bool
}.
#[export] Instance eta_runner : Eta DebugProbeRunner := fun r =>
  mk_runner (dr_peer r) (dr_action r) (dr_status r) (dr_source_address r) (dr_state_changed_ns r) (dr_request_pending r).
Definition runner_init : DebugProbeRunner :=
  mk_runner (mk_peer_identity 0 0) DebugTriggerAction_None DebugProbeStatus_None (zeros DebugSourceCapacity) 0 false.

Definition Probe_IsPending (r : DebugProbeRunner) : bool :=
  bool_decide (dr_status r = DebugProbeStatus_Queued) || bool_decide (dr_status r = DebugProbeStatus_Sent).
Definition Probe_Matches (request : DebugProbeRequest) (r : DebugProbeRunner) : bool :=
  bool_decide (dq_peer request = dr_peer r) && bool_decide (dq_action request = dr_action r).
(** [None] where the transition is not allowed. *)
Definition Probe_Transition (status : DebugProbeStatus) (now : Z) (r : DebugProbeRunner) : option DebugProbeRunner :=
  if negb (CanTransitionDebugProbeStatus (dr_status r) status) then None
  else Some ((r <| dr_status := status |>) <| dr_state_changed_ns := now |>).

Definition Probe_Queue (peer : PeerIdentity) (source_address : bytes) (action : DebugTriggerAction) (now : Z) (r : DebugProbeRunner)
    : DebugProbeQueueResult * DebugProbeRunner :=
  if Probe_IsPending r then (DebugProbeQueueResult_Busy, r)
  else if negb (IsSupportedDebugTriggerAction action) then (DebugProbeQueueResult_UnsupportedAction, r)
  else if (length source_address =? 0)%nat || (DebugSourceCapacity <=? length source_address)%nat
  then (DebugProbeQueueResult_InvalidSource, r)
  else
    match Probe_Transition DebugProbeStatus_Queued now r with
    | None => (DebugProbeQueueResult_InvalidTransition, r)
    | Some r =>
        (DebugProbeQueueResult_Queued,
         mk_runner peer action (dr_status r) (write_at (zeros DebugSourceCapacity) 0 source_address) (dr_state_changed_ns r) true)
    end.
Definition Probe_TakePending (r : DebugProbeRunner) : option DebugProbeRequest * DebugProbeRunner :=
  if negb (dr_request_pending r) || negb (bool_decide (dr_status r = DebugProbeStatus_Queued)) then (None, r)
  else (Some (mk_probe_request (dr_peer r) (dr_action r) (dr_source_address r)), r <| dr_request_pending := false |>).
Definition Probe_BuildPacket (request : DebugProbeRequest) (packet_size : nat) (random_seed : Z) (r : DebugProbeRunner)
    : option bytes :=
  if negb (Probe_Matches request r) || negb (bool_decide (dr_status r = DebugProbeStatus_Queued)) then None
  else BuildDebugIcmpEchoRequest packet_size (c_string (dq_source_address request)) (dq_action request)
         (pi_activation_generation (dq_peer request)) (pi_peer_index (dq_peer request)) random_seed.
Definition Probe_MarkFailed (request : DebugProbeRequest) (status : DebugProbeStatus) (now : Z) (r : DebugProbeRunner)
    : bool * DebugProbeRunner :=
  if Probe_Matches request r then
    match Probe_Transition status now r with Some r => (true, r) | None => (false, r) end
  else (false, r).
Definition Probe_MarkSent (request : DebugProbeRequest) (now : Z) (r : DebugProbeRunner) : bool * DebugProbeRunner :=
  if Probe_Matches request r then
    match Probe_Transition DebugProbeStatus_Sent now r with Some r => (true, r) | None => (false, r) end
  else (false, r).
Definition Probe_HandleDecryptedPacket (peer : PeerIdentity) (packet : bytes) (now : Z) (r : DebugProbeRunner)
    : DebugProbeReplyOutcome * DebugProbeRunner :=
  if negb (bool_decide (dr_status r = DebugProbeStatus_Sent))
  then (mk_outcome false ReplyValidation_NotDebugReply reply_info_init, r)
  else
    let '(validation, info) := ValidateDebugIcmpEchoReply packet (c_string (dr_source_address r)) (pi_peer_index (dr_peer r))
                                 (pi_activation_generation (dr_peer r)) in
    if bool_decide (validation = ReplyValidation_NotDebugReply) then (mk_outcome false validation info, r)
    else
      let validation := if negb (bool_decide (peer = dr_peer r)) then ReplyValidation_ActivationMismatch else validation in
      let status := if bool_decide (validation = ReplyValidation_Valid) then DebugProbeStatus_ReplyValidated
                    else DebugProbeStatus_ReplyRejected in
      (mk_outcome true validation info, default r (Probe_Transition status now r)).
Definition Probe_HandleTimeout (now : Z) (r : DebugProbeRunner) : bool * DebugProbeRunner :=
  if bool_decide (dr_status r = DebugProbeStatus_Sent) then
    match Probe_Transition DebugProbeStatus_TimedOut now r with Some r => (true, r) | None => (false, r) end
  else (false, r).
(** [None] is the null pointer. *)
Definition Probe_Cancel (peer : option PeerIdentity) (r : DebugProbeRunner) : DebugProbeRunner :=
  match peer with
  | Some peer => if bool_decide (peer = dr_peer r) then runner_init else r
  | None => runner_init
  end.

(** What the peer's information says about the last probe, if it is of the peer: the
    action, the status and the seconds since its last change. *)
Definition ElapsedSeconds (timestamp now : Z) : Z :=
  if (timestamp <=? 0) || (now <? timestamp) then -1
  else
    let elapsed := (now - timestamp) / 1000000000 in
    if 2 ^ 31 - 1 <? elapsed then 2 ^ 31 - 1 else elapsed.
Definition Probe_Project (peer_index now : Z) (r : DebugProbeRunner) : option (DebugTriggerAction * DebugProbeStatus * Z) :=
  if bool_decide (dr_status r = DebugProbeStatus_None) || negb (pi_peer_index (dr_peer r) =? peer_index) then None
  else Some (dr_action r, dr_status r, ElapsedSeconds (dr_state_changed_ns r) now).


(** ** Words and checksums *)

Lemma StoreBigEndian16_sum v : in_width 16 v -> exists a b, StoreBigEndian16 v = [a; b] /\ is_byte a /\ is_byte b /\ a * 256 + b = v.
Proof.
  intros Hv. unfold in_width in Hv. eexists _, _. split; [done|]. rewrite !land_255, shiftr_div by lia. change (2 ^ 8) with 256 in *.
  rewrite !wrap_id by apply byte_mod. split; [apply byte_mod|]. split; [apply byte_mod|].
  Z.to_euclidean_division_equations; lia.
Qed.
Lemma StoreBigEndian32_StoreBe32 v : StoreBigEndian32 v = StoreBe32 v.
Proof. unfold StoreBigEndian32. rewrite !land_255, !wrap_id by apply byte_mod. unfold StoreBe32. by rewrite !land_255. Qed.

Lemma LoadBigEndian32_LoadBe32 data offset : LoadBigEndian32 data offset = LoadBe32 (drop offset data).
Proof. unfold LoadBigEndian32, LoadBe32. by rewrite !byte_at_drop, !Nat.add_0_r. Qed.

Lemma computed_checksum data (HB : bytes_ok data) (HL : Z.of_nat (length data) <= 131072) :
  in_width 16 (ComputeInternetChecksum data) /\ (words_sum data + ComputeInternetChecksum data) mod 65535 = 0 /\
  (ComputeInternetChecksum data =? 0) = HasValidInternetChecksum data.
Proof.
  destruct (internet_checksum_sum data HB HL) as (_ & _ & Hr & E1 & _). unfold ComputeInternetChecksum, HasValidInternetChecksum.
  set (r := fold_carries 3 _) in *. rewrite (land_mask 16) by lia. change (2 ^ 16) with 65536.
  assert (u16 (u32 (Z.lnot r) mod 65536) = 65535 - r) as ->.
  { unfold Z.lnot, wrap. change (2 ^ 16) with 65536. change (2 ^ 32) with 4294967296. Z.to_euclidean_division_equations; lia. }
  unfold in_width. split; [lia|]. split.
  - replace (words_sum data + (65535 - r)) with (words_sum data - r + 1 * 65535) by lia. rewrite Z.mod_add by lia.
    by rewrite Zminus_mod, E1, Z.sub_diag.
  - rewrite (wrap_id 16 r) by (unfold in_width; lia). destruct (Z.eqb_spec (65535 - r) 0), (Z.eqb_spec r 65535); lia || done.
Qed.

(** ** What a valid reply is *)

(** The header of an IPv4 packet that carries [size] bytes of ICMP. *)
Record reply_header (source destination : bytes) (size : nat) (header : bytes) : Prop := {
  rh_size : exists n, (5 <= n <= 15)%nat /\ length header = (n * 4)%nat /\ byte_at header 0 = 64 + Z.of_nat n;
  rh_total : LoadBigEndian16 header 2 = Z.of_nat (length header + size);
  rh_protocol : byte_at header 9 = 1;
  rh_source : subspan header 12 4 = source;
  rh_destination : subspan header 16 4 = destination;
  rh_checksum : HasValidInternetChecksum header = true
}.
(** An echo reply with the payload of a probe. *)
Record reply_icmp (info : DebugProbeReplyInfo) (icmp : bytes) : Prop := {
  rc_bytes : exists k0 k1 i0 i1 s0 s1 more,
    icmp = [0; 0; k0; k1; i0; i1; s0; s1] ++ chars "WGNX" ++ StoreBigEndian32 (action_value (ri_action info)) ++
           StoreBigEndian32 (ri_activation_generation info) ++ StoreBigEndian32 (ri_peer_index info) ++ more /\
    ri_sequence info = s0 * 256 + s1;
  rc_checksum : HasValidInternetChecksum icmp = true
}.
(** A reply to a probe of the interface with the address [local]; padding may follow the
    packet. *)
Definition probe_reply (local : bytes) (info : DebugProbeReplyInfo) (reply : bytes) : Prop :=
  IsSupportedDebugTriggerAction (ri_action info) = true /\ is_u32 (ri_activation_generation info) /\ is_u32 (ri_peer_index info) /\
  ri_source_ipv4 info = CopyDebugTargetIpv4 (ri_action info) /\ ri_destination_ipv4 info = local /\
  exists header icmp padding, reply = header ++ icmp ++ padding /\
    reply_header (ri_source_ipv4 info) (ri_destination_ipv4 info) (length icmp) header /\ reply_icmp info icmp.

Lemma cast_action_value action : IsSupportedDebugTriggerAction action = true -> cast_action (action_value action) = action.
Proof. by destruct action. Qed.
Lemma action_value_cast v : IsSupportedDebugTriggerAction (cast_action v) = true -> action_value (cast_action v) = v /\ is_u32 v.
Proof.
  unfold cast_action. destruct (Z.eqb_spec v 0); [done|]. destruct (Z.eqb_spec v 1); [subst; done|].
  destruct (Z.eqb_spec v 2); [subst; done|done].
Qed.
Lemma action_value_u32 action : IsSupportedDebugTriggerAction action = true -> is_u32 (action_value action).
Proof. by destruct action. Qed.

(** A word of the payload, read and written. *)
Lemma word_read a b c d rest : bytes_ok [a; b; c; d] -> StoreBigEndian32 (LoadBigEndian32 (a :: b :: c :: d :: rest) 0) = [a; b; c; d] /\
  is_u32 (LoadBigEndian32 (a :: b :: c :: d :: rest) 0).
Proof.
  intros H. rewrite StoreBigEndian32_StoreBe32. by apply (StoreBe32_LoadBe32 [a; b; c; d]).
Qed.
Lemma word_written v rest : is_u32 v -> LoadBigEndian32 (StoreBigEndian32 v ++ rest) 0 = v.
Proof.
  intros Hv. rewrite StoreBigEndian32_StoreBe32. destruct (StoreBe32_bytes v) as [Hl _].
  destruct (StoreBe32 v) as [|a [|b [|c [|d [|] ] ] ] ] eqn:E; try done. rewrite <- (LoadBe32_StoreBe32 v Hv), E. done.
Qed.
Lemma LoadBigEndian32_drop data n offset : LoadBigEndian32 data (n + offset) = LoadBigEndian32 (drop n data) offset.
Proof. by rewrite !LoadBigEndian32_LoadBe32, drop_drop. Qed.

(** The checks of the header. *)
Lemma header_read payload n : bytes_ok payload -> (n * 4 <= length payload)%nat -> Z.shiftr (byte_at payload 0) 4 = 4 ->
  n = Z.to_nat (Z.land (byte_at payload 0) 15) -> (5 <= n)%nat -> (n <= 15)%nat /\ byte_at (take (n * 4) payload) 0 = 64 + Z.of_nat n.
Proof.
  intros HB Hl Hv Hn H5. rewrite byte_at_take by lia. rewrite version_nibble in Hv. rewrite header_nibble in Hn.
  pose proof (byte_at_ok payload 0 HB) as Hb. unfold in_width in Hb. Z.to_euclidean_division_equations; lia.
Qed.

Ltac solve_bytes := repeat (apply bytes_ok_cons; split; [first [assumption|unfold in_width; lia]|]); apply bytes_ok_nil.
(** The fields of the ICMP message, as the code reads them. *)
Record icmp_fields (info : DebugProbeReplyInfo) (icmp : bytes) : Prop := {
  if_size : (24 <= length icmp)%nat;
  if_type : byte_at icmp 0 = 0 /\ byte_at icmp 1 = 0;
  if_sequence : LoadBigEndian16 icmp 6 = ri_sequence info;
  if_magic : take 4 (drop 8 icmp) = chars "WGNX";
  if_action : IsSupportedDebugTriggerAction (ri_action info) = true /\ cast_action (LoadBigEndian32 (drop 8 icmp) 4) = ri_action info;
  if_generation : LoadBigEndian32 (drop 8 icmp) 8 = ri_activation_generation info;
  if_peer : LoadBigEndian32 (drop 8 icmp) 12 = ri_peer_index info;
  if_checksum : HasValidInternetChecksum icmp = true
}.
Lemma icmp_read info icmp : bytes_ok icmp -> icmp_fields info icmp ->
  reply_icmp info icmp /\ is_u32 (ri_activation_generation info) /\ is_u32 (ri_peer_index info).
Proof.
  intros HB [Hl [H0 H1] Hs Hm [Hsup Ha] Hg Hp Hk].
  do 24 (destruct icmp as [|? icmp]; [cbn in Hl; lia|]).
  unfold byte_at in H0, H1. cbn in H0, H1. subst. injection Hm as -> -> -> ->.
  repeat (apply bytes_ok_cons in HB as [? HB]). cbn [drop] in *.
  rewrite (LoadBigEndian32_drop _ 4 0) in Ha. rewrite (LoadBigEndian32_drop _ 8 0) in Hg. rewrite (LoadBigEndian32_drop _ 12 0) in Hp.
  cbn [drop] in *.
  match type of Ha with cast_action (LoadBigEndian32 (?a :: ?b :: ?c :: ?d :: ?r) 0) = _ =>
    destruct (word_read a b c d r ltac:(solve_bytes)) as [Ea Ua] end.
  match type of Hg with LoadBigEndian32 (?a :: ?b :: ?c :: ?d :: ?r) 0 = _ =>
    destruct (word_read a b c d r ltac:(solve_bytes)) as [Eg Ug] end.
  match type of Hp with LoadBigEndian32 (?a :: ?b :: ?c :: ?d :: ?r) 0 = _ =>
    destruct (word_read a b c d r ltac:(solve_bytes)) as [Ep Up] end.
  rewrite <- Ha in Hsup. apply action_value_cast in Hsup as [Ev _].
  split; [|by rewrite <- Hg, <- Hp]. split; [|done]. eexists _, _, _, _, _, _, icmp.
  rewrite <- Ha, Ev, <- Hg, <- Hp, Ea, Eg, Ep. split; [done|]. rewrite <- Hs. unfold LoadBigEndian16, byte_at. cbn [lookup list_lookup default from_option id Nat.add].
  rewrite Z.lor_comm, lor_shiftl by (done || lia). unfold in_width in *. rewrite wrap_id by (unfold in_width; lia). lia.
Qed.
Lemma icmp_written info icmp : bytes_ok icmp -> IsSupportedDebugTriggerAction (ri_action info) = true ->
  is_u32 (ri_activation_generation info) -> is_u32 (ri_peer_index info) -> reply_icmp info icmp -> icmp_fields info icmp.
Proof.
  intros HB Hsup Hg Hp [ (k0 & k1 & i0 & i1 & s0 & s1 & more & E & Hs) Hk].
  destruct (StoreBe32_bytes (action_value (ri_action info))) as [La _]. destruct (StoreBe32_bytes (ri_activation_generation info)) as [Lg _].
  destruct (StoreBe32_bytes (ri_peer_index info)) as [Lp _]. rewrite <- !StoreBigEndian32_StoreBe32 in La, Lg, Lp.
  assert (drop 8 icmp = chars "WGNX" ++ StoreBigEndian32 (action_value (ri_action info)) ++
    StoreBigEndian32 (ri_activation_generation info) ++ StoreBigEndian32 (ri_peer_index info) ++ more) as Ed by by rewrite E.
  split; [..|done].
  - rewrite E, !length_app, La, Lg, Lp. cbn. lia.
  - by rewrite E.
  - rewrite Hs, E in *. repeat (apply bytes_ok_cons in HB as [? HB] || (cbn [app] in HB)). unfold LoadBigEndian16, byte_at. cbn [app lookup list_lookup default from_option id Nat.add].
    rewrite Z.lor_comm, lor_shiftl by (done || lia). unfold in_width in *. rewrite wrap_id by (unfold in_width; lia). lia.
  - by rewrite Ed.
  - split; [done|]. rewrite Ed, (LoadBigEndian32_drop _ 4 0). change (drop 4 (chars "WGNX" ++ ?r)) with r.
    rewrite word_written by by apply action_value_u32. by apply cast_action_value.
  - rewrite Ed, (LoadBigEndian32_drop _ 8 0). rewrite app_assoc, drop_app_length' by (rewrite length_app, La; done). by rewrite word_written.
  - rewrite Ed, (LoadBigEndian32_drop _ 12 0). rewrite !app_assoc, <- app_assoc, drop_app_length' by (rewrite !length_app, La, Lg; done). by rewrite word_written.
Qed.

Lemma header_bytes header rest i : (i < length header)%nat -> byte_at (header ++ rest) i = byte_at header i.
Proof. apply byte_at_app_l. Qed.
Lemma header_part header rest o n : (o + n <= length header)%nat -> subspan (header ++ rest) o n = subspan header o n.
Proof. intros H. unfold subspan. rewrite drop_app_le, take_app_le by (rewrite ?length_drop; lia). done. Qed.
Lemma header_word header rest o : (o + 1 < length header)%nat -> LoadBigEndian16 (header ++ rest) o = LoadBigEndian16 header o.
Proof. intros H. unfold LoadBigEndian16. by rewrite !header_bytes by lia. Qed.

(** A reply in its parts: how the code takes them, and that it takes them back. *)
Lemma reply_parts payload local peer generation info : bytes_ok payload ->
  ValidateDebugIcmpEchoReply payload local peer generation = (ReplyValidation_Valid, info) <->
  ri_peer_index info = peer /\ ri_activation_generation info = generation /\
  ri_source_ipv4 info = CopyDebugTargetIpv4 (ri_action info) /\ ParseIpv4InterfaceAddress local = Some (ri_destination_ipv4 info) /\
  exists header icmp padding, payload = header ++ icmp ++ padding /\ reply_header (ri_source_ipv4 info) (ri_destination_ipv4 info) (length icmp) header /\ icmp_fields info icmp.
Proof.
  intros HB. unfold ValidateDebugIcmpEchoReply. set (n := Z.to_nat (Z.land (byte_at payload 0) 15)). split.
  - destruct (Nat.ltb_spec (length payload) (DebugProbeIpv4HeaderSize + DebugProbeIcmpHeaderSize)) as [|Hl]; [done|].
    destruct (Z.eqb_spec (Z.shiftr (byte_at payload 0) 4) 4) as [Hv|]; [|done]. cbn [negb].
    destruct (Nat.ltb_spec (n * 4) DebugProbeIpv4HeaderSize) as [|H20]; [done|].
    destruct (Nat.ltb_spec (length payload) (n * 4)) as [|Hihl]; [done|]. cbn [orb].
    unfold DebugProbeIpv4HeaderSize, DebugProbeIcmpHeaderSize, DebugProbeIcmpPayloadSize in *.
    destruct (header_read payload n HB Hihl Hv eq_refl ltac:(lia)) as [H15 H0].
    destruct (ComputeInternetChecksum (take (n * 4) payload) =? 0) eqn:Eh; [|done]. cbn [negb].
    set (total := Z.to_nat (LoadBigEndian16 payload 2)).
    destruct (Nat.ltb_spec total (n * 4 + 8)) as [|Ht]; [done|]. destruct (Nat.ltb_spec (length payload) total) as [|Htl]; [done|]. cbn [orb].
    destruct (Z.eqb_spec (byte_at payload 9) 1) as [H9|]; [|done]. cbn [negb].
    destruct (Nat.ltb_spec (total - n * 4) (8 + 16)) as [|Hi]; [done|].
    set (icmp := subspan payload (n * 4) (total - n * 4)) in *. assert (length icmp = total - n * 4)%nat as Hil by (unfold icmp; rewrite length_subspan; lia).
    destruct (ComputeInternetChecksum icmp =? 0) eqn:Ei; [|done]. cbn [orb negb].
    destruct (Z.eqb_spec (byte_at icmp 0) 0) as [I0|]; [|done]. destruct (Z.eqb_spec (byte_at icmp 1) 0) as [I1|]; [|done]. cbn [orb negb].
    case_bool_decide as Hm; [|done]. cbn [negb]. destruct (IsSupportedDebugTriggerAction _) eqn:Es; [|done]. cbn [negb].
    destruct (Z.eqb_spec (LoadBigEndian32 (drop 8 icmp) 8) generation) as [Hg|]; [|done]. cbn [negb].
    destruct (Z.eqb_spec (LoadBigEndian32 (drop 8 icmp) 12) peer) as [Hp|]; [|done]. cbn [negb].
    destruct (ParseIpv4InterfaceAddress local) as [d|]; [|done]. case_bool_decide as Hd; [|done]. cbn [negb].
    case_bool_decide as Hs; [|done]. cbn [negb]. intros [= <-]. cbn. rewrite Hd. split; [done|]. split; [done|]. split; [done|]. split; [done|].
    exists (take (n * 4) payload), icmp, (drop total payload).
    assert (payload = take (n * 4) payload ++ icmp ++ drop total payload) as Eall.
    { unfold icmp, subspan. replace (drop total payload) with (drop (total - n * 4) (drop (n * 4) payload)) by (rewrite drop_drop; f_equal; lia).
      by rewrite take_drop, take_drop. }
    assert (length (take (n * 4) payload) = n * 4)%nat as Hhl by (rewrite length_take; lia).
    destruct (computed_checksum (take (n * 4) payload)) as (_ & _ & Ch); [auto with wg|lia|]. rewrite Eh in Ch.
    pose proof (LoadBigEndian16_sum payload 2 HB) as [_ Hw].
    destruct (computed_checksum icmp) as (_ & _ & Ci); [unfold icmp; auto with wg|lia|]. rewrite Ei in Ci.
    split; [done|]. rewrite Eall in H9, Hs, Hd.
    assert (LoadBigEndian16 payload 2 = LoadBigEndian16 (take (n * 4) payload) 2) as Ew by (rewrite Eall at 1; apply header_word; lia).
    rewrite header_bytes in H9 by lia. split.
    + split; cbn; [exists n; lia| |done| | |done].
      * rewrite Hhl, Hil, <- Ew. lia.
      * rewrite Eall at 2. by rewrite header_part by lia.
      * rewrite <- Hd. by rewrite header_part by lia.
    + split; cbn; done || lia.
  - intros (<- & <- & Hsrc & Hdst & header & icmp & padding & -> & Hh & Hf). destruct Hh as [ (k & Hk & Hlen & H0) Ht H9 Hs Hd Hc]. destruct Hf as [Hl [I0 I1] Hq Hm [Hsup Ha] Hg Hp Hi].
    assert (n = k) as ->.
    { unfold n. rewrite header_bytes, header_nibble, H0 by lia. Z.to_euclidean_division_equations; lia. }
    apply bytes_ok_app in HB as [HBh HB]. apply bytes_ok_app in HB as [HBi _].
    unfold DebugProbeIpv4HeaderSize, DebugProbeIcmpHeaderSize, DebugProbeIcmpPayloadSize.
    rewrite !length_app, !header_bytes, (header_part header _ 12 4), (header_part header _ 16 4), header_word, version_nibble, H0, H9 by lia.
    replace ((64 + Z.of_nat k) / 16) with 4 by (Z.to_euclidean_division_equations; lia).
    rewrite Ht, Nat2Z.id. rewrite (take_app_length' header) by lia.
    replace (subspan (header ++ icmp ++ padding) (k * 4) (length header + length icmp - k * 4)) with icmp
      by (unfold subspan; rewrite drop_app_length', take_app_length' by lia; done).
    pose proof (LoadBigEndian16_sum header 2 HBh) as [_ Hw].
    destruct (computed_checksum header HBh) as (_ & _ & ->); [lia|]. destruct (computed_checksum icmp HBi) as (_ & _ & ->); [lia|].
    rewrite Hc, Hi, I0, I1, Hm, Ha, Hsup, Hg, Hp, Hdst, Hd, Hs, Hsrc, Hq, !bool_decide_true, !Z.eqb_refl by done.
    replace (length header + (length icmp + length padding) <? 20 + 8)%nat with false by (symmetry; apply Nat.ltb_ge; lia).
    replace (k * 4 <? 20)%nat with false by (symmetry; apply Nat.ltb_ge; lia).
    replace (length header + (length icmp + length padding) <? k * 4)%nat with false by (symmetry; apply Nat.ltb_ge; lia).
    replace (length header + length icmp <? k * 4 + 8)%nat with false by (symmetry; apply Nat.ltb_ge; lia).
    replace (length header + (length icmp + length padding) <? length header + length icmp)%nat with false by (symmetry; apply Nat.ltb_ge; lia).
    replace (length header + length icmp - k * 4 <? 8 + 16)%nat with false by (symmetry; apply Nat.ltb_ge; lia).
    cbn [orb negb]. rewrite <- Hsrc. by destruct info.
Qed.

Lemma probe_reply_valid payload local peer generation info : bytes_ok payload ->
  ValidateDebugIcmpEchoReply payload local peer generation = (ReplyValidation_Valid, info) <->
  ri_peer_index info = peer /\ ri_activation_generation info = generation /\
  exists address, ParseIpv4InterfaceAddress local = Some address /\ probe_reply address info payload.
Proof.
  intros HB. rewrite reply_parts by done. unfold probe_reply. split.
  - intros (<- & <- & Hs & Hd & header & icmp & padding & E & Hh & Hf). assert (bytes_ok icmp) as HBi.
    { subst payload. apply bytes_ok_app in HB as [_ HB]. by apply bytes_ok_app in HB as [HB _]. }
    destruct (icmp_read info icmp HBi Hf) as (Hi & Hg & Hp). split; [done|]. split; [done|]. eexists. split; [done|].
    split; [exact (proj1 (if_action _ _ Hf))|]. split; [done|]. split; [done|]. split; [done|]. split; [done|].
    by exists header, icmp, padding.
  - intros (<- & <- & address & Hd & Hsup & Hg & Hp & Hs & <- & header & icmp & padding & E & Hh & Hi).
    split; [done|]. split; [done|]. split; [done|]. split; [done|]. exists header, icmp, padding. split; [done|]. split; [done|].
    apply icmp_written; try done. subst payload. apply bytes_ok_app in HB as [_ HB]. by apply bytes_ok_app in HB as [HB _].
Qed.

(** ** The request *)

(** Storing the checksum of data with a zero field in that field makes it valid. *)
Lemma checksum_stored data stored : bytes_ok data -> bytes_ok stored -> Z.of_nat (length data) <= 131072 ->
  length stored = length data -> words_sum stored = words_sum data + ComputeInternetChecksum data -> words_sum data <> 0 ->
  HasValidInternetChecksum stored = true.
Proof.
  intros HB HS HL El Es Hn. destruct (computed_checksum data HB HL) as (Hc & Hm & _). pose proof (words_sum_bound data HB) as Hw.
  unfold in_width in Hc. apply valid_checksum_sum; [done|by rewrite El|]. rewrite Es. split; [lia|done].
Qed.

(** Computes the innermost write. *)
Ltac write_step :=
  match goal with |- context [write_at (?x :: ?l) ?o ?v] =>
    let r := eval cbn [write_at take drop app length Nat.add Nat.min Nat.sub DebugProbeIpv4HeaderSize DebugProbeIcmpHeaderSize] in (write_at (x :: l) o v) in change (write_at (x :: l) o v) with r end.
(** Names the two bytes of the checksum that is stored next. *)
Ltac name_checksum data k0 k1 :=
  match goal with |- context [StoreBigEndian16 (ComputeInternetChecksum ?d)] =>
    let r := eval cbn [take drop subspan app chars DebugProbeIpv4HeaderSize DebugProbeIcmpHeaderSize DebugProbeIcmpPayloadSize Nat.add] in d in
    change d with r; set (data := r);
    assert (bytes_ok data) by (unfold data; solve_bytes; done);
    destruct (StoreBigEndian16_sum (ComputeInternetChecksum data)) as (k0 & k1 & -> & ? & ? & ?);
      [apply computed_checksum; [done|cbn; lia]|]
  end.
(** The request in full, with [local] and [target] the two addresses. *)
Lemma request_parts size text action generation peer seed packet local : ParseIpv4InterfaceAddress text = Some local ->
  bytes_of 4 local -> BuildDebugIcmpEchoRequest size text action generation peer seed = Some packet ->
  exists header k0 k1 i0 i1, bytes_ok header /\ bytes_ok [k0; k1; i0; i1] /\
    let icmp := [8; 0; k0; k1; i0; i1] ++ StoreBigEndian16 (u16 (Z.land generation 65535)) ++ chars "WGNX" ++
                StoreBigEndian32 (action_value action) ++ StoreBigEndian32 generation ++ StoreBigEndian32 (u32 peer) in
    packet = header ++ icmp /\ length header = 20%nat /\ reply_header local (CopyDebugTargetIpv4 action) 24 header /\
    byte_at header 0 = 69 /\ HasValidInternetChecksum icmp = true.
Proof.
  intros Htext [Hl HB]. unfold BuildDebugIcmpEchoRequest. destruct (_ || _) eqn:Ec; [done|].
  apply orb_false_iff in Ec as [_ Hsup%negb_false_iff]. rewrite Htext. cbn [mbind option_bind]. cbv zeta. intros Epacket. apply (inj Some) in Epacket. subst packet.
  destruct local as [|a [|b [|c [|d [|] ] ] ] ]; try done. clear Hl.
  destruct (StoreBigEndian16_sum (u16 (Z.land seed 65535)) ltac:(by apply wrap_width)) as (d0 & d1 & Ed & Hd0 & Hd1 & _).
  destruct (StoreBigEndian16_sum (u16 (Z.land (Z.shiftr seed 16) 65535)) ltac:(by apply wrap_width)) as (i0 & i1 & Ei & Hi0 & Hi1 & _).
  destruct (StoreBigEndian16_sum (u16 (Z.land generation 65535)) ltac:(by apply wrap_width)) as (s0 & s1 & Es & Hs0 & Hs1 & _).
  assert (exists t0 t1 t2 t3, CopyDebugTargetIpv4 action = [t0; t1; t2; t3] /\ bytes_ok [t0; t1; t2; t3]) as (t0 & t1 & t2 & t3 & Et & Ht).
  { destruct action; try done; eexists _, _, _, _; (split; [done|]); by apply (bool_decide_unpack _); vm_compute. }
  destruct (four_bytes _ (StoreBe32_bytes (action_value action))) as (a0 & a1 & a2 & a3 & Ea).
  destruct (four_bytes _ (StoreBe32_bytes generation)) as (g0 & g1 & g2 & g3 & Eg).
  destruct (four_bytes _ (StoreBe32_bytes (u32 peer))) as (p0 & p1 & p2 & p3 & Ep).
  rewrite <- !StoreBigEndian32_StoreBe32 in Ea, Eg, Ep. rewrite Ed, Ei, Es, Et, Ea, Eg, Ep.
  change (StoreBigEndian16 (Z.of_nat DebugProbePacketSize)) with [0; 44]. change (StoreBigEndian16 16384) with [64; 0].
  change (zeros DebugProbePacketSize) with (zeros 44). change (chars "WGNX") with [87; 71; 78; 88]. cbn [zeros replicate]. do 9 write_step.
  assert (bytes_ok [a; b; c; d; t0; t1; t2; t3; d0; d1; i0; i1; s0; s1]) as HR1.
  { repeat (apply bytes_ok_cons in HB as [? HB]). repeat (apply bytes_ok_cons in Ht as [? Ht]). by solve_bytes. }
  assert (bytes_ok ([a0; a1; a2; a3] ++ [g0; g1; g2; g3] ++ [p0; p1; p2; p3])) as HR2.
  { rewrite <- Ea, <- Eg, <- Ep, !StoreBigEndian32_StoreBe32. repeat (apply bytes_ok_app; split); apply StoreBe32_bytes. }
  cbn [app] in HR2. repeat (apply bytes_ok_cons in HR1 as [? HR1]). repeat (apply bytes_ok_cons in HR2 as [? HR2]).
  name_checksum header0 h0 h1. do 9 write_step. name_checksum icmp0 k0 k1. write_step.
  exists [69; 0; 0; 44; d0; d1; 64; 0; 64; 1; h0; h1; a; b; c; d; t0; t1; t2; t3], k0, k1, i0, i1.
  split; [unfold header0 in *; solve_bytes|]. split; [solve_bytes|]. split; [done|]. split; [done|].
  assert (HasValidInternetChecksum [69; 0; 0; 44; d0; d1; 64; 0; 64; 1; h0; h1; a; b; c; d; t0; t1; t2; t3] = true) as Hh.
  { apply (checksum_stored header0); [done|solve_bytes|done|done|unfold header0 in *; cbn [words_sum]; lia|].
    unfold header0. cbn [words_sum]. unfold in_width in *. lia. }
  split; [split; [exists 5%nat; split; [lia|done]|reflexivity|reflexivity|reflexivity|reflexivity|done]|]. split; [done|].
  apply (checksum_stored icmp0); [done|cbn; solve_bytes|done|done|unfold icmp0 in *; cbn [words_sum app]; lia|].
  unfold icmp0. cbn [words_sum app]. unfold in_width in *. lia.
Qed.

(** It is a packet that the data plane accepts. *)
Lemma request_is_packet size text action generation peer seed packet local : ParseIpv4InterfaceAddress text = Some local ->
  bytes_of 4 local -> BuildDebugIcmpEchoRequest size text action generation peer seed = Some packet ->
  ValidateInnerIpPacket packet = (InnerIp_None, InnerIpVersion_Ipv4).
Proof.
  intros Htext Hlocal HE. destruct (request_parts _ _ _ _ _ _ _ _ Htext Hlocal HE) as (header & k0 & k1 & i0 & i1 & _ & _ & -> & Hl & Hr & H0 & _).
  set (icmp := [8; 0; k0; k1; i0; i1] ++ _). assert (length icmp = 24%nat) as Hi by done.
  unfold ValidateInnerIpPacket, ValidateInnerIpv4Packet. rewrite !length_app, Hl, Hi, !header_bytes, header_word, H0, (rh_total _ _ _ _ Hr), Hl by lia.
  replace (Z.to_nat (Z.land 69 15) * 4)%nat with 20%nat by done. rewrite (take_app_length' header) by lia. by rewrite (rh_checksum _ _ _ _ Hr).
Qed.
(** An answer of the host that was pinged: an echo reply with the addresses exchanged, what
    followed the checksum of the request, and any options and padding. *)
Definition echo_reply_to (request reply : bytes) : Prop :=
  exists header k0 k1 padding, let icmp := [0; 0; k0; k1] ++ drop 24 request in
    reply = header ++ icmp ++ padding /\
    reply_header (subspan request 16 4) (subspan request 12 4) (length icmp) header /\ HasValidInternetChecksum icmp = true.

Lemma request_answered size text action generation peer seed packet local reply :
  ParseIpv4InterfaceAddress text = Some local -> bytes_of 4 local -> is_u32 generation -> is_u32 peer ->
  BuildDebugIcmpEchoRequest size text action generation peer seed = Some packet ->
  bytes_ok reply -> echo_reply_to packet reply ->
  ValidateDebugIcmpEchoReply reply text peer generation =
    (ReplyValidation_Valid, mk_reply_info action generation peer (u16 generation) (CopyDebugTargetIpv4 action) local).
Proof.
  intros Htext Hlocal Hg Hp HE HB (header & k0 & k1 & padding & Er & Hh & Hk). apply probe_reply_valid; [done|].
  assert (IsSupportedDebugTriggerAction action = true) as Hsup.
  { unfold BuildDebugIcmpEchoRequest in HE. by destruct (_ <? _)%nat, (IsSupportedDebugTriggerAction action). }
  destruct (request_parts _ _ _ _ _ _ _ _ Htext Hlocal HE) as (requested & c0 & c1 & i0 & i1 & _ & HBc & -> & Hl & Hr & _).
  rewrite !header_part, (rh_source _ _ _ _ Hr), (rh_destination _ _ _ _ Hr) in Hh by (rewrite Hl; lia).
  rewrite drop_app_ge, Hl in Er, Hh, Hk by lia. change (24 - 20)%nat with 4%nat in *. rewrite (wrap_id 32 peer Hp) in *.
  set (icmp := [0; 0; k0; k1] ++ drop 4 _) in *.
  split; [done|]. split; [done|]. exists local. split; [done|]. split; [done|]. split; [done|]. split; [done|]. split; [done|]. split; [done|].
  exists header, icmp, padding. split; [exact Er|]. split; [exact Hh|]. split; [|exact Hk]. cbn [ri_action ri_sequence ri_activation_generation ri_peer_index].
  destruct (StoreBigEndian16_sum (u16 (Z.land generation 65535)) ltac:(by apply wrap_width)) as (s0 & s1 & E & _ & _ & Es).
  exists k0, k1, i0, i1, s0, s1, []. unfold icmp. rewrite E. rewrite app_nil_r. split; [done|]. rewrite Es, (land_mask 16) by lia. unfold wrap. by rewrite Z.mod_mod.
Qed.

(** ** Histories of the runner *)

Inductive ProbeOp :=
  | Op_Queue (peer : PeerIdentity) (source_address : bytes) (action : DebugTriggerAction) (now : Z)
  | Op_TakePending
  | Op_MarkSent (request : DebugProbeRequest) (now : Z)
  | Op_MarkFailed (request : DebugProbeRequest) (status : DebugProbeStatus) (now : Z)
  | Op_Packet (peer : PeerIdentity) (packet : bytes) (now : Z)
  | Op_Timeout (now : Z)
  | Op_Cancel (peer : option PeerIdentity).
(** The runner with the request that it was last given and that was not cancelled, and
    how often that was sent and got a verdict: a reply that was consumed, or the end of
    its time. *)
Record ProbeHistory := mk_history {
  ph_runner : DebugProbeRunner;
  ph_request : option (PeerIdentity * bytes * DebugTriggerAction);
  ph_sent : nat;
  ph_verdicts : nat
}.
Definition history_init : ProbeHistory := mk_history runner_init None 0 0.
Definition is_failure (status : DebugProbeStatus) : bool :=
  match status with
  | DebugProbeStatus_StaleActivation | DebugProbeStatus_InvalidState | DebugProbeStatus_BuildFailed | DebugProbeStatus_SendFailed => true
  | _ => false
  end.
(** Callers of [MarkFailed] give it a failure. *)
Definition op_ok (op : ProbeOp) : Prop :=
  match op with Op_MarkFailed _ status _ => is_failure status = true | _ => True end.
Definition probe_op (op : ProbeOp) (h : ProbeHistory) : ProbeHistory :=
  let r := ph_runner h in
  let count b n := if (b : bool) then S n else n in
  match op with
  | Op_Queue peer source action now =>
      let '(result, r) := Probe_Queue peer source action now r in
      if bool_decide (result = DebugProbeQueueResult_Queued) then mk_history r (Some (peer, source, action)) 0 0
      else mk_history r (ph_request h) (ph_sent h) (ph_verdicts h)
  | Op_TakePending => mk_history (snd (Probe_TakePending r)) (ph_request h) (ph_sent h) (ph_verdicts h)
  | Op_MarkSent request now =>
      let '(sent, r) := Probe_MarkSent request now r in mk_history r (ph_request h) (count sent (ph_sent h)) (ph_verdicts h)
  | Op_MarkFailed request status now =>
      mk_history (snd (Probe_MarkFailed request status now r)) (ph_request h) (ph_sent h) (ph_verdicts h)
  | Op_Packet peer packet now =>
      let '(outcome, r) := Probe_HandleDecryptedPacket peer packet now r in
      mk_history r (ph_request h) (ph_sent h) (count (oc_consumed outcome) (ph_verdicts h))
  | Op_Timeout now =>
      let '(ended, r) := Probe_HandleTimeout now r in mk_history r (ph_request h) (ph_sent h) (count ended (ph_verdicts h))
  | Op_Cancel peer =>
      if match peer with Some peer => bool_decide (peer = dr_peer r) | None => true end
      then mk_history (Probe_Cancel peer r) None 0 0 else h
  end.
Definition probe_history (ops : list ProbeOp) : ProbeHistory := foldl (fun h op => probe_op op h) history_init ops.

Record history_ok (h : ProbeHistory) : Prop := {
  ho_fields : match ph_request h with
              | Some (peer, source, action) => dr_peer (ph_runner h) = peer /\ dr_action (ph_runner h) = action /\
                  dr_source_address (ph_runner h) = write_at (zeros DebugSourceCapacity) 0 source /\
                  (0 < length source < DebugSourceCapacity)%nat /\ dr_status (ph_runner h) <> DebugProbeStatus_None
              | None => ph_runner h = runner_init
              end;
  ho_counts : match dr_status (ph_runner h) with
              | DebugProbeStatus_Sent => ph_sent h = 1%nat /\ ph_verdicts h = 0%nat
              | DebugProbeStatus_ReplyValidated | DebugProbeStatus_ReplyRejected | DebugProbeStatus_TimedOut =>
                  ph_sent h = 1%nat /\ ph_verdicts h = 1%nat
              | _ => ph_sent h = 0%nat /\ ph_verdicts h = 0%nat
              end
}.

Lemma history_init_ok : history_ok history_init.
Proof. by split. Qed.
(** A change of the status along an allowed transition. *)
Lemma transition_ok status now r r' q sent verdicts sent' verdicts' : Probe_Transition status now r = Some r' ->
  history_ok (mk_history r q sent verdicts) -> dr_status r = DebugProbeStatus_Queued \/ dr_status r = DebugProbeStatus_Sent ->
  status <> DebugProbeStatus_None -> history_ok (mk_history r' q sent' verdicts') <->
  match status with
  | DebugProbeStatus_Sent => sent' = 1%nat /\ verdicts' = 0%nat
  | DebugProbeStatus_ReplyValidated | DebugProbeStatus_ReplyRejected | DebugProbeStatus_TimedOut => sent' = 1%nat /\ verdicts' = 1%nat
  | _ => sent' = 0%nat /\ verdicts' = 0%nat
  end.
Proof.
  unfold Probe_Transition. destruct (negb _); [done|]. intros [= <-] [Hf _] Hnow Hs. split; [by intros [_ Hc]|].
  intros Hc. split; [|done]. cbn in *. destruct q as [ [ [peer source] action]|]; [tauto|]. subst r. by destruct Hnow.
Qed.
Lemma probe_op_ok op h : op_ok op -> history_ok h -> history_ok (probe_op op h).
Proof.
  intros Hop Hok. destruct h as [r q sent verdicts]. pose proof (ho_counts _ Hok) as Hc.
  cbn [ph_runner ph_request ph_sent ph_verdicts] in Hc.
  destruct op as [peer source action now| |request now|request status now|peer packet now|now|peer]; cbn [probe_op ph_runner ph_request ph_sent ph_verdicts].
  - unfold Probe_Queue, Probe_Transition. destruct (Probe_IsPending r) eqn:Ep; [by rewrite bool_decide_false|].
    destruct (IsSupportedDebugTriggerAction action); cbn [negb]; [|by rewrite bool_decide_false].
    destruct (_ || _) eqn:Es; [by rewrite bool_decide_false|]. destruct (negb _); [by rewrite bool_decide_false|]. rewrite bool_decide_true by done.
    apply orb_false_iff in Es as [Es1%Nat.eqb_neq Es2%Nat.leb_gt]. split; cbn; [|done]. split_and!; done || lia.
  - unfold Probe_TakePending. destruct (_ || _); [done|]. destruct Hok as [Hf _]. split; [|done]. cbn in *.
    destruct q as [ [ [peer source] action]|]; [done|]. by subst r.
  - unfold Probe_MarkSent. destruct (Probe_Matches request r); [|done]. destruct (Probe_Transition _ now r) as [r'|] eqn:Et; [|done].
    assert (dr_status r = DebugProbeStatus_Queued) as Eq by (unfold Probe_Transition in Et; cbn in Et; by case_bool_decide).
    apply (transition_ok _ _ _ _ _ _ _ _ _ Et Hok); [by left|done|]. rewrite Eq in Hc. destruct Hc as [-> ->]. done.
  - cbn in Hop. unfold Probe_MarkFailed. destruct (Probe_Matches request r); [|done]. destruct (Probe_Transition _ now r) as [r'|] eqn:Et; [|done].
    assert (dr_status r = DebugProbeStatus_Queued) as Eq by (unfold Probe_Transition in Et; destruct status; cbn in Et; done || by case_bool_decide).
    cbn [snd]. apply (transition_ok _ _ _ _ _ _ _ _ _ Et Hok); [by left|by destruct status|]. rewrite Eq in Hc. by destruct status.
  - unfold Probe_HandleDecryptedPacket. case_bool_decide as Eq; cbn [negb]; [|done].
    destruct (ValidateDebugIcmpEchoReply _ _ _ _) as [validation info]. case_bool_decide; [done|]. cbn [oc_consumed].
    rewrite Eq in Hc. destruct Hc as [-> ->].
    set (status := if bool_decide (_ = ReplyValidation_Valid) then DebugProbeStatus_ReplyValidated else DebugProbeStatus_ReplyRejected).
    assert (status = DebugProbeStatus_ReplyValidated \/ status = DebugProbeStatus_ReplyRejected) as Hs by (unfold status; case_bool_decide; tauto).
    destruct (Probe_Transition status now r) as [r'|] eqn:Et.
    + apply (transition_ok _ _ _ _ _ _ _ _ _ Et Hok); [by right|by destruct Hs as [-> | ->]|]. by destruct Hs as [-> | ->].
    + unfold Probe_Transition in Et. rewrite Eq in Et. by destruct Hs as [Hs|Hs]; rewrite Hs in Et.
  - unfold Probe_HandleTimeout. case_bool_decide as Eq; [|done]. destruct (Probe_Transition _ now r) as [r'|] eqn:Et; [|done].
    apply (transition_ok _ _ _ _ _ _ _ _ _ Et Hok); [by right|done|]. rewrite Eq in Hc. destruct Hc as [-> ->]. done.
  - destruct (match peer with Some _ => _ | None => true end) eqn:Em; [|done]. unfold Probe_Cancel.
    destruct peer as [peer|]; [rewrite Em|]; by split.
Qed.
Lemma probe_history_ok ops : Forall op_ok ops -> history_ok (probe_history ops).
Proof.
  intros Hops. unfold probe_history. assert (forall h, history_ok h -> history_ok (foldl (fun h op => probe_op op h) h ops)) as H.
  { induction Hops as [|op ops Hop _ IH]; intros h Hh; [done|]. by apply IH, probe_op_ok. }
  apply H, history_init_ok.
Qed.
(** The stored text is that of the request. *)
Lemma source_text source : (0 < length source < DebugSourceCapacity)%nat ->
  c_string (write_at (zeros DebugSourceCapacity) 0 source) = c_string source.
Proof.
  unfold DebugSourceCapacity. intros [_ Hl]. unfold write_at. rewrite take_0. cbn [app].
  change (0 + length source)%nat with (length source). unfold zeros. rewrite drop_replicate.
  destruct (48 - length source)%nat as [|n] eqn:En; [lia|]. clear Hl En. cbn [replicate].
  induction source as [|c source IH]; cbn [app c_string]; [done|]. destruct (c =? 0); [done|]. by rewrite IH.
Qed.
Lemma consumed_packet peer packet now r outcome r' : Probe_HandleDecryptedPacket peer packet now r = (outcome, r') ->
  oc_consumed outcome = true ->
  dr_status r = DebugProbeStatus_Sent /\ dr_status r' <> DebugProbeStatus_Sent /\
  (oc_validation outcome = ReplyValidation_Valid -> peer = dr_peer r /\
     ValidateDebugIcmpEchoReply packet (c_string (dr_source_address r)) (pi_peer_index (dr_peer r))
       (pi_activation_generation (dr_peer r)) = (ReplyValidation_Valid, oc_info outcome)).
Proof.
  unfold Probe_HandleDecryptedPacket. case_bool_decide as Eq; cbn [negb]; [|by intros [= <- <-]].
  destruct (ValidateDebugIcmpEchoReply _ _ _ _) as [validation info]. case_bool_decide as En; [by intros [= <- <-]|].
  intros [= <- <-] _. split; [done|]. cbn [oc_validation oc_info]. unfold Probe_Transition. rewrite Eq. split.
  - by destruct (bool_decide (_ = ReplyValidation_Valid)).
  - case_bool_decide as Ep; cbn [negb]; [|done]. by intros ->.
Qed.

(** ** Properties *)

(** C32. A probe that is answered is recognised: building a request succeeds exactly for an
    action with a target, an interface address that can be read and room for 44 bytes; the
    request is a valid IPv4 packet from that address to the target with valid checksums;
    and every answer to it, with whatever options, identification and padding, is validated
    with the action, the activation and the peer of the request. *)
Theorem probe_answered size text action generation peer seed : is_u32 generation -> is_u32 peer ->
  (forall local, ParseIpv4InterfaceAddress text = Some local -> bytes_of 4 local) ->
  match BuildDebugIcmpEchoRequest size text action generation peer seed with
  | None => (size < DebugProbePacketSize)%nat \/ IsSupportedDebugTriggerAction action = false \/ ParseIpv4InterfaceAddress text = None
  | Some request => exists local, ParseIpv4InterfaceAddress text = Some local /\
      ValidateInnerIpPacket request = (InnerIp_None, InnerIpVersion_Ipv4) /\ HasValidInternetChecksum (drop 20 request) = true /\
      subspan request 12 4 = local /\ subspan request 16 4 = CopyDebugTargetIpv4 action /\
      forall reply, bytes_ok reply -> echo_reply_to request reply ->
        ValidateDebugIcmpEchoReply reply text peer generation =
          (ReplyValidation_Valid, mk_reply_info action generation peer (u16 generation) (CopyDebugTargetIpv4 action) local)
  end.
Proof.
  intros Hg Hp Hlocal. destruct (BuildDebugIcmpEchoRequest _ _ _ _ _ _) as [request|] eqn:E.
  - destruct (ParseIpv4InterfaceAddress text) as [local|] eqn:El;
      [|unfold BuildDebugIcmpEchoRequest in E; rewrite El in E; by destruct (_ || _)].
    specialize (Hlocal local eq_refl). exists local. split; [done|].
    destruct (request_parts _ _ _ _ _ _ _ _ El Hlocal E) as (header & k0 & k1 & i0 & i1 & _ & _ & Er & Hl & Hh & H0 & Hk).
    rewrite Er, !header_part, drop_app_length' by lia. rewrite (rh_source _ _ _ _ Hh), (rh_destination _ _ _ _ Hh).
    split; [|split; [done|split; [done|split; [done|]]]].
    + rewrite <- Er. by apply (request_is_packet _ _ _ _ _ _ _ _ El Hlocal E).
    + intros reply HB Ha. rewrite <- Er in Ha. by eapply request_answered.
  - unfold BuildDebugIcmpEchoRequest in E. destruct (Nat.ltb_spec size DebugProbePacketSize); [by left|].
    destruct (IsSupportedDebugTriggerAction action); [|by right; left]. by destruct (ParseIpv4InterfaceAddress text); [|right; right].
Qed.

(** C33. Verdicts on probes.  Whatever happens to the runner, the request it was last given is
    sent at most once and gets at most one verdict, after it was sent; and a packet that
    is validated comes from the peer and the activation of that request, is a well-formed
    reply to its interface address, and gives it its first verdict; the next packet is not
    consumed. *)
Theorem probe_verdicts ops peer packet now outcome r' (h := probe_history ops) : Forall op_ok ops -> bytes_ok packet ->
  Probe_HandleDecryptedPacket peer packet now (ph_runner h) = (outcome, r') ->
  (ph_verdicts h <= ph_sent h <= 1)%nat /\
  (oc_consumed outcome = true -> ph_sent h = 1%nat /\ ph_verdicts h = 0%nat /\
     forall later packet' now', oc_consumed (fst (Probe_HandleDecryptedPacket later packet' now' r')) = false) /\
  (oc_consumed outcome = true -> oc_validation outcome = ReplyValidation_Valid ->
     exists source action address, ph_request h = Some (peer, source, action) /\
       ParseIpv4InterfaceAddress (c_string source) = Some address /\ probe_reply address (oc_info outcome) packet /\
       ri_peer_index (oc_info outcome) = pi_peer_index peer /\
       ri_activation_generation (oc_info outcome) = pi_activation_generation peer).
Proof.
  intros Hops HB E. pose proof (probe_history_ok ops Hops) as [Hf Hc]. fold h in Hf, Hc. split; [|split].
  - by destruct (dr_status (ph_runner h)), Hc as [-> ->]; lia.
  - intros Hcons. destruct (consumed_packet _ _ _ _ _ _ E Hcons) as (Eq & Hn & _). rewrite Eq in Hc. destruct Hc as [-> ->].
    split; [done|]. split; [done|]. intros later packet' now'. unfold Probe_HandleDecryptedPacket. by rewrite bool_decide_false.
  - intros Hcons Hv. destruct (consumed_packet _ _ _ _ _ _ E Hcons) as (Eq & _ & Hvalid). destruct (Hvalid Hv) as [-> Hreply].
    destruct (ph_request h) as [ [ [peer source] action]|]; [|rewrite Hf in Eq; done]. destruct Hf as (<- & _ & Es & Hl & _).
    rewrite Es, source_text in Hreply by done. apply probe_reply_valid in Hreply as (Hp & Hg & address & Ha & Hr); [|done].
    by exists source, action, address.
Qed.

End DebugProbe.

(** ** A probe *)

Definition probe_interface : bytes := chars "010013013002/24".
Definition probe_peer : PeerIdentity := mk_peer_identity 3 7.
Definition probe_request (action : DebugTriggerAction) : DebugProbeRequest :=
  mk_probe_request probe_peer action (probe_interface ++ zeros 33).
(** The answer of 10.13.13.1 to the first request. *)
Definition probe_answer : bytes :=
  let header sum := [69; 0; 0; 44; 18; 52; 0; 0; 63; 1] ++ sum ++ [10; 13; 13; 1; 10; 13; 13; 2] in
  let icmp sum := [0; 0] ++ sum ++ [0; 9; 0; 7; 87; 71; 78; 88; 0; 0; 0; 1; 0; 0; 0; 7; 0; 0; 0; 3] in
  header (StoreBigEndian16 (ComputeInternetChecksum (header [0; 0]))) ++ icmp (StoreBigEndian16 (ComputeInternetChecksum (icmp [0; 0]))).

Lemma probe_answered_witness : exists request,
  @BuildDebugIcmpEchoRequest fixed_texts 44 probe_interface DebugTriggerAction_PingTunnelPeer 7 3 (9 * 65536 + 5) = Some request /\
  @ValidateDebugIcmpEchoReply fixed_texts probe_answer probe_interface 3 7 =
    (ReplyValidation_Valid, mk_reply_info DebugTriggerAction_PingTunnelPeer 7 3 7 [10; 13; 13; 1] [10; 13; 13; 2]).
Proof.
  pose proof (@probe_answered fixed_texts 44 probe_interface DebugTriggerAction_PingTunnelPeer 7 3 (9 * 65536 + 5)) as H.
  assert (E : exists request, @BuildDebugIcmpEchoRequest fixed_texts 44 probe_interface DebugTriggerAction_PingTunnelPeer 7 3 (9 * 65536 + 5) = Some request /\
    drop 24 request = drop 24 probe_answer /\ subspan request 12 8 = [10; 13; 13; 2; 10; 13; 13; 1]).
  { eexists. split; [vm_compute; reflexivity|]. split; vm_compute; reflexivity. }
  destruct E as (request & E & Ed & Ea). rewrite E in H. exists request. split; [exact E|].
  destruct H as (local & El & _ & _ & H12 & H16 & H).
  { unfold in_width. lia. }
  { unfold in_width. lia. }
  { intros local El. vm_compute in El. injection El as <-. split; [reflexivity|]. apply (bool_decide_unpack _); vm_compute; exact I. }
  vm_compute in El. injection El as <-. apply H.
  - apply (bool_decide_unpack _); vm_compute; exact I.
  - exists (take 20 probe_answer), (byte_at probe_answer 22), (byte_at probe_answer 23), []. rewrite H12, H16, Ed.
    split; [vm_compute; reflexivity|]. split; [|vm_compute; reflexivity].
    split; [exists 5%nat; split; [lia|split; vm_compute; reflexivity]|vm_compute; reflexivity..].
Defined.
Lemma probe_verdicts_witness :
  let ops := [Op_Queue probe_peer probe_interface DebugTriggerAction_PingTunnelPeer 10; Op_TakePending;
              Op_MarkSent (probe_request DebugTriggerAction_PingTunnelPeer) 20] in
  let h := @probe_history fixed_texts ops in
  dr_status (ph_runner h) = DebugProbeStatus_Sent /\
  exists source action address, ph_request h = Some (probe_peer, source, action) /\
    @ParseIpv4InterfaceAddress fixed_texts (c_string source) = Some address /\
    probe_reply address (oc_info (fst (@Probe_HandleDecryptedPacket fixed_texts probe_peer probe_answer 30 (ph_runner h)))) probe_answer.
Proof.
  split; [vm_compute; reflexivity|].
  destruct (@probe_verdicts fixed_texts [Op_Queue probe_peer probe_interface DebugTriggerAction_PingTunnelPeer 10; Op_TakePending;
    Op_MarkSent (probe_request DebugTriggerAction_PingTunnelPeer) 20] probe_peer probe_answer 30 _ _
    ltac:(repeat constructor) ltac:(apply (bool_decide_unpack _); vm_compute; exact I) (surjective_pairing _)) as (_ & _ & H).
  destruct H as (source & action & address & Hq & Ha & Hr & _); [vm_compute; reflexivity..|].
  exists source, action, address. split; [exact Hq|]. split; [exact Ha|exact Hr].
Defined.

(** A late reply to a probe that has timed out validates the probe that was sent after it
    in the same activation, even one with another target. *)
Example late_reply_validates :
  let h := @probe_history fixed_texts
    [Op_Queue probe_peer probe_interface DebugTriggerAction_PingTunnelPeer 10; Op_TakePending;
     Op_MarkSent (probe_request DebugTriggerAction_PingTunnelPeer) 20; Op_Timeout 5000;
     Op_Queue probe_peer probe_interface DebugTriggerAction_PingPublicDns 6000; Op_TakePending;
     Op_MarkSent (probe_request DebugTriggerAction_PingPublicDns) 6010; Op_Packet probe_peer probe_answer 6020] in
  dr_status (ph_runner h) = DebugProbeStatus_ReplyValidated /\ dr_action (ph_runner h) = DebugTriggerAction_PingPublicDns.
Proof. by vm_compute. Qed.
