(* ===== verification/Resolver.v ===== *)
(** * Resolving endpoints

    Models [runtime/endpoint_resolver.cpp] with its accounting
    ([resource_observability.hpp]), the branch of [RuntimeEffectExecutor::Execute] that
    queues a request, [HorizonDispatcher::QueueResolve] and the worker
    [RuntimeEffectExecutor::RunEndpointResolver], on the work queue of WorkQueue.v.  A step
    is a section under the state lock, the call of the dispatcher that follows it, or a
    section of the worker.  What a request resolves to is left out here; Endpoint.v models
    it. *)

From S2P Require Import Prelude Endian Messages PacketQueue Platform Session Base64 InnerPacket Timers.
From S2P Require Import Crypto Device Data Identity Admission Handshake Peer PeerController RuntimeEvents WorkQueue.
Local Open Scope Z_scope.

(** ** One pending slot *)

Record PendingSlotStatistics := mk_slot_statistics {
  ps_depth : Z;
  ps_high_watermark : Z;
  ps_admitted : Z;
  ps_taken : Z;
  ps_replaced : Z;
  ps_coalesced : Z;
  ps_cancelled : Z
}.
#[export] Instance eta_slot_statistics : Eta PendingSlotStatistics := fun r =>
  mk_slot_statistics (ps_depth r) (ps_high_watermark r) (ps_admitted r) (ps_taken r) (ps_replaced r) (ps_coalesced r) (ps_cancelled r).
Definition slot_statistics_init : PendingSlotStatistics := mk_slot_statistics 0 0 0 0 0 0 0.
Definition RecordAdmission (replaced : bool) (s : PendingSlotStatistics) : PendingSlotStatistics :=
  let s := s <| ps_admitted ::= increment |> in
  let s := if replaced then s <| ps_replaced ::= increment |> else s in
  (s <| ps_depth := 1 |>) <| ps_high_watermark := 1 |>.
Definition RecordTake (s : PendingSlotStatistics) : PendingSlotStatistics :=
  (s <| ps_taken ::= increment |>) <| ps_depth := 0 |>.
Definition RecordCoalesced (s : PendingSlotStatistics) : PendingSlotStatistics := s <| ps_coalesced ::= increment |>.
Definition RecordCancellation (s : PendingSlotStatistics) : PendingSlotStatistics :=
  (s <| ps_cancelled ::= increment |>) <| ps_depth := 0 |>.

Inductive EndpointQueueResult := EndpointQueue_Scheduled | EndpointQueue_Coalesced | EndpointQueue_Replaced.
#[export] Instance endpoint_queue_result_eq_dec : EqDecision EndpointQueueResult.
Proof. solve_decision. Defined.
Record EndpointResolver := mk_resolver {
  er_pending : option ResolveEndpointEffect;
  er_accounting : PendingSlotStatistics;
  er_worker_scheduled : bool
}.
#[export] Instance eta_resolver : Eta EndpointResolver := fun r => mk_resolver (er_pending r) (er_accounting r) (er_worker_scheduled r).
Definition resolver_init : EndpointResolver := mk_resolver None slot_statistics_init false.

Definition is_pending (r : EndpointResolver) : bool := match er_pending r with Some _ => true | None => false end.
Definition Resolver_Queue (request : ResolveEndpointEffect) (r : EndpointResolver) : EndpointQueueResult * EndpointResolver :=
  let replaced := is_pending r in
  let should_schedule := negb (er_worker_scheduled r) in
  let r := mk_resolver (Some request) (RecordAdmission replaced (er_accounting r)) true in
  let r := if should_schedule then r else r <| er_accounting ::= RecordCoalesced |> in
  (if should_schedule then EndpointQueue_Scheduled else if replaced then EndpointQueue_Replaced else EndpointQueue_Coalesced, r).
Definition Resolver_MarkWorkerIdle (r : EndpointResolver) : EndpointResolver := r <| er_worker_scheduled := false |>.
Definition Resolver_Take (r : EndpointResolver) : option ResolveEndpointEffect * EndpointResolver :=
  match er_pending r with
  | Some request => (Some request, (r <| er_pending := None |>) <| er_accounting ::= RecordTake |>)
  | None => (None, r)
  end.
Definition Resolver_Cancel (peer : PeerIdentity) (r : EndpointResolver) : EndpointResolver :=
  match er_pending r with
  | Some request => if bool_decide (fe_peer request = peer) then (r <| er_pending := None |>) <| er_accounting ::= RecordCancellation |> else r
  | None => r
  end.

(** ** The threads *)

Definition resolve_work : nat := 0.
Definition ResolveWorkSlots : nat := 1.
(** Where the worker is: outside the function, before it takes a request, with a request,
    or past [MarkWorkerIdle]. *)
Inductive ResolverWorker := Rw_Idle | Rw_Taking | Rw_Resolving (request : ResolveEndpointEffect) | Rw_Returning.
Record Resolution := mk_resolution_state {
  rn_resolver : EndpointResolver;
  rn_queue : workqueue_struct;
  rn_calls : nat;
  rn_worker : ResolverWorker;
  rn_resolved : list ResolveEndpointEffect
}.
#[export] Instance eta_resolution : Eta Resolution := fun r =>
  mk_resolution_state (rn_resolver r) (rn_queue r) (rn_calls r) (rn_worker r) (rn_resolved r).
Definition resolution_init : Resolution :=
  mk_resolution_state resolver_init (workqueue_init 0 ResolveWorkSlots) 0 Rw_Idle [].

(** The section of [Execute] for a current request; [rn_calls] counts the calls of
    [QueueResolve] that are still to follow. *)
Definition request_resolution (request : ResolveEndpointEffect) (s : Resolution) : Resolution :=
  let '(result, resolver) := Resolver_Queue request (rn_resolver s) in
  let s := s <| rn_resolver := resolver |> in
  if bool_decide (result = EndpointQueue_Scheduled) then s <| rn_calls ::= S |> else s.
Definition QueueResolve (s : Resolution) : option Resolution :=
  match rn_calls s with
  | O => None
  | S calls => Some ((s <| rn_calls := calls |>) <| rn_queue ::= fun wq => snd (queue_work resolve_work wq) |>)
  end.
Definition RunEndpointResolver (s : Resolution) : option Resolution :=
  match rn_worker s with
  | Rw_Idle =>
      wq ← WorkqueueThreadMain (rn_queue s);
      Some ((s <| rn_queue := wq |>) <| rn_worker := if bool_decide (wq_thread wq = Worker_Ended) then Rw_Idle else Rw_Taking |>)
  | Rw_Taking =>
      let '(request, resolver) := Resolver_Take (rn_resolver s) in
      Some (match request with
            | None => (s <| rn_resolver := Resolver_MarkWorkerIdle resolver |>) <| rn_worker := Rw_Returning |>
            | Some request => (s <| rn_resolver := resolver |>) <| rn_worker := Rw_Resolving request |>
            end)
  | Rw_Resolving request => Some ((s <| rn_resolved ::= fun all => all ++ [request] |>) <| rn_worker := Rw_Taking |>)
  | Rw_Returning =>
      wq ← WorkqueueThreadMain (rn_queue s);
      Some ((s <| rn_queue := wq |>) <| rn_worker := Rw_Idle |>)
  end.

Inductive ResolutionStep :=
  | Rs_Request (request : ResolveEndpointEffect)
  | Rs_Cancel (peer : PeerIdentity)
  | Rs_QueueResolve
  | Rs_Worker.
(** [None] where the thread cannot go on. *)
Definition resolution_step (step : ResolutionStep) (s : Resolution) : option Resolution :=
  match step with
  | Rs_Request request => Some (request_resolution request s)
  | Rs_Cancel peer => Some (s <| rn_resolver ::= Resolver_Cancel peer |>)
  | Rs_QueueResolve => QueueResolve s
  | Rs_Worker => RunEndpointResolver s
  end.
Definition resolution_run (steps : list ResolutionStep) (s : Resolution) : Resolution :=
  foldl (fun s step => default s (resolution_step step s)) s steps.
(** The number of steps that go on. *)
Fixpoint resolution_progress (steps : list ResolutionStep) (s : Resolution) : nat :=
  match steps with
  | [] => 0
  | step :: steps =>
      match resolution_step step s with
      | Some s => S (resolution_progress steps s)
      | None => resolution_progress steps s
      end
  end.
Definition quiescent (s : Resolution) : Prop := QueueResolve s = None /\ RunEndpointResolver s = None.

(** ** The queue with one work *)

(** The work is on the list, to run again, and running. *)
Record resolve_queue (listed rerun running : bool) (wq : workqueue_struct) : Prop := {
  rq_list : wq_list wq = if listed then [resolve_work] else [];
  rq_thread : wq_thread wq = if running then Worker_Running resolve_work else Worker_Waiting;
  rq_stopping : wq_stopping wq = false;
  rq_capacity : wq_pending_capacity wq = ResolveWorkSlots;
  rq_pending : wq_pending_count wq = ((if listed then 1 else 0) + (if rerun then 1 else 0))%nat;
  rq_work : wk_queued (work_at resolve_work wq) = listed /\ wk_running (work_at resolve_work wq) = running /\
            wk_rerun (work_at resolve_work wq) = rerun /\
            (wk_owner (work_at resolve_work wq) = None \/ wk_owner (work_at resolve_work wq) = Some (wq_id wq))
}.
Lemma resolve_queue_init : resolve_queue false false false (workqueue_init 0 ResolveWorkSlots).
Proof. split; try done. split_and!; try done. by left. Qed.
Lemma resolve_queue_work running wq : resolve_queue false false running wq ->
  fst (queue_work resolve_work wq) = (if running then queue_work_rerun_queued else queue_work_queued) /\
  resolve_queue (negb running) running running (snd (queue_work resolve_work wq)).
Proof.
  intros [Hl Ht Hs Hc Hp (Hq & Hr & Hre & Ho)].
  assert (fst (queue_work resolve_work wq) = if running then queue_work_rerun_queued else queue_work_queued) as E.
  { unfold queue_work. cbn [fst]. change (wq_stopping (record_request wq)) with (wq_stopping wq).
    change (wq_pending_count (record_request wq)) with (wq_pending_count wq). change (wq_id (record_request wq)) with (wq_id wq).
    change (wq_pending_capacity (record_request wq)) with (wq_pending_capacity wq). rewrite Hq, Hr, Hre, Hs, Hp, Hc.
    replace (negb false && _) with true by (destruct Ho as [-> | ->]; cbn; by rewrite ?bool_decide_true by done).
    by destruct running. }
  split; [done|]. unfold queue_work in *. cbn [fst snd] in *. rewrite E.
  destruct wq as [id l pc cap ac st sp th ws]. unfold work_at in *. cbn in *. unfold resolve_work in *.
  destruct running; subst; split; cbn; try done; unfold work_at; cbn; rewrite decide_True by done; cbn; split_and!; by auto.
Qed.
Lemma resolve_queue_take wq : resolve_queue true false false wq ->
  exists wq', WorkqueueThreadMain wq = Some wq' /\ resolve_queue false false true wq'.
Proof.
  intros [Hl Ht Hs Hc Hp (Hq & Hr & Hre & Ho)]. destruct wq as [id l pc cap ac st sp th ws].
  unfold work_at in *. cbn in *. subst. unfold resolve_work in *. eexists. split; [done|].
  split; cbn; try done; unfold work_at; cbn; rewrite decide_True by done; by split_and!.
Qed.
Lemma resolve_queue_finish rerun wq : resolve_queue false rerun true wq ->
  exists wq', WorkqueueThreadMain wq = Some wq' /\ resolve_queue rerun false false wq'.
Proof.
  intros [Hl Ht Hs Hc Hp (Hq & Hr & Hre & Ho)]. destruct wq as [id l pc cap ac st sp th ws].
  unfold work_at in *. cbn in *. subst. unfold resolve_work in *. unfold WorkqueueThreadMain. cbn [wq_thread]. eexists. split; [done|].
  unfold finish_work. cbv zeta. rewrite end_run_rerun. unfold work_at. cbn [wq_works wq_stopping end_run].
  destruct (wk_rerun (ws 0%nat)) eqn:Ew; cbn [andb negb]; split; cbn; try done; unfold work_at; cbn; rewrite !decide_True by done; cbn;
    split_and!; by auto.
Qed.
Lemma resolve_queue_waits rerun wq : resolve_queue false rerun false wq -> WorkqueueThreadMain wq = None.
Proof.
  intros [Hl Ht Hs _ _ _]. unfold WorkqueueThreadMain, DequeueWorkLocked. by rewrite Ht, Hl, Hs.
Qed.

(** ** The invariant *)

Definition in_function (worker : ResolverWorker) : bool := match worker with Rw_Idle => false | _ => true end.
Definition in_loop (worker : ResolverWorker) : bool := match worker with Rw_Taking | Rw_Resolving _ => true | _ => false end.
Definition count (b : bool) : nat := if b then 1 else 0.

(** A scheduled worker is exactly one of: a call of [QueueResolve] to come, the work on
    the queue, the work to run again, or the worker in its loop. *)
Record resolution_ok (s : Resolution) : Prop := {
  ro_queue : exists listed rerun, resolve_queue listed rerun (in_function (rn_worker s)) (rn_queue s) /\
    (rn_calls s + count listed + count rerun + count (in_loop (rn_worker s)) = count (er_worker_scheduled (rn_resolver s)))%nat /\
    (rerun = true -> rn_worker s = Rw_Returning) /\ (listed = true -> rn_worker s = Rw_Idle);
  ro_pending : is_pending (rn_resolver s) = true -> er_worker_scheduled (rn_resolver s) = true
}.
(** How many more steps the threads can take. *)
Definition work_left (s : Resolution) : nat :=
  4 * rn_calls s + 3 * length (wq_list (rn_queue s)) + 3 * count (wk_rerun (work_at resolve_work (rn_queue s))) +
  2 * count (is_pending (rn_resolver s)) +
  match rn_worker s with Rw_Idle => 0 | Rw_Taking => 2 | Rw_Resolving _ => 3 | Rw_Returning => 1 end.
Lemma work_left_eq s listed rerun : resolve_queue listed rerun (in_function (rn_worker s)) (rn_queue s) ->
  work_left s = (4 * rn_calls s + 3 * count listed + 3 * count rerun + 2 * count (is_pending (rn_resolver s)) +
    match rn_worker s with Rw_Idle => 0 | Rw_Taking => 2 | Rw_Resolving _ => 3 | Rw_Returning => 1 end)%nat.
Proof. intros [Hl _ _ _ _ (_ & _ & Hre & _)]. unfold work_left. rewrite Hl, Hre. by destruct listed. Qed.

Lemma resolution_init_ok : resolution_ok resolution_init.
Proof. split; [|done]. exists false, false. split; [exact resolve_queue_init|]. by split_and!. Qed.

Lemma request_ok request s : resolution_ok s ->
  resolution_ok (request_resolution request s) /\ er_pending (rn_resolver (request_resolution request s)) = Some request.
Proof.
  intros [(listed & rerun & Hq & Ht & Hre & Hli) Hp]. unfold request_resolution, Resolver_Queue.
  destruct (er_worker_scheduled (rn_resolver s)) eqn:Es; cbn [negb].
  - rewrite bool_decide_false by by destruct (is_pending (rn_resolver s)). split; [|done]. split; [|done]. by exists listed, rerun.
  - rewrite bool_decide_true by done. split; [|done]. split; [|done]. exists listed, rerun. cbn [rn_queue rn_worker rn_calls count] in *.
    split; [done|]. split; [cbn; lia|done].
Qed.
Lemma cancel_ok peer s : resolution_ok s -> resolution_ok (s <| rn_resolver ::= Resolver_Cancel peer |>).
Proof.
  intros [Hq Hp]. assert (er_worker_scheduled (Resolver_Cancel peer (rn_resolver s)) = er_worker_scheduled (rn_resolver s) /\
    (is_pending (Resolver_Cancel peer (rn_resolver s)) = true -> is_pending (rn_resolver s) = true)) as [Es Ep].
  { unfold Resolver_Cancel, is_pending. destruct (er_pending (rn_resolver s)) eqn:E; [case_bool_decide|]; cbn; by rewrite ?E. }
  split.
  - change (rn_resolver (s <| rn_resolver ::= Resolver_Cancel peer |>)) with (Resolver_Cancel peer (rn_resolver s)). by rewrite Es.
  - change (rn_resolver (s <| rn_resolver ::= Resolver_Cancel peer |>)) with (Resolver_Cancel peer (rn_resolver s)). rewrite Es. by auto.
Qed.
(** A step of the threads keeps the invariant, takes one off [work_left], and handles the
    requests in order. *)
Lemma thread_step_ok step s s' : resolution_ok s -> step = Rs_QueueResolve \/ step = Rs_Worker -> resolution_step step s = Some s' ->
  resolution_ok s' /\ (work_left s' < work_left s)%nat.
Proof.
  intros [(listed & rerun & Hq & Ht & Hre & Hli) Hp] Hstep E. pose proof (work_left_eq s _ _ Hq) as Hw.
  destruct Hstep as [-> | ->]; cbn [resolution_step] in E.
  - unfold QueueResolve in E. destruct (rn_calls s) as [|calls] eqn:Ec; [done|]. injection E as <-.
    assert (listed = false /\ rerun = false /\ in_loop (rn_worker s) = false /\ calls = 0%nat) as (-> & -> & El & ->).
    { destruct listed, rerun, (in_loop (rn_worker s)), (er_worker_scheduled (rn_resolver s)); cbn in Ht; split_and!; done || lia. }
    destruct (resolve_queue_work _ _ Hq) as [_ Hq']. rewrite El in Ht.
    match goal with |- resolution_ok ?s' /\ _ => set (s1 := s') end.
    assert (rn_worker s1 = rn_worker s /\ rn_calls s1 = 0%nat /\ rn_resolver s1 = rn_resolver s) as (Ew & Ec1 & Er) by done.
    assert (resolve_queue (negb (in_function (rn_worker s1))) (in_function (rn_worker s1)) (in_function (rn_worker s1)) (rn_queue s1))
      as Hq1 by by rewrite Ew.
    split; [split|].
    + eexists _, _. split; [exact Hq1|]. rewrite Ew, Ec1, Er. split; [|by destruct (rn_worker s)].
      rewrite El. destruct (rn_worker s); cbn in *; done || lia.
    + by rewrite Er.
    + rewrite (work_left_eq s1 _ _ Hq1), Hw, Ew, Ec1, Er. destruct (rn_worker s); cbn in *; done || lia.
  - unfold RunEndpointResolver in E. destruct (rn_worker s) as [| |request|] eqn:Ew; cbn [in_function in_loop] in *.
    + destruct listed; [|by rewrite (resolve_queue_waits _ _ Hq) in E].
      assert (rerun = false) as -> by (destruct rerun; [by specialize (Hre eq_refl)|done]).
      destruct (resolve_queue_take _ Hq) as (wq & Et & Hq'). rewrite Et in E. cbn [mbind option_bind] in E. injection E as <-.
      rewrite (rq_thread _ _ _ _ Hq'), bool_decide_false by done.
      match goal with |- resolution_ok ?s' /\ _ => set (s1 := s') end.
      split; [split; [exists false, false; split_and!; done || (cbn in *; lia)|done]|]. rewrite (work_left_eq s1 false false Hq'), Hw. cbn. lia.
    + assert (listed = false /\ rerun = false) as [-> ->] by (destruct listed, rerun; naive_solver).
      unfold Resolver_Take in E. destruct (er_pending (rn_resolver s)) as [request|] eqn:Ep; injection E as <-;
        match goal with |- resolution_ok ?s' /\ _ => set (s1 := s') end.
      * split; [split; [exists false, false; by split_and!|done]|]. rewrite (work_left_eq s1 false false Hq), Hw. unfold is_pending. cbn. rewrite Ep. cbn. lia.
      * split; [split; [exists false, false; split_and!; try done|]|].
        -- cbn in *. destruct (er_worker_scheduled (rn_resolver s)); cbn in *; lia.
        -- unfold is_pending. cbn. by rewrite Ep.
        -- rewrite (work_left_eq s1 false false Hq), Hw. unfold is_pending. cbn. rewrite Ep. cbn. lia.
    + injection E as <-. match goal with |- resolution_ok ?s' /\ _ => set (s1 := s') end. assert (listed = false /\ rerun = false) as [-> ->] by (destruct listed, rerun; naive_solver).
      split; [split; [exists false, false; by split_and!|done]|]. rewrite (work_left_eq s1 false false Hq), Hw. cbn. lia.
    + assert (listed = false) as -> by (destruct listed; [by specialize (Hli eq_refl)|done]).
      destruct (resolve_queue_finish _ _ Hq) as (wq & Et & Hq'). rewrite Et in E. cbn [mbind option_bind] in E. injection E as <-.
      match goal with |- resolution_ok ?s' /\ _ => set (s1 := s') end.
      split; [split; [exists rerun, false; split_and!; try done; cbn in *; lia|done]|]. rewrite (work_left_eq s1 rerun false Hq'), Hw. cbn. lia.
Qed.

Lemma progress_bound steps : forall s, resolution_ok s -> Forall (fun step => step = Rs_QueueResolve \/ step = Rs_Worker) steps ->
  (resolution_progress steps s + work_left (resolution_run steps s) <= work_left s)%nat /\ resolution_ok (resolution_run steps s).
Proof.
  induction steps as [|step steps IH]; intros s Hok Hsteps; [done|]. apply Forall_cons in Hsteps as [Hstep Hsteps].
  cbn [resolution_progress]. change (resolution_run (step :: steps) s) with (resolution_run steps (default s (resolution_step step s))).
  destruct (resolution_step step s) as [s'|] eqn:E; cbn [default from_option id]; [|by apply IH].
  destruct (thread_step_ok step s s' Hok Hstep E) as [Hok' Hless]. destruct (IH s' Hok' Hsteps) as [Hp Hend]. split; [lia|done].
Qed.
Lemma work_left_bound s : resolution_ok s -> (work_left s <= 7)%nat.
Proof.
  intros [(listed & rerun & Hq & Ht & Hre & Hli) Hp]. rewrite (work_left_eq s _ _ Hq).
  assert (count (er_worker_scheduled (rn_resolver s)) <= 1)%nat by by destruct (er_worker_scheduled (rn_resolver s)); cbn; lia.
  destruct (is_pending (rn_resolver s)), listed, rerun, (rn_worker s); cbn [count in_loop] in *; lia.
Qed.
Lemma resolution_step_ok step s s' : resolution_ok s -> resolution_step step s = Some s' -> resolution_ok s'.
Proof.
  intros Hok E. destruct step as [request|peer| |]; [injection E as <-; by apply request_ok|injection E as <-; by apply cancel_ok|..].
  - apply (thread_step_ok _ _ _ Hok (or_introl eq_refl) E).
  - apply (thread_step_ok _ _ _ Hok (or_intror eq_refl) E).
Qed.
Lemma resolution_run_ok steps s : resolution_ok s -> resolution_ok (resolution_run steps s).
Proof.
  revert s. induction steps as [|step steps IH]; intros s Hok; [done|]. apply IH. cbn. destruct (resolution_step step s) eqn:E; [|done].
  by eapply resolution_step_ok.
Qed.

(** What the worker has, and what it has resolved or will resolve if nothing else is
    asked for. *)
Definition resolving (s : Resolution) : list ResolveEndpointEffect := match rn_worker s with Rw_Resolving request => [request] | _ => [] end.
Definition coming (s : Resolution) : list ResolveEndpointEffect :=
  rn_resolved s ++ resolving s ++ match er_pending (rn_resolver s) with Some request => [request] | None => [] end.
Lemma coming_kept step s s' : step = Rs_QueueResolve \/ step = Rs_Worker -> resolution_step step s = Some s' -> coming s' = coming s.
Proof.
  intros [-> | ->] E; cbn [resolution_step] in E.
  - unfold QueueResolve in E. by destruct (rn_calls s); [|injection E as <-].
  - unfold RunEndpointResolver in E. unfold coming, resolving. destruct (rn_worker s) as [| |request|] eqn:Ew.
    + destruct (WorkqueueThreadMain _) as [wq|]; [|done]. cbn [mbind option_bind] in E. injection E as <-. cbn. by case_bool_decide.
    + unfold Resolver_Take in E. by destruct (er_pending (rn_resolver s)) eqn:Ep; injection E as <-; cbn; rewrite ?Ep.
    + injection E as <-. cbn. by rewrite <- app_assoc.
    + destruct (WorkqueueThreadMain _) as [wq|]; [|done]. cbn [mbind option_bind] in E. by injection E as <-.
Qed.
Lemma coming_run steps : forall s, Forall (fun step => step = Rs_QueueResolve \/ step = Rs_Worker) steps ->
  coming (resolution_run steps s) = coming s.
Proof.
  induction steps as [|step steps IH]; intros s Hsteps; [done|]. apply Forall_cons in Hsteps as [Hstep Hsteps].
  change (resolution_run (step :: steps) s) with (resolution_run steps (default s (resolution_step step s))). rewrite IH by done.
  destruct (resolution_step step s) as [s'|] eqn:E; [|done]. by eapply coming_kept.
Qed.
Lemma quiescent_resolved s : resolution_ok s -> quiescent s -> coming s = rn_resolved s /\ er_pending (rn_resolver s) = None.
Proof.
  intros [(listed & rerun & Hq & Ht & Hre & Hli) Hp] [Hc Hw].
  assert (rn_calls s = 0%nat) as Ec by (unfold QueueResolve in Hc; by destruct (rn_calls s)).
  assert (rn_worker s = Rw_Idle /\ listed = false) as [Ew ->].
  { unfold RunEndpointResolver in Hw. destruct (rn_worker s); cbn [in_function] in *.
    - destruct listed; [|done]. destruct rerun; [by specialize (Hre eq_refl)|]. destruct (resolve_queue_take _ Hq) as (wq & E & _). by rewrite E in Hw.
    - by destruct (Resolver_Take _).
    - done.
    - destruct listed; [by specialize (Hli eq_refl)|]. destruct (resolve_queue_finish _ _ Hq) as (wq & E & _). by rewrite E in Hw. }
  rewrite Ew, Ec in *. destruct rerun; [by specialize (Hre eq_refl)|]. cbn in Ht.
  destruct (er_worker_scheduled (rn_resolver s)); [done|]. unfold coming, resolving. rewrite Ew.
  unfold is_pending in Hp. destruct (er_pending (rn_resolver s)); [by specialize (Hp eq_refl)|]. by rewrite app_nil_r.
Qed.

(** The slot's counters: what was admitted was taken, replaced or cancelled, or is there. *)
Definition slot_balanced (r : EndpointResolver) : Prop :=
  ps_depth (er_accounting r) = Z.of_nat (count (is_pending r)) /\
  cong 64 (ps_admitted (er_accounting r))
    (ps_taken (er_accounting r) + ps_replaced (er_accounting r) + ps_cancelled (er_accounting r) + ps_depth (er_accounting r)).
Lemma cong_eq w a b : a = b -> cong w a b.
Proof. by intros ->. Qed.
Lemma increment_cong n : cong 64 (increment n) (n + 1).
Proof. apply cong_wrap. Qed.
Ltac balance Hb := cbn -[increment Z.add Z.of_nat]; rewrite ?increment_cong, ?Hb; apply cong_eq; cbn -[Z.add]; lia.
Lemma queue_balanced request r : slot_balanced r -> slot_balanced (snd (Resolver_Queue request r)).
Proof.
  unfold slot_balanced, Resolver_Queue, is_pending. intros [Hd Hb]. rewrite Hd in Hb.
  destruct (er_pending r), (er_worker_scheduled r); (split; [done|]); balance Hb.
Qed.
Lemma take_balanced r : slot_balanced r -> slot_balanced (snd (Resolver_Take r)).
Proof.
  unfold slot_balanced, Resolver_Take, is_pending. intros [Hd Hb]. destruct (er_pending r) eqn:E; cbn [snd]; [|by rewrite E].
  rewrite Hd in Hb. split; [done|]. balance Hb.
Qed.
Lemma cancel_balanced peer r : slot_balanced r -> slot_balanced (Resolver_Cancel peer r).
Proof.
  unfold Resolver_Cancel. intros H. destruct (er_pending r) eqn:E; [|done]. case_bool_decide; [|done]. destruct H as [Hd Hb].
  unfold slot_balanced, is_pending in *. rewrite E in *. rewrite Hd in Hb. split; [done|]. balance Hb.
Qed.
Lemma slot_balanced_step step s s' : slot_balanced (rn_resolver s) -> resolution_step step s = Some s' -> slot_balanced (rn_resolver s').
Proof.
  intros Hok E. destruct step as [request|peer| |]; cbn [resolution_step] in E.
  - injection E as <-. unfold request_resolution. pose proof (queue_balanced request _ Hok) as Hq.
    destruct (Resolver_Queue request (rn_resolver s)) as [result r]. by case_bool_decide.
  - injection E as <-. by apply cancel_balanced.
  - unfold QueueResolve in E. by destruct (rn_calls s); [|injection E as <-].
  - unfold RunEndpointResolver in E. pose proof (take_balanced _ Hok) as Ht. destruct (rn_worker s).
    1,4: destruct (WorkqueueThreadMain _); cbn [mbind option_bind] in E; [by injection E as <-|done].
    + destruct (Resolver_Take (rn_resolver s)) as [ [request|] r]; injection E as <-; done.
    + by injection E as <-.
Qed.
Lemma slot_balanced_run steps s : slot_balanced (rn_resolver s) -> slot_balanced (rn_resolver (resolution_run steps s)).
Proof.
  revert s. induction steps as [|step steps IH]; intros s Hok; [done|]. apply IH. cbn. destruct (resolution_step step s) eqn:E; [|done].
  by eapply slot_balanced_step.
Qed.

(** The queue never rejects the work. *)
Definition rejections (wq : workqueue_struct) : Z * Z :=
  (ws_rejected_capacity (wq_statistics wq), ws_rejected_unavailable (wq_statistics wq)).
Lemma thread_rejections wq wq' : WorkqueueThreadMain wq = Some wq' -> rejections wq' = rejections wq.
Proof.
  unfold WorkqueueThreadMain. destruct (wq_thread wq) as [|work|]; [|intros [= <-]|done].
  - unfold DequeueWorkLocked. destruct (wq_list wq); [destruct (wq_stopping wq); [|done]|]; by intros [= <-].
  - unfold finish_work. cbv zeta. by destruct (_ && _).
Qed.
Lemma no_rejection_step step s s' : resolution_ok s -> resolution_step step s = Some s' ->
  rejections (rn_queue s') = rejections (rn_queue s).
Proof.
  intros [(listed & rerun & Hq & Ht & Hre & Hli) _] E. destruct step as [request|peer| |]; cbn [resolution_step] in E.
  - injection E as <-. unfold request_resolution. destruct (Resolver_Queue request (rn_resolver s)). by case_bool_decide.
  - by injection E as <-.
  - unfold QueueResolve in E. destruct (rn_calls s) as [|calls]; [done|]. injection E as <-.
    assert (listed = false /\ rerun = false) as [-> ->].
    { destruct listed, rerun, (in_loop (rn_worker s)), (er_worker_scheduled (rn_resolver s)); cbn in Ht; done || lia. }
    destruct (resolve_queue_work _ _ Hq) as [Hr _]. change (rejections (snd (queue_work resolve_work (rn_queue s))) = rejections (rn_queue s)).
    unfold queue_work in *. cbn [fst snd] in *. rewrite Hr. by destruct (in_function (rn_worker s)).
  - unfold RunEndpointResolver in E. destruct (rn_worker s).
    1,4: destruct (WorkqueueThreadMain _) as [wq|] eqn:Ew; cbn [mbind option_bind] in E; [|done]; injection E as <-;
      by apply thread_rejections.
    + by destruct (Resolver_Take (rn_resolver s)) as [ [request|] r]; injection E as <-.
    + by injection E as <-.
Qed.
Lemma no_rejection_run steps s : resolution_ok s -> rejections (rn_queue (resolution_run steps s)) = rejections (rn_queue s).
Proof.
  revert s. induction steps as [|step steps IH]; intros s Hok; [done|].
  change (resolution_run (step :: steps) s) with (resolution_run steps (default s (resolution_step step s))).
  destruct (resolution_step step s) as [s'|] eqn:E; cbn [default from_option id]; [|by apply IH].
  rewrite IH by by eapply resolution_step_ok. by eapply no_rejection_step.
Qed.

(** ** Properties *)

(** C31. No request is lost between the threads that ask and the worker.  After any steps,
    a request is made; if nothing else is asked for, the threads can take at most seven
    more steps, and where none can go on, the resolved requests are those from before,
    the one that was being resolved if there was one, and this one: an earlier request
    that was still waiting is replaced.  The counters of the slot account for every
    request that was admitted, and the worker's queue never rejects it. *)
Theorem requests_resolved earlier request later (s := resolution_run earlier resolution_init)
  (after := resolution_run later (request_resolution request s)) :
  Forall (fun step => step = Rs_QueueResolve \/ step = Rs_Worker) later ->
  (resolution_progress later (request_resolution request s) <= 7)%nat /\
  (quiescent after -> rn_resolved after = rn_resolved s ++ resolving s ++ [request] /\ er_pending (rn_resolver after) = None) /\
  slot_balanced (rn_resolver after) /\
  rejections (rn_queue after) = (0, 0).
Proof.
  intros Hlater. assert (resolution_ok s) as Hok by apply resolution_run_ok, resolution_init_ok.
  destruct (request_ok request s Hok) as [Hok1 Hp1]. destruct (progress_bound later _ Hok1 Hlater) as [Hprogress Hok2].
  pose proof (work_left_bound _ Hok1) as Hbound. split; [fold after in Hprogress; lia|]. split; [|split].
  - intros Hquiet. destruct (quiescent_resolved after Hok2 Hquiet) as [Hc Hn]. split; [|done]. rewrite <- Hc.
    unfold after. rewrite coming_run by done. unfold coming. rewrite Hp1. unfold resolving, request_resolution.
    destruct (Resolver_Queue request (rn_resolver s)) as [result r]. by case_bool_decide.
  - apply slot_balanced_run. change (request_resolution request s) with (default s (resolution_step (Rs_Request request) s)).
    apply (slot_balanced_run [Rs_Request request]). by apply slot_balanced_run.
  - unfold after. rewrite no_rejection_run by done. change (request_resolution request s) with (resolution_run [Rs_Request request] s).
    rewrite no_rejection_run by done. unfold s. by rewrite no_rejection_run by apply resolution_init_ok.
Qed.

(** A request while the first one is being resolved replaces the second one. *)
Definition example_request (generation : Z) : ResolveEndpointEffect :=
  mk_resolve_endpoint (mk_peer_identity 0 generation) generation (chars "vpn.example.org:51820").
Lemma requests_resolved_witness :
  let earlier := [Rs_Request (example_request 1); Rs_QueueResolve; Rs_Worker; Rs_Worker; Rs_Request (example_request 2)] in
  let s := resolution_run earlier resolution_init in
  let later := [Rs_Worker; Rs_Worker; Rs_Worker; Rs_Worker; Rs_Worker] in
  let after := resolution_run later (request_resolution (example_request 3) s) in
  quiescent after /\ rn_resolved after = [example_request 1; example_request 3].
Proof.
  assert (Hquiet : quiescent (resolution_run [Rs_Worker; Rs_Worker; Rs_Worker; Rs_Worker; Rs_Worker]
    (request_resolution (example_request 3) (resolution_run [Rs_Request (example_request 1); Rs_QueueResolve; Rs_Worker; Rs_Worker; Rs_Request (example_request 2)] resolution_init)))).
  { split; vm_compute; reflexivity. }
  split; [exact Hquiet|].
  destruct (requests_resolved [Rs_Request (example_request 1); Rs_QueueResolve; Rs_Worker; Rs_Worker; Rs_Request (example_request 2)]
    (example_request 3) [Rs_Worker; Rs_Worker; Rs_Worker; Rs_Worker; Rs_Worker]) as (_ & H & _).
  { repeat constructor; right; reflexivity. }
  destruct (H Hquiet) as [E _]. rewrite E. vm_compute. reflexivity.
Defined.
