(* ===== verification/TimerList.v ===== *)
(** * The timers of the platform

    Models the timers of [platform/horizon/work.cpp]: the list of armed timers in the
    order of their expiry, the operations on it, and the sections of the timer thread.
    The list is global; a timer is named by a number instead of its address.  The thread
    is never stopped, so the tests of [stopping] are left out; it waits with a time limit
    while the first timer is not due, which is when [TimerThreadMain] is [None]. *)

From Stdlib Require Import Sorted.
From S2P Require Import Prelude.
Local Open Scope Z_scope.

(** ** The list *)

Record TimerInternal := mk_timer { ti_expires : Z; ti_armed : bool; ti_running : bool }.
#[export] Instance eta_timer_internal : Eta TimerInternal := fun r => mk_timer (ti_expires r) (ti_armed r) (ti_running r).
Definition timer_setup : TimerInternal := mk_timer 0 false false.

Inductive TimerThread := TimerThread_Waiting | TimerThread_Running (timer : nat).
Record TimerManager := mk_timer_manager {
  tm_list : list nat;
  tm_started : bool;
  tm_thread : TimerThread;
  tm_timers : nat -> TimerInternal
}.
#[export] Instance eta_timer_manager : Eta TimerManager := fun r =>
  mk_timer_manager (tm_list r) (tm_started r) (tm_thread r) (tm_timers r).
Definition timer_manager_init : TimerManager := mk_timer_manager [] false TimerThread_Waiting (fun _ => timer_setup).

Definition timer_at (timer : nat) (m : TimerManager) : TimerInternal := tm_timers m timer.
Definition on_timer (timer : nat) (f : TimerInternal -> TimerInternal) (m : TimerManager) : TimerManager :=
  m <| tm_timers ::= fun timers other => if decide (other = timer) then f (timers other) else timers other |>.

Fixpoint RemoveTimerLocked (timer : nat) (timers : list nat) : list nat :=
  match timers with
  | [] => []
  | current :: rest => if decide (current = timer) then rest else current :: RemoveTimerLocked timer rest
  end.
Fixpoint InsertTimerLocked (expires : nat -> Z) (timer : nat) (timers : list nat) : list nat :=
  match timers with
  | [] => [timer]
  | current :: rest =>
      if expires current <=? expires timer then current :: InsertTimerLocked expires timer rest else timer :: timers
  end.
Definition expires_of (m : TimerManager) (timer : nat) : Z := ti_expires (timer_at timer m).

Definition EnsureTimerManagerStarted (m : TimerManager) : TimerManager := m <| tm_started := true |>.
Definition mod_timer (timer : nat) (expires : Z) (m : TimerManager) : bool * TimerManager :=
  let m := EnsureTimerManagerStarted m in
  let was_pending := ti_armed (timer_at timer m) in
  let m := if was_pending then m <| tm_list ::= RemoveTimerLocked timer |> else m in
  let m := on_timer timer (fun t => (t <| ti_expires := expires |>) <| ti_armed := true |>) m in
  (was_pending, m <| tm_list ::= InsertTimerLocked (expires_of m) timer |>).
Definition timer_pending (timer : nat) (m : TimerManager) : bool := ti_armed (timer_at timer m).
Definition timer_delete (timer : nat) (m : TimerManager) : TimerManager :=
  if ti_armed (timer_at timer m)
  then on_timer timer (fun t => t <| ti_armed := false |>) (m <| tm_list ::= RemoveTimerLocked timer |>)
  else m.
(** Whether the call returns at once; if not, it waits until [timer_stopped]. *)
Definition timer_delete_sync (timer : nat) (m : TimerManager) : bool * TimerManager :=
  let m := timer_delete timer m in (negb (ti_running (timer_at timer m)), m).
Definition timer_stopped (timer : nat) (m : TimerManager) : bool := negb (ti_running (timer_at timer m)).

(** The sections of [TimerThreadMain] before and after the timer's function. *)
Definition TimerThreadMain (now : Z) (m : TimerManager) : option (nat * TimerManager) :=
  match tm_list m with
  | [] => None
  | timer :: rest =>
      if negb (tm_started m) || (now <? expires_of m timer) then None
      else
        let m := m <| tm_list := rest |> in
        let m := on_timer timer (fun t => (t <| ti_armed := false |>) <| ti_running := true |>) m in
        Some (timer, m <| tm_thread := TimerThread_Running timer |>)
  end.
Definition finish_timer (timer : nat) (m : TimerManager) : TimerManager :=
  (on_timer timer (fun t => t <| ti_running := false |>) m) <| tm_thread := TimerThread_Waiting |>.

(** ** The invariant: the list holds the armed timers, once each, in the order of expiry *)

Record timers_ok (m : TimerManager) : Prop := {
  to_nodup : NoDup (tm_list m);
  to_armed timer : ti_armed (timer_at timer m) = true <-> timer ∈ tm_list m;
  to_running timer : ti_running (timer_at timer m) = true <-> tm_thread m = TimerThread_Running timer;
  to_sorted : StronglySorted (fun a b => expires_of m a <= expires_of m b) (tm_list m);
  to_started : tm_started m = false -> tm_list m = []
}.

Lemma timer_at_on_timer timer f m other :
  timer_at other (on_timer timer f m) = if decide (other = timer) then f (timer_at timer m) else timer_at other m.
Proof. unfold timer_at, on_timer. cbn. by case_decide; subst. Qed.

Lemma elem_of_remove timer timers other : NoDup timers -> other ∈ RemoveTimerLocked timer timers <-> other ∈ timers /\ other <> timer.
Proof.
  induction timers as [|x l IH]; cbn; [set_solver|]. intros [Hx Hl]%NoDup_cons. specialize (IH Hl). case_decide; set_solver.
Qed.
Lemma remove_nodup timer timers : NoDup timers -> NoDup (RemoveTimerLocked timer timers).
Proof.
  induction timers as [|x l IH]; cbn; [done|]. intros [Hx Hl]%NoDup_cons. case_decide; [done|]. constructor; [|by apply IH].
  rewrite elem_of_remove by done. by intros [? _].
Qed.
Lemma remove_absent timer timers : timer ∉ timers -> RemoveTimerLocked timer timers = timers.
Proof. induction timers as [|x l IH]; cbn; [done|]. intros Hn. case_decide; [set_solver|]. f_equal. set_solver. Qed.
Lemma remove_length timer timers : timer ∈ timers -> length timers = S (length (RemoveTimerLocked timer timers)).
Proof. induction timers as [|x l IH]; cbn; [set_solver|]. intros Hin. case_decide; [done|]. cbn. f_equal. apply IH. set_solver. Qed.
Lemma elem_of_insert expires timer timers other : other ∈ InsertTimerLocked expires timer timers <-> other = timer \/ other ∈ timers.
Proof. induction timers as [|x l IH]; cbn; [set_solver|]. case_if; rewrite ?elem_of_cons, ?IH, ?elem_of_cons; tauto. Qed.
Lemma insert_length expires timer timers : length (InsertTimerLocked expires timer timers) = S (length timers).
Proof. induction timers as [|x l IH]; cbn; [done|]. case_if; cbn; by rewrite ?IH. Qed.
Lemma insert_nodup expires timer timers : timer ∉ timers -> NoDup timers -> NoDup (InsertTimerLocked expires timer timers).
Proof.
  induction timers as [|x l IH]; cbn; intros Hn Hl; [by apply NoDup_singleton|]. apply NoDup_cons in Hl as [Hx Hl]. case_if.
  - constructor; [|apply IH; set_solver]. rewrite elem_of_insert. set_solver.
  - constructor; [done|]. by constructor.
Qed.

Section Sorted.
Context (expires : nat -> Z).
Let before a b := expires a <= expires b.

Lemma remove_sorted timer timers : StronglySorted before timers -> StronglySorted before (RemoveTimerLocked timer timers).
Proof.
  induction timers as [|x l IH]; cbn; intros Hs; [done|]. apply StronglySorted_inv in Hs as [Hl Hx]. case_decide; [done|].
  constructor; [by apply IH|]. rewrite Forall_forall in *. intros y Hy. apply Hx. clear -Hy.
  induction l as [|z l IH]; cbn in *; [done|]. case_decide; set_solver.
Qed.
Lemma insert_sorted timer timers : StronglySorted before timers -> StronglySorted before (InsertTimerLocked expires timer timers).
Proof.
  induction timers as [|x l IH]; cbn; intros Hs; [by repeat constructor|]. pose proof Hs as [Hl Hx]%StronglySorted_inv.
  destruct (Z.leb_spec (expires x) (expires timer)).
  - constructor; [by apply IH|]. rewrite Forall_forall in *. intros y [->|Hy]%elem_of_insert; [done|by apply Hx].
  - constructor; [done|]. constructor; unfold before in *; [lia|]. eapply Forall_impl; [exact Hx|]. cbn. lia.
Qed.
End Sorted.
(** The order depends on the expiry of the members alone. *)
Lemma sorted_ext (f g : nat -> Z) timers : (forall x, x ∈ timers -> f x = g x) ->
  StronglySorted (fun a b => f a <= f b) timers -> StronglySorted (fun a b => g a <= g b) timers.
Proof.
  induction timers as [|x l IH]; intros Heq Hs; [constructor|]. apply StronglySorted_inv in Hs as [Hl Hx].
  constructor; [apply IH; [set_solver|done]|]. rewrite Forall_forall in *. intros y Hy.
  rewrite <- !Heq by set_solver. by apply Hx.
Qed.

Lemma timer_manager_init_ok : timers_ok timer_manager_init.
Proof. split; cbn; try done; try constructor; by try intros ?%elem_of_nil. Qed.

Lemma timer_delete_frame timer m : timers_ok m ->
  tm_list (timer_delete timer m) = RemoveTimerLocked timer (tm_list m) /\ tm_thread (timer_delete timer m) = tm_thread m /\
  (forall other, expires_of (timer_delete timer m) other = expires_of m other).
Proof.
  intros Hok. unfold timer_delete. destruct (ti_armed (timer_at timer m)) eqn:E.
  - split; [done|]. split; [done|]. intros other. unfold expires_of. rewrite timer_at_on_timer. case_decide; [by subst|done].
  - rewrite remove_absent; [done|]. intros Hin. apply (to_armed m Hok) in Hin. congruence.
Qed.
Lemma timer_delete_ok timer m : timers_ok m -> timers_ok (timer_delete timer m).
Proof.
  intros Hok. destruct (timer_delete_frame timer m Hok) as (El & Et & Ee). pose proof Hok as [H1 H2 H3 H4 H5]. split.
  - rewrite El. by apply remove_nodup.
  - intros other. rewrite El, elem_of_remove by done. unfold timer_delete. destruct (ti_armed (timer_at timer m)) eqn:E.
    + rewrite timer_at_on_timer. case_decide; subst; cbn; [naive_solver|]. rewrite (H2 other). naive_solver.
    + rewrite H2. split; [|naive_solver]. intros Hin. split; [done|]. intros ->. apply H2 in Hin. congruence.
  - intros other. rewrite Et, <- H3. unfold timer_delete. destruct (ti_armed (timer_at timer m)); [|done].
    rewrite timer_at_on_timer. by case_decide; subst.
  - rewrite El. apply (sorted_ext (expires_of m)); [by intros; rewrite Ee|]. by apply remove_sorted.
  - intros Hs. rewrite El, H5; [done|]. revert Hs. unfold timer_delete. by destruct (ti_armed (timer_at timer m)).
Qed.

(** [mod_timer] inserts the timer into the timers from which it was removed. *)
Lemma mod_timer_frame timer expires m : timers_ok m -> let m' := snd (mod_timer timer expires m) in
  tm_list m' = InsertTimerLocked (expires_of m') timer (RemoveTimerLocked timer (tm_list m)) /\ tm_thread m' = tm_thread m /\
  tm_started m' = true /\
  (forall other, timer_at other m' = if decide (other = timer) then ((timer_at timer m) <| ti_expires := expires |>) <| ti_armed := true |>
                                     else timer_at other m).
Proof.
  intros Hok. unfold mod_timer. cbv zeta. cbn [snd]. change (timer_at timer (EnsureTimerManagerStarted m)) with (timer_at timer m).
  destruct (ti_armed (timer_at timer m)) eqn:E; cbn [tm_list tm_thread].
  - repeat split. intros other. unfold timer_at. cbn. by case_decide; subst.
  - rewrite remove_absent by (intros Hin; apply (to_armed m Hok) in Hin; congruence).
    repeat split. intros other. unfold timer_at. cbn. by case_decide; subst.
Qed.
Lemma mod_timer_ok timer expires m : timers_ok m -> timers_ok (snd (mod_timer timer expires m)).
Proof.
  intros Hok. destruct (mod_timer_frame timer expires m Hok) as (El & Et & Es & Ea). pose proof Hok as [H1 H2 H3 H4 H5].
  set (m' := snd (mod_timer timer expires m)) in *. split.
  - rewrite El. apply insert_nodup; [rewrite elem_of_remove by done; by intros [_ ?]|by apply remove_nodup].
  - intros other. rewrite El, elem_of_insert, elem_of_remove, Ea by done. case_decide; [subst; cbn; tauto|]. rewrite H2. tauto.
  - intros other. rewrite Et, <- H3, Ea. by case_decide; subst.
  - rewrite El. apply insert_sorted, (sorted_ext (expires_of m)); [|by apply remove_sorted].
    intros x [_ Hx]%elem_of_remove; [|done]. unfold expires_of. rewrite Ea. by rewrite decide_False.
  - by rewrite Es.
Qed.

Lemma TimerThreadMain_frame now m timer m' : TimerThreadMain now m = Some (timer, m') ->
  tm_list m = timer :: tm_list m' /\ expires_of m timer <= now /\ tm_thread m' = TimerThread_Running timer /\ tm_started m' = tm_started m /\
  (forall other, timer_at other m' = if decide (other = timer) then ((timer_at timer m) <| ti_armed := false |>) <| ti_running := true |>
                                     else timer_at other m).
Proof.
  unfold TimerThreadMain. destruct (tm_list m) as [|x l] eqn:El; [done|]. destruct (negb (tm_started m)); cbn [orb]; [done|].
  destruct (Z.ltb_spec now (expires_of m x)); [done|]. intros [= -> <-]. repeat split; [done|]. intros other. unfold timer_at. cbn. by case_decide; subst.
Qed.
Lemma TimerThreadMain_ok now m timer m' : timers_ok m -> tm_thread m = TimerThread_Waiting ->
  TimerThreadMain now m = Some (timer, m') -> timers_ok m'.
Proof.
  intros [H1 H2 H3 H4 H5] Hw E. destruct (TimerThreadMain_frame _ _ _ _ E) as (El & _ & Et & Es & Ea). rewrite El in *.
  apply NoDup_cons in H1 as [Hn H1]. apply StronglySorted_inv in H4 as [H4 _]. split.
  - done.
  - intros other. rewrite Ea. case_decide; [subst; cbn; split; [done|by intros ?]|]. rewrite H2, elem_of_cons. tauto.
  - intros other. rewrite Ea, Et. case_decide; [by subst; cbn|]. rewrite H3, Hw. split; [done|]. by intros [= ->].
  - apply (sorted_ext (expires_of m)); [|done]. intros x _. unfold expires_of. rewrite Ea. by case_decide; subst.
  - rewrite Es. intros Hs. by specialize (H5 Hs).
Qed.
Lemma finish_timer_ok timer m : timers_ok m -> tm_thread m = TimerThread_Running timer -> timers_ok (finish_timer timer m).
Proof.
  intros [H1 H2 H3 H4 H5] Hr. split; try done.
  - intros other. rewrite <- (H2 other). unfold finish_timer, timer_at. cbn. by case_decide; subst.
  - intros other. unfold finish_timer, timer_at. cbn. case_decide; [subst; by cbn|]. split; [|done]. intros Hx.
    apply H3 in Hx. rewrite Hr in Hx. congruence.
  - apply (sorted_ext (expires_of m)); [|done]. intros x _. unfold expires_of, finish_timer, timer_at. cbn. by case_decide; subst.
Qed.
(** While the thread waits, no armed timer is due. *)
Lemma waiting_not_due now m timer : timers_ok m -> TimerThreadMain now m = None -> timer ∈ tm_list m -> now < expires_of m timer.
Proof.
  intros [H1 H2 H3 H4 H5]. unfold TimerThreadMain. destruct (tm_list m) as [|x l]; [by intros _ ?%elem_of_nil|].
  destruct (tm_started m) eqn:Es; [|by specialize (H5 eq_refl)]. cbn [negb orb]. destruct (Z.ltb_spec now (expires_of m x)); [|done].
  intros _ [->|Hin]%elem_of_cons; [done|]. apply StronglySorted_inv in H4 as [_ Hx]. rewrite Forall_forall in Hx. specialize (Hx _ Hin). lia.
Qed.
