(* ===== verification/TimerScheduler.v ===== *)
(** * The timer scheduler

    Models [runtime/timer_scheduler.cpp]: the operations that arm and cancel the protocol
    timers, the functions that the timer thread runs when a timer expires, and the work
    that delivers the expiration, on the timers of TimerList.v, the schedule of Timers.v
    and the timer queue of WorkQueue.v, with [HorizonDispatcher::QueueTimerWork].

    Three threads take part.  An operation is the list of its sections: each is atomic, and
    [m_operation_mutex] lets one operation run at a time.  The timer thread takes a timer
    that is due, runs its function and ends the run.  The worker of the queue runs the
    work that the function put on the queue.  The clock can advance at any time. *)

From S2P Require Import Prelude Platform Session Timers TimerList WorkQueue.
Local Open Scope Z_scope.

(** ** The scheduler *)

Definition NSEC_PER_JIFFY : Z := 1000000000 / 1000.
Definition get_jiffies_64 (boottime_ns : Z) : Z := u64 (Z.max 0 (Z.quot boottime_ns NSEC_PER_JIFFY)).
Definition TimerDeadlineToJiffies (deadline : Z) : Z := u64 deadline.

(** [m_protocol_timers]; timer and work [i] are those of slot [i].  The work and the timer
    of the debug probe and the timer of the userspace network stack follow. *)
Definition protocol_timers : list TimerHook :=
  [TimerHook_RetransmitHandshake; TimerHook_SendKeepalive; TimerHook_NewHandshake; TimerHook_ZeroKeyMaterial;
   TimerHook_PersistentKeepalive].
Definition debug_timeout_work : nat := 5.
Definition debug_timeout_timer : nat := 5.
Definition userspace_ip_timeout_timer : nat := 6.
Definition TimerWorkSlots : nat := 6.
Definition Scheduler_Slot (hook : TimerHook) : nat :=
  match list_find (fun other => other = hook) protocol_timers with Some (slot, _) => slot | None => 0 end.

Inductive TimerSection :=
  | Sec_DeleteSync (timer : nat)
  | Sec_Stopped (timer : nat)
  | Sec_Delete (timer : nat)
  | Sec_ReadClock (timer : nat) (delay : Z)
  | Sec_Modify (timer : nat) (expires : Z)
  | Sec_Arm (token : TimerToken) (deadline : Z)
  | Sec_IfArmed (token : TimerToken)
  | Sec_Cancel (token : TimerToken)
  | Sec_CancelHook (hook : TimerHook)
  | Sec_CancelAll.

Definition ArmProtocolTimer (token : TimerToken) (deadline : Z) : list TimerSection :=
  if negb (token_IsValid token) then []
  else [Sec_DeleteSync (Scheduler_Slot (tk_hook token)); Sec_Arm token deadline].
Definition CancelProtocolTimerHook (hook : TimerHook) : list TimerSection :=
  [Sec_DeleteSync (Scheduler_Slot hook); Sec_CancelHook hook].
Definition CancelProtocolTimer (token : TimerToken) : list TimerSection :=
  if negb (token_IsValid token) then [] else [Sec_IfArmed token].
Definition CancelAllProtocolTimers : list TimerSection :=
  (Sec_DeleteSync <$> seq 0 (length protocol_timers)) ++ [Sec_CancelAll].
Definition ArmDebugProbeTimeout (deadline : Z) : list TimerSection := [Sec_Modify debug_timeout_timer deadline].
Definition CancelDebugProbeTimeout : list TimerSection := [Sec_Delete debug_timeout_timer].
Definition ArmUserspaceIpTimeout (delay_ms : Z) : list TimerSection := [Sec_ReadClock userspace_ip_timeout_timer delay_ms].
Definition CancelUserspaceIpTimeout : list TimerSection := [Sec_Delete userspace_ip_timeout_timer].

(** Calls of the functions in [m_callbacks]. *)
Inductive TimerCall :=
  | Call_ProtocolTimer (hook : TimerHook) (token : TimerToken)
  | Call_DebugProbeTimeout
  | Call_UserspaceIpTimeout.
(** Where the timer thread is in the function of the timer, and where the worker is. *)
Inductive TimerPhase := Tp_Outside | Tp_Function | Tp_Queueing (work : nat) | Tp_Returning.
Inductive TimerWorker := Tw_Outside | Tw_Function (work : nat) | Tw_Returning.
Record TimerScheduler := mk_scheduler {
  ts_now : Z;
  ts_schedule : TimerSchedule;
  ts_manager : TimerManager;
  ts_phase : TimerPhase;
  ts_operation : list TimerSection;
  ts_queue : workqueue_struct;
  ts_worker : TimerWorker;
  ts_calls : list TimerCall
}.
#[export] Instance eta_scheduler : Eta TimerScheduler := fun r =>
  mk_scheduler (ts_now r) (ts_schedule r) (ts_manager r) (ts_phase r) (ts_operation r) (ts_queue r) (ts_worker r) (ts_calls r).
Definition scheduler_init : TimerScheduler :=
  mk_scheduler 0 schedule_init timer_manager_init Tp_Outside [] (workqueue_init 0 TimerWorkSlots) Tw_Outside [].

(** One section of the operation; [None] while it waits or if none runs. *)
Definition section_step (s : TimerScheduler) : option TimerScheduler :=
  match ts_operation s with
  | [] => None
  | section :: rest =>
      let s := s <| ts_operation := rest |> in
      match section with
      | Sec_DeleteSync timer =>
          let '(stopped, m) := timer_delete_sync timer (ts_manager s) in
          let s := s <| ts_manager := m |> in
          Some (if stopped then s else s <| ts_operation := Sec_Stopped timer :: rest |>)
      | Sec_Stopped timer => if timer_stopped timer (ts_manager s) then Some s else None
      | Sec_Delete timer => Some (s <| ts_manager ::= timer_delete timer |>)
      | Sec_ReadClock timer delay =>
          Some (s <| ts_operation := Sec_Modify timer (u64 (get_jiffies_64 (ts_now s) + delay)) :: rest |>)
      | Sec_Modify timer expires => Some (s <| ts_manager ::= fun m => snd (mod_timer timer expires m) |>)
      | Sec_Arm token deadline =>
          let '(armed, schedule) := Schedule_Arm token deadline (ts_schedule s) in
          let s := s <| ts_schedule := schedule |> in
          Some (if armed
                then s <| ts_operation := Sec_Modify (Scheduler_Slot (tk_hook token)) (TimerDeadlineToJiffies deadline) :: rest |>
                else s)
      | Sec_IfArmed token =>
          Some (if bool_decide (sl_armed_token (slot_at (ts_schedule s) (tk_hook token)) = token)
                then s <| ts_operation := Sec_DeleteSync (Scheduler_Slot (tk_hook token)) :: Sec_Cancel token :: rest |>
                else s)
      | Sec_Cancel token => Some (s <| ts_schedule ::= fun schedule => snd (Schedule_Cancel token schedule) |>)
      | Sec_CancelHook hook => Some (s <| ts_schedule ::= Schedule_CancelHook hook |>)
      | Sec_CancelAll => Some (s <| ts_schedule ::= Schedule_CancelAll |>)
      end
  end.

(** [ProtocolTimerCallback] with [QueueProtocolTimer], and [AuxiliaryTimerCallback]. *)
Definition ProtocolTimerCallback (timer : nat) (hook : TimerHook) (s : TimerScheduler) : TimerScheduler :=
  let '(captured, schedule) := Schedule_CaptureExpiration hook (ts_schedule s) in
  (s <| ts_schedule := schedule |>) <| ts_phase := if captured then Tp_Queueing timer else Tp_Returning |>.
Definition AuxiliaryTimerCallback (timer : nat) (s : TimerScheduler) : TimerScheduler :=
  if (timer =? debug_timeout_timer)%nat then s <| ts_phase := Tp_Queueing debug_timeout_work |>
  else if (timer =? userspace_ip_timeout_timer)%nat
  then (s <| ts_calls ::= fun calls => calls ++ [Call_UserspaceIpTimeout] |>) <| ts_phase := Tp_Returning |>
  else s <| ts_phase := Tp_Returning |>.
Definition QueueTimerWork (work : nat) (s : TimerScheduler) : TimerScheduler :=
  (s <| ts_queue ::= fun wq => snd (queue_work work wq) |>) <| ts_phase := Tp_Returning |>.
Definition timer_thread_step (s : TimerScheduler) : option TimerScheduler :=
  match tm_thread (ts_manager s) with
  | TimerThread_Waiting =>
      '(_, m) ← TimerThreadMain (get_jiffies_64 (ts_now s)) (ts_manager s);
      Some ((s <| ts_manager := m |>) <| ts_phase := Tp_Function |>)
  | TimerThread_Running timer =>
      Some (match ts_phase s with
            | Tp_Function =>
                match protocol_timers !! timer with
                | Some hook => ProtocolTimerCallback timer hook s
                | None => AuxiliaryTimerCallback timer s
                end
            | Tp_Queueing work => QueueTimerWork work s
            | Tp_Outside | Tp_Returning => (s <| ts_manager ::= finish_timer timer |>) <| ts_phase := Tp_Outside |>
            end)
  end.

Definition RunTimerWork (work : nat) (s : TimerScheduler) : TimerScheduler :=
  match protocol_timers !! work with
  | Some hook =>
      let '(token, schedule) := Schedule_TakeDelivery hook (ts_schedule s) in
      let s := s <| ts_schedule := schedule |> in
      if token_IsValid token then s <| ts_calls ::= fun calls => calls ++ [Call_ProtocolTimer hook token] |> else s
  | None => if (work =? debug_timeout_work)%nat then s <| ts_calls ::= fun calls => calls ++ [Call_DebugProbeTimeout] |> else s
  end.
Definition timer_worker_step (s : TimerScheduler) : option TimerScheduler :=
  match ts_worker s with
  | Tw_Outside =>
      wq ← WorkqueueThreadMain (ts_queue s);
      Some ((s <| ts_queue := wq |>) <| ts_worker := match wq_thread wq with Worker_Running work => Tw_Function work | _ => Tw_Outside end |>)
  | Tw_Function work => Some ((RunTimerWork work s) <| ts_worker := Tw_Returning |>)
  | Tw_Returning => wq ← WorkqueueThreadMain (ts_queue s); Some ((s <| ts_queue := wq |>) <| ts_worker := Tw_Outside |>)
  end.

(** ** Steps *)

Inductive TimerOperation :=
  | Op_ArmProtocolTimer (token : TimerToken) (deadline : Z)
  | Op_CancelProtocolTimer (token : TimerToken)
  | Op_CancelProtocolTimerHook (hook : TimerHook)
  | Op_CancelAllProtocolTimers
  | Op_ArmDebugProbeTimeout (deadline : Z)
  | Op_CancelDebugProbeTimeout
  | Op_ArmUserspaceIpTimeout (delay_ms : Z)
  | Op_CancelUserspaceIpTimeout.
Definition operation_sections (operation : TimerOperation) : list TimerSection :=
  match operation with
  | Op_ArmProtocolTimer token deadline => ArmProtocolTimer token deadline
  | Op_CancelProtocolTimer token => CancelProtocolTimer token
  | Op_CancelProtocolTimerHook hook => CancelProtocolTimerHook hook
  | Op_CancelAllProtocolTimers => CancelAllProtocolTimers
  | Op_ArmDebugProbeTimeout deadline => ArmDebugProbeTimeout deadline
  | Op_CancelDebugProbeTimeout => CancelDebugProbeTimeout
  | Op_ArmUserspaceIpTimeout delay_ms => ArmUserspaceIpTimeout delay_ms
  | Op_CancelUserspaceIpTimeout => CancelUserspaceIpTimeout
  end.

Inductive SchedulerStep :=
  | Ss_Clock (boottime_ns : Z)
  | Ss_Operation (operation : TimerOperation)
  | Ss_Section
  | Ss_TimerThread
  | Ss_Worker.
(** [None] where the step is not possible: the clock does not go back (and a boot time is
    a signed 64-bit number), and an operation waits for the one before it. *)
Definition scheduler_step (step : SchedulerStep) (s : TimerScheduler) : option TimerScheduler :=
  match step with
  | Ss_Clock ns => if (ts_now s <=? ns) && (ns <? 2 ^ 63) then Some (s <| ts_now := ns |>) else None
  | Ss_Operation operation => match ts_operation s with [] => Some (s <| ts_operation := operation_sections operation |>) | _ => None end
  | Ss_Section => section_step s
  | Ss_TimerThread => timer_thread_step s
  | Ss_Worker => timer_worker_step s
  end.
Definition scheduler_run (steps : list SchedulerStep) (s : TimerScheduler) : TimerScheduler :=
  foldl (fun s step => default s (scheduler_step step s)) s steps.

(** The protocol timers that the steps arm: the operations that get the mutex. *)
Definition arming (step : SchedulerStep) (s : TimerScheduler) : list (TimerToken * Z) :=
  match step, ts_operation s with
  | Ss_Operation (Op_ArmProtocolTimer token deadline), [] => if token_IsValid token then [(token, deadline)] else []
  | _, _ => []
  end.
Fixpoint armings (steps : list SchedulerStep) (s : TimerScheduler) : list (TimerToken * Z) :=
  match steps with
  | [] => []
  | step :: steps => arming step s ++ armings steps (default s (scheduler_step step s))
  end.
Definition protocol_call (call : TimerCall) : list TimerToken :=
  match call with Call_ProtocolTimer _ token => [token] | _ => [] end.
Definition protocol_calls (s : TimerScheduler) : list TimerToken := ts_calls s ≫= protocol_call.

Example an_expiration :
  ts_calls (scheduler_run
    ([Ss_Operation (Op_ArmProtocolTimer (mk_token TimerHook_NewHandshake (mk_owner 0 1 0) 1) 15); Ss_Section; Ss_Section; Ss_Section;
      Ss_TimerThread; Ss_Clock 15000000] ++ replicate 4 Ss_TimerThread ++ replicate 3 Ss_Worker) scheduler_init)
  = [Call_ProtocolTimer TimerHook_NewHandshake (mk_token TimerHook_NewHandshake (mk_owner 0 1 0) 1)].
Proof. vm_compute. reflexivity. Qed.

(** ** What the schedule holds *)

(** The token that is armed for a hook, with its deadline. *)
Definition armed_of (schedule : TimerSchedule) (hook : TimerHook) : option (TimerToken * Z) :=
  let slot := slot_at schedule hook in if sl_armed slot then Some (sl_armed_token slot, sl_deadline slot) else None.
Definition queued_of (schedule : TimerSchedule) (hook : TimerHook) : TimerToken := sl_queued_token (slot_at schedule hook).

Lemma Scheduler_Slot_index hook : Scheduler_Slot hook = HookIndex hook.
Proof. by destruct hook. Qed.
Lemma protocol_timers_lookup timer hook : protocol_timers !! timer = Some hook <-> timer = HookIndex hook.
Proof. split; [|by intros ->; destruct hook]. do 5 (destruct timer as [|timer]; [by intros [= <-]|]). done. Qed.
Lemma protocol_timers_none timer : protocol_timers !! timer = None -> (5 <= timer)%nat.
Proof. intros H%lookup_ge_None. done. Qed.

Lemma slot_at_set hook slot schedule other : length schedule = HookCount ->
  slot_at (set_slot hook slot schedule) other = if decide (hook = other) then slot else slot_at schedule other.
Proof.
  intros HL. unfold slot_at, set_slot. case_decide as E.
  - subst. rewrite list_lookup_insert_eq; [done|]. rewrite HL. apply HookIndex_lt.
  - rewrite list_lookup_insert_ne; [done|]. intros F. by apply HookIndex_inj in F.
Qed.

Section Operations.
Context (schedule : TimerSchedule) (HL : length schedule = HookCount).

Lemma arm_held token deadline hook : token_IsValid token = true ->
  armed_of (snd (Schedule_Arm token deadline schedule)) hook
    = (if decide (tk_hook token = hook) then Some (token, deadline) else armed_of schedule hook) /\
  queued_of (snd (Schedule_Arm token deadline schedule)) hook = queued_of schedule hook.
Proof.
  intros Hv. unfold Schedule_Arm, armed_of, queued_of. rewrite Hv. cbn [negb snd]. rewrite slot_at_set by done. case_decide; by subst.
Qed.
Lemma cancel_hook_held cancelled hook :
  armed_of (Schedule_CancelHook cancelled schedule) hook = (if decide (cancelled = hook) then None else armed_of schedule hook) /\
  queued_of (Schedule_CancelHook cancelled schedule) hook = queued_of schedule hook.
Proof. unfold Schedule_CancelHook, armed_of, queued_of. rewrite slot_at_set by done. case_decide; by subst. Qed.
Lemma cancel_held token hook : token_IsValid token = true ->
  (forall held, armed_of schedule (tk_hook token) = Some held -> fst held = token) ->
  armed_of (snd (Schedule_Cancel token schedule)) hook = (if decide (tk_hook token = hook) then None else armed_of schedule hook) /\
  queued_of (snd (Schedule_Cancel token schedule)) hook = queued_of schedule hook.
Proof.
  intros Hv Hheld. unfold Schedule_Cancel. rewrite Hv. cbn [negb]. unfold armed_of in Hheld.
  destruct (sl_armed (slot_at schedule (tk_hook token))) eqn:Ea; cbn [negb orb].
  - rewrite (bool_decide_true _ (Hheld _ eq_refl)). cbn [negb snd]. apply cancel_hook_held.
  - cbn [snd]. split; [|done]. case_decide; [subst|done]. unfold armed_of. by rewrite Ea.
Qed.
Lemma cancel_all_held hook :
  armed_of (Schedule_CancelAll schedule) hook = None /\ queued_of (Schedule_CancelAll schedule) hook = queued_of schedule hook.
Proof.
  unfold Schedule_CancelAll, armed_of, queued_of, slot_at. rewrite list_lookup_fmap.
  by destruct (schedule !! HookIndex hook).
Qed.
Lemma capture_held captured hook :
  fst (Schedule_CaptureExpiration captured schedule) = bool_decide (is_Some (armed_of schedule captured)) /\
  armed_of (snd (Schedule_CaptureExpiration captured schedule)) hook
    = (if decide (captured = hook) then None else armed_of schedule hook) /\
  queued_of (snd (Schedule_CaptureExpiration captured schedule)) hook
    = match armed_of schedule captured with
      | Some held => if decide (captured = hook) then fst held else queued_of schedule hook
      | None => queued_of schedule hook
      end.
Proof.
  unfold Schedule_CaptureExpiration, armed_of, queued_of.
  destruct (sl_armed (slot_at schedule captured)) eqn:Ea; cbn [negb fst snd].
  - rewrite bool_decide_true by done. split; [done|]. rewrite slot_at_set by done. case_decide; by subst.
  - rewrite bool_decide_false by by intros [? ?]. split; [done|]. split; [|done]. case_decide; [subst; by rewrite Ea|done].
Qed.
Lemma take_held taken hook :
  armed_of (snd (Schedule_TakeDelivery taken schedule)) hook = armed_of schedule hook /\
  queued_of (snd (Schedule_TakeDelivery taken schedule)) hook
    = if decide (taken = hook) then token_init else queued_of schedule hook.
Proof. unfold Schedule_TakeDelivery, armed_of, queued_of. cbn [snd]. rewrite slot_at_set by done. case_decide; by subst. Qed.
End Operations.

Lemma schedule_lengths schedule : length schedule = HookCount ->
  (forall token deadline, length (snd (Schedule_Arm token deadline schedule)) = HookCount) /\
  (forall token, length (snd (Schedule_Cancel token schedule)) = HookCount) /\
  (forall hook, length (Schedule_CancelHook hook schedule) = HookCount) /\
  length (Schedule_CancelAll schedule) = HookCount /\
  (forall hook, length (snd (Schedule_CaptureExpiration hook schedule)) = HookCount) /\
  (forall hook, length (snd (Schedule_TakeDelivery hook schedule)) = HookCount).
Proof.
  intros HL. split; [|split; [|split; [|split; [|split] ] ] ]; intros.
  - apply (schedule_step_held schedule (OpSchedArm token deadline) HL).
  - apply (schedule_step_held schedule (OpSchedCancel token) HL).
  - apply (schedule_step_held schedule (OpSchedCancelHook hook) HL).
  - apply (schedule_step_held schedule OpSchedCancelAll HL).
  - apply (schedule_step_held schedule (OpSchedCapture hook) HL).
  - apply (schedule_step_held schedule (OpSchedTake hook) HL).
Qed.

(** ** The timers and the operation *)

Definition quiet (m : TimerManager) (timer : nat) : Prop := timer ∉ tm_list m /\ tm_thread m <> TimerThread_Running timer.
(** The timer was taken, and its function has not captured the expiration yet. *)
Definition firing (m : TimerManager) (phase : TimerPhase) (timer : nat) : Prop :=
  tm_thread m = TimerThread_Running timer /\ phase = Tp_Function.

(** An operation waits for a timer, or modifies a protocol timer, as its first section only. *)
Definition plain (sections : list TimerSection) : Prop :=
  match head sections with Some (Sec_Stopped _) | Some (Sec_Modify _ _) => False | _ => True end.
(** What an operation still does, given the timers it has stopped. *)
Fixpoint well_formed (stopped : list nat) (sections : list TimerSection) : Prop :=
  match sections with
  | [] => stopped = []
  | section :: rest =>
      match section with
      | Sec_DeleteSync timer | Sec_Stopped timer => (timer < 7)%nat /\ plain rest /\ well_formed (timer :: stopped) rest
      | Sec_Delete timer | Sec_ReadClock timer _ => rest = [] /\ stopped = [] /\ (5 <= timer < 7)%nat
      | Sec_Modify timer _ => rest = [] /\ ((stopped = [] /\ (5 <= timer < 7)%nat) \/ (stopped = [timer] /\ (timer < 5)%nat))
      | Sec_Arm token _ | Sec_Cancel token => rest = [] /\ token_IsValid token = true /\ stopped = [HookIndex (tk_hook token)]
      | Sec_IfArmed token => rest = [] /\ token_IsValid token = true /\ stopped = []
      | Sec_CancelHook hook => rest = [] /\ stopped = [HookIndex hook]
      | Sec_CancelAll => rest = [] /\ stopped = [4; 3; 2; 1; 0]%nat
      end
  end.
Lemma operation_well_formed operation : well_formed [] (operation_sections operation).
Proof.
  destruct operation as [token deadline|token|hook| |?| |?|]; cbn [operation_sections];
    unfold ArmProtocolTimer, CancelProtocolTimer, CancelProtocolTimerHook; rewrite ?Scheduler_Slot_index;
    try (destruct (token_IsValid token) eqn:Ev; [|done]); cbn; repeat split; try done; try lia;
    try (destruct hook; cbn; lia); try (destruct (tk_hook token); cbn; lia).
  all: unfold debug_timeout_timer, userspace_ip_timeout_timer; try (left; split; [done|]); lia.
Qed.

(** The protocol timers that are armed are those of the schedule, with the same expiry,
    apart from what the operation and the timer thread are about to change. *)
Record timing_ok (stopped : list nat) (now : Z) (held : TimerHook -> option (TimerToken * Z)) (m : TimerManager)
    (phase : TimerPhase) (sections : list TimerSection) : Prop := {
  tg_clock : 0 <= now < 2 ^ 63;
  tg_timers : timers_ok m;
  tg_known timer : timer ∈ tm_list m -> (timer < 7)%nat;
  tg_phase : match tm_thread m with
             | TimerThread_Waiting => phase = Tp_Outside
             | TimerThread_Running timer => (timer < 7)%nat /\ phase <> Tp_Outside /\
                 forall work, phase = Tp_Queueing work -> work = timer /\ (work < 6)%nat
             end;
  tg_running timer : tm_thread m = TimerThread_Running timer -> (timer < 5)%nat -> timer ∉ tm_list m;
  tg_due hook : HookIndex hook ∈ tm_list m ->
    exists token deadline, held hook = Some (token, deadline) /\ expires_of m (HookIndex hook) = TimerDeadlineToJiffies deadline;
  tg_fired hook token deadline : firing m phase (HookIndex hook) -> held hook = Some (token, deadline) ->
    TimerDeadlineToJiffies deadline <= get_jiffies_64 now;
  tg_held hook : is_Some (held hook) -> HookIndex hook ∈ tm_list m \/ firing m phase (HookIndex hook) \/ HookIndex hook ∈ stopped \/
    head sections = Some (Sec_Stopped (HookIndex hook));
  tg_sections : well_formed stopped sections;
  tg_stopped timer : timer ∈ stopped -> quiet m timer;
  tg_waits timer : head sections = Some (Sec_Stopped timer) -> timer ∉ tm_list m;
  tg_modify hook expires : head sections = Some (Sec_Modify (HookIndex hook) expires) ->
    exists token deadline, held hook = Some (token, deadline) /\ expires = TimerDeadlineToJiffies deadline;
  tg_cancel token hold : Sec_Cancel token ∈ sections -> held (tk_hook token) = Some hold -> fst hold = token
}.

Lemma HookIndex_5 hook : (HookIndex hook < 5)%nat.
Proof. apply HookIndex_lt. Qed.

(** An operation begins. *)
Lemma operation_head operation : match head (operation_sections operation) with
  | Some (Sec_Stopped _) | Some (Sec_Cancel _) => False
  | Some (Sec_Modify timer _) => (5 <= timer)%nat
  | _ => True
  end /\ forall token, Sec_Cancel token ∉ operation_sections operation.
Proof.
  destruct operation as [token d|token|?| |?| |?|]; cbn [operation_sections]; unfold ArmProtocolTimer, CancelProtocolTimer;
    try destruct (token_IsValid token); cbn; (split; [unfold debug_timeout_timer; try done; lia|set_solver]).
Qed.
Lemma timing_operation stopped now held m phase operation : timing_ok stopped now held m phase [] ->
  timing_ok [] now held m phase (operation_sections operation).
Proof.
  intros [H1 H2 H3 H4 Hrun H5 H6 H7 H8 H9 H10 H11 H12]. cbn in H8. subst stopped.
  pose proof (operation_well_formed operation) as Hw. destruct (operation_head operation) as [Hhead Hnot].
  split; try done.
  - intros hook Hs. destruct (H7 hook Hs) as [?|[?|[?|?] ] ]; [by left|by right; left|set_solver|done].
  - intros timer E. by rewrite E in Hhead.
  - intros hook expires E. rewrite E in Hhead. pose proof (HookIndex_5 hook). lia.
  - intros token hold Hin. by apply Hnot in Hin.
Qed.

(** Timers leave the list: what holds of the others stays. *)
Lemma quiet_sub m m' timer : tm_thread m' = tm_thread m -> (forall t, t ∈ tm_list m' -> t ∈ tm_list m) -> quiet m timer -> quiet m' timer.
Proof. intros Et Hs [H1 H2]. split; [naive_solver|by rewrite Et]. Qed.

(** [timer_delete_sync] stops its timer, or waits for the run that has begun. *)
Lemma timing_delete stopped now held m phase timer rest : timing_ok stopped now held m phase (Sec_DeleteSync timer :: rest) ->
  let '(done, m') := timer_delete_sync timer m in
  if done then timing_ok (timer :: stopped) now held m' phase rest
  else timing_ok stopped now held m' phase (Sec_Stopped timer :: rest).
Proof.
  intros [H1 H2 H3 H4 Hrun H5 H6 H7 H8 H9 H10 H11 H12]. pose proof (timer_delete_ok timer m H2) as H2'.
  destruct (timer_delete_frame timer m H2) as (El & Et & Ee). unfold timer_delete_sync. set (m' := timer_delete timer m) in *.
  assert (forall t, t ∈ tm_list m' <-> t ∈ tm_list m /\ t <> timer) as Hin by (intros t; rewrite El; apply elem_of_remove, (to_nodup m H2)).
  assert (forall t, quiet m t -> quiet m' t) as Hq by (intros t; apply quiet_sub; [done|]; intros ? Hx; by apply Hin in Hx as [? _]).
  assert (forall hook, is_Some (held hook) -> HookIndex hook ∈ tm_list m' \/ firing m' phase (HookIndex hook) \/
    HookIndex hook ∈ stopped \/ HookIndex hook = timer) as Hheld.
  { intros hook Hs. unfold firing. rewrite Hin, Et. destruct (decide (HookIndex hook = timer)) as [->|Hne]; [by auto|].
    destruct (H7 hook Hs) as [?|[?|[?|E] ] ]; [by auto..|discriminate]. }
  assert (forall hook, HookIndex hook ∈ tm_list m' -> exists token deadline, held hook = Some (token, deadline) /\
    expires_of m' (HookIndex hook) = TimerDeadlineToJiffies deadline) as Hdue by (intros hook [? _]%Hin; rewrite Ee; by apply H5).
  cbn [well_formed] in H8. destruct H8 as (Ht & Hp & H8).
  destruct (ti_running (timer_at timer m')) eqn:Er; cbn [negb]; split; try done; try (by rewrite Et); try (by intros t [? _]%Hin; apply H3);
    try (by rewrite Et; intros t Hx Hlt [? _]%Hin; apply (Hrun t Hx Hlt));
    try (by intros hook token deadline [? ?]; apply H6; split; congruence).
  - intros hook Hs. destruct (Hheld hook Hs) as [?|[?|[?| ->] ] ]; auto.
  - intros t Hx. by apply Hq, H9.
  - intros t [= ->]. rewrite Hin. tauto.
  - intros token hold Hx. apply H12. set_solver.
  - intros hook Hs. destruct (Hheld hook Hs) as [?|[?|[?| ->] ] ]; set_solver.
  - intros t [->|Hx]%elem_of_cons; [|by apply Hq, H9]. split; [rewrite Hin; tauto|]. intros Hx. apply (to_running m' H2') in Hx. congruence.
  - intros t E. unfold plain in Hp. by rewrite E in Hp.
  - intros hook expires E. unfold plain in Hp. by rewrite E in Hp.
  - intros token hold Hx. apply H12. set_solver.
Qed.
Lemma timing_stopped stopped now held m phase timer rest : timing_ok stopped now held m phase (Sec_Stopped timer :: rest) ->
  timer_stopped timer m = true -> timing_ok (timer :: stopped) now held m phase rest.
Proof.
  intros [H1 H2 H3 H4 Hrun H5 H6 H7 H8 H9 H10 H11 H12] Hr. cbn [well_formed] in H8. destruct H8 as (Ht & Hp & H8). unfold plain in Hp.
  assert (quiet m timer) as Hq.
  { split; [by apply H10|]. intros E. apply (to_running m H2) in E. unfold timer_stopped in Hr. by rewrite E in Hr. }
  split; try done.
  - intros hook Hs. destruct (H7 hook Hs) as [?|[?|[?|[= ->] ] ] ]; set_solver.
  - intros t [->|Hx]%elem_of_cons; [done|by apply H9].
  - intros t E. by rewrite E in Hp.
  - intros hook expires E. by rewrite E in Hp.
  - intros token hold Hx. apply H12. set_solver.
Qed.
(** The timer of the debug probe or the network stack is disarmed. *)
Lemma timing_delete_auxiliary stopped now held m phase timer rest : timing_ok stopped now held m phase (Sec_Delete timer :: rest) ->
  timing_ok [] now held (timer_delete timer m) phase rest.
Proof.
  intros [H1 H2 H3 H4 Hrun H5 H6 H7 H8 H9 H10 H11 H12]. cbn [well_formed] in H8. destruct H8 as (-> & -> & Ht).
  destruct (timer_delete_frame timer m H2) as (El & Et & Ee). pose proof (timer_delete_ok timer m H2) as H2'.
  set (m' := timer_delete timer m) in *.
  assert (forall t, t ∈ tm_list m' <-> t ∈ tm_list m /\ t <> timer) as Hin by (intros t; rewrite El; apply elem_of_remove, (to_nodup m H2)).
  split; try done.
  - intros t [? _]%Hin. by apply H3.
  - by rewrite Et.
  - rewrite Et. intros t Hx Hlt [? _]%Hin. by apply (Hrun t).
  - intros hook [Hx _]%Hin. rewrite Ee. by apply H5.
  - intros hook token deadline [? ?]. apply H6. split; congruence.
  - intros hook Hs. unfold firing. rewrite Et, Hin. pose proof (HookIndex_5 hook).
    destruct (H7 hook Hs) as [?|[?|[?|?] ] ]; [left; split; [done|lia]|by right; left|set_solver|done].
  - intros t Hx. set_solver.
  - intros t hold Hx. set_solver.
Qed.
Lemma timing_modify stopped now held m phase timer expires rest : timing_ok stopped now held m phase (Sec_Modify timer expires :: rest) ->
  timing_ok [] now held (snd (mod_timer timer expires m)) phase rest.
Proof.
  intros [H1 H2 H3 H4 Hrun H5 H6 H7 H8 H9 H10 H11 H12]. cbn [well_formed] in H8. destruct H8 as (-> & Ht).
  destruct (mod_timer_frame timer expires m H2) as (El & Et & _ & Ea). pose proof (mod_timer_ok timer expires m H2) as H2'.
  set (m' := snd (mod_timer timer expires m)) in *.
  assert (forall t, t ∈ tm_list m' <-> t = timer \/ t ∈ tm_list m) as Hin.
  { intros t. rewrite El, elem_of_insert, elem_of_remove by apply (to_nodup m H2). destruct (decide (t = timer)); tauto. }
  split; try done.
  - intros t [->|Hx]%Hin; [|by apply H3]. destruct Ht as [ [_ ?]|[_ ?] ]; lia.
  - by rewrite Et.
  - rewrite Et. intros t Hx Hlt [->|Hy]%Hin; [|by apply (Hrun t)]. destruct Ht as [ [_ ?]|[-> _] ]; [lia|].
    destruct (H9 timer) as [_ Hn]; [set_solver|done].
  - intros hook Hx%Hin. unfold expires_of. rewrite Ea. case_decide as E.
    + subst timer. cbn. apply H11. done.
    + destruct Hx as [?|Hx]; [done|]. by apply H5.
  - intros hook token deadline [? ?]. apply H6. split; congruence.
  - intros hook Hs. unfold firing. rewrite Et, Hin.
    destruct (H7 hook Hs) as [?|[?|[Hx|?] ] ]; [by auto|by auto| |done].
    destruct Ht as [ [-> _]|[-> _] ]; [set_solver|]. apply list_elem_of_singleton in Hx. auto.
  - intros t Hx. set_solver.
  - intros token hold Hx. set_solver.
Qed.
Lemma timing_read_clock stopped now held m phase timer delay expires rest :
  timing_ok stopped now held m phase (Sec_ReadClock timer delay :: rest) -> timing_ok stopped now held m phase (Sec_Modify timer expires :: rest).
Proof.
  intros [H1 H2 H3 H4 Hrun H5 H6 H7 H8 H9 H10 H11 H12]. cbn [well_formed] in H8. destruct H8 as (-> & -> & Ht).
  split; try done.
  - intros hook Hs. destruct (H7 hook Hs) as [?|[?|[?|?] ] ]; [by auto..|done].
  - cbn. auto.
  - intros hook e [= -> ->]. pose proof (HookIndex_5 hook). lia.
  - intros token hold Hx. set_solver.
Qed.
Lemma timing_arm stopped now held held' m phase token deadline rest :
  timing_ok stopped now held m phase (Sec_Arm token deadline :: rest) ->
  (forall hook, held' hook = if decide (tk_hook token = hook) then Some (token, deadline) else held hook) ->
  timing_ok stopped now held' m phase (Sec_Modify (HookIndex (tk_hook token)) (TimerDeadlineToJiffies deadline) :: rest).
Proof.
  intros [H1 H2 H3 H4 Hrun H5 H6 H7 H8 H9 H10 H11 H12] Hh. cbn [well_formed] in H8. destruct H8 as (-> & Hv & ->).
  pose proof (HookIndex_5 (tk_hook token)) as Hlt. destruct (H9 (HookIndex (tk_hook token))) as [Hnot Hr]; [set_solver|].
  split; try done.
  - intros hook Hx. rewrite Hh. rewrite decide_False by by intros <-. by apply H5.
  - intros hook t d [Hf ?]. rewrite Hh. case_decide; [subst; by rewrite Hf in Hr|]. by apply H6.
  - intros hook. rewrite Hh. case_decide as E; [subst; set_solver|]. intros Hs.
    destruct (H7 hook Hs) as [?|[?|[?|?] ] ]; [by auto..|done].
  - cbn. auto.
  - intros hook e [= E <-]. apply HookIndex_inj in E. subst. rewrite Hh, decide_True by done. eauto.
  - intros t hold Hx. set_solver.
Qed.
(** The stopped timers are cancelled. *)
Lemma timing_cancel stopped now held held' m phase section : timing_ok stopped now held m phase [section] ->
  (forall timer, section <> Sec_Stopped timer) ->
  (forall hook, held' hook = if decide (HookIndex hook ∈ stopped) then None else held hook) -> timing_ok [] now held' m phase [].
Proof.
  intros [H1 H2 H3 H4 Hrun H5 H6 H7 H8 H9 H10 H11 H12] Hsec Hh. split; try done.
  - intros hook Hx. rewrite Hh. rewrite decide_False by by intros [? _]%H9. by apply H5.
  - intros hook t d Hf. rewrite Hh. case_decide; [done|]. by apply H6.
  - intros hook. rewrite Hh. case_decide; [by intros [? ?]|]. intros Hs.
    destruct (H7 hook Hs) as [?|[?|[?|[= E] ] ] ]; [by auto..|by specialize (Hsec (HookIndex hook))].
  - intros t Hx. set_solver.
  - intros t hold Hx. set_solver.
Qed.
Lemma timing_if_armed stopped now held m phase token rest : timing_ok stopped now held m phase (Sec_IfArmed token :: rest) ->
  timing_ok [] now held m phase rest /\
  ((forall hold, held (tk_hook token) = Some hold -> fst hold = token) ->
   timing_ok [] now held m phase (Sec_DeleteSync (HookIndex (tk_hook token)) :: Sec_Cancel token :: rest)).
Proof.
  intros [H1 H2 H3 H4 Hrun H5 H6 H7 H8 H9 H10 H11 H12]. cbn [well_formed] in H8. destruct H8 as (-> & Hv & ->).
  assert (forall hook, is_Some (held hook) -> HookIndex hook ∈ tm_list m \/ firing m phase (HookIndex hook) \/ HookIndex hook ∈ @nil nat) as Hheld.
  { intros hook Hs. destruct (H7 hook Hs) as [?|[?|[?|?] ] ]; [by auto..|done]. }
  split; [split; try done|intros Hcur; split; try done].
  - intros hook Hs. destruct (Hheld hook Hs) as [?|[?|?] ]; auto.
  - intros t hold Hx. set_solver.
  - intros hook Hs. destruct (Hheld hook Hs) as [?|[?|?] ]; auto.
  - cbn. pose proof (HookIndex_5 (tk_hook token)). unfold plain. cbn. repeat split; auto; lia.
  - intros t hold Hx Ht. assert (t = token) as ->; [set_solver|]. by apply Hcur.
Qed.

(** The timer thread takes a timer that is due. *)
Lemma timing_expire stopped now held m phase sections timer m' : timing_ok stopped now held m phase sections ->
  tm_thread m = TimerThread_Waiting -> TimerThreadMain (get_jiffies_64 now) m = Some (timer, m') ->
  timing_ok stopped now held m' Tp_Function sections.
Proof.
  intros [H1 H2 H3 H4 Hrun H5 H6 H7 H8 H9 H10 H11 H12] Hw E.
  destruct (TimerThreadMain_frame _ _ _ _ E) as (El & Hdue & Et & _ & Ea). pose proof (TimerThreadMain_ok _ _ _ _ H2 Hw E) as H2'.
  pose proof (to_nodup m H2) as Hnd. rewrite El in Hnd. apply NoDup_cons in Hnd as [Hnot _].
  assert (forall t, t ∈ tm_list m <-> t = timer \/ t ∈ tm_list m') as Hin by (intros t; rewrite El; apply elem_of_cons).
  assert (forall other, other <> timer -> expires_of m' other = expires_of m other) as Ee.
  { intros other Hne. unfold expires_of. rewrite Ea. by rewrite decide_False. }
  split; try done.
  - intros t Hx. apply H3, Hin. by right.
  - rewrite Et. split; [apply H3, Hin; by left|]. split; [done|]. by intros work [= ].
  - rewrite Et. by intros t [= <-] _.
  - intros hook Hx. rewrite Ee by (intros Ex; by rewrite Ex in Hx). apply H5, Hin. by right.
  - intros hook token deadline [Hf _] Hh. rewrite Et in Hf. injection Hf as ->.
    destruct (H5 hook) as (t' & d' & Eh & Ex); [apply Hin; by left|]. rewrite Eh in Hh. injection Hh as -> ->. lia.
  - intros hook Hs. destruct (H7 hook Hs) as [ [Hx|Hx]%Hin|[ [Hf _]|[?|?] ] ]; [|by auto|congruence|by auto..].
    right. left. by rewrite Hx.
  - intros t Hx. destruct (H9 t Hx) as [Hq1 _]. rewrite Hin in Hq1. split; [tauto|]. rewrite Et. intros [= ->]. tauto.
  - intros t Hx. specialize (H10 t Hx). rewrite Hin in H10. tauto.
Qed.
Lemma modify_stopped stopped hook expires sections : well_formed stopped sections ->
  head sections = Some (Sec_Modify (HookIndex hook) expires) -> HookIndex hook ∈ stopped.
Proof.
  destruct sections as [|section rest]; [done|]. intros Hw [= ->]. cbn [well_formed] in Hw. pose proof (HookIndex_5 hook).
  destruct Hw as (_ & [ [_ ?]|[-> _] ]); [lia|set_solver].
Qed.
(** It leaves the function, in which it has captured what was armed. *)
Lemma timing_function stopped now held held' m phase phase' sections timer : timing_ok stopped now held m phase sections ->
  tm_thread m = TimerThread_Running timer -> phase' = Tp_Returning \/ phase' = Tp_Queueing timer /\ (timer < 6)%nat ->
  (forall hook, held' hook = if decide (HookIndex hook = timer) then None else held hook) ->
  timing_ok stopped now held' m phase' sections.
Proof.
  intros [H1 H2 H3 H4 Hrun H5 H6 H7 H8 H9 H10 H11 H12] Hr Hp Hh. rewrite Hr in H4. destruct H4 as (Hlt & _ & _).
  split; try done.
  - rewrite Hr. split; [done|]. split; [by destruct Hp as [->|[-> _] ]|]. intros work ->. destruct Hp as [|[ [= ->] ?] ]; done.
  - intros hook Hx. rewrite Hh, decide_False; [by apply H5|]. intros E. rewrite <- E in Hr. by apply (Hrun _ Hr (HookIndex_5 hook)).
  - intros hook t d [_ ->]. by destruct Hp as [|[? _] ].
  - intros hook. rewrite Hh. case_decide as E; [by intros [? ?]|]. intros Hs.
    destruct (H7 hook Hs) as [?|[ [Hf _]|[?|?] ] ]; [by auto|congruence|by auto..].
  - intros hook e Hx. rewrite Hh, decide_False; [by apply H11|]. intros <-. destruct (H9 _ (modify_stopped _ _ _ _ H8 Hx)) as [_ Hn]. done.
  - intros token hold Hx. rewrite Hh. case_decide; [done|]. by apply H12.
Qed.
Lemma timing_returning stopped now held m phase sections timer : timing_ok stopped now held m phase sections ->
  tm_thread m = TimerThread_Running timer -> phase <> Tp_Function -> timing_ok stopped now held m Tp_Returning sections.
Proof.
  intros [H1 H2 H3 H4 Hrun H5 H6 H7 H8 H9 H10 H11 H12] Hr Hp. rewrite Hr in H4. destruct H4 as (Hlt & _ & _). split; try done.
  - by rewrite Hr.
  - by intros hook t d [_ ?].
  - intros hook Hs. destruct (H7 hook Hs) as [?|[ [_ ?]|[?|?] ] ]; [by auto|done|by auto..].
Qed.
Lemma timing_finish stopped now held m phase sections timer : timing_ok stopped now held m phase sections ->
  tm_thread m = TimerThread_Running timer -> phase <> Tp_Function -> timing_ok stopped now held (finish_timer timer m) Tp_Outside sections.
Proof.
  intros [H1 H2 H3 H4 Hrun H5 H6 H7 H8 H9 H10 H11 H12] Hr Hp. pose proof (finish_timer_ok timer m H2 Hr) as H2'.
  assert (forall t, expires_of (finish_timer timer m) t = expires_of m t) as Ee.
  { intros t. unfold expires_of, finish_timer, timer_at. cbn. by case_decide; subst. }
  split; try done.
  - intros hook. rewrite Ee. apply H5.
  - by intros hook t d [? _].
  - intros hook Hs. destruct (H7 hook Hs) as [?|[ [_ ?]|[?|?] ] ]; [by auto|done|by auto..].
  - intros t [? _]%H9. done.
Qed.
Lemma get_jiffies_64_mono now later : now <= later < 2 ^ 63 -> get_jiffies_64 now <= get_jiffies_64 later.
Proof.
  intros [Hle Hlt]. unfold get_jiffies_64, NSEC_PER_JIFFY. change (1000000000 / 1000) with 1000000.
  pose proof (Z.quot_le_mono now later 1000000 ltac:(lia) Hle) as Hq.
  assert (Z.quot later 1000000 < 2 ^ 63).
  { destruct (Z.le_gt_cases 0 later); [|pose proof (Z.quot_le_mono later 0 1000000 ltac:(lia) ltac:(lia)); change (Z.quot 0 1000000) with 0 in *; lia].
    rewrite Z.quot_div_nonneg by lia. pose proof (Z.div_le_upper_bound later 1000000 later ltac:(lia) ltac:(lia)). lia. }
  unfold wrap. rewrite !Z.mod_small by lia. lia.
Qed.
Lemma timing_clock stopped now later held m phase sections : timing_ok stopped now held m phase sections ->
  now <= later < 2 ^ 63 -> timing_ok stopped later held m phase sections.
Proof.
  intros [H1 H2 H3 H4 Hrun H5 H6 H7 H8 H9 H10 H11 H12] Hn. split; try done; [lia|].
  intros hook t d Hf Hh. specialize (H6 hook t d Hf Hh). pose proof (get_jiffies_64_mono now later Hn). lia.
Qed.
Lemma timing_held stopped now held held' m phase sections : timing_ok stopped now held m phase sections ->
  (forall hook, held' hook = held hook) -> timing_ok stopped now held' m phase sections.
Proof.
  intros [H1 H2 H3 H4 Hrun H5 H6 H7 H8 H9 H10 H11 H12] Hh. split; try done; setoid_rewrite Hh; done.
Qed.

(** ** The deliveries *)

(** A captured expiration is on its way: the timer thread is about to request the work, the
    work is requested, or the worker has begun it. *)
Record delivery_ok (queued : TimerHook -> TimerToken) (phase : TimerPhase) (wq : workqueue_struct) (worker : TimerWorker) : Prop := {
  dv_queue : queue_roomy TimerWorkSlots wq;
  dv_worker : match worker with
              | Tw_Outside => wq_thread wq = Worker_Waiting
              | Tw_Function work => wq_thread wq = Worker_Running work
              | Tw_Returning => exists work, wq_thread wq = Worker_Running work
              end;
  dv_queued hook : token_IsValid (queued hook) = true -> requested (HookIndex hook) wq \/ worker = Tw_Function (HookIndex hook) \/
    phase = Tp_Queueing (HookIndex hook)
}.

Definition scheduler_ok (s : TimerScheduler) : Prop :=
  length (ts_schedule s) = HookCount /\
  (exists stopped, timing_ok stopped (ts_now s) (armed_of (ts_schedule s)) (ts_manager s) (ts_phase s) (ts_operation s)) /\
  delivery_ok (queued_of (ts_schedule s)) (ts_phase s) (ts_queue s) (ts_worker s).

Lemma scheduler_init_ok : scheduler_ok scheduler_init.
Proof.
  split; [done|]. split.
  - exists []. split; cbn; try done; try apply timer_manager_init_ok;
      try (intros; match goal with H : _ ∈ [] |- _ => by apply elem_of_nil in H end).
    + by intros hook t d [? _].
    + intros hook [? ?]. by destruct hook.
  - split; [apply roomy_init|done|]. intros []; done.
Qed.

(** ** Steps *)

(** How many more steps the threads can take without the clock. *)
Definition section_weight (section : TimerSection) : nat :=
  match section with
  | Sec_DeleteSync _ => 2
  | Sec_Modify _ _ => 8
  | Sec_ReadClock _ _ | Sec_Arm _ _ => 9
  | Sec_IfArmed _ => 4
  | _ => 1
  end.
Definition phase_weight (phase : TimerPhase) : nat :=
  match phase with Tp_Outside => 0 | Tp_Function => 6 | Tp_Queueing _ => 5 | Tp_Returning => 1 end.
Definition worker_weight (worker : TimerWorker) : nat := match worker with Tw_Outside => 0 | Tw_Function _ => 2 | Tw_Returning => 1 end.
Definition work_left (s : TimerScheduler) : nat :=
  sum_list (section_weight <$> ts_operation s) + 7 * length (tm_list (ts_manager s)) + phase_weight (ts_phase s) +
  3 * wq_pending_count (ts_queue s) + worker_weight (ts_worker s).

Lemma timer_delete_length timer m : timers_ok m -> (length (tm_list (timer_delete timer m)) <= length (tm_list m))%nat.
Proof.
  intros Hok. rewrite (proj1 (timer_delete_frame timer m Hok)). destruct (decide (timer ∈ tm_list m)) as [Hin|Hn].
  - pose proof (remove_length timer _ Hin). lia.
  - by rewrite remove_absent.
Qed.
Lemma mod_timer_length timer expires m : timers_ok m -> (length (tm_list (snd (mod_timer timer expires m))) <= S (length (tm_list m)))%nat.
Proof.
  intros Hok. rewrite (proj1 (mod_timer_frame timer expires m Hok)), insert_length. destruct (decide (timer ∈ tm_list m)) as [Hin|Hn].
  - pose proof (remove_length timer _ Hin). lia.
  - by rewrite remove_absent.
Qed.

Lemma decide_index {A} (x y : A) hook other :
  (if decide (hook = other) then x else y) = if decide (HookIndex other ∈ [HookIndex hook]) then x else y.
Proof.
  destruct (decide (hook = other)) as [->|Hne]; [by rewrite decide_True by by apply list_elem_of_singleton|].
  rewrite decide_False; [done|]. intros E%list_elem_of_singleton%HookIndex_inj. congruence.
Qed.
Lemma delivery_ext queued queued' phase wq worker : (forall hook, queued' hook = queued hook) ->
  delivery_ok queued phase wq worker -> delivery_ok queued' phase wq worker.
Proof. intros E [H1 H2 H3]. split; try done. intros hook. rewrite E. apply H3. Qed.

Ltac step_simpl := cbn -[Schedule_CancelAll Schedule_CancelHook Schedule_Cancel Schedule_Arm armed_of queued_of timer_delete mod_timer Nat.mul Nat.add length finish_timer].
Lemma section_step_ok s s' : scheduler_ok s -> section_step s = Some s' -> scheduler_ok s' /\ (work_left s' < work_left s)%nat.
Proof.
  intros (HL & (stopped & Ht) & Hd). destruct (schedule_lengths _ HL) as (L1 & L2 & L3 & L4 & _ & _).
  unfold section_step, scheduler_ok, work_left. destruct s as [now sch m phase sections wq worker calls]. cbn in HL, Ht, Hd, L1, L2, L3, L4.
  cbn [ts_operation]. destruct sections as [|section rest]; [done|]. pose proof (tg_sections _ _ _ _ _ _ Ht) as Hw.
  destruct section as [t|t|t|t delay|t e|token d|token|token|hook|]; cbv zeta.
  - change (timer_delete_sync t (ts_manager _)) with (timer_delete_sync t m). pose proof (timing_delete _ _ _ _ _ _ _ Ht) as H. unfold timer_delete_sync in *. pose proof (timer_delete_length t m (tg_timers _ _ _ _ _ _ Ht)).
    destruct (negb _); intros [= <-]; step_simpl; (split; [eauto|lia]).
  - destruct (timer_stopped t _) eqn:E; [|done]. change (timer_stopped t m = true) in E. intros [= <-]. step_simpl. pose proof (timing_stopped _ _ _ _ _ _ _ Ht E). split; [eauto|lia].
  - intros [= <-]. step_simpl. pose proof (timing_delete_auxiliary _ _ _ _ _ _ _ Ht). pose proof (timer_delete_length t m (tg_timers _ _ _ _ _ _ Ht)).
    split; [eauto|lia].
  - intros [= <-]. step_simpl. pose proof (fun e => timing_read_clock _ _ _ _ _ _ _ e _ Ht). split; [eauto|lia].
  - intros [= <-]. pose proof (timing_modify _ _ _ _ _ _ _ _ Ht) as H. pose proof (mod_timer_length t e m (tg_timers _ _ _ _ _ _ Ht)) as Hlen.
    split; [exact (conj HL (conj (ex_intro _ [] H) Hd))|].
    change (sum_list (section_weight <$> rest) + 7 * length (tm_list (snd (mod_timer t e m))) + phase_weight phase +
      3 * wq_pending_count wq + worker_weight worker < 8 + sum_list (section_weight <$> rest) + 7 * length (tm_list m) +
      phase_weight phase + 3 * wq_pending_count wq + worker_weight worker)%nat. lia.
  - cbn [well_formed] in Hw. destruct Hw as (-> & Hv & ->). pose proof (fun hook => arm_held sch HL token d hook Hv) as Hh.
    change (Schedule_Arm token d (ts_schedule _)) with (Schedule_Arm token d sch). destruct (Schedule_Arm token d sch) as [armed sch'] eqn:E. assert (armed = true) as ->.
    { unfold Schedule_Arm in E. rewrite Hv in E. by injection E. }
    assert (sch' = snd (Schedule_Arm token d sch)) as -> by by rewrite E. intros [= <-]. rewrite Scheduler_Slot_index. step_simpl.
    split; [|lia]. split; [apply L1|]. split; [eexists; eapply timing_arm; [exact Ht|]; intros hook; apply Hh|].
    eapply delivery_ext; [|exact Hd]. intros hook. apply Hh.
  - cbn [well_formed] in Hw. destruct Hw as (-> & Hv & ->). pose proof (timing_if_armed _ _ _ _ _ _ _ Ht) as [Ha Hb].
    change (slot_at (ts_schedule _) (tk_hook token)) with (slot_at sch (tk_hook token)). rewrite Scheduler_Slot_index. case_bool_decide as E; intros [= <-]; step_simpl; (split; [|lia]); (split; [done|]); (split; [|done]); [|eauto].
    eexists. apply Hb. unfold armed_of. destruct (sl_armed _); [|done]. by intros hold [= <-].
  - cbn [well_formed] in Hw. destruct Hw as (-> & Hv & ->). intros [= <-]. step_simpl. split; [|lia]. split; [apply L2|].
    pose proof (fun hook => cancel_held sch HL token hook Hv (fun hold => tg_cancel _ _ _ _ _ _ Ht token hold ltac:(by left))) as Hh. split.
    + eexists. eapply timing_cancel; [exact Ht|done|]. intros hook. rewrite (proj1 (Hh hook)).
      apply decide_index.
    + eapply delivery_ext; [|exact Hd]. intros hook. apply Hh.
  - cbn [well_formed] in Hw. destruct Hw as (-> & ->). intros [= <-]. step_simpl. split; [|lia]. split; [apply L3|].
    pose proof (fun other => cancel_hook_held sch HL hook other) as Hh. split.
    + eexists. eapply timing_cancel; [exact Ht|done|]. intros other. rewrite (proj1 (Hh other)).
      apply decide_index.
    + eapply delivery_ext; [|exact Hd]. intros other. apply Hh.
  - cbn [well_formed] in Hw. destruct Hw as (-> & ->). intros [= <-]. step_simpl. split; [|lia]. split; [apply L4|].
    pose proof (cancel_all_held sch) as Hh. split.
    + eexists. eapply timing_cancel; [exact Ht|done|]. intros hook. rewrite (proj1 (Hh hook)). rewrite decide_True; [done|]. destruct hook; set_solver.
    + eapply delivery_ext; [|exact Hd]. intros hook. apply Hh.
Qed.
Lemma timer_thread_step_ok s s' : scheduler_ok s -> timer_thread_step s = Some s' -> scheduler_ok s' /\ (work_left s' < work_left s)%nat.
Proof.
  intros (HL & (stopped & Ht) & Hd). destruct (schedule_lengths _ HL) as (_ & _ & _ & _ & L5 & _).
  unfold timer_thread_step, scheduler_ok, work_left. destruct s as [now sch m phase sections wq worker calls]. cbn in HL, Ht, Hd, L5.
  cbn [ts_manager ts_phase ts_now]. pose proof (tg_phase _ _ _ _ _ _ Ht) as Hp. destruct Hd as [Hq Hwk Hqd].
  destruct (tm_thread m) as [|timer] eqn:Et.
  - destruct (TimerThreadMain _ m) as [ [timer m']|] eqn:E; [|done]. cbn [mbind option_bind]. intros [= <-]. cbn. subst phase.
    pose proof (timing_expire _ _ _ _ _ _ _ _ Ht Et E). destruct (TimerThreadMain_frame _ _ _ _ E) as (El & _). rewrite El. cbn [length].
    split; [|lia]. split; [done|]. split; [eauto|]. split; try done. intros hook Hv. by destruct (Hqd hook Hv) as [?|[?|?] ]; auto.
  - destruct Hp as (Hlt & Hn & Hwork). destruct phase as [| |work|]; [done| | |].
    + destruct (protocol_timers !! timer) as [hook|] eqn:Eh.
      * apply protocol_timers_lookup in Eh as ->. pose proof (fun other => capture_held sch HL hook other) as Hh.
        unfold ProtocolTimerCallback. cbn [ts_schedule]. specialize (L5 hook).
        destruct (Schedule_CaptureExpiration hook sch) as [captured sch'] eqn:E. cbn [fst snd] in *. intros [= <-]. cbn.
        pose proof (HookIndex_5 hook). split; [|destruct captured; cbn; lia]. split; [done|]. split.
        -- eexists. eapply timing_function; [exact Ht|exact Et| |].
           ++ destruct captured; [right; split; [done|lia]|by left].
           ++ intros other. rewrite (proj1 (proj2 (Hh other))). destruct (decide (hook = other)) as [->|Hne]; [by rewrite decide_True|].
              rewrite decide_False; [done|]. intros Ex%HookIndex_inj. congruence.
        -- split; try done. intros other. destruct (Hh other) as (Ec & _ & ->). subst captured.
           destruct (armed_of sch hook) as [hold|]; [rewrite bool_decide_true by done|rewrite bool_decide_false by by intros [? ?] ].
           ++ case_decide; [subst; by auto|]. intros Hv. destruct (Hqd other Hv) as [?|[?|?] ]; by auto.
           ++ intros Hv. destruct (Hqd other Hv) as [?|[?|?] ]; by auto.
      * apply protocol_timers_none in Eh. unfold AuxiliaryTimerCallback.
        assert (forall phase', phase' = Tp_Returning \/ phase' = Tp_Queueing timer /\ (timer < 6)%nat ->
          (exists stopped, timing_ok stopped now (armed_of sch) m phase' sections) /\ delivery_ok (queued_of sch) phase' wq worker) as Hgo.
        { intros phase' Hp'. split; [eexists; eapply timing_function; [exact Ht|exact Et|done|]|].
          - intros other. rewrite decide_False; [done|]. pose proof (HookIndex_5 other). lia.
          - split; try done. intros other Hv. destruct (Hqd other Hv) as [?|[?|?] ]; by auto. }
        destruct (Nat.eqb_spec timer debug_timeout_timer) as [->|].
        { intros [= <-]. cbn. split; [|lia]. split; [done|]. apply Hgo. right. unfold debug_timeout_timer. split; [done|lia]. }
        destruct (Nat.eqb_spec timer userspace_ip_timeout_timer); intros [= <-]; cbn; (split; [|lia]); (split; [done|]); by apply Hgo; left.
    + destruct (Hwork work eq_refl) as [-> Hlt6]. unfold QueueTimerWork.
      destruct (roomy_queue_work TimerWorkSlots timer wq Hq Hlt6) as (_ & Hq' & Eth & Hreq & Hcount). intros E.
      apply (inj Some) in E. subst s'. split; [split; [done|split] |].
      * exists stopped. by apply (timing_returning _ _ _ _ _ _ timer Ht).
      * split; [done|by rewrite <- Eth in Hwk|].
        intros hook Hv. change (requested (HookIndex hook) (snd (queue_work timer wq)) \/ worker = Tw_Function (HookIndex hook) \/
          Tp_Returning = Tp_Queueing (HookIndex hook)). rewrite Hreq. destruct (Hqd hook Hv) as [?|[?|[= ->] ] ]; auto.
      * change (sum_list (section_weight <$> sections) + 7 * length (tm_list m) + 1 + 3 * wq_pending_count (snd (queue_work timer wq)) +
          worker_weight worker < sum_list (section_weight <$> sections) + 7 * length (tm_list m) + 5 + 3 * wq_pending_count wq +
          worker_weight worker)%nat. lia.
    + intros [= <-]. cbn. split; [|lia]. split; [done|]. split; [eexists; by eapply timing_finish|]. split; try done.
      intros hook Hv. destruct (Hqd hook Hv) as [?|[?|?] ]; by auto.
Qed.
Lemma timer_worker_step_ok s s' : scheduler_ok s -> timer_worker_step s = Some s' -> scheduler_ok s' /\ (work_left s' < work_left s)%nat.
Proof.
  intros (HL & (stopped & Ht) & Hd). destruct (schedule_lengths _ HL) as (_ & _ & _ & _ & _ & L6).
  unfold timer_worker_step, scheduler_ok, work_left. destruct s as [now sch m phase sections wq worker calls]. cbn in HL, Ht, Hd, L6.
  cbn [ts_worker ts_queue]. destruct Hd as [Hq Hwk Hqd]. pose proof (roomy_thread TimerWorkSlots wq Hq) as Hth. destruct worker as [|work|].
  - rewrite Hwk in Hth. destruct (WorkqueueThreadMain wq) as [wq'|]; [|done]. cbn [mbind option_bind]. intros [= <-]. cbn.
    destruct Hth as (work & Eth & _ & Hq' & Hcount & Hreq). rewrite Eth, Hcount. cbn. split; [|lia]. split; [done|]. split; [eauto|].
    split; [done|done|]. intros hook Hv. destruct (Hqd hook Hv) as [Hr|[?|?] ]; [|done|by auto].
    destruct (Hreq _ Hr) as [<-|?]; by auto.
  - intros [= <-]. unfold RunTimerWork. cbn [ts_schedule]. destruct (protocol_timers !! work) as [hook|] eqn:Eh.
    + apply protocol_timers_lookup in Eh as ->. pose proof (fun other => take_held sch HL hook other) as Hh. specialize (L6 hook).
      change (length (snd (Schedule_TakeDelivery hook sch)) = HookCount) in L6. destruct (Schedule_TakeDelivery hook sch) as [token sch'] eqn:E. cbn [fst snd] in *.
      assert ((exists stopped, timing_ok stopped now (armed_of sch') m phase sections) /\ delivery_ok (queued_of sch') phase wq Tw_Returning) as [Ha Hb].
      { split; [eexists; eapply timing_held; [exact Ht|]; intros other; apply Hh|]. split; [done|by eexists|].
        intros other. rewrite (proj2 (Hh other)). case_decide as Ec; [done|]. intros Hv.
        destruct (Hqd other Hv) as [?|[ [= Ex]|?] ]; [by auto| |by auto]. apply HookIndex_inj in Ex. congruence. }
      destruct (token_IsValid token); cbn; (split; [|lia]); exact (conj L6 (conj Ha Hb)).
    + apply protocol_timers_none in Eh. assert (delivery_ok (queued_of sch) phase wq Tw_Returning) as Hb.
      { split; [done|by eexists|]. intros other Hv. destruct (Hqd other Hv) as [?|[ [= Ex]|?] ]; [by auto| |by auto].
        pose proof (HookIndex_5 other). lia. }
      destruct (work =? debug_timeout_work)%nat; cbn; (split; [|lia]); (split; [done|]); (split; [eauto|done]).
  - destruct Hwk as [work Hwk]. rewrite Hwk in Hth. destruct (WorkqueueThreadMain wq) as [wq'|]; [|done]. cbn [mbind option_bind]. intros [= <-]. cbn.
    destruct Hth as (Eth & Hq' & Hcount & Hreq). rewrite Hcount. split; [|lia]. split; [done|]. split; [eauto|]. split; [done|done|].
    intros hook Hv. destruct (Hqd hook Hv) as [Hr|[?|?] ]; [|done|by auto]. by auto.
Qed.
Lemma scheduler_step_ok step s s' : scheduler_ok s -> scheduler_step step s = Some s' -> scheduler_ok s'.
Proof.
  intros Hok. destruct step as [ns|operation| | |]; cbn [scheduler_step].
  - destruct (Z.leb_spec (ts_now s) ns); cbn [andb]; [|done]. destruct (Z.ltb_spec ns (2 ^ 63)); [|done]. intros [= <-].
    destruct Hok as (HL & (stopped & Ht) & Hd). split; [done|]. split; [|done]. exists stopped. cbn. by eapply timing_clock.
  - destruct (ts_operation s) eqn:E; [|done]. intros [= <-]. destruct Hok as (HL & (stopped & Ht) & Hd). split; [done|]. split; [|done].
    rewrite E in Ht. eexists. by eapply timing_operation.
  - intros E. by apply (section_step_ok s).
  - intros E. by apply (timer_thread_step_ok s).
  - intros E. by apply (timer_worker_step_ok s).
Qed.
Lemma scheduler_run_ok steps : forall s, scheduler_ok s -> scheduler_ok (scheduler_run steps s).
Proof.
  induction steps as [|step steps IH]; intros s Hok; [done|]. cbn. apply IH.
  destruct (scheduler_step step s) as [s'|] eqn:E; [by eapply scheduler_step_ok|done].
Qed.

(** ** What was armed, and when *)

Definition to_arm (section : TimerSection) : list TimerToken := match section with Sec_Arm token _ => [token] | _ => [] end.
(** The token was armed with a deadline that has passed. *)
Definition was_due (armed : list (TimerToken * Z)) (now : Z) (token : TimerToken) : Prop :=
  exists deadline, (token, deadline) ∈ armed /\ TimerDeadlineToJiffies deadline <= get_jiffies_64 now.
Record history_ok (armed : list (TimerToken * Z)) (s : TimerScheduler) : Prop := {
  hy_count : protocol_calls s ++ held (ts_schedule s) ++ (ts_operation s ≫= to_arm) ⊆+ armed.*1;
  hy_arm token deadline : Sec_Arm token deadline ∈ ts_operation s -> (token, deadline) ∈ armed;
  hy_armed hook token deadline : armed_of (ts_schedule s) hook = Some (token, deadline) -> tk_hook token = hook /\ (token, deadline) ∈ armed;
  hy_queued hook : token_IsValid (queued_of (ts_schedule s) hook) = true ->
    tk_hook (queued_of (ts_schedule s) hook) = hook /\ was_due armed (ts_now s) (queued_of (ts_schedule s) hook);
  hy_calls hook token : Call_ProtocolTimer hook token ∈ ts_calls s -> tk_hook token = hook /\ was_due armed (ts_now s) token
}.
Lemma history_init : history_ok [] scheduler_init.
Proof.
  split; cbn; try (by intros ? ? ?%elem_of_nil).
  - by vm_compute.
  - by intros [].
  - by intros [].
Qed.
Lemma was_due_mono armed more now later token : was_due armed now token -> get_jiffies_64 now <= get_jiffies_64 later ->
  was_due (armed ++ more) later token.
Proof. intros (d & Hin & Hd) Hle. exists d. rewrite elem_of_app. split; [by left|lia]. Qed.

(** The parts of the history that a step of the operation changes. *)
Lemma section_history armed s s' : scheduler_ok s -> history_ok armed s -> section_step s = Some s' -> history_ok armed s'.
Proof.
  intros (HL & (stopped & Ht) & _) [H1 H2 H3 H4 H5]. pose proof (tg_sections _ _ _ _ _ _ Ht) as Hw.
  assert (ts_now s' = ts_now s /\ ts_calls s' = ts_calls s /\
    (forall token d, Sec_Arm token d ∈ ts_operation s' -> Sec_Arm token d ∈ ts_operation s) /\
    held (ts_schedule s') ++ (ts_operation s' ≫= to_arm) ⊆+ held (ts_schedule s) ++ (ts_operation s ≫= to_arm) /\
    (forall hook, queued_of (ts_schedule s') hook = queued_of (ts_schedule s) hook /\
       match armed_of (ts_schedule s') hook with
       | Some (token, d) => armed_of (ts_schedule s) hook = Some (token, d) \/ tk_hook token = hook /\ Sec_Arm token d ∈ ts_operation s
       | None => True
       end) -> history_ok armed s') as Hgoal.
  { intros (E1 & E2 & Hops & Hheld & Hslots). unfold protocol_calls in *. split; unfold protocol_calls; rewrite ?E1, ?E2.
    - etransitivity; [by apply submseteq_app|done].
    - intros token d Hin. by apply H2, Hops.
    - intros hook token d E. destruct (Hslots hook) as [_ Hs]. rewrite E in Hs. destruct Hs as [?|[? ?] ]; [by apply H3|]. split; [done|by apply H2].
    - intros hook. destruct (Hslots hook) as [-> _]. apply H4.
    - apply H5. }
  intros E. apply Hgoal. clear Hgoal H1 H2 H3 H4 H5. revert E. unfold section_step.
  assert (forall hook, queued_of (ts_schedule s) hook = queued_of (ts_schedule s) hook /\ match armed_of (ts_schedule s) hook with
    | Some (token, d) => armed_of (ts_schedule s) hook = Some (token, d) \/ tk_hook token = hook /\ Sec_Arm token d ∈ ts_operation s
    | None => True end) as Hsame by (intros hook; split; [done|]; destruct (armed_of _ hook) as [ [? ?]|]; auto).
  destruct (ts_operation s) as [|section rest] eqn:Eo; [done|]. cbn [well_formed] in Hw.
  assert (forall token d, Sec_Arm token d ∈ rest -> Sec_Arm token d ∈ section :: rest) as Hrest by (intros; by right).
  destruct section as [t|t|t|t delay|t e|token d|token|token|hook|]; cbv zeta.
  - change (timer_delete_sync t (ts_manager _)) with (timer_delete_sync t (ts_manager s)). destruct (timer_delete_sync t _) as [stop m].
    destruct stop; intros [= <-]; cbn; (split; [done|]); (split; [done|]); (split; [set_solver|]); by split.
  - destruct (timer_stopped t _); [|done]. intros [= <-]. cbn. split; [done|]. split; [done|]. split; [done|]. by split.
  - intros [= <-]. cbn. split; [done|]. split; [done|]. split; [done|]. by split.
  - intros [= <-]. cbn. split; [done|]. split; [done|]. split; [set_solver|]. by split.
  - intros [= <-]. cbn. split; [done|]. split; [done|]. split; [done|]. by split.
  - destruct Hw as (-> & Hv & ->). change (Schedule_Arm token d (ts_schedule _)) with (Schedule_Arm token d (ts_schedule s)).
    pose proof (fun hook => arm_held (ts_schedule s) HL token d hook Hv) as Hh.
    pose proof (proj1 (schedule_step_held (ts_schedule s) (OpSchedArm token d) HL)) as Hc. cbn [schedule_step fst snd armed_by app] in Hc.
    unfold valid_only in Hc. rewrite Hv in Hc.
    destruct (Schedule_Arm token d (ts_schedule s)) as [armed' sch'] eqn:E. assert (armed' = true) as ->.
    { unfold Schedule_Arm in E. rewrite Hv in E. by injection E. }
    cbn [snd] in *. intros [= <-]. cbn. split; [done|]. split; [done|]. split; [set_solver|]. split; [by rewrite app_nil_r|].
    intros hook. destruct (Hh hook) as [-> ->]. split; [done|]. case_decide; [|apply Hsame]. right. split; [done|by left].
  - destruct (bool_decide _); intros [= <-]; cbn; (split; [done|]); (split; [done|]); (split; [set_solver|]); by split.
  - destruct Hw as (-> & Hv & ->). pose proof (proj1 (schedule_step_held (ts_schedule s) (OpSchedCancel token) HL)) as Hc. cbn [schedule_step fst snd armed_by app] in Hc.
    pose proof (fun hook => cancel_held (ts_schedule s) HL token hook Hv (fun hold => tg_cancel _ _ _ _ _ _ Ht token hold ltac:(by left))) as Hh.
    intros [= <-]. step_simpl. split; [done|]. split; [done|]. split; [set_solver|]. split; [rewrite app_nil_r; exact Hc|].
    intros hook. destruct (Hh hook) as [-> ->]. split; [done|]. case_decide; [done|apply Hsame].
  - destruct Hw as (-> & ->). pose proof (proj1 (schedule_step_held (ts_schedule s) (OpSchedCancelHook hook) HL)) as Hc. cbn [schedule_step fst snd armed_by app] in Hc.
    pose proof (fun other => cancel_hook_held (ts_schedule s) HL hook other) as Hh.
    intros [= <-]. step_simpl. split; [done|]. split; [done|]. split; [set_solver|]. split; [rewrite app_nil_r; exact Hc|].
    intros other. destruct (Hh other) as [-> ->]. split; [done|]. case_decide; [done|apply Hsame].
  - destruct Hw as (-> & ->). pose proof (proj1 (schedule_step_held (ts_schedule s) OpSchedCancelAll HL)) as Hc. cbn [schedule_step fst snd armed_by app] in Hc.
    intros [= <-]. step_simpl. split; [done|]. split; [done|]. split; [set_solver|]. split; [rewrite app_nil_r; exact Hc|].
    intros other. destruct (cancel_all_held (ts_schedule s) other) as [-> ->]. done.
Qed.
Lemma timer_thread_history armed s s' : scheduler_ok s -> history_ok armed s -> timer_thread_step s = Some s' -> history_ok armed s'.
Proof.
  intros (HL & (stopped & Ht) & _) [H1 H2 H3 H4 H5]. unfold timer_thread_step. destruct (tm_thread (ts_manager s)) as [|timer] eqn:Et.
  { destruct (TimerThreadMain _ _) as [ [? m]|]; [|done]. cbn [mbind option_bind]. intros [= <-]. by split. }
  destruct (ts_phase s) as [| |work|] eqn:Ep; try (intros [= <-]; by split).
  destruct (protocol_timers !! timer) as [hook|] eqn:Eh.
  - apply protocol_timers_lookup in Eh as ->. unfold ProtocolTimerCallback.
    pose proof (fun other => capture_held (ts_schedule s) HL hook other) as Hh.
    pose proof (proj1 (schedule_step_held (ts_schedule s) (OpSchedCapture hook) HL)) as Hc. cbn [schedule_step fst snd armed_by app] in Hc.
    destruct (Schedule_CaptureExpiration hook (ts_schedule s)) as [captured sch'] eqn:E. cbn [fst snd] in *. intros [= <-].
    split; cbn; [|done| | |done].
    + etransitivity; [|exact H1]. apply submseteq_app; [done|]. apply submseteq_app; [|done]. by rewrite app_nil_r in Hc.
    + intros other token d. rewrite (proj1 (proj2 (Hh other))). case_decide; [done|]. apply H3.
    + intros other. rewrite (proj2 (proj2 (Hh other))). destruct (armed_of (ts_schedule s) hook) as [ [token d]|] eqn:Ea; [|apply H4].
      case_decide; [subst|apply H4]. intros _. cbn. destruct (H3 _ _ _ Ea) as [? Hin]. split; [done|]. exists d. split; [done|].
      apply (tg_fired _ _ _ _ _ _ Ht other token d); [by split|done].
  - unfold AuxiliaryTimerCallback. destruct (timer =? debug_timeout_timer)%nat; [intros [= <-]; by split|].
    destruct (timer =? userspace_ip_timeout_timer)%nat; intros [= <-]; [|by split]. split; cbn; try done.
    + unfold protocol_calls in *. cbn. by rewrite bind_app, app_nil_r.
    + intros hook token [?|?%list_elem_of_singleton]%elem_of_app; [by apply H5|done].
Qed.
Lemma worker_history armed s s' : scheduler_ok s -> history_ok armed s -> timer_worker_step s = Some s' -> history_ok armed s'.
Proof.
  intros (HL & _ & _) [H1 H2 H3 H4 H5]. unfold timer_worker_step. destruct (ts_worker s) as [|work|].
  - destruct (WorkqueueThreadMain _); [|done]. cbn [mbind option_bind]. intros [= <-]. by split.
  - unfold RunTimerWork. destruct (protocol_timers !! work) as [hook|] eqn:Eh.
    + pose proof (fun other => take_held (ts_schedule s) HL hook other) as Hh.
      pose proof (proj1 (schedule_step_held (ts_schedule s) (OpSchedTake hook) HL)) as Hc. cbn [schedule_step armed_by] in Hc.
      assert (fst (Schedule_TakeDelivery hook (ts_schedule s)) = queued_of (ts_schedule s) hook) as Eq by done.
      destruct (Schedule_TakeDelivery hook (ts_schedule s)) as [token sch'] eqn:E. cbn [fst snd] in *. subst token.
      rewrite app_nil_r in Hc. unfold valid_only in Hc.
      assert (forall other, token_IsValid (queued_of sch' other) = true ->
        tk_hook (queued_of sch' other) = other /\ was_due armed (ts_now s) (queued_of sch' other)) as Hqueued.
      { intros other. rewrite (proj2 (Hh other)). case_decide; [done|]. apply H4. }
      destruct (token_IsValid (queued_of (ts_schedule s) hook)) eqn:Ev; intros [= <-]; split; cbn; try done;
        try (intros other; rewrite (proj1 (Hh other)); apply H3).
      * unfold protocol_calls in *. cbn. rewrite bind_app. cbn. rewrite <- app_assoc. etransitivity; [|exact H1].
        apply submseteq_app; [done|]. rewrite app_assoc. by apply submseteq_app.
      * intros other token [?|Hin%list_elem_of_singleton]%elem_of_app; [by apply H5|]. injection Hin as -> ->. by apply H4.
      * etransitivity; [|exact H1]. apply submseteq_app; [done|]. by apply submseteq_app.
    + destruct (work =? debug_timeout_work)%nat; intros [= <-]; [|by split]. split; cbn; try done.
      * unfold protocol_calls in *. cbn. by rewrite bind_app, app_nil_r.
      * intros hook token [?|?%list_elem_of_singleton]%elem_of_app; [by apply H5|done].
  - destruct (WorkqueueThreadMain _); [|done]. cbn [mbind option_bind]. intros [= <-]. by split.
Qed.
Lemma history_more armed more s : history_ok armed s -> history_ok (armed ++ more) s.
Proof.
  intros [H1 H2 H3 H4 H5]. split.
  - rewrite fmap_app. by apply submseteq_inserts_r.
  - intros token d Hin. rewrite elem_of_app. left. by apply H2.
  - intros hook token d E. rewrite elem_of_app. destruct (H3 _ _ _ E). auto.
  - intros hook Hv. destruct (H4 hook Hv) as [? ?]. split; [done|]. by eapply was_due_mono.
  - intros hook token Hin. destruct (H5 hook token Hin) as [? ?]. split; [done|]. by eapply was_due_mono.
Qed.
Lemma scheduler_step_history armed step s s' : scheduler_ok s -> history_ok armed s -> scheduler_step step s = Some s' ->
  history_ok (armed ++ arming step s) s'.
Proof.
  intros Hok Hh. destruct step as [ns|operation| | |]; cbn [scheduler_step arming]; rewrite ?app_nil_r.
  - destruct (Z.leb_spec (ts_now s) ns); cbn [andb]; [|done]. destruct (Z.ltb_spec ns (2 ^ 63)); [|done]. intros [= <-].
    pose proof (get_jiffies_64_mono (ts_now s) ns ltac:(lia)) as Hm. apply (history_more _ []) in Hh. rewrite app_nil_r in Hh.
    destruct Hh as [H1 H2 H3 H4 H5]. split; cbn; try done.
    + intros hook Hv. destruct (H4 hook Hv) as [? Hd]. split; [done|]. apply (was_due_mono _ [] _ ns) in Hd; [|done]. by rewrite app_nil_r in Hd.
    + intros hook token Hin. destruct (H5 hook token Hin) as [? Hd]. split; [done|]. apply (was_due_mono _ [] _ ns) in Hd; [|done]. by rewrite app_nil_r in Hd.
  - destruct (ts_operation s) eqn:Eo; [|done]. intros [= <-].
    assert (forall token d, Sec_Arm token d ∈ operation_sections operation -> operation = Op_ArmProtocolTimer token d /\ token_IsValid token = true) as Harm.
    { intros token d. destruct operation as [t e|t|?| |?| |?|]; cbn; unfold ArmProtocolTimer, CancelProtocolTimer; try (destruct (token_IsValid t) eqn:Ev; cbn);
        set_solver. }
    assert ((operation_sections operation ≫= to_arm) = (match operation with Op_ArmProtocolTimer token d => if token_IsValid token then [(token, d)] else [] | _ => [] end).*1) as Et.
    { destruct operation as [t e|t|?| |?| |?|]; cbn; unfold ArmProtocolTimer, CancelProtocolTimer; try destruct (token_IsValid t); done. }
    pose proof Hh as [Hc _ _ _ _]. rewrite Eo, app_nil_r in Hc.
    destruct (history_more _ (match operation with Op_ArmProtocolTimer token d => if token_IsValid token then [(token, d)] else [] | _ => [] end) _ Hh) as [H1 H2 H3 H4 H5].
    split; cbn; try done.
    + rewrite Et, fmap_app, app_assoc. by apply submseteq_app.
    + intros token d Hin. apply Harm in Hin as [-> ->]. rewrite elem_of_app. right. by left.
  - by apply section_history.
  - by apply timer_thread_history.
  - by apply worker_history.
Qed.
Lemma scheduler_run_history steps : forall armed s, scheduler_ok s -> history_ok armed s ->
  history_ok (armed ++ armings steps s) (scheduler_run steps s).
Proof.
  induction steps as [|step steps IH]; intros armed s Hok Hh; [cbn; by rewrite app_nil_r|]. cbn.
  destruct (scheduler_step step s) as [s'|] eqn:E; cbn [default from_option id].
  - rewrite app_assoc. apply IH; [by eapply scheduler_step_ok|by apply scheduler_step_history].
  - rewrite app_assoc. apply IH; [done|]. by apply history_more.
Qed.

(** ** Progress *)

Definition thread_step (step : SchedulerStep) : bool :=
  match step with Ss_Section | Ss_TimerThread | Ss_Worker => true | _ => false end.
(** The number of steps that go on. *)
Fixpoint scheduler_progress (steps : list SchedulerStep) (s : TimerScheduler) : nat :=
  match steps with
  | [] => 0
  | step :: steps =>
      match scheduler_step step s with
      | Some s => S (scheduler_progress steps s)
      | None => scheduler_progress steps s
      end
  end.
Definition quiescent (s : TimerScheduler) : Prop :=
  section_step s = None /\ timer_thread_step s = None /\ timer_worker_step s = None.

Lemma scheduler_thread_ok step s s' : thread_step step = true -> scheduler_ok s -> scheduler_step step s = Some s' ->
  scheduler_ok s' /\ (work_left s' < work_left s)%nat.
Proof.
  intros Hstep Hok E. destruct step; try done; cbn [scheduler_step] in E;
    [by apply section_step_ok|by apply timer_thread_step_ok|by apply timer_worker_step_ok].
Qed.
Lemma progress_left steps : forall s, Forall thread_step steps -> scheduler_ok s -> (scheduler_progress steps s <= work_left s)%nat.
Proof.
  induction steps as [|step steps IH]; intros s Hs Hok; [cbn; lia|]. apply Forall_cons in Hs as [Hstep Hs]. cbn [scheduler_progress].
  destruct (scheduler_step step s) as [s'|] eqn:E; [|by apply IH].
  apply Is_true_true in Hstep. destruct (scheduler_thread_ok step s s' Hstep Hok E) as [Hok' Hlt]. specialize (IH s' Hs Hok'). lia.
Qed.
Lemma sections_bound sections : forall stopped, well_formed stopped sections ->
  (sum_list (section_weight <$> sections) + 2 * length stopped <= 11)%nat.
Proof.
  induction sections as [|section rest IH]; intros stopped Hw; [cbn in *; by subst; cbn; lia|].
  destruct section as [t|t|t|t delay|t e|token d|token|token|hook|]; cbn [well_formed] in Hw;
    try (destruct Hw as (_ & _ & Hw); specialize (IH _ Hw); cbn in *; lia);
    try (destruct Hw as (-> & -> & _); cbn; lia); try (destruct Hw as (-> & _ & ->); cbn; lia); try (destruct Hw as (-> & ->); cbn; lia).
  destruct Hw as (-> & [ [-> _]|[-> _] ]); cbn; lia.
Qed.
Lemma scheduler_work_bound s : scheduler_ok s -> (work_left s <= 86)%nat.
Proof.
  intros (_ & (stopped & Ht) & [Hq _ _]). unfold work_left. pose proof (sections_bound _ _ (tg_sections _ _ _ _ _ _ Ht)).
  pose proof (nodup_bound (tm_list (ts_manager s)) 7 (to_nodup _ (tg_timers _ _ _ _ _ _ Ht)) (tg_known _ _ _ _ _ _ Ht)).
  pose proof (ok_capacity _ (qr_ok _ _ Hq)) as Hc. rewrite (qr_capacity _ _ Hq) in Hc. unfold TimerWorkSlots in Hc.
  assert (phase_weight (ts_phase s) <= 6)%nat by (destruct (ts_phase s); cbn; lia).
  assert (worker_weight (ts_worker s) <= 2)%nat by (destruct (ts_worker s); cbn; lia). lia.
Qed.

(** Where no thread can go on, no operation waits, nothing that is armed is due, and every
    captured expiration has been taken. *)
Lemma quiescent_idle s : scheduler_ok s -> quiescent s -> ts_operation s = [] /\ forall hook,
  token_IsValid (queued_of (ts_schedule s) hook) = false /\
  forall token deadline, armed_of (ts_schedule s) hook = Some (token, deadline) -> get_jiffies_64 (ts_now s) < TimerDeadlineToJiffies deadline.
Proof.
  intros (HL & (stopped & Ht) & [Hq Hwk Hqd]) (Hs & Htt & Hw). pose proof Ht as [H1 H2 H3 H4 Hrun H5 H6 H7 H8 H9 H10 H11 H12].
  unfold timer_thread_step in Htt. destruct (tm_thread (ts_manager s)) as [|timer] eqn:Et; [|done].
  assert (TimerThreadMain (get_jiffies_64 (ts_now s)) (ts_manager s) = None) as Hwait by by destruct (TimerThreadMain _ _) as [ [? ?]|].
  assert (forall t, timer_stopped t (ts_manager s) = true) as Hstop.
  { intros t. unfold timer_stopped. destruct (ti_running _) eqn:Er; [|done]. apply (to_running _ H2) in Er. congruence. }
  assert (ts_operation s = []) as Ho.
  { unfold section_step in Hs. destruct (ts_operation s) as [|section rest]; [done|]. exfalso.
    destruct section as [t|t|t|t delay|t e|token d|token|token|hook|]; cbv zeta in Hs; try done.
    - change (timer_stopped t (ts_manager _)) with (timer_stopped t (ts_manager s)) in Hs. by rewrite Hstop in Hs.
    - by destruct (Schedule_Arm _ _ _). }
  split; [done|]. rewrite Ho in *. cbn [well_formed head] in *. subst stopped. intros hook. split.
  - apply not_true_iff_false. intros Hv. unfold timer_worker_step in Hw. pose proof (roomy_thread _ _ Hq) as Hth.
    destruct (ts_worker s) as [|work|]; [|done|].
    + rewrite Hwk in Hth. destruct (WorkqueueThreadMain (ts_queue s)); [done|].
      destruct (Hqd hook Hv) as [?|[?|Hp] ]; [by eapply Hth|done|]. rewrite H4 in Hp. done.
    + destruct Hwk as [work Hwk]. rewrite Hwk in Hth. by destruct (WorkqueueThreadMain (ts_queue s)).
  - intros token deadline Ea. destruct (H7 hook) as [Hin|[ [Hf _]|[?%elem_of_nil|?] ] ]; [by rewrite Ea| |congruence|done..].
    destruct (H5 hook Hin) as (t & d & Eh & Ex). rewrite Ea in Eh. injection Eh as <- <-. rewrite <- Ex. by apply waiting_not_due.
Qed.

(** Without an operation, an armed expiration is captured, then taken. *)
Definition on_its_way (hook : TimerHook) (token : TimerToken) (deadline : Z) (s : TimerScheduler) : Prop :=
  armed_of (ts_schedule s) hook = Some (token, deadline) \/
  armed_of (ts_schedule s) hook = None /\ queued_of (ts_schedule s) hook = token \/
  Call_ProtocolTimer hook token ∈ ts_calls s.
Lemma on_its_way_step hook token deadline step s s' : thread_step step = true -> scheduler_ok s -> ts_operation s = [] ->
  token_IsValid token = true -> scheduler_step step s = Some s' -> on_its_way hook token deadline s ->
  on_its_way hook token deadline s' /\ ts_operation s' = [] /\ ts_now s' = ts_now s.
Proof.
  intros Hstep (HL & (stopped & Ht) & _) Ho Hv E Hway. destruct step; try done; cbn [scheduler_step] in E.
  - unfold section_step in E. by rewrite Ho in E.
  - unfold timer_thread_step in E. destruct (tm_thread (ts_manager s)) as [|timer].
    { destruct (TimerThreadMain _ _) as [ [? ?]|]; [|done]. by injection E as <-. }
    destruct (ts_phase s); try by injection E as <-.
    destruct (protocol_timers !! timer) as [other|] eqn:Eh.
    + unfold ProtocolTimerCallback in E. pose proof (capture_held (ts_schedule s) HL other hook) as (_ & Ha & Hq).
      destruct (Schedule_CaptureExpiration other (ts_schedule s)) as [captured sch']. cbn [fst snd] in *. injection E as <-.
      split; [|done]. unfold on_its_way in *. cbn. rewrite Ha, Hq.
      destruct Hway as [Ea|[ [Ea Eq]|?] ]; [|right; left|by auto].
      * destruct (decide (other = hook)) as [->|]; [|by auto]. rewrite Ea. by auto.
      * rewrite Ea, Eq. destruct (decide (other = hook)) as [->|]; [by rewrite Ea|]. by destruct (armed_of _ other).
    + unfold AuxiliaryTimerCallback in E. destruct (timer =? debug_timeout_timer)%nat; [by injection E as <-|].
      destruct (timer =? userspace_ip_timeout_timer)%nat; injection E as <-; [|done]. split; [|done].
      unfold on_its_way in *. cbn. rewrite elem_of_app. tauto.
  - unfold timer_worker_step in E. destruct (ts_worker s) as [|work|].
    + destruct (WorkqueueThreadMain _); [|done]. by injection E as <-.
    + unfold RunTimerWork in E. destruct (protocol_timers !! work) as [other|].
      * pose proof (take_held (ts_schedule s) HL other hook) as [Ha Hq].
        assert (fst (Schedule_TakeDelivery other (ts_schedule s)) = queued_of (ts_schedule s) other) as Eq by done.
        destruct (Schedule_TakeDelivery other (ts_schedule s)) as [taken sch']. cbn [fst snd] in *. subst taken.
        destruct (token_IsValid (queued_of (ts_schedule s) other)) eqn:Et; injection E as <-; (split; [|done]); unfold on_its_way in *; cbn; rewrite Ha, Hq.
        -- rewrite elem_of_app. destruct Hway as [?|[ [? <-]|?] ]; [by auto| |by auto].
           destruct (decide (other = hook)) as [->|]; [|by auto]. right. right. right. by left.
        -- destruct Hway as [?|[ [? <-]|?] ]; [by auto| |by auto]. destruct (decide (other = hook)) as [->|]; [congruence|by auto].
      * destruct (work =? debug_timeout_work)%nat; injection E as <-; [|done]. split; [|done].
        unfold on_its_way in *. cbn. rewrite elem_of_app. tauto.
    + destruct (WorkqueueThreadMain _); [|done]. by injection E as <-.
Qed.
(** One that is not due stays armed. *)
Lemma not_due_step hook held step s s' : thread_step step = true -> scheduler_ok s -> ts_operation s = [] ->
  get_jiffies_64 (ts_now s) < TimerDeadlineToJiffies (snd held) -> scheduler_step step s = Some s' ->
  armed_of (ts_schedule s) hook = Some held -> armed_of (ts_schedule s') hook = Some held.
Proof.
  intros Hstep (HL & (stopped & Ht) & _) Ho Hlate E Ha. destruct step; try done; cbn [scheduler_step] in E.
  - unfold section_step in E. by rewrite Ho in E.
  - unfold timer_thread_step in E. destruct (tm_thread (ts_manager s)) as [|timer] eqn:Et.
    { destruct (TimerThreadMain _ _) as [ [? ?]|]; [|done]. by injection E as <-. }
    destruct (ts_phase s) eqn:Ep; try by injection E as <-.
    destruct (protocol_timers !! timer) as [other|] eqn:Eh.
    + apply protocol_timers_lookup in Eh as ->.
      unfold ProtocolTimerCallback in E. pose proof (capture_held (ts_schedule s) HL other hook) as (_ & Hc & _).
      destruct (Schedule_CaptureExpiration other (ts_schedule s)) as [captured sch']. cbn [fst snd] in *. injection E as <-. cbn. rewrite Hc.
      case_decide; [subst|done]. destruct held as [token deadline]. pose proof (tg_fired _ _ _ _ _ _ Ht hook token deadline (conj Et eq_refl) Ha). cbn in *. lia.
    + unfold AuxiliaryTimerCallback in E. destruct (timer =? debug_timeout_timer)%nat; [by injection E as <-|].
      by destruct (timer =? userspace_ip_timeout_timer)%nat; injection E as <-.
  - unfold timer_worker_step in E. destruct (ts_worker s) as [|work|].
    + destruct (WorkqueueThreadMain _); [|done]. by injection E as <-.
    + unfold RunTimerWork in E. destruct (protocol_timers !! work) as [other|].
      * pose proof (take_held (ts_schedule s) HL other hook) as [Hc _].
        destruct (Schedule_TakeDelivery other (ts_schedule s)) as [taken sch']. cbn [fst snd] in *.
        destruct (token_IsValid taken); injection E as <-; cbn; by rewrite Hc.
      * by destruct (work =? debug_timeout_work)%nat; injection E as <-.
    + destruct (WorkqueueThreadMain _); [|done]. by injection E as <-.
Qed.
Lemma on_its_way_run hook token deadline steps : forall s, Forall thread_step steps -> scheduler_ok s -> ts_operation s = [] ->
  token_IsValid token = true -> on_its_way hook token deadline s ->
  on_its_way hook token deadline (scheduler_run steps s) /\ ts_now (scheduler_run steps s) = ts_now s /\
  (get_jiffies_64 (ts_now s) < TimerDeadlineToJiffies deadline -> armed_of (ts_schedule s) hook = Some (token, deadline) ->
   armed_of (ts_schedule (scheduler_run steps s)) hook = Some (token, deadline)).
Proof.
  induction steps as [|step steps IH]; intros s Hs Hok Ho Hv Hway; [done|]. apply Forall_cons in Hs as [Hstep Hs]. cbn.
  destruct (scheduler_step step s) as [s'|] eqn:E; cbn [default from_option id]; [|by apply IH].
  apply Is_true_true in Hstep. destruct (on_its_way_step hook token deadline step s s' Hstep Hok Ho Hv E Hway) as (Hway' & Ho' & En).
  pose proof (fun Hlate => not_due_step hook (token, deadline) step s s' Hstep Hok Ho Hlate E) as Hlate. rewrite <- En in *.
  destruct (IH s' Hs (scheduler_step_ok _ _ _ Hok E) Ho' Hv Hway') as (? & ? & Hl). repeat split; [done..|]. intros Hnot Ha. by apply Hl, Hlate.
Qed.
Lemma armings_valid steps : forall s token deadline, (token, deadline) ∈ armings steps s -> token_IsValid token = true.
Proof.
  induction steps as [|step steps IH]; intros s token deadline; cbn; [by intros ?%elem_of_nil|].
  intros [Hin|Hin]%elem_of_app; [|by eapply IH]. revert Hin. unfold arming.
  destruct step as [|operation| | |]; try by intros ?%elem_of_nil. destruct operation; try by intros ?%elem_of_nil.
  destruct (ts_operation s); [|by intros ?%elem_of_nil]. destruct (token_IsValid token0) eqn:Ev; [|by intros ?%elem_of_nil].
  intros Hin%list_elem_of_singleton. by injection Hin as -> ->.
Qed.

(** ** Properties *)

(** C34. Protocol timers fire for what was armed, once and not early.  However operations,
    the timer thread, the worker and the clock interleave, the calls of the protocol
    timer's function carry tokens that were armed, each no more often than it was armed,
    with the hook of the token, and with a deadline that has passed when the call is
    made: an expiration that is being handled while its hook is armed again never takes the new token
    before its time. *)
Theorem timers_fire_once_due steps (s := scheduler_run steps scheduler_init) :
  protocol_calls s ⊆+ (armings steps scheduler_init).*1 /\
  forall hook token, Call_ProtocolTimer hook token ∈ ts_calls s ->
    tk_hook token = hook /\ exists deadline, (token, deadline) ∈ armings steps scheduler_init /\
      TimerDeadlineToJiffies deadline <= get_jiffies_64 (ts_now s).
Proof.
  destruct (scheduler_run_history steps [] scheduler_init scheduler_init_ok history_init) as [H1 _ _ _ H5]. fold s in H1, H5. split; [|exact H5].
  etransitivity; [|exact H1]. apply submseteq_inserts_r. done.
Qed.

(** C35. Timers fire.  After any steps, the three threads can take at most 86 more steps
    without a new operation or the clock, so no operation waits for ever; where none can
    go on, the operation has ended, and if none ran at the start, every protocol timer
    that was armed with a deadline that had passed has been delivered, and every other
    one is still armed.  The timer queue has room for each work when it is requested. *)
Theorem due_timers_fire earlier later (s := scheduler_run earlier scheduler_init) (after := scheduler_run later s) :
  Forall thread_step later ->
  (scheduler_progress later s <= 86)%nat /\
  (quiescent after -> ts_operation after = [] /\
     (ts_operation s = [] -> forall hook token deadline, armed_of (ts_schedule s) hook = Some (token, deadline) ->
        if TimerDeadlineToJiffies deadline <=? get_jiffies_64 (ts_now s) then Call_ProtocolTimer hook token ∈ ts_calls after
        else armed_of (ts_schedule after) hook = Some (token, deadline))) /\
  (forall work, ts_phase after = Tp_Queueing work -> was_accepted (fst (queue_work work (ts_queue after))) = true).
Proof.
  intros Hlater. assert (scheduler_ok s) as Hok by apply scheduler_run_ok, scheduler_init_ok.
  pose proof (scheduler_run_ok later s Hok) as Hok'. fold after in Hok'. pose proof (progress_left later s Hlater Hok). pose proof (scheduler_work_bound s Hok).
  split; [lia|]. split.
  - intros Hquiet. destruct (quiescent_idle after Hok' Hquiet) as [Ho' Hidle]. split; [done|]. intros Ho hook token deadline Ea.
    destruct (scheduler_run_history earlier [] scheduler_init scheduler_init_ok history_init) as [_ _ H3 _ _]. fold s in H3.
    assert (token_IsValid token = true) as Hv by (eapply armings_valid, H3, Ea).
    destruct (on_its_way_run hook token deadline later s Hlater Hok Ho Hv (or_introl Ea)) as (Hway & En & Hlate). fold after in Hway, En, Hlate.
    destruct (Hidle hook) as [Hq Hd]. destruct (Z.leb_spec (TimerDeadlineToJiffies deadline) (get_jiffies_64 (ts_now s))); [|by apply Hlate].
    destruct Hway as [Ha|[ [_ Eq]|?] ]; [|congruence|done]. specialize (Hd _ _ Ha). rewrite En in Hd. lia.
  - intros work Hp. destruct Hok' as (_ & (stopped & Ht) & [Hq _ _]). pose proof (tg_phase _ _ _ _ _ _ Ht) as Hph.
    destruct (tm_thread (ts_manager after)); [congruence|]. destruct Hph as (_ & _ & Hw). destruct (Hw work Hp) as [_ Hlt].
    by apply (roomy_queue_work TimerWorkSlots).
Qed.

(** The keepalive timer is due after the two thread runs; the other timer stays armed. *)
Definition example_timer_token (hook : TimerHook) : TimerToken := mk_token hook (mk_owner 0 1 0) 1.
Definition example_armed : list SchedulerStep :=
  [Ss_Operation (Op_ArmProtocolTimer (example_timer_token TimerHook_SendKeepalive) 10); Ss_Section; Ss_Section; Ss_Section;
   Ss_Operation (Op_ArmProtocolTimer (example_timer_token TimerHook_NewHandshake) 15); Ss_Section; Ss_Section; Ss_Section; Ss_Clock 12000000].
Definition example_threads : list SchedulerStep := replicate 8 Ss_TimerThread ++ replicate 8 Ss_Worker.
Lemma due_timers_fire_witness :
  let s := scheduler_run example_armed scheduler_init in
  let after := scheduler_run example_threads s in
  Forall thread_step example_threads /\ quiescent after /\ ts_operation s = [] /\ ts_operation after = [] /\
  Call_ProtocolTimer TimerHook_SendKeepalive (example_timer_token TimerHook_SendKeepalive) ∈ ts_calls after /\
  armed_of (ts_schedule after) TimerHook_NewHandshake = Some (example_timer_token TimerHook_NewHandshake, 15).
Proof.
  cbv zeta. assert (Forall thread_step example_threads) as Hsteps by (vm_compute; repeat constructor).
  assert (quiescent (scheduler_run example_threads (scheduler_run example_armed scheduler_init))) as Hquiet by (vm_compute; repeat split).
  assert (ts_operation (scheduler_run example_armed scheduler_init) = []) as Hidle by (vm_compute; reflexivity).
  destruct (due_timers_fire example_armed example_threads Hsteps) as (_ & Hdone & _). destruct (Hdone Hquiet) as [Hend Hall].
  split; [exact Hsteps|]. split; [exact Hquiet|]. split; [exact Hidle|]. split; [exact Hend|]. split.
  - exact (Hall Hidle TimerHook_SendKeepalive (example_timer_token TimerHook_SendKeepalive) 10 ltac:(vm_compute; reflexivity)).
  - exact (Hall Hidle TimerHook_NewHandshake (example_timer_token TimerHook_NewHandshake) 15 ltac:(vm_compute; reflexivity)).
Defined.
