(* ===== verification/TunnelClient.v ===== *)
(** * The tunnel client and the small parts of the socket interception

    Models [common/include/wgnx/tunnel_client.hpp], the client functions of the tunnel
    service, and from [src/mitm-sysmodule/src/] the headers [tunnel_flow_result.hpp],
    [tunnel_flow_submission_state.hpp], [tunnel_flow_readiness.hpp],
    [tunnel_completion_validation.hpp], [tunnel_datagram_receive.hpp],
    [tunnel_open_disposition.hpp], [tunnel_discovery_state.hpp] and the discovery service
    [tunnel_discovery_service.cpp].  The service itself, which another process runs, is
    the class [TunnelService]: what it answers is arbitrary. *)

From S2P Require Import Prelude Endian Messages PacketQueue Platform Session Base64 InnerPacket Timers.
From S2P Require Import Crypto Device Data Identity Admission Handshake Peer PeerController RuntimeEvents.
From S2P Require Import FlowPolicy FlowPlane.
Local Open Scope Z_scope.

(** ** The service and its client functions *)

(** The fields of [Capabilities] that the client reads. *)
Record TunnelCapabilities := mk_capabilities {
  ca_api_version : Z;
  ca_capability_mask : Z;
  ca_maximum_udp_payload_bytes : Z
}.

(** A function gives [None] where the call fails.  An answer that is written to a buffer
    of the caller is the list of what is written from its start on.  A handle of 0 is not
    valid.  [completion_signalled] tells if the event of a handle is signalled. *)
Class TunnelService (T : Type) := {
  sm_has_service : T -> option bool * T;
  sm_get_service : T -> option unit * T;
  service_capabilities : T -> option TunnelCapabilities * T;
  service_open_client : T -> option Z * T;
  service_open_flow : Z -> OpenConnectedUdpFlowRequest -> T -> option OpenConnectedUdpFlowResult * T;
  service_completion_event : Z -> T -> option Z * T;
  service_send_batch : Z -> list DatagramDescriptor -> bytes -> T -> option (list ProtocolStatus) * T;
  service_receive_completions : Z -> T -> option (Z * ProtocolStatus * list CompletionRecord * bytes) * T;
  service_close_flow : Z -> Z -> T -> option ProtocolStatus * T;
  service_close_client : Z -> T -> T;
  service_close_root : T -> T;
  completion_signalled : T -> Z -> bool
}.

(** What a call writes to the start of an array. *)
Definition write_over {A} (written array : list A) : list A :=
  take (length array) (written ++ drop (length written) array).

Section Client.
Context {T : Type} `{TunnelService T}.

(** [ScopedRootService]: whether it is active.  [ScopedClient]: the handle of an active one. *)
Definition root_Open (active : bool) (t : T) : bool * bool * T :=
  if active then (true, active, t)
  else let '(opened, t) := sm_get_service t in (bool_decide (opened = Some tt), bool_decide (opened = Some tt), t).
Definition root_Close (active : bool) (t : T) : T := if active then service_close_root t else t.
Definition client_Close (client : option Z) (t : T) : T :=
  match client with None => t | Some client => service_close_client client t end.
Definition client_Adopt (service : Z) : option Z := if service =? 0 then None else Some service.

Definition GetTunCapabilities (root : bool) (t : T) : option TunnelCapabilities * T :=
  if negb root then (None, t) else service_capabilities t.
Definition OpenTunnelClient (root : bool) (t : T) : option (option Z) * T :=
  if negb root then (None, t) else let '(child, t) := service_open_client t in (client_Adopt <$> child, t).
Definition GetCompletionEvent (client : option Z) (t : T) : option Z * T :=
  match client with None => (None, t) | Some client => service_completion_event client t end.
Definition client_OpenConnectedUdpFlow (client : option Z) (request : OpenConnectedUdpFlowRequest) (t : T)
    : option OpenConnectedUdpFlowResult * T :=
  match client with None => (None, t) | Some client => service_open_flow client request t end.
Definition MaximumBatchEntries : nat := 8.
Definition SendUdpDatagramBatch (client : option Z) (descriptors : list DatagramDescriptor) (payload : bytes)
    (disposition_count : nat) (t : T) : option (list ProtocolStatus) * T :=
  match client with
  | None => (None, t)
  | Some client =>
      if (MaximumBatchEntries <? length descriptors)%nat || (disposition_count <? length descriptors)%nat then (None, t)
      else service_send_batch client descriptors payload t
  end.
Definition client_ReceiveCompletions (client : option Z) (record_capacity : nat) (t : T)
    : option (Z * ProtocolStatus * list CompletionRecord * bytes) * T :=
  match client with
  | None => (None, t)
  | Some client => if (MaximumBatchEntries <? record_capacity)%nat then (None, t) else service_receive_completions client t
  end.
Definition client_CloseFlow (client : option Z) (flow : Z) (t : T) : option ProtocolStatus * T :=
  match client with None => (None, t) | Some client => service_close_flow client flow t end.
End Client.

(** ** Flows of sockets *)

Record TunnelFlowEndpoint := mk_flow_endpoint { te_address : bytes; te_port : Z }.
#[export] Instance flow_endpoint_eq_dec : EqDecision TunnelFlowEndpoint.
Proof. solve_decision. Defined.
Definition flow_endpoint_init : TunnelFlowEndpoint := mk_flow_endpoint (zeros 4) 0.

Inductive TunnelFlowResult :=
  | TunnelFlow_Opened
  | TunnelFlow_RouteNotCovered
  | TunnelFlow_TunnelUnavailable
  | TunnelFlow_BlockedByPolicy
  | TunnelFlow_SocketError
  | TunnelFlow_MessageTooLarge
  | TunnelFlow_QueueFull
  | TunnelFlow_WouldBlock
  | TunnelFlow_Closed.
#[export] Instance flow_result_eq_dec : EqDecision TunnelFlowResult.
Proof. solve_decision. Defined.

Record TunnelFlowSubmissionState := mk_submission { su_writable : bool; su_closed : bool; su_queued : nat }.
#[export] Instance eta_submission : Eta TunnelFlowSubmissionState := fun r =>
  mk_submission (su_writable r) (su_closed r) (su_queued r).
Definition submission_init : TunnelFlowSubmissionState := mk_submission true false 0.
Definition CanAccept (capacity : nat) (s : TunnelFlowSubmissionState) : bool :=
  negb (su_closed s) && su_writable s && (su_queued s <? capacity)%nat.
Definition CanSubmit (s : TunnelFlowSubmissionState) : bool :=
  negb (su_closed s) && su_writable s && negb (su_queued s =? 0)%nat.
Definition submission_Enqueue (s : TunnelFlowSubmissionState) : TunnelFlowSubmissionState := s <| su_queued ::= S |>.
Definition submission_Retire (count : nat) (s : TunnelFlowSubmissionState) : TunnelFlowSubmissionState :=
  s <| su_queued ::= fun queued => (queued - count)%nat |>.
Definition NoteQueueFull (s : TunnelFlowSubmissionState) : TunnelFlowSubmissionState := s <| su_writable := false |>.
Definition NoteWritable (s : TunnelFlowSubmissionState) : TunnelFlowSubmissionState :=
  if negb (su_closed s) then s <| su_writable := true |> else s.
Definition submission_Close (s : TunnelFlowSubmissionState) : TunnelFlowSubmissionState :=
  (s <| su_closed := true |>) <| su_writable := false |>.

(** The bits of [poll.h] (POSIX leaves their values to the implementation; the code and
    this model only test, set and clear them). *)
Definition POLLIN : Z := 1.
Definition POLLOUT : Z := 4.
Definition POLLHUP : Z := 16.
Record TunnelFlowReadiness := mk_readiness { rd_inbound_available : bool; rd_outbound_admission_available : bool; rd_closed : bool }.
Definition Revents (requested_events : Z) (r : TunnelFlowReadiness) : Z :=
  if rd_closed r then POLLHUP
  else
    let revents := 0 in
    let revents := if rd_inbound_available r && negb (Z.land requested_events POLLIN =? 0) then Z.lor revents POLLIN else revents in
    if rd_outbound_admission_available r && negb (Z.land requested_events POLLOUT =? 0) then Z.lor revents POLLOUT else revents.

Definition ValidateTunnelCompletionDrain (count : Z) (record_capacity : nat) (records : list CompletionRecord)
    (payload_capacity : nat) : bool :=
  if (Z.of_nat record_capacity <? count) || (Z.of_nat (length records) <? count) then false
  else
    forallb (fun record =>
      match cr_type record with
      | CompletionType_InboundDatagram =>
          negb ((Z.of_nat MaximumUdpPayloadStorageBytes <? cr_payload_size record)
                || (Z.of_nat payload_capacity <? cr_payload_offset record)
                || (Z.of_nat payload_capacity - cr_payload_offset record <? cr_payload_size record))
      | _ => true
      end) (take (Z.to_nat count) records).

(** The bytes that are copied to the output; the slot is left unoccupied by the caller. *)
Record TunnelDatagramReceiveOutcome := mk_receive_outcome { rc_size : nat; rc_truncated : bool }.
Definition ReceiveTunneledDatagram (output_size : nat) (input : bytes) : TunnelDatagramReceiveOutcome * bytes :=
  let copied := Nat.min output_size (length input) in
  (mk_receive_outcome copied (negb (copied =? length input)%nat), take copied input).

Inductive TunnelOpenDisposition := Disposition_Tunnel | Disposition_Direct | Disposition_Blocked | Disposition_Error.
Definition ClassifyTunnelOpenStatus (status : ProtocolStatus) : TunnelOpenDisposition :=
  match status with
  | ProtocolStatus_Success => Disposition_Tunnel
  | ProtocolStatus_RouteNotCovered | ProtocolStatus_PeerUnavailable | ProtocolStatus_TransportUnavailable => Disposition_Direct
  | ProtocolStatus_TunnelBlockedByPolicy => Disposition_Blocked
  | _ => Disposition_Error
  end.
Definition MapOpenStatus (status : ProtocolStatus) : TunnelFlowResult :=
  match ClassifyTunnelOpenStatus status with
  | Disposition_Tunnel => TunnelFlow_Opened
  | Disposition_Direct =>
      if bool_decide (status = ProtocolStatus_RouteNotCovered) then TunnelFlow_RouteNotCovered else TunnelFlow_TunnelUnavailable
  | Disposition_Blocked => TunnelFlow_BlockedByPolicy
  | Disposition_Error => TunnelFlow_SocketError
  end.

(** ** Discovery of the service *)

Inductive TunnelAvailabilityState := Availability_Bypass | Availability_DiscoveryPending | Availability_Ready.
#[export] Instance availability_eq_dec : EqDecision TunnelAvailabilityState.
Proof. solve_decision. Defined.
Record TunnelDiscoveryBackoff := mk_backoff {
  bo_state : TunnelAvailabilityState;
  bo_next_retry_nanoseconds : Z;
  bo_failure_count : Z
}.
#[export] Instance eta_backoff : Eta TunnelDiscoveryBackoff := fun r =>
  mk_backoff (bo_state r) (bo_next_retry_nanoseconds r) (bo_failure_count r).
Definition backoff_init : TunnelDiscoveryBackoff := mk_backoff Availability_Bypass 0 0.
Definition InitialRetryNanoseconds : Z := 250000000.
Definition MaximumShift : Z := 4.
Definition backoff_SaturatingAdd (left right : Z) : Z :=
  if 2 ^ 64 - 1 - right <? left then 2 ^ 64 - 1 else left + right.
Definition RetryDelayNanoseconds (b : TunnelDiscoveryBackoff) : Z :=
  let shift := if 0 <? bo_failure_count b then bo_failure_count b - 1 else 0 in
  let clamped_shift := if shift <? MaximumShift then shift else MaximumShift in
  u64 (Z.shiftl InitialRetryNanoseconds clamped_shift).
Definition RequestForTraffic (now : Z) (b : TunnelDiscoveryBackoff) : bool * TunnelDiscoveryBackoff :=
  if negb (bool_decide (bo_state b = Availability_Bypass)) || (now <? bo_next_retry_nanoseconds b) then (false, b)
  else (true, b <| bo_state := Availability_DiscoveryPending |>).
Definition CompleteSuccess (b : TunnelDiscoveryBackoff) : TunnelDiscoveryBackoff :=
  ((b <| bo_state := Availability_Ready |>) <| bo_failure_count := 0 |>) <| bo_next_retry_nanoseconds := 0 |>.
Definition CompleteFailure (now : Z) (b : TunnelDiscoveryBackoff) : TunnelDiscoveryBackoff :=
  let b := b <| bo_state := Availability_Bypass |> in
  let b := if negb (bo_failure_count b =? 2 ^ 32 - 1) then b <| bo_failure_count ::= fun count => count + 1 |> else b in
  b <| bo_next_retry_nanoseconds := backoff_SaturatingAdd now (RetryDelayNanoseconds b) |>.
Definition InvalidateReadyClient (now : Z) (b : TunnelDiscoveryBackoff) : TunnelDiscoveryBackoff :=
  ((b <| bo_state := Availability_Bypass |>) <| bo_failure_count := 0 |>)
    <| bo_next_retry_nanoseconds := backoff_SaturatingAdd now InitialRetryNanoseconds |>.

Record TunnelDiscoveryService := mk_discovery {
  ds_backoff : TunnelDiscoveryBackoff;
  ds_visible_state : TunnelAvailabilityState;
  ds_started : bool
}.
#[export] Instance eta_discovery : Eta TunnelDiscoveryService := fun r =>
  mk_discovery (ds_backoff r) (ds_visible_state r) (ds_started r).
Definition discovery_init : TunnelDiscoveryService := mk_discovery backoff_init Availability_Bypass false.
Definition PublishStateLocked (d : TunnelDiscoveryService) : TunnelDiscoveryService :=
  d <| ds_visible_state := bo_state (ds_backoff d) |>.
Definition discovery_GetState (d : TunnelDiscoveryService) : TunnelAvailabilityState := ds_visible_state d.
(** The sections under the mutex.  [Start] is followed by a request for traffic if it
    returns [true], a request by a signal to the worker, a report by an invalidation. *)
Definition discovery_Start (d : TunnelDiscoveryService) : bool * TunnelDiscoveryService :=
  if ds_started d then (false, d) else (true, d <| ds_started := true |>).
Definition discovery_Stop (d : TunnelDiscoveryService) : TunnelDiscoveryService :=
  PublishStateLocked ((d <| ds_started := false |>) <| ds_backoff := backoff_init |>).
Definition RequestForInterceptedTraffic (now : Z) (d : TunnelDiscoveryService) : bool * TunnelDiscoveryService :=
  if negb (ds_started d) then (false, d)
  else
    let '(scheduled, b) := RequestForTraffic now (ds_backoff d) in
    let d := d <| ds_backoff := b |> in
    (scheduled, if scheduled then PublishStateLocked d else d).
Definition ReportTunnelClientFailure (now : Z) (d : TunnelDiscoveryService) : bool * TunnelDiscoveryService :=
  if negb (ds_started d) then (false, d)
  else (true, PublishStateLocked (d <| ds_backoff ::= InvalidateReadyClient now |>)).
Definition CompleteDiscoverySuccess (d : TunnelDiscoveryService) : TunnelDiscoveryService :=
  if negb (ds_started d) || negb (bool_decide (bo_state (ds_backoff d) = Availability_DiscoveryPending)) then d
  else PublishStateLocked (d <| ds_backoff ::= CompleteSuccess |>).
Definition CompleteDiscoveryFailure (now : Z) (d : TunnelDiscoveryService) : TunnelDiscoveryService :=
  if negb (ds_started d) || negb (bool_decide (bo_state (ds_backoff d) = Availability_DiscoveryPending)) then d
  else PublishStateLocked (d <| ds_backoff ::= CompleteFailure now |>).
