(* ===== verification/TunnelWorker.v ===== *)
(** * The worker of the socket interception

    Models [src/mitm-sysmodule/src/tunnel_flow_worker.cpp] and its header: the flows of
    intercepted sockets, their queues of datagrams, the operations that sockets ask for,
    and the thread that carries them out with the tunnel service of TunnelClient.v.

    Only the worker's thread uses [WorkerData].  The rest of [TunnelWorker] is shared:
    an operation lives on the stack of the thread that called, [w_store] until the call
    returns, and the queues hold pointers to it.  A step is a section of one thread; a
    function gives [None] where the code aborts, or reads or writes outside of an array or
    an operation that no longer exists.  The counters, which are only logged, are left
    out.  Two logs record what the service is given and gives, and what calls return. *)

From stdpp Require Import gmap.
From S2P Require Import Prelude Endian Messages PacketQueue Platform Session Base64 InnerPacket Timers.
From S2P Require Import Crypto Device Data Identity Admission Handshake Peer PeerController RuntimeEvents.
From S2P Require Import FlowPolicy FlowPlane TunnelClient.
Local Open Scope Z_scope.

Definition MaximumSockets : nat := 4.
Definition MaximumInboundDatagramsPerSocket : nat := 4.
Definition MaximumQueuedOutboundDatagrams : nat := 8.
Definition MaximumQueuedOutboundDatagramsPerSocket : nat := 4.
Definition MaximumBatchEntriesPerSubmission : nat := 4.
Definition MaximumQueuedOutboundPayloadBytes : nat := 1500 - 20 - 8.
Definition RequiredTunnelCapabilities : Z := foldl Z.lor 0 (Z.shiftl 1 <$> [0; 1; 3; 2; 5]).
Definition TunApiVersion : Z := 3.

(** ** Flows *)

Record InboundDatagram := mk_inbound_datagram { id_occupied : bool; id_remote : TunnelFlowEndpoint; id_payload : bytes }.
#[export] Instance eta_inbound_datagram : Eta InboundDatagram := fun r =>
  mk_inbound_datagram (id_occupied r) (id_remote r) (id_payload r).
Definition inbound_datagram_init : InboundDatagram := mk_inbound_datagram false flow_endpoint_init [].
Record OutboundDatagram := mk_outbound_datagram { od_occupied : bool; od_payload : bytes }.
#[export] Instance eta_outbound_datagram : Eta OutboundDatagram := fun r => mk_outbound_datagram (od_occupied r) (od_payload r).
Definition outbound_datagram_init : OutboundDatagram := mk_outbound_datagram false [].

Definition INVALID_HANDLE : Z := 0.
Record FlowEntry := mk_flow_entry {
  fe_occupied : bool;
  fe_owner : Z;
  fe_descriptor : Z;
  fe_client : option Z;
  fe_completion_handle : Z;
  fe_flow : Z;
  fe_remote : TunnelFlowEndpoint;
  fe_submission : TunnelFlowSubmissionState;
  fe_inbound : list InboundDatagram;
  fe_outbound_slots : list nat
}.
#[export] Instance eta_flow_entry : Eta FlowEntry := fun r =>
  mk_flow_entry (fe_occupied r) (fe_owner r) (fe_descriptor r) (fe_client r) (fe_completion_handle r) (fe_flow r) (fe_remote r)
    (fe_submission r) (fe_inbound r) (fe_outbound_slots r).
Definition flow_entry_init : FlowEntry :=
  mk_flow_entry false 0 0 None INVALID_HANDLE 0 flow_endpoint_init submission_init
    (replicate MaximumInboundDatagramsPerSocket inbound_datagram_init) (replicate MaximumQueuedOutboundDatagramsPerSocket 0%nat).

(** What the service is given and gives, by the index of the flow. *)
Inductive WorkerEvent :=
  | Ev_Opened (flow : nat) (owner descriptor handle : Z) (remote : TunnelFlowEndpoint)
  | Ev_Reset (flow : nat)
  | Ev_Sent (flow : nat) (payload : bytes)
  | Ev_Batch (flow : nat) (client : option Z) (descriptors : list DatagramDescriptor) (payload : bytes) (statuses : list ProtocolStatus)
  | Ev_Completion (flow : nat) (completion : CompletionRecord) (payload : bytes)
  | Ev_Closed (flow : nat)
  | Ev_Received (flow : nat) (capacity : nat) (remote : TunnelFlowEndpoint) (output : bytes).

(** ** Operations *)

Record TunnelReceiveResult := mk_receive_result { rr_result : TunnelFlowResult; rr_size : nat; rr_remote : TunnelFlowEndpoint }.
#[export] Instance eta_receive_result : Eta TunnelReceiveResult := fun r => mk_receive_result (rr_result r) (rr_size r) (rr_remote r).
Inductive OperationType := Op_Open | Op_Send | Op_Receive | Op_Poll | Op_Close | Op_CloseOwner.
#[export] Instance operation_type_eq_dec : EqDecision OperationType.
Proof. solve_decision. Defined.
Record Operation := mk_operation {
  op_type : OperationType;
  op_owner : Z;
  op_descriptor : Z;
  op_remote : TunnelFlowEndpoint;
  op_input : bytes;
  op_output_size : nat;
  op_output : bytes;
  op_events : Z;
  op_revents : Z;
  op_timeout_milliseconds : Z;
  op_deadline_nanoseconds : Z;
  op_result : TunnelFlowResult;
  op_receive : TunnelReceiveResult;
  op_complete : bool
}.
#[export] Instance eta_operation : Eta Operation := fun r =>
  mk_operation (op_type r) (op_owner r) (op_descriptor r) (op_remote r) (op_input r) (op_output_size r) (op_output r) (op_events r)
    (op_revents r) (op_timeout_milliseconds r) (op_deadline_nanoseconds r) (op_result r) (op_receive r) (op_complete r).
Definition operation_init (type : OperationType) (owner descriptor : Z) : Operation :=
  mk_operation type owner descriptor flow_endpoint_init [] 0 [] 0 0 0 (-1) TunnelFlow_SocketError
    (mk_receive_result TunnelFlow_WouldBlock 0 flow_endpoint_init) false.

(** ** The state *)

Record WorkerData (T : Type) := mk_worker_data {
  wd_service : T;
  wd_root : bool;
  wd_maximum_udp_payload_bytes : nat;
  wd_flows : list FlowEntry;
  wd_outbound : list OutboundDatagram;
  wd_outbound_count : Z;
  wd_completions : list CompletionRecord;
  wd_completion_payload : bytes;
  wd_dispositions : list ProtocolStatus;
  wd_log : list WorkerEvent
}.
Arguments mk_worker_data {T}.
Arguments wd_service {T}. Arguments wd_root {T}. Arguments wd_maximum_udp_payload_bytes {T}. Arguments wd_flows {T}.
Arguments wd_outbound {T}. Arguments wd_outbound_count {T}. Arguments wd_completions {T}. Arguments wd_completion_payload {T}.
Arguments wd_dispositions {T}. Arguments wd_log {T}.
#[export] Instance eta_worker_data {T} : Eta (WorkerData T) := fun r =>
  mk_worker_data (wd_service r) (wd_root r) (wd_maximum_udp_payload_bytes r) (wd_flows r) (wd_outbound r) (wd_outbound_count r)
    (wd_completions r) (wd_completion_payload r) (wd_dispositions r) (wd_log r).
Definition worker_data_init {T} (service : T) : WorkerData T :=
  mk_worker_data service false 0 (replicate MaximumSockets flow_entry_init)
    (replicate MaximumQueuedOutboundDatagrams outbound_datagram_init) 0 (replicate MaximumBatchEntries completion_init)
    (zeros (MaximumBatchEntries * MaximumUdpPayloadStorageBytes))
    (replicate MaximumBatchEntriesPerSubmission ProtocolStatus_Success) [].

(** The thread that called: it signals the worker, then waits for the operation. *)
Inductive CallerPhase := Caller_Signalling | Caller_Waiting.
#[export] Instance caller_phase_eq_dec : EqDecision CallerPhase.
Proof. solve_decision. Defined.
(** Where the worker's thread is.  [Worker_Idle] is no thread, [Worker_Exited] one that
    has ended and is not joined yet. *)
Inductive WorkerPhase :=
  | Worker_Idle
  | Worker_Top
  | Worker_Invalidate (next : WorkerPhase)
  | Worker_Discovery (next : WorkerPhase)
  | Worker_Discover (next : WorkerPhase)
  | Worker_Discovered (found : option nat) (next : WorkerPhase)
  | Worker_Report (next : WorkerPhase)
  | Worker_RequestInvalidation (next : WorkerPhase)
  | Worker_Drain (flow : nat)
  | Worker_DrainMore (flow : nat)
  | Worker_Polls (next : WorkerPhase)
  | Worker_Take
  | Worker_Dispatch (operation : nat)
  | Worker_Signal (operation : nat)
  | Worker_Submit (flow : nat) (made_progress : bool)
  | Worker_Clear
  | Worker_Look
  | Worker_Wait
  | Worker_Exited.
(** The thread in [Stop]. *)
Inductive StopperPhase := Stopper_None | Stopper_Signalling | Stopper_Joining.
Record TunnelWorker (T : Type) := mk_worker {
  w_data : WorkerData T;
  w_now : Z;
  w_discovery : TunnelDiscoveryService;
  w_started : bool;
  w_stop_requested : bool;
  w_wake_event : bool;
  w_stop_event : bool;
  w_discovery_requested : bool;
  w_invalidation_requested : bool;
  w_operations : list nat;
  w_pending_polls : list nat;
  w_phase : WorkerPhase;
  w_store : gmap nat Operation;
  w_callers : gmap nat CallerPhase;
  w_requesters : nat;
  w_signallers : nat;
  w_stopper : StopperPhase;
  w_returned : list (nat * Operation)
}.
Arguments mk_worker {T}.
Arguments w_data {T}. Arguments w_now {T}. Arguments w_discovery {T}. Arguments w_started {T}. Arguments w_stop_requested {T}.
Arguments w_wake_event {T}. Arguments w_stop_event {T}. Arguments w_discovery_requested {T}. Arguments w_invalidation_requested {T}.
Arguments w_operations {T}. Arguments w_pending_polls {T}. Arguments w_phase {T}. Arguments w_store {T}. Arguments w_callers {T}.
Arguments w_requesters {T}. Arguments w_signallers {T}. Arguments w_stopper {T}. Arguments w_returned {T}.
#[export] Instance eta_worker {T} : Eta (TunnelWorker T) := fun r =>
  mk_worker (w_data r) (w_now r) (w_discovery r) (w_started r) (w_stop_requested r) (w_wake_event r) (w_stop_event r)
    (w_discovery_requested r) (w_invalidation_requested r) (w_operations r) (w_pending_polls r) (w_phase r) (w_store r) (w_callers r)
    (w_requesters r) (w_signallers r) (w_stopper r) (w_returned r).
Definition worker_init {T} (service : T) : TunnelWorker T :=
  mk_worker (worker_data_init service) 0 discovery_init false false false false false false [] [] Worker_Idle ∅ ∅ 0 0 Stopper_None [].

Section Worker.
Context {T : Type} `{TunnelService T}.
Implicit Types (d : WorkerData T) (w : TunnelWorker T).

(** ** Flows and their queues *)

Definition entry_at (flow : nat) d : FlowEntry := default flow_entry_init (wd_flows d !! flow).
Definition on_flow (flow : nat) (f : FlowEntry -> FlowEntry) d : WorkerData T := d <| wd_flows ::= alter f flow |>.
Definition log_event (event : WorkerEvent) d : WorkerData T := d <| wd_log ::= fun log => log ++ [event] |>.

Definition SameEndpoint (endpoint : Ipv4Endpoint) (value : TunnelFlowEndpoint) : bool :=
  (ie_port endpoint =? te_port value) && bool_decide (ie_address endpoint = te_address value).
Definition ToEndpoint (value : Ipv4Endpoint) : TunnelFlowEndpoint := mk_flow_endpoint (ie_address value) (ie_port value).

Definition FindFlow (owner descriptor : Z) d : option nat :=
  find_index (fun flow => fe_occupied flow && (fe_owner flow =? owner) && (fe_descriptor flow =? descriptor)) (wd_flows d).
Definition AllocateFlow (owner descriptor : Z) d : option nat * WorkerData T :=
  match FindFlow owner descriptor d with
  | Some existing => (Some existing, d)
  | None =>
      match find_index (fun flow => negb (fe_occupied flow)) (wd_flows d) with
      | Some flow =>
          (Some flow, on_flow flow (fun entry =>
             ((entry <| fe_occupied := true |>) <| fe_owner := owner |>) <| fe_descriptor := descriptor |>) d)
      | None => (None, d)
      end
  end.

(** The slots at the given indices of the flow's queue are given back. *)
Fixpoint release_slots (slots : list nat) (indices : list nat) d : option (WorkerData T) :=
  match indices with
  | [] => Some d
  | index :: indices =>
      slot ← slots !! index;
      datagram ← wd_outbound d !! slot;
      if od_occupied datagram
      then release_slots slots indices
             ((d <| wd_outbound ::= <[slot := outbound_datagram_init]> |>) <| wd_outbound_count ::= fun count => u64 (count - 1) |>)
      else None
  end.
Definition ReleaseQueuedOutbound (flow : nat) d : option (WorkerData T) :=
  release_slots (fe_outbound_slots (entry_at flow d)) (seq 0 (su_queued (fe_submission (entry_at flow d)))) d.
Definition DiscardQueuedOutbound (flow : nat) d : option (WorkerData T) :=
  let queued := su_queued (fe_submission (entry_at flow d)) in
  d ← ReleaseQueuedOutbound flow d;
  Some (if negb (queued =? 0)%nat then on_flow flow (fun entry => entry <| fe_submission ::= submission_Retire queued |>) d else d).
Definition ResetFlow (flow : nat) d : option (WorkerData T) :=
  d ← DiscardQueuedOutbound flow d;
  let d := d <| wd_service ::= client_Close (fe_client (entry_at flow d)) |> in
  Some (log_event (Ev_Reset flow) (on_flow flow (fun _ => flow_entry_init) d)).
(** A loop over the flows. *)
Fixpoint each_flow (body : nat -> WorkerData T -> option (WorkerData T)) (flows : list nat) d : option (WorkerData T) :=
  match flows with
  | [] => Some d
  | flow :: flows => d ← body flow d; each_flow body flows d
  end.
Definition ResetAllFlows d : option (WorkerData T) :=
  each_flow (fun flow d => if fe_occupied (entry_at flow d) then ResetFlow flow d else Some d) (seq 0 MaximumSockets) d.
Definition CloseFlow (flow : nat) d : option (WorkerData T) :=
  let entry := entry_at flow d in
  let d :=
    if fe_occupied entry && negb (su_closed (fe_submission entry)) && bool_decide (is_Some (fe_client entry))
    then d <| wd_service ::= fun t => snd (client_CloseFlow (fe_client entry) (fe_flow entry) t) |> else d in
  ResetFlow flow d.

Definition AllocateOutbound d : option nat * WorkerData T :=
  match find_index (fun datagram => negb (od_occupied datagram)) (wd_outbound d) with
  | Some slot =>
      (Some slot, (d <| wd_outbound ::= alter (fun datagram => datagram <| od_occupied := true |>) slot |>)
                    <| wd_outbound_count ::= fun count => u64 (count + 1) |>)
  | None => (None, d)
  end.
Definition admission_available (flow : nat) d : bool :=
  CanAccept MaximumQueuedOutboundDatagramsPerSocket (fe_submission (entry_at flow d))
  && (wd_outbound_count d <? Z.of_nat (length (wd_outbound d))).
Definition QueueOutbound (flow : nat) (payload : bytes) d : option (bool * WorkerData T) :=
  if negb (CanAccept MaximumQueuedOutboundDatagramsPerSocket (fe_submission (entry_at flow d)))
     || (wd_outbound_count d =? Z.of_nat (length (wd_outbound d))) then Some (false, d)
  else
    match AllocateOutbound d with
    | (None, d) => Some (false, d)
    | (Some slot, d) =>
        if (MaximumQueuedOutboundPayloadBytes <? length payload)%nat then None
        else
          let d := d <| wd_outbound ::= alter (fun datagram => datagram <| od_payload := payload |>) slot |> in
          let queued := su_queued (fe_submission (entry_at flow d)) in
          if (length (fe_outbound_slots (entry_at flow d)) <=? queued)%nat then None
          else
            let d := on_flow flow (fun entry =>
                       (entry <| fe_outbound_slots ::= <[queued := slot]> |>) <| fe_submission ::= submission_Enqueue |>) d in
            Some (true, log_event (Ev_Sent flow payload) d)
    end.

(** [slots[index] = slots[index + count]] for the indices in turn. *)
Fixpoint shift_slots (count : nat) (indices slots : list nat) : option (list nat) :=
  match indices with
  | [] => Some slots
  | index :: indices => slot ← slots !! (index + count)%nat; shift_slots count indices (<[index := slot]> slots)
  end.
Definition RetireQueuedOutboundPrefix (flow count : nat) d : option (WorkerData T) :=
  let queued := su_queued (fe_submission (entry_at flow d)) in
  if (queued <? count)%nat then None
  else
    d ← release_slots (fe_outbound_slots (entry_at flow d)) (seq 0 count) d;
    slots ← shift_slots count (seq 0 (queued - count)) (fe_outbound_slots (entry_at flow d));
    Some (on_flow flow (fun entry => (entry <| fe_outbound_slots := slots |>) <| fe_submission ::= submission_Retire count |>) d).

Definition free_inbound (flow : nat) d : option nat :=
  find_index (fun datagram => negb (id_occupied datagram)) (fe_inbound (entry_at flow d)).
Definition TakeInbound (flow : nat) d : option nat := find_index id_occupied (fe_inbound (entry_at flow d)).
Definition set_inbound (flow slot : nat) (datagram : InboundDatagram) d : WorkerData T :=
  on_flow flow (fun entry => entry <| fe_inbound ::= <[slot := datagram]> |>) d.

(** ** Draining completions *)

Definition close_submission (flow : nat) d : option (WorkerData T) :=
  d ← DiscardQueuedOutbound flow (on_flow flow (fun entry => entry <| fe_submission ::= submission_Close |>) d);
  Some (log_event (Ev_Closed flow) d).
Definition handle_completion (flow : nat) (completion : CompletionRecord) d : option (WorkerData T) :=
  let size := Z.to_nat (cr_payload_size completion) in
  let offset := Z.to_nat (cr_payload_offset completion) in
  let payload := subspan (wd_completion_payload d) offset size in
  let d := log_event (Ev_Completion flow completion payload) d in
  let entry := entry_at flow d in
  if negb (cr_flow completion =? fe_flow entry) then Some d
  else if su_closed (fe_submission entry) then Some d
  else
    match cr_type completion with
    | CompletionType_FlowStateChanged =>
        match cr_flow_state completion with FlowState_Closed => close_submission flow d | _ => Some d end
    | CompletionType_Writable => Some (on_flow flow (fun entry => entry <| fe_submission ::= NoteWritable |>) d)
    | CompletionType_InboundDatagram =>
        if negb (SameEndpoint (cr_remote completion) (fe_remote entry)) then Some d
        else
          match free_inbound flow d with
          | None => Some d
          | Some slot =>
              if (MaximumUdpPayloadStorageBytes <? size)%nat || (length (wd_completion_payload d) <? offset + size)%nat then None
              else Some (set_inbound flow slot (mk_inbound_datagram true (ToEndpoint (cr_remote completion)) payload) d)
          end
    | CompletionType_PolicyChanged => Some d
    end.
Fixpoint handle_completions (flow : nat) (completions : list CompletionRecord) d : option (WorkerData T) :=
  match completions with
  | [] => Some d
  | completion :: completions => d ← handle_completion flow completion d; handle_completions flow completions d
  end.

Inductive DrainOutcome := Drain_Done | Drain_Failed | Drain_More.
(** The condition before the loop, and the loop's body. *)
Definition drains (flow : nat) d : bool :=
  fe_occupied (entry_at flow d)
  && bool_decide (is_Some (fe_client (entry_at flow d))) && negb (su_closed (fe_submission (entry_at flow d))).
Definition DrainCompletions (flow : nat) d : option (DrainOutcome * WorkerData T) :=
  let '(answer, t) := client_ReceiveCompletions (fe_client (entry_at flow d)) (length (wd_completions d)) (wd_service d) in
  let d := d <| wd_service := t |> in
  match answer with
  | None => d ← close_submission flow d; Some (Drain_Failed, d)
  | Some (count, status, records, payload) =>
      let d := (d <| wd_completions ::= write_over records |>) <| wd_completion_payload ::= write_over payload |> in
      if bool_decide (status = ProtocolStatus_QueueEmpty) then Some (Drain_Done, d)
      else if negb (bool_decide (status = ProtocolStatus_Success)) then d ← close_submission flow d; Some (Drain_Done, d)
      else if negb (ValidateTunnelCompletionDrain count (length (wd_completions d)) (wd_completions d) (length (wd_completion_payload d)))
      then d ← close_submission flow d; Some (Drain_Failed, d)
      else
        d ← handle_completions flow (take (Z.to_nat count) (wd_completions d)) d;
        Some (Drain_More, d)
  end.

(** ** Submitting datagrams *)

(** The descriptors and the payload of a batch. *)
Fixpoint build_batch (flow : nat) (indices : list nat) (descriptors : list DatagramDescriptor) (payload : bytes) d
    : option (list DatagramDescriptor * bytes) :=
  match indices with
  | [] => Some (descriptors, payload)
  | index :: indices =>
      let entry := entry_at flow d in
      slot ← fe_outbound_slots entry !! index;
      datagram ← wd_outbound d !! slot;
      if negb (od_occupied datagram)
         || (MaximumBatchEntriesPerSubmission * MaximumQueuedOutboundPayloadBytes - length payload <? length (od_payload datagram))%nat
      then None
      else
        let descriptor := mk_descriptor (fe_flow entry) (Z.of_nat (length payload)) (Z.of_nat (length (od_payload datagram)))
                            (u64 (fe_descriptor entry)) in
        build_batch flow indices (descriptors ++ [descriptor]) (payload ++ od_payload datagram) d
  end.
(** [accepted_count], [queue_full] and [terminal_failure] after the dispositions. *)
Fixpoint read_dispositions (statuses : list ProtocolStatus) (accepted_count : nat) (queue_full terminal_failure : bool) : nat * bool * bool :=
  match statuses with
  | [] => (accepted_count, queue_full, terminal_failure)
  | status :: statuses =>
      if bool_decide (status = ProtocolStatus_Success) && negb queue_full && negb terminal_failure
      then read_dispositions statuses (S accepted_count) queue_full terminal_failure
      else if bool_decide (status = ProtocolStatus_QueueFull) && negb terminal_failure
      then read_dispositions statuses accepted_count true terminal_failure
      else read_dispositions statuses accepted_count queue_full true
  end.
(** One flow of [SubmitQueuedDatagrams]: whether it made progress, and whether the call failed. *)
Definition SubmitQueuedDatagrams (flow : nat) d : option (bool * bool * WorkerData T) :=
  let entry := entry_at flow d in
  if negb (fe_occupied entry) || negb (CanSubmit (fe_submission entry)) then Some (false, false, d)
  else
    let entry_count := Nat.min (su_queued (fe_submission entry)) MaximumBatchEntriesPerSubmission in
    '(descriptors, payload) ← build_batch flow (seq 0 entry_count) [] [] d;
    let '(answer, t) := SendUdpDatagramBatch (fe_client entry) descriptors payload (length (wd_dispositions d)) (wd_service d) in
    let d := d <| wd_service := t |> in
    match answer with
    | None => d ← close_submission flow d; Some (false, true, d)
    | Some statuses =>
        let d := d <| wd_dispositions ::= write_over statuses |> in
        let statuses := take entry_count (wd_dispositions d) in
        let d := log_event (Ev_Batch flow (fe_client entry) descriptors payload statuses) d in
        let '(accepted_count, queue_full, terminal_failure) := read_dispositions statuses 0 false false in
        d ← (if negb (accepted_count =? 0)%nat then RetireQueuedOutboundPrefix flow accepted_count d else Some d);
        let made_progress := negb (accepted_count =? 0)%nat in
        if terminal_failure then d ← close_submission flow d; Some (made_progress, false, d)
        else Some (made_progress, false, if queue_full then on_flow flow (fun entry => entry <| fe_submission ::= NoteQueueFull |>) d else d)
    end.

(** ** Operations *)

Definition readiness (flow : nat) d : TunnelFlowReadiness :=
  mk_readiness (bool_decide (is_Some (TakeInbound flow d))) (admission_available flow d) (su_closed (fe_submission (entry_at flow d))).
Definition deadline (now : Z) (op : Operation) : Z :=
  if 0 <? op_timeout_milliseconds op then now + op_timeout_milliseconds op * 1000000 else op_deadline_nanoseconds op.

Inductive DispatchOutcome := Dispatch_Done | Dispatch_Failed | Dispatch_Pending.
Definition dispatch_open (state : TunnelAvailabilityState) (op : Operation) d : option (DispatchOutcome * TunnelFlowResult * WorkerData T) :=
  match FindFlow (op_owner op) (op_descriptor op) d with
  | Some flow =>
      Some (Dispatch_Done, if su_closed (fe_submission (entry_at flow d)) then TunnelFlow_SocketError else TunnelFlow_Opened, d)
  | None =>
      if negb (bool_decide (state = Availability_Ready)) then Some (Dispatch_Done, TunnelFlow_TunnelUnavailable, d)
      else if negb (wd_root d) then Some (Dispatch_Failed, TunnelFlow_TunnelUnavailable, d)
      else
        match AllocateFlow (op_owner op) (op_descriptor op) d with
        | (None, d) => Some (Dispatch_Done, TunnelFlow_SocketError, d)
        | (Some flow, d) =>
            let '(child, t) := OpenTunnelClient (wd_root d) (wd_service d) in
            let d := d <| wd_service := t |> in
            match child with
            | None => d ← ResetFlow flow d; Some (Dispatch_Failed, TunnelFlow_TunnelUnavailable, d)
            | Some client =>
                let d := on_flow flow (fun entry => entry <| fe_client := client |>) d in
                let request := mk_open_request (mk_ipv4_endpoint (te_address (op_remote op)) (te_port (op_remote op)) 0)
                                 (Z.lxor (u64 (Z.shiftl (op_owner op) 16)) (u32 (op_descriptor op))) in
                let '(answer, t) := client_OpenConnectedUdpFlow client request (wd_service d) in
                let d := d <| wd_service := t |> in
                match answer with
                | None => d ← ResetFlow flow d; Some (Dispatch_Failed, TunnelFlow_TunnelUnavailable, d)
                | Some opened =>
                    let result := MapOpenStatus (ow_status opened) in
                    if negb (bool_decide (result = TunnelFlow_Opened)) then d ← ResetFlow flow d; Some (Dispatch_Done, result, d)
                    else
                      let d := on_flow flow (fun entry => (entry <| fe_flow := ow_flow opened |>) <| fe_remote := op_remote op |>) d in
                      let '(event, t) := GetCompletionEvent client (wd_service d) in
                      let d := d <| wd_service := t |> in
                      match event with
                      | None => d ← CloseFlow flow d; Some (Dispatch_Failed, TunnelFlow_SocketError, d)
                      | Some handle =>
                          let d := on_flow flow (fun entry => entry <| fe_completion_handle := handle |>) d in
                          Some (Dispatch_Done, result,
                                log_event (Ev_Opened flow (op_owner op) (op_descriptor op) (ow_flow opened) (op_remote op)) d)
                      end
                end
            end
        end
  end.
Definition close_matching (owner descriptor : Z) (all_owner : bool) d : option (WorkerData T) :=
  each_flow (fun flow d =>
    let entry := entry_at flow d in
    if fe_occupied entry && (fe_owner entry =? owner) && (all_owner || (fe_descriptor entry =? descriptor))
    then CloseFlow flow d else Some d) (seq 0 MaximumSockets) d.
Definition dispatch_send (flow : nat) (op : Operation) d : option (TunnelFlowResult * WorkerData T) :=
  if (wd_maximum_udp_payload_bytes d <? length (op_input op))%nat || (MaximumQueuedOutboundPayloadBytes <? length (op_input op))%nat
  then Some (TunnelFlow_MessageTooLarge, d)
  else
    '(queued, d) ← QueueOutbound flow (op_input op) d;
    Some (if (queued : bool) then TunnelFlow_Opened else TunnelFlow_WouldBlock, d).
(** The operation with its result if it is done, its deadline if it has to wait. *)
Definition dispatch_poll (now : Z) (pending : nat) (flow : nat) (op : Operation) d : DispatchOutcome * Operation :=
  let op := op <| op_revents := Revents (op_events op) (readiness flow d) |> in
  if negb (op_revents op =? 0) then (Dispatch_Done, op <| op_result := TunnelFlow_Opened |>)
  else if op_timeout_milliseconds op =? 0 then (Dispatch_Done, op <| op_result := TunnelFlow_WouldBlock |>)
  else
    let op := op <| op_deadline_nanoseconds := deadline now op |> in
    if (pending =? MaximumSockets)%nat then (Dispatch_Done, op <| op_result := TunnelFlow_QueueFull |>) else (Dispatch_Pending, op).
Definition dispatch_receive (flow : nat) (op : Operation) d : Operation * WorkerData T :=
  match TakeInbound flow d with
  | None =>
      (op <| op_receive ::= fun r => r <| rr_result := if su_closed (fe_submission (entry_at flow d))
                                                       then TunnelFlow_Closed else TunnelFlow_WouldBlock |> |>, d)
  | Some slot =>
      let datagram := default inbound_datagram_init (fe_inbound (entry_at flow d) !! slot) in
      let '(outcome, output) := ReceiveTunneledDatagram (op_output_size op) (id_payload datagram) in
      let op := (op <| op_output := output |>) <| op_receive := mk_receive_result TunnelFlow_Opened (rc_size outcome) (id_remote datagram) |> in
      (op, log_event (Ev_Received flow (op_output_size op) (id_remote datagram) output)
             (set_inbound flow slot (datagram <| id_occupied := false |>) d))
  end.
Definition closed_result (op : Operation) : Operation :=
  (op <| op_result := TunnelFlow_Closed |>) <| op_receive ::= fun r => r <| rr_result := TunnelFlow_Closed |> |>.
Definition Dispatch (state : TunnelAvailabilityState) (now : Z) (pending : nat) (op : Operation) d
    : option (DispatchOutcome * Operation * WorkerData T) :=
  match op_type op with
  | Op_Close =>
      d ← close_matching (op_owner op) (op_descriptor op) false d; Some (Dispatch_Done, op <| op_result := TunnelFlow_Closed |>, d)
  | Op_CloseOwner =>
      d ← close_matching (op_owner op) 0 true d; Some (Dispatch_Done, op <| op_result := TunnelFlow_Closed |>, d)
  | Op_Open => '(outcome, result, d) ← dispatch_open state op d; Some (outcome, op <| op_result := result |>, d)
  | _ =>
      match FindFlow (op_owner op) (op_descriptor op) d with
      | None => Some (Dispatch_Done, closed_result op, d)
      | Some flow =>
          if su_closed (fe_submission (entry_at flow d)) then Some (Dispatch_Done, closed_result op, d)
          else
            match op_type op with
            | Op_Send => '(result, d) ← dispatch_send flow op d; Some (Dispatch_Done, op <| op_result := result |>, d)
            | Op_Poll => let '(outcome, op) := dispatch_poll now pending flow op d in Some (outcome, op, d)
            | _ => let '(op, d) := dispatch_receive flow op d in Some (Dispatch_Done, op, d)
            end
      end
  end.

(** ** Polls that wait *)

(** The operation, and whether it is complete. *)
Definition CompletePoll (now : Z) d (op : Operation) : bool * Operation :=
  let closed := (true, (op <| op_result := TunnelFlow_Closed |>) <| op_revents := POLLHUP |>) in
  match FindFlow (op_owner op) (op_descriptor op) d with
  | None => closed
  | Some flow =>
      if su_closed (fe_submission (entry_at flow d)) then closed
      else
        let op := op <| op_revents := Revents (op_events op) (readiness flow d) |> in
        if negb (op_revents op =? 0) then (true, op <| op_result := TunnelFlow_Opened |>)
        else if (0 <=? op_deadline_nanoseconds op) && (op_deadline_nanoseconds op <=? now)
        then (true, op <| op_result := TunnelFlow_WouldBlock |>)
        else (false, op)
  end.
(** The loop over the polls that wait: those that are retained, and the operations. *)
Fixpoint CompletePendingPolls (now : Z) d (polls : list nat) (store : gmap nat Operation) : option (list nat * gmap nat Operation) :=
  match polls with
  | [] => Some ([], store)
  | poll :: polls =>
      op ← store !! poll;
      let '(complete, op) := CompletePoll now d op in
      '(retained, store) ← CompletePendingPolls now d polls (<[poll := op <| op_complete ::= orb complete |>]> store);
      Some (if (complete : bool) then retained else poll :: retained, store)
  end.
(** Operations that are completed with a result when the worker stops. *)
Fixpoint complete_all (finish : Operation -> Operation) (operations : list nat) (store : gmap nat Operation) : option (gmap nat Operation) :=
  match operations with
  | [] => Some store
  | operation :: operations =>
      op ← store !! operation; complete_all finish operations (<[operation := (finish op) <| op_complete := true |>]> store)
  end.
Definition closed_poll (op : Operation) : Operation := (op <| op_result := TunnelFlow_Closed |>) <| op_revents := POLLHUP |>.
Fixpoint poll_deadlines (polls : list nat) (store : gmap nat Operation) : option (list Z) :=
  match polls with
  | [] => Some []
  | poll :: polls => op ← store !! poll; rest ← poll_deadlines polls store; Some (op_deadline_nanoseconds op :: rest)
  end.

(** ** Discovery and invalidation *)

Definition InvalidateTunnelState d : option (WorkerData T) :=
  d ← ResetAllFlows d;
  Some (((d <| wd_maximum_udp_payload_bytes := 0%nat |>) <| wd_service ::= root_Close (wd_root d) |>) <| wd_root := false |>).
Definition compatible (capabilities : TunnelCapabilities) : bool :=
  (ca_api_version capabilities =? TunApiVersion)
  && (Z.land (ca_capability_mask capabilities) RequiredTunnelCapabilities =? RequiredTunnelCapabilities).
(** From the reset of the flows on: the maximal payload if a compatible service is found. *)
Definition DiscoverTunnelService d : option (option nat * WorkerData T) :=
  d ← ResetAllFlows d;
  let d := (d <| wd_service ::= root_Close (wd_root d) |>) <| wd_root := false |> in
  let '(present, t) := sm_has_service (wd_service d) in
  let d := d <| wd_service := t |> in
  if negb (bool_decide (present = Some true)) then Some (None, d)
  else
    let '(opened, root, t) := root_Open (wd_root d) (wd_service d) in
    let d := (d <| wd_root := root |>) <| wd_service := t |> in
    if negb opened then Some (None, d)
    else
      let '(capabilities, t) := GetTunCapabilities (wd_root d) (wd_service d) in
      let d := d <| wd_service := t |> in
      match capabilities with
      | Some capabilities =>
          if compatible capabilities
          then Some (Some (Nat.min (Z.to_nat (ca_maximum_udp_payload_bytes capabilities)) MaximumQueuedOutboundPayloadBytes), d)
          else Some (None, (d <| wd_service ::= root_Close (wd_root d) |>) <| wd_root := false |>)
      | None => Some (None, (d <| wd_service ::= root_Close (wd_root d) |>) <| wd_root := false |>)
      end.

(** ** The worker's thread *)

Inductive Outcome (A : Type) := Blocked | Crashed | Moved (a : A).
Arguments Blocked {A}.
Arguments Crashed {A}.
Arguments Moved {A}.
Definition moved {A} (result : option A) : Outcome A := match result with None => Crashed | Some a => Moved a end.

Definition go (phase : WorkerPhase) w : TunnelWorker T := w <| w_phase := phase |>.
Definition on_data (f : WorkerData T -> option (WorkerData T)) w : option (TunnelWorker T) :=
  d ← f (w_data w); Some (w <| w_data := d |>).
Definition exit_worker w : option (TunnelWorker T) :=
  let pending := w_operations w in
  let w := w <| w_operations := [] |> in
  store ← complete_all closed_result pending (w_store w);
  store ← complete_all closed_poll (w_pending_polls w) store;
  let w := (w <| w_store := store |>) <| w_pending_polls := [] |> in
  w ← on_data InvalidateTunnelState w;
  Some (go Worker_Exited w).
Definition discover (next : WorkerPhase) w : option (TunnelWorker T) :=
  if negb (bool_decide (discovery_GetState (w_discovery w) = Availability_DiscoveryPending)) then Some (go next w)
  else '(found, d) ← DiscoverTunnelService (w_data w); Some (go (Worker_Discovered found next) (w <| w_data := d |>)).
Definition dispatch (operation : nat) w : option (TunnelWorker T) :=
  op ← w_store w !! operation;
  '(outcome, op, d) ←
    Dispatch (discovery_GetState (w_discovery w)) (w_now w) (length (w_pending_polls w)) op (w_data w);
  let w := (w <| w_store ::= <[operation := op]> |>) <| w_data := d |> in
  Some (match outcome with
        | Dispatch_Done => go (Worker_Signal operation) w
        | Dispatch_Failed => go (Worker_Report (Worker_Signal operation)) w
        | Dispatch_Pending => go (Worker_Invalidate Worker_Take) (w <| w_pending_polls ::= fun polls => polls ++ [operation] |>)
        end).
Definition wait_ends w : option bool :=
  deadlines ← poll_deadlines (w_pending_polls w) (w_store w);
  Some (w_wake_event w || w_stop_event w
        || existsb (fun entry => fe_occupied entry && negb (fe_completion_handle entry =? INVALID_HANDLE)
                                 && completion_signalled (wd_service (w_data w)) (fe_completion_handle entry)) (wd_flows (w_data w))
        || existsb (fun deadline => (0 <=? deadline) && (deadline <=? w_now w)) deadlines).
Definition worker_step w : Outcome (TunnelWorker T) :=
  match w_phase w with
  | Worker_Idle | Worker_Exited => Blocked
  | Worker_Top =>
      if w_stop_requested w then moved (exit_worker w) else Moved (go (Worker_Invalidate (Worker_Drain 0)) w)
  | Worker_Invalidate next =>
      if w_invalidation_requested w
      then moved (w ← on_data InvalidateTunnelState (w <| w_invalidation_requested := false |>); Some (go (Worker_Discovery next) w))
      else Moved (go (Worker_Discovery next) w)
  | Worker_Discovery next =>
      if w_discovery_requested w then Moved (go (Worker_Discover next) (w <| w_discovery_requested := false |>)) else Moved (go next w)
  | Worker_Discover next => moved (discover next w)
  | Worker_Discovered (Some maximum) next =>
      let w := w <| w_discovery ::= CompleteDiscoverySuccess |> in
      Moved (go next (w <| w_data ::= fun d => d <| wd_maximum_udp_payload_bytes := maximum |> |>))
  | Worker_Discovered None next => Moved (go next (w <| w_discovery ::= CompleteDiscoveryFailure (w_now w) |>))
  | Worker_Report next =>
      let '(reported, discovery) := ReportTunnelClientFailure (w_now w) (w_discovery w) in
      Moved (go (if reported then Worker_RequestInvalidation next else next) (w <| w_discovery := discovery |>))
  | Worker_RequestInvalidation next =>
      Moved (go next (if w_started w then (w <| w_invalidation_requested := true |>) <| w_wake_event := true |> else w))
  | Worker_Drain flow =>
      Moved (if (flow <? MaximumSockets)%nat
             then if drains flow (w_data w) then go (Worker_DrainMore flow) w else go (Worker_Drain (S flow)) w
             else go (Worker_Polls (Worker_Invalidate Worker_Take)) w)
  | Worker_DrainMore flow =>
      moved ('(outcome, d) ← DrainCompletions flow (w_data w);
             let w := w <| w_data := d |> in
             Some (match outcome with
                   | Drain_Done => go (Worker_Drain (S flow)) w
                   | Drain_Failed => go (Worker_Report (Worker_Drain (S flow))) w
                   | Drain_More => go (Worker_DrainMore flow) w
                   end))
  | Worker_Polls next =>
      moved ('(retained, store) ← CompletePendingPolls (w_now w) (w_data w) (w_pending_polls w) (w_store w);
             Some (go next ((w <| w_pending_polls := retained |>) <| w_store := store |>)))
  | Worker_Take =>
      Moved (match w_operations w with
             | [] => go (Worker_Submit 0 false) w
             | operation :: operations => go (Worker_Dispatch operation) (w <| w_operations := operations |>)
             end)
  | Worker_Dispatch operation => moved (dispatch operation w)
  | Worker_Signal operation =>
      moved (op ← w_store w !! operation;
             Some (go (Worker_Invalidate Worker_Take) (w <| w_store ::= <[operation := op <| op_complete := true |>]> |>)))
  | Worker_Submit flow made_progress =>
      if (flow <? MaximumSockets)%nat
      then moved ('(progress, failed, d) ← SubmitQueuedDatagrams flow (w_data w);
                  let next := Worker_Submit (S flow) (made_progress || progress) in
                  Some (go (if (failed : bool) then Worker_Report next else next) (w <| w_data := d |>)))
      else Moved (go (if made_progress then Worker_Submit 0 false else Worker_Polls Worker_Clear) w)
  | Worker_Clear => Moved (go Worker_Look (w <| w_wake_event := false |>))
  | Worker_Look =>
      Moved (go (if negb (bool_decide (w_operations w = [])) || w_discovery_requested w || w_invalidation_requested w
                 then Worker_Top else Worker_Wait) w)
  | Worker_Wait => match wait_ends w with None => Crashed | Some false => Blocked | Some true => Moved (go Worker_Top w) end
  end.

(** ** Steps *)

Definition EnqueueAndWait (id : nat) (op : Operation) w : TunnelWorker T :=
  if negb (w_started w) || w_stop_requested w then w <| w_returned ::= fun returned => returned ++ [(id, op)] |>
  else if (length (w_operations w) =? MaximumSockets)%nat
  then w <| w_returned ::= fun returned => returned ++ [(id, op <| op_result := TunnelFlow_QueueFull |>)] |>
  else ((w <| w_store ::= <[id := op]> |>) <| w_callers ::= <[id := Caller_Signalling]> |>)
         <| w_operations ::= fun operations => operations ++ [id] |>.
(** The operations that the functions of the interface build. *)
Inductive WorkerCall :=
  | Call_OpenConnectedUdp (owner descriptor : Z) (remote : TunnelFlowEndpoint)
  | Call_Send (owner descriptor : Z) (payload : bytes)
  | Call_Receive (owner descriptor : Z) (payload_size : nat)
  | Call_Poll (owner descriptor events timeout_milliseconds : Z)
  | Call_Close (owner descriptor : Z)
  | Call_CloseOwner (owner : Z).
Definition operation_of (call : WorkerCall) : Operation :=
  match call with
  | Call_OpenConnectedUdp owner descriptor remote => (operation_init Op_Open owner descriptor) <| op_remote := remote |>
  | Call_Send owner descriptor payload => (operation_init Op_Send owner descriptor) <| op_input := payload |>
  | Call_Receive owner descriptor size => (operation_init Op_Receive owner descriptor) <| op_output_size := size |>
  | Call_Poll owner descriptor events timeout =>
      ((operation_init Op_Poll owner descriptor) <| op_events := events |>) <| op_timeout_milliseconds := timeout |>
  | Call_Close owner descriptor => operation_init Op_Close owner descriptor
  | Call_CloseOwner owner => operation_init Op_CloseOwner owner 0
  end.

Definition Start w : TunnelWorker T :=
  if w_started w then w
  else
    let w := w <| w_stop_requested := false |> in
    let w := w <| w_data ::= fun d => d <| wd_maximum_udp_payload_bytes := 0%nat |> |> in
    go Worker_Top ((w <| w_stop_event := false |>) <| w_started := true |>).
(** The sections of [Stop]. *)
Definition Stop w : TunnelWorker T :=
  if negb (w_started w) then w else (w <| w_stop_requested := true |>) <| w_stopper := Stopper_Signalling |>.
Definition Stop_signal w : TunnelWorker T :=
  ((w <| w_stop_event := true |>) <| w_wake_event := true |>) <| w_stopper := Stopper_Joining |>.
Definition Stop_joined w : TunnelWorker T := go Worker_Idle ((w <| w_started := false |>) <| w_stopper := Stopper_None |>).
(** The sections of [RequestDiscoveryAttempt]. *)
Definition RequestDiscoveryAttempt w : TunnelWorker T :=
  let w := w <| w_requesters ::= pred |> in
  if negb (w_started w) then w else (w <| w_discovery_requested := true |>) <| w_signallers ::= S |>.

Inductive WorkerStep :=
  | Ws_Call (id : nat) (call : WorkerCall)
  | Ws_CallerSignals (id : nat)
  | Ws_CallerReturns (id : nat)
  | Ws_Start
  | Ws_Stop
  | Ws_StopSignals
  | Ws_StopJoins
  | Ws_Traffic
  | Ws_RequestDiscovery
  | Ws_SignalWake
  | Ws_DiscoveryStart
  | Ws_DiscoveryStop
  | Ws_Clock (now : Z)
  | Ws_Service (t : T)
  | Ws_Worker.
(** [Blocked] where the step is not possible: a call has a name of its own, one thread
    stops the worker at a time, and the clock does not go back.  The service can change
    at any time. *)
Definition tunnel_step (step : WorkerStep) w : Outcome (TunnelWorker T) :=
  match step with
  | Ws_Call id call =>
      if bool_decide (w_store w !! id = None) && bool_decide (id ∉ (w_returned w).*1) then Moved (EnqueueAndWait id (operation_of call) w)
      else Blocked
  | Ws_CallerSignals id =>
      if bool_decide (w_callers w !! id = Some Caller_Signalling)
      then Moved ((w <| w_wake_event := true |>) <| w_callers ::= <[id := Caller_Waiting]> |>) else Blocked
  | Ws_CallerReturns id =>
      match w_callers w !! id, w_store w !! id with
      | Some Caller_Waiting, Some op =>
          if op_complete op
          then Moved (((w <| w_store ::= delete id |>) <| w_callers ::= delete id |>) <| w_returned ::= fun returned => returned ++ [(id, op)] |>)
          else Blocked
      | _, _ => Blocked
      end
  | Ws_Start => Moved (Start w)
  | Ws_Stop => match w_stopper w with Stopper_None => Moved (Stop w) | _ => Blocked end
  | Ws_StopSignals => match w_stopper w with Stopper_Signalling => Moved (Stop_signal w) | _ => Blocked end
  | Ws_StopJoins => match w_stopper w, w_phase w with Stopper_Joining, Worker_Exited => Moved (Stop_joined w) | _, _ => Blocked end
  | Ws_Traffic =>
      let '(scheduled, discovery) := RequestForInterceptedTraffic (w_now w) (w_discovery w) in
      let w := w <| w_discovery := discovery |> in Moved (if scheduled then w <| w_requesters ::= S |> else w)
  | Ws_RequestDiscovery => if (w_requesters w =? 0)%nat then Blocked else Moved (RequestDiscoveryAttempt w)
  | Ws_SignalWake =>
      if (w_signallers w =? 0)%nat then Blocked else Moved ((w <| w_wake_event := true |>) <| w_signallers ::= pred |>)
  | Ws_DiscoveryStart => Moved (w <| w_discovery ::= fun discovery => snd (discovery_Start discovery) |>)
  | Ws_DiscoveryStop => Moved (w <| w_discovery ::= discovery_Stop |>)
  | Ws_Clock now => if w_now w <=? now then Moved (w <| w_now := now |>) else Blocked
  | Ws_Service t => Moved (w <| w_data ::= fun d => d <| wd_service := t |> |>)
  | Ws_Worker => worker_step w
  end.
(** [None] where a step crashes. *)
Fixpoint tunnel_run (steps : list WorkerStep) w : option (TunnelWorker T) :=
  match steps with
  | [] => Some w
  | step :: steps =>
      match tunnel_step step w with
      | Blocked => tunnel_run steps w
      | Crashed => None
      | Moved w => tunnel_run steps w
      end
  end.
End Worker.
Arguments Blocked {A}.
Arguments Crashed {A}.
Arguments Moved {A}.
Arguments WorkerStep T : clear implicits.

(** ** A service for examples

    It accepts everything, and gives the answers of a list to the calls that drain
    completions. *)

Definition ExampleService : Type := list (list CompletionRecord * bytes).
#[export] Instance example_service : TunnelService ExampleService := {|
  sm_has_service t := (Some true, t);
  sm_get_service t := (Some tt, t);
  service_capabilities t := (Some (mk_capabilities 3 63 1400), t);
  service_open_client t := (Some 7, t);
  service_open_flow _ _ t := (Some (mk_open_result ProtocolStatus_Success 9 1 1), t);
  service_completion_event _ t := (Some 8, t);
  service_send_batch _ descriptors _ t := (Some ((fun _ => ProtocolStatus_Success) <$> descriptors), t);
  service_receive_completions _ t :=
    match t with
    | [] => (Some (0, ProtocolStatus_QueueEmpty, [], []), [])
    | (records, payload) :: t => (Some (Z.of_nat (length records), ProtocolStatus_Success, records, payload), t)
    end;
  service_close_flow _ _ t := (Some ProtocolStatus_Success, t);
  service_close_client _ t := t;
  service_close_root t := t;
  completion_signalled t _ := negb (length t =? 0)%nat
|}.
(** The worker and discovery start, and a service is found. *)
Definition example_start {T} : list (WorkerStep T) :=
  [Ws_Start; Ws_DiscoveryStart; Ws_Traffic; Ws_RequestDiscovery; Ws_SignalWake] ++ replicate 20 Ws_Worker.
(** A call, the worker's steps for it, and the return. *)
Definition example_call {T} (id : nat) (call : WorkerCall) : list (WorkerStep T) :=
  [Ws_Call id call; Ws_CallerSignals id] ++ replicate 40 Ws_Worker ++ [Ws_CallerReturns id].
Definition example_remote : TunnelFlowEndpoint := mk_flow_endpoint [10; 0; 0; 1] 53.
Definition example_inbound (payload : bytes) : list CompletionRecord * bytes :=
  ([mk_completion CompletionType_InboundDatagram ProtocolStatus_Success 9 (mk_ipv4_endpoint [10; 0; 0; 1] 53 0) 0
      (Z.of_nat (length payload)) 1 1 FlowState_Open FlowTerminalReason_None], payload).

Example a_datagram_is_sent :
  (fun w => (map (fun returned => op_result (snd returned)) (w_returned w), wd_outbound_count (w_data w))) <$>
    tunnel_run (example_start ++ example_call 1 (Call_OpenConnectedUdp 1 5 example_remote) ++ example_call 2 (Call_Send 1 5 [1; 2; 3]))
      (worker_init ([] : ExampleService))
  = Some ([TunnelFlow_Opened; TunnelFlow_Opened], 0).
Proof. vm_compute. reflexivity. Qed.

(** Three datagrams arrive: the third one takes the slot of the first, which has been
    received, and is received before the second. *)
Example received_out_of_order :
  (fun w => map (fun returned => op_output (snd returned)) (w_returned w)) <$>
    tunnel_run (example_start ++ example_call 1 (Call_OpenConnectedUdp 1 5 example_remote)
                ++ [Ws_Service [example_inbound [1]; example_inbound [2]]] ++ example_call 2 (Call_Receive 1 5 100)
                ++ [Ws_Service [example_inbound [3]]] ++ example_call 3 (Call_Receive 1 5 100) ++ example_call 4 (Call_Receive 1 5 100))
      (worker_init ([] : ExampleService))
  = Some [[]; [1]; [3]; [2]].
Proof. vm_compute. reflexivity. Qed.
