(* ===== verification/TunnelQueues.v ===== *)
(** * The queues of the worker's flows

    The datagrams that a flow of TunnelWorker.v waits to submit are in slots of one pool,
    in the order of [fe_outbound_slots].  This file shows that the slots of different
    flows never meet, that the code's checks of them never fail, and what each function
    does to the list [fifo] of a flow's waiting datagrams. *)

From stdpp Require Import gmap.
From S2P Require Import Prelude Endian Messages PacketQueue Platform Session Base64 InnerPacket Timers.
From S2P Require Import Crypto Device Data Identity Admission Handshake Peer PeerController RuntimeEvents.
From S2P Require Import FlowPolicy FlowPlane FlowTuples TunnelClient TunnelWorker.
Local Open Scope Z_scope.

Section Queues.
Context {T : Type} `{TunnelService T}.
Implicit Types (d : WorkerData T).

(** ** What the pool holds *)

Definition used (entry : FlowEntry) : list nat := take (su_queued (fe_submission entry)) (fe_outbound_slots entry).
Definition all_used d : list nat := wd_flows d ≫= used.
Definition occupied_at (outbound : list OutboundDatagram) (slot : nat) : bool := from_option od_occupied false (outbound !! slot).
Definition payload_at (outbound : list OutboundDatagram) (slot : nat) : bytes := from_option od_payload [] (outbound !! slot).
Definition fifo (flow : nat) d : list bytes := payload_at (wd_outbound d) <$> used (entry_at flow d).

Record entry_ok (entry : FlowEntry) : Prop := {
  eo_inbound : length (fe_inbound entry) = MaximumInboundDatagramsPerSocket;
  eo_slots : length (fe_outbound_slots entry) = MaximumQueuedOutboundDatagramsPerSocket;
  eo_queued : (su_queued (fe_submission entry) <= MaximumQueuedOutboundDatagramsPerSocket)%nat;
  eo_free : fe_occupied entry = false -> entry = flow_entry_init
}.
Record data_ok d : Prop := {
  do_flows : length (wd_flows d) = MaximumSockets;
  do_entries : Forall entry_ok (wd_flows d);
  do_outbound : length (wd_outbound d) = MaximumQueuedOutboundDatagrams;
  do_nodup : NoDup (all_used d);
  do_used slot : slot ∈ all_used d <-> occupied_at (wd_outbound d) slot = true;
  do_count : wd_outbound_count d = Z.of_nat (length (all_used d));
  do_sizes : Forall (fun datagram => length (od_payload datagram) <= MaximumQueuedOutboundPayloadBytes)%nat (wd_outbound d);
  do_completions : length (wd_completions d) = MaximumBatchEntries;
  do_payload : length (wd_completion_payload d) = (MaximumBatchEntries * MaximumUdpPayloadStorageBytes)%nat;
  do_dispositions : length (wd_dispositions d) = MaximumBatchEntriesPerSubmission
}.

(** The other flows, and their datagrams, are as before. *)
Definition others_same (flow : nat) d d' : Prop :=
  forall other, other <> flow -> entry_at other d' = entry_at other d /\ fifo other d' = fifo other d.

Lemma others_same_trans flow d1 d2 d3 : others_same flow d1 d2 -> others_same flow d2 d3 -> others_same flow d1 d3.
Proof.
  intros H12 H23 other Hne.
  destruct (H23 other Hne) as [-> ->]. by apply H12.
Qed.

Lemma entry_init_ok : entry_ok flow_entry_init.
Proof. split; [done|done|apply Nat.le_0_l|done]. Qed.
Lemma entry_at_ok flow d : data_ok d -> entry_ok (entry_at flow d).
Proof.
  intros [_ Hall _ _ _ _ _ _ _ _]. unfold entry_at. destruct (wd_flows d !! flow) eqn:E; cbn; [|apply entry_init_ok].
  by eapply Forall_lookup_1.
Qed.
Lemma flow_lookup flow d : data_ok d -> (flow < MaximumSockets)%nat -> wd_flows d !! flow = Some (entry_at flow d).
Proof.
  intros Hd Hlt. rewrite <- (do_flows d Hd) in Hlt. apply lookup_lt_is_Some in Hlt as [entry E]. unfold entry_at. by rewrite E.
Qed.
Lemma occupied_lookup outbound slot : occupied_at outbound slot = true -> exists datagram, outbound !! slot = Some datagram /\ od_occupied datagram = true.
Proof. unfold occupied_at. destruct (outbound !! slot); [by eauto|done]. Qed.
Lemma entry_at_beyond flow d : data_ok d -> (MaximumSockets <= flow)%nat -> entry_at flow d = flow_entry_init.
Proof. intros Hd Hge. unfold entry_at. rewrite lookup_ge_None_2; [done|]. by rewrite (do_flows d Hd). Qed.
Lemma occupied_bound flow d : data_ok d -> fe_occupied (entry_at flow d) = true -> (flow < MaximumSockets)%nat.
Proof. intros Hd Ho. destruct (decide (flow < MaximumSockets)%nat); [done|]. rewrite entry_at_beyond in Ho; [done|done|lia]. Qed.

(** ** Changing one flow *)

Lemma entry_on_flow f flow other d :
  entry_at other (on_flow flow f d) = if decide (flow = other) then if decide (other < length (wd_flows d))%nat then f (entry_at other d) else entry_at other d else entry_at other d.
Proof.
  unfold on_flow, entry_at. cbn. destruct (decide (flow = other)) as [->|]; [|by rewrite list_lookup_alter_ne].
  rewrite list_lookup_alter_eq. case_decide as Hlt; destruct (wd_flows d !! other) eqn:E; cbn; try done.
  - apply lookup_ge_None in E. lia.
  - apply lookup_lt_Some in E. lia.
Qed.
Lemma entry_on_flow_eq f flow d : data_ok d -> (flow < MaximumSockets)%nat -> entry_at flow (on_flow flow f d) = f (entry_at flow d).
Proof.
  intros Hd Hlt. rewrite entry_on_flow, decide_True by done. rewrite decide_True; [done|]. by rewrite (do_flows d Hd).
Qed.
Lemma entry_on_flow_ne f flow other d : other <> flow -> entry_at other (on_flow flow f d) = entry_at other d.
Proof. intros Hne. by rewrite entry_on_flow, decide_False by done. Qed.

Lemma all_used_replace flow d : data_ok d -> (flow < MaximumSockets)%nat -> exists before after,
  all_used d = before ++ used (entry_at flow d) ++ after /\
  forall entry, (<[flow := entry]> (wd_flows d)) ≫= used = before ++ used entry ++ after.
Proof.
  intros Hd Hlt. pose proof (flow_lookup flow d Hd Hlt) as E.
  exists (take flow (wd_flows d) ≫= used), (drop (S flow) (wd_flows d) ≫= used). split.
  - unfold all_used. rewrite <- (take_drop_middle _ _ _ E) at 1. by rewrite bind_app, bind_cons.
  - intros entry. rewrite insert_take_drop by (rewrite (do_flows d Hd); done). by rewrite bind_app, bind_cons.
Qed.
Lemma used_elem flow d slot : slot ∈ used (entry_at flow d) -> slot ∈ all_used d.
Proof.
  intros Hin. unfold entry_at in Hin. destruct (wd_flows d !! flow) eqn:E; cbn in Hin; [|by apply elem_of_nil in Hin].
  apply list_elem_of_bind. eexists. split; [exact Hin|]. by eapply list_elem_of_lookup_2.
Qed.
Lemma used_disjoint flow other d slot : data_ok d -> other <> flow -> slot ∈ used (entry_at flow d) -> slot ∉ used (entry_at other d).
Proof.
  intros Hd Hne Hin Hin'. pose proof (do_nodup d Hd) as Hnd. unfold entry_at in *.
  destruct (wd_flows d !! flow) as [e1|] eqn:E1; cbn in Hin; [|by apply elem_of_nil in Hin].
  destruct (wd_flows d !! other) as [e2|] eqn:E2; cbn in Hin'; [|by apply elem_of_nil in Hin'].
  unfold all_used in Hnd. clear Hd. revert flow other Hne E1 E2 Hnd. induction (wd_flows d) as [|e flows IH]; intros flow other Hne E1 E2 Hnd; [done|].
  rewrite bind_cons, NoDup_app in Hnd. destruct Hnd as (_ & Hdisj & Hnd).
  destruct flow as [|flow], other as [|other]; cbn in E1, E2.
  - done.
  - injection E1 as ->. apply (Hdisj slot Hin), list_elem_of_bind. exists e2. split; [done|]. by eapply list_elem_of_lookup_2.
  - injection E2 as ->. apply (Hdisj slot Hin'), list_elem_of_bind. exists e1. split; [done|]. by eapply list_elem_of_lookup_2.
  - apply (IH flow other); [congruence|done..].
Qed.

(** One flow gets a new entry, and the pool changes where the old or the new entry has a slot. *)
Lemma replace_ok flow entry outbound count d d' : data_ok d -> (flow < MaximumSockets)%nat -> entry_ok entry ->
  wd_flows d' = <[flow := entry]> (wd_flows d) -> wd_outbound d' = outbound -> wd_outbound_count d' = count ->
  wd_completions d' = wd_completions d -> wd_completion_payload d' = wd_completion_payload d -> wd_dispositions d' = wd_dispositions d ->
  length outbound = MaximumQueuedOutboundDatagrams ->
  Forall (fun datagram => length (od_payload datagram) <= MaximumQueuedOutboundPayloadBytes)%nat outbound ->
  count = wd_outbound_count d - Z.of_nat (length (used (entry_at flow d))) + Z.of_nat (length (used entry)) ->
  NoDup (used entry) ->
  (forall slot, slot ∉ used (entry_at flow d) -> slot ∉ used entry -> outbound !! slot = wd_outbound d !! slot) ->
  (forall slot, slot ∈ used entry -> occupied_at outbound slot = true /\
     (slot ∈ used (entry_at flow d) \/ occupied_at (wd_outbound d) slot = false)) ->
  (forall slot, slot ∈ used (entry_at flow d) -> slot ∉ used entry -> occupied_at outbound slot = false) ->
  data_ok d' /\ others_same flow d d' /\ entry_at flow d' = entry.
Proof.
  intros Hd Hlt Hentry Ef <- <- Ec Ep Es Hlen Hsizes Hcount Hnd Hsame Hnew Hgone.
  destruct (all_used_replace flow d Hd Hlt) as (before & after & Eall & Eall'). pose proof (Eall' entry) as Ea.
  assert (all_used d' = before ++ used entry ++ after) as Eall2 by (unfold all_used; by rewrite Ef).
  pose proof (do_nodup d Hd) as Hall. rewrite Eall in Hall.
  assert (forall slot, slot ∈ before ++ after -> slot ∉ used (entry_at flow d) /\ slot ∉ used entry) as Hout.
  { intros slot Hin. assert (slot ∈ all_used d) as Hu by (rewrite Eall; set_solver). apply (do_used d Hd) in Hu.
    assert (slot ∉ used (entry_at flow d)) as Hn.
    { rewrite !NoDup_app in Hall. set_solver. }
    split; [done|]. intros Hin'. destruct (Hnew slot Hin') as [_ [?|?] ]; [done|congruence]. }
  split; [split|split].
  - by rewrite Ef, length_insert, (do_flows d Hd).
  - rewrite Ef. by apply Forall_insert; [apply (do_entries d Hd)|].
  - done.
  - rewrite Eall2. rewrite !NoDup_app in Hall |- *. set_solver.
  - intros slot. rewrite Eall2. destruct (decide (slot ∈ used entry)) as [Hin|Hin].
    + split; [by intros _; apply Hnew|set_solver].
    + destruct (decide (slot ∈ used (entry_at flow d))) as [Hold|Hold].
      * rewrite (Hgone slot Hold Hin). split; [|done]. intros Hu. destruct (Hout slot); [set_solver|done].
      * unfold occupied_at. rewrite (Hsame slot Hold Hin). fold (occupied_at (wd_outbound d) slot). rewrite <- (do_used d Hd slot), Eall. set_solver.
  - rewrite Hcount, (do_count d Hd), Eall, Eall2, !length_app. lia.
  - done.
  - rewrite Ec. apply (do_completions d Hd).
  - rewrite Ep. apply (do_payload d Hd).
  - rewrite Es. apply (do_dispositions d Hd).
  - intros other Hne. assert (entry_at other d' = entry_at other d) as Ee.
    { unfold entry_at. by rewrite Ef, list_lookup_insert_ne by done. }
    split; [done|]. unfold fifo. rewrite Ee. apply list_fmap_ext. intros i slot Hslot. apply list_elem_of_lookup_2 in Hslot.
    unfold payload_at. rewrite Hsame; [done| |].
    + intros Hin. by eapply (used_disjoint flow other).
    + intros Hin. destruct (Hnew slot Hin) as [_ [Hin'|Hfree] ]; [by eapply (used_disjoint flow other)|].
      apply used_elem, (do_used d Hd) in Hslot. congruence.
  - unfold entry_at. rewrite Ef, list_lookup_insert_eq; [done|]. by rewrite (do_flows d Hd).
Qed.

Lemma alter_insert {A} (f : A -> A) index (l : list A) a : l !! index = Some a -> alter f index l = <[index := f a]> l.
Proof.
  intros E. apply list_eq. intros j. destruct (decide (index = j)) as [<-|].
  - rewrite list_lookup_alter_eq, E, list_lookup_insert_eq; [done|]. by eapply lookup_lt_Some.
  - by rewrite list_lookup_alter_ne, list_lookup_insert_ne.
Qed.
Lemma used_nodup flow d : data_ok d -> NoDup (used (entry_at flow d)).
Proof.
  intros Hd. destruct (decide (flow < MaximumSockets)%nat) as [Hlt|].
  - destruct (all_used_replace flow d Hd Hlt) as (before & after & E & _). pose proof (do_nodup d Hd) as Hnd. rewrite E, !NoDup_app in Hnd. tauto.
  - rewrite entry_at_beyond by (done || lia). constructor.
Qed.
Lemma on_flow_ok f flow d : data_ok d -> (flow < MaximumSockets)%nat -> entry_ok (f (entry_at flow d)) ->
  used (f (entry_at flow d)) = used (entry_at flow d) ->
  data_ok (on_flow flow f d) /\ others_same flow d (on_flow flow f d) /\ entry_at flow (on_flow flow f d) = f (entry_at flow d) /\
  fifo flow (on_flow flow f d) = fifo flow d.
Proof.
  intros Hd Hlt Hentry Hused.
  assert (data_ok (on_flow flow f d) /\ others_same flow d (on_flow flow f d) /\ entry_at flow (on_flow flow f d) = f (entry_at flow d)) as (H1 & H2 & H3).
  { apply (replace_ok flow (f (entry_at flow d)) (wd_outbound d) (wd_outbound_count d)); try done.
    - unfold on_flow. cbn. apply alter_insert. by apply flow_lookup.
    - apply (do_outbound d Hd).
    - apply (do_sizes d Hd).
    - rewrite Hused. lia.
    - rewrite Hused. by apply used_nodup.
    - intros slot Hin. rewrite Hused in Hin. split; [|by left]. by apply (do_used d Hd), (used_elem flow).
    - intros slot Hin Hn. by rewrite Hused in Hn. }
  split; [done|]. split; [done|]. split; [done|]. unfold fifo. by rewrite H3, Hused.
Qed.
(** What is not an array of the queues can change. *)
Lemma service_ok t d : data_ok d -> data_ok (d <| wd_service := t |>).
Proof. by intros []. Qed.

(** ** Giving slots back *)

Fixpoint clear (slots : list nat) (outbound : list OutboundDatagram) : list OutboundDatagram :=
  match slots with [] => outbound | slot :: slots => clear slots (<[slot := outbound_datagram_init]> outbound) end.
Definition released (slots : list nat) (count : nat) d : WorkerData T :=
  (d <| wd_outbound := clear slots (wd_outbound d) |>) <| wd_outbound_count := Z.of_nat (count - length slots) |>.

Lemma clear_length slots : forall outbound, length (clear slots outbound) = length outbound.
Proof. induction slots as [|slot slots IH]; intros outbound; [done|]. cbn. by rewrite IH, length_insert. Qed.
Lemma clear_same slots : forall outbound slot, slot ∉ slots -> clear slots outbound !! slot = outbound !! slot.
Proof.
  induction slots as [|s slots IH]; intros outbound slot Hn; [done|]. cbn. apply not_elem_of_cons in Hn as [? ?].
  by rewrite IH, list_lookup_insert_ne.
Qed.
Lemma clear_free slots : forall outbound slot, slot ∈ slots -> occupied_at (clear slots outbound) slot = false.
Proof.
  assert (forall slots outbound slot, occupied_at outbound slot = false -> occupied_at (clear slots outbound) slot = false) as Hkeep.
  { clear. induction slots as [|s slots IH]; intros outbound slot Hf; [done|]. apply IH. unfold occupied_at in *.
    destruct (decide (s = slot)) as [<-|]; [|by rewrite list_lookup_insert_ne].
    destruct (decide (s < length outbound)%nat); [by rewrite list_lookup_insert_eq|].
    rewrite list_insert_ge by lia. done. }
  induction slots as [|s slots IH]; intros outbound slot Hin; [by apply elem_of_nil in Hin|]. cbn.
  apply elem_of_cons in Hin as [->|Hin]; [|by apply IH]. apply Hkeep. unfold occupied_at.
  destruct (decide (s < length outbound)%nat); [by rewrite list_lookup_insert_eq|].
  rewrite lookup_ge_None_2; [done|]. rewrite length_insert. lia.
Qed.
Lemma clear_forall (P : OutboundDatagram -> Prop) slots : forall outbound, P outbound_datagram_init -> Forall P outbound -> Forall P (clear slots outbound).
Proof. induction slots as [|s slots IH]; intros outbound Hi Hall; [done|]. apply IH; [done|]. by apply Forall_insert. Qed.

Lemma release_slots_spec slots indices : forall taken count d, Forall2 (fun index slot => slots !! index = Some slot) indices taken ->
  NoDup taken -> Forall (fun slot => occupied_at (wd_outbound d) slot = true) taken ->
  wd_outbound_count d = Z.of_nat count -> (length taken <= count)%nat -> Z.of_nat count < 2 ^ 64 ->
  release_slots slots indices d = Some (released taken count d).
Proof.
  induction indices as [|index indices IH]; intros taken count d Hslots Hnd Hocc Hcount Hle Hbound.
  - apply Forall2_nil_inv_l in Hslots as ->. cbn. unfold released. cbn. rewrite Nat.sub_0_r, <- Hcount. by destruct d.
  - apply Forall2_cons_inv_l in Hslots as (slot & rest & Eslot & Hrest & ->). cbn. rewrite Eslot. cbn.
    apply NoDup_cons in Hnd as [Hn Hnd]. apply Forall_cons in Hocc as [Hocc Hall]. cbn in Hle.
    apply occupied_lookup in Hocc as (datagram & E & Eo). rewrite E. cbn. rewrite Eo.
    rewrite (IH rest (count - 1)%nat); [|done|done| | |lia|lia].
    + unfold released. cbn. replace (count - S (length rest))%nat with (count - 1 - length rest)%nat by lia. done.
    + cbn. rewrite Forall_forall in Hall |- *. intros other Hin. specialize (Hall other Hin). unfold occupied_at in *.
      rewrite list_lookup_insert_ne; [done|]. by intros ->.
    + cbn. rewrite Hcount. replace (Z.of_nat (count - 1)) with (Z.of_nat count - 1) by lia. apply wrap_id. unfold in_width. lia.
Qed.
Lemma seq_slots (slots : list nat) count : (count <= length slots)%nat ->
  Forall2 (fun index slot => slots !! index = Some slot) (seq 0 count) (take count slots).
Proof.
  intros Hle. apply Forall2_lookup. intros i. destruct (decide (i < count)%nat).
  - rewrite lookup_seq_lt by done. rewrite lookup_take_lt by done. destruct (slots !! i) eqn:E; [by constructor|].
    apply lookup_ge_None in E. lia.
  - rewrite lookup_seq_ge, lookup_take_ge by lia. constructor.
Qed.
Lemma count_bound d : data_ok d -> (length (all_used d) <= MaximumQueuedOutboundDatagrams)%nat.
Proof.
  intros Hd. rewrite <- (length_seq MaximumQueuedOutboundDatagrams 0). apply NoDup_incl_length; [apply NoDup_ListNoDup, (do_nodup d Hd)|].
  intros slot Hin. apply list_elem_of_In, (do_used d Hd), occupied_lookup in Hin as (datagram & E & _). apply list_elem_of_In.
  apply lookup_lt_Some in E. rewrite (do_outbound d Hd) in E. apply elem_of_seq. lia.
Qed.
Lemma used_bound flow d : data_ok d -> (length (used (entry_at flow d)) <= length (all_used d))%nat.
Proof.
  intros Hd. destruct (decide (flow < MaximumSockets)%nat) as [Hlt|].
  - destruct (all_used_replace flow d Hd Hlt) as (before & after & -> & _). rewrite !length_app. lia.
  - rewrite entry_at_beyond by (done || lia). cbn. lia.
Qed.
Lemma used_length flow d : data_ok d -> length (used (entry_at flow d)) = su_queued (fe_submission (entry_at flow d)).
Proof.
  intros Hd. pose proof (entry_at_ok flow d Hd) as [_ Hs Hq _]. unfold used. rewrite length_take, Hs. lia.
Qed.
(** The first datagrams of a flow are released. *)
Lemma release_prefix count flow d : data_ok d -> (count <= su_queued (fe_submission (entry_at flow d)))%nat ->
  release_slots (fe_outbound_slots (entry_at flow d)) (seq 0 count) d
    = Some (released (take count (used (entry_at flow d))) (length (all_used d)) d).
Proof.
  intros Hd Hle. pose proof (entry_at_ok flow d Hd) as [_ Hs Hq _]. pose proof (used_length flow d Hd). pose proof (used_bound flow d Hd).
  pose proof (count_bound d Hd) as Hb. change MaximumQueuedOutboundDatagrams with 8%nat in Hb.
  apply release_slots_spec.
  - unfold used. rewrite take_take, Nat.min_l by done. apply seq_slots. rewrite Hs. lia.
  - eapply sublist_NoDup; [apply (used_nodup flow d Hd)|apply sublist_take].
  - apply Forall_forall. intros slot Hin. apply (do_used d Hd), (used_elem flow). apply elem_of_take in Hin as (i & E & _). by eapply list_elem_of_lookup_2.
  - apply (do_count d Hd).
  - rewrite length_take. lia.
  - lia.
Qed.

Definition emptied (entry : FlowEntry) : FlowEntry := entry <| fe_submission ::= fun s => s <| su_queued := 0%nat |> |>.
Lemma retired_all entry : entry <| fe_submission ::= submission_Retire (su_queued (fe_submission entry)) |> = emptied entry.
Proof. destruct entry as [? ? ? ? ? ? ? [w c q] ? ?]. cbv -[Nat.sub]. by rewrite Nat.sub_diag. Qed.
Lemma emptied_ok entry : entry_ok entry -> entry_ok (emptied entry).
Proof. intros [H1 H2 H3 H4]. split; [done|done|apply Nat.le_0_l|]. intros Ho. by rewrite (H4 Ho). Qed.
Lemma discard_ok flow d : data_ok d -> (flow < MaximumSockets)%nat -> exists d', DiscardQueuedOutbound flow d = Some d' /\
  data_ok d' /\ others_same flow d d' /\ entry_at flow d' = emptied (entry_at flow d) /\ fifo flow d' = [] /\
  wd_log d' = wd_log d /\ wd_service d' = wd_service d.
Proof.
  intros Hd Hlt. pose proof (used_length flow d Hd) as Hlen. unfold DiscardQueuedOutbound, ReleaseQueuedOutbound.
  rewrite (release_prefix _ flow d Hd) by done. cbn [mbind option_bind]. rewrite firstn_all2 by lia.
  set (d1 := released _ _ d). set (d' := if negb _ then _ else _). exists d'. split; [done|].
  assert (wd_flows d' = <[flow := emptied (entry_at flow d)]> (wd_flows d)) as Ef.
  { subst d'. destruct (su_queued (fe_submission (entry_at flow d)) =? 0)%nat eqn:E; cbn [negb].
    - apply Nat.eqb_eq in E. subst d1. cbn. rewrite list_insert_id; [done|]. rewrite (flow_lookup flow d) by done. f_equal.
      destruct (entry_at flow d) as [? ? ? ? ? ? ? [w c q] ? ?]. cbn in *. by subst.
    - subst d1. unfold on_flow. cbn. rewrite (alter_insert _ _ _ (entry_at flow d)) by (by apply flow_lookup).
      by rewrite retired_all. }
  assert (wd_outbound d' = clear (used (entry_at flow d)) (wd_outbound d)) as Eo by (subst d' d1; by destruct (negb _)).
  assert (wd_outbound_count d' = Z.of_nat (length (all_used d) - length (used (entry_at flow d)))) as Ec by (subst d' d1; by destruct (negb _)).
  pose proof (used_bound flow d Hd).
  destruct (replace_ok flow (emptied (entry_at flow d)) _ _ d d' Hd Hlt (emptied_ok _ (entry_at_ok flow d Hd)) Ef Eo Ec) as (H1 & H2 & H3);
    try (by subst d' d1; destruct (negb _)).
  - by rewrite clear_length, (do_outbound d Hd).
  - apply clear_forall; [apply Nat.le_0_l|apply (do_sizes d Hd)].
  - rewrite (do_count d Hd). change (length (used (emptied (entry_at flow d)))) with 0%nat. lia.
  - constructor.
  - intros slot Hn _. by apply clear_same.
  - intros slot Hin. by apply elem_of_nil in Hin.
  - intros slot Hin _. by apply clear_free.
  - split; [done|]. split; [done|]. split; [done|]. split; [by unfold fifo; rewrite H3|]. subst d' d1. by destruct (negb _).
Qed.

(** ** Retiring the front of the queue *)

Lemma shift_slots_spec count n : forall start slots, (start + n + count <= length slots)%nat -> exists slots',
  shift_slots count (seq start n) slots = Some slots' /\ length slots' = length slots /\
  forall i, slots' !! i = if decide (start <= i < start + n)%nat then slots !! (i + count)%nat else slots !! i.
Proof.
  induction n as [|n IH]; intros start slots Hle; cbn.
  - exists slots. split; [done|]. split; [done|]. intros i. case_decide; [lia|done].
  - destruct (slots !! (start + count)%nat) as [slot|] eqn:E; [|apply lookup_ge_None in E; lia]. cbn.
    destruct (IH (S start) (<[start := slot]> slots)) as (slots' & -> & Hlen & Hat); [rewrite length_insert; lia|].
    exists slots'. split; [done|]. split; [by rewrite Hlen, length_insert|]. intros i. rewrite Hat.
    destruct (decide (S start <= i < S start + n)%nat), (decide (start <= i < start + S n)%nat); try lia.
    + by rewrite list_lookup_insert_ne by lia.
    + assert (i = start) as -> by lia. rewrite E. apply list_lookup_insert_eq. lia.
    + rewrite list_lookup_insert_ne by lia. done.
Qed.
Lemma retire_ok flow count d : data_ok d -> (flow < MaximumSockets)%nat -> (0 < count)%nat -> (count <= su_queued (fe_submission (entry_at flow d)))%nat ->
  exists d' slots, RetireQueuedOutboundPrefix flow count d = Some d' /\ data_ok d' /\ others_same flow d d' /\
  entry_at flow d' = ((entry_at flow d) <| fe_outbound_slots := slots |>) <| fe_submission ::= submission_Retire count |> /\
  fifo flow d' = drop count (fifo flow d) /\ wd_log d' = wd_log d /\ wd_service d' = wd_service d.
Proof.
  intros Hd Hlt Hpos Hle. pose proof (used_length flow d Hd) as Hlen. pose proof (entry_at_ok flow d Hd) as [He1 He2 He3 He4].
  unfold RetireQueuedOutboundPrefix. rewrite (proj2 (Nat.ltb_ge _ _) Hle), (release_prefix _ flow d Hd) by done. cbn [mbind option_bind].
  change (entry_at flow (released (take count (used (entry_at flow d))) (length (all_used d)) d)) with (entry_at flow d).
  set (queued := su_queued (fe_submission (entry_at flow d))) in *.
  destruct (shift_slots_spec count (queued - count) 0 (fe_outbound_slots (entry_at flow d))) as (slots & -> & Hslots & Hat); [lia|].
  cbn [mbind option_bind]. set (d' := on_flow _ _ _). exists d', slots. split; [done|].
  set (entry := ((entry_at flow d) <| fe_outbound_slots := slots |>) <| fe_submission ::= submission_Retire count |>).
  assert (used entry = drop count (used (entry_at flow d))) as Eu.
  { unfold used. subst entry. cbn. change (su_queued _) with queued at 1. apply list_eq. intros i.
    rewrite lookup_drop. destruct (decide (i < queued - count)%nat).
    - rewrite !lookup_take_lt by lia. rewrite Hat, decide_True by lia. f_equal. lia.
    - rewrite !lookup_take_ge by lia. done. }
  assert (wd_flows d' = <[flow := entry]> (wd_flows d)) as Ef.
  { subst d'. unfold on_flow. cbn. rewrite (alter_insert _ _ _ (entry_at flow d)); [done|]. by apply flow_lookup. }
  assert (wd_outbound d' = clear (take count (used (entry_at flow d))) (wd_outbound d)) as Eo by done.
  pose proof (used_bound flow d Hd). pose proof (used_nodup flow d Hd) as Hnd.
  rewrite <- (take_drop count (used (entry_at flow d))), NoDup_app in Hnd. destruct Hnd as (_ & Hdisj & Hnd).
  assert (Hin_drop : forall slot, slot ∈ drop count (used (entry_at flow d)) -> slot ∈ used (entry_at flow d)).
  { intros slot Hin. rewrite <- (take_drop count (used (entry_at flow d))). apply elem_of_app. by right. }
  assert (entry_ok entry) as Hentry.
  { split; [done|by rewrite <- He2|cbn; unfold queued in *; lia|]. intros Ho. specialize (He4 Ho). exfalso.
    unfold queued in Hle. rewrite He4 in Hle. cbn in Hle. lia. }
  destruct (replace_ok flow entry _ _ d d' Hd Hlt Hentry Ef Eo eq_refl) as (H1 & H2 & H3); try done.
  - by rewrite clear_length, (do_outbound d Hd).
  - apply clear_forall; [apply Nat.le_0_l|apply (do_sizes d Hd)].
  - rewrite Eu, length_drop. change (wd_outbound_count d') with (Z.of_nat (length (all_used d) - length (take count (used (entry_at flow d))))).
    rewrite (do_count d Hd), length_take. lia.
  - by rewrite Eu.
  - intros slot Hn _. apply clear_same. intros Hin. apply Hn. apply elem_of_take in Hin as (i & E & _). by eapply list_elem_of_lookup_2.
  - intros slot Hin. rewrite Eu in Hin. split; [|left; by apply Hin_drop]. unfold occupied_at.
    rewrite clear_same by (intros Hin'; by eapply Hdisj). by apply (do_used d Hd), (used_elem flow), Hin_drop.
  - intros slot Hin Hn. rewrite Eu in Hn. apply clear_free. rewrite <- (take_drop count (used (entry_at flow d))) in Hin. set_solver.
  - split; [done|]. split; [done|]. split; [done|]. split; [|done]. unfold fifo. rewrite H3, Eu, <- fmap_drop.
    rewrite Eo. apply list_fmap_ext. intros i slot Hslot. apply list_elem_of_lookup_2 in Hslot. unfold payload_at.
    rewrite clear_same; [done|]. intros Hin. by eapply Hdisj.
Qed.

(** ** Putting a datagram on the queue *)

Lemma free_slot d : data_ok d -> wd_outbound_count d < Z.of_nat (length (wd_outbound d)) ->
  exists slot datagram, find_index (fun datagram => negb (od_occupied datagram)) (wd_outbound d) = Some slot /\
    wd_outbound d !! slot = Some datagram /\ od_occupied datagram = false.
Proof.
  intros Hd Hlt. destruct (find_index _ (wd_outbound d)) as [slot|] eqn:E.
  - apply find_index_some in E as (datagram & E & Ho & _). exists slot, datagram. split; [done|]. split; [done|]. by apply negb_true_iff.
  - exfalso. pose proof (find_index_none _ _ E) as Hall. rewrite (do_count d Hd) in Hlt.
    assert (length (seq 0 (length (wd_outbound d))) <= length (all_used d))%nat as Hle; [|rewrite length_seq in Hle; lia].
    apply NoDup_incl_length; [apply seq_NoDup|]. intros slot Hin. apply list_elem_of_In. apply list_elem_of_In, elem_of_seq in Hin.
    apply (do_used d Hd). unfold occupied_at. destruct (wd_outbound d !! slot) as [datagram|] eqn:Es; [|apply lookup_ge_None in Es; lia].
    apply list_elem_of_lookup_2, Hall in Es. cbn. by apply negb_false_iff.
Qed.
Lemma queue_full flow payload d : data_ok d -> admission_available flow d = false -> QueueOutbound flow payload d = Some (false, d).
Proof.
  intros Hd Ha. unfold admission_available in Ha. unfold QueueOutbound.
  destruct (CanAccept _ _); [|done]. cbn in Ha |- *. apply Z.ltb_ge in Ha. rewrite (proj2 (Z.eqb_eq _ _)); [done|].
  pose proof (count_bound d Hd). rewrite (do_count d Hd), (do_outbound d Hd) in *. lia.
Qed.
Lemma enqueue_ok flow payload d : data_ok d -> fe_occupied (entry_at flow d) = true -> admission_available flow d = true ->
  (length payload <= MaximumQueuedOutboundPayloadBytes)%nat ->
  exists d' slot, QueueOutbound flow payload d = Some (true, d') /\ data_ok d' /\ others_same flow d d' /\
  entry_at flow d' = ((entry_at flow d) <| fe_outbound_slots ::= <[su_queued (fe_submission (entry_at flow d)) := slot]> |>)
                       <| fe_submission ::= submission_Enqueue |> /\
  fifo flow d' = fifo flow d ++ [payload] /\ wd_log d' = wd_log d ++ [Ev_Sent flow payload].
Proof.
  intros Hd Hocc Ha Hsize. pose proof (occupied_bound flow d Hd Hocc) as Hlt. pose proof (used_length flow d Hd) as Hlen.
  pose proof (entry_at_ok flow d Hd) as [He1 He2 He3 He4].
  unfold admission_available in Ha. apply andb_true_iff in Ha as [Hcan Hroom]. apply Z.ltb_lt in Hroom.
  destruct (free_slot d Hd Hroom) as (slot & datagram & Efind & Eslot & Efree).
  unfold QueueOutbound. rewrite Hcan. cbn [negb orb]. rewrite (proj2 (Z.eqb_neq _ _)) by lia. unfold AllocateOutbound. rewrite Efind.
  rewrite (proj2 (Nat.ltb_ge _ _) Hsize). cbv zeta. unfold CanAccept in Hcan. bool_prop.
  set (queued := su_queued (fe_submission (entry_at flow d))) in *.
  match goal with |- context [if (length (fe_outbound_slots ?e) <=? ?q)%nat then _ else _] =>
    change e with (entry_at flow d); change q with queued end.
  rewrite (proj2 (Nat.leb_gt _ _)) by lia. match goal with |- context [Some (true, ?e)] => set (d' := e) end.
  exists d', slot. split; [done|].
  set (entry := ((entry_at flow d) <| fe_outbound_slots ::= <[queued := slot]> |>) <| fe_submission ::= submission_Enqueue |>).
  set (outbound := alter (fun datagram => datagram <| od_payload := payload |>) slot
                     (alter (fun datagram => datagram <| od_occupied := true |>) slot (wd_outbound d))).
  assert (wd_outbound d' = outbound) as Eo by done.
  assert (outbound !! slot = Some (mk_outbound_datagram true payload)) as Eat.
  { subst outbound. rewrite !list_lookup_alter_eq, Eslot. done. }
  assert (forall other, other <> slot -> outbound !! other = wd_outbound d !! other) as Ene.
  { intros other Hne. subst outbound. by rewrite !list_lookup_alter_ne by done. }
  assert (used entry = used (entry_at flow d) ++ [slot]) as Eu.
  { unfold used. subst entry. cbn. change (su_queued (fe_submission (entry_at flow d))) with queued.
    rewrite (take_S_r _ _ slot); [|apply list_lookup_insert_eq; lia]. by rewrite take_insert_ge by lia. }
  assert (occupied_at (wd_outbound d) slot = false) as Hf by (unfold occupied_at; by rewrite Eslot).
  assert (slot ∉ all_used d) as Hnew by (intros Hin; apply (do_used d Hd) in Hin; congruence).
  assert (slot ∉ used (entry_at flow d)) as Hnew' by (intros Hin; by eapply Hnew, used_elem).
  assert (wd_flows d' = <[flow := entry]> (wd_flows d)) as Ef.
  { subst d'. unfold log_event, on_flow. cbn. rewrite (alter_insert _ _ _ (entry_at flow d)); [done|]. by apply flow_lookup. }
  assert (entry_ok entry) as Hentry.
  { split; [done|cbn; by rewrite length_insert|cbn; unfold queued in *; lia|]. intros Ho. cbn in Ho. congruence. }
  destruct (replace_ok flow entry _ _ d d' Hd Hlt Hentry Ef Eo eq_refl) as (K1 & K2 & K3); try done.
  - subst outbound. by rewrite !length_alter, (do_outbound d Hd).
  - apply Forall_lookup. intros i x Ex. destruct (decide (i = slot)) as [->|].
    + rewrite Eat in Ex. by injection Ex as <-.
    + rewrite Ene in Ex by done. exact (Forall_lookup_1 _ _ _ _ (do_sizes d Hd) Ex).
  - change (wd_outbound_count d') with (u64 (wd_outbound_count d + 1)). rewrite Eu, length_app. cbn [length].
    pose proof (count_bound d Hd) as Hb. change MaximumQueuedOutboundDatagrams with 8%nat in Hb. rewrite (do_count d Hd).
    rewrite wrap_id by (unfold in_width; lia). lia.
  - rewrite Eu. apply NoDup_app. split; [by apply used_nodup|]. split; [|apply NoDup_singleton]. intros other Hin ->%list_elem_of_singleton. done.
  - intros other _ Hn. apply Ene. intros ->. apply Hn. rewrite Eu. set_solver.
  - intros other Hin. rewrite Eu in Hin. apply elem_of_app in Hin as [Hin| ->%list_elem_of_singleton].
    + split; [|by left]. unfold occupied_at. rewrite Ene by (by intros ->). by apply (do_used d Hd), (used_elem flow).
    + split; [unfold occupied_at; by rewrite Eat|by right].
  - intros other Hin Hn. exfalso. apply Hn. rewrite Eu. set_solver.
  - split; [done|]. split; [done|]. split; [done|]. split; [|done]. unfold fifo. rewrite K3, Eu, Eo, fmap_app. f_equal.
    + apply list_fmap_ext. intros i other Hother. apply list_elem_of_lookup_2 in Hother. unfold payload_at. rewrite Ene; [done|]. by intros ->.
    + cbn. unfold payload_at. by rewrite Eat.
Qed.
End Queues.
