(* ===== verification/TunnelSockets.v ===== *)
(** * What the worker does for a socket

    The specification [SocketSpec] of one flow: a queue of datagrams that wait to be
    submitted, the datagrams that wait to be received, and whether the flow is writable or
    closed.  [socket_step] says which events of the worker's log are possible, and what
    they change; this file shows that the functions of TunnelWorker.v implement it, and
    that none of them fails. *)

From stdpp Require Import gmap.
From S2P Require Import Prelude Endian Messages PacketQueue Platform Session Base64 InnerPacket Timers.
From S2P Require Import Crypto Device Data Identity Admission Handshake Peer PeerController RuntimeEvents.
From S2P Require Import FlowPolicy FlowPlane FlowTuples TunnelClient TunnelWorker TunnelQueues.
Local Open Scope Z_scope.

(** ** The specification *)

Record SocketSpec := mk_socket {
  so_open : option (Z * Z * Z * TunnelFlowEndpoint);
  so_closed : bool;
  so_writable : bool;
  so_queue : list bytes;
  so_held : list bytes
}.
#[export] Instance eta_socket : Eta SocketSpec := fun r =>
  mk_socket (so_open r) (so_closed r) (so_writable r) (so_queue r) (so_held r).
Definition socket_init : SocketSpec := mk_socket None false true [] [].
Definition socket_close (s : SocketSpec) : SocketSpec :=
  ((s <| so_closed := true |>) <| so_writable := false |>) <| so_queue := [] |>.

Definition event_flow (event : WorkerEvent) : nat :=
  match event with
  | Ev_Opened flow _ _ _ _ | Ev_Reset flow | Ev_Sent flow _ | Ev_Batch flow _ _ _ _
  | Ev_Completion flow _ _ | Ev_Closed flow | Ev_Received flow _ _ _ => flow
  end.
(** The descriptors of datagrams that follow each other from an offset on. *)
Fixpoint batch_descriptors (handle tag offset : Z) (batch : list bytes) : list DatagramDescriptor :=
  match batch with
  | [] => []
  | payload :: batch =>
      mk_descriptor handle offset (Z.of_nat (length payload)) tag
        :: batch_descriptors handle tag (offset + Z.of_nat (length payload)) batch
  end.
(** The effect of a completion record. *)
Definition socket_completion (completion : CompletionRecord) (payload : bytes) (s : SocketSpec) : SocketSpec :=
  match so_open s with
  | None => s
  | Some (_, _, handle, remote) =>
      if negb (cr_flow completion =? handle) || so_closed s then s
      else
        match cr_type completion with
        | CompletionType_FlowStateChanged => match cr_flow_state completion with FlowState_Closed => socket_close s | _ => s end
        | CompletionType_Writable => s <| so_writable := true |>
        | CompletionType_InboundDatagram =>
            if SameEndpoint (cr_remote completion) remote && (length (so_held s) <? MaximumInboundDatagramsPerSocket)%nat
            then s <| so_held ::= fun held => held ++ [payload] |> else s
        | CompletionType_PolicyChanged => s
        end
  end.
(** The effect of the service's answer to a batch. *)
Definition socket_submitted (statuses : list ProtocolStatus) (s : SocketSpec) : SocketSpec :=
  let '(accepted_count, queue_full, terminal_failure) := read_dispositions statuses 0 false false in
  let s := s <| so_queue ::= drop accepted_count |> in
  if terminal_failure then socket_close s else if queue_full then s <| so_writable := false |> else s.

Inductive socket_step : SocketSpec -> WorkerEvent -> SocketSpec -> Prop :=
  | socket_opened s flow owner descriptor handle remote : so_open s = None ->
      socket_step s (Ev_Opened flow owner descriptor handle remote) (mk_socket (Some (owner, descriptor, handle, remote)) false true [] [])
  | socket_reset s flow : socket_step s (Ev_Reset flow) socket_init
  | socket_sent s flow payload : so_open s <> None -> so_closed s = false -> so_writable s = true ->
      (length (so_queue s) < MaximumQueuedOutboundDatagramsPerSocket)%nat -> (length payload <= MaximumQueuedOutboundPayloadBytes)%nat ->
      socket_step s (Ev_Sent flow payload) (s <| so_queue ::= fun queue => queue ++ [payload] |>)
  | socket_batch s flow client owner descriptor handle remote batch statuses : so_open s = Some (owner, descriptor, handle, remote) ->
      so_closed s = false -> so_writable s = true ->
      batch = take MaximumBatchEntriesPerSubmission (so_queue s) -> batch <> [] -> length statuses = length batch ->
      socket_step s (Ev_Batch flow client (batch_descriptors handle (u64 descriptor) 0 batch) (mjoin batch) statuses) (socket_submitted statuses s)
  | socket_completed s flow completion payload : so_open s <> None ->
      socket_step s (Ev_Completion flow completion payload) (socket_completion completion payload s)
  | socket_ended s flow : so_open s <> None -> socket_step s (Ev_Closed flow) (socket_close s)
  | socket_received s flow capacity owner descriptor handle remote payload held : so_open s = Some (owner, descriptor, handle, remote) ->
      so_closed s = false -> so_held s ≡ₚ payload :: held ->
      socket_step s (Ev_Received flow capacity remote (take capacity payload)) (s <| so_held := held |>).

Inductive socket_steps : SocketSpec -> list WorkerEvent -> SocketSpec -> Prop :=
  | socket_steps_nil s : socket_steps s [] s
  | socket_steps_snoc s events event s1 s2 : socket_steps s events s1 -> socket_step s1 event s2 -> socket_steps s (events ++ [event]) s2.
(** The events of one flow are steps of its specification. *)
Definition socket_trace (flow : nat) (log : list WorkerEvent) (s : SocketSpec) : Prop :=
  socket_steps socket_init (filter (fun event => event_flow event = flow) log) s.

Lemma socket_steps_app s1 events1 s2 events2 s3 : socket_steps s1 events1 s2 -> socket_steps s2 events2 s3 -> socket_steps s1 (events1 ++ events2) s3.
Proof.
  intros H1 H2. induction H2 as [|s2 events event s3 s4 H2 IH H3]; [by rewrite app_nil_r|]. rewrite app_assoc. econstructor; [by apply IH|done].
Qed.
Lemma socket_steps_one s event s' : socket_step s event s' -> socket_steps s [event] s'.
Proof. intros Hs. apply (socket_steps_snoc s [] event s s'); [constructor|done]. Qed.

Section Sockets.
Context {T : Type} `{TunnelService T}.
Implicit Types (d : WorkerData T).

Definition held (entry : FlowEntry) : list bytes := id_payload <$> filter (fun datagram => id_occupied datagram = true) (fe_inbound entry).
Definition opened_as (entry : FlowEntry) : option (Z * Z * Z * TunnelFlowEndpoint) :=
  if fe_occupied entry then Some (fe_owner entry, fe_descriptor entry, fe_flow entry, fe_remote entry) else None.
(** The state of a flow implements that of its specification. *)
Record represents_as (entry : FlowEntry) (queue : list bytes) (s : SocketSpec) : Prop := {
  re_open : so_open s = opened_as entry;
  re_closed : so_closed s = su_closed (fe_submission entry);
  re_writable : so_writable s = su_writable (fe_submission entry);
  re_queue : so_queue s = queue;
  re_held : so_held s ≡ₚ held entry;
  re_remote : Forall (fun datagram => id_occupied datagram = true -> id_remote datagram = fe_remote entry) (fe_inbound entry)
}.
Definition represents (flow : nat) d (s : SocketSpec) : Prop := represents_as (entry_at flow d) (fifo flow d) s.
(** A function works on one flow, logs events of it, and they are steps of its specification. *)
Definition advances (flow : nat) d d' : Prop :=
  data_ok d' /\ others_same flow d d' /\ exists events, wd_log d' = wd_log d ++ events /\
    Forall (fun event => event_flow event = flow) events /\
    forall s, represents flow d s -> exists s', socket_steps s events s' /\ represents flow d' s'.
Definition sockets_ok d : Prop :=
  data_ok d /\ forall flow, (flow < MaximumSockets)%nat -> exists s, socket_trace flow (wd_log d) s /\ represents flow d s.

Lemma represents_ext flow d d' s : entry_at flow d' = entry_at flow d -> fifo flow d' = fifo flow d -> represents flow d s -> represents flow d' s.
Proof. unfold represents. by intros -> ->. Qed.
Lemma advances_refl flow d : data_ok d -> advances flow d d.
Proof. intros Hd. split; [done|]. split; [done|]. exists []. rewrite app_nil_r. split; [done|]. split; [constructor|]. intros s Hs. exists s. split; [constructor|done]. Qed.
Lemma advances_trans flow d1 d2 d3 : advances flow d1 d2 -> advances flow d2 d3 -> advances flow d1 d3.
Proof.
  intros (Hd2 & Ho & events & El & Hev & Hs) (Hd3 & Ho' & events' & El' & Hev' & Hs'). split; [done|]. split; [by eapply others_same_trans|].
  exists (events ++ events'). split; [by rewrite El', El, app_assoc|]. split; [by apply Forall_app|].
  intros s Hr. destruct (Hs s Hr) as (s2 & H1 & Hr2). destruct (Hs' s2 Hr2) as (s3 & H2 & Hr3). exists s3. split; [by eapply socket_steps_app|done].
Qed.
Lemma filter_none {A} (P : A -> Prop) `{forall a, Decision (P a)} l : Forall (fun a => ~ P a) l -> filter P l = [].
Proof. induction 1 as [|a l Ha Hl IH]; [done|]. by rewrite filter_cons_False. Qed.
Lemma filter_every {A} (P : A -> Prop) `{forall a, Decision (P a)} l : Forall P l -> filter P l = l.
Proof. induction 1 as [|a l Ha Hl IH]; [done|]. by rewrite filter_cons_True, IH. Qed.
Lemma advances_sockets flow d d' : advances flow d d' -> sockets_ok d -> sockets_ok d'.
Proof.
  intros (Hd' & Ho & events & El & Hev & Hs) [Hd Hall]. split; [done|]. intros other Hlt. destruct (Hall other Hlt) as (s & Ht & Hr).
  unfold socket_trace in *. rewrite El, filter_app. destruct (decide (other = flow)) as [->|Hne].
  - rewrite (filter_every _ events) by done. destruct (Hs s Hr) as (s' & Hsteps & Hr'). exists s'. split; [by eapply socket_steps_app|done].
  - rewrite (filter_none _ events), app_nil_r by (eapply Forall_impl; [exact Hev|]; by intros event ->).
    exists s. split; [done|]. destruct (Ho other Hne) as [Ee Ef]. by eapply represents_ext.
Qed.

Lemma log_event_ok event d : data_ok d -> data_ok (log_event event d).
Proof. by intros []. Qed.
Lemma advances_service flow t d : data_ok d -> advances flow d (d <| wd_service := t |>).
Proof.
  intros Hd. split; [by apply service_ok|]. split; [done|]. exists []. rewrite app_nil_r. split; [done|]. split; [constructor|].
  intros s Hs. exists s. split; [constructor|done].
Qed.
(** One event, with a change of the entry that does not touch the queue. *)
Lemma advances_event flow f event d : data_ok d -> (flow < MaximumSockets)%nat -> entry_ok (f (entry_at flow d)) ->
  used (f (entry_at flow d)) = used (entry_at flow d) -> event_flow event = flow ->
  (forall s, represents flow d s -> exists s', socket_step s event s' /\ represents_as (f (entry_at flow d)) (fifo flow d) s') ->
  advances flow d (log_event event (on_flow flow f d)).
Proof.
  intros Hd Hlt Hentry Hused Hev Hstep. destruct (on_flow_ok f flow d Hd Hlt Hentry Hused) as (H1 & H2 & H3 & H4).
  split; [by apply log_event_ok|]. split; [exact H2|]. exists [event]. split; [done|]. split; [by repeat constructor|].
  intros s Hs. destruct (Hstep s Hs) as (s' & Hs' & Hr). exists s'. split; [by apply socket_steps_one|]. unfold represents.
  change (represents_as (entry_at flow (on_flow flow f d)) (fifo flow (on_flow flow f d)) s'). by rewrite H3, H4.
Qed.
(** An event that changes nothing. *)
Lemma advances_log flow event d : data_ok d -> event_flow event = flow ->
  (forall s, represents flow d s -> exists s', socket_step s event s' /\ represents flow d s') -> advances flow d (log_event event d).
Proof.
  intros Hd Hev Hstep. split; [by apply log_event_ok|]. split; [done|]. exists [event]. split; [done|]. split; [by repeat constructor|].
  intros s Hs. destruct (Hstep s Hs) as (s' & Hs' & Hr). exists s'. split; [by apply socket_steps_one|exact Hr].
Qed.
Lemma occupied_opened flow d s : represents flow d s -> fe_occupied (entry_at flow d) = true ->
  so_open s = Some (fe_owner (entry_at flow d), fe_descriptor (entry_at flow d), fe_flow (entry_at flow d), fe_remote (entry_at flow d)).
Proof. intros [Ho _ _ _ _ _] Hocc. rewrite Ho. unfold opened_as. by rewrite Hocc. Qed.

(** ** Closing and resetting *)

Lemma close_ok flow d : data_ok d -> fe_occupied (entry_at flow d) = true -> exists d', close_submission flow d = Some d' /\
  data_ok d' /\ others_same flow d d' /\ wd_log d' = wd_log d ++ [Ev_Closed flow] /\
  fe_occupied (entry_at flow d') = true /\ su_closed (fe_submission (entry_at flow d')) = true /\
  forall s, represents_as (entry_at flow d) (so_queue s) s -> represents flow d' (socket_close s).
Proof.
  intros Hd Hocc. pose proof (occupied_bound flow d Hd Hocc) as Hlt. unfold close_submission.
  set (f := fun entry : FlowEntry => entry <| fe_submission ::= submission_Close |>). set (d1 := on_flow flow f d).
  pose proof (entry_at_ok flow d Hd) as [He1 He2 He3 He4].
  assert (entry_ok (f (entry_at flow d))) as Hf by (split; [done|done|done|]; intros Ho; cbn in Ho; congruence).
  destruct (on_flow_ok f flow d Hd Hlt Hf eq_refl) as (H1 & H2 & H3 & H4).
  destruct (discard_ok flow d1 H1 Hlt) as (d2 & -> & Hd2 & Ho2 & He & Hfifo & Hlog & _). cbn. exists (log_event (Ev_Closed flow) d2). split; [done|].
  assert (entry_at flow d2 = emptied (f (entry_at flow d))) as Ee by (rewrite He; f_equal; exact H3).
  split; [by apply log_event_ok|]. split; [eapply others_same_trans; [exact H2|exact Ho2]|]. split; [cbn; by rewrite Hlog|].
  unfold represents. change (entry_at flow (log_event _ d2)) with (entry_at flow d2). change (fifo flow (log_event _ d2)) with (fifo flow d2).
  rewrite Ee, Hfifo. split; [done|]. split; [done|]. intros s [R1 R2 R3 R4 R5 R6]. by split.
Qed.
Lemma close_advances flow d : data_ok d -> fe_occupied (entry_at flow d) = true -> exists d', close_submission flow d = Some d' /\
  advances flow d d' /\ fe_occupied (entry_at flow d') = true /\ su_closed (fe_submission (entry_at flow d')) = true.
Proof.
  intros Hd Hocc. destruct (close_ok flow d Hd Hocc) as (d' & E & Hd' & Ho & Hlog & Hocc' & Hclosed & Hr). exists d'. split; [done|].
  split; [|done]. split; [done|]. split; [done|]. exists [Ev_Closed flow]. split; [done|]. split; [by repeat constructor|]. intros s Hs.
  exists (socket_close s). split; [|apply Hr; by rewrite (re_queue _ _ _ Hs)]. apply socket_steps_one. constructor. by rewrite (occupied_opened _ _ _ Hs Hocc).
Qed.
(** A flow can be reset whatever its state, also while it is opened. *)
Lemma reset_ok flow d : data_ok d -> (flow < MaximumSockets)%nat -> exists d', ResetFlow flow d = Some d' /\
  data_ok d' /\ others_same flow d d' /\ entry_at flow d' = flow_entry_init /\ wd_log d' = wd_log d ++ [Ev_Reset flow].
Proof.
  intros Hd Hlt. unfold ResetFlow. destruct (discard_ok flow d Hd Hlt) as (d1 & -> & Hd1 & Ho1 & He & Hfifo & Hlog & _). cbn [mbind option_bind].
  set (d2 := d1 <| wd_service ::= _ |>). assert (data_ok d2) as Hd2 by by destruct Hd1. assert (entry_at flow d2 = entry_at flow d1) as Ee by done.
  assert (used flow_entry_init = used (entry_at flow d2)) as Eu by by rewrite Ee, He.
  destruct (on_flow_ok (fun _ => flow_entry_init) flow d2 Hd2 Hlt entry_init_ok Eu) as (H1 & H2 & H3 & _).
  eexists. split; [done|]. split; [by apply log_event_ok|]. split; [eapply others_same_trans; [exact Ho1|exact H2]|]. split; [exact H3|].
  cbn. by rewrite Hlog.
Qed.
Lemma init_represents flow d : entry_at flow d = flow_entry_init -> represents flow d socket_init.
Proof. intros E. unfold represents, fifo. rewrite E. split; [done..|]. by repeat constructor. Qed.
Lemma reset_advances flow d : data_ok d -> (flow < MaximumSockets)%nat -> exists d', ResetFlow flow d = Some d' /\
  advances flow d d' /\ entry_at flow d' = flow_entry_init.
Proof.
  intros Hd Hlt. destruct (reset_ok flow d Hd Hlt) as (d' & E & Hd' & Ho & He & Hlog). exists d'. split; [done|]. split; [|done].
  split; [done|]. split; [done|]. exists [Ev_Reset flow]. split; [done|]. split; [by repeat constructor|]. intros s _. exists socket_init.
  split; [apply socket_steps_one; constructor|by apply init_represents].
Qed.
Lemma close_flow_advances flow d : data_ok d -> (flow < MaximumSockets)%nat -> exists d', CloseFlow flow d = Some d' /\
  advances flow d d' /\ entry_at flow d' = flow_entry_init.
Proof.
  intros Hd Hlt. unfold CloseFlow. set (d1 := if _ : bool then _ else d).
  assert (data_ok d1 /\ advances flow d d1) as [Hd1 Ha].
  { subst d1. destruct (_ && _); [|by split; [|apply advances_refl] ]. by destruct (advances_service flow (snd (client_CloseFlow (fe_client (entry_at flow d)) (fe_flow (entry_at flow d)) (wd_service d))) d Hd). }
  destruct (reset_advances flow d1 Hd1 Hlt) as (d' & E & Ha' & He). exists d'. split; [done|]. split; [by eapply advances_trans|done].
Qed.

(** ** Datagrams that arrive *)

Lemma held_middle entry before datagram after : fe_inbound entry = before ++ datagram :: after ->
  held entry = (id_payload <$> filter (fun datagram => id_occupied datagram = true) before)
    ++ (if id_occupied datagram then [id_payload datagram] else [])
    ++ (id_payload <$> filter (fun datagram => id_occupied datagram = true) after).
Proof.
  intros E. unfold held. rewrite E, filter_app, fmap_app. f_equal. destruct (id_occupied datagram) eqn:Eo.
  - by rewrite filter_cons_True.
  - rewrite filter_cons_False; [done|]. by rewrite Eo.
Qed.
(** One of the datagrams of a flow is replaced. *)
Lemma held_insert entry slot old new : fe_inbound entry !! slot = Some old -> exists rest,
  held entry ≡ₚ (if id_occupied old then [id_payload old] else []) ++ rest /\
  held (entry <| fe_inbound ::= <[slot := new]> |>) ≡ₚ (if id_occupied new then [id_payload new] else []) ++ rest.
Proof.
  intros E. pose proof (take_drop_middle _ _ _ E) as Emid. symmetry in Emid.
  assert (fe_inbound (entry <| fe_inbound ::= <[slot := new]> |>) = take slot (fe_inbound entry) ++ new :: drop (S slot) (fe_inbound entry)) as Enew.
  { cbn. apply insert_take_drop. by eapply lookup_lt_Some. }
  eexists ((id_payload <$> filter _ (take slot (fe_inbound entry))) ++ (id_payload <$> filter _ (drop (S slot) (fe_inbound entry)))).
  split; [rewrite (held_middle _ _ _ _ Emid)|rewrite (held_middle _ _ _ _ Enew)]; by rewrite !app_assoc, (Permutation_app_comm (_ <$> _)), <- ?app_assoc.
Qed.
Lemma held_room flow d : data_ok d ->
  if free_inbound flow d is Some slot
  then exists old, fe_inbound (entry_at flow d) !! slot = Some old /\ id_occupied old = false /\
       (length (held (entry_at flow d)) < MaximumInboundDatagramsPerSocket)%nat
  else length (held (entry_at flow d)) = MaximumInboundDatagramsPerSocket.
Proof.
  intros Hd. pose proof (eo_inbound _ (entry_at_ok flow d Hd)) as Hlen. unfold free_inbound. destruct (find_index _ _) as [slot|] eqn:E.
  - apply find_index_some in E as (old & E & Ho & _). apply negb_true_iff in Ho. exists old. split; [done|]. split; [done|].
    pose proof (take_drop_middle _ _ _ E) as Emid. symmetry in Emid. pose proof (f_equal length Emid) as El. rewrite length_app in El. cbn [length] in El.
    rewrite (held_middle _ _ _ _ Emid), Ho, <- Hlen. rewrite !length_app, !length_fmap. cbn [length]. pose proof (length_filter (fun datagram => id_occupied datagram = true) (take slot (fe_inbound (entry_at flow d)))).
    pose proof (length_filter (fun datagram => id_occupied datagram = true) (drop (S slot) (fe_inbound (entry_at flow d)))).
    lia.
  - unfold held. rewrite length_fmap, filter_every; [done|]. apply Forall_forall. intros datagram Hin.
    apply negb_false_iff. by apply (find_index_none _ _ E).
Qed.
Lemma set_inbound_ok slot datagram entry : entry_ok entry -> fe_occupied entry = true -> entry_ok (entry <| fe_inbound ::= <[slot := datagram]> |>).
Proof. intros [H1 H2 H3 H4] Hocc. split; [cbn; by rewrite length_insert|done|done|]. intros Ho. cbn in Ho. congruence. Qed.

Lemma SameEndpoint_to endpoint value : SameEndpoint endpoint value = true -> ToEndpoint endpoint = value.
Proof. unfold SameEndpoint, ToEndpoint. intros E. destruct value as [address port]. cbn in E. bool_prop. by f_equal. Qed.
#[local] Arguments NoteWritable : simpl never.
Lemma completion_advances flow completion d : data_ok d -> fe_occupied (entry_at flow d) = true ->
  (cr_type completion = CompletionType_InboundDatagram -> (Z.to_nat (cr_payload_size completion) <= MaximumUdpPayloadStorageBytes)%nat /\
     (Z.to_nat (cr_payload_offset completion) + Z.to_nat (cr_payload_size completion) <= length (wd_completion_payload d))%nat) ->
  exists d', handle_completion flow completion d = Some d' /\ advances flow d d' /\ fe_occupied (entry_at flow d') = true.
Proof.
  intros Hd Hocc Hvalid. pose proof (occupied_bound flow d Hd Hocc) as Hlt. pose proof (entry_at_ok flow d Hd) as Hentry.
  unfold handle_completion. cbv zeta.
  set (payload := subspan _ _ _). set (ev := Ev_Completion flow completion payload). set (d1 := log_event ev d).
  assert (data_ok d1) as Hd1 by by apply log_event_ok.
  change (entry_at flow d1) with (entry_at flow d). set (entry := entry_at flow d) in *.
  assert (forall s, represents flow d s -> socket_completion completion payload s =
            (if negb (cr_flow completion =? fe_flow entry) || su_closed (fe_submission entry) then s
             else match cr_type completion with
                  | CompletionType_FlowStateChanged => match cr_flow_state completion with FlowState_Closed => socket_close s | _ => s end
                  | CompletionType_Writable => s <| so_writable := true |>
                  | CompletionType_InboundDatagram =>
                      if SameEndpoint (cr_remote completion) (fe_remote entry) && (length (so_held s) <? MaximumInboundDatagramsPerSocket)%nat
                      then s <| so_held ::= fun held => held ++ [payload] |> else s
                  | CompletionType_PolicyChanged => s
                  end)) as Espec.
  { intros s Hs. unfold socket_completion. rewrite (occupied_opened _ _ _ Hs Hocc), (re_closed _ _ _ Hs). done. }
  assert (forall s, represents flow d s -> socket_step s ev (socket_completion completion payload s)) as Hstep.
  { intros s Hs. constructor. by rewrite (occupied_opened _ _ _ Hs Hocc). }
  assert ((forall s, represents flow d s -> socket_completion completion payload s = s) -> advances flow d d1) as Hnothing.
  { intros Hsame. apply advances_log; [done|done|]. intros s Hs. exists s. split; [|done]. rewrite <- (Hsame s Hs) at 2. by apply Hstep. }
  destruct (negb (cr_flow completion =? fe_flow entry)) eqn:Eflow.
  { exists d1. split; [done|]. split; [|done]. apply Hnothing. intros s Hs. by rewrite (Espec s Hs). }
  destruct (su_closed (fe_submission entry)) eqn:Eclosed.
  { exists d1. split; [done|]. split; [|done]. apply Hnothing. intros s Hs. by rewrite (Espec s Hs). }
  cbn [orb] in Espec. destruct (cr_type completion) eqn:Etype.
  - destruct (Hvalid eq_refl) as [Hsize Hin]. destruct (SameEndpoint (cr_remote completion) (fe_remote entry)) eqn:Esame; cbn [negb andb] in *.
    2:{ exists d1. split; [done|]. split; [|done]. apply Hnothing. intros s Hs. by rewrite (Espec s Hs). }
    change (free_inbound flow d1) with (free_inbound flow d). pose proof (held_room flow d Hd) as Hroom.
    change (wd_completion_payload d1) with (wd_completion_payload d).
    destruct (free_inbound flow d) as [slot|].
    + destruct Hroom as (old & Eold & Efree & Hlen). rewrite (proj2 (Nat.ltb_ge _ _) Hsize), (proj2 (Nat.ltb_ge _ _) Hin). cbn [orb].
      set (new := mk_inbound_datagram true (ToEndpoint (cr_remote completion)) payload). eexists. split; [done|].
      assert (advances flow d (set_inbound flow slot new d1)) as Ha.
      { apply (advances_event flow (fun entry => entry <| fe_inbound ::= <[slot := new]> |>) ev d); [done|done|by apply set_inbound_ok|done|done|].
        intros s Hs. exists (socket_completion completion payload s). split; [by apply Hstep|]. rewrite (Espec s Hs).
        destruct (held_insert entry slot old new Eold) as (rest & Hold & Hnew). rewrite Efree in Hold. cbn in Hold, Hnew.
        destruct Hs as [R1 R2 R3 R4 R5 R6]. rewrite (proj2 (Nat.ltb_lt _ _)) by (rewrite R5; exact Hlen). split; [done..| |].
        - cbn [so_held upd]. cbn. rewrite R5. fold entry. rewrite Hold, Hnew. by rewrite Permutation_app_comm.
        - cbn. fold entry. apply Forall_insert; [exact R6|]. intros _. by apply SameEndpoint_to. }
      split; [exact Ha|]. unfold set_inbound. rewrite entry_on_flow_eq by done. exact Hocc.
    + exists d1. split; [done|]. split; [|done]. apply Hnothing. intros s Hs. rewrite (Espec s Hs).
      rewrite (proj2 (Nat.ltb_ge _ _)); [done|]. rewrite (re_held _ _ _ Hs), Hroom. done.
  - destruct (cr_flow_state completion) eqn:Estate.
    1-3: exists d1; split; [done|]; split; [|done]; apply Hnothing; intros s Hs; by rewrite (Espec s Hs).
    destruct (close_ok flow d1 Hd1 Hocc) as (d' & -> & Hd' & Ho & El & Hocc' & _ & Hr). exists d'. split; [done|]. split; [|done].
    split; [done|]. split; [exact Ho|]. exists [ev; Ev_Closed flow]. split; [rewrite El; subst d1; cbn; by rewrite <- app_assoc|].
    split; [by repeat constructor|]. intros s Hs. exists (socket_close s). split.
    + apply (socket_steps_snoc s [ev] _ (socket_close s)).
      * apply socket_steps_one. pose proof (Hstep s Hs) as Hs'. by rewrite (Espec s Hs) in Hs'.
      * change (socket_close s) with (socket_close (socket_close s)) at 2. constructor. change (so_open s <> None). by rewrite (occupied_opened _ _ _ Hs Hocc).
    + apply Hr. by rewrite (re_queue _ _ _ Hs).
  - exists d1. split; [done|]. split; [|done]. apply Hnothing. intros s Hs. by rewrite (Espec s Hs).
  - set (f := fun entry : FlowEntry => entry <| fe_submission ::= NoteWritable |>).
    assert (NoteWritable (fe_submission entry) = (fe_submission entry) <| su_writable := true |>) as Ew by (unfold NoteWritable; by rewrite Eclosed).
    eexists. split; [done|]. split; [|rewrite entry_on_flow_eq by done; exact Hocc].
    apply (advances_event flow f ev d); [done|done| | |done|].
    + destruct Hentry as [H1 H2 H3 H4]. split; [done|done|subst f; cbn; fold entry; by rewrite Ew|]. intros Ho. cbn in Ho. fold entry in Ho. congruence.
    + unfold used. subst f. cbn. fold entry. by rewrite Ew.
    + intros s Hs. exists (socket_completion completion payload s). split; [by apply Hstep|]. rewrite (Espec s Hs).
      destruct Hs as [R1 R2 R3 R4 R5 R6]. fold entry. subst f. split; [done| | |done|done|done]; cbn; rewrite Ew; [exact R2|done].
Qed.

(** ** Draining *)

Lemma write_over_length {A} (written array : list A) : length (write_over written array) = length array.
Proof. unfold write_over. rewrite length_take, length_app, length_drop. lia. Qed.
#[local] Arguments write_over : simpl never.
Lemma buffers_ok records payload d : data_ok d ->
  data_ok ((d <| wd_completions ::= write_over records |>) <| wd_completion_payload ::= write_over payload |>).
Proof. intros []. split; try done; cbn; by rewrite write_over_length. Qed.
Lemma advances_buffers flow records payload d : data_ok d ->
  advances flow d ((d <| wd_completions ::= write_over records |>) <| wd_completion_payload ::= write_over payload |>).
Proof.
  intros Hd. split; [by apply buffers_ok|]. split; [done|]. exists []. rewrite app_nil_r. split; [done|]. split; [constructor|].
  intros s Hs. exists s. split; [constructor|exact Hs].
Qed.
(** What [ValidateTunnelCompletionDrain] checks of a record. *)
Definition in_buffer (record : CompletionRecord) : Prop :=
  cr_type record = CompletionType_InboundDatagram -> (Z.to_nat (cr_payload_size record) <= MaximumUdpPayloadStorageBytes)%nat /\
    (Z.to_nat (cr_payload_offset record) + Z.to_nat (cr_payload_size record) <= MaximumBatchEntries * MaximumUdpPayloadStorageBytes)%nat.
Lemma validated count capacity records :
  ValidateTunnelCompletionDrain count capacity records (MaximumBatchEntries * MaximumUdpPayloadStorageBytes) = true ->
  Forall in_buffer (take (Z.to_nat count) records).
Proof.
  unfold ValidateTunnelCompletionDrain. case_if; [done|]. intros Hall. rewrite forallb_forall in Hall. apply Forall_forall. intros record Hin Et.
  specialize (Hall record ltac:(by apply list_elem_of_In)). rewrite Et in Hall. bool_prop.
  change (Z.of_nat (MaximumBatchEntries * MaximumUdpPayloadStorageBytes)) with 11776 in *.
  change (MaximumBatchEntries * MaximumUdpPayloadStorageBytes)%nat with (Z.to_nat 11776).
  change (Z.of_nat MaximumUdpPayloadStorageBytes) with 1472 in *. change MaximumUdpPayloadStorageBytes with (Z.to_nat 1472). lia.
Qed.
Lemma completions_advance flow completions : forall d, data_ok d -> fe_occupied (entry_at flow d) = true -> Forall in_buffer completions ->
  exists d', handle_completions flow completions d = Some d' /\ advances flow d d' /\ fe_occupied (entry_at flow d') = true.
Proof.
  induction completions as [|completion completions IH]; intros d Hd Hocc Hall; [exists d; split; [done|by split; [apply advances_refl|] ]|].
  apply Forall_cons in Hall as [Hin Hall]. cbn. destruct (completion_advances flow completion d Hd Hocc) as (d1 & -> & Ha & Hocc1).
  { intros Et. rewrite (do_payload d Hd). by apply Hin. }
  cbn. destruct (IH d1 (proj1 Ha) Hocc1 Hall) as (d' & -> & Ha' & Hocc'). exists d'. split; [done|]. split; [by eapply advances_trans|done].
Qed.
Lemma drain_advances flow d : data_ok d -> fe_occupied (entry_at flow d) = true -> exists outcome d', DrainCompletions flow d = Some (outcome, d') /\
  advances flow d d' /\ fe_occupied (entry_at flow d') = true.
Proof.
  intros Hd Hocc. unfold DrainCompletions. destruct (client_ReceiveCompletions _ _ _) as [answer t]. cbv zeta.
  pose proof (advances_service flow t d Hd) as Ht. set (d1 := d <| wd_service := t |>) in *. pose proof (proj1 Ht) as Hd1.
  destruct answer as [ [ [ [count status] records] payload]|].
  2:{ destruct (close_advances flow d1 Hd1 Hocc) as (d' & -> & Ha & Hocc' & _). exists Drain_Failed, d'. split; [done|].
      split; [exact (advances_trans _ _ _ _ Ht Ha)|done]. }
  pose proof (advances_trans _ _ _ _ Ht (advances_buffers flow records payload d1 Hd1)) as Hb. set (d2 := upd wd_completion_payload _ _) in *.
  pose proof (proj1 Hb) as Hd2. case_bool_decide; [by exists Drain_Done, d2|]. case_bool_decide; cbn [negb].
  2:{ destruct (close_advances flow d2 Hd2 Hocc) as (d' & -> & Ha & Hocc' & _). exists Drain_Done, d'. split; [done|].
      split; [exact (advances_trans _ _ _ _ Hb Ha)|done]. }
  destruct (ValidateTunnelCompletionDrain _ _ _ _) eqn:Ev; cbn [negb].
  2:{ destruct (close_advances flow d2 Hd2 Hocc) as (d' & -> & Ha & Hocc' & _). exists Drain_Failed, d'. split; [done|].
      split; [exact (advances_trans _ _ _ _ Hb Ha)|done]. }
  rewrite (do_payload d2 Hd2) in Ev. apply validated in Ev.
  destruct (completions_advance flow _ d2 Hd2 Hocc Ev) as (d' & -> & Ha & Hocc'). exists Drain_More, d'. split; [done|].
  split; [exact (advances_trans _ _ _ _ Hb Ha)|done].
Qed.

(** ** Submitting *)

Lemma fifo_length flow d : data_ok d -> length (fifo flow d) = su_queued (fe_submission (entry_at flow d)).
Proof. intros Hd. unfold fifo. by rewrite length_fmap, used_length. Qed.
Lemma fifo_sizes flow d : data_ok d -> Forall (fun payload => length payload <= MaximumQueuedOutboundPayloadBytes)%nat (fifo flow d).
Proof.
  intros Hd. apply Forall_fmap, Forall_forall. intros slot Hin. cbn. unfold payload_at. destruct (wd_outbound d !! slot) as [datagram|] eqn:E; cbn; [|lia].
  exact (Forall_lookup_1 _ _ _ _ (do_sizes d Hd) E).
Qed.
Lemma build_batch_spec flow d n : data_ok d -> forall start descriptors payload,
  (start + n <= su_queued (fe_submission (entry_at flow d)))%nat -> (start + n <= MaximumBatchEntriesPerSubmission)%nat ->
  (length payload <= start * MaximumQueuedOutboundPayloadBytes)%nat ->
  build_batch flow (seq start n) descriptors payload d
    = Some (descriptors ++ batch_descriptors (fe_flow (entry_at flow d)) (u64 (fe_descriptor (entry_at flow d))) (Z.of_nat (length payload))
              (take n (drop start (fifo flow d))),
            payload ++ mjoin (take n (drop start (fifo flow d)))).
Proof.
  intros Hd. induction n as [|n IH]; intros start descriptors payload Hq Hm Hp; [cbn; by rewrite !app_nil_r|]. cbn [seq build_batch].
  pose proof (used_length flow d Hd) as Hlen. pose proof (entry_at_ok flow d Hd) as [_ He2 He3 _].
  destruct (used (entry_at flow d) !! start) as [slot|] eqn:E; [|apply lookup_ge_None in E; lia].
  assert (fe_outbound_slots (entry_at flow d) !! start = Some slot) as E'.
  { unfold used in E. by rewrite lookup_take_lt in E by lia. }
  rewrite E'. cbn [mbind option_bind].
  assert (occupied_at (wd_outbound d) slot = true) as Hocc by (apply (do_used d Hd), (used_elem flow); by eapply list_elem_of_lookup_2).
  apply occupied_lookup in Hocc as (datagram & Ed & Eo). rewrite Ed. cbn [mbind option_bind]. rewrite Eo. cbn [negb orb].
  assert (fifo flow d !! start = Some (od_payload datagram)) as Ef.
  { unfold fifo. rewrite list_lookup_fmap, E. cbn. unfold payload_at. by rewrite Ed. }
  pose proof (Forall_lookup_1 _ _ _ _ (fifo_sizes flow d Hd) Ef) as Hsize. cbn in Hsize.
  change MaximumBatchEntriesPerSubmission with 4%nat in *. change MaximumQueuedOutboundPayloadBytes with (Z.to_nat 1472) in *.
  rewrite (proj2 (Nat.ltb_ge _ _)) by lia. rewrite IH; [|lia|lia|rewrite length_app; lia].
  rewrite (drop_S _ _ _ Ef). cbn [take mjoin list_join batch_descriptors]. rewrite <- !app_assoc, length_app, Nat2Z.inj_add. done.
Qed.
Lemma batch_descriptors_length handle tag batch : forall offset, length (batch_descriptors handle tag offset batch) = length batch.
Proof. induction batch as [|payload batch IH]; intros offset; [done|]. cbn. by rewrite IH. Qed.
Lemma read_dispositions_bound statuses : forall accepted full terminal,
  (accepted <= fst (fst (read_dispositions statuses accepted full terminal)) <= accepted + length statuses)%nat.
Proof.
  induction statuses as [|status statuses IH]; intros accepted full terminal; [cbn; lia|]. cbn [read_dispositions length].
  destruct (_ && negb full && _); [|destruct (_ && _)].
  - specialize (IH (S accepted) full terminal). lia.
  - specialize (IH accepted true terminal). lia.
  - specialize (IH accepted full true). lia.
Qed.
Lemma read_dispositions_flags statuses : forall accepted full terminal, full || terminal = true ->
  let '(_, full, terminal) := read_dispositions statuses accepted full terminal in full || terminal = true.
Proof.
  induction statuses as [|status statuses IH]; intros accepted full terminal Hf; [done|]. cbn [read_dispositions].
  destruct (_ && negb full && _); [by apply IH|]. destruct (_ && _); apply IH; [done|by rewrite orb_true_r].
Qed.
Lemma read_dispositions_stops statuses accepted full terminal : statuses <> [] ->
  read_dispositions statuses 0 false false = (accepted, full, terminal) -> accepted = 0%nat -> full || terminal = true.
Proof.
  destruct statuses as [|status statuses]; [done|]. intros _ E ->. cbn [read_dispositions] in E. destruct (_ && negb false && _).
  - pose proof (read_dispositions_bound statuses 1 false false) as Hb. rewrite E in Hb. cbn in Hb. lia.
  - destruct (_ && _).
    + pose proof (read_dispositions_flags statuses 0 true false eq_refl) as Hf. by rewrite E in Hf.
    + pose proof (read_dispositions_flags statuses 0 false true eq_refl) as Hf. by rewrite E in Hf.
Qed.

(** What is accepted leaves the queue. *)
Lemma retired_ok flow accepted d : data_ok d -> (flow < MaximumSockets)%nat -> (accepted <= su_queued (fe_submission (entry_at flow d)))%nat ->
  exists d', (if negb (accepted =? 0)%nat then RetireQueuedOutboundPrefix flow accepted d else Some d) = Some d' /\
  data_ok d' /\ others_same flow d d' /\ wd_log d' = wd_log d /\ fe_occupied (entry_at flow d') = fe_occupied (entry_at flow d) /\
  forall s, represents flow d s -> represents flow d' (s <| so_queue ::= drop accepted |>).
Proof.
  intros Hd Hlt Hle. destruct (accepted =? 0)%nat eqn:E; cbn [negb].
  - apply Nat.eqb_eq in E as ->. exists d. do 5 (split; [done|]). intros s [R1 R2 R3 R4 R5 R6]. by split.
  - apply Nat.eqb_neq in E. destruct (retire_ok flow accepted d Hd Hlt) as (d' & slots & -> & Hd' & Ho & He & Hf & Hl & _); [lia|done|].
    exists d'. split; [done|]. split; [done|]. split; [done|]. split; [done|]. rewrite He. split; [done|].
    intros s [R1 R2 R3 R4 R5 R6]. unfold represents. rewrite He, Hf. split; [done..| |done|done]. cbn. by rewrite R4.
Qed.
(** What follows from the answer: the flow is closed, waits until it is writable, or nothing more. *)
Definition settled (full terminal : bool) (s : SocketSpec) : SocketSpec :=
  if terminal then socket_close s else if full then s <| so_writable := false |> else s.
#[local] Arguments NoteQueueFull : simpl never.
Lemma settled_ok flow (progress full terminal : bool) d : data_ok d -> fe_occupied (entry_at flow d) = true -> exists d' events,
  (if terminal then d ← close_submission flow d; Some (progress, false, d)
   else Some (progress, false, if full then on_flow flow (fun entry => entry <| fe_submission ::= NoteQueueFull |>) d else d))
    = Some (progress, false, d') /\
  data_ok d' /\ others_same flow d d' /\ wd_log d' = wd_log d ++ events /\ Forall (fun event => event_flow event = flow) events /\
  fe_occupied (entry_at flow d') = true /\ (full || terminal = true -> CanSubmit (fe_submission (entry_at flow d')) = false) /\
  forall s, represents flow d s -> socket_steps (settled full terminal s) events (settled full terminal s) /\ represents flow d' (settled full terminal s).
Proof.
  intros Hd Hocc. pose proof (occupied_bound flow d Hd Hocc) as Hlt. unfold settled. destruct terminal.
  - destruct (close_ok flow d Hd Hocc) as (d' & -> & Hd' & Ho & El & Hocc' & Hc & Hr). exists d', [Ev_Closed flow]. split; [done|].
    split; [done|]. split; [done|]. split; [done|]. split; [by repeat constructor|]. split; [done|].
    split; [by unfold CanSubmit; rewrite Hc|]. intros s Hs. split; [|apply Hr; by rewrite (re_queue _ _ _ Hs)]. apply socket_steps_one.
    change (socket_close s) with (socket_close (socket_close s)) at 2. constructor. change (so_open s <> None). by rewrite (occupied_opened _ _ _ Hs Hocc).
  - destruct full.
    + pose proof (entry_at_ok flow d Hd) as [He1 He2 He3 He4].
      set (f := fun entry : FlowEntry => entry <| fe_submission ::= NoteQueueFull |>). destruct (on_flow_ok f flow d Hd Hlt) as (K1 & K2 & K3 & K4).
      { split; [done|done|done|]. intros Ho. cbn in Ho. congruence. }
      { done. }
      exists (on_flow flow f d), []. rewrite app_nil_r. do 4 (split; [done|]). split; [constructor|]. rewrite K3. split; [done|].
      split; [intros _; unfold CanSubmit; cbn; by rewrite andb_false_r|]. intros s [R1 R2 R3 R4 R5 R6]. split; [constructor|].
      unfold represents. rewrite K3, K4. by split.
    + exists d, []. rewrite app_nil_r. do 4 (split; [done|]). split; [constructor|]. do 2 (split; [done|]). intros s Hs. split; [constructor|done].
Qed.

Lemma dispositions_ok t statuses d : data_ok d -> data_ok ((d <| wd_service := t |>) <| wd_dispositions ::= write_over statuses |>).
Proof. intros []. split; try done. cbn. by rewrite write_over_length. Qed.
Lemma submit_advances flow d : data_ok d -> exists progress failed d', SubmitQueuedDatagrams flow d = Some (progress, failed, d') /\
  advances flow d d' /\ fe_occupied (entry_at flow d') = fe_occupied (entry_at flow d) /\
  (progress = false -> fe_occupied (entry_at flow d') = true -> CanSubmit (fe_submission (entry_at flow d')) = false).
Proof.
  intros Hd. unfold SubmitQueuedDatagrams. destruct (fe_occupied (entry_at flow d)) eqn:Hocc; cbn [negb orb].
  2:{ exists false, false, d. split; [done|]. split; [by apply advances_refl|]. split; [done|]. congruence. }
  destruct (CanSubmit (fe_submission (entry_at flow d))) eqn:Hcan; cbn [negb].
  2:{ exists false, false, d. split; [done|]. by split; [apply advances_refl|]. }
  pose proof (occupied_bound flow d Hd Hocc) as Hlt. pose proof (fifo_length flow d Hd) as Hlen. pose proof (entry_at_ok flow d Hd) as [_ _ Hq _].
  cbv zeta. set (n := Nat.min _ MaximumBatchEntriesPerSubmission).
  rewrite (build_batch_spec flow d n Hd) by (cbn; subst n; lia). cbn [mbind option_bind app length]. rewrite drop_0.
  set (batch := take n (fifo flow d)). destruct (SendUdpDatagramBatch _ _ _ _ _) as [answer t].
  destruct answer as [statuses|].
  2:{ pose proof (advances_service flow t d Hd) as Ht. destruct (close_advances flow _ (proj1 Ht) Hocc) as (d' & -> & Ha & Hocc' & Hc).
      exists false, true, d'. split; [done|]. split; [exact (advances_trans _ _ _ _ Ht Ha)|]. split; [done|]. intros _ _. unfold CanSubmit. by rewrite Hc. }
  set (d1 := (d <| wd_service := t |>) <| wd_dispositions ::= write_over statuses |>). pose proof (dispositions_ok t statuses d Hd) as Hd1. fold d1 in Hd1.
  set (given := take n (wd_dispositions d1)). match goal with |- context [log_event ?e d1] => set (ev := e); set (d2 := log_event ev d1) end.
  assert (data_ok d2) as Hd2 by by apply log_event_ok.
  assert (length batch = n) as Hbatch by (subst batch; rewrite length_take; subst n; lia).
  assert (length given = n) as Hgiven.
  { subst given. rewrite length_take, (do_dispositions d1 Hd1). subst n. lia. }
  unfold CanSubmit in Hcan. bool_prop.
  assert (n <> 0%nat) as Hn by (subst n; change MaximumBatchEntriesPerSubmission with 4%nat; lia).
  destruct (read_dispositions given 0 false false) as [ [accepted full] terminal] eqn:Eread.
  pose proof (read_dispositions_bound given 0 false false) as Hbound. rewrite Eread in Hbound. cbn in Hbound.
  destruct (retired_ok flow accepted d2 Hd2 Hlt) as (d3 & -> & Hd3 & Ho3 & El3 & Hocc3 & Hr3).
  { change (entry_at flow d2) with (entry_at flow d). subst n. lia. }
  change (entry_at flow d2) with (entry_at flow d) in Hocc3. rewrite Hocc in Hocc3. cbn [mbind option_bind].
  destruct (settled_ok flow (negb (accepted =? 0)%nat) full terminal d3 Hd3 Hocc3) as (d' & events & -> & Hd' & Ho' & El' & Hev & Hocc' & Hset & Hr').
  eexists _, _, d'. split; [done|]. split; [|split; [done|] ].
  - split; [done|]. split; [exact (others_same_trans flow d2 d3 d' Ho3 Ho')|]. exists (ev :: events).
    split; [rewrite El', El3; cbn; by rewrite <- app_assoc|]. split; [by constructor|]. intros s Hs.
    assert (represents flow d2 s) as Hs2 by exact Hs. destruct (Hr' _ (Hr3 _ Hs2)) as [Hsteps Hrep]. eexists. split; [|exact Hrep].
    apply (socket_steps_app s [ev] (settled full terminal (s <| so_queue ::= drop accepted |>))); [|exact Hsteps]. apply socket_steps_one.
    pose proof (socket_batch s flow (fe_client (entry_at flow d)) _ _ _ _ batch given (occupied_opened _ _ _ Hs Hocc)) as Hb.
    unfold socket_submitted in Hb. rewrite Eread in Hb. apply Hb.
    + rewrite (re_closed _ _ _ Hs). done.
    + by rewrite (re_writable _ _ _ Hs).
    + rewrite (re_queue _ _ _ Hs). subst batch n. rewrite <- Hlen. destruct (Nat.min_dec (length (fifo flow d)) MaximumBatchEntriesPerSubmission) as [Em|Em]; rewrite Em; [|done]. by rewrite !firstn_all2 by lia.
    + intros E. by rewrite E in Hbatch.
    + congruence.
  - intros Ep _. apply Hset. apply negb_false_iff, Nat.eqb_eq in Ep. apply (read_dispositions_stops given accepted full terminal); [|done|done].
    intros E. by rewrite E in Hgiven.
Qed.
End Sockets.
