(* ===== verification/TunnelDispatch.v ===== *)
(** * The operations of the worker's sockets

    [Dispatch], the invalidation of the tunnel's state and the discovery of the service
    (TunnelWorker.v) keep every flow a trace of its specification (TunnelSockets.v), and
    none of them fails. *)

From stdpp Require Import gmap.
From S2P Require Import Prelude Endian Messages PacketQueue Platform Session Base64 InnerPacket Timers.
From S2P Require Import Crypto Device Data Identity Admission Handshake Peer PeerController RuntimeEvents.
From S2P Require Import FlowPolicy FlowPlane FlowTuples TunnelClient TunnelWorker TunnelQueues TunnelSockets.
Local Open Scope Z_scope.

Section Dispatch.
Context {T : Type} `{TunnelService T}.
Implicit Types (d : WorkerData T).

(** ** What the flows do not depend on *)

Lemma sockets_data d d' : data_ok d' -> wd_flows d' = wd_flows d -> wd_outbound d' = wd_outbound d -> wd_log d' = wd_log d ->
  sockets_ok d -> sockets_ok d'.
Proof.
  intros Hd' Ef Eo El [Hd Hall]. split; [done|]. intros flow Hlt. destruct (Hall flow Hlt) as (s & Ht & Hr). exists s. rewrite El. split; [done|].
  eapply represents_ext; [| |exact Hr]; unfold fifo, entry_at; by rewrite ?Ef, ?Eo.
Qed.
Lemma sockets_service f d : sockets_ok d -> sockets_ok (d <| wd_service ::= f |>).
Proof. intros Hs. apply (sockets_data d); [|done..|done]. destruct Hs as [ [] _]. by split. Qed.
Lemma sockets_root root d : sockets_ok d -> sockets_ok (d <| wd_root := root |>).
Proof. intros Hs. apply (sockets_data d); [|done..|done]. destruct Hs as [ [] _]. by split. Qed.
Lemma sockets_maximum maximum d : sockets_ok d -> sockets_ok (d <| wd_maximum_udp_payload_bytes := maximum |>).
Proof. intros Hs. apply (sockets_data d); [|done..|done]. destruct Hs as [ [] _]. by split. Qed.

Lemma each_flow_ok (P : nat -> Prop) body flows : forall d, sockets_ok d -> Forall P flows ->
  (forall flow d, P flow -> sockets_ok d -> exists d', body flow d = Some d' /\ sockets_ok d') ->
  exists d', each_flow body flows d = Some d' /\ sockets_ok d'.
Proof.
  induction flows as [|flow flows IH]; intros d Hd Hall Hbody; [by exists d|]. apply Forall_cons in Hall as [Hp Hall].
  cbn. destruct (Hbody flow d Hp Hd) as (d1 & -> & Hd1). cbn. by apply IH.
Qed.
Lemma flows_bound : Forall (fun flow => flow < MaximumSockets)%nat (seq 0 MaximumSockets).
Proof. apply Forall_forall. intros flow Hin. apply elem_of_seq in Hin. lia. Qed.
Lemma reset_all_ok d : sockets_ok d -> exists d', ResetAllFlows d = Some d' /\ sockets_ok d'.
Proof.
  intros Hd. apply (each_flow_ok _ _ _ _ Hd flows_bound). intros flow d1 Hlt Hd1. cbn beta. destruct (fe_occupied _); [|by exists d1].
  destruct (reset_advances flow d1 (proj1 Hd1) Hlt) as (d' & -> & Ha & _). exists d'. split; [done|by eapply advances_sockets].
Qed.
Lemma close_matching_ok owner descriptor all_owner d : sockets_ok d -> exists d', close_matching owner descriptor all_owner d = Some d' /\ sockets_ok d'.
Proof.
  intros Hd. apply (each_flow_ok _ _ _ _ Hd flows_bound). intros flow d1 Hlt Hd1. cbv beta zeta. destruct (_ && _); [|by exists d1].
  destruct (close_flow_advances flow d1 (proj1 Hd1) Hlt) as (d' & -> & Ha & _). exists d'. split; [done|by eapply advances_sockets].
Qed.
Lemma invalidate_ok d : sockets_ok d -> exists d', InvalidateTunnelState d = Some d' /\ sockets_ok d'.
Proof.
  intros Hd. unfold InvalidateTunnelState. destruct (reset_all_ok d Hd) as (d1 & -> & Hd1). cbn [mbind option_bind]. eexists. split; [done|].
  by apply sockets_root, sockets_service, sockets_maximum.
Qed.
Ltac sockets_data := repeat first [assumption | apply sockets_service | apply sockets_root | apply sockets_maximum].
Lemma discover_ok d : sockets_ok d -> exists found d', DiscoverTunnelService d = Some (found, d') /\ sockets_ok d'.
Proof.
  intros Hd. unfold DiscoverTunnelService. destruct (reset_all_ok d Hd) as (d1 & -> & Hd1). cbn [mbind option_bind]. cbv zeta.
  destruct (sm_has_service _) as [present t]. case_match; [do 2 eexists; split; [done|sockets_data]|].
  destruct (root_Open _ _) as [ [opened root] t1]. case_match; [do 2 eexists; split; [done|sockets_data]|].
  destruct (GetTunCapabilities _ _) as [ [capabilities|] t2]; [case_match|]; do 2 eexists; (split; [done|sockets_data]).
Qed.

(** ** Finding flows *)

Lemma FindFlow_some owner descriptor flow d : FindFlow owner descriptor d = Some flow ->
  fe_occupied (entry_at flow d) = true /\ fe_owner (entry_at flow d) = owner /\ fe_descriptor (entry_at flow d) = descriptor.
Proof.
  intros E. apply find_index_some in E as (entry & E & Hf & _). unfold entry_at. rewrite E. cbn. bool_prop. done.
Qed.

(** ** Opening *)

(** A flow while it is opened: no event of it has been logged yet. *)
Record opening (flow : nat) d d' : Prop := {
  og_ok : data_ok d';
  og_others : others_same flow d d';
  og_log : wd_log d' = wd_log d;
  og_free : entry_at flow d = flow_entry_init;
  og_occupied : fe_occupied (entry_at flow d') = true;
  og_submission : fe_submission (entry_at flow d') = submission_init;
  og_inbound : fe_inbound (entry_at flow d') = fe_inbound flow_entry_init
}.
Lemma opening_bound flow d d' : opening flow d d' -> (flow < MaximumSockets)%nat.
Proof. intros [Hd _ _ _ Ho _ _]. by eapply occupied_bound. Qed.
Lemma opening_service flow t d d' : opening flow d d' -> opening flow d (d' <| wd_service := t |>).
Proof. intros []. split; try done. by apply service_ok. Qed.
Lemma opening_on_flow flow f d d' : opening flow d d' ->
  (forall entry, fe_occupied (f entry) = fe_occupied entry /\ fe_submission (f entry) = fe_submission entry /\
     fe_inbound (f entry) = fe_inbound entry /\ fe_outbound_slots (f entry) = fe_outbound_slots entry) ->
  opening flow d (on_flow flow f d').
Proof.
  intros Ho Hf. pose proof (opening_bound _ _ _ Ho) as Hlt. destruct Ho as [O1 O2 O3 O4 O5 O6 O7].
  destruct (Hf (entry_at flow d')) as (F1 & F2 & F3 & F4). pose proof (entry_at_ok flow d' O1) as [He1 He2 He3 He4].
  destruct (on_flow_ok f flow d' O1 Hlt) as (K1 & K2 & K3 & _).
  { split; rewrite ?F1, ?F2, ?F3, ?F4; [done..|]. congruence. }
  { unfold used. by rewrite F2, F4. }
  split; [done|by eapply others_same_trans|done|done|by rewrite K3, F1|by rewrite K3, F2|by rewrite K3, F3].
Qed.
Lemma allocate_ok owner descriptor d : data_ok d -> FindFlow owner descriptor d = None ->
  (AllocateFlow owner descriptor d = (None, d)) \/
  exists flow d', AllocateFlow owner descriptor d = (Some flow, d') /\ opening flow d d' /\
    fe_owner (entry_at flow d') = owner /\ fe_descriptor (entry_at flow d') = descriptor.
Proof.
  intros Hd Hnone. unfold AllocateFlow. rewrite Hnone. destruct (find_index _ _) as [flow|] eqn:E; [|by left]. right.
  apply find_index_some in E as (entry & E & Hf & _). apply negb_true_iff in Hf.
  assert (entry_at flow d = flow_entry_init) as Ee.
  { unfold entry_at. rewrite E. cbn. apply (eo_free _ (Forall_lookup_1 _ _ _ _ (do_entries d Hd) E)). done. }
  assert (flow < MaximumSockets)%nat as Hlt by (rewrite <- (do_flows d Hd); by eapply lookup_lt_Some).
  match goal with |- context [on_flow flow ?g d] => set (f := g) end.
  destruct (on_flow_ok f flow d Hd Hlt) as (K1 & K2 & K3 & K4); [rewrite Ee; by split; cbn; [|..|lia|]|by rewrite Ee|].
  exists flow, (on_flow flow f d). split; [done|]. rewrite K3, Ee. split; [|done]. by split; rewrite ?K3, ?Ee.
Qed.
Lemma opening_reset flow d d' : opening flow d d' -> exists d'', ResetFlow flow d' = Some d'' /\ advances flow d d''.
Proof.
  intros Ho. destruct (reset_ok flow d' (og_ok _ _ _ Ho) (opening_bound _ _ _ Ho)) as (d'' & E & Hd & Hs & He & El). exists d''. split; [done|].
  split; [done|]. split; [exact (others_same_trans _ _ _ _ (og_others _ _ _ Ho) Hs)|]. exists [Ev_Reset flow].
  split; [by rewrite El, (og_log _ _ _ Ho)|]. split; [by repeat constructor|]. intros s _. exists socket_init.
  split; [apply socket_steps_one; constructor|by apply init_represents].
Qed.
Lemma opening_close flow d d' : opening flow d d' -> exists d'', CloseFlow flow d' = Some d'' /\ advances flow d d''.
Proof.
  intros Ho. unfold CloseFlow. case_match; apply opening_reset; [by apply opening_service|done].
Qed.
Lemma opening_done flow owner descriptor handle remote d d' : opening flow d d' ->
  opened_as (entry_at flow d') = Some (owner, descriptor, handle, remote) ->
  advances flow d (log_event (Ev_Opened flow owner descriptor handle remote) d').
Proof.
  intros [O1 O2 O3 O4 O5 O6 O7] Eo. split; [by apply log_event_ok|]. split; [exact O2|]. exists [Ev_Opened flow owner descriptor handle remote].
  split; [cbn; by rewrite O3|]. split; [by repeat constructor|]. intros s [R1 R2 R3 R4 R5 R6].
  exists (mk_socket (Some (owner, descriptor, handle, remote)) false true [] []). split.
  - apply socket_steps_one. constructor. rewrite R1. unfold opened_as. by rewrite O4.
  - unfold represents, fifo, used. change (entry_at flow (log_event _ d')) with (entry_at flow d').
    split; rewrite ?O6; try done; unfold held; rewrite O7; [done|]. by repeat constructor.
Qed.
Lemma dispatch_open_ok state op d : sockets_ok d -> exists outcome result d', dispatch_open state op d = Some (outcome, result, d') /\
  sockets_ok d' /\ outcome <> Dispatch_Pending.
Proof.
  intros Hd. unfold dispatch_open. destruct (FindFlow _ _ d) as [flow|] eqn:Efind; [by do 3 eexists|].
  case_match; [by do 3 eexists|]. case_match; [by do 3 eexists|].
  destruct (allocate_ok _ _ d (proj1 Hd) Efind) as [->|(flow & d1 & -> & Hop & Eown & Edes)]; [by do 3 eexists|].
  destruct (OpenTunnelClient _ _) as [child t]. cbv zeta. apply (opening_service flow t) in Hop.
  set (d2 := d1 <| wd_service := t |>) in *. destruct child as [client|].
  2:{ destruct (opening_reset _ _ _ Hop) as (d' & -> & Ha). do 3 eexists. split; [done|]. split; [by eapply advances_sockets|done]. }
  assert (opening flow d (on_flow flow (fun entry => entry <| fe_client := client |>) d2)) as Hop3 by by apply opening_on_flow.
  change (entry_at flow d1) with (entry_at flow d2) in *. clearbody d2.
  set (f3 := fun entry : FlowEntry => entry <| fe_client := client |>) in *. set (d3 := on_flow flow f3 d2) in *.
  assert (entry_at flow d3 = f3 (entry_at flow d2)) as E3 by (apply entry_on_flow_eq; [exact (og_ok _ _ _ Hop)|by eapply opening_bound]).
  destruct (client_OpenConnectedUdpFlow _ _ _) as [answer t3]. cbv zeta. apply (opening_service flow t3) in Hop3.
  set (d4 := d3 <| wd_service := t3 |>) in *. change (entry_at flow d3) with (entry_at flow d4) in E3. destruct answer as [opened|].
  2:{ destruct (opening_reset _ _ _ Hop3) as (d' & -> & Ha). do 3 eexists. split; [done|]. split; [by eapply advances_sockets|done]. }
  case_match.
  { destruct (opening_reset _ _ _ Hop3) as (d' & -> & Ha). do 3 eexists. split; [done|]. split; [by eapply advances_sockets|done]. }
  clearbody d4. set (f5 := fun entry : FlowEntry => (entry <| fe_flow := ow_flow opened |>) <| fe_remote := op_remote op |>).
  set (d5 := on_flow flow f5 d4).
  assert (opening flow d d5) as Hop5 by by apply opening_on_flow.
  assert (entry_at flow d5 = f5 (entry_at flow d4)) as E5 by (apply entry_on_flow_eq; [exact (og_ok _ _ _ Hop3)|by eapply opening_bound]).
  destruct (GetCompletionEvent _ _) as [event t5]. cbv zeta. apply (opening_service flow t5) in Hop5.
  set (d6 := d5 <| wd_service := t5 |>) in *. change (entry_at flow d5) with (entry_at flow d6) in E5. clearbody d6. destruct event as [handle|].
  2:{ destruct (opening_close _ _ _ Hop5) as (d' & -> & Ha). do 3 eexists. split; [done|]. split; [by eapply advances_sockets|done]. }
  set (f7 := fun entry : FlowEntry => entry <| fe_completion_handle := handle |>). set (d7 := on_flow flow f7 d6).
  assert (opening flow d d7) as Hop7 by by apply opening_on_flow.
  assert (entry_at flow d7 = f7 (entry_at flow d6)) as E7 by (apply entry_on_flow_eq; [exact (og_ok _ _ _ Hop5)|by eapply opening_bound]).
  do 3 eexists. split; [done|]. split; [|done]. eapply advances_sockets; [|exact Hd]. apply opening_done; [done|].
  unfold opened_as. rewrite (og_occupied _ _ _ Hop7), E7, E5, E3, <- Eown, <- Edes. done.
Qed.

(** ** Sending and receiving *)

Lemma send_ok flow op d : sockets_ok d -> fe_occupied (entry_at flow d) = true -> exists result d', dispatch_send flow op d = Some (result, d') /\ sockets_ok d'.
Proof.
  intros Hd Hocc. unfold dispatch_send. destruct (_ || _) eqn:Esize; [by do 2 eexists|]. apply orb_false_iff in Esize as [_ Esize]. apply Nat.ltb_ge in Esize.
  destruct (admission_available flow d) eqn:Ea.
  2:{ rewrite queue_full by (done || apply Hd). by do 2 eexists. }
  destruct (enqueue_ok flow (op_input op) d (proj1 Hd) Hocc Ea Esize) as (d' & slot & -> & Hd' & Ho & He & Hf & El). cbn [mbind option_bind].
  do 2 eexists. split; [done|]. eapply (advances_sockets flow d); [|exact Hd]. split; [done|]. split; [done|]. exists [Ev_Sent flow (op_input op)].
  split; [done|]. split; [by repeat constructor|]. intros s Hs. eexists. split.
  - apply socket_steps_one. unfold admission_available, CanAccept in Ea. bool_prop. constructor.
    + by rewrite (occupied_opened _ _ _ Hs Hocc).
    + by rewrite (re_closed _ _ _ Hs).
    + by rewrite (re_writable _ _ _ Hs).
    + rewrite (re_queue _ _ _ Hs), fifo_length by apply Hd. done.
    + done.
  - destruct Hs as [R1 R2 R3 R4 R5 R6]. unfold represents. rewrite He, Hf. split; [done..| |done|done]. cbn. by rewrite R4.
Qed.
Lemma receive_ok flow op d : sockets_ok d -> fe_occupied (entry_at flow d) = true -> su_closed (fe_submission (entry_at flow d)) = false ->
  sockets_ok (snd (dispatch_receive flow op d)) /\ op_complete (fst (dispatch_receive flow op d)) = op_complete op.
Proof.
  intros Hd Hocc Hopen. unfold dispatch_receive. destruct (TakeInbound flow d) as [slot|] eqn:Et; [|done].
  apply find_index_some in Et as (datagram & Es & Eo & _). rewrite Es. cbn -[take]. split; [|done]. pose proof (occupied_bound flow d (proj1 Hd) Hocc) as Hlt.
  pose proof (entry_at_ok flow d (proj1 Hd)) as Hentry.
  set (f := fun entry : FlowEntry => entry <| fe_inbound ::= <[slot := datagram <| id_occupied := false |>]> |>).
  eapply (advances_sockets flow d); [|exact Hd]. apply (advances_event flow f); [by apply Hd|done|by apply set_inbound_ok|done|done|].
  intros s Hs. destruct (held_insert (entry_at flow d) slot datagram (datagram <| id_occupied := false |>) Es) as (rest & Hold & Hnew).
  rewrite Eo in Hold. exists (s <| so_held := rest |>). pose proof (occupied_opened _ _ _ Hs Hocc) as Eopen. destruct Hs as [R1 R2 R3 R4 R5 R6]. split.
  - replace (take _ (id_payload datagram)) with (take (op_output_size op) (id_payload datagram)).
    2:{ destruct (Nat.min_dec (op_output_size op) (length (id_payload datagram))) as [Em|Em]; rewrite Em; [done|]. rewrite !firstn_all2; [done|lia|lia]. }
    rewrite (Forall_lookup_1 _ _ _ _ R6 Es Eo). eapply socket_received; [exact Eopen|by rewrite R2|]. by rewrite R5, Hold.
  - split; [done..| |]; cbn.
    + by rewrite Hnew.
    + by apply Forall_insert.
Qed.
Lemma dispatch_ok state now pending op d : sockets_ok d -> exists outcome op' d', Dispatch state now pending op d = Some (outcome, op', d') /\
  sockets_ok d' /\ op_complete op' = op_complete op /\ (outcome = Dispatch_Pending -> pending <> MaximumSockets /\ op_type op' = Op_Poll).
Proof.
  intros Hd. unfold Dispatch. destruct (op_type op) eqn:Etype.
  2-4: destruct (FindFlow _ _ d) as [flow|] eqn:Efind; [|by do 3 eexists];
    apply FindFlow_some in Efind as (Hocc & _); destruct (su_closed _) eqn:Hopen; [by do 3 eexists|].
  - destruct (dispatch_open_ok state op d Hd) as (outcome & result & d' & -> & Hd' & Hp). by do 3 eexists.
  - destruct (send_ok flow op d Hd Hocc) as (result & d' & -> & Hd'). by do 3 eexists.
  - destruct (receive_ok flow op d Hd Hocc Hopen) as [Hd' Hc]. destruct (dispatch_receive flow op d) as [op' d']. by do 3 eexists.
  - destruct (dispatch_poll now pending flow op d) as [outcome op'] eqn:Ep. do 3 eexists. split; [done|]. split; [done|].
    unfold dispatch_poll in Ep. case_match; [by simplify_eq|]. case_match; [by simplify_eq|]. case_match eqn:En; simplify_eq; [done|].
    split; [done|]. intros _. split; [by apply Nat.eqb_neq|exact Etype].
  - destruct (close_matching_ok (op_owner op) (op_descriptor op) false d Hd) as (d' & -> & Hd'). by do 3 eexists.
  - destruct (close_matching_ok (op_owner op) 0 true d Hd) as (d' & -> & Hd'). by do 3 eexists.
Qed.
End Dispatch.
