(* ===== verification/TunnelThreads.v ===== *)
(** * The threads of the socket interception

    The steps of TunnelWorker.v keep the worker's invariant: no step fails, an operation
    is reached by the worker while the thread that called waits for it and never later,
    every flow does what its specification (TunnelSockets.v) allows, and the worker only
    sleeps when nothing is left to do. *)

From stdpp Require Import gmap.
From S2P Require Import Prelude Endian Messages PacketQueue Platform Session Base64 InnerPacket Timers.
From S2P Require Import Crypto Device Data Identity Admission Handshake Peer PeerController RuntimeEvents.
From S2P Require Import FlowPolicy FlowPlane FlowTuples TunnelClient TunnelWorker TunnelQueues TunnelSockets TunnelDispatch.
Local Open Scope Z_scope.

Section Threads.
Context {T : Type} `{TunnelService T}.
Implicit Types (d : WorkerData T) (w : TunnelWorker T).

(** ** The invariant *)

(** The operations that the worker's phase points to. *)
Fixpoint phase_operation (phase : WorkerPhase) : list nat :=
  match phase with
  | Worker_Dispatch operation | Worker_Signal operation => [operation]
  | Worker_Invalidate next | Worker_Discovery next | Worker_Discover next | Worker_Discovered _ next
  | Worker_Report next | Worker_RequestInvalidation next | Worker_Polls next => phase_operation next
  | _ => []
  end.
Definition pointers w : list nat := w_operations w ++ w_pending_polls w ++ phase_operation (w_phase w).

Definition flow_settled (flow : nat) d : Prop := fe_occupied (entry_at flow d) = true -> CanSubmit (fe_submission (entry_at flow d)) = false.
Definition settled_flows d : Prop := forall flow, flow_settled flow d.
(** A poll that is not ready. *)
Definition poll_waits d (op : Operation) : Prop :=
  match FindFlow (op_owner op) (op_descriptor op) d with
  | None => False
  | Some flow => su_closed (fe_submission (entry_at flow d)) = false /\ Revents (op_events op) (readiness flow d) = 0
  end.
Definition polls_wait w : Prop :=
  Forall (fun poll => exists op, w_store w !! poll = Some op /\ poll_waits (w_data w) op) (w_pending_polls w).
(** What is requested from a worker that waits will wake it. *)
Record wakes w : Prop := {
  wk_operations : w_operations w <> [] -> w_wake_event w = true \/ exists id, w_callers w !! id = Some Caller_Signalling;
  wk_discovery : w_discovery_requested w = true -> w_wake_event w = true \/ w_signallers w <> 0%nat;
  wk_invalidation : w_invalidation_requested w = false
}.
(** The phases that do not depend on what was done before. *)
Fixpoint free_phase (phase : WorkerPhase) : Prop :=
  match phase with
  | Worker_Drain _ | Worker_Take => True
  | Worker_Invalidate next | Worker_Discovery next | Worker_Discover next | Worker_Discovered _ next => free_phase next
  | _ => False
  end.
Fixpoint phase_ok w (phase : WorkerPhase) : Prop :=
  match phase with
  | Worker_Invalidate next | Worker_Discovery next | Worker_Discover next | Worker_Discovered _ next => free_phase next
  | Worker_Report next | Worker_RequestInvalidation next =>
      match next with Worker_Drain _ | Worker_Signal _ | Worker_Submit _ _ => phase_ok w next | _ => False end
  | Worker_DrainMore flow => fe_occupied (entry_at flow (w_data w)) = true
  | Worker_Polls next => match next with Worker_Clear => settled_flows (w_data w) | _ => free_phase next end
  | Worker_Submit flow made_progress => made_progress = false -> forall other, (other < flow)%nat -> flow_settled other (w_data w)
  | Worker_Clear | Worker_Look => settled_flows (w_data w) /\ polls_wait w
  | Worker_Wait => settled_flows (w_data w) /\ polls_wait w /\ wakes w
  | _ => True
  end.
Definition working (phase : WorkerPhase) : Prop := phase <> Worker_Idle /\ phase <> Worker_Exited.

Record worker_ok w : Prop := {
  wo_sockets : sockets_ok (w_data w);
  wo_nodup : NoDup (pointers w);
  wo_alive id : id ∈ pointers w <-> exists op, w_store w !! id = Some op /\ op_complete op = false;
  wo_polls : Forall (fun poll => op_type <$> w_store w !! poll = Some Op_Poll) (w_pending_polls w);
  wo_callers id : is_Some (w_callers w !! id) <-> is_Some (w_store w !! id);
  wo_returned : NoDup (w_returned w).*1;
  wo_gone id : id ∈ (w_returned w).*1 -> w_store w !! id = None;
  wo_room : (length (w_operations w) <= MaximumSockets /\ length (w_pending_polls w) <= MaximumSockets)%nat;
  wo_started : w_started w = false <-> w_phase w = Worker_Idle;
  wo_ended : ~ working (w_phase w) -> w_operations w = [] /\ w_pending_polls w = [];
  wo_exited : w_phase w = Worker_Exited -> w_stop_requested w = true;
  wo_stop : w_started w = true -> w_stop_requested w = true ->
    match w_stopper w with Stopper_None => False | Stopper_Signalling => True | Stopper_Joining => w_stop_event w = true end;
  wo_stopper : match w_stopper w with Stopper_None => True | _ => w_started w = true end;
  wo_phase : phase_ok w (w_phase w)
}.

Lemma free_phase_ok w phase : free_phase phase -> phase_ok w phase /\ working phase.
Proof. destruct phase; cbn; try done; intros; split; try done; by split. Qed.

(** ** The worker's steps *)

(** What only the steps that handle operations change. *)
Record same_queues w w' : Prop := {
  sq_operations : w_operations w' = w_operations w;
  sq_pending_polls : w_pending_polls w' = w_pending_polls w;
  sq_store : w_store w' = w_store w;
  sq_callers : w_callers w' = w_callers w;
  sq_returned : w_returned w' = w_returned w;
  sq_started : w_started w' = w_started w;
  sq_stop_requested : w_stop_requested w' = w_stop_requested w;
  sq_stop_event : w_stop_event w' = w_stop_event w;
  sq_stopper : w_stopper w' = w_stopper w
}.
Lemma moves w w' : worker_ok w -> working (w_phase w) -> working (w_phase w') -> same_queues w w' ->
  phase_operation (w_phase w') = phase_operation (w_phase w) -> sockets_ok (w_data w') -> phase_ok w' (w_phase w') -> worker_ok w'.
Proof.
  intros [] Hw Hw' [] Hp Hs Hok. assert (pointers w' = pointers w) as Ep by (unfold pointers; congruence).
  split; rewrite ?Ep; try done.
  - intros id. by rewrite sq_store0, wo_alive0.
  - rewrite sq_pending_polls0. eapply Forall_impl; [exact wo_polls0|]. cbn. intros poll. by rewrite sq_store0.
  - intros id. by rewrite sq_callers0, sq_store0.
  - by rewrite sq_returned0.
  - intros id. rewrite sq_returned0, sq_store0. apply wo_gone0.
  - by rewrite sq_operations0, sq_pending_polls0.
  - rewrite sq_started0, wo_started0. destruct Hw, Hw'. split; congruence.
  - by destruct Hw' as [? ?].
  - by rewrite sq_started0, sq_stop_requested0, sq_stopper0, sq_stop_event0.
  - by rewrite sq_stopper0, sq_started0.
Qed.
(** The worker's data changes. *)
Lemma moves_data phase d w : worker_ok w -> working (w_phase w) -> working phase ->
  phase_operation phase = phase_operation (w_phase w) -> sockets_ok d -> phase_ok (go phase (w <| w_data := d |>)) phase ->
  worker_ok (go phase (w <| w_data := d |>)).
Proof. intros Hok Hw Hw' Hp Hs Hph. by apply (moves w). Qed.
Lemma moves_go phase w : worker_ok w -> working (w_phase w) -> working phase ->
  phase_operation phase = phase_operation (w_phase w) -> phase_ok (go phase w) phase -> worker_ok (go phase w).
Proof. intros Hok Hw Hw' Hp Hph. apply (moves w); try done. apply Hok. Qed.

(** *** Operations that are completed *)

Lemma complete_all_ok finish operations : forall store, Forall (fun id => is_Some (store !! id)) operations -> exists store',
  complete_all finish operations store = Some store' /\
  forall id, if decide (id ∈ operations) then exists op, store' !! id = Some op /\ op_complete op = true else store' !! id = store !! id.
Proof.
  induction operations as [|operation operations IH]; intros store Hall; [by exists store|]. apply Forall_cons in Hall as [ [op E] Hall].
  cbn. rewrite E. cbn. set (new := (finish op) <| op_complete := true |>). destruct (IH (<[operation := new]> store)) as (store' & -> & Hat).
  { eapply Forall_impl; [exact Hall|]. intros id [op' E']. destruct (decide (operation = id)) as [<-|]; [rewrite lookup_insert_eq|rewrite lookup_insert_ne by done]; by eexists. }
  exists store'. split; [done|]. intros id. specialize (Hat id). destruct (decide (id ∈ operations)) as [Hin|Hin].
  - by rewrite decide_True by set_solver.
  - destruct (decide (id = operation)) as [->|Hne].
    + rewrite decide_True by set_solver. rewrite Hat, lookup_insert_eq. by eexists.
    + rewrite decide_False by set_solver. by rewrite Hat, lookup_insert_ne.
Qed.
Lemma CompletePoll_spec now d op : let '(complete, op') := CompletePoll now d op in
  op_complete op' = op_complete op /\ op_type op' = op_type op /\ (complete = false -> poll_waits d op').
Proof.
  unfold CompletePoll, poll_waits. cbv zeta. destruct (FindFlow _ _ d) as [flow|] eqn:E; [|done]. destruct (su_closed _) eqn:Ec; [done|].
  destruct (negb _) eqn:Er; [done|]. destruct (_ && _); [done|]. split; [done|]. split; [done|]. intros _. cbn. rewrite E. split; [done|].
  by apply negb_false_iff, Z.eqb_eq in Er.
Qed.
Lemma CompletePendingPolls_ok now d polls : forall store, NoDup polls ->
  Forall (fun id => exists op, store !! id = Some op /\ op_complete op = false) polls -> exists retained store',
  CompletePendingPolls now d polls store = Some (retained, store') /\ sublist retained polls /\
  forall id, if decide (id ∈ polls)
    then exists op op', store !! id = Some op /\ store' !! id = Some op' /\ op_type op' = op_type op /\
         (op_complete op' = false <-> id ∈ retained) /\ (id ∈ retained -> poll_waits d op')
    else store' !! id = store !! id.
Proof.
  induction polls as [|poll polls IH]; intros store Hnd Hall; [by exists [], store|].
  apply NoDup_cons in Hnd as [Hn Hnd]. apply Forall_cons in Hall as [ (op & E & Ec) Hall]. cbn. rewrite E. cbn [mbind option_bind].
  pose proof (CompletePoll_spec now d op) as Hp. destruct (CompletePoll now d op) as [complete op']. destruct Hp as (Hc & Ht & Hw).
  set (new := op' <| op_complete ::= orb complete |>). destruct (IH (<[poll := new]> store) Hnd) as (retained & store' & -> & Hsub & Hat).
  { eapply Forall_impl; [apply Forall_and; split; [exact Hall|apply Forall_forall; intros id Hin; exact Hin] |]. intros id [ (o & Eo & Hf) Hin].
    rewrite lookup_insert_ne by (intros ->; done). by exists o. }
  exists (if complete then retained else poll :: retained), store'. split; [done|].
  split; [destruct complete; [by apply sublist_cons|by apply sublist_skip]|]. intros id. specialize (Hat id).
  assert (poll ∉ retained) as Hr by (intros Hin; apply Hn; by eapply elem_of_sublist).
  assert (op_complete new = complete) as En by (cbn; rewrite Hc, Ec; apply orb_false_r).
  destruct (decide (id = poll)) as [->|Hne].
  - rewrite decide_False, lookup_insert_eq in Hat by done. rewrite decide_True by set_solver. exists op, new. split; [done|]. split; [done|].
    split; [done|]. rewrite En. destruct complete; [by split|]. split; [set_solver|]. intros _. by apply Hw.
  - rewrite lookup_insert_ne in Hat by done. destruct (decide (id ∈ polls)) as [Hin|Hin].
    + rewrite decide_True by set_solver. destruct Hat as (o & o' & K1 & K2 & K3 & K4 & K5). exists o, o'. do 3 (split; [done|]).
      destruct complete; [done|]. set_solver.
    + rewrite decide_False by set_solver. done.
Qed.

(** *** The sections *)

Definition step_ok (result : option (TunnelWorker T)) : Prop := exists w, result = Some w /\ worker_ok w.

Lemma alive_operation w id : worker_ok w -> id ∈ pointers w -> exists op, w_store w !! id = Some op /\ op_complete op = false.
Proof. intros Hok. apply (wo_alive w Hok). Qed.
Lemma exit_ok w : worker_ok w -> w_phase w = Worker_Top -> w_stop_requested w = true -> step_ok (exit_worker w).
Proof.
  intros Hok Ep Es. unfold exit_worker, on_data. cbn [w_operations w_store w_pending_polls w_data upd]. cbv zeta.
  assert (pointers w = w_operations w ++ w_pending_polls w) as Epoint by (unfold pointers; rewrite Ep; cbn; by rewrite app_nil_r).
  destruct (complete_all_ok closed_result (w_operations w) (w_store w)) as (store1 & E1 & Hat1).
  { apply Forall_forall. intros id Hin. destruct (alive_operation w id Hok) as (op & E & _); [rewrite Epoint; set_solver|]. by eexists. }
  destruct (complete_all_ok closed_poll (w_pending_polls w) store1) as (store2 & E2 & Hat2).
  { apply Forall_forall. intros id Hin. specialize (Hat1 id). destruct (decide (id ∈ w_operations w)).
    - destruct Hat1 as (op & -> & _). by eexists.
    - rewrite Hat1. destruct (alive_operation w id Hok) as (op & E & _); [rewrite Epoint; set_solver|]. by eexists. }
  change (w_store (w <| w_operations := [] |>)) with (w_store w). rewrite E1. cbn [mbind option_bind].
  change (w_pending_polls (w <| w_operations := [] |>)) with (w_pending_polls w). rewrite E2. cbn [mbind option_bind].
  match goal with |- context [InvalidateTunnelState ?d] => change d with (w_data w) end.
  destruct (invalidate_ok (w_data w) (wo_sockets w Hok)) as (d' & -> & Hd'). eexists. split; [reflexivity|].
  assert (Hat : forall id, if decide (id ∈ pointers w) then exists op, store2 !! id = Some op /\ op_complete op = true else store2 !! id = w_store w !! id).
  { intros id. rewrite Epoint. specialize (Hat1 id). specialize (Hat2 id). destruct (decide (id ∈ w_pending_polls w)).
    - by rewrite decide_True by set_solver.
    - rewrite Hat2. destruct (decide (id ∈ w_operations w)); [by rewrite decide_True by set_solver|by rewrite decide_False by set_solver]. }
  assert (Hdom : forall id, is_Some (store2 !! id) <-> is_Some (w_store w !! id)).
  { intros id. specialize (Hat id). destruct (decide (id ∈ pointers w)) as [Hin|]; [|by rewrite Hat].
    apply (alive_operation w id Hok) in Hin as (op & -> & _). destruct Hat as (op' & -> & _). split; by eexists. }
  destruct Hok. split; cbn; try done.
  - constructor.
  - intros id. split; [intros Hin; by apply elem_of_nil in Hin|]. intros (op & E & Ec). exfalso. specialize (Hat id). case_decide as Hin.
    + destruct Hat as (op' & E' & Ec'). congruence.
    + apply Hin, wo_alive0. exists op. by rewrite <- Hat.
  - intros id. by rewrite wo_callers0, Hdom.
  - intros id Hin. apply eq_None_not_Some. rewrite Hdom. by rewrite wo_gone0 by done.
  - lia.
  - by rewrite wo_started0, Ep.
Qed.

(** An operation leaves the queue; a poll joins those that wait; an operation is complete. *)
Lemma take_ok w : worker_ok w -> w_phase w = Worker_Take ->
  worker_ok (match w_operations w with
             | [] => go (Worker_Submit 0 false) w
             | operation :: operations => go (Worker_Dispatch operation) (w <| w_operations := operations |>)
             end).
Proof.
  intros Hok Ep. destruct (w_operations w) as [|id ops] eqn:Eops.
  - apply moves_go; rewrite ?Ep; try done. cbn. intros _ other Hlt. lia.
  - destruct Hok. assert (pointers w ≡ₚ ops ++ w_pending_polls w ++ [id]) as Hperm.
    { unfold pointers. rewrite Eops, Ep. cbn. rewrite app_nil_r, app_assoc. apply Permutation_cons_append. }
    split; cbn; try done.
    + by rewrite <- Hperm.
    + intros id'. by rewrite <- Hperm.
    + rewrite Eops in wo_room0. cbn in wo_room0. lia.
    + by rewrite wo_started0, Ep.
    + intros Hn. exfalso. by apply Hn.
Qed.
Lemma signal_ok id op w : worker_ok w -> w_phase w = Worker_Signal id -> w_store w !! id = Some op ->
  worker_ok (go (Worker_Invalidate Worker_Take) (w <| w_store ::= <[id := op <| op_complete := true |>]> |>)).
Proof.
  intros Hok Ep E. destruct Hok. assert (pointers w ≡ₚ id :: w_operations w ++ w_pending_polls w) as Hperm.
  { unfold pointers. rewrite Ep. cbn. by rewrite app_assoc, <- Permutation_cons_append. }
  assert (id ∉ w_operations w ++ w_pending_polls w /\ NoDup (w_operations w ++ w_pending_polls w)) as [Hn Hnd] by (apply NoDup_cons; by rewrite <- Hperm).
  split; cbn; try done.
  - unfold pointers. cbn. by rewrite app_nil_r.
  - intros id'. unfold pointers. cbn. rewrite app_nil_r. destruct (decide (id' = id)) as [->|Hne].
    + rewrite lookup_insert_eq. split; [done|]. by intros (op' & [= <-] & Hc).
    + rewrite lookup_insert_ne by done. rewrite <- wo_alive0, Hperm. set_solver.
  - eapply Forall_impl; [apply Forall_and; split; [exact wo_polls0|apply Forall_forall; intros poll Hin; exact Hin] |].
    intros poll [Ht Hin]. cbn. rewrite lookup_insert_ne; [done|]. intros ->. set_solver.
  - intros id'. rewrite wo_callers0. destruct (decide (id' = id)) as [->|]; [|by rewrite lookup_insert_ne].
    rewrite lookup_insert_eq, E. split; by eexists.
  - intros id' Hin. specialize (wo_gone0 id' Hin). rewrite lookup_insert_ne; [done|]. by intros ->; congruence.
  - by rewrite wo_started0, Ep.
  - intros Hn'. exfalso. by apply Hn'.
Qed.
(** An operation has been dispatched: it is signalled next, or waits with the polls. *)
Lemma dispatched id op op' d polls phase w : worker_ok w -> w_phase w = Worker_Dispatch id -> w_store w !! id = Some op -> op_complete op' = op_complete op ->
  sockets_ok d -> working phase -> (forall w, phase_ok w phase) -> polls ++ phase_operation phase = w_pending_polls w ++ [id] ->
  (length polls <= MaximumSockets)%nat -> (polls = w_pending_polls w \/ op_type op' = Op_Poll) ->
  worker_ok (go phase (((w <| w_store ::= <[id := op']> |>) <| w_data := d |>) <| w_pending_polls := polls |>)).
Proof.
  intros Hok Ep E Ec Hd Hw Hph Epolls Hroom Htype.
  assert (id ∈ pointers w) as Hid by (unfold pointers; rewrite Ep; set_solver).
  destruct (alive_operation w id Hok Hid) as (op1 & E1 & Ec1). assert (op1 = op) as -> by congruence. destruct Hok.
  set (w' := go _ _). assert (pointers w' = pointers w) as Epoint.
  { unfold pointers. subst w'. cbn. by rewrite Epolls, Ep. }
  split; rewrite ?Epoint; subst w'; cbn; try done.
  - intros id'. destruct (decide (id' = id)) as [->|Hne]; [|by rewrite lookup_insert_ne].
    rewrite lookup_insert_eq. split; [|done]. intros _. exists op'. split; [done|congruence].
  - apply Forall_forall. intros poll Hin. destruct (decide (poll = id)) as [->|Hne].
    + rewrite lookup_insert_eq. cbn. destruct Htype as [->|Ht]; [|by rewrite Ht]. exfalso.
      unfold pointers in wo_nodup0. rewrite Ep, app_assoc in wo_nodup0. cbn in wo_nodup0. apply NoDup_app in wo_nodup0 as (_ & Hdis & _).
      by apply (Hdis id); set_solver.
    + rewrite lookup_insert_ne by done. rewrite Forall_forall in wo_polls0. apply wo_polls0.
      assert (poll ∈ w_pending_polls w ++ [id]) as Hin' by (rewrite <- Epolls; set_solver). set_solver.
  - intros id'. rewrite wo_callers0. destruct (decide (id' = id)) as [->|]; [|by rewrite lookup_insert_ne].
    rewrite lookup_insert_eq, E. split; by eexists.
  - intros id' Hin. specialize (wo_gone0 id' Hin). rewrite lookup_insert_ne; [done|]. by intros ->; congruence.
  - destruct wo_room0. done.
  - rewrite wo_started0, Ep. destruct Hw. done.
  - by destruct Hw.
Qed.
Lemma dispatch_section_ok id w : worker_ok w -> w_phase w = Worker_Dispatch id -> step_ok (dispatch id w).
Proof.
  intros Hok Ep. assert (id ∈ pointers w) as Hid by (unfold pointers; rewrite Ep; set_solver).
  destruct (alive_operation w id Hok Hid) as (op & E & Ec). unfold dispatch. rewrite E. cbn [mbind option_bind].
  destruct (dispatch_ok (discovery_GetState (w_discovery w)) (w_now w) (length (w_pending_polls w)) op (w_data w) (wo_sockets w Hok))
    as (outcome & op' & d' & -> & Hd' & Ec' & Hp). cbn [mbind option_bind]. cbv zeta. eexists. split; [done|].
  pose proof (wo_room w Hok) as [_ Hroom].
  assert (forall phase, phase = Worker_Signal id \/ phase = Worker_Report (Worker_Signal id) ->
            worker_ok (go phase ((w <| w_store ::= <[id := op']> |>) <| w_data := d' |>))) as Hsame.
  { intros phase Hphase. apply (dispatched id op op' d' (w_pending_polls w) phase); try done; destruct Hphase as [->| ->]; try done; by left. }
  destruct outcome; [apply Hsame; by left|apply Hsame; by right|]. destruct (Hp eq_refl) as [Hne Ht].
  apply (dispatched id op op' d' (w_pending_polls w ++ [id]) (Worker_Invalidate Worker_Take)); try done.
  - cbn. by rewrite app_nil_r.
  - rewrite length_app. cbn. lia.
  - by right.
Qed.

Lemma polls_section_ok next w : worker_ok w -> w_phase w = Worker_Polls next ->
  exists retained store, CompletePendingPolls (w_now w) (w_data w) (w_pending_polls w) (w_store w) = Some (retained, store) /\
    worker_ok (go next ((w <| w_pending_polls := retained |>) <| w_store := store |>)).
Proof.
  intros Hok Ep. pose proof (wo_nodup w Hok) as Hnd. unfold pointers in Hnd. rewrite Ep in Hnd. cbn in Hnd.
  pose proof (wo_phase w Hok) as Hph. rewrite Ep in Hph. cbn in Hph.
  assert (phase_operation next = []) as Enext.
  { clear -Hph. assert (free_phase next -> phase_operation next = []) as Hfree; [|destruct next; try done; by apply Hfree].
    clear. induction next; cbn; try done. }
  rewrite Enext, app_nil_r in Hnd. apply NoDup_app in Hnd as (Hnd1 & Hdisj & Hnd2).
  assert (Hpoint : forall id, id ∈ pointers w <-> id ∈ w_operations w \/ id ∈ w_pending_polls w).
  { intros id. unfold pointers. rewrite Ep. cbn. rewrite Enext, app_nil_r. apply elem_of_app. }
  destruct (CompletePendingPolls_ok (w_now w) (w_data w) (w_pending_polls w) (w_store w) Hnd2) as (retained & store & E & Hsub & Hat).
  { apply Forall_forall. intros id Hin. apply (alive_operation w id Hok), Hpoint. by right. }
  exists retained, store. split; [done|].
  assert (Hdom : forall id, is_Some (store !! id) <-> is_Some (w_store w !! id)).
  { intros id. specialize (Hat id). case_decide; [|by rewrite Hat]. destruct Hat as (o & o' & -> & -> & _). split; by eexists. }
  assert (Hin_polls : forall id, id ∈ retained -> id ∈ w_pending_polls w) by (intros id Hin; by eapply elem_of_sublist).
  destruct Hok. split; cbn; try done.
  - unfold pointers. cbn. rewrite Enext, app_nil_r. apply NoDup_app. split; [done|]. split; [|by eapply sublist_NoDup].
    intros id Hin Hin'. apply (Hdisj id Hin). by apply Hin_polls.
  - intros id. unfold pointers. cbn. rewrite Enext, app_nil_r, elem_of_app. specialize (Hat id). destruct (decide (id ∈ w_pending_polls w)) as [Hin|Hin].
    + destruct Hat as (o & o' & K1 & K2 & K3 & K4 & K5). split.
      * intros [Hin'|Hin']; [by exfalso; eapply Hdisj|]. exists o'. split; [done|by apply K4].
      * intros (o2 & E2 & Hc). assert (o2 = o') as -> by congruence. right. by apply K4.
    + rewrite Hat, <- wo_alive0, Hpoint. split; intros [?|?]; [by left|by exfalso; apply Hin, Hin_polls|by left|done].
  - apply Forall_forall. intros id Hin. specialize (Hat id). rewrite decide_True in Hat by by apply Hin_polls.
    destruct Hat as (o & o' & K1 & K2 & K3 & _). rewrite Forall_forall in wo_polls0. specialize (wo_polls0 id (Hin_polls id Hin)).
    rewrite K1 in wo_polls0. rewrite K2. cbn in *. by rewrite K3.
  - intros id. by rewrite Hdom.
  - intros id Hin. apply eq_None_not_Some. rewrite Hdom. by rewrite wo_gone0 by done.
  - apply sublist_length in Hsub. lia.
  - rewrite wo_started0, Ep. destruct next; done.
  - destruct next; cbn in Hph; try done; intros Hn; exfalso; by apply Hn.
  - destruct next; try done.
  - destruct next; try done; cbn in Hph |- *; try done. split; [done|]. apply Forall_forall. intros id Hin. cbn.
    specialize (Hat id). rewrite decide_True in Hat by by apply Hin_polls. destruct Hat as (o & o' & K1 & K2 & K3 & K4 & K5). exists o'. split; [done|by apply K5].
Qed.
Lemma drain_section_ok flow w : worker_ok w -> w_phase w = Worker_DrainMore flow -> exists w', worker_step w = Moved w' /\ worker_ok w'.
Proof.
  intros Hok Ep. pose proof (wo_phase w Hok) as Hocc. rewrite Ep in Hocc. cbn in Hocc. unfold worker_step. rewrite Ep.
  destruct (drain_advances flow (w_data w) (proj1 (wo_sockets w Hok)) Hocc) as (outcome & d' & -> & Ha & Hocc'). cbn [mbind option_bind]. cbv zeta.
  pose proof (advances_sockets _ _ _ Ha (wo_sockets w Hok)) as Hd'. eexists. split; [done|].
  destruct outcome; apply moves_data; rewrite ?Ep; done.
Qed.
Lemma submit_section_ok flow made_progress w : worker_ok w -> w_phase w = Worker_Submit flow made_progress -> exists w', worker_step w = Moved w' /\ worker_ok w'.
Proof.
  intros Hok Ep. pose proof (wo_phase w Hok) as Hph. rewrite Ep in Hph. cbn in Hph. unfold worker_step. rewrite Ep.
  pose proof (proj1 (wo_sockets w Hok)) as Hd. destruct (flow <? MaximumSockets)%nat eqn:Elt.
  - destruct (submit_advances flow (w_data w) Hd) as (progress & failed & d' & -> & Ha & Hocc & Hset). cbn [mbind option_bind]. cbv zeta. eexists. split; [done|].
    pose proof (advances_sockets _ _ _ Ha (wo_sockets w Hok)) as Hd'. destruct Ha as (_ & Ho & _).
    assert (made_progress || progress = false -> forall other, (other < S flow)%nat -> flow_settled other d') as Hnext.
    { intros E other Hlt. apply orb_false_iff in E as [E1 E2]. destruct (decide (other = flow)) as [->|Hne]; [intros Ho'; by apply Hset|].
      destruct (Ho other Hne) as [Ee _]. unfold flow_settled. rewrite Ee. apply Hph; [done|lia]. }
    destruct failed; apply moves_data; rewrite ?Ep; done.
  - eexists. split; [done|]. apply Nat.ltb_ge in Elt. destruct made_progress; apply moves_go; rewrite ?Ep; try done.
    + cbn. intros _ other Hlt. lia.
    + intros other. destruct (decide (other < MaximumSockets)%nat) as [Hlt|Hge]; [apply Hph; [done|lia]|].
      unfold flow_settled. by rewrite entry_at_beyond by (done || lia).
Qed.
Lemma deadlines_some polls store : Forall (fun id => is_Some (store !! id)) polls -> exists deadlines, poll_deadlines polls store = Some deadlines /\
  forall id op, id ∈ polls -> store !! id = Some op -> op_deadline_nanoseconds op ∈ deadlines.
Proof.
  induction polls as [|poll polls IH]; intros Hall.
  - exists []. split; [done|]. intros id op Hin. by apply elem_of_nil in Hin.
  - apply Forall_cons in Hall as [ [op E] Hall]. cbn. rewrite E. cbn. destruct (IH Hall) as (deadlines & -> & Hin). eexists. split; [done|].
    intros id op' Hid E'. apply elem_of_cons in Hid as [->|Hid]; [|right; by eapply Hin]. rewrite E in E'. injection E' as <-. by left.
Qed.
Lemma polls_alive w : worker_ok w -> Forall (fun id => is_Some (w_store w !! id)) (w_pending_polls w).
Proof.
  intros Hok. apply Forall_forall. intros id Hin. destruct (alive_operation w id Hok) as (op & E & _); [unfold pointers; set_solver|by eexists].
Qed.

Lemma worker_step_ok w : worker_ok w ->
  match worker_step w with Crashed => False | Blocked => ~ working (w_phase w) \/ w_phase w = Worker_Wait /\ wait_ends w = Some false | Moved w' => worker_ok w' end.
Proof.
  intros Hok. pose proof (wo_sockets w Hok) as Hd. pose proof (wo_phase w Hok) as Hph. unfold worker_step. destruct (w_phase w) as [| |next|next|next|found next|next|next|flow|flow|next| |operation|operation|flow made_progress| | | |] eqn:Ep; cbn in Hph.
  - left. by intros [].
  - destruct (w_stop_requested w) eqn:Es; [by destruct (exit_ok w Hok Ep Es) as (w' & -> & Hw')|]. apply moves_go; by rewrite ?Ep.
  - destruct (w_invalidation_requested w).
    + unfold on_data. cbn [w_data upd]. change (w_data (w <| w_invalidation_requested := false |>)) with (w_data w).
      destruct (invalidate_ok _ Hd) as (d' & -> & Hd'). cbn. apply (moves w); rewrite ?Ep; try done.
    + by apply moves_go; rewrite ?Ep.
  - destruct (w_discovery_requested w); [by apply (moves w); rewrite ?Ep|]. apply moves_go; rewrite ?Ep; try done; by eapply free_phase_ok.
  - unfold discover. destruct (negb _); [apply moves_go; rewrite ?Ep; try done; by eapply free_phase_ok|].
    destruct (discover_ok _ Hd) as (found & d' & -> & Hd'). cbn. by apply moves_data; rewrite ?Ep.
  - destruct found as [maximum|].
    + set (w' := go _ _). destruct (free_phase_ok w' _ Hph) as [Hph' Hw']. apply (moves w); rewrite ?Ep; try done. by apply sockets_maximum.
    + set (w' := go _ _). destruct (free_phase_ok w' _ Hph) as [Hph' Hw']. by apply (moves w); rewrite ?Ep.
  - destruct (ReportTunnelClientFailure _ _) as [reported discovery]. cbn. destruct next; try done; destruct reported; by apply (moves w); rewrite ?Ep.
  - cbn. destruct next; try done; destruct (w_started w); by apply (moves w); rewrite ?Ep.
  - destruct (flow <? MaximumSockets)%nat; [destruct (drains flow (w_data w)) eqn:Edr|]; apply moves_go; rewrite ?Ep; try done.
    cbn. unfold drains in Edr. by bool_prop.
  - destruct (drain_section_ok flow w Hok Ep) as (w' & E & Hw'). unfold worker_step in E. rewrite Ep in E. by rewrite E.
  - destruct (polls_section_ok next w Hok Ep) as (retained & store & -> & Hw'). exact Hw'.
  - by apply take_ok.
  - by destruct (dispatch_section_ok operation w Hok Ep) as (w' & -> & Hw').
  - assert (operation ∈ pointers w) as Hid by (unfold pointers; rewrite Ep; set_solver).
    destruct (alive_operation w operation Hok Hid) as (op & E & _). rewrite E. cbn. by apply signal_ok.
  - destruct (submit_section_ok flow made_progress w Hok Ep) as (w' & E & Hw'). unfold worker_step in E. rewrite Ep in E. by rewrite E.
  - by apply (moves w); rewrite ?Ep.
  - destruct (_ || _) eqn:E; apply moves_go; rewrite ?Ep; try done. cbn. destruct Hph. split; [done|]. split; [done|]. bool_prop.
    split; cbn; congruence.
  - unfold wait_ends. destruct (deadlines_some _ _ (polls_alive w Hok)) as (deadlines & E & _). rewrite E. cbn. destruct (_ || _) eqn:Ew.
    + by apply moves_go; rewrite ?Ep.
    + by right.
  - left. by intros [].
Qed.

(** ** The steps of the other threads *)

Lemma init_ok (service : T) : worker_ok (worker_init service).
Proof.
  assert (data_ok (worker_data_init service)) as Hd.
  { split; try done.
    - apply Forall_forall. intros entry Hin. apply elem_of_replicate in Hin as [-> _]. apply entry_init_ok.
    - constructor.
    - intros slot. split; [intros Hin; by apply elem_of_nil in Hin|]. intros Ho. exfalso. apply occupied_lookup in Ho as (datagram & E & Eo).
      cbn in E. apply (lookup_replicate_1 MaximumQueuedOutboundDatagrams) in E as [-> _]. done.
    - apply Forall_forall. intros datagram Hin. apply elem_of_replicate in Hin as [-> _]. cbn. lia. }
  split; try done; cbn.
  - split; [done|]. intros flow Hlt. exists socket_init. split; [constructor|]. apply init_represents. unfold entry_at.
    change (default flow_entry_init (replicate MaximumSockets flow_entry_init !! flow) = flow_entry_init). by rewrite lookup_replicate_2.
  - constructor.
  - intros id. split; [intros Hin; by apply elem_of_nil in Hin|]. by intros (op & E & _).
  - intros id. split; by intros [? ?].
  - constructor.
  - lia.
Qed.

(** What a step of another thread keeps. *)
Lemma phase_kept w w' phase : (exists t, w_data w' = (w_data w) <| wd_service := t |>) -> w_pending_polls w' = w_pending_polls w ->
  (forall id op, id ∈ w_pending_polls w -> w_store w !! id = Some op -> w_store w' !! id = Some op) -> (wakes w -> wakes w') ->
  phase_ok w phase -> phase_ok w' phase.
Proof.
  intros [t Ed] Ep Hstore Hwakes. assert (polls_wait w -> polls_wait w') as Hpolls.
  { unfold polls_wait. rewrite Ep, Ed, !Forall_forall. intros Hall poll Hin. destruct (Hall poll Hin) as (op & E & Hw). exists op. split; [by apply Hstore|exact Hw]. }
  induction phase as [| |next IH|next IH|next IH|found next IH|next IH|next IH|flow|flow|next IH| |operation|operation|flow made_progress| | | |];
    cbn; rewrite ?Ed; try done.
  - by destruct next.
  - by destruct next.
  - intros [? ?]. by split; [|apply Hpolls].
  - intros [? ?]. by split; [|apply Hpolls].
  - intros (? & ? & ?). split; [done|]. by split; [apply Hpolls|apply Hwakes].
Qed.
(** Requests and signals: the operations are as they were. *)
Lemma requests w w' : worker_ok w -> (exists t, w_data w' = (w_data w) <| wd_service := t |>) -> w_phase w' = w_phase w -> w_operations w' = w_operations w ->
  w_pending_polls w' = w_pending_polls w -> w_store w' = w_store w -> (forall id, is_Some (w_callers w' !! id) <-> is_Some (w_callers w !! id)) ->
  w_returned w' = w_returned w -> w_started w' = w_started w -> (w_stop_requested w = true -> w_stop_requested w' = true) ->
  (w_started w = true -> w_stop_requested w' = true ->
    match w_stopper w' with Stopper_None => False | Stopper_Signalling => True | Stopper_Joining => w_stop_event w' = true end) ->
  match w_stopper w' with Stopper_None => True | _ => w_started w = true end -> (wakes w -> wakes w') -> worker_ok w'.
Proof.
  intros Hok Ed Eph Eops Epolls Estore Hcallers Eret Est Hreq Hstop Hstopper Hwakes.
  assert (pointers w' = pointers w) as Epoint by (unfold pointers; congruence).
  assert (phase_ok w' (w_phase w)) as Hph.
  { apply (phase_kept w); [done|done| |done|apply Hok]. intros id op _. by rewrite Estore. }
  assert (sockets_ok (w_data w')) as Hd by (destruct Ed as [t ->]; apply (sockets_service (fun _ => t)), Hok).
  destruct Hok. split; rewrite ?Epoint, ?Eph, ?Est, ?Eret, ?Eops, ?Epolls, ?Estore; try done.
  - intros id. by rewrite Hcallers.
  - intros E. by apply Hreq, wo_exited0.
Qed.
Lemma service_same w : exists t, w_data w = (w_data w) <| wd_service := t |>.
Proof. exists (wd_service (w_data w)). by destruct (w_data w). Qed.

Lemma call_ok id call w : worker_ok w -> w_store w !! id = None -> id ∉ (w_returned w).*1 -> worker_ok (EnqueueAndWait id (operation_of call) w).
Proof.
  intros Hok Hnew Hret. assert (op_complete (operation_of call) = false) as Hc by by destruct call. set (op := operation_of call) in *. clearbody op.
  assert (Hreturned : forall op', worker_ok (w <| w_returned ::= fun returned => returned ++ [(id, op')] |>)).
  { intros op'. pose proof (wo_phase w Hok) as Hph. destruct Hok. split; try done; cbn.
    - rewrite fmap_app. cbn. apply NoDup_app. split; [done|]. split; [|apply NoDup_singleton]. intros other Hin ->%list_elem_of_singleton. done.
    - intros other. rewrite fmap_app, elem_of_app. cbn. intros [Hin|Hin]; [by apply wo_gone0|]. apply list_elem_of_singleton in Hin as ->. done.
    - apply (phase_kept w); [exact (service_same w)|done|done| |exact Hph]. intros []. by split. }
  unfold EnqueueAndWait. destruct (negb (w_started w) || w_stop_requested w) eqn:Erun; [apply Hreturned|].
  destruct (length (w_operations w) =? MaximumSockets)%nat eqn:Efull; [apply Hreturned|].
  apply orb_false_iff in Erun as [Erun Ereq]. apply negb_false_iff in Erun. apply Nat.eqb_neq in Efull.
  set (w' := upd w_operations _ _). assert (pointers w' ≡ₚ id :: pointers w) as Hperm.
  { unfold pointers. subst w'. cbn. rewrite <- app_assoc. cbn. symmetry. apply Permutation_middle. }
  assert (id ∉ pointers w) as Hn by (intros Hin; apply (alive_operation w id Hok) in Hin as (op' & E & _); congruence).
  assert (working (w_phase w)) as Hw.
  { split; intros E; [apply (wo_started w Hok) in E; congruence|apply (wo_exited w Hok) in E; congruence]. }
  assert (phase_ok w' (w_phase w)) as Hph.
  { apply (phase_kept w); [exact (service_same w)|done| | |apply Hok].
    - intros other op' _ E. subst w'. cbn. rewrite lookup_insert_ne; [done|]. intros ->. congruence.
    - intros [K1 K2 K3]. split; [|exact K2|exact K3]. intros _. right. exists id. subst w'. cbn. apply lookup_insert_eq. }
  assert (NoDup (pointers w')) as Hnd by (rewrite Hperm; apply NoDup_cons; split; [done|apply Hok]).
  assert (Halive : forall other, other ∈ pointers w' <-> other = id \/ other ∈ pointers w) by (intros other; by rewrite Hperm, elem_of_cons).
  clear Hperm. destruct Hok. split; try done; [|subst w'; cbn..]; try done.
  - intros other. rewrite Halive, wo_alive0. subst w'. cbn. destruct (decide (other = id)) as [->|Hne].
    + rewrite lookup_insert_eq. split; [by exists op|by left].
    + rewrite lookup_insert_ne by done. split; [by intros [?|?]|by right].
  - eapply Forall_impl; [exact wo_polls0|]. cbn. intros poll Ht. rewrite lookup_insert_ne; [done|]. intros ->. by rewrite Hnew in Ht.
  - intros other. destruct (decide (other = id)) as [->|]; [|by rewrite !lookup_insert_ne]. rewrite !lookup_insert_eq. split; by eexists.
  - intros other Hin. rewrite lookup_insert_ne; [by apply wo_gone0|]. by intros ->.
  - rewrite length_app. cbn. lia.
Qed.
Lemma return_ok id op w : worker_ok w -> w_store w !! id = Some op -> op_complete op = true -> w_callers w !! id = Some Caller_Waiting ->
  worker_ok (((w <| w_store ::= delete id |>) <| w_callers ::= delete id |>) <| w_returned ::= fun returned => returned ++ [(id, op)] |>).
Proof.
  intros Hok E Hc Ec. set (w' := upd w_returned _ _).
  assert (Hpoint : id ∉ pointers w) by (intros Hin; apply (alive_operation w id Hok) in Hin as (op' & E' & ?); congruence).
  assert (phase_ok w' (w_phase w)) as Hph.
  { apply (phase_kept w); [exact (service_same w)|done| | |apply Hok].
    - intros other op' Hin E'. subst w'. cbn. rewrite lookup_delete_ne; [done|]. intros ->. apply Hpoint. unfold pointers. set_solver.
    - intros [K1 K2 K3]. split; [|exact K2|exact K3]. intros Hne. destruct (K1 Hne) as [?|[other Eo] ]; [by left|]. right. exists other.
      subst w'. cbn. rewrite lookup_delete_ne; [done|]. intros ->. congruence. }
  assert (pointers w' = pointers w) as Epoint by done.
  destruct Hok. split; rewrite ?Epoint; subst w'; cbn; try done.
  - intros other. rewrite wo_alive0. destruct (decide (other = id)) as [->|Hne]; [|by rewrite lookup_delete_ne].
    rewrite lookup_delete_eq. split; [|by intros (? & ? & ?)]. intros (op' & E' & ?). congruence.
  - eapply Forall_impl; [apply Forall_and; split; [exact wo_polls0|apply Forall_forall; intros poll Hin; exact Hin] |]. intros poll [Ht Hin]. cbn.
    rewrite lookup_delete_ne; [done|]. intros ->. apply Hpoint. unfold pointers. set_solver.
  - intros other. destruct (decide (other = id)) as [->|]; [|by rewrite !lookup_delete_ne]. rewrite !lookup_delete_eq. split; by intros [? ?].
  - rewrite fmap_app. cbn. apply NoDup_app. split; [done|]. split; [|apply NoDup_singleton]. intros other Hin ->%list_elem_of_singleton.
    apply wo_gone0 in Hin. congruence.
  - intros other. rewrite fmap_app, elem_of_app. cbn. destruct (decide (other = id)) as [->|Hne]; [by rewrite lookup_delete_eq|].
    rewrite lookup_delete_ne by done. intros [Hin|Hin]; [by apply wo_gone0|]. by apply list_elem_of_singleton in Hin.
Qed.
Lemma worker_start_ok w : worker_ok w -> worker_ok (Start w).
Proof.
  intros Hok. unfold Start. destruct (w_started w) eqn:Es; [done|]. pose proof (proj1 (wo_started w Hok) Es) as Eph.
  destruct (wo_ended w Hok) as [Eops Epolls]; [by rewrite Eph; intros [] |]. pose proof (wo_stopper w Hok) as Hstop. rewrite Es in Hstop.
  assert (pointers w = []) as Epoint by (unfold pointers; by rewrite Eops, Epolls, Eph).
  set (w' := go _ _). assert (pointers w' = pointers w) as Epoint' by (unfold pointers; subst w'; cbn; by rewrite Eph).
  assert (sockets_ok (w_data w')) as Hd by (apply sockets_maximum, Hok).
  destruct Hok. split; rewrite ?Epoint'; subst w'; cbn; try done. by destruct (w_stopper w).
Qed.
Lemma joined_ok w : worker_ok w -> w_phase w = Worker_Exited -> worker_ok (Stop_joined w).
Proof.
  intros Hok Eph. destruct (wo_ended w Hok) as [Eops Epolls]; [by rewrite Eph; intros [] |].
  assert (pointers (Stop_joined w) = pointers w) as Epoint by (unfold pointers; cbn; by rewrite Eph).
  destruct Hok. split; rewrite ?Epoint; unfold Stop_joined; cbn; try done.
Qed.
Lemma step_kept step w : worker_ok w -> match tunnel_step step w with Crashed => False | Blocked => True | Moved w' => worker_ok w' end.
Proof.
  intros Hok. pose proof (wo_stop w Hok) as Hstop. pose proof (wo_stopper w Hok) as Hstopper.
  destruct step as [id call|id|id| | | | | | | | | |now|t|]; cbn [tunnel_step].
  - destruct (_ && _) eqn:E; [|done]. bool_prop. by apply call_ok.
  - case_bool_decide as E; [|done]. apply (requests w); try done; [exact (service_same w)| |].
    + intros other. cbn. destruct (decide (other = id)) as [->|]; [|by rewrite lookup_insert_ne]. rewrite lookup_insert_eq, E. split; by eexists.
    + intros [K1 K2 K3]. split; [by left|by left|done].
  - destruct (w_callers w !! id) as [ [|]|] eqn:Ec; try done. destruct (w_store w !! id) as [op|] eqn:E; [|done].
    destruct (op_complete op) eqn:Eo; [|done]. by apply return_ok.
  - by apply worker_start_ok.
  - destruct (w_stopper w) eqn:Est; try done. unfold Stop. destruct (w_started w) eqn:Es; [|done]. cbn [negb].
    apply (requests w); try done; [exact (service_same w)|intros []; by split].
  - destruct (w_stopper w) eqn:Est; try done. apply (requests w); try done; [exact (service_same w)|].
    intros [K1 K2 K3]. split; [by left|by left|done].
  - destruct (w_stopper w); try done. destruct (w_phase w) eqn:Ep; try done. by apply joined_ok.
  - destruct (RequestForInterceptedTraffic _ _) as [scheduled discovery].
    destruct scheduled; apply (requests w); try done; [exact (service_same w)|intros []; by split|exact (service_same w)|intros []; by split].
  - destruct (_ =? _)%nat; [done|]. unfold RequestDiscoveryAttempt.
    destruct (negb _); apply (requests w); try done; [exact (service_same w)|intros []; by split|exact (service_same w)|].
    intros [K1 K2 K3]. split; [done|by right|done].
  - destruct (_ =? _)%nat; [done|]. apply (requests w); try done; [exact (service_same w)|]. intros [K1 K2 K3]. split; [by left|by left|done].
  - apply (requests w); try done; [exact (service_same w)|intros []; by split].
  - apply (requests w); try done; [exact (service_same w)|intros []; by split].
  - destruct (_ <=? _); [|done]. apply (requests w); try done; [exact (service_same w)|intros []; by split].
  - apply (requests w); try done; [by exists t|intros []; by split].
  - pose proof (worker_step_ok w Hok). by destruct (worker_step w).
Qed.
Lemma run_kept steps : forall w, worker_ok w -> exists w', tunnel_run steps w = Some w' /\ worker_ok w'.
Proof.
  induction steps as [|step steps IH]; intros w Hok; [by exists w|]. cbn. pose proof (step_kept step w Hok) as Hs.
  destruct (tunnel_step step w); [by apply IH|done|by apply IH].
Qed.

(** ** What the invariant says *)

(** A call is with the worker or has returned. *)
Definition known id w : Prop := id ∈ (w_returned w).*1 \/ is_Some (w_store w !! id).
Lemma worker_step_callers w w' : worker_step w = Moved w' -> w_callers w' = w_callers w /\ w_returned w' = w_returned w.
Proof.
  unfold worker_step, moved, exit_worker, on_data, discover, dispatch. intros E. destruct (w_phase w).
  all: repeat (case_match; simplify_option_eq; try done). all: try discriminate E; by injection E as <-.
Qed.
Lemma callers_insert id other phase w : is_Some (w_callers w !! id) -> is_Some (<[other := phase]> (w_callers w) !! id).
Proof. intros Hs. destruct (decide (id = other)) as [->|]; [rewrite lookup_insert_eq; by eexists|by rewrite lookup_insert_ne]. Qed.
Lemma enqueue_known id other op w : id = other \/ id ∈ (w_returned w).*1 \/ is_Some (w_callers w !! id) ->
  id ∈ (w_returned (EnqueueAndWait other op w)).*1 \/ is_Some (w_callers (EnqueueAndWait other op w) !! id).
Proof.
  intros Hk. unfold EnqueueAndWait. repeat case_match; cbn.
  1-2: rewrite fmap_app, elem_of_app; cbn; rewrite list_elem_of_singleton; tauto.
  destruct Hk as [->|[?|?] ]; [right; rewrite lookup_insert_eq; by eexists|by left|right; by apply callers_insert].
Qed.
Lemma known_step id step w w' : worker_ok w -> tunnel_step step w = Moved w' -> known id w -> known id w'.
Proof.
  intros Hok E Hk. pose proof (step_kept step w Hok) as Hok'. rewrite E in Hok'. unfold known in *. rewrite <- (wo_callers w Hok) in Hk. rewrite <- (wo_callers w' Hok').
  destruct step; cbn in E; repeat (case_match; simplify_eq; try done); try (injection E as <-; try done).
  - apply enqueue_known. by right.
  - cbn. destruct Hk; [by left|right; by apply callers_insert].
  - cbn. rewrite fmap_app, elem_of_app. cbn. rewrite list_elem_of_singleton. destruct (decide (id = id0)) as [->|]; [by left; right|].
    rewrite lookup_delete_ne by done. tauto.
  - unfold Start. by destruct (w_started w).
  - unfold Stop. by destruct (w_started w).
  - unfold RequestDiscoveryAttempt. case_match; exact Hk.
  - destruct (worker_step_callers w w' E) as [-> ->]. done.
Qed.
Lemma calls_known steps : forall w w', worker_ok w -> tunnel_run steps w = Some w' ->
  forall id call, known id w \/ Ws_Call id call ∈ steps -> known id w'.
Proof.
  induction steps as [|step steps IH]; intros w w' Hok E id call Hk; cbn in E.
  - injection E as <-. destruct Hk as [?|Hin]; [done|by apply elem_of_nil in Hin].
  - pose proof (step_kept step w Hok) as Hok1. destruct (tunnel_step step w) as [| |w1] eqn:E1; [|done|].
    + apply (IH w w' Hok E id call). destruct Hk as [?|Hin]; [by left|]. apply elem_of_cons in Hin as [<-|?]; [left|by right].
      cbn in E1. case_match eqn:Ec; [done|]. apply andb_false_iff in Ec as [Ec|Ec]; apply bool_decide_eq_false in Ec; [right|left].
      * by apply not_eq_None_Some.
      * destruct (decide (id ∈ (w_returned w).*1)); done.
    + apply (IH w1 w' Hok1 E id call). destruct Hk as [Hk|Hin]; [left; exact (known_step id step w w1 Hok E1 Hk)|]. apply elem_of_cons in Hin as [<-|?]; [left|by right].
      cbn in E1. case_match; [|done]. injection E1 as <-. unfold known. rewrite <- (wo_callers _ Hok1). apply enqueue_known. by left.
Qed.

Lemma idle_complete w id op : worker_ok w -> ~ working (w_phase w) -> w_store w !! id = Some op -> op_complete op = false -> False.
Proof.
  intros Hok Hn E Hc. assert (id ∈ pointers w) as Hin by (apply (wo_alive w Hok); by exists op). destruct (wo_ended w Hok Hn) as [Eo Ep].
  unfold pointers in Hin. rewrite Eo, Ep in Hin. cbn in Hin. unfold working in Hn. destruct (w_phase w); cbn in Hin; try (by apply elem_of_nil in Hin); by apply Hn.
Qed.
Lemma blocked_cases w : worker_ok w -> worker_step w = Blocked -> ~ working (w_phase w) \/ w_phase w = Worker_Wait /\ wait_ends w = Some false.
Proof. intros Hok E. pose proof (worker_step_ok w Hok) as Hs. by rewrite E in Hs. Qed.
Lemma waits_for_nothing w : worker_ok w -> w_phase w = Worker_Wait -> wait_ends w = Some false ->
  (forall id, w_callers w !! id <> Some Caller_Signalling) -> w_signallers w = 0%nat -> w_stopper w <> Stopper_Signalling ->
  (forall id op, w_store w !! id = Some op -> op_complete op = false ->
     op_type op = Op_Poll /\ poll_waits (w_data w) op /\ (0 <= op_deadline_nanoseconds op -> w_now w < op_deadline_nanoseconds op)) /\
  (w_phase w = Worker_Wait -> w_stop_requested w = false /\ w_discovery_requested w = false /\ w_invalidation_requested w = false /\
     settled_flows (w_data w) /\
     Forall (fun entry => fe_occupied entry = true -> fe_completion_handle entry <> INVALID_HANDLE ->
               completion_signalled (wd_service (w_data w)) (fe_completion_handle entry) = false) (wd_flows (w_data w))).
Proof.
  intros Hok Ep Hwait Hcallers Hsignallers Hstopper. pose proof (wo_phase w Hok) as Hph. rewrite Ep in Hph. cbn in Hph. destruct Hph as (Hset & Hpolls & [K1 K2 K3]).
  unfold wait_ends in Hwait. destruct (deadlines_some _ _ (polls_alive w Hok)) as (deadlines & Ed & Hin). rewrite Ed in Hwait. cbn in Hwait.
  injection Hwait as Hwait. apply orb_false_iff in Hwait as [Hwait Hdead]. apply orb_false_iff in Hwait as [Hwait Hcomp]. apply orb_false_iff in Hwait as [Hwake Hevent].
  assert (w_operations w = []) as Eops.
  { destruct (w_operations w) eqn:Eo; [done|]. destruct K1 as [?|[id Hid] ]; [done|congruence|by apply Hcallers in Hid]. }
  assert (forall id, id ∈ pointers w <-> id ∈ w_pending_polls w) as Hpoint by (intros id; unfold pointers; by rewrite Eops, Ep, app_nil_r).
  split.
  - intros id op E Hc. assert (id ∈ w_pending_polls w) as Hid by (apply Hpoint, (wo_alive w Hok); by exists op).
    pose proof (wo_polls w Hok) as Ht. rewrite Forall_forall in Ht. specialize (Ht id Hid). cbn in Ht. rewrite E in Ht. injection Ht as Ht.
    unfold polls_wait in Hpolls. rewrite Forall_forall in Hpolls. destruct (Hpolls id Hid) as (op' & E' & Hw). assert (op' = op) as -> by congruence.
    split; [done|]. split; [done|]. intros Hpos. specialize (Hin id op Hid E).
    destruct (decide (w_now w < op_deadline_nanoseconds op)); [done|]. exfalso.
    assert (existsb (fun deadline => (0 <=? deadline) && (deadline <=? w_now w)) deadlines = true) as Ht'; [|congruence].
    apply existsb_exists. exists (op_deadline_nanoseconds op). split; [by apply list_elem_of_In|]. apply andb_true_iff. split; apply Z.leb_le; lia.
  - intros _. assert (w_started w = true) as Est by (destruct (w_started w) eqn:Es; [done|]; apply (wo_started w Hok) in Es; congruence).
    split; [|split; [|split; [done|split; [done|] ] ] ].
    + destruct (w_stop_requested w) eqn:Er; [|done]. pose proof (wo_stop w Hok Est Er) as Hs. destruct (w_stopper w); [done|done|congruence].
    + destruct (w_discovery_requested w) eqn:Er; [|done]. destruct (K2 eq_refl); congruence.
    + apply Forall_forall. intros entry Hentry Hocc Hhandle. destruct (completion_signalled _ _) eqn:Es; [|done]. exfalso.
      match type of Hcomp with existsb ?f ?l = false => assert (existsb f l = true) as Ht; [|congruence] end.
      apply existsb_exists. exists entry. split; [by apply list_elem_of_In|]. rewrite Hocc, Es. cbn. rewrite (proj2 (Z.eqb_neq _ _)); done.
Qed.
End Threads.
