(* ===== verification/TunnelOrder.v ===== *)
(** * What the socket interception guarantees

    The theorems about every run of the worker and of the threads that call it
    (TunnelWorker.v): it does for each socket what the specification of TunnelSockets.v
    allows, it submits the datagrams in the order in which they were sent, it answers each
    operation once, and it does not sleep while something can be done. *)

From stdpp Require Import gmap.
From S2P Require Import Prelude Endian Messages PacketQueue Platform Session Base64 InnerPacket Timers.
From S2P Require Import Crypto Device Data Identity Admission Handshake Peer PeerController RuntimeEvents.
From S2P Require Import FlowPolicy FlowPlane FlowTuples TunnelClient TunnelWorker TunnelQueues TunnelSockets TunnelDispatch TunnelThreads.
Local Open Scope Z_scope.

(** ** The datagrams of a log *)

(** What is sent on a flow, and what the service accepts of its batches. *)
Definition sent_of (event : WorkerEvent) : list bytes := match event with Ev_Sent _ payload => [payload] | _ => [] end.
Definition accepted_of (event : WorkerEvent) : list bytes :=
  match event with
  | Ev_Batch _ _ descriptors payload statuses =>
      take (fst (fst (read_dispositions statuses 0 false false)))
        ((fun descriptor => subspan payload (Z.to_nat (dd_payload_offset descriptor)) (Z.to_nat (dd_payload_size descriptor))) <$> descriptors)
  | _ => []
  end.
Definition sent (events : list WorkerEvent) : list bytes := events ≫= sent_of.
Definition accepted (events : list WorkerEvent) : list bytes := events ≫= accepted_of.
(** The flow keeps its socket. *)
Definition keeps_socket (event : WorkerEvent) : bool := match event with Ev_Opened _ _ _ _ _ | Ev_Reset _ => false | _ => true end.

Lemma batch_slices handle tag batch : forall before,
  (fun descriptor => subspan (before ++ mjoin batch) (Z.to_nat (dd_payload_offset descriptor)) (Z.to_nat (dd_payload_size descriptor)))
    <$> batch_descriptors handle tag (Z.of_nat (length before)) batch = batch.
Proof.
  induction batch as [|payload batch IH]; intros before; [done|]. cbn [batch_descriptors fmap list_fmap mjoin list_join dd_payload_offset dd_payload_size].
  rewrite !Nat2Z.id. f_equal.
  - unfold subspan. by rewrite drop_app_length, take_app_length.
  - specialize (IH (before ++ payload)). rewrite length_app, Nat2Z.inj_add, <- app_assoc in IH. exact IH.
Qed.

(** The datagrams that wait are those that were sent and are not accepted yet, until the
    flow is closed. *)
Definition in_order (events : list WorkerEvent) (s : SocketSpec) : Prop :=
  if so_closed s then accepted events `prefix_of` sent events else sent events = accepted events ++ so_queue s.
Lemma in_order_prefix events s : in_order events s -> accepted events `prefix_of` sent events.
Proof. unfold in_order. destruct (so_closed s); [done|]. intros ->. by apply prefix_app_r. Qed.
(** An event that sends and submits nothing. *)
Lemma in_order_quiet events event s s' : in_order events s -> sent_of event = [] -> accepted_of event = [] ->
  (so_closed s' = true \/ so_closed s' = so_closed s /\ so_queue s' = so_queue s) -> in_order (events ++ [event]) s'.
Proof.
  intros Hin Es Ea Hs. pose proof (in_order_prefix events s Hin) as Hp. unfold in_order, sent, accepted in *. rewrite !bind_app. cbn [mbind list_bind].
  rewrite Es, Ea, !app_nil_r. destruct Hs as [->|[-> ->] ]; [exact Hp|exact Hin].
Qed.
Lemma completion_cases completion payload s :
  so_closed (socket_completion completion payload s) = true \/
  so_closed (socket_completion completion payload s) = so_closed s /\ so_queue (socket_completion completion payload s) = so_queue s.
Proof.
  unfold socket_completion. destruct (so_open s) as [ [ [ [owner descriptor] handle] remote]|]; [|by right]. destruct (_ || _); [by right|].
  destruct (cr_type completion); [destruct (_ && _)|destruct (cr_flow_state completion)| |]; auto.
Qed.
Lemma in_order_step events event s s' : in_order events s -> socket_step s event s' -> keeps_socket event = true -> in_order (events ++ [event]) s'.
Proof.
  intros Hin Hstep Hkeep. destruct Hstep; try done.
  - unfold in_order in *. cbn. match goal with K : so_closed s = false |- _ => rewrite K in * end. unfold sent, accepted in *. rewrite !bind_app. cbn.
    by rewrite Hin, app_nil_r, app_assoc.
  - unfold in_order in Hin. match goal with K : so_closed s = false |- _ => rewrite K in Hin end.
    pose proof (read_dispositions_bound statuses 0 false false) as Hbound. unfold in_order, socket_submitted, sent, accepted in *.
    rewrite !bind_app. cbn [mbind list_bind sent_of accepted_of]. rewrite !app_nil_r, Hin.
    pose proof (batch_slices handle (u64 descriptor) batch []) as Hslices. cbn [app length] in Hslices. change (Z.of_nat 0) with 0 in Hslices. rewrite Hslices.
    destruct (read_dispositions statuses 0 false false) as [ [count full] terminal]. cbn [fst] in *.
    assert (take count batch = take count (so_queue s)) as ->.
    { subst batch. rewrite take_take. f_equal. match goal with K : length statuses = _ |- _ => rewrite length_take in K end. lia. }
    destruct terminal; cbn.
    + apply prefix_app, prefix_take.
    + destruct full; cbn; match goal with K : so_closed s = false |- _ => rewrite K end; by rewrite <- app_assoc, take_drop.
  - apply (in_order_quiet events _ s); [done..|]. apply completion_cases.
  - apply (in_order_quiet events _ s); [done..|]. by left.
  - apply (in_order_quiet events _ s); [done..|]. by right.
Qed.
Lemma in_order_steps s0 events s : socket_steps s0 events s -> in_order [] s0 -> Forall (fun event => keeps_socket event = true) events -> in_order events s.
Proof.
  intros Hsteps H0. induction Hsteps as [|s0 events event s1 s2 Hsteps IH Hstep]; [done|]. intros Hall. apply Forall_app in Hall as [Hall Hone].
  apply Forall_cons in Hone as [Hone _]. eapply in_order_step; [by apply IH|done|done].
Qed.
Lemma socket_steps_split s1 events1 events2 s3 : socket_steps s1 (events1 ++ events2) s3 -> exists s2, socket_steps s1 events1 s2 /\ socket_steps s2 events2 s3.
Proof.
  revert s3. induction events2 as [|event events2 IH] using rev_ind; intros s3 Hs.
  - rewrite app_nil_r in Hs. exists s3. split; [done|constructor].
  - rewrite app_assoc in Hs. inversion Hs as [|? events' event' s2' ? Hs' Hstep]; subst; [by destruct (events1 ++ events2)|].
    match goal with K : _ ++ [_] = _ ++ [_] |- _ => apply app_inj_tail in K as [-> ->] end.
    destruct (IH _ Hs') as (s2 & K1 & K2). exists s2. split; [done|]. by econstructor.
Qed.
(** From the opening of a socket on, what is accepted is a prefix of what is sent. *)
Lemma trace_in_order flow before owner descriptor handle remote events after s :
  socket_trace flow (before ++ Ev_Opened flow owner descriptor handle remote :: events ++ after) s ->
  Forall (fun event => event_flow event = flow -> keeps_socket event = true) events ->
  accepted (filter (fun event => event_flow event = flow) events) `prefix_of` sent (filter (fun event => event_flow event = flow) events).
Proof.
  unfold socket_trace. intros Hs Hall. rewrite filter_app, filter_cons_True, filter_app in Hs by done. apply socket_steps_split in Hs as (s1 & _ & Hs).
  change (?e :: ?l) with ([e] ++ l) in Hs. apply socket_steps_split in Hs as (s2 & Hopen & Hs). apply socket_steps_split in Hs as (s3 & Hs & _).
  inversion Hopen as [|? events' event' s' ? Hnil Hstep]; subst.
  match goal with K : _ ++ [_] = [_] |- _ => apply (app_inj_tail _ []) in K as [-> ->] end.
  apply (in_order_prefix _ s3). apply (in_order_steps s2); [done|by inversion Hstep|].
  apply Forall_forall. intros event Hin. apply list_elem_of_filter in Hin as [Hf Hin]. rewrite Forall_forall in Hall. by apply Hall.
Qed.

(** ** The theorems *)

(** C36. Whatever the service answers and however the threads interleave, no step of the
    interception's worker aborts or reads outside of an array or of a live operation
    ([tunnel_run] is never [None]), and the log of every flow is a trace of [SocketSpec]
    in a state that the flow's entry implements: datagrams are queued while the flow is
    writable, batches are the oldest queued ones with exact descriptors, what is received
    was delivered from the socket's remote endpoint and is received once. *)
Theorem worker_refines_sockets {T} `{TunnelService T} (service : T) (steps : list (WorkerStep T)) : exists w,
  tunnel_run steps (worker_init service) = Some w /\
  forall flow, (flow < MaximumSockets)%nat -> exists s, socket_trace flow (wd_log (w_data w)) s /\ represents flow (w_data w) s.
Proof.
  destruct (run_kept steps _ (init_ok service)) as (w & E & Hok). exists w. split; [done|]. apply (wo_sockets w Hok).
Qed.

(** A socket is opened, a datagram is sent, and a second thread polls for an answer. *)
Definition example_polled : list (WorkerStep ExampleService) :=
  example_start ++ example_call 1 (Call_OpenConnectedUdp 1 5 example_remote) ++ example_call 2 (Call_Send 1 5 [1; 2; 3])
    ++ example_call 3 (Call_Poll 1 5 POLLIN (-1)).
Definition example_end : TunnelWorker ExampleService := default (worker_init []) (tunnel_run example_polled (worker_init [])).
Lemma example_end_run : tunnel_run example_polled (worker_init []) = Some example_end.
Proof. vm_compute. reflexivity. Qed.

Lemma worker_refines_sockets_witness : exists w, tunnel_run example_polled (worker_init []) = Some w /\
  exists s, socket_trace 0 (wd_log (w_data w)) s /\ represents 0 (w_data w) s.
Proof.
  destruct (worker_refines_sockets ([] : ExampleService) example_polled) as (w & E & Hs). exists w. split; [exact E|]. apply (Hs 0%nat).
  unfold MaximumSockets. lia.
Defined.



(** C38. Every call of the interface is either with the worker or has returned, and
    returns once; the worker's queues and its phase point to exactly the operations that
    are not complete, each of them once, so that no pointer outlives the call; and the
    queues hold at most [MaximumSockets] of them. *)
Theorem operations_answered {T} `{TunnelService T} (service : T) (steps : list (WorkerStep T)) : exists w,
  tunnel_run steps (worker_init service) = Some w /\
  (forall id call, Ws_Call id call ∈ steps -> id ∈ (w_returned w).*1 \/ is_Some (w_store w !! id)) /\
  NoDup (w_returned w).*1 /\ (forall id, id ∈ (w_returned w).*1 -> w_store w !! id = None) /\
  NoDup (pointers w) /\ (forall id, id ∈ pointers w <-> exists op, w_store w !! id = Some op /\ op_complete op = false) /\
  (length (w_operations w) <= MaximumSockets /\ length (w_pending_polls w) <= MaximumSockets)%nat.
Proof.
  destruct (run_kept steps _ (init_ok service)) as (w & E & Hok). exists w. split; [done|]. split; [|by destruct Hok].
  intros id call Hin. apply (calls_known steps _ w (init_ok service) E id call). by right.
Qed.

Lemma operations_answered_witness : exists w, tunnel_run example_polled (worker_init []) = Some w /\
  (3%nat ∈ (w_returned w).*1 \/ is_Some (w_store w !! 3%nat)).
Proof.
  destruct (operations_answered ([] : ExampleService) example_polled) as (w & E & Hknown & _). exists w. split; [exact E|].
  apply (Hknown 3%nat (Call_Poll 1 5 POLLIN (-1))). unfold example_polled, example_call. rewrite !elem_of_app. right; right; right; left. left.
Defined.

(** C39. When the worker's thread cannot go on and every other thread has delivered its
    signals, each operation that is not complete is a poll whose socket is open and not
    ready and whose deadline has not passed.  If the thread waits, no stop, discovery or
    invalidation is requested, no flow has a datagram that it could submit, and no flow's
    completion event is signalled. *)
Theorem worker_never_sleeps_on_work {T} `{TunnelService T} (service : T) (steps : list (WorkerStep T)) w :
  tunnel_run steps (worker_init service) = Some w -> worker_step w = Blocked ->
  (forall id, w_callers w !! id <> Some Caller_Signalling) -> w_signallers w = 0%nat -> w_stopper w <> Stopper_Signalling ->
  (forall id op, w_store w !! id = Some op -> op_complete op = false ->
     op_type op = Op_Poll /\ poll_waits (w_data w) op /\ (0 <= op_deadline_nanoseconds op -> w_now w < op_deadline_nanoseconds op)) /\
  (w_phase w = Worker_Wait -> w_stop_requested w = false /\ w_discovery_requested w = false /\ w_invalidation_requested w = false /\
     settled_flows (w_data w) /\
     Forall (fun entry => fe_occupied entry = true -> fe_completion_handle entry <> INVALID_HANDLE ->
               completion_signalled (wd_service (w_data w)) (fe_completion_handle entry) = false) (wd_flows (w_data w))).
Proof.
  intros E Hblocked Hcallers Hsignallers Hstopper. destruct (run_kept steps _ (init_ok service)) as (w' & E' & Hok). assert (w' = w) as -> by congruence.
  destruct (blocked_cases w Hok Hblocked) as [Hidle|[Ep Hwait] ].
  - split; [|intros Ep; exfalso; apply Hidle; by rewrite Ep]. intros id op Eop Hc. exfalso. by eapply idle_complete.
  - by apply waits_for_nothing.
Qed.

Lemma worker_never_sleeps_on_work_witness : w_phase example_end = Worker_Wait /\ w_pending_polls example_end = [3%nat] /\
  settled_flows (w_data example_end) /\ exists op, w_store example_end !! 3%nat = Some op /\ poll_waits (w_data example_end) op.
Proof.
  assert (w_phase example_end = Worker_Wait) as Ep by (vm_compute; reflexivity).
  destruct (worker_never_sleeps_on_work ([] : ExampleService) example_polled example_end) as [Hpoll Hwait].
  - exact example_end_run.
  - vm_compute. reflexivity.
  - intros id E. assert (map_Forall (fun _ phase => phase <> Caller_Signalling) (w_callers example_end)) as Hall.
    { apply (bool_decide_unpack _). vm_compute. exact I. }
    exact (Hall id _ E eq_refl).
  - vm_compute. reflexivity.
  - vm_compute. discriminate.
  - split; [exact Ep|]. split; [vm_compute; reflexivity|]. split; [exact (proj1 (proj2 (proj2 (proj2 (Hwait Ep)))))|].
    destruct (w_store example_end !! 3%nat) as [op|] eqn:E; [|vm_compute in E; discriminate]. exists op. split; [reflexivity|].
    apply (Hpoll 3%nat op E). assert (op_complete <$> w_store example_end !! 3%nat = Some false) as Hc by (vm_compute; reflexivity).
    rewrite E in Hc. by injection Hc.
Defined.
